(* ===== verification/_CoqProject ===== *)
-Q . S2P
Prelude.v
Bytes.v
Runs.v
FixedQueue.v
MemPool.v
Bitmap.v
Ids.v
Lmt.v
Store.v
RedoLog.v
StoreOps.v
Views.v
OpSteps.v
Boot.v
BootSpec.v
Handlers.v
MetaData.v
Crash.v
History.v
Recovery.v
RecoveryProps.v
RecoveryFinish.v
StoreProps.v
IoProps.v
Limits.v
EventQueue.v
SpdkQueue.v
Volume.v
Connection.v
Dispatcher.v
DispatcherProps.v
DispatcherLimits.v
Replicator.v
ReplicatorProps.v
Utils.v
AppVolumes.v
AppProps.v
TcpServer.v
TcpProps.v
TcpSend.v
TcpLimits.v
TcpLife.v
Aof.v
AofProps.v
AofFile.v
AofCache.v
AofTable.v
Iov.v
Client.v
ClientProps.v
ClientRuns.v
ClientWire.v
ClientLimits.v
Poller.v
AioEngine.v
SharedDisk.v
ThreadPool.v
BgTask.v
Scrub.v
DList.v
Utf8.v
Conf.v
Rdma.v
