(* ===== verification/Prelude.v ===== *)
(** * PureFlash: a verification library for the store node and its client

    ** The program

    PureFlash is a distributed block store.  A volume is cut into shards, a
    shard has up to five replicas on different store nodes, and one of them
    is the primary.  Modelled are the store node (src/pfs, with the code of
    src/common it uses) and the client library (src/common).  The parts of
    the node and their interaction:

    - the REST handlers (src/pfs/src/pf_restful_api.cpp) receive the
      description of volumes from the conductor and put them into the tables
      of the dispatchers;
    - a TCP connection (src/common/src/pf_tcp_connection.cpp, with the
      callbacks of src/pfs/src/pf_server.cpp) turns the bytes of a client into
      request blocks of a dispatcher and replies into bytes, on the thread of
      a poller;
    - a dispatcher (src/pfs/src/pf_dispatcher.cpp) is an event thread that
      takes the requests of clients, splits each into subtasks, one per
      replica, and answers when all have completed;
    - a replicator (src/pfs/src/pf_replicator.cpp) is an event thread that
      sends subtasks to other nodes over a pool of connections;
    - the flash store (src/pfs/src/pf_flash_store.cpp) is the event thread of
      a disk: a map from blocks to the objects that hold their snapshots,
      queues of free objects and of objects to trim, copy on write, deletion
      of snapshots, recovery of a replica from another node;
    - an I/O engine (src/common/src/pf_ioengine.cpp) gives the transfers of a
      store to the kernel and takes their completions;
    - the redo log (src/pfs/src/pf_redolog.cpp) makes the map and the queues
      survive a crash: changes are logged, the metadata are saved from time
      to time into one of two zones, and a compaction thread does so from the
      disk alone;
    - a task manager with a thread pool (src/pfs/src/pf_bgtask_manager.cpp)
      runs recoveries in the background; the scrubber (pf_scrub.cpp) compares
      objects by their digests;
    - a disk that several nodes see is initialised under a lock on the disk
      (src/pfs/src/pf_atslock.cpp);
    - event queues, pollers, rings, pools and bitmaps (src/common) connect
      them.

    On the other side of a connection, in the process of a user:

    - the client library (src/common/src/pf_client_api.cpp) takes the
      requests of users, sends them to the node that has the shard, and sends
      them again after timeouts and after the volume was opened again; a
      volume thread, the poller, a timeout thread and the callers share it;
    - append-only files (src/common/src/pf_aof.cpp) are volumes with a head
      page that keeps the length of the file, a buffer for appends, a window
      cache for reads (pf_aof_cache.cpp) and a table of opened files.

    ** The files and what they model

    - Prelude (this file): outcomes of C++ code, arrays with bounds, machine
      integers, tactics and lemmas the other files share.
    - Bytes: integers as little-endian bytes.  Runs: calls that may wait for
      ever ([run]), buffers with bounds.
    - FixedQueue, MemPool, Bitmap: PfFixedSizeQueue, ObjectMemoryPool and
      PfBitmap (common/include/pf_fixed_size_queue.h, pf_mempool.h,
      pfs/include/pf_bitmap.h).  [Fifo] is the interface between the first
      two.
    - Ids: ids, operation codes, the layout of a disk and its head page.
    - Lmt: the entries of the map and the routines on their linked lists
      (common/include/pf_lmt.h), on a heap of nodes and as list functions.
    - Store: the state of the flash store and of the log, writing the log and
      saving the metadata.  StoreOps: the handlers of its event thread.
      RedoLog: replay.  Boot: loading, checking, starting, compacting.
      MetaData: the bytes of a metadata zone and its checksum
      (pfs/src/pf_md5.cpp).
    - Views, OpSteps, BootSpec, Handlers, Crash, History: the proofs about
      the store.  A view is what the log and the zones keep of a store; every
      handler is a sequence of logged steps on views; [Crash] is the protocol
      of zones and log; [History] lets handlers, compactions and crashes
      follow each other in any order.
    - StoreProps, IoProps, Limits: the theorems about the store.
    - Recovery, RecoveryProps, RecoveryFinish: recovery of a replica.
    - EventQueue: PfEventQueue and the loop of an event thread.  SpdkQueue:
      PfSpdkQueue (common/src/pf_spdk_ring.cpp) and the loop over it.
    - Volume, Connection: volumes, shards, replicas; connections, their
      reference count and throttle; message heads.
    - Dispatcher, DispatcherProps, DispatcherLimits: the dispatcher and the
      error handler (pfs/src/pf_error_handler.cpp).
    - Replicator, ReplicatorProps: the replicator and its connection pool
      (common/src/pf_connection_pool.cpp).
    - TcpServer: a TCP connection of a client and the callbacks of the server,
      from accept to close; TcpProps (receiving), TcpSend (sending), TcpLife
      (handshake and closing), TcpLimits (lengths it does not check): the
      theorems about it.
    - Rdma: an RDMA connection of a client (pfs/src/pf_rdma_server.cpp,
      common/src/pf_rdma_connection.cpp) with the adapter, the poller and the
      dispatcher around it, and the theorems about it.
    - Utils: split_string (common/src/pf_utils.cpp).
    - AppVolumes, AppProps: the REST handlers that change the tables of
      volumes, with the lookups of pfs/src/pf_main.cpp.
    - Iov: the copies between a buffer and the parts of a vector.  Client:
      the state of a client of one volume, pf_io_submit and pf_iov_submit,
      the handlers of PfClientVolume::process_event, the callback of the
      network, the timeout thread.  ClientProps (the invariant), ClientRuns
      (runs of a client), ClientWire (from the client to the server of
      TcpServer), ClientLimits: the theorems about it.
    - Aof: PfAof (create, open, append, sync, read) on a volume.  AofProps,
      AofFile: the theorems about it.  AofCache: the window cache.
      AofTable: the table of opened files, rename and delete.
    - Poller: descriptors watched by epoll and a round of the poller's thread.
      AioEngine: PfAioEngine.  SharedDisk: the lock of shared disks and
      shared_disk_init, for any number of nodes.  ThreadPool: the pool
      (pfs/include/pf_threadpool.h).  BgTask: the manager of background tasks
      and its REST handlers.  Scrub: the digests of an object.
    - DList: the linked lists of common/src/pf_list.cpp on a heap.  Utf8:
      common/src/pf_utf8.cpp.  Conf: the configuration file, its parser and
      its printing (common/src/pf_conf_utils.cpp, pf_strtol.cpp, pf_conf.cpp).

    ** How the code is represented

    A C++ object is a record, an enumeration with behaviour an inductive
    type, a container a list or a finite map.  A method is a function on the
    state that returns an [outcome]: [Done] with the new state, [Fatal] where
    the process ends on purpose (S5LOG_FATAL, a failed assert, an exception
    nobody catches), [Undef] for undefined behaviour (a null or dangling
    pointer, an index out of range).  Integers are [Z] with the wrap-around
    written out where a width matters.  Effects that leave a component (an
    answer, a submission to a disk or a connection) are appended to a list
    of actions; what comes back from outside (the network, the disk, the
    conductor, the clock, a digest) is an argument of the definitions.

    The store node is a set of threads that exchange events.  A handler runs
    to its end on its thread, so it is one function; histories and step
    relations ([History], [eq_step], [flight_step], [mgmt_step], [pool_step],
    [bg_step], [rsys_step], [sp_step], and [sys_step] for several nodes on a disk) put handlers,
    completions and crashes into any order.  The spin-locked queue between
    two threads is modelled at the granularity of its critical sections and
    system calls.

    ** What is proved

    - Crash safety: in every history, a crash at any point and a restart give
      the metadata that were in memory, without the copies that had not
      ended ([StoreProps.crash_recovery]); handlers return, objects are
      neither lost nor shared, extents do not overlap, and the compaction
      makes room in the log.
    - Requests on the store: which object reads and writes go to, what they
      change, what copies on write and deletions of snapshots leave to other
      snapshots ([IoProps]).
    - Recovery: a recovered block has the snapshots and the data of the
      primary whatever the order of the reads, with the writes made in the
      meantime on top ([RecoveryProps], [RecoveryFinish]).
    - Bytes: a saved metadata zone is read back ([MetaData.zone_roundtrip]).
    - Requests on the node: a request is answered exactly once, after the
      last subtask ([DispatcherProps]); a replicator loses no subtask
      ([ReplicatorProps]); events are handled once and in order, and no
      wakeup is lost ([EventQueue]); over SPDK no message is in two places and
      events are handled in order too ([SpdkQueue]); the throttle bounds the requests in
      flight ([Connection]).
    - Bytes of a connection: whatever the pieces in which bytes arrive and
      leave, a handshake attaches its blocks, requests reach the dispatcher
      in order with their data, and replies leave in order with the data of
      reads ([TcpLife], [TcpProps], [TcpSend]).
    - RDMA: whatever the order of completions and answers, a connection never
      uses what it has given up, and after a disconnection it ends and gives
      its blocks back ([Rdma]).
    - Requests of users: whatever a client goes through, a request it has
      accepted is answered once ([ClientRuns]), and what it puts on a
      connection is received by the server as the requests of its users,
      heads and data ([ClientWire]).
    - Append-only files: a file is the list of the bytes appended to it, a
      crash in a sync loses nothing that was synced, the cache reads what the
      file holds, and a name has one object ([AofFile], [AofCache],
      [AofTable]).
    - Events and transfers: an event reaches the handler of the registration
      it was reported for ([Poller]), and every transfer given to the engine
      ends its task once ([AioEngine]).
    - Background tasks: the pool forgets no task and loses no wakeup
      ([ThreadPool]), and every task ends and is reported ([BgTask]).
    - Shared disks: with a lock that a format does not clear, at most one
      node formats at a time and all nodes agree on the disk; with the lock
      where the code puts it, none is ever initialised ([SharedDisk]).
    - Tables of volumes: dispatchers agree, volumes stay well formed, a newer
      description keeps replicas in recovery ([AppProps]).
    - Data structures: the ring refines a bounded list, the pool hands an
      object to one owner, the bitmap is a set, linked lists are sequences
      ([DList]), list routines and id macros are correct.
    - Configuration: a printed configuration is read back, every text is read
      to its end, integers are read exactly ([Conf]); the texts accepted as
      UTF-8 are the encodings of sequences of characters ([Utf8]).
    - Limits: where the conditions of these theorems fail, theorems on what
      the code then does ([Limits], [DispatcherLimits],
      [TcpLimits], [ClientLimits], parts of [MetaData], [RecoveryFinish],
      [ReplicatorProps], [TcpLife], [AofFile], [AofCache], [AofTable],
      [Poller], [AioEngine], [SharedDisk], [ThreadPool], [DList], [Conf],
      [Rdma] and [SpdkQueue], and [Scrub]).

    ** Bounds and fuel

    Loops over memory run on the length of the list they walk, so they need
    no fuel.  Loops with fuel: the routines on linked lists (Lmt) get the
    number of nodes of the heap, and the refinement lemmas show that this is
    enough; replay (RedoLog) gets the number of pages of a log zone;
    the buffered chunks of a zone (MetaData) get the number of chunks;
    [split_string] gets the length of the string and is proved to end; the
    loops of a connection (TcpServer), which call themselves through the
    callbacks, get a number of rounds, and the theorems say how many are
    enough: three per block waiting and three more to receive, three per
    reply and one per call the socket accepts to send.  A sync (Aof) gets a
    round per byte of the buffer and one more, appending and reading a round
    per byte, a read through the cache a round per byte and two per slot; all
    are proved to be enough.  The parser of the configuration (Conf) gets a
    round per byte and one more, which [Conf.load_total] shows to be enough.
    Files are shorter than 2^62 bytes, so that
    offsets do not overflow; a client has at most 2^16 blocks, so that the
    number of a block fits a message.
    Histories are of any length.

    ** Not modelled, and why

    - System calls and libraries (sockets, verbs, epoll, libaio, io_uring,
      SPDK, SCSI commands): their results are arguments, or part of the state
      for TCP, epoll, RDMA and the lock of a shared disk.  Not modelled are
      the connecting side of RDMA (resolution and handshake), memory regions,
      and the engines on io_uring and SPDK.
    - HTTP, JSON, ZooKeeper, the conductor: other programs and libraries.
    - The digest of a whole replica (Scrub::cal_replica), which depends on the
      scheduling inside the digest library.
    - Data of client requests between a connection and the store: the
      dispatcher passes pointers; the bytes in the buffers are modelled in
      the connection, those on the disk in the store.
    - Times, trace records, logging.
    - Of the client library, opening a context and a volume (files, HTTP,
      JSON and threads), administrative calls, RDMA, and shards on a local
      disk, which no request can reach (pf_client_store.cpp); of append-only
      files, the queries of the conductor and the helper of the tests.
    - Tools, the kernel driver and the old library under S5bd and sld: other
      programs.
    - Third-party code (SQLite, cxxopts, generated stubs). *)

From Stdlib Require Import ZArith Lia.
From stdpp Require Import base tactics list numbers sets gmap.

#[global] Open Scope Z_scope.

(** ** Outcomes of C++ code

    A call either returns ([Done]), ends the process on purpose
    ([Fatal]: [S5LOG_FATAL], a failed [assert], an exception no caller
    catches) or has undefined behaviour ([Undef]: a null or dangling
    pointer, an index out of range). *)
Inductive outcome (A : Type) : Type :=
| Done (a : A)
| Fatal
| Undef.

Arguments Done {A} a.
Arguments Fatal {A}.
Arguments Undef {A}.

Definition obind {A B : Type} (m : outcome A) (k : A -> outcome B) : outcome B :=
  match m with
  | Done a => k a
  | Fatal => Fatal
  | Undef => Undef
  end.

Declare Scope pf_scope.
Delimit Scope pf_scope with pf.
Notation "'let*' x ':=' m 'in' k" := (obind m (fun x => k))
  (at level 10, x pattern, m at level 100, k at level 200) : pf_scope.
#[global] Open Scope pf_scope.

Definition is_done {A : Type} (m : outcome A) : bool :=
  match m with Done _ => true | _ => false end.

Definition of_option {A : Type} (o : option A) : outcome A :=
  match o with Some a => Done a | None => Undef end.

(** ** Error codes of <errno.h> used by the code *)
Definition ENOENT : Z := 2.
Definition EIO : Z := 5.
Definition EAGAIN : Z := 11.
Definition ENOMEM : Z := 12.
Definition EBUSY : Z := 16.
Definition EEXIST : Z := 17.
Definition EINVAL : Z := 22.
Definition ENOSPC : Z := 28.
Definition EALREADY : Z := 114.
Definition ESTALE : Z := 116.
Definition EUCLEAN : Z := 117.

(** ** Machine integers *)
Definition u16 (x : Z) : Z := x mod 2 ^ 16.
Definition u32 (x : Z) : Z := x mod 2 ^ 32.
Definition u64 (x : Z) : Z := x mod 2 ^ 64.
(** the value an [int] (32 bits, two's complement) takes *)
Definition i32 (x : Z) : Z := (x + 2 ^ 31) mod 2 ^ 32 - 2 ^ 31.

(** ** Arrays: lists indexed by [Z] *)
Definition arr_get {A : Type} (l : list A) (i : Z) : option A :=
  if decide (0 <= i) then l !! Z.to_nat i else None.

Definition arr_set {A : Type} (l : list A) (i : Z) (x : A) : option (list A) :=
  if decide (0 <= i < Z.of_nat (length l)) then Some (<[Z.to_nat i := x]> l)
  else None.

(** ** Tactics *)
Create HintDb pf discriminated.

(** Splits every [if decide P] of the goal or the context. *)
Ltac split_decide := repeat (case_decide || case_bool_decide).

(** Solves the arithmetic side conditions with [mod] and [/]. *)
Ltac zmod := Z.div_mod_to_equations; nia.

Ltac destruct_match :=
  match goal with
  | |- context [match ?x with _ => _ end] => destruct x eqn:?
  | H : context [match ?x with _ => _ end] |- _ => destruct x eqn:?
  end.

(** Splits conjunctions without unfolding definitions. *)
Ltac splits := repeat match goal with |- _ /\ _ => split end.

(** Takes apart [Done a = Done b] and the binds in hypotheses. *)
Ltac inv_done :=
  repeat match goal with
  | H : Done _ = Done _ |- _ => injection H as H; subst
  | H : obind ?m _ = Done _ |- _ =>
      let a := fresh "a" in let E := fresh "E" in
      destruct m as [a| |] eqn:E; cbn [obind] in H; try discriminate H
  | H : Fatal = Done _ |- _ => discriminate H
  | H : Undef = Done _ |- _ => discriminate H
  end.

(** ** Generic lemmas *)
Section Arrays.
Context {A : Type}.
Implicit Types (l : list A) (i j : Z) (x : A).

Lemma arr_get_lookup l i : 0 <= i -> arr_get l i = l !! Z.to_nat i.
Proof. intros. unfold arr_get. by rewrite decide_True. Qed.

Lemma arr_get_nat l (n : nat) : arr_get l (Z.of_nat n) = l !! n.
Proof. rewrite arr_get_lookup by lia. by rewrite Nat2Z.id. Qed.

Lemma arr_get_Some_lt l i x : arr_get l i = Some x -> 0 <= i < Z.of_nat (length l).
Proof.
  unfold arr_get. case_decide; [|done]. intros H1%lookup_lt_Some. lia.
Qed.

Lemma arr_get_is_Some l i : 0 <= i < Z.of_nat (length l) -> is_Some (arr_get l i).
Proof. intros. rewrite arr_get_lookup by lia. apply lookup_lt_is_Some. lia. Qed.

Lemma arr_set_spec l i x :
  0 <= i < Z.of_nat (length l) -> arr_set l i x = Some (<[Z.to_nat i := x]> l).
Proof. intros. unfold arr_set. by rewrite decide_True. Qed.

Lemma arr_set_length l i x l' : arr_set l i x = Some l' -> length l' = length l.
Proof. unfold arr_set. case_decide; [|done]. intros [= <-]. apply length_insert. Qed.

Lemma arr_get_set l i j x l' :
  arr_set l i x = Some l' ->
  arr_get l' j = if decide (i = j) then Some x else arr_get l j.
Proof.
  unfold arr_set, arr_get. case_decide; [|done]. intros [= <-].
  case_decide as Hj; [|by rewrite decide_False by lia].
  case_decide; subst.
  - by rewrite list_lookup_insert_eq by lia.
  - by rewrite list_lookup_insert_ne by lia.
Qed.
End Arrays.

Lemma i32_small x : - 2 ^ 31 <= x < 2 ^ 31 -> i32 x = x.
Proof. intros. unfold i32. rewrite Z.mod_small; lia. Qed.

Lemma u32_small x : 0 <= x < 2 ^ 32 -> u32 x = x.
Proof. intros. unfold u32. by rewrite Z.mod_small. Qed.

Lemma u64_small x : 0 <= x < 2 ^ 64 -> u64 x = x.
Proof. intros. unfold u64. by rewrite Z.mod_small. Qed.

#[export] Hint Resolve i32_small u32_small u64_small : pf.

(** A sum below twice the modulus wraps at most once. *)
Lemma mod_add_once a b d :
  0 <= a < d -> 0 <= b <= d -> (a + b) mod d = if decide (a + b < d) then a + b else a + b - d.
Proof.
  intros. case_decide; [apply Z.mod_small; lia|].
  symmetry. apply (Z.mod_unique _ _ 1); lia.
Qed.

Lemma omap_length_total {A B : Type} (f : A -> option B) (l : list A) :
  (forall y, y ∈ l -> is_Some (f y)) -> length (omap f l) = length l.
Proof.
  induction l as [|a l IH]; intros Hf; [done|]. csimpl.
  destruct (Hf a) as [b Hb]; [set_solver|]. rewrite Hb. csimpl. f_equal.
  apply IH. set_solver.
Qed.

Lemma omap_ext_in {A B : Type} (f g : A -> option B) (l : list A) :
  (forall y, y ∈ l -> f y = g y) -> omap f l = omap g l.
Proof.
  induction l as [|a l IH]; intros Hf; [done|]. csimpl.
  rewrite Hf by set_solver. rewrite IH; [done|]. set_solver.
Qed.

Lemma mod_add_inj d h i j :
  0 <= i < d -> 0 <= j < d -> (h + i) mod d = (h + j) mod d -> i = j.
Proof.
  intros Hi Hj E. assert (Hd : d <> 0) by lia.
  pose proof (Z.div_mod (h + i) d Hd). pose proof (Z.div_mod (h + j) d Hd).
  rewrite E in *. set ((h + i) / d) as a in *. set ((h + j) / d) as b in *.
  assert (d * (a - b) = i - j) by lia. assert (a - b = 0) by nia. lia.
Qed.

Lemma omap_fmap_comp {A B C : Type} (f : A -> B) (g : B -> option C) (l : list A) :
  omap g (f <$> l) = omap (g ∘ f) l.
Proof.
  induction l as [|a l IH]; [done|]. csimpl. rewrite IH. done.
Qed.
