(* ===== verification/Bytes.v ===== *)
(** * Integers as bytes

    The little-endian layout of the integers in packed structures: the
    records of a metadata zone and the messages on the network. *)

From Stdlib Require Import ZArith Lia.
From stdpp Require Import base tactics list numbers.
From S2P Require Import Prelude.

Fixpoint le (n : nat) (z : Z) : list Z :=
  match n with
  | O => []
  | S n => z mod 256 :: le n (z / 256)
  end.

Fixpoint unle (l : list Z) : Z :=
  match l with
  | [] => 0
  | b :: l => b + 256 * unle l
  end.

(** A signed value of [8 * n] bits. *)
Definition sext (n : nat) (z : Z) : Z :=
  if z <? 2 ^ (8 * Z.of_nat n - 1) then z else z - 2 ^ (8 * Z.of_nat n).

Lemma le_length n z : length (le n z) = n.
Proof. revert z. induction n as [|n IH]; intros z; simpl; [done|by rewrite IH]. Qed.

Lemma unle_le n z : unle (le n z) = z mod 2 ^ (8 * Z.of_nat n).
Proof.
  revert z. induction n as [|n IH]; intros z; cbn [le unle].
  { by rewrite Z.mod_1_r. }
  rewrite IH, Nat2Z.inj_succ. replace (8 * Z.succ (Z.of_nat n)) with (8 + 8 * Z.of_nat n) by lia.
  rewrite Z.pow_add_r by lia. change (2 ^ 8) with 256. rewrite Z.rem_mul_r by lia. lia.
Qed.

Lemma sext_mod n z :
  (0 < n)%nat -> - 2 ^ (8 * Z.of_nat n - 1) <= z < 2 ^ (8 * Z.of_nat n - 1) ->
  sext n (z mod 2 ^ (8 * Z.of_nat n)) = z.
Proof.
  intros Hn Hz. unfold sext.
  assert (E : 2 ^ (8 * Z.of_nat n) = 2 * 2 ^ (8 * Z.of_nat n - 1)).
  { rewrite <- Z.pow_succ_r by lia. f_equal. lia. }
  destruct (Z.lt_ge_cases z 0) as [Hneg|Hpos].
  - rewrite <- (Z.mod_add z 1), Z.mul_1_l by lia. rewrite Z.mod_small by lia.
    destruct (Z.ltb_spec (z + 2 ^ (8 * Z.of_nat n)) (2 ^ (8 * Z.of_nat n - 1))); lia.
  - rewrite Z.mod_small by lia. destruct (Z.ltb_spec z (2 ^ (8 * Z.of_nat n - 1))); lia.
Qed.

Lemma take_le n z r : take n (le n z ++ r) = le n z.
Proof. rewrite <- (le_length n z) at 1. apply take_app_length. Qed.

Lemma drop_le n z r : drop n (le n z ++ r) = r.
Proof. rewrite <- (le_length n z) at 1. apply drop_app_length. Qed.

(** ** Fields of a packed structure *)
Definition field (off n : nat) (l : list Z) : Z := unle (take n (drop off l)).

Lemma field_app off n (a b : list Z) : (off + n <= length a)%nat -> field off n (a ++ b) = field off n a.
Proof. intros H. unfold field. rewrite drop_app_le, take_app_le; [done| |lia]. rewrite length_drop. lia. Qed.

Definition in_width (n : nat) (z : Z) : Prop := 0 <= z < 2 ^ (8 * Z.of_nat n).

Lemma field_here n z r : in_width n z -> field 0 n (le n z ++ r) = z.
Proof. intros Hz. unfold field. rewrite drop_0, take_le, unle_le. by apply Z.mod_small. Qed.

Lemma field_skip off n k z r : (k <= off)%nat -> field off n (le k z ++ r) = field (off - k) n r.
Proof.
  intros Hk. unfold field. replace off with (k + (off - k))%nat at 1 by lia. by rewrite <- drop_drop, drop_le.
Qed.
