(* ===== verification/Runs.v ===== *)
(** * Runs and buffers

    Calls that may wait forever or, in a function of a number of rounds, may
    not be over yet; and memory copies into and out of a buffer, which are
    undefined outside of it. *)

From Stdlib Require Import ZArith Lia.
From stdpp Require Import base tactics list numbers.
From S2P Require Import Prelude.

(** ** Runs that may not be over *)
Abbreviation run A := (outcome (option A)).

Definition rbind {A B : Type} (m : run A) (k : A -> run B) : run B :=
  match m with
  | Done (Some a) => k a
  | Done None => Done None
  | Fatal => Fatal
  | Undef => Undef
  end.

Notation "'let?' x ':=' m 'in' k" := (rbind m (fun x => k))
  (at level 10, x pattern, m at level 100, k at level 200) : pf_scope.

Definition ret {A : Type} (a : A) : run A := Done (Some a).

(** a call that always returns, inside a run *)
Definition lift {A : Type} (m : outcome A) : run A := let* a := m in ret a.

(** ** Buffers *)

(** [n] bytes from [l] at [off] of a buffer *)
Definition write_at (off : Z) (l buf : list Z) : outcome (list Z) :=
  if Z.of_nat (length l) + off <=? Z.of_nat (length buf)
  then Done (take (Z.to_nat off) buf ++ l ++ drop (Z.to_nat off + length l) buf)
  else Undef.

Definition put_at (off : Z) (l buf : list Z) : outcome (list Z) :=
  if 0 <=? off then write_at off l buf else Undef.

Definition get_at (off n : Z) (buf : list Z) : outcome (list Z) :=
  if (0 <=? off) && (0 <=? n) && (off + n <=? Z.of_nat (length buf))
  then Done (take (Z.to_nat n) (drop (Z.to_nat off) buf))
  else Undef.

(** the byte at [i]; 0 outside *)
Definition byte_at (l : list Z) (i : Z) : Z := if 0 <=? i then nth (Z.to_nat i) l 0 else 0.

Lemma byte_at_app l1 l2 i :
  0 <= i -> byte_at (l1 ++ l2) i
            = if i <? Z.of_nat (length l1) then byte_at l1 i else byte_at l2 (i - Z.of_nat (length l1)).
Proof.
  intros Hi. unfold byte_at. rewrite (proj2 (Z.leb_le 0 i)) by done. destruct (Z.ltb_spec i (Z.of_nat (length l1))).
  - by rewrite app_nth1 by lia.
  - rewrite (proj2 (Z.leb_le 0 _)) by lia. rewrite app_nth2 by lia. f_equal. lia.
Qed.

Lemma byte_at_take l n i : i < Z.of_nat n -> byte_at (take n l) i = byte_at l i.
Proof.
  intros Hi. unfold byte_at. destruct (Z.leb_spec 0 i); [|done].
  destruct (Nat.le_gt_cases (length l) n) as [Hl|Hl]; [by rewrite take_ge|].
  rewrite <- (take_drop n l) at 2. rewrite app_nth1; [done|]. rewrite length_take. lia.
Qed.

Lemma byte_at_drop l n i : 0 <= i -> byte_at (drop n l) i = byte_at l (Z.of_nat n + i).
Proof.
  intros Hi. unfold byte_at. rewrite !(proj2 (Z.leb_le _ _)) by lia. rewrite Z2Nat.inj_add, Nat2Z.id by lia.
  generalize (Z.to_nat i). clear. revert l. induction n as [|n IH]; intros [|x l] k; cbn; try done. by destruct k.
Qed.

(** lists of bytes that agree everywhere *)
Lemma byte_at_ext l1 l2 :
  length l1 = length l2 -> (forall i, 0 <= i < Z.of_nat (length l1) -> byte_at l1 i = byte_at l2 i) -> l1 = l2.
Proof.
  intros Hl H. apply (nth_ext _ _ 0 0 Hl). intros n Hn. specialize (H (Z.of_nat n)). unfold byte_at in H.
  rewrite !(proj2 (Z.leb_le _ _)), Nat2Z.id in H by lia. apply H. lia.
Qed.

Lemma put_at_done off l buf :
  0 <= off -> off + Z.of_nat (length l) <= Z.of_nat (length buf) ->
  exists buf', put_at off l buf = Done buf' /\ length buf' = length buf
    /\ forall i, 0 <= i -> byte_at buf' i = if (off <=? i) && (i <? off + Z.of_nat (length l)) then byte_at l (i - off) else byte_at buf i.
Proof.
  intros Ho Hl. unfold put_at, write_at. rewrite !(proj2 (Z.leb_le _ _)) by lia. eexists. split; [reflexivity|]. split.
  - rewrite !length_app, length_take, length_drop. lia.
  - intros i Hi. rewrite byte_at_app, length_take by done. replace (Z.of_nat (Z.to_nat off `min` length buf)) with off by lia.
    destruct (Z.ltb_spec i off), (Z.leb_spec off i); try lia; cbn [andb]; [by rewrite byte_at_take by lia|].
    rewrite byte_at_app by lia. destruct (Z.ltb_spec (i - off) (Z.of_nat (length l))), (Z.ltb_spec i (off + Z.of_nat (length l))); try lia; cbn [andb].
    rewrite byte_at_drop by lia. f_equal. lia.
Qed.

Lemma get_at_done off n buf :
  0 <= off -> 0 <= n -> off + n <= Z.of_nat (length buf) ->
  exists l, get_at off n buf = Done l /\ Z.of_nat (length l) = n
    /\ forall i, 0 <= i < n -> byte_at l i = byte_at buf (off + i).
Proof.
  intros Ho Hn Hl. unfold get_at. rewrite !(proj2 (Z.leb_le _ _)) by lia. cbn [andb]. eexists. split; [reflexivity|]. split.
  - rewrite length_take, length_drop. lia.
  - intros i Hi. rewrite byte_at_take, byte_at_drop by lia. f_equal. lia.
Qed.
