(* ===== verification/FixedQueue.v ===== *)
(** * PfFixedSizeQueue: the fixed-size ring buffer

    Model of src/common/include/pf_fixed_size_queue.h.  The ring is an
    array [q_data] of [q_depth] cells with two cursors; [abs] reads the
    live window of the ring as a list, and the lemmas state that the
    operations implement a bounded FIFO of [q_depth - 1] elements.  The
    spin lock of the class serialises the calls: each operation here is
    one critical section.

    [Fifo] is the interface the other components use. *)

From Stdlib Require Import ZArith Lia.
From stdpp Require Import base tactics list numbers sets.
From S2P Require Import Prelude.

Record PfFixedSizeQueue (T : Type) : Type := mkQueue {
  q_tail : Z;
  q_head : Z;
  q_depth : Z;
  q_data : list T
}.

Arguments mkQueue {T} q_tail q_head q_depth q_data.
Arguments q_tail {T} p.
Arguments q_head {T} p.
Arguments q_depth {T} p.
Arguments q_data {T} p.

#[global] Instance queue_eq_dec {T} `{EqDecision T} : EqDecision (PfFixedSizeQueue T).
Proof. solve_decision. Defined.

Definition QUEUE_SPACE (size head tail : Z) : Z :=
  if head <=? tail then size - tail + head - 1 else head - tail - 1.

Definition QUEUE_COUNT (size head tail : Z) : Z :=
  if head <=? tail then tail - head else size + tail - head.

(** [PfFixedSizeQueue()] *)
Definition empty_queue {T : Type} : PfFixedSizeQueue T := mkQueue 0 0 0 [].

(** [init]: [zero] is the all-zero element of [calloc], [mem_ok] whether
    [calloc] finds memory. *)
Definition queue_init {T : Type} (zero : T) (mem_ok : bool) (depth : Z)
    : Z * PfFixedSizeQueue T :=
  let d := i32 (depth + 1) in
  if mem_ok then (0, mkQueue 0 0 d (replicate (Z.to_nat d) zero))
  else (- ENOMEM, mkQueue 0 0 d []).

(** [destroy] *)
Definition queue_destroy {T : Type} (q : PfFixedSizeQueue T) : PfFixedSizeQueue T :=
  mkQueue 0 0 0 [].

Definition is_empty {T : Type} (q : PfFixedSizeQueue T) : bool := q_tail q =? q_head q.
Definition space {T : Type} (q : PfFixedSizeQueue T) : Z :=
  QUEUE_SPACE (q_depth q) (q_head q) (q_tail q).
Definition count {T : Type} (q : PfFixedSizeQueue T) : Z :=
  QUEUE_COUNT (q_depth q) (q_head q) (q_tail q).
Definition is_full {T : Type} (q : PfFixedSizeQueue T) : bool :=
  QUEUE_SPACE (q_depth q) (q_head q) (q_tail q) =? 0.

Definition enqueue_nolock {T : Type} (x : T) (q : PfFixedSizeQueue T)
    : outcome (Z * PfFixedSizeQueue T) :=
  if is_full q then Done (- EAGAIN, q)
  else
    let* d := of_option (arr_set (q_data q) (q_tail q) x) in
    Done (0, mkQueue (Z.rem (q_tail q + 1) (q_depth q)) (q_head q) (q_depth q) d).

(** The same body between [pthread_spin_lock] and [pthread_spin_unlock]. *)
Definition enqueue {T : Type} (x : T) (q : PfFixedSizeQueue T)
    : outcome (Z * PfFixedSizeQueue T) :=
  if is_full q then Done (- EAGAIN, q)
  else
    let* d := of_option (arr_set (q_data q) (q_tail q) x) in
    Done (0, mkQueue (Z.rem (q_tail q + 1) (q_depth q)) (q_head q) (q_depth q) d).

(** The [logic_error] thrown on an empty queue is [None]. *)
Definition dequeue_nolock {T : Type} (q : PfFixedSizeQueue T)
    : outcome (option T * PfFixedSizeQueue T) :=
  if is_empty q then Done (None, q)
  else
    let* t := of_option (arr_get (q_data q) (q_head q)) in
    Done (Some t, mkQueue (q_tail q) (Z.rem (q_head q + 1) (q_depth q)) (q_depth q) (q_data q)).

Definition dequeue {T : Type} (q : PfFixedSizeQueue T)
    : outcome (option T * PfFixedSizeQueue T) :=
  dequeue_nolock q.

(** ** The abstraction: a list of at most [q_depth - 1] elements *)
Definition cell {T : Type} (q : PfFixedSizeQueue T) (k : Z) : option T :=
  arr_get (q_data q) ((q_head q + k) mod q_depth q).

Definition abs {T : Type} (q : PfFixedSizeQueue T) : list T :=
  omap (cell q) (seqZ 0 (count q)).

Record queue_wf {T : Type} (q : PfFixedSizeQueue T) : Prop := mkQueueWf {
  wf_depth : 0 < q_depth q < 2 ^ 31;
  wf_len : Z.of_nat (length (q_data q)) = q_depth q;
  wf_head : 0 <= q_head q < q_depth q;
  wf_tail : 0 <= q_tail q < q_depth q
}.

(** ** The interface *)
Class Fifo (Q : Type -> Type) := {
  fifo_list : forall T, Q T -> list T;
  fifo_cap : forall T, Q T -> Z;
  fifo_ok : forall T, Q T -> Prop;
  fifo_put : forall T, T -> Q T -> outcome (Z * Q T);
  fifo_get : forall T, Q T -> outcome (option T * Q T);
  fifo_is_empty : forall T, Q T -> bool;
  fifo_count : forall T, Q T -> Z;
  fifo_init : forall T, T -> bool -> Z -> Z * Q T;
  fifo_put_ok : forall T (x : T) (q : Q T), fifo_ok T q ->
    Z.of_nat (length (fifo_list T q)) < fifo_cap T q ->
    exists q', fifo_put T x q = Done (0, q') /\ fifo_ok T q'
      /\ fifo_list T q' = fifo_list T q ++ [x] /\ fifo_cap T q' = fifo_cap T q;
  fifo_put_full : forall T (x : T) (q : Q T), fifo_ok T q ->
    Z.of_nat (length (fifo_list T q)) = fifo_cap T q ->
    fifo_put T x q = Done (- EAGAIN, q);
  fifo_get_cons : forall T (x : T) l (q : Q T), fifo_ok T q -> fifo_list T q = x :: l ->
    exists q', fifo_get T q = Done (Some x, q') /\ fifo_ok T q'
      /\ fifo_list T q' = l /\ fifo_cap T q' = fifo_cap T q;
  fifo_get_nil : forall T (q : Q T), fifo_ok T q -> fifo_list T q = [] ->
    fifo_get T q = Done (None, q);
  fifo_bound : forall T (q : Q T), fifo_ok T q ->
    Z.of_nat (length (fifo_list T q)) <= fifo_cap T q;
  fifo_is_empty_nil : forall T (q : Q T), fifo_ok T q ->
    fifo_is_empty T q = true <-> fifo_list T q = [];
  fifo_count_length : forall T (q : Q T), fifo_ok T q ->
    fifo_count T q = Z.of_nat (length (fifo_list T q));
  fifo_init_ok : forall T (z : T) n, 0 <= n < 2 ^ 31 - 1 ->
    exists q, fifo_init T z true n = (0, q) /\ fifo_ok T q /\ fifo_list T q = []
      /\ fifo_cap T q = n;
  fifo_init_nomem : forall T (z : T) n, (fifo_init T z false n).1 = - ENOMEM
}.

Arguments fifo_list {Q _ T}.
Arguments fifo_cap {Q _ T}.
Arguments fifo_ok {Q _ T}.
Arguments fifo_put {Q _ T}.
Arguments fifo_get {Q _ T}.
Arguments fifo_is_empty {Q _ T}.
Arguments fifo_count {Q _ T}.
Arguments fifo_init {Q _ T}.

(** ** Lemmas *)
Section Lemmas.
Context {T : Type}.
Implicit Types (q : PfFixedSizeQueue T) (x : T).

Lemma count_bounds q : queue_wf q -> 0 <= count q <= q_depth q - 1.
Proof. intros []. unfold count, QUEUE_COUNT. destruct (Z.leb_spec (q_head q) (q_tail q)); lia. Qed.

Lemma space_count q : queue_wf q -> space q + count q = q_depth q - 1.
Proof.
  intros []. unfold space, count, QUEUE_COUNT, QUEUE_SPACE.
  destruct (Z.leb_spec (q_head q) (q_tail q)); lia.
Qed.

Lemma is_full_count q : queue_wf q -> is_full q = (count q =? q_depth q - 1).
Proof.
  intros Hwf. pose proof (space_count q Hwf) as E. unfold is_full. fold (space q). lia.
Qed.

Lemma is_empty_count q : queue_wf q -> is_empty q = (count q =? 0).
Proof.
  intros []. unfold is_empty, count, QUEUE_COUNT.
  destruct (Z.leb_spec (q_head q) (q_tail q)); lia.
Qed.

Lemma tail_count q : queue_wf q -> q_tail q = (q_head q + count q) mod q_depth q.
Proof.
  intros []. unfold count, QUEUE_COUNT. destruct (Z.leb_spec (q_head q) (q_tail q)).
  - replace (q_head q + _) with (q_tail q) by lia. by rewrite Z.mod_small.
  - apply (Z.mod_unique _ _ 1); lia.
Qed.

Lemma rem_step d i : 0 <= i < d -> 0 <= Z.rem (i + 1) d < d /\
  Z.rem (i + 1) d = (if decide (i + 1 = d) then 0 else i + 1).
Proof.
  intros. rewrite Z.rem_mod_nonneg by lia. case_decide as E.
  - rewrite E, Z.mod_same by lia. lia.
  - rewrite Z.mod_small; lia.
Qed.

Lemma cell_is_Some q k : queue_wf q -> is_Some (cell q k).
Proof. intros []. apply arr_get_is_Some. rewrite wf_len0. apply Z.mod_pos_bound. lia. Qed.

Lemma abs_length q : queue_wf q -> Z.of_nat (length (abs q)) = count q.
Proof.
  intros Hwf. unfold abs. rewrite omap_length_total by (intros; by apply cell_is_Some).
  rewrite length_seqZ. pose proof (count_bounds q Hwf). lia.
Qed.

(** Storing at the tail extends the window by the stored element. *)
Lemma abs_push q x d :
  queue_wf q -> count q < q_depth q - 1 ->
  arr_set (q_data q) (q_tail q) x = Some d ->
  let q' := mkQueue (Z.rem (q_tail q + 1) (q_depth q)) (q_head q) (q_depth q) d in
  queue_wf q' /\ abs q' = abs q ++ [x] /\ count q' = count q + 1.
Proof.
  intros Hwf Hc Hset q'. pose proof (count_bounds q Hwf) as Hb.
  pose proof (tail_count q Hwf) as Ht. destruct Hwf as [Hd Hl Hh Htl].
  destruct (rem_step (q_depth q) (q_tail q) Htl) as [Hr Er].
  assert (Hwf' : queue_wf q').
  { split; simpl; try lia. by rewrite (arr_set_length _ _ _ _ Hset). }
  assert (Hcount : count q' = count q + 1).
  { subst q'. unfold count, QUEUE_COUNT in *. simpl. rewrite Er.
    destruct (decide (q_tail q + 1 = q_depth q)); destruct (Z.leb_spec (q_head q) (q_tail q));
      repeat match goal with |- context [?a <=? ?b] => destruct (Z.leb_spec a b) end; lia. }
  split_and!; [done| |done]. unfold abs. rewrite Hcount.
  rewrite seqZ_app by lia. rewrite omap_app. f_equal.
  - apply omap_ext_in. intros k [Hk1 Hk2]%elem_of_seqZ. unfold cell. subst q'. simpl.
    rewrite (arr_get_set _ _ _ _ _ Hset), decide_False; [done|].
    rewrite Ht. intros E%mod_add_inj; lia.
  - simpl. unfold cell. subst q'. simpl.
    by rewrite (arr_get_set _ _ _ _ _ Hset), decide_True by (rewrite Ht; f_equal; lia).
Qed.

(** Reading at the head and advancing it drops the first element. *)
Lemma abs_pop q :
  queue_wf q -> count q <> 0 ->
  exists x, arr_get (q_data q) (q_head q) = Some x /\
  let q' := mkQueue (q_tail q) (Z.rem (q_head q + 1) (q_depth q)) (q_depth q) (q_data q) in
  queue_wf q' /\ abs q = x :: abs q' /\ count q' = count q - 1.
Proof.
  intros Hwf Hc. pose proof (count_bounds q Hwf) as Hb. pose proof Hwf as [Hd Hl Hh Htl].
  destruct (rem_step (q_depth q) (q_head q) Hh) as [Hr Er].
  destruct (arr_get_is_Some (q_data q) (q_head q)) as [x Hx]; [lia|].
  exists x. split; [done|]. intros q'.
  assert (Hwf' : queue_wf q') by (by split).
  assert (Hcount : count q' = count q - 1).
  { subst q'. unfold count, QUEUE_COUNT in *. simpl. rewrite Er.
    destruct (decide (q_head q + 1 = q_depth q)); destruct (Z.leb_spec (q_head q) (q_tail q));
      repeat match goal with |- context [?a <=? ?b] => destruct (Z.leb_spec a b) end; lia. }
  split_and!; [done| |done]. unfold abs. rewrite Hcount.
  rewrite seqZ_cons by lia. simpl. unfold cell at 1. rewrite Z.add_0_r, Z.mod_small, Hx by lia.
  f_equal. replace (Z.succ 0) with (1 + 0) by lia. rewrite <- fmap_add_seqZ.
  rewrite omap_fmap_comp. replace (Z.pred (count q)) with (count q - 1) by lia.
  apply omap_ext_in. intros k _. unfold cell, compose. subst q'. simpl. f_equal.
  rewrite Z.rem_mod_nonneg by lia. rewrite Z.add_mod_idemp_l by lia. f_equal. lia.
Qed.

Lemma enqueue_fifo q x :
  queue_wf q -> Z.of_nat (length (abs q)) < q_depth q - 1 ->
  exists q', enqueue x q = Done (0, q') /\ queue_wf q' /\ abs q' = abs q ++ [x]
    /\ q_depth q' - 1 = q_depth q - 1.
Proof.
  intros Hwf Hl. rewrite abs_length in Hl by done. unfold enqueue.
  rewrite is_full_count by done. destruct (Z.eqb_spec (count q) (q_depth q - 1)); [lia|].
  pose proof Hwf as [_ Hlen _ Htl]. rewrite <- Hlen in Htl.
  rewrite (arr_set_spec _ _ x Htl). simpl.
  destruct (abs_push q x _ Hwf Hl (arr_set_spec _ _ x Htl)) as (? & ? & ?).
  eexists. split_and!; [done..|]. done.
Qed.

Lemma enqueue_full q x :
  queue_wf q -> Z.of_nat (length (abs q)) = q_depth q - 1 -> enqueue x q = Done (- EAGAIN, q).
Proof.
  intros Hwf Hl. rewrite abs_length in Hl by done. unfold enqueue.
  rewrite is_full_count by done. by rewrite Hl, Z.eqb_refl.
Qed.

Lemma dequeue_cons q x l :
  queue_wf q -> abs q = x :: l ->
  exists q', dequeue q = Done (Some x, q') /\ queue_wf q' /\ abs q' = l
    /\ q_depth q' - 1 = q_depth q - 1.
Proof.
  intros Hwf Habs. pose proof (abs_length q Hwf) as Hl. rewrite Habs in Hl. simpl in Hl.
  destruct (abs_pop q Hwf) as (y & Hy & ? & E & ?); [lia|].
  unfold dequeue, dequeue_nolock. rewrite is_empty_count by done.
  destruct (Z.eqb_spec (count q) 0); [lia|]. rewrite Hy. simpl.
  rewrite Habs in E. simplify_eq. eexists. by split_and!.
Qed.

Lemma dequeue_nil q : queue_wf q -> abs q = [] -> dequeue q = Done (None, q).
Proof.
  intros Hwf Habs. pose proof (abs_length q Hwf) as Hl. rewrite Habs in Hl. simpl in Hl.
  unfold dequeue, dequeue_nolock. rewrite is_empty_count by done. by rewrite <- Hl.
Qed.

Lemma abs_bound q : queue_wf q -> Z.of_nat (length (abs q)) <= q_depth q - 1.
Proof. intros Hwf. rewrite abs_length by done. pose proof (count_bounds q Hwf). lia. Qed.

Lemma init_wf (z : T) n :
  0 <= n < 2 ^ 31 - 1 ->
  queue_wf (queue_init z true n).2 /\ abs (queue_init z true n).2 = []
    /\ q_depth (queue_init z true n).2 - 1 = n.
Proof.
  intros Hn. unfold queue_init. rewrite i32_small by lia. simpl.
  split_and!; [split; simpl; rewrite ?length_replicate; lia|done|lia].
Qed.

Lemma init_pair (z : T) n :
  0 <= n < 2 ^ 31 - 1 ->
  exists q, queue_init z true n = (0, q) /\ queue_wf q /\ abs q = [] /\ q_depth q - 1 = n.
Proof. intros Hn. exists (queue_init z true n).2. split; [done|]. by apply init_wf. Qed.

Lemma enqueue_depth q x rc q' : enqueue x q = Done (rc, q') -> q_depth q' = q_depth q.
Proof.
  unfold enqueue. destruct (is_full q); [by intros [= <- <-]|].
  destruct (arr_set _ _ _); [|done]. by intros [= <- <-].
Qed.

Lemma enqueue_abs q x q' : queue_wf q -> enqueue x q = Done (0, q') -> abs q' = abs q ++ [x].
Proof.
  intros Hwf E. pose proof (abs_bound q Hwf).
  destruct (decide (Z.of_nat (length (abs q)) = q_depth q - 1)) as [Hf|Hn].
  - rewrite enqueue_full in E by done. discriminate E.
  - destruct (enqueue_fifo q x Hwf) as (q1 & E1 & _ & Ha & _); [lia|]. rewrite E in E1. by simplify_eq.
Qed.

Lemma is_empty_nil q : queue_wf q -> is_empty q = true <-> abs q = [].
Proof.
  intros Hwf. rewrite is_empty_count by done. rewrite <- abs_length by done.
  destruct (abs q); simpl; split; (done || lia).
Qed.
End Lemmas.

#[export] Instance ring_fifo : Fifo PfFixedSizeQueue := {|
  fifo_list _ q := abs q;
  fifo_cap _ q := q_depth q - 1;
  fifo_ok _ q := queue_wf q;
  fifo_put _ x q := enqueue x q;
  fifo_get _ q := dequeue q;
  fifo_is_empty _ q := is_empty q;
  fifo_count _ q := count q;
  fifo_init _ z ok n := queue_init z ok n;
  fifo_put_ok _ x q := enqueue_fifo q x;
  fifo_put_full _ x q := enqueue_full q x;
  fifo_get_cons _ x l q := dequeue_cons q x l;
  fifo_get_nil _ q := dequeue_nil q;
  fifo_bound _ q := abs_bound q;
  fifo_is_empty_nil _ q := is_empty_nil q;
  fifo_count_length _ q H := eq_sym (abs_length q H);
  fifo_init_ok _ z n := init_pair z n;
  fifo_init_nomem _ z n := eq_refl
|}.

(** ** Refinement: every sequence of calls behaves as a bounded list *)
Inductive queue_op (T : Type) : Type :=
| OpEnqueue (x : T)
| OpDequeue.

Arguments OpEnqueue {T} x.
Arguments OpDequeue {T}.

(** What a caller sees: the return code of [enqueue], or the element of
    [dequeue] ([None] for the exception). *)
Inductive queue_ret (T : Type) : Type :=
| RetCode (rc : Z)
| RetElem (o : option T).

Arguments RetCode {T} rc.
Arguments RetElem {T} o.

Fixpoint run_ring {T : Type} (ops : list (queue_op T)) (q : PfFixedSizeQueue T)
    : outcome (list (queue_ret T) * PfFixedSizeQueue T) :=
  match ops with
  | [] => Done ([], q)
  | OpEnqueue x :: ops =>
      let* (rc, q) := enqueue x q in
      let* (rs, q) := run_ring ops q in Done (RetCode rc :: rs, q)
  | OpDequeue :: ops =>
      let* (o, q) := dequeue q in
      let* (rs, q) := run_ring ops q in Done (RetElem o :: rs, q)
  end.

(** The specification: a list of at most [cap] elements. *)
Fixpoint run_spec {T : Type} (cap : nat) (ops : list (queue_op T)) (l : list T)
    : list (queue_ret T) * list T :=
  match ops with
  | [] => ([], l)
  | OpEnqueue x :: ops =>
      if decide (length l < cap)%nat
      then let (rs, l) := run_spec cap ops (l ++ [x]) in (RetCode 0 :: rs, l)
      else let (rs, l) := run_spec cap ops l in (RetCode (- EAGAIN) :: rs, l)
  | OpDequeue :: ops =>
      match l with
      | [] => let (rs, l) := run_spec cap ops [] in (RetElem None :: rs, l)
      | x :: l => let (rs, l) := run_spec cap ops l in (RetElem (Some x) :: rs, l)
      end
  end.

Lemma run_ring_spec {T : Type} (cap : nat) (ops : list (queue_op T)) q :
  queue_wf q -> q_depth q - 1 = Z.of_nat cap ->
  exists q', run_ring ops q = Done ((run_spec cap ops (abs q)).1, q')
    /\ queue_wf q' /\ abs q' = (run_spec cap ops (abs q)).2
    /\ q_depth q' - 1 = Z.of_nat cap.
Proof.
  revert q. induction ops as [|[x|] ops IH]; intros q Hwf Hcap; simpl; [by eauto| |].
  - pose proof (abs_bound q Hwf). case_decide.
    + destruct (enqueue_fifo q x) as (q1 & -> & Hwf1 & Ha & Hd); [done|lia|]. simpl.
      destruct (IH q1 Hwf1) as (q2 & -> & Hwf2 & Ha2 & Hd2); [lia|]. rewrite Ha in *.
      destruct (run_spec _ _ _). simpl in *. eauto.
    + rewrite enqueue_full by (done || lia). simpl.
      destruct (IH q Hwf) as (q2 & -> & Hwf2 & Ha2 & Hd2); [lia|]. destruct (run_spec _ _ _). simpl in *. eauto.
  - destruct (abs q) as [|x l] eqn:Ha.
    + rewrite dequeue_nil by done. simpl. destruct (IH q Hwf) as (q2 & -> & Hwf2 & Ha2 & Hd2); [lia|].
      rewrite Ha in *. destruct (run_spec _ _ _). simpl in *. eauto.
    + destruct (dequeue_cons q x l) as (q1 & -> & Hwf1 & Ha1 & Hd); [done..|]. simpl.
      destruct (IH q1 Hwf1) as (q2 & -> & Hwf2 & Ha2 & Hd2); [lia|]. rewrite Ha1 in *.
      destruct (run_spec _ _ _). simpl in *. eauto.
Qed.

(** C39 (refinement): a ring initialised for [n] elements answers every
    sequence of [enqueue] and [dequeue] calls exactly as a list bounded by
    [n]: same return codes, same elements in the same order, an error
    exactly when the list is full or empty, and no access outside the
    array. *)
Theorem ring_refines_bounded_list {T : Type} (z : T) (n : nat) (ops : list (queue_op T)) :
  Z.of_nat n < 2 ^ 31 - 1 ->
  exists q', run_ring ops (queue_init z true (Z.of_nat n)).2
             = Done ((run_spec n ops []).1, q')
    /\ abs q' = (run_spec n ops []).2
    /\ count q' = Z.of_nat (length (run_spec n ops []).2)
    /\ space q' = Z.of_nat n - Z.of_nat (length (run_spec n ops []).2).
Proof.
  intros Hn. destruct (init_wf z (Z.of_nat n)) as (Hwf & Ha & Hd); [lia|].
  destruct (run_ring_spec n ops _ Hwf Hd) as (q' & Hr & Hwf' & Habs & Hd').
  rewrite Ha in Hr, Habs. exists q'. split_and!; [done..| |].
  - by rewrite <- Habs, abs_length.
  - pose proof (space_count q' Hwf'). rewrite <- Habs, abs_length by done. lia.
Qed.

Lemma ring_refines_bounded_list_witness :
  Z.of_nat 2 < 2 ^ 31 - 1 /\
  exists q', run_ring [OpEnqueue 7; OpEnqueue 8; OpEnqueue 9; OpDequeue; OpEnqueue 10; OpDequeue; OpDequeue; OpDequeue]
               (queue_init 0 true (Z.of_nat 2)).2
    = Done ([RetCode 0; RetCode 0; RetCode (-11); RetElem (Some 7); RetCode 0;
             RetElem (Some 8); RetElem (Some 10); RetElem None], q').
Proof.
  assert (H : Z.of_nat 2 < 2 ^ 31 - 1) by lia. split; [exact H|].
  destruct (ring_refines_bounded_list 0 2
    [OpEnqueue 7; OpEnqueue 8; OpEnqueue 9; OpDequeue; OpEnqueue 10; OpDequeue; OpDequeue; OpDequeue] H)
    as (q' & Hr & _).
  exists q'. exact Hr.
Defined.
