(* ===== verification/MemPool.v ===== *)
(** * ObjectMemoryPool: the pool of preallocated objects

    Model of src/common/include/pf_mempool.h.  A pool owns an array of
    [obj_count] objects and a queue of pointers to the free ones; a
    pointer [&data[i]] is its index [i].  The pool is written against the
    [Fifo] interface, so its theorems use only what the queue promises. *)

From Stdlib Require Import ZArith Lia.
From stdpp Require Import base tactics list numbers sets relations.
From S2P Require Import Prelude FixedQueue.

Record ObjectMemoryPool (Q : Type -> Type) : Type := mkPool {
  free_objs : Q Z;
  pool_live : bool; (* data != NULL *)
  obj_count : Z
}.

Arguments mkPool {Q} free_objs pool_live obj_count.
Arguments free_objs {Q} o.
Arguments pool_live {Q} o.
Arguments obj_count {Q} o.

Section Pool.
Context {Q : Type -> Type} {F : Fifo Q}.
Implicit Types (p : ObjectMemoryPool Q) (q : Q Z) (held : list Z).

(** The loop of [init]: [n] objects are left to put, the next one is [i]. *)
Fixpoint init_loop (n : nat) (i : Z) q : outcome (Q Z) :=
  match n with
  | O => Done q
  | S n => let* (_, q) := fifo_put i q in init_loop n (i + 1) q
  end.

(** [init]: [spin_rc] is the result of [pthread_spin_init], [mem1] and
    [mem2] whether the two allocations succeed; the queue is destroyed
    on the error path. *)
Definition pool_init (spin_rc : Z) (mem1 mem2 : bool) (cap : Z) (destroyed : Q Z)
    : outcome (Z * ObjectMemoryPool Q) :=
  if negb (spin_rc =? 0) then Done (- spin_rc, mkPool destroyed false cap)
  else
    let (rc, q) := fifo_init 0 mem1 cap in
    if negb (rc =? 0) then Done (rc, mkPool q false cap)
    else if negb mem2 then Done (- ENOMEM, mkPool destroyed false cap)
    else
      let* q := init_loop (Z.to_nat cap) 0 q in
      Done (0, mkPool q true cap).

(** [alloc]: [None] is the null pointer. *)
Definition pool_alloc p : outcome (option Z * ObjectMemoryPool Q) :=
  if fifo_is_empty (free_objs p) then Done (None, p)
  else
    let* (t, q) := fifo_get (free_objs p) in
    Done (t, mkPool q (pool_live p) (obj_count p)).

(** [free]: the [runtime_error] of a full pool is caught nowhere. *)
Definition pool_free (x : Z) p : outcome (ObjectMemoryPool Q) :=
  let* (rc, q) := fifo_put x (free_objs p) in
  if negb (rc =? 0) then Fatal
  else Done (mkPool q (pool_live p) (obj_count p)).

Definition pool_remain p : Z := fifo_count (free_objs p).

(** ** The ownership invariant

    [held] are the pointers handed out and not returned. *)
Record pool_inv p held : Prop := mkPoolInv {
  pi_ok : fifo_ok (free_objs p);
  pi_cap : fifo_cap (free_objs p) = obj_count p;
  pi_perm : (fifo_list (free_objs p) ++ held) ≡ₚ seqZ 0 (obj_count p)
}.

Lemma init_loop_spec n i q :
  fifo_ok q -> Z.of_nat (length (fifo_list q) + n) <= fifo_cap q ->
  exists q', init_loop n i q = Done q' /\ fifo_ok q' /\ fifo_cap q' = fifo_cap q
    /\ fifo_list q' = fifo_list q ++ seqZ i (Z.of_nat n).
Proof.
  revert i q. induction n as [|n IH]; intros i q Hok Hn; simpl.
  - exists q. by rewrite app_nil_r.
  - destruct (fifo_put_ok _ i q Hok) as (q1 & -> & Hok1 & Hl1 & Hc1); [lia|]. simpl.
    destruct (IH (i + 1) q1 Hok1) as (q2 & -> & ? & ? & Hl2).
    { rewrite Hl1, Hc1, length_app. simpl. lia. }
    exists q2. split_and!; [done..|congruence|]. rewrite Hl2, Hl1, <- app_assoc. simpl. f_equal.
    rewrite (seqZ_cons i) by lia. do 2 f_equal; lia.
Qed.

Lemma pool_init_inv cap d :
  0 <= cap < 2 ^ 31 - 1 ->
  exists p, pool_init 0 true true cap d = Done (0, p) /\ pool_inv p [] /\ obj_count p = cap.
Proof.
  intros Hcap. unfold pool_init. simpl.
  destruct (fifo_init_ok _ (0 : Z) cap Hcap) as (q & -> & Hok & Hl & Hc). simpl.
  destruct (init_loop_spec (Z.to_nat cap) 0 q Hok) as (q' & -> & Hok' & Hc' & Hl').
  { rewrite Hl, Hc. simpl. lia. }
  simpl. eexists. split_and!; [done| |done]. split; simpl; [done|congruence|].
  rewrite app_nil_r, Hl', Hl. simpl. by rewrite Z2Nat.id by lia.
Qed.

Lemma perm_length p held :
  pool_inv p held -> 0 <= obj_count p ->
  Z.of_nat (length (fifo_list (free_objs p))) + Z.of_nat (length held) = obj_count p.
Proof.
  intros [_ _ Hp] Hc. apply Permutation_length in Hp.
  rewrite length_app, length_seqZ in Hp. lia.
Qed.

(** [alloc] returns an object nobody holds, or null when all are held. *)
Lemma pool_alloc_spec p held :
  pool_inv p held -> 0 <= obj_count p ->
  (exists x p', pool_alloc p = Done (Some x, p') /\ (x ∉ held) /\ 0 <= x < obj_count p
      /\ pool_inv p' (x :: held) /\ obj_count p' = obj_count p)
  \/ (pool_alloc p = Done (None, p) /\ Z.of_nat (length held) = obj_count p).
Proof.
  intros Hinv Hc. pose proof (perm_length _ _ Hinv Hc) as Hlen.
  destruct Hinv as [Hok Hcap Hperm]. unfold pool_alloc.
  destruct (fifo_is_empty (free_objs p)) eqn:He.
  - right. apply fifo_is_empty_nil in He; [|done]. rewrite He in Hlen. simpl in Hlen.
    split; [done|lia].
  - left. destruct (fifo_list (free_objs p)) as [|x l] eqn:Hl.
    { apply fifo_is_empty_nil in Hl; [|done]. congruence. }
    destruct (fifo_get_cons _ x l _ Hok Hl) as (q' & -> & Hok' & Hl' & Hc'). simpl.
    assert (Hnd : NoDup ((x :: l) ++ held)) by (rewrite Hperm; apply NoDup_seqZ).
    assert (Hin : x ∈ seqZ 0 (obj_count p)) by (rewrite <- Hperm; set_solver).
    pose proof (proj1 (elem_of_seqZ _ _ _) Hin).
    exists x. eexists. split_and!; [done| |lia|lia| |done].
    + simpl in Hnd. apply NoDup_cons in Hnd as [Hx _]. set_solver.
    + split; simpl; [done|congruence|]. rewrite Hl', <- Hperm. simpl.
      by rewrite Permutation_middle.
Qed.

(** [free] of a held object never finds the queue full. *)
Lemma pool_free_spec p x held :
  pool_inv p (x :: held) -> 0 <= obj_count p ->
  exists p', pool_free x p = Done p' /\ pool_inv p' held /\ obj_count p' = obj_count p.
Proof.
  intros Hinv Hc. pose proof (perm_length _ _ Hinv Hc) as Hlen. simpl in Hlen.
  destruct Hinv as [Hok Hcap Hperm]. unfold pool_free.
  destruct (fifo_put_ok _ x (free_objs p) Hok) as (q' & -> & Hok' & Hl' & Hc'); [lia|].
  simpl. eexists. split_and!; [done| |done]. split; simpl; [done|congruence|].
  rewrite Hl', <- Hperm, <- app_assoc. done.
Qed.

(** ** Histories of a pool

    A client may call [alloc] at any time and [free] with a pointer it
    holds. *)
Inductive pool_step : ObjectMemoryPool Q * list Z -> ObjectMemoryPool Q * list Z -> Prop :=
| step_alloc p held x p' :
    pool_alloc p = Done (Some x, p') -> pool_step (p, held) (p', x :: held)
| step_alloc_null p held p' :
    pool_alloc p = Done (None, p') -> pool_step (p, held) (p', held)
| step_free p held1 x held2 p' :
    pool_free x p = Done p' -> pool_step (p, held1 ++ x :: held2) (p', held1 ++ held2).

Lemma pool_inv_perm p h1 h2 : h1 ≡ₚ h2 -> pool_inv p h1 -> pool_inv p h2.
Proof. intros E [? ? Hp]. split; [done..|]. by rewrite <- E. Qed.

Lemma pool_steps_inv p held p' held' :
  rtc pool_step (p, held) (p', held') ->
  pool_inv p held -> 0 <= obj_count p ->
  pool_inv p' held' /\ obj_count p' = obj_count p.
Proof.
  remember (p, held) as a eqn:Ea. remember (p', held') as b eqn:Eb.
  intros Hs. revert p held p' held' Ea Eb.
  induction Hs as [a|a m b Hstep _ IH]; intros p held p' held' -> Eb Hinv Hc.
  - by simplify_eq.
  - destruct m as [pm hm]. enough (pool_inv pm hm /\ obj_count pm = obj_count p) as [Hm Ecm].
    { destruct (IH pm hm p' held' eq_refl Eb Hm) as [? ?]; [lia|]. split; [done|congruence]. }
    inversion Hstep as [? ? x ? Ha|? ? ? Ha|? h1 x h2 ? Hf]; subst.
    + destruct (pool_alloc_spec _ _ Hinv Hc) as [(y & p1 & E & _ & _ & Hi & Ec)|[E _]];
        rewrite E in Ha; by simplify_eq.
    + destruct (pool_alloc_spec _ _ Hinv Hc) as [(y & p1 & E & _)|[E _]];
        rewrite E in Ha; by simplify_eq.
    + apply (pool_inv_perm _ _ (x :: h1 ++ h2)) in Hinv; [|by rewrite Permutation_middle].
      destruct (pool_free_spec _ _ _ Hinv Hc) as (p1 & E & Hi & Ec).
      rewrite E in Hf. by simplify_eq.
Qed.

(** In every history of a pool of [cap] objects in which the
    clients return only what they hold, no object is held twice, the next
    [alloc] returns an object that is not held (null exactly when all
    [cap] are held), returning a held object always succeeds, and
    [remain] counts the rest. *)
Theorem pool_exclusive cap d p0 p held :
  0 <= cap < 2 ^ 31 - 1 ->
  pool_init 0 true true cap d = Done (0, p0) ->
  rtc pool_step (p0, []) (p, held) ->
  NoDup held
  /\ pool_remain p = cap - Z.of_nat (length held)
  /\ ((exists x p', pool_alloc p = Done (Some x, p') /\ (x ∉ held) /\ 0 <= x < cap)
      \/ (pool_alloc p = Done (None, p) /\ Z.of_nat (length held) = cap))
  /\ (forall x, x ∈ held -> exists p', pool_free x p = Done p').
Proof.
  intros Hcap Hinit Hs. destruct (pool_init_inv cap d Hcap) as (p1 & E & Hinv & Hc).
  rewrite Hinit in E. simplify_eq.
  destruct (pool_steps_inv _ _ _ _ Hs Hinv) as [Hinv' Hc']; [lia|]. rewrite <- Hc'.
  split_and!.
  - destruct Hinv' as [_ _ Hp]. apply NoDup_app with (l := fifo_list (free_objs p)).
    rewrite Hp. apply NoDup_seqZ.
  - pose proof (perm_length _ _ Hinv'). unfold pool_remain.
    rewrite fifo_count_length by apply Hinv'. lia.
  - destruct (pool_alloc_spec _ _ Hinv') as [(x & p' & ? & ? & ? & _)|]; [lia|left; eauto|by right].
  - intros x Hx. apply list_elem_of_split in Hx as (h1 & h2 & ->).
    apply (pool_inv_perm _ _ (x :: h1 ++ h2)) in Hinv'; [|by rewrite Permutation_middle].
    destruct (pool_free_spec _ _ _ Hinv') as (p2 & ? & _); [lia|]. eauto.
Qed.
End Pool.

(** The pool over the ring of FixedQueue. *)
Definition lmt_pool : Type := ObjectMemoryPool PfFixedSizeQueue.

Definition ring_pool (cap : Z) : lmt_pool :=
  match pool_init 0 true true cap empty_queue with
  | Done (_, p) => p
  | _ => mkPool empty_queue false 0
  end.

Lemma pool_exclusive_witness :
  exists p, rtc pool_step (ring_pool 2, []) (p, [1; 0])
    /\ pool_alloc p = Done (None, p) /\ pool_remain p = 0.
Proof.
  pose (p1 := mkPool (mkQueue 2 1 3 [0; 1; 0]) true 2 : lmt_pool).
  pose (p2 := mkPool (mkQueue 2 2 3 [0; 1; 0]) true 2 : lmt_pool).
  assert (Hs : rtc pool_step (ring_pool 2, []) (p2, [1; 0])).
  { apply (rtc_l _ _ (p1, [0])); [by apply step_alloc|].
    apply (rtc_l _ _ (p2, [1; 0])); [by apply step_alloc|]. apply rtc_refl. }
  exists p2. split; [exact Hs|].
  destruct (pool_exclusive (F := ring_fifo) 2 empty_queue (ring_pool 2) p2 [1; 0] ltac:(lia) ltac:(vm_compute; reflexivity) Hs)
    as (_ & Hr & [(x & p' & Ha & _)|[Ha _]] & _).
  - exfalso. vm_compute in Ha. discriminate Ha.
  - split; [exact Ha | exact Hr].
Defined.
