(* ===== verification/Bitmap.v ===== *)
(** * PfBitmap: the bitmap of recovered sectors

    Model of src/pfs/include/pf_bitmap.h: an array of 64-bit words.  The
    lemmas relate it to the set of its indices. *)

From Stdlib Require Import ZArith Lia.
From stdpp Require Import base tactics list numbers.
From S2P Require Import Prelude.

Record PfBitmap : Type := mkBitmap {
  bits_data : list Z;
  bit_count : Z
}.

(** the number of 64-bit words allocated *)
Definition word_count (n : Z) : Z := n / 8 / 8 + 1.

Definition new_bitmap (n : Z) : PfBitmap :=
  mkBitmap (replicate (Z.to_nat (word_count n)) 0) n.

Definition set_bit (index : Z) (b : PfBitmap) : outcome PfBitmap :=
  let* w := of_option (arr_get (bits_data b) (index / 64)) in
  let* d := of_option (arr_set (bits_data b) (index / 64)
                         (Z.lor w (Z.shiftl 1 (index mod 64)))) in
  Done (mkBitmap d (bit_count b)).

(** The loop of [is_empty] from word [i], [n] words to go. *)
Fixpoint is_empty_loop (n : nat) (i : Z) (d : list Z) : outcome bool :=
  match n with
  | O => Done true
  | S n =>
      let* w := of_option (arr_get d i) in
      if negb (w =? 0) then Done false else is_empty_loop n (i + 1) d
  end.

Definition bitmap_is_empty (b : PfBitmap) : outcome bool :=
  is_empty_loop (Z.to_nat (word_count (bit_count b))) 0 (bits_data b).

Definition is_set (index : Z) (b : PfBitmap) : outcome bool :=
  let* w := of_option (arr_get (bits_data b) (index / 64)) in
  Done (negb (Z.land w (Z.shiftl 1 (index mod 64)) =? 0)).

(** [memset] of [n] bytes from the first word on: a whole word while
    eight bytes are left, then the low bytes of one word. *)
Fixpoint memset0 (n : Z) (d : list Z) : list Z :=
  match d with
  | [] => []
  | w :: d =>
      if decide (8 <= n) then 0 :: memset0 (n - 8) d
      else Z.shiftl (Z.shiftr w (8 * n)) (8 * n) :: d
  end.

Definition bitmap_clear (b : PfBitmap) : PfBitmap :=
  mkBitmap (memset0 (bit_count b / 8) (bits_data b)) (bit_count b).

(** ** The set of a bitmap *)
Definition word_ok (w : Z) : Prop := 0 <= w < 2 ^ 64.

Record bitmap_wf (b : PfBitmap) : Prop := mkBitmapWf {
  bw_count : 0 <= bit_count b < 2 ^ 31;
  bw_len : Z.of_nat (length (bits_data b)) = word_count (bit_count b);
  bw_words : Forall word_ok (bits_data b)
}.

(** bit [i] of the array *)
Definition bit_at (d : list Z) (i : Z) : bool :=
  match arr_get d (i / 64) with
  | Some w => Z.testbit w (i mod 64)
  | None => false
  end.

Lemma land_one_bit w k : 0 <= k -> negb (Z.land w (Z.shiftl 1 k) =? 0) = Z.testbit w k.
Proof.
  intros Hk. rewrite Z.shiftl_1_l. destruct (Z.testbit w k) eqn:E.
  - apply negb_true_iff, Z.eqb_neq. intros H0.
    assert (H1 : Z.testbit (Z.land w (2 ^ k)) k = false) by (rewrite H0; apply Z.testbit_0_l).
    rewrite Z.land_spec, E, Z.pow2_bits_true in H1 by done. done.
  - apply negb_false_iff, Z.eqb_eq. apply Z.bits_inj'. intros n Hn.
    rewrite Z.land_spec, Z.pow2_bits_eqb, Z.testbit_0_l by done.
    destruct (Z.eqb_spec k n) as [->|]; [by rewrite E|by rewrite andb_false_r].
Qed.

Lemma word_set_ok w k : word_ok w -> 0 <= k < 64 -> word_ok (Z.lor w (Z.shiftl 1 k)).
Proof.
  unfold word_ok. intros Hw Hk. rewrite Z.shiftl_1_l.
  assert (0 <= Z.lor w (2 ^ k)) by (apply Z.lor_nonneg; lia). split; [done|].
  destruct (decide (Z.lor w (2 ^ k) = 0)) as [->|]; [lia|].
  apply Z.log2_lt_pow2; [lia|]. rewrite Z.log2_lor by lia.
  rewrite Z.log2_pow2 by lia. apply Z.max_lub_lt; [|lia].
  destruct (decide (w = 0)) as [->|]; [done|]. apply Z.log2_lt_pow2; lia.
Qed.

Lemma index_in_range b i :
  bitmap_wf b -> 0 <= i <= bit_count b -> 0 <= i / 64 < Z.of_nat (length (bits_data b)).
Proof.
  intros [Hc Hl _] Hi. rewrite Hl. unfold word_count. rewrite Z.div_div by lia. change (8 * 8) with 64.
  pose proof (Z.div_le_mono i (bit_count b) 64). pose proof (Z.div_pos i 64). lia.
Qed.

Lemma is_set_bit_at b i :
  bitmap_wf b -> 0 <= i <= bit_count b -> is_set i b = Done (bit_at (bits_data b) i).
Proof.
  intros Hwf Hi. unfold is_set, bit_at.
  destruct (arr_get_is_Some (bits_data b) (i / 64)) as [w ->]; [by apply index_in_range|].
  simpl. rewrite land_one_bit; [done|]. apply Z.mod_pos_bound. lia.
Qed.

Lemma set_bit_spec b i :
  bitmap_wf b -> 0 <= i <= bit_count b ->
  exists b', set_bit i b = Done b' /\ bitmap_wf b' /\ bit_count b' = bit_count b
    /\ forall j, bit_at (bits_data b') j = bool_decide (i = j) || bit_at (bits_data b) j.
Proof.
  intros Hwf Hi. pose proof (index_in_range b i Hwf Hi) as Hr. unfold set_bit.
  destruct (arr_get_is_Some (bits_data b) (i / 64) Hr) as [w Hw]. rewrite Hw. simpl.
  pose proof (arr_set_spec _ _ (Z.lor w (Z.shiftl 1 (i mod 64))) Hr) as Hs. rewrite Hs. simpl.
  pose proof (Z.mod_pos_bound i 64 ltac:(lia)) as Hm. destruct Hwf as [Hc Hl Hf].
  assert (Hwok : word_ok w).
  { rewrite arr_get_lookup in Hw by lia. by eapply Forall_lookup_1 in Hw. }
  eexists. split_and!; [done| |done|].
  - split; simpl; [done|by rewrite length_insert|].
    apply Forall_insert; [done|]. by apply word_set_ok.
  - intros j. unfold bit_at. simpl. rewrite (arr_get_set _ _ _ _ _ Hs). case_decide as E.
    + rewrite <- E, Hw, Z.lor_spec, Z.shiftl_1_l, Z.pow2_bits_eqb, orb_comm by lia.
      f_equal. pose proof (Z.div_mod i 64). pose proof (Z.div_mod j 64).
      case_bool_decide; [subst; apply Z.eqb_refl|]. apply Z.eqb_neq. lia.
    + rewrite bool_decide_eq_false_2; [done|]. by intros ->.
Qed.

Lemma word_zero_bits w : word_ok w -> (forall k, 0 <= k < 64 -> Z.testbit w k = false) -> w = 0.
Proof.
  intros Hw Hk. apply Z.bits_inj'. intros n Hn. rewrite Z.testbit_0_l.
  destruct (decide (n < 64)); [by apply Hk|].
  rewrite <- (Z.mod_small w (2 ^ 64)) by done. rewrite Z.mod_pow2_bits_high; lia.
Qed.

Lemma is_empty_loop_spec n i d :
  0 <= i -> i + Z.of_nat n = Z.of_nat (length d) ->
  exists r, is_empty_loop n i d = Done r /\
    (r = true <-> forall k w, i <= k -> arr_get d k = Some w -> w = 0).
Proof.
  revert i. induction n as [|n IH]; intros i Hi Hn; simpl.
  - exists true. split; [done|]. split; [|done]. intros _ k w Hk Hg%arr_get_Some_lt. lia.
  - destruct (arr_get_is_Some d i) as [w Hw]; [lia|]. rewrite Hw. simpl.
    destruct (Z.eqb_spec w 0) as [->|Hne]; simpl.
    + destruct (IH (i + 1)) as (r & -> & Hr); [lia..|]. exists r. split; [done|].
      rewrite Hr. split; intros H k v Hk Hg; [|by apply (H k v ltac:(lia) Hg)].
      destruct (decide (k = i)) as [->|]; [congruence|]. by apply (H k v ltac:(lia) Hg).
    + exists false. split; [done|]. split; [done|]. intros H. exfalso. by apply Hne, (H i w).
Qed.

Lemma all_zero_bits d :
  Forall word_ok d ->
  (forall k w, 0 <= k -> arr_get d k = Some w -> w = 0) <-> (forall j, bit_at d j = false).
Proof.
  intros Hf. split.
  - intros H j. unfold bit_at. destruct (arr_get d (j / 64)) as [w|] eqn:E; [|done].
    rewrite (H _ _ (proj1 (arr_get_Some_lt _ _ _ E)) E). apply Z.testbit_0_l.
  - intros H k w Hk Hg. apply word_zero_bits.
    { rewrite arr_get_lookup in Hg by done. by eapply Forall_lookup_1 in Hg. }
    intros b Hb. specialize (H (64 * k + b)). unfold bit_at in H.
    replace ((64 * k + b) / 64) with k in H by (apply (Z.div_unique _ _ _ b); lia).
    replace ((64 * k + b) mod 64) with b in H by (apply (Z.mod_unique _ _ k); lia).
    by rewrite Hg in H.
Qed.

Lemma memset0_bits n d j :
  0 <= n -> 0 <= j ->
  bit_at (memset0 n d) j = if decide (j < 8 * n) then false else bit_at d j.
Proof.
  revert n j. induction d as [|w d IH]; intros n j Hn Hj; simpl.
  - unfold bit_at, arr_get. repeat case_decide; done.
  - unfold bit_at. pose proof (Z.mod_pos_bound j 64 ltac:(lia)).
    assert (Hcons : forall (x : Z) l, arr_get (x :: l) (j / 64)
              = if decide (j < 64) then Some x else arr_get l ((j - 64) / 64)).
    { intros x l. replace (j - 64) with (j + -1 * 64) by lia. rewrite Z.div_add by lia.
      pose proof (Z.div_mod j 64). pose proof (Z.div_pos j 64). case_decide.
      - by replace (j / 64) with 0 by lia.
      - rewrite !arr_get_lookup by lia. replace (Z.to_nat (j / 64)) with (S (Z.to_nat (j / 64 + -1))) by lia.
        done. }
    destruct (decide (8 <= n)); rewrite !Hcons; destruct (decide (j < 64)).
    + rewrite Z.testbit_0_l. case_decide; [done|lia].
    + specialize (IH (n - 8) (j - 64)). unfold bit_at in IH.
      replace ((j - 64) mod 64) with (j mod 64) in IH
        by (replace (j - 64) with (j + -1 * 64) by lia; by rewrite Z.mod_add).
      rewrite IH by lia. repeat case_decide; (done || lia).
    + rewrite Z.mod_small by lia. rewrite Z.shiftl_spec by lia.
      case_decide; [apply Z.testbit_neg_r; lia|]. rewrite Z.shiftr_spec by lia. f_equal. lia.
    + case_decide; [lia|done].
Qed.

(** A bitmap represents a set of indices.  [set_bit i]
    adds exactly [i] to it, [is_set] decides membership, [is_empty] holds
    exactly for the empty set, and no call with an index up to
    [bit_count] touches memory outside the array. *)
Theorem bitmap_is_a_set b i :
  bitmap_wf b -> 0 <= i <= bit_count b ->
  exists b' e, set_bit i b = Done b' /\ bitmap_wf b'
    /\ (forall j, 0 <= j <= bit_count b ->
         exists s, is_set j b = Done s /\ is_set j b' = Done (bool_decide (i = j) || s))
    /\ bitmap_is_empty b = Done e
    /\ (e = true <-> forall j, bit_at (bits_data b) j = false)
    /\ bitmap_is_empty b' = Done false.
Proof.
  intros Hwf Hi. destruct (set_bit_spec b i Hwf Hi) as (b' & Hs & Hwf' & Hc & Hb).
  assert (Hemp : forall b, bitmap_wf b -> exists e, bitmap_is_empty b = Done e
            /\ (e = true <-> forall j, bit_at (bits_data b) j = false)).
  { intros c [? Hl Hf]. unfold bitmap_is_empty.
    destruct (is_empty_loop_spec (Z.to_nat (word_count (bit_count c))) 0 (bits_data c))
      as (e & -> & He); [lia| |].
    { unfold word_count in *. pose proof (Z.div_pos (bit_count c / 8) 8).
      pose proof (Z.div_pos (bit_count c) 8). lia. }
    exists e. split; [done|]. rewrite He. by apply all_zero_bits. }
  destruct (Hemp b Hwf) as (e & He & Hiff). destruct (Hemp b' Hwf') as (e' & He' & Hiff').
  exists b', e. split_and!; [done..| |done|done|].
  - intros j Hj. exists (bit_at (bits_data b) j). rewrite is_set_bit_at by done.
    rewrite is_set_bit_at by (done || lia). by rewrite Hb.
  - rewrite He'. destruct e'; [|done]. pose proof (proj1 Hiff' eq_refl i) as H0.
    rewrite Hb, bool_decide_eq_true_2 in H0 by done. done.
Qed.

Lemma bitmap_is_a_set_witness :
  exists b', set_bit 70 (new_bitmap 128) = Done b'
    /\ is_set 70 b' = Done true /\ is_set 6 b' = Done false.
Proof.
  assert (Hwf : bitmap_wf (new_bitmap 128)).
  { split; simpl; [lia|reflexivity|]. repeat constructor; unfold word_ok; lia. }
  destruct (bitmap_is_a_set (new_bitmap 128) 70 Hwf ltac:(simpl; lia))
    as (b' & e & Hs & _ & Hj & _).
  exists b'. split; [exact Hs|]. split.
  - destruct (Hj 70 ltac:(simpl; lia)) as (s & _ & ->). reflexivity.
  - destruct (Hj 6 ltac:(simpl; lia)) as (s & H1 & ->). vm_compute in H1. injection H1 as <-.
    reflexivity.
Defined.

(** [clear] removes the indices below [8 * (bit_count / 8)]
    and no other: when [bit_count] is not a multiple of eight, the last
    [bit_count mod 8] indices keep their value. *)
Theorem bitmap_clear_bits b j :
  bitmap_wf b -> 0 <= j ->
  bit_at (bits_data (bitmap_clear b)) j
    = if decide (j < 8 * (bit_count b / 8)) then false else bit_at (bits_data b) j.
Proof.
  intros [Hc _ _] Hj. unfold bitmap_clear. simpl. apply memset0_bits; [|done].
  apply Z.div_pos; lia.
Qed.

Lemma bitmap_clear_bits_witness :
  exists b, set_bit 9 (new_bitmap 10) = Done b
    /\ bit_at (bits_data (bitmap_clear b)) 9 = true.
Proof.
  exists (mkBitmap [512] 10). split; [reflexivity|].
  rewrite (bitmap_clear_bits (mkBitmap [512] 10) 9).
  - reflexivity.
  - split; simpl; [lia|reflexivity|]. repeat constructor; unfold word_ok; lia.
  - lia.
Defined.
