(* ===== verification/Ids.v ===== *)
(** * Identifiers, offsets and the layout of the device

    Model of the macros and types of src/common/include/pf_volume_type.h,
    src/common/include/basetype.h and src/common/include/pf_message.h that
    compute identifiers and offsets, and of the head page of a disk
    ([PfFlashStore::HeadPage], src/pfs/include/pf_flash_store.h) with the
    functions that locate the metadata zones. *)

From Stdlib Require Import ZArith Lia String.
From stdpp Require Import base tactics list numbers.
From S2P Require Import Prelude.

(** ** Volume, shard and replica ids (64 bits) *)
Definition SHARD_ID (x : Z) : Z := Z.land x 0xffffffffffffff00.
Definition SHARD_INDEX (x : Z) : Z := Z.shiftr (Z.land x 0x0000000000ffff00) 8.
Definition REPLICA_INDEX (x : Z) : Z := Z.land x 0x00000000000000ff.
Definition VOLUME_ID (x : Z) : Z := Z.land x 0xffffffffff000000.

(** The macros of pf_message.h *)
Definition VOL_ID_TO_VOL_INDEX (x : Z) : Z := Z.shiftr x 24.
Definition VOL_ID_TO_SHARD_INDEX (x : Z) : Z := Z.land (Z.shiftr x 4) 0x0fffff.

(** [health_status_from_str] and the enumeration it returns *)
Definition HS_OK : Z := 0.
Definition HS_ERROR : Z := 1.
Definition HS_DEGRADED : Z := 2.
Definition HS_RECOVERYING : Z := 3.
Definition MAX_REP_COUNT : Z := 5.

Definition status_strs : list string := ["OK"; "ERROR"; "DEGRADED"]%string.

Fixpoint find_str (s : string) (l : list string) (i : Z) : Z :=
  match l with
  | [] => -1
  | t :: l => if String.eqb s t then i else find_str s l (i + 1)
  end.

Definition health_status_from_str (s : string) : Z := find_str s status_strs 0.

(** ** Opcodes *)
Definition OP_CODE (x dir : Z) : Z := Z.lor (Z.shiftl x 2) dir.
Definition S5_OP_WRITE : Z := OP_CODE 0 1.
Definition S5_OP_READ : Z := OP_CODE 0 2.
Definition S5_OP_HEARTBEAT : Z := OP_CODE 1 0.
Definition S5_OP_REPLICATE_WRITE : Z := OP_CODE 1 1.
Definition S5_OP_COW_READ : Z := OP_CODE 2 2.
Definition S5_OP_COW_WRITE : Z := OP_CODE 2 1.
Definition S5_OP_RECOVERY_READ : Z := OP_CODE 3 2.
Definition S5_OP_RECOVERY_WRITE : Z := OP_CODE 3 1.
Definition S5_OP_RPC_ALLOC_BLOCK : Z := OP_CODE 4 0.
Definition S5_OP_RPC_DELETE_BLOCK : Z := OP_CODE 5 0.
Definition IS_WRITE_OP (op : Z) : bool := Z.land op 0x03 =? 1.
Definition IS_READ_OP (op : Z) : bool := Z.land op 0x03 =? 2.
Definition SNAP_SEQ_HEAD : Z := 0xffffffff.

(** ** Message status codes *)
Definition MSG_STATUS_SUCCESS : Z := 0x0.
Definition MSG_STATUS_INVALID_OPCODE : Z := 0x1.
Definition MSG_STATUS_INVALID_FIELD : Z := 0x2.
Definition MSG_STATUS_INTERNAL : Z := 0x6.
Definition MSG_STATUS_INVALID_STATE : Z := 0x09.
Definition MSG_STATUS_NOT_PRIMARY : Z := 0xC0.
Definition MSG_STATUS_NOSPACE : Z := 0xC1.
Definition MSG_STATUS_READONLY : Z := 0xC2.
Definition MSG_STATUS_CONN_LOST : Z := 0xC3.
Definition MSG_STATUS_AIOERROR : Z := 0xC4.
Definition MSG_STATUS_ERROR_HANDLED : Z := 0xC5.
Definition MSG_STATUS_LOGFAILED : Z := 0xCA.
Definition MSG_STATUS_REP_TO_PRIMARY : Z := 0xCE.
Definition MSG_STATUS_NO_RESOURCE : Z := 0xCF.
Definition MSG_STATUS_DEGRADE : Z := 0x2000.
Definition MSG_STATUS_REOPEN : Z := 0x4000.

(** ** Offsets *)
Definition LBA_LENGTH : Z := 4096.
Definition LBA_LENGTH_ORDER : Z := 12.
Definition SECTOR_SIZE : Z := 512.
Definition SHARD_LBA_CNT : Z := Z.shiftl 16 20.
Definition SHARD_LBA_CNT_ORDER : Z := 24.
Definition SHARD_SIZE_ORDER : Z := 36.
Definition SHARD_SIZE : Z := Z.shiftl 1 SHARD_SIZE_ORDER.

Definition OFFSET_TO_SHARD_INDEX (offset : Z) : Z :=
  Z.shiftr offset (LBA_LENGTH_ORDER + SHARD_LBA_CNT_ORDER).
Definition vol_offset_to_block_slba (offset obj_size_order : Z) : Z :=
  Z.shiftl (Z.shiftr offset obj_size_order) (obj_size_order - LBA_LENGTH_ORDER).
Definition offset_in_block (offset in_obj_offset_mask : Z) : Z :=
  Z.land offset in_obj_offset_mask.

(** ** The layout of a disk *)
Definition META_RESERVE_SIZE : Z := Z.shiftl 40 30.
Definition MIN_META_RESERVE_SIZE : Z := Z.shiftl 10 30.
Definition OFFSET_HEAD : Z := 0.
Definition OFFSET_FREE_LIST_FIRST : Z := 4096.
Definition OFFSET_TRIM_LIST_FIRST : Z := Z.shiftl 128 20.
Definition OFFSET_LMT_MAP_FIRST : Z := Z.shiftl 256 20.
Definition OFFSET_FREE_LIST_SECOND : Z := Z.shiftl 3 30.
Definition OFFSET_TRIM_LIST_SECOND : Z := OFFSET_FREE_LIST_SECOND + Z.shiftl 128 20.
Definition OFFSET_LMT_MAP_SECOND : Z := OFFSET_FREE_LIST_SECOND + Z.shiftl 256 20.
Definition OFFSET_REDO_LOG_FIRST : Z := Z.shiftl 6 30.
Definition REDO_LOG_SIZE : Z := Z.shiftl 256 20.
Definition OFFSET_REDO_LOG_SECOND : Z := OFFSET_REDO_LOG_FIRST + REDO_LOG_SIZE.
Definition COW_OBJ_SIZE : Z := Z.shiftl 128 10.
Definition RECOVERY_IO_SIZE : Z := Z.shiftl 128 10.
Definition DEFAULT_OBJ_SIZE : Z := Z.shiftl 64 20.
Definition DEFAULT_OBJ_SIZE_ORDER : Z := 26.
Definition S5_VERSION : Z := 0x00030000.

Definition FIRST_METADATA_ZONE : Z := 0.
Definition SECOND_METADATA_ZONE : Z := 1.
Definition FIRST_REDOLOG_ZONE : Z := 2.
Definition SECOND_REDOLOG_ZONE : Z := 3.

(** the arguments of [get_meta_position] *)
Inductive meta_type : Type := FREELIST | TRIMLIST | LMT | METADATA | REDOLOG.
Inductive which_zone : Type := CURRENT | OPPOSITE.

#[export] Instance meta_type_eq_dec : EqDecision meta_type.
Proof. solve_decision. Defined.
#[export] Instance which_zone_eq_dec : EqDecision which_zone.
Proof. solve_decision. Defined.

(** [HeadPage]: [uuid] is the number its 16 bytes stand for.  Left out
    are the creation time, a string that is only stored, and the two MD5
    sums, which a library computes and whose mismatch is only logged. *)
Record HeadPage : Type := mkHead {
  magic : Z;
  version : Z;
  uuid : Z;
  key_size : Z;
  entry_size : Z;
  objsize : Z;
  tray_capacity : Z;
  meta_size : Z;
  objsize_order : Z;
  free_list_position_first : Z;
  free_list_position_second : Z;
  free_list_size_first : Z;
  free_list_size_second : Z;
  trim_list_position_first : Z;
  trim_list_position_second : Z;
  trim_list_size : Z;
  lmt_position_first : Z;
  lmt_position_second : Z;
  lmt_size : Z;
  redolog_position_first : Z;
  redolog_position_second : Z;
  redolog_size : Z;
  redolog_phase : Z;
  current_metadata : Z;
  current_redolog : Z
}.

#[export] Instance head_eq_dec : EqDecision HeadPage.
Proof. solve_decision. Defined.

(** The part of the head page that changes after the disk is formatted
    (the block commented "update after save metadata"). *)
Definition head_update (md rl phase : Z) (h : HeadPage) : HeadPage := {|
  magic := magic h; version := version h; uuid := uuid h;
  key_size := key_size h; entry_size := entry_size h;
  objsize := objsize h; tray_capacity := tray_capacity h; meta_size := meta_size h;
  objsize_order := objsize_order h;
  free_list_position_first := free_list_position_first h;
  free_list_position_second := free_list_position_second h;
  free_list_size_first := free_list_size_first h;
  free_list_size_second := free_list_size_second h;
  trim_list_position_first := trim_list_position_first h;
  trim_list_position_second := trim_list_position_second h;
  trim_list_size := trim_list_size h;
  lmt_position_first := lmt_position_first h;
  lmt_position_second := lmt_position_second h;
  lmt_size := lmt_size h;
  redolog_position_first := redolog_position_first h;
  redolog_position_second := redolog_position_second h;
  redolog_size := redolog_size h;
  redolog_phase := phase;
  current_metadata := md;
  current_redolog := rl
|}.

Definition get_meta_position (h : HeadPage) (t : meta_type) (which : which_zone) : outcome Z :=
  match t with
  | FREELIST =>
      if decide (which = CURRENT) then
        Done (if current_metadata h =? FIRST_METADATA_ZONE
              then free_list_position_first h else free_list_position_second h)
      else
        Done (if current_metadata h =? FIRST_METADATA_ZONE
              then free_list_position_second h else free_list_position_first h)
  | TRIMLIST =>
      if decide (which = CURRENT) then
        Done (if current_metadata h =? FIRST_METADATA_ZONE
              then trim_list_position_first h else trim_list_position_second h)
      else
        Done (if current_metadata h =? FIRST_METADATA_ZONE
              then trim_list_position_second h else trim_list_position_first h)
  | LMT =>
      if decide (which = CURRENT) then
        Done (if current_metadata h =? FIRST_METADATA_ZONE
              then lmt_position_first h else lmt_position_second h)
      else
        Done (if current_metadata h =? FIRST_METADATA_ZONE
              then lmt_position_second h else lmt_position_first h)
  | REDOLOG =>
      if decide (which = CURRENT) then
        Done (if current_redolog h =? FIRST_REDOLOG_ZONE
              then redolog_position_first h else redolog_position_second h)
      else
        Done (if current_redolog h =? FIRST_REDOLOG_ZONE
              then redolog_position_second h else redolog_position_first h)
  | METADATA => Fatal
  end.

Definition meta_positon_2str (t : meta_type) (zone : Z) : outcome string :=
  match t with
  | REDOLOG => 
      Done (if zone =? FIRST_REDOLOG_ZONE then "[FIRST_LOGZONE]"%string else "[SECOND_LOGZONE]"%string)
  | METADATA => 
      Done (if zone =? FIRST_METADATA_ZONE then "[FIRST_METAZONE]"%string else "[SECOND_METAZONE]"%string)
  | _ => Fatal
  end.

Definition oppsite_md_zone (h : HeadPage) : Z :=
  if current_metadata h =? FIRST_METADATA_ZONE then SECOND_METADATA_ZONE else FIRST_METADATA_ZONE.

Definition oppsite_redolog_zone (h : HeadPage) : Z :=
  if current_redolog h =? FIRST_REDOLOG_ZONE then SECOND_REDOLOG_ZONE else FIRST_REDOLOG_ZONE.

(** physical object ids and offsets *)
Definition obj_id_to_offset (h : HeadPage) (obj_id : Z) : Z :=
  Z.shiftl obj_id (objsize_order h) + meta_size h.
Definition offset_to_obj_id (h : HeadPage) (offset : Z) : Z :=
  Z.shiftr (offset - meta_size h) (objsize_order h).

(** The head page that [initialize_store_head] fills in, for a device of
    [cap] bytes and the configured [meta] bytes of metadata. *)
Definition initial_head (id cap meta : Z) : HeadPage := {|
  magic := 0x3553424e;
  version := S5_VERSION;
  uuid := id;
  key_size := 32;
  entry_size := 48;
  objsize := DEFAULT_OBJ_SIZE;
  objsize_order := DEFAULT_OBJ_SIZE_ORDER;
  tray_capacity := cap;
  meta_size := meta;
  free_list_position_first := OFFSET_FREE_LIST_FIRST;
  free_list_size_first := Z.shiftl 128 20 - 4096;
  free_list_position_second := OFFSET_FREE_LIST_SECOND;
  free_list_size_second := Z.shiftl 128 20;
  trim_list_position_first := OFFSET_TRIM_LIST_FIRST;
  trim_list_position_second := OFFSET_TRIM_LIST_SECOND;
  trim_list_size := Z.shiftl 128 20;
  lmt_position_first := OFFSET_LMT_MAP_FIRST;
  lmt_position_second := OFFSET_LMT_MAP_SECOND;
  lmt_size := Z.shiftl 2 30;
  redolog_position_first := OFFSET_REDO_LOG_FIRST;
  redolog_position_second := OFFSET_REDO_LOG_SECOND;
  redolog_size := REDO_LOG_SIZE;
  current_metadata := FIRST_METADATA_ZONE;
  current_redolog := FIRST_REDOLOG_ZONE;
  redolog_phase := 0
|}.

(** ** Lemmas *)

(** Masking off the low [k] bits of a 64-bit number. *)
Lemma land_high_mask x k m :
  0 <= x < 2 ^ 64 -> 0 <= k <= 64 -> m = Z.shiftl (Z.ones (64 - k)) k ->
  Z.land x m = x / 2 ^ k * 2 ^ k.
Proof.
  intros Hx Hk ->. apply Z.bits_inj'. intros n Hn.
  rewrite Z.land_spec, Z.shiftl_spec by done. rewrite <- Z.shiftl_mul_pow2, Z.shiftl_spec by lia.
  destruct (decide (n < k)).
  { rewrite !(Z.testbit_neg_r _ (n - k)) by lia. by rewrite andb_false_r. }
  rewrite Z.div_pow2_bits by lia. replace (n - k + k) with n by lia.
  destruct (decide (n < 64)).
  - rewrite Z.ones_spec_low by lia. by rewrite andb_true_r.
  - rewrite Z.ones_spec_high by lia. rewrite andb_false_r.
    rewrite <- (Z.mod_small x (2 ^ 64)) by done. rewrite Z.mod_pow2_bits_high; [done|lia].
Qed.

Lemma land_low_mask x k m : 0 <= k -> m = Z.ones k -> Z.land x m = x mod 2 ^ k.
Proof. intros Hk ->. by apply Z.land_ones. Qed.

Lemma VOLUME_ID_div x : 0 <= x < 2 ^ 64 -> VOLUME_ID x = x / 2 ^ 24 * 2 ^ 24.
Proof. intros. by apply land_high_mask. Qed.

Lemma SHARD_ID_div x : 0 <= x < 2 ^ 64 -> SHARD_ID x = x / 2 ^ 8 * 2 ^ 8.
Proof. intros. by apply land_high_mask. Qed.

Lemma REPLICA_INDEX_mod x : REPLICA_INDEX x = x mod 2 ^ 8.
Proof. by apply land_low_mask. Qed.

Lemma SHARD_INDEX_div x : SHARD_INDEX x = (x / 2 ^ 8) mod 2 ^ 16.
Proof.
  unfold SHARD_INDEX. rewrite Z.shiftr_land. change (Z.shiftr 0xffff00 8) with (Z.ones 16).
  rewrite Z.land_ones by lia. by rewrite Z.shiftr_div_pow2 by lia.
Qed.

(** A replica id composed of a 40-bit volume index, a
    16-bit shard index and an 8-bit replica index is taken apart by the
    macros into exactly these parts, and the volume id of its shard id is
    its volume id. *)
Theorem replica_id_compose v s r :
  0 <= v < 2 ^ 40 -> 0 <= s < 2 ^ 16 -> 0 <= r < 2 ^ 8 ->
  let x := v * 2 ^ 24 + s * 2 ^ 8 + r in
  VOLUME_ID x = v * 2 ^ 24 /\ SHARD_INDEX x = s /\ REPLICA_INDEX x = r
  /\ SHARD_ID x = v * 2 ^ 24 + s * 2 ^ 8 /\ VOLUME_ID (SHARD_ID x) = VOLUME_ID x
  /\ SHARD_INDEX (SHARD_ID x) = SHARD_INDEX x.
Proof.
  intros Hv Hs Hr x. assert (Hx : 0 <= x < 2 ^ 64) by (unfold x; lia).
  assert (E24 : x / 2 ^ 24 = v) by (symmetry; apply (Z.div_unique _ _ _ (s * 2 ^ 8 + r)); lia).
  assert (E8 : x / 2 ^ 8 = v * 2 ^ 16 + s) by (symmetry; apply (Z.div_unique _ _ _ r); lia).
  assert (Er : x mod 2 ^ 8 = r) by (symmetry; apply (Z.mod_unique _ _ (v * 2 ^ 16 + s)); lia).
  assert (Es : (x / 2 ^ 8) mod 2 ^ 16 = s) by (rewrite E8; symmetry; apply (Z.mod_unique _ _ v); lia).
  assert (Hid : SHARD_ID x = v * 2 ^ 24 + s * 2 ^ 8) by (rewrite SHARD_ID_div, E8 by done; lia).
  split_and!.
  - by rewrite VOLUME_ID_div, E24.
  - by rewrite SHARD_INDEX_div.
  - by rewrite REPLICA_INDEX_mod.
  - done.
  - rewrite Hid, !VOLUME_ID_div, E24 by lia. f_equal.
    symmetry. apply (Z.div_unique _ _ _ (s * 2 ^ 8)); lia.
  - rewrite Hid, !SHARD_INDEX_div, Es. replace ((v * 2 ^ 24 + s * 2 ^ 8) / 2 ^ 8) with (v * 2 ^ 16 + s).
    + symmetry. apply (Z.mod_unique _ _ v); lia.
    + apply (Z.div_unique _ _ _ 0); lia.
Qed.

Lemma replica_id_compose_witness :
  VOLUME_ID 0x7003102 = 0x7000000 /\ SHARD_INDEX 0x7003102 = 0x31 /\ REPLICA_INDEX 0x7003102 = 2.
Proof.
  destruct (replica_id_compose 7 0x31 2) as (H1 & H2 & H3 & _); [lia|lia|lia|].
  split; [exact H1|]. split; [exact H2|exact H3].
Defined.

(** Object ids and offsets on the device correspond:
    every byte of the extent of object [i] maps back to [i], so the extents of two
    objects are disjoint; and a volume offset is recovered from the block
    and the offset in the block that the read and write paths compute. *)
Theorem object_offset_roundtrip h i o off :
  LBA_LENGTH_ORDER <= objsize_order h -> 0 <= o < 2 ^ objsize_order h ->
  offset_to_obj_id h (obj_id_to_offset h i + o) = i
  /\ vol_offset_to_block_slba off (objsize_order h) * LBA_LENGTH
       + offset_in_block off (2 ^ objsize_order h - 1) = off
  /\ 0 <= offset_in_block off (2 ^ objsize_order h - 1) < 2 ^ objsize_order h.
Proof.
  unfold LBA_LENGTH_ORDER, LBA_LENGTH. intros Hord Ho.
  assert (Hin : offset_in_block off (2 ^ objsize_order h - 1) = off mod 2 ^ objsize_order h).
  { apply land_low_mask; [lia|]. rewrite Z.ones_equiv. lia. }
  unfold offset_to_obj_id, obj_id_to_offset, vol_offset_to_block_slba, LBA_LENGTH_ORDER.
  rewrite Hin. split_and!.
  - rewrite Z.shiftr_div_pow2, Z.shiftl_mul_pow2 by lia.
    symmetry. apply (Z.div_unique _ _ _ o); lia.
  - rewrite Z.shiftl_mul_pow2, Z.shiftr_div_pow2 by lia.
    rewrite <- Z.mul_assoc. change 4096 with (2 ^ 12). rewrite <- Z.pow_add_r by lia.
    replace (objsize_order h - 12 + 12) with (objsize_order h) by lia.
    rewrite Z.mul_comm. symmetry. apply Z.div_mod. pose proof (Z.pow_pos_nonneg 2 (objsize_order h)). lia.
  - apply Z.mod_pos_bound. lia.
  - apply Z.mod_pos_bound. lia.
Qed.

Lemma object_offset_roundtrip_witness :
  let h := initial_head 0 (Z.shiftl 1 40) MIN_META_RESERVE_SIZE in
  offset_to_obj_id h (obj_id_to_offset h 5 + 4096) = 5
  /\ vol_offset_to_block_slba 0x8001200 26 = 0x8000.
Proof.
  intros h. split; [|reflexivity].
  apply (object_offset_roundtrip h 5 4096 0x8001200); [vm_compute; discriminate|].
  split; [lia|vm_compute; reflexivity].
Defined.

(** The areas of a disk as (start, length), in order of position. *)
Definition zones (h : HeadPage) : list (Z * Z) :=
  [(OFFSET_HEAD, LBA_LENGTH);
   (free_list_position_first h, free_list_size_first h);
   (trim_list_position_first h, trim_list_size h);
   (lmt_position_first h, lmt_size h);
   (free_list_position_second h, free_list_size_second h);
   (trim_list_position_second h, trim_list_size h);
   (lmt_position_second h, lmt_size h);
   (redolog_position_first h, redolog_size h);
   (redolog_position_second h, redolog_size h)].

Fixpoint laid_out (from : Z) (l : list (Z * Z)) (limit : Z) : bool :=
  match l with
  | [] => from <? limit
  | (s, n) :: l => (from <=? s) && (0 <? n) && laid_out (s + n) l limit
  end.

Lemma laid_out_limit from l lim1 lim2 :
  lim1 <= lim2 -> laid_out from l lim1 = true -> laid_out from l lim2 = true.
Proof.
  intros Hl. revert from. induction l as [|[s n] l IH]; intros from; simpl; [lia|].
  intros [H1 H2]%andb_prop. rewrite H1. simpl. by apply IH.
Qed.

(** The head page, both metadata zones and both log zones of a
    freshly formatted disk follow each other without overlap, end before
    the data area, and the position the code calls CURRENT is always
    different from the one it calls OPPOSITE. *)
Theorem layout_disjoint id cap meta md rl :
  MIN_META_RESERVE_SIZE <= meta ->
  let h := initial_head id cap meta in
  laid_out 0 (zones h) (meta_size h) = true
  /\ obj_id_to_offset h 0 = meta_size h
  /\ forall t, t <> METADATA ->
       let h' := head_update md rl (redolog_phase h) h in
       exists a b, get_meta_position h' t CURRENT = Done a
         /\ get_meta_position h' t OPPOSITE = Done b /\ a <> b.
Proof.
  intros Hm h. split_and!; [|done|].
  - apply (laid_out_limit _ _ MIN_META_RESERVE_SIZE); [done|]. reflexivity.
  - intros t Ht. destruct t; try done; simpl;
      [destruct (md =? _)|destruct (md =? _)|destruct (md =? _)|destruct (rl =? _)];
      eexists _, _; (split; [reflexivity|]); split; (reflexivity || discriminate).
Qed.

Lemma layout_disjoint_witness :
  laid_out 0 (zones (initial_head 1 (Z.shiftl 1 40) META_RESERVE_SIZE)) META_RESERVE_SIZE = true.
Proof.
  apply (layout_disjoint 1 (Z.shiftl 1 40) META_RESERVE_SIZE 0 2). vm_compute. discriminate.
Defined.
