(* ===== verification/Lmt.v ===== *)
(** * The logical map table: keys, entries and their chains

    Model of src/common/include/pf_lmt.h.  An [lmt_key] names a block of a
    volume, an [lmt_entry] an object of the disk that holds one snapshot of
    the block; the entries of a block form a list linked by [prev_snap],
    newest snapshot first.

    The two list routines of the header are modelled twice: on a heap of
    nodes with pointers, loop by loop as they are written, and as functions
    on lists.  The refinement lemmas relate the two, so that the store can
    use chains as lists. *)

From Stdlib Require Import ZArith Lia.
From stdpp Require Import base tactics list numbers sets gmap sorting.
From S2P Require Import Prelude Bitmap.

Record lmt_key : Type := mkKey {
  vol_id : Z;
  slba : Z
}.

#[export] Instance lmt_key_eq_dec : EqDecision lmt_key.
Proof. solve_decision. Defined.

#[export] Instance lmt_key_countable : Countable lmt_key.
Proof.
  apply (inj_countable' (fun k => (vol_id k, slba k)) (fun p => mkKey p.1 p.2)).
  by intros [].
Defined.

Inductive EntryStatus : Type :=
| UNINIT
| NORMAL
| COPYING
| DELAY_DELETE_AFTER_COW
| RECOVERYING.

#[export] Instance status_eq_dec : EqDecision EntryStatus.
Proof. solve_decision. Defined.

Definition status_code (s : EntryStatus) : Z :=
  match s with
  | UNINIT => 0
  | NORMAL => 1
  | COPYING => 2
  | DELAY_DELETE_AFTER_COW => 3
  | RECOVERYING => 4
  end.

(** [lmt_hash]: the arithmetic of [size_t] (64 bits) *)
Definition lmt_hash (k : lmt_key) : Z :=
  u64 (Z.lxor (u64 (u64 (Z.shiftl (vol_id k) 8) * slba k)) 14695981039346656037 * 1099511628211).

(** A sub-task of an I/O request: its identity, its replica, and what its
    command and its data buffer hold.  The [next] pointer of a waiting
    task is its position in the list [waiting_io]. *)
Record IoSubTask : Type := mkIo {
  io_id : Z;
  rep_id : Z;
  cmd_opcode : Z;
  cmd_snap_seq : Z;
  cmd_vol_id : Z;
  cmd_offset : Z;
  cmd_length : Z;
  io_data : Z -> Z
}.

(** [lmt_entry]; [e_addr] is the address of the entry in the entry pool and
    [prev_snap] its successor in the chain. *)
Record lmt_entry : Type := mkEntry {
  e_addr : Z;
  offset : Z;
  snap_seq : Z;
  status : EntryStatus;
  waiting_io : list IoSubTask;
  recovery_bmp : option PfBitmap;
  recovery_buf : option (Z -> Z)
}.

Definition init_for_redo (e : lmt_entry) : lmt_entry :=
  mkEntry (e_addr e) (offset e) (snap_seq e) (status e) [] None None.

Notation chain := (list lmt_entry).

(** ** The routines on a heap of linked nodes *)
Record node : Type := mkNode {
  n_entry : lmt_entry;
  n_prev : option Z
}.

Definition set_prev (n : node) (p : option Z) : node := mkNode (n_entry n) p.

Section Heap.
Implicit Types (h : gmap Z node) (p : option Z).

(** The [while] loop of [insert_lmt_entry_list]: [head] is not null. *)
Fixpoint insert_loop (fuel : nat) h (head entry : Z) (after same : lmt_entry -> bool)
    : outcome (Z * gmap Z node) :=
  match fuel with
  | O => Fatal
  | S fuel =>
      let* hd := of_option (h !! head) in
      if same (n_entry hd) then Done (- EEXIST, h)
      else
        match n_prev hd with
        | None => Done (0, <[head := set_prev hd (Some entry)]> h)
        | Some nx =>
            let* nd := of_option (h !! nx) in
            if after (n_entry nd) then insert_loop fuel h nx entry after same
            else
              let* en := of_option (h !! entry) in
              Done (0, <[head := set_prev hd (Some entry)]> (<[entry := set_prev en (Some nx)]> h))
        end
  end.

(** Returns the code, the heap and the new [*head_ref]. *)
Definition insert_lmt_entry_list h p (entry : Z) (after same : lmt_entry -> bool)
    : outcome (Z * gmap Z node * option Z) :=
  let* head := of_option p in
  let* hd := of_option (h !! head) in
  if same (n_entry hd) then Done (- EEXIST, h, p)
  else if negb (after (n_entry hd)) then
    let* en := of_option (h !! entry) in
    Done (0, <[entry := set_prev en p]> h, Some entry)
  else
    let* (rc, h) := insert_loop (S (size h)) h head entry after same in
    Done (rc, h, p).

(** First loop of [delete_matched_entry]: unlink matching heads. The
    addresses given to [free_func] are returned in order. *)
Fixpoint delete_heads (fuel : nat) h p (m : lmt_entry -> bool) : outcome (option Z * list Z) :=
  match fuel with
  | O => Fatal
  | S fuel =>
      match p with
      | None => Done (None, [])
      | Some t =>
          let* nd := of_option (h !! t) in
          if m (n_entry nd) then
            let* (p, freed) := delete_heads fuel h (n_prev nd) m in
            Done (p, t :: freed)
          else Done (p, [])
      end
  end.

(** Inner loop: advance [prev] and [temp] to the next match. *)
Fixpoint skip_unmatched (fuel : nat) h (prev temp : option Z) (m : lmt_entry -> bool)
    : outcome (option Z * option Z) :=
  match fuel with
  | O => Fatal
  | S fuel =>
      match temp with
      | None => Done (prev, None)
      | Some t =>
          let* nd := of_option (h !! t) in
          if m (n_entry nd) then Done (prev, temp)
          else skip_unmatched fuel h temp (n_prev nd) m
      end
  end.

(** Outer loop. *)
Fixpoint delete_rest (fuel : nat) h (prev temp : option Z) (m : lmt_entry -> bool)
    : outcome (gmap Z node * list Z) :=
  match fuel with
  | O => Fatal
  | S fuel' =>
      match temp with
      | None => Done (h, [])
      | Some _ =>
          let* (prev, temp) := skip_unmatched (S (size h)) h prev temp m in
          match temp with
          | None => Done (h, [])
          | Some t =>
              let* nt := of_option (h !! t) in
              let* pr := of_option prev in
              let* np := of_option (h !! pr) in
              let h := <[pr := set_prev np (n_prev nt)]> h in
              let* (h, freed) := delete_rest fuel' h prev (n_prev nt) m in
              Done (h, t :: freed)
          end
      end
  end.

Definition delete_matched_entry h p (m : lmt_entry -> bool)
    : outcome (gmap Z node * option Z * list Z) :=
  let* (p, freed) := delete_heads (S (size h)) h p m in
  let* (h, freed') := delete_rest (S (size h)) h None p m in
  Done (h, p, freed ++ freed').
End Heap.

(** ** The routines on lists *)
Fixpoint chain_insert_loop (x : lmt_entry) (after same : lmt_entry -> bool) (c : chain)
    : Z * chain :=
  match c with
  | [] => (- ENOENT, [])
  | e :: c' =>
      if same e then (- EEXIST, c)
      else
        match c' with
        | [] => (0, [e; x])
        | e2 :: _ =>
            if after e2 then
              let (rc, r) := chain_insert_loop x after same c' in (rc, e :: r)
            else (0, e :: x :: c')
        end
  end.

Definition chain_insert (x : lmt_entry) (after same : lmt_entry -> bool) (c : chain)
    : outcome (Z * chain) :=
  match c with
  | [] => Undef
  | e :: _ =>
      if same e then Done (- EEXIST, c)
      else if negb (after e) then Done (0, x :: c)
      else Done (chain_insert_loop x after same c)
  end.

(** The entries kept, and those passed to [free_func] in order. *)
Definition chain_delete (m : lmt_entry -> bool) (c : chain) : chain * chain :=
  (List.filter (fun e => negb (m e)) c, List.filter m c).

(** ** Representation of a chain in the heap *)
Fixpoint is_seg (h : gmap Z node) (p : option Z) (c : chain) (q : option Z) : Prop :=
  match c with
  | [] => p = q
  | e :: c =>
      p = Some (e_addr e) /\ exists nx, h !! e_addr e = Some (mkNode e nx) /\ is_seg h nx c q
  end.

Definition is_chain (h : gmap Z node) (p : option Z) (c : chain) : Prop := is_seg h p c None.

Definition addrs (c : chain) : list Z := e_addr <$> c.

Section Rep.
Implicit Types (h : gmap Z node) (c : chain).

Lemma is_seg_app h p c1 c2 q :
  is_seg h p (c1 ++ c2) q <-> exists r, is_seg h p c1 r /\ is_seg h r c2 q.
Proof.
  revert p. induction c1 as [|e c1 IH]; intros p; simpl.
  - split; [by eauto|]. by intros (r & -> & ?).
  - split.
    + intros (-> & nx & Hl & (r & ? & ?)%IH). eauto 10.
    + intros (r & (-> & nx & Hl & ?) & ?). split; [done|]. exists nx. split; [done|].
      apply IH. eauto.
Qed.

Lemma is_seg_ext h h' p c q :
  (forall a, a ∈ addrs c -> h' !! a = h !! a) -> is_seg h p c q -> is_seg h' p c q.
Proof.
  revert p. induction c as [|e c IH]; intros p Ha; simpl; [done|].
  intros (-> & nx & Hl & Hs). split; [done|]. exists nx. split.
  - rewrite Ha; [done|]. unfold addrs. csimpl. set_solver.
  - apply IH; [|done]. intros a Hin. apply Ha. unfold addrs in *. csimpl. set_solver.
Qed.

Lemma is_seg_insert h p c q a n :
  a ∉ addrs c -> is_seg h p c q -> is_seg (<[a := n]> h) p c q.
Proof.
  intros Ha. apply is_seg_ext. intros b Hb. apply lookup_insert_ne. by intros ->.
Qed.

Lemma is_chain_fun h p c1 c2 : is_chain h p c1 -> is_chain h p c2 -> c1 = c2.
Proof.
  unfold is_chain. revert p c2. induction c1 as [|e c1 IH]; intros p [|e2 c2]; simpl.
  - done.
  - intros -> [? _]. done.
  - intros [-> _] [=].
  - intros (-> & nx & Hl & Hs) ([= Ha] & nx2 & Hl2 & Hs2). rewrite <- Ha, Hl in Hl2.
    simplify_eq. f_equal. by eapply IH.
Qed.

Lemma is_chain_nodup h p c : is_chain h p c -> NoDup (addrs c).
Proof.
  unfold is_chain. revert p. induction c as [|e c IH]; intros p Hc; [constructor|].
  pose proof Hc as (-> & nx & Hl & Hs). csimpl. constructor; [|by eapply IH].
  intros (e2 & He2 & Hin)%list_elem_of_fmap. apply list_elem_of_split in Hin as (c1 & c2 & ->).
  apply is_seg_app in Hs as (r & _ & Hs). pose proof Hs as [-> _]. rewrite <- He2 in Hs.
  pose proof (is_chain_fun _ _ _ _ Hc Hs) as E. apply (f_equal length) in E.
  simpl in E. rewrite length_app in E. simpl in E. lia.
Qed.

Lemma is_seg_dom h p c q : is_seg h p c q -> list_to_set (addrs c) ⊆ dom h.
Proof.
  revert p. induction c as [|e c IH]; intros p; simpl; [set_solver|].
  intros (_ & nx & Hl & Hs). apply IH in Hs. apply elem_of_dom_2 in Hl.
  unfold addrs in *. csimpl. set_solver.
Qed.

(** The fuel of the loops is enough: a chain is no longer than the heap. *)
Lemma is_chain_size h p c : is_chain h p c -> (length c <= size h)%nat.
Proof.
  intros Hc. pose proof (is_chain_nodup _ _ _ Hc) as Hnd. apply is_seg_dom in Hc.
  apply subseteq_size in Hc. rewrite size_list_to_set, size_dom in Hc by done.
  unfold addrs in Hc. by rewrite length_fmap in Hc.
Qed.

Lemma delete_heads_spec fuel h p c m :
  is_chain h p c -> (length c < fuel)%nat ->
  exists c1 c2 p', c = c1 ++ c2 /\ Forall (fun e => m e = true) c1
    /\ delete_heads fuel h p m = Done (p', addrs c1) /\ is_chain h p' c2
    /\ (forall e c', c2 = e :: c' -> m e = false).
Proof.
  unfold is_chain. revert p c. induction fuel as [|fuel IH]; intros p c Hc Hf; [lia|].
  destruct c as [|e c]; simpl in *.
  - subst p. exists [], [], None. by splits.
  - destruct Hc as (-> & nx & Hl & Hs). rewrite Hl. simpl. destruct (m e) eqn:Hm.
    + destruct (IH nx c Hs) as (c1 & c2 & p' & -> & Hf1 & -> & Hc2 & Hh); [lia|].
      exists (e :: c1), c2, p'. splits; [done|by constructor|done|done|done].
    + exists [], (e :: c), (Some (e_addr e)). splits; [done|by constructor|done|by split; eauto|].
      by intros e' c' [= <- <-].
Qed.

Lemma skip_unmatched_spec fuel h prev temp c m :
  is_chain h temp c -> (length c < fuel)%nat ->
  (Forall (fun e => m e = false) c /\ exists pr, skip_unmatched fuel h prev temp m = Done (pr, None))
  \/ (exists c1 t c2, c = c1 ++ t :: c2 /\ Forall (fun e => m e = false) c1 /\ m t = true
      /\ skip_unmatched fuel h prev temp m
         = Done (match last c1 with Some l => Some (e_addr l) | None => prev end, Some (e_addr t))).
Proof.
  unfold is_chain. revert prev temp c. induction fuel as [|fuel IH]; intros prev temp c Hc Hf; [lia|].
  destruct c as [|e c]; simpl in *.
  - subst temp. left. split; [constructor|]. by exists prev.
  - destruct Hc as (-> & nx & Hl & Hs). rewrite Hl. simpl. destruct (m e) eqn:Hm.
    + right. exists [], e, c. splits; [done|by constructor|done|done].
    + destruct (IH (Some (e_addr e)) nx c Hs) as [[Hfa [pr ->]]|(c1 & t & c2 & -> & Hf1 & Ht & ->)]; [lia| |].
      * left. split; [by constructor|]. by exists pr.
      * right. exists (e :: c1), t, c2. splits; [done|by constructor|done|].
        destruct c1 as [|x c1]; [done|]. change (last (e :: x :: c1)) with (last (x :: c1)).
        destruct (last (x :: c1)) eqn:El; [done|]. by apply last_None in El.
Qed.

Lemma filter_none (m : lmt_entry -> bool) c :
  Forall (fun e => m e = false) c ->
  List.filter (fun e => negb (m e)) c = c /\ List.filter m c = [].
Proof.
  induction 1 as [|e c Hm _ [IH1 IH2]]; [done|]. simpl. by rewrite Hm, IH1, IH2.
Qed.

Lemma filter_all (m : lmt_entry -> bool) c :
  Forall (fun e => m e = true) c ->
  List.filter (fun e => negb (m e)) c = [] /\ List.filter m c = c.
Proof.
  induction 1 as [|e c Hm _ [IH1 IH2]]; [done|]. simpl. by rewrite Hm, IH1, IH2.
Qed.

(** Unlinking the successor of [l] in the heap. *)
Lemma unlink_spec h p pre l t c :
  is_chain h p (pre ++ l :: t :: c) ->
  exists nt, h !! e_addr t = Some (mkNode t nt) /\ h !! e_addr l = Some (mkNode l (Some (e_addr t)))
    /\ let h1 := <[e_addr l := mkNode l nt]> h in
       is_chain h1 (Some (e_addr l)) (l :: c) /\ is_seg h1 p pre (Some (e_addr l))
       /\ (forall a, a ∉ addrs (pre ++ l :: t :: c) -> h1 !! a = h !! a).
Proof.
  intros Hc. pose proof (is_chain_nodup _ _ _ Hc) as Hnd.
  apply is_seg_app in Hc as (r & Hpre & -> & nx & Hl & -> & nt & Ht & Hs).
  exists nt. splits; [done..|]. intros h1. unfold addrs in *.
  rewrite fmap_app in Hnd. csimpl in Hnd. apply NoDup_app in Hnd as (_ & Hdis & Hnd).
  apply NoDup_cons in Hnd as [Hnl Hnd]. splits.
  - split; [done|]. exists nt. split; [apply lookup_insert_eq|].
    apply is_seg_insert; [|done]. unfold addrs. set_solver.
  - apply is_seg_insert; [|done]. unfold addrs. intros Hin. apply (Hdis _ Hin). set_solver.
  - intros a Ha. apply lookup_insert_ne. intros <-. apply Ha. rewrite fmap_app. csimpl. set_solver.
Qed.

Lemma delete_rest_step fuel h prev temp m :
  delete_rest (S fuel) h prev temp m =
  let* (prev, temp) := skip_unmatched (S (size h)) h prev temp m in
  match temp with
  | None => Done (h, [])
  | Some t =>
      let* nt := of_option (h !! t) in
      let* pr := of_option prev in
      let* np := of_option (h !! pr) in
      let h := <[pr := set_prev np (n_prev nt)]> h in
      let* (h, freed) := delete_rest fuel h prev (n_prev nt) m in
      Done (h, t :: freed)
  end.
Proof. by destruct temp. Qed.

Lemma cons_app_last {A : Type} (x : A) l :
  exists pre y, x :: l = pre ++ [y] /\ y = match last l with Some z => z | None => x end.
Proof.
  destruct (last l) as [z|] eqn:E.
  - apply last_Some in E as [l' ->]. by exists (x :: l'), z.
  - apply last_None in E as ->. by exists [], x.
Qed.

Lemma delete_rest_spec fuel h e temp c m :
  is_chain h (Some (e_addr e)) (e :: c) -> h !! e_addr e = Some (mkNode e temp) ->
  (length c < fuel)%nat ->
  exists h', delete_rest fuel h (Some (e_addr e)) temp m = Done (h', addrs (List.filter m c))
    /\ is_chain h' (Some (e_addr e)) (e :: List.filter (fun x => negb (m x)) c)
    /\ (forall a, a ∉ addrs (e :: c) -> h' !! a = h !! a).
Proof.
  revert h e temp c. induction fuel as [|fuel IH]; intros h e temp c Hc He Hf; [lia|].
  assert (Hct : is_chain h temp c).
  { destruct Hc as (_ & nx & Hl & Hs). rewrite He in Hl. by simplify_eq. }
  pose proof (is_chain_size _ _ _ Hct). rewrite delete_rest_step.
  destruct (skip_unmatched_spec (S (size h)) h (Some (e_addr e)) temp c m Hct)
    as [[Hfa [pr ->]]|(c1 & t & c2 & -> & Hf1 & Ht & ->)]; [lia| |].
  - simpl. destruct (filter_none _ _ Hfa) as [-> ->]. by exists h.
  - destruct (cons_app_last e c1) as (pre & l & Epre & El).
    assert (Hlast : match last c1 with Some l => Some (e_addr l) | None => Some (e_addr e) end
                    = Some (e_addr l)) by (rewrite El; by destruct (last c1)).
    assert (Eall : e :: c1 ++ t :: c2 = pre ++ l :: t :: c2).
    { change (e :: c1 ++ t :: c2) with ((e :: c1) ++ t :: c2). rewrite Epre, <- app_assoc. done. }
    rewrite Eall in Hc |- *.
    destruct (unlink_spec _ _ _ _ _ _ Hc) as (nt & Htl & Hll & Hc1 & Hpre & Hout).
    simpl. rewrite Hlast, Htl. simpl. rewrite Hll. simpl. unfold set_prev. simpl.
    set (h1 := <[e_addr l := mkNode l nt]> h) in *.
    destruct (IH h1 l nt c2 Hc1) as (h2 & -> & Hc2 & Hout2).
    { apply lookup_insert_eq. } { rewrite length_app in Hf. simpl in Hf. lia. }
    simpl. exists h2. destruct (filter_none _ _ Hf1) as [Ef1 Ef2].
    rewrite !List.filter_app. simpl. rewrite Ef1, Ef2, Ht. simpl. splits; [done| |].
    + change (is_chain h2 (Some (e_addr e)) ((e :: c1) ++ List.filter (fun x => negb (m x)) c2)).
      rewrite Epre, <- app_assoc. apply is_seg_app. exists (Some (e_addr l)). split; [|exact Hc2].
      apply (is_seg_ext h1); [|done]. intros a Ha. apply Hout2. intros Hin.
      pose proof (is_chain_nodup _ _ _ Hc) as Hnd. unfold addrs in *. rewrite fmap_app in Hnd.
      csimpl in Hnd. apply NoDup_app in Hnd as (_ & Hdis & _). apply (Hdis _ Ha).
      csimpl in Hin. set_solver.
    + intros a Ha. rewrite Hout2; [by apply Hout|]. intros Hin. apply Ha. unfold addrs in *.
      rewrite fmap_app. csimpl in *. set_solver.
Qed.

Lemma skip_unmatched_fuel f1 f2 h prev temp c m :
  is_chain h temp c -> (length c < f1)%nat -> (length c < f2)%nat ->
  skip_unmatched f1 h prev temp m = skip_unmatched f2 h prev temp m.
Proof.
  unfold is_chain. revert f2 prev temp c. induction f1 as [|f1 IH]; intros f2 prev temp c Hc H1 H2; [lia|].
  destruct f2 as [|f2]; [lia|]. destruct c as [|e c]; simpl in *; [by subst|].
  destruct Hc as (-> & nx & -> & Hs). simpl. destruct (m e); [done|]. eapply IH; [done|lia|lia].
Qed.

(** The first round of the outer loop, on a head that does not match,
    starts as a round with this head as [prev]. *)
Lemma delete_rest_start h e nx c m :
  is_chain h (Some (e_addr e)) (e :: c) -> h !! e_addr e = Some (mkNode e nx) -> m e = false ->
  delete_rest (S (size h)) h None (Some (e_addr e)) m
  = delete_rest (S (size h)) h (Some (e_addr e)) nx m.
Proof.
  intros Hc He Hm. pose proof (is_chain_size _ _ _ Hc) as Hlen. simpl in Hlen.
  destruct Hc as (_ & nx' & He' & Hs). rewrite He in He'. simplify_eq.
  rewrite !delete_rest_step. f_equal. rewrite (skip_unmatched_fuel _ (size h) _ _ _ _ _ Hs) by lia.
  cbn [skip_unmatched]. rewrite He. cbn [of_option obind n_entry n_prev]. by rewrite Hm.
Qed.

Lemma delete_matched_refines h p c m :
  is_chain h p c ->
  exists h' p', delete_matched_entry h p m = Done (h', p', addrs (chain_delete m c).2)
    /\ is_chain h' p' (chain_delete m c).1
    /\ (forall a, a ∉ addrs c -> h' !! a = h !! a).
Proof.
  intros Hc. pose proof (is_chain_size _ _ _ Hc). unfold delete_matched_entry, chain_delete.
  destruct (delete_heads_spec (S (size h)) h p c m Hc)
    as (c1 & c2 & p1 & -> & Hf1 & -> & Hc2 & Hhd); [lia|].
  destruct (filter_all _ _ Hf1) as [E1 E2]. cbn [obind fst snd].
  rewrite !List.filter_app, E1, E2. cbn [app]. destruct c2 as [|e c2].
  { unfold is_chain in Hc2. simpl in Hc2. subst p1. simpl. exists h, None. by rewrite !app_nil_r. }
  pose proof (Hhd e c2 eq_refl) as Hm. pose proof Hc2 as (-> & nx & He & _).
  pose proof (is_chain_size _ _ _ Hc2) as Hlen. simpl in Hlen.
  rewrite (delete_rest_start h e nx c2 m) by done.
  destruct (delete_rest_spec (S (size h)) h e nx c2 m Hc2 He) as (h' & -> & Hc' & Hout); [lia|].
  simpl. exists h', (Some (e_addr e)). rewrite Hm. simpl. splits.
  - unfold addrs. by rewrite fmap_app.
  - done.
  - intros a Ha. apply Hout. intros Hin. apply Ha. unfold addrs in *. rewrite fmap_app.
    apply elem_of_app. by right.
Qed.

Lemma insert_loop_refines fuel h p0 pre e c a x after same :
  is_chain h p0 (pre ++ e :: c) -> h !! a = Some (mkNode x None) -> e_addr x = a ->
  a ∉ addrs (pre ++ e :: c) -> (length c < fuel)%nat ->
  exists h', insert_loop fuel h (e_addr e) a after same
             = Done ((chain_insert_loop x after same (e :: c)).1, h')
    /\ is_chain h' p0 (pre ++ (chain_insert_loop x after same (e :: c)).2).
Proof.
  intros Hc Ha Hx Hna. revert pre e Hc Hna.
  revert c. induction fuel as [|fuel IH]; intros c pre e Hc Hna Hf; [lia|].
  pose proof (is_chain_nodup _ _ _ Hc) as Hnd. unfold addrs in *. rewrite fmap_app in *. csimpl in *.
  apply NoDup_app in Hnd as (_ & Hdis & Hnd). apply NoDup_cons in Hnd as [Hne _].
  assert (Hpre : e_addr e ∉ e_addr <$> pre).
  { intros Hin. apply (Hdis _ Hin). left. }
  assert (Hae : a <> e_addr e) by (intros ->; apply Hna, elem_of_app; right; left).
  pose proof Hc as Hc0. apply is_seg_app in Hc as (r & Hs1 & -> & nx & He & Hs2).
  cbn [insert_loop]. rewrite He. cbn [of_option obind n_entry n_prev].
  cbn [chain_insert_loop]. destruct (same e) eqn:Hsame.
  { exists h. split; [done|]. exact Hc0. }
  destruct c as [|e2 c]; simpl in Hs2.
  - subst nx. eexists. split; [done|]. apply is_seg_app. exists (Some (e_addr e)). split.
    { by apply is_seg_insert. }
    split; [done|]. exists (Some a). split; [apply lookup_insert_eq|].
    split; [by rewrite Hx|]. exists None. split; [|done].
    rewrite Hx, lookup_insert_ne by done. done.
  - destruct Hs2 as (-> & nx2 & He2 & Hs2). rewrite He2. cbn [of_option obind n_entry n_prev].
    destruct (after e2) eqn:Haf.
    + destruct (IH c (pre ++ [e]) e2) as (h' & Eq & Hc').
      { rewrite <- app_assoc. exact Hc0. }
      { rewrite <- app_assoc, fmap_app. exact Hna. }
      { simpl in Hf. lia. }
      exists h'. cbn [chain_insert_loop] in Eq, Hc'. rewrite Eq.
      destruct (chain_insert_loop x after same (e2 :: c)) as [rc l] eqn:El.
      cbn [chain_insert_loop] in El. rewrite El in Hc' |- *. split; [done|].
      rewrite <- app_assoc in Hc'. exact Hc'.
    + rewrite Ha. cbn [of_option obind n_entry]. eexists. split; [done|].
      unfold set_prev. simpl. apply is_seg_app. exists (Some (e_addr e)). split.
      { apply is_seg_insert; [done|]. apply is_seg_insert; [|done].
        intros Hin. apply Hna, elem_of_app. by left. }
      split; [done|]. exists (Some a). split; [apply lookup_insert_eq|].
      split; [by rewrite Hx|]. exists (Some (e_addr e2)). split.
      { rewrite Hx, lookup_insert_ne by done. apply lookup_insert_eq. }
      split; [done|]. exists nx2. csimpl in *. split.
      { rewrite lookup_insert_ne; [rewrite lookup_insert_ne; [done|]|].
        - intros ->. apply Hna, elem_of_app. right. right. left.
        - intros E. apply Hne. rewrite E. left. }
      apply is_seg_insert; [|apply is_seg_insert; [|done]].
      * intros Hin. apply Hne. by right.
      * intros Hin. apply Hna, elem_of_app. right. right. by right.
Qed.

Lemma insert_refines h p c a x after same :
  is_chain h p c -> c <> [] -> h !! a = Some (mkNode x None) -> e_addr x = a -> a ∉ addrs c ->
  exists rc c' h' p', chain_insert x after same c = Done (rc, c')
    /\ insert_lmt_entry_list h p a after same = Done (rc, h', p') /\ is_chain h' p' c'.
Proof.
  intros Hc Hne Ha Hx Hna. destruct c as [|e c]; [done|]. pose proof (is_chain_size _ _ _ Hc).
  pose proof Hc as (-> & nx & He & Hs). unfold insert_lmt_entry_list. cbn [of_option obind].
  rewrite He. cbn [of_option obind n_entry]. cbn [chain_insert].
  destruct (same e); [by eexists _, _, h, _|]. destruct (after e); cbn [negb].
  - destruct (insert_loop_refines (S (size h)) h (Some (e_addr e)) [] e c a x after same)
      as (h' & -> & Hc'); [done|done|done|done|simpl in *; lia|].
    destruct (chain_insert_loop x after same (e :: c)) as [rc c'].
    simpl in *. by eexists rc, c', h', (Some (e_addr e)).
  - rewrite Ha. cbn [of_option obind]. eexists 0, _, _, (Some a). splits; [done|done|].
    split; [by rewrite Hx|]. exists (Some (e_addr e)). rewrite Hx. unfold set_prev. cbn [n_entry].
    split; [apply lookup_insert_eq|]. by apply is_seg_insert.
Qed.
End Rep.

(** ** Insertion by snapshot sequence

    The predicates that [PfRedoLog::redo_allocation] passes. *)
Definition after_seq (x : lmt_entry) (item : lmt_entry) : bool := snap_seq x <? snap_seq item.
Definition same_seq (x : lmt_entry) (item : lmt_entry) : bool := snap_seq item =? snap_seq x.

(** A chain is ordered from the newest snapshot to the oldest. *)
Definition newer (e1 e2 : lmt_entry) : Prop := snap_seq e2 < snap_seq e1.
Definition descending (c : chain) : Prop := StronglySorted newer c.

Section Order.
Implicit Types (c : chain) (x e : lmt_entry).

Lemma insert_loop_fresh x c :
  descending c -> (forall e, e ∈ c -> snap_seq e <> snap_seq x) ->
  match c with [] => True | e :: _ => snap_seq x < snap_seq e end ->
  exists c', chain_insert_loop x (after_seq x) (same_seq x) c = (match c with [] => - ENOENT | _ => 0 end, c')
    /\ (c <> [] -> descending c' /\ c' ≡ₚ x :: c
        /\ forall y, (forall e, e ∈ c -> snap_seq e < y) -> snap_seq x < y -> forall e, e ∈ c' -> snap_seq e < y).
Proof.
  intros Hd. induction Hd as [|e c Hd IH Hall]; intros Hfresh Hhd; [by exists []|].
  assert (Hb : forall c', c' ≡ₚ x :: e :: c -> forall y,
            (forall e0, e0 ∈ e :: c -> snap_seq e0 < y) -> snap_seq x < y ->
            forall e0, e0 ∈ c' -> snap_seq e0 < y).
  { intros c' Hp y Hy1 Hy2 e0 He0. rewrite Hp in He0. apply elem_of_cons in He0 as [->|]; auto. }
  cbn [chain_insert_loop]. unfold same_seq at 1, after_seq at 1.
  destruct (Z.eqb_spec (snap_seq e) (snap_seq x)) as [E|_].
  { destruct (Hfresh e); [left|done]. }
  destruct c as [|e2 c].
  - exists [e; x]. split; [done|]. intros _. assert ([e; x] ≡ₚ [x; e]) as Hp by constructor.
    splits; [|done|by apply Hb]. repeat constructor. exact Hhd.
  - destruct (Z.ltb_spec (snap_seq x) (snap_seq e2)) as [Hlt|Hge].
    + destruct IH as (c' & Ec' & Hc'); [intros; apply Hfresh; by right|done|].
      rewrite Ec'. exists (e :: c'). split; [done|]. intros _.
      destruct Hc' as (Hd' & Hp' & Hb'); [done|].
      assert (e :: c' ≡ₚ x :: e :: e2 :: c) as Hp by (rewrite Hp'; constructor).
      splits; [|done|by apply Hb]. constructor; [done|]. apply Forall_forall. intros z Hz.
      apply (Hb' (snap_seq e)); [|done|done]. intros e0 He0. rewrite Forall_forall in Hall. by apply Hall.
    + exists (e :: x :: e2 :: c). split; [done|]. intros _.
      assert (e :: x :: e2 :: c ≡ₚ x :: e :: e2 :: c) as Hp by constructor.
      splits; [|done|by apply Hb]. constructor; [constructor; [done|]|].
      * apply Forall_forall. intros z Hz. assert (snap_seq e2 <> snap_seq x) by (apply Hfresh; right; left).
        apply elem_of_cons in Hz as [->|Hz]; unfold newer; [lia|].
        inversion Hd as [|? ? _ Hall2]; subst. rewrite Forall_forall in Hall2.
        specialize (Hall2 z Hz). unfold newer in Hall2. lia.
      * constructor; [exact Hhd|done].
Qed.

(** Insertion of a fresh sequence keeps the order. *)
Lemma chain_insert_fresh x c :
  descending c -> c <> [] -> (forall e, e ∈ c -> snap_seq e <> snap_seq x) ->
  exists c', chain_insert x (after_seq x) (same_seq x) c = Done (0, c')
    /\ descending c' /\ c' ≡ₚ x :: c.
Proof.
  intros Hd Hne Hfresh. destruct c as [|e c]; [done|]. cbn [chain_insert].
  unfold same_seq at 1, after_seq at 1. assert (snap_seq e <> snap_seq x) by (apply Hfresh; left).
  destruct (Z.eqb_spec (snap_seq e) (snap_seq x)); [done|].
  destruct (Z.ltb_spec (snap_seq x) (snap_seq e)) as [Hlt|Hge]; cbn [negb].
  - destruct (insert_loop_fresh x (e :: c) Hd Hfresh Hlt) as (c' & -> & Hc').
    destruct Hc' as (? & ? & _); [done|]. by exists c'.
  - exists (x :: e :: c). splits; [done| |done]. constructor; [done|].
    apply Forall_forall. intros z Hz. apply elem_of_cons in Hz as [->|Hz]; unfold newer; [lia|].
    inversion Hd as [|? ? _ Hall]; subst. rewrite Forall_forall in Hall.
    specialize (Hall z Hz). unfold newer in Hall. lia.
Qed.
End Order.

(** On linked nodes in memory, [delete_matched_entry]
    terminates, unlinks exactly the entries that match and passes exactly
    these to [free_func], in chain order; the remaining entries keep their
    order and no node outside the chain changes. *)
Theorem delete_matched_entry_correct h p c m :
  is_chain h p c ->
  exists h' p', delete_matched_entry h p m
      = Done (h', p', addrs (List.filter m c))
    /\ is_chain h' p' (List.filter (fun e => negb (m e)) c)
    /\ (forall a, a ∉ addrs c -> h' !! a = h !! a).
Proof. intros Hc. apply (delete_matched_refines h p c m Hc). Qed.

(** an entry of sequence [s] at address [a] *)
Definition test_entry (a s : Z) : lmt_entry := mkEntry a (1000 * a) s NORMAL [] None None.

Lemma delete_matched_entry_correct_witness :
  exists h' p', delete_matched_entry
      (<[1 := mkNode (test_entry 1 9) (Some 2)]> (<[2 := mkNode (test_entry 2 7) (Some 3)]>
         (<[3 := mkNode (test_entry 3 5) None]> ∅)))
      (Some 1) (fun e => snap_seq e <? 8) = Done (h', p', [2; 3])
    /\ is_chain h' p' [test_entry 1 9].
Proof.
  destruct (delete_matched_entry_correct
      (<[1 := mkNode (test_entry 1 9) (Some 2)]> (<[2 := mkNode (test_entry 2 7) (Some 3)]>
         (<[3 := mkNode (test_entry 3 5) None]> ∅)))
      (Some 1) [test_entry 1 9; test_entry 2 7; test_entry 3 5] (fun e => snap_seq e <? 8))
    as (h' & p' & E & Hc & _).
  - split; [reflexivity|]. exists (Some 2). split; [reflexivity|].
    split; [reflexivity|]. exists (Some 3). split; [reflexivity|].
    split; [reflexivity|]. exists None. split; reflexivity.
  - exists h', p'. split; [exact E|exact Hc].
Defined.

(** Inserting an entry whose snapshot sequence is not yet
    in a chain ordered newest first succeeds, on linked nodes in memory,
    and gives a chain with exactly one entry more that is again ordered. *)
Theorem insert_lmt_entry_list_sorted h p c a x :
  is_chain h p c -> c <> [] -> descending c ->
  h !! a = Some (mkNode x None) -> e_addr x = a -> a ∉ addrs c ->
  (forall e, e ∈ c -> snap_seq e <> snap_seq x) ->
  exists h' p' c', insert_lmt_entry_list h p a (after_seq x) (same_seq x) = Done (0, h', p')
    /\ is_chain h' p' c' /\ descending c' /\ c' ≡ₚ x :: c.
Proof.
  intros Hc Hne Hd Ha Hx Hna Hfresh.
  destruct (insert_refines h p c a x (after_seq x) (same_seq x)) as (rc & c' & h' & p' & E & -> & Hc');
    [done..|].
  destruct (chain_insert_fresh x c Hd Hne Hfresh) as (c2 & E2 & Hd2 & Hp2).
  rewrite E in E2. simplify_eq. by exists h', p', c2.
Qed.

Lemma insert_lmt_entry_list_sorted_witness :
  exists h' p' c', insert_lmt_entry_list
      (<[1 := mkNode (test_entry 1 9) (Some 2)]> (<[2 := mkNode (test_entry 2 5) None]>
         (<[3 := mkNode (test_entry 3 7) None]> ∅)))
      (Some 1) 3 (after_seq (test_entry 3 7)) (same_seq (test_entry 3 7)) = Done (0, h', p')
    /\ is_chain h' p' c' /\ c' ≡ₚ [test_entry 3 7; test_entry 1 9; test_entry 2 5].
Proof.
  destruct (insert_lmt_entry_list_sorted
      (<[1 := mkNode (test_entry 1 9) (Some 2)]> (<[2 := mkNode (test_entry 2 5) None]>
         (<[3 := mkNode (test_entry 3 7) None]> ∅)))
      (Some 1) [test_entry 1 9; test_entry 2 5] 3 (test_entry 3 7))
    as (h' & p' & c' & E & Hc & _ & Hp).
  - split; [reflexivity|]. exists (Some 2). split; [reflexivity|].
    split; [reflexivity|]. exists None. split; reflexivity.
  - discriminate.
  - repeat constructor.
  - reflexivity.
  - reflexivity.
  - apply (bool_decide_unpack _). vm_compute. exact I.
  - intros e He. rewrite !elem_of_cons in He. destruct He as [->|[->|He]]; [done|done|].
    by apply elem_of_nil in He.
  - exists h', p', c'. split; [exact E|]. split; [exact Hc|exact Hp].
Defined.

(** The check for an existing sequence only sees the head of
    the chain.  When the sequence of the new entry belongs to an entry
    further down, the insertion reports success and the chain holds two
    entries of the same sequence. *)
Theorem insert_duplicate_undetected x e d c1 c2 :
  descending (e :: c1 ++ d :: c2) -> snap_seq d = snap_seq x ->
  exists c', chain_insert x (after_seq x) (same_seq x) (e :: c1 ++ d :: c2) = Done (0, c')
    /\ c' = e :: c1 ++ x :: d :: c2.
Proof.
  intros Hd Hdup. eexists. split; [|reflexivity].
  assert (He : snap_seq x < snap_seq e).
  { inversion Hd as [|? ? _ Hall]; subst. rewrite Forall_app, Forall_cons in Hall.
    destruct Hall as (_ & Hn & _). unfold newer in Hn. lia. }
  cbn [chain_insert]. unfold same_seq at 1, after_seq at 1.
  destruct (Z.eqb_spec (snap_seq e) (snap_seq x)); [lia|].
  destruct (Z.ltb_spec (snap_seq x) (snap_seq e)); [|lia]. cbn [negb]. f_equal.
  clear -Hd Hdup He. revert e Hd He. induction c1 as [|e2 c1 IH]; intros e Hd He; cbn [chain_insert_loop app].
  - unfold same_seq at 1, after_seq at 1. destruct (Z.eqb_spec (snap_seq e) (snap_seq x)); [lia|].
    destruct (Z.ltb_spec (snap_seq x) (snap_seq d)); [lia|done].
  - unfold same_seq at 1, after_seq at 1. destruct (Z.eqb_spec (snap_seq e) (snap_seq x)); [lia|].
    inversion Hd as [|? ? Hd2 _]; subst.
    assert (snap_seq x < snap_seq e2).
    { inversion Hd2 as [|? ? _ Hall]; subst. rewrite Forall_app, Forall_cons in Hall.
      destruct Hall as (_ & Hn & _). unfold newer in Hn. lia. }
    destruct (Z.ltb_spec (snap_seq x) (snap_seq e2)); [|lia].
    specialize (IH e2 Hd2). cbn [chain_insert_loop app] in IH. rewrite IH by done. done.
Qed.

Lemma insert_duplicate_undetected_witness :
  exists c', chain_insert (test_entry 3 5) (after_seq (test_entry 3 5)) (same_seq (test_entry 3 5))
      [test_entry 1 9; test_entry 2 5] = Done (0, c')
    /\ (snap_seq <$> c') = [9; 5; 5].
Proof.
  destruct (insert_duplicate_undetected (test_entry 3 5) (test_entry 1 9) (test_entry 2 5) [] [])
    as (c' & E & Ec).
  - repeat constructor.
  - reflexivity.
  - exists c'. split; [exact E|]. rewrite Ec. reflexivity.
Defined.
