(* ===== verification/Store.v ===== *)
(** * The flash store: state, device, metadata switch and redo log writes

    Model of the state of [PfFlashStore] (src/pfs/include/pf_flash_store.h)
    and of [PfRedoLog] (src/pfs/include/pf_redolog.h), of the device below
    them, and of the operations every other one is built from: writing a
    log item, saving the metadata to a zone, triggering a compaction
    (src/pfs/src/pf_redolog.cpp, src/pfs/src/pf_flash_store.cpp). *)

From Stdlib Require Import ZArith Lia.
From stdpp Require Import base tactics list numbers sets gmap.
From S2P Require Import Prelude FixedQueue MemPool Bitmap Ids Lmt.

(** ** Redo log items *)
Inductive item_body : Type :=
| ALLOCATE_OBJ (bkey : lmt_key) (bentry : lmt_entry) (free_queue_head : Z)
| TRIM_OBJ (bkey : lmt_key) (bentry : lmt_entry) (trim_queue_tail : Z)
| FREE_OBJ (obj_id : Z) (trim_queue_head : Z) (free_queue_tail : Z)
| SNAP_SEQ_CHANGE (bkey : lmt_key) (bentry : lmt_entry) (old_snap_seq : Z)
| STATUS_CHANGE (bkey : lmt_key) (bentry : lmt_entry) (old_status : EntryStatus).

Record Item : Type := mkItem {
  item_phase : Z;
  item_of : item_body
}.

(** [PfRedoLog]: the cursor of the log *)
Record PfRedoLog : Type := mkLog {
  log_phase : Z;
  log_size : Z;
  start_offset : Z;
  current_offset : Z
}.

(** ** The device *)

(** What a metadata zone holds after a save. *)
Record md_image : Type := mkImage {
  im_free : PfFixedSizeQueue Z;
  im_trim : PfFixedSizeQueue Z;
  im_lmt : gmap lmt_key chain
}.

(** At which of its writes a save of the metadata fails: before the first
    one, at one whose error is returned, at the last flush of the map
    (whose error is not looked at), at the head page, or at none. *)
Inductive save_fault : Type :=
| SfNone
| SfEarly (rc : Z)
| SfZone (rc : Z)
| SfFlush
| SfHead (rc : Z).

(** The device: the head page, the images of the metadata zones (a zone
    without image has no readable metadata), the pages of the log zones (a
    page that is absent reads as zero), the bytes of the data area, and the
    faults the next calls meet ([Some errno], or none when the list is at
    its end). *)
Record device : Type := mkDevice {
  dev_head : option HeadPage;
  dev_md : gmap Z md_image;
  dev_log : gmap Z Item;
  dev_data : Z -> Z;
  dev_faults : list (option Z);
  dev_save_faults : list save_fault
}.

(** ** What the store asks of other components *)
Inductive action : Type :=
| ASubmitIo (io opcode off len : Z)
| AComplete (io status : Z)
| ACompleteZero (io : Z)
| ASubmitError (io status : Z)
| ABeginCow (key : lmt_key) (src dst : Z)
| ABeginScc (key : lmt_key) (src dst : Z)
| ASignalCompact.

Definition COMPACT_IDLE : Z := 0.
Definition COMPACT_TODO : Z := 1.
Definition COMPACT_STOP : Z := 2.
Definition COMPACT_RUNNING : Z := 3.
Definition COMPACT_ERROR : Z := 4.

(** ** [PfFlashStore] *)
Record store : Type := mkStore {
  head : HeadPage;
  in_obj_offset_mask : Z;
  obj_lmt : gmap lmt_key chain;
  free_obj_queue : PfFixedSizeQueue Z;
  trim_obj_queue : PfFixedSizeQueue Z;
  lmt_entry_pool : lmt_pool;
  redolog : PfRedoLog;
  to_run_compact : Z;
  compact_lmt_exist : Z;
  use_scc : bool; (* spdk_engine_used() && ns->scc *)
  dev : device;
  acts : list action
}.

(** Assignments to one field. *)
Definition with_head (h : HeadPage) (s : store) : store :=
  mkStore h (in_obj_offset_mask s) (obj_lmt s) (free_obj_queue s) (trim_obj_queue s)
    (lmt_entry_pool s) (redolog s) (to_run_compact s) (compact_lmt_exist s) (use_scc s) (dev s) (acts s).
Definition with_lmt (m : gmap lmt_key chain) (s : store) : store :=
  mkStore (head s) (in_obj_offset_mask s) m (free_obj_queue s) (trim_obj_queue s)
    (lmt_entry_pool s) (redolog s) (to_run_compact s) (compact_lmt_exist s) (use_scc s) (dev s) (acts s).
Definition with_free (q : PfFixedSizeQueue Z) (s : store) : store :=
  mkStore (head s) (in_obj_offset_mask s) (obj_lmt s) q (trim_obj_queue s)
    (lmt_entry_pool s) (redolog s) (to_run_compact s) (compact_lmt_exist s) (use_scc s) (dev s) (acts s).
Definition with_trim (q : PfFixedSizeQueue Z) (s : store) : store :=
  mkStore (head s) (in_obj_offset_mask s) (obj_lmt s) (free_obj_queue s) q
    (lmt_entry_pool s) (redolog s) (to_run_compact s) (compact_lmt_exist s) (use_scc s) (dev s) (acts s).
Definition with_pool (p : lmt_pool) (s : store) : store :=
  mkStore (head s) (in_obj_offset_mask s) (obj_lmt s) (free_obj_queue s) (trim_obj_queue s)
    p (redolog s) (to_run_compact s) (compact_lmt_exist s) (use_scc s) (dev s) (acts s).
Definition with_log (r : PfRedoLog) (s : store) : store :=
  mkStore (head s) (in_obj_offset_mask s) (obj_lmt s) (free_obj_queue s) (trim_obj_queue s)
    (lmt_entry_pool s) r (to_run_compact s) (compact_lmt_exist s) (use_scc s) (dev s) (acts s).
Definition with_compact (c : Z) (s : store) : store :=
  mkStore (head s) (in_obj_offset_mask s) (obj_lmt s) (free_obj_queue s) (trim_obj_queue s)
    (lmt_entry_pool s) (redolog s) c (compact_lmt_exist s) (use_scc s) (dev s) (acts s).
Definition with_lmt_exist (c : Z) (s : store) : store :=
  mkStore (head s) (in_obj_offset_mask s) (obj_lmt s) (free_obj_queue s) (trim_obj_queue s)
    (lmt_entry_pool s) (redolog s) (to_run_compact s) c (use_scc s) (dev s) (acts s).
Definition with_dev (d : device) (s : store) : store :=
  mkStore (head s) (in_obj_offset_mask s) (obj_lmt s) (free_obj_queue s) (trim_obj_queue s)
    (lmt_entry_pool s) (redolog s) (to_run_compact s) (compact_lmt_exist s) (use_scc s) d (acts s).
Definition with_mask (m : Z) (s : store) : store :=
  mkStore (head s) m (obj_lmt s) (free_obj_queue s) (trim_obj_queue s)
    (lmt_entry_pool s) (redolog s) (to_run_compact s) (compact_lmt_exist s) (use_scc s) (dev s) (acts s).
Definition act (a : action) (s : store) : store :=
  mkStore (head s) (in_obj_offset_mask s) (obj_lmt s) (free_obj_queue s) (trim_obj_queue s)
    (lmt_entry_pool s) (redolog s) (to_run_compact s) (compact_lmt_exist s) (use_scc s) (dev s)
    (acts s ++ [a]).

(** Device updates. *)
Definition set_dev_head (h : HeadPage) (d : device) : device :=
  mkDevice (Some h) (dev_md d) (dev_log d) (dev_data d) (dev_faults d) (dev_save_faults d).
Definition set_dev_md (m : gmap Z md_image) (d : device) : device :=
  mkDevice (dev_head d) m (dev_log d) (dev_data d) (dev_faults d) (dev_save_faults d).
Definition set_dev_log (l : gmap Z Item) (d : device) : device :=
  mkDevice (dev_head d) (dev_md d) l (dev_data d) (dev_faults d) (dev_save_faults d).
Definition set_dev_data (f : Z -> Z) (d : device) : device :=
  mkDevice (dev_head d) (dev_md d) (dev_log d) f (dev_faults d) (dev_save_faults d).

(** The fault the next call meets. *)
Definition next_fault (s : store) : option Z * store :=
  match dev_faults (dev s) with
  | [] => (None, s)
  | f :: r =>
      (f, with_dev (mkDevice (dev_head (dev s)) (dev_md (dev s)) (dev_log (dev s)) (dev_data (dev s)) r
                     (dev_save_faults (dev s))) s)
  end.

Definition next_save_fault (s : store) : save_fault * store :=
  match dev_save_faults (dev s) with
  | [] => (SfNone, s)
  | f :: r =>
      (f, with_dev (mkDevice (dev_head (dev s)) (dev_md (dev s)) (dev_log (dev s)) (dev_data (dev s))
                     (dev_faults (dev s)) r) s)
  end.

(** [PfRedoLog::set_log_phase] *)
Definition set_log_phase (phase offset : Z) (s : store) : store :=
  with_log (mkLog phase (log_size (redolog s)) offset offset) s.

(** [PfRedoLog::discard] *)
Definition discard (s : store) : store :=
  with_head (head_update (current_metadata (head s)) (oppsite_redolog_zone (head s))
               (redolog_phase (head s) + 1) (head s)) s.

(** The image a save writes. *)
Definition image_of (s : store) : md_image :=
  mkImage (free_obj_queue s) (trim_obj_queue s) (obj_lmt s).

(** [save_meta_data]: writes both queues and the map to the zone, switches
    the log and commits by writing the head page; the fields of the head
    are rolled back when that write fails. *)
Definition save_meta_data (md_zone : Z) (s : store) : Z * store :=
  let (f, s) := next_save_fault s in
  match f with
  | SfEarly rc => (rc, s)
  | SfZone rc => (rc, with_dev (set_dev_md (delete md_zone (dev_md (dev s))) (dev s)) s)
  | _ =>
      let md := match f with
                | SfFlush => delete md_zone (dev_md (dev s))
                | _ => <[md_zone := image_of s]> (dev_md (dev s))
                end in
      let s := with_dev (set_dev_md md (dev s)) s in
      let head_tmp := head s in
      let s := with_head (head_update md_zone (current_redolog (head s)) (redolog_phase (head s)) (head s)) s in
      let s := discard s in
      match f with
      | SfHead rc =>
          (rc, with_head (head_update (current_metadata head_tmp) (current_redolog head_tmp)
                            (redolog_phase head_tmp) (head s)) s)
      | _ => (0, with_dev (set_dev_head (head s) (dev s)) s)
      end
  end.

(** [meta_data_compaction_trigger].  The body runs under [md_lock], which
    the compaction thread holds while it works: a caller that waits for it
    runs after the compaction. *)
Definition meta_data_compaction_trigger (state : Z) (force_wait : bool) (s : store)
    : outcome (Z * store) :=
  if negb force_wait && (to_run_compact s =? COMPACT_RUNNING) then Done (0, s)
  else
    let last_state := to_run_compact s in
    let s := with_compact state s in
    let* s :=
      if (state =? COMPACT_TODO) && (last_state =? COMPACT_ERROR) then
        let s := with_head (head_update (current_metadata (head s)) (current_redolog (head s))
                              (log_phase (redolog s)) (head s)) s in
        let (rc, s) := save_meta_data (oppsite_md_zone (head s)) s in
        if negb (rc =? 0) then Fatal
        else
          let* pos := get_meta_position (head s) REDOLOG OPPOSITE in
          Done (with_compact COMPACT_IDLE (set_log_phase (redolog_phase (head s)) pos s))
      else Done s in
    let* s :=
      if (state =? COMPACT_TODO) && negb (last_state =? COMPACT_ERROR) then
        let* pos := get_meta_position (head s) REDOLOG OPPOSITE in
        Done (act ASignalCompact (set_log_phase (redolog_phase (head s) + 1) pos s))
      else Done s in
    Done (0, s).

(** [PfRedoLog::write_entry] of the item in the buffer *)
Definition write_entry (i : Item) (s : store) : outcome (Z * store) :=
  let (f, s) := next_fault s in
  match f with
  | Some errno => Done (- errno, s)
  | None =>
      let r := redolog s in
      let s := with_dev (set_dev_log (<[current_offset r := i]> (dev_log (dev s))) (dev s)) s in
      let s := with_log (mkLog (log_phase r) (log_size r) (start_offset r)
                           (current_offset r + LBA_LENGTH)) s in
      if current_offset (redolog s) >=? start_offset (redolog s) + log_size (redolog s)
      then meta_data_compaction_trigger COMPACT_TODO true s
      else Done (0, s)
  end.

Definition log_item (b : item_body) (s : store) : outcome (Z * store) :=
  write_entry (mkItem (log_phase (redolog s)) b) s.

Definition log_allocation (key : lmt_key) (entry : lmt_entry) (free_list_head : Z) :=
  log_item (ALLOCATE_OBJ key entry free_list_head).
Definition log_free (block_id trim_list_head free_list_tail : Z) :=
  log_item (FREE_OBJ block_id trim_list_head free_list_tail).
Definition log_trim (key : lmt_key) (entry : lmt_entry) (trim_list_tail : Z) :=
  log_item (TRIM_OBJ key entry trim_list_tail).
Definition log_snap_seq_change (key : lmt_key) (entry : lmt_entry) (old_seq : Z) :=
  log_item (SNAP_SEQ_CHANGE key entry old_seq).
Definition log_status_change (key : lmt_key) (entry : lmt_entry) (old : EntryStatus) :=
  log_item (STATUS_CHANGE key entry old).

(** A map without empty chains: assigning an empty chain erases the key. *)
Definition put_chain (k : lmt_key) (c : chain) (m : gmap lmt_key chain) : gmap lmt_key chain :=
  match c with [] => delete k m | _ => <[k := c]> m end.
