(* ===== verification/RedoLog.v ===== *)
(** * Replaying the redo log

    Model of the [redo_*] functions and of [replay] of
    src/pfs/src/pf_redolog.cpp, and the view of a store that the log and
    the metadata zones keep: the chains without their volatile fields and
    the two object queues.  [redo_view] says what an item does to a view;
    the refinement lemmas show that the code does the same to a store. *)

From Stdlib Require Import ZArith Lia.
From stdpp Require Import base tactics list numbers sets gmap.
From S2P Require Import Prelude FixedQueue MemPool Bitmap Ids Lmt Store.

(** ** The code *)

(** Assignments to one field of a queue, as the redo functions do. *)
Definition set_q_head {T : Type} (x : Z) (q : PfFixedSizeQueue T) : PfFixedSizeQueue T :=
  mkQueue (q_tail q) x (q_depth q) (q_data q).

(** Stores [x] in the cell before the cursor [t] and sets the tail to [t]. *)
Definition redo_push {T : Type} (t : Z) (x : T) (q : PfFixedSizeQueue T)
    : outcome (PfFixedSizeQueue T) :=
  let tail := if t - 1 <? 0 then q_depth q - 1 else t - 1 in
  let* d := of_option (arr_set (q_data q) tail x) in
  Done (mkQueue t (q_head q) (q_depth q) d).

(** Returns the entries to the pool, in order. *)
Fixpoint pool_free_all (l : chain) (p : lmt_pool) : outcome lmt_pool :=
  match l with
  | [] => Done p
  | e :: l => let* p := pool_free (e_addr e) p in pool_free_all l p
  end.

Definition redo_allocation (bkey : lmt_key) (bentry : lmt_entry) (free_queue_head : Z) (s : store)
    : outcome (Z * store) :=
  let* (a, p) := pool_alloc (lmt_entry_pool s) in
  match a with
  | None => Done (- ENOMEM, s)
  | Some a =>
      let s := with_pool p s in
      let entry := init_for_redo (mkEntry a (offset bentry) (snap_seq bentry) (status bentry)
                                    (waiting_io bentry) (recovery_bmp bentry) (recovery_buf bentry)) in
      let* s :=
        match obj_lmt s !! bkey with
        | None => Done (with_lmt (<[bkey := [entry]]> (obj_lmt s)) s)
        | Some c =>
            let* (rc, c) := chain_insert entry (after_seq entry) (same_seq entry) c in
            let s := with_lmt (<[bkey := c]> (obj_lmt s)) s in
            if rc =? - EEXIST then
              let* p := pool_free a (lmt_entry_pool s) in Done (with_pool p s)
            else Done s
        end in
      Done (0, with_free (set_q_head free_queue_head (free_obj_queue s)) s)
  end.

Definition redo_trim (bkey : lmt_key) (bentry : lmt_entry) (trim_queue_tail : Z) (s : store)
    : outcome (Z * store) :=
  let* q := redo_push trim_queue_tail (i32 (offset_to_obj_id (head s) (offset bentry)))
              (trim_obj_queue s) in
  let s := with_trim q s in
  match obj_lmt s !! bkey with
  | None => Done (0, s)
  | Some c =>
      let (c, freed) := chain_delete (fun e => offset e =? offset bentry) c in
      let* p := pool_free_all freed (lmt_entry_pool s) in
      Done (0, with_pool p (with_lmt (put_chain bkey c (obj_lmt s)) s))
  end.

Definition redo_free (obj_id trim_queue_head free_queue_tail : Z) (s : store) : outcome (Z * store) :=
  let* q := redo_push free_queue_tail obj_id (free_obj_queue s) in
  let s := with_free q s in
  Done (0, with_trim (set_q_head trim_queue_head (trim_obj_queue s)) s).

(** The loops of [redo_snap_seq_change] and [redo_state_change]: the first
    entry at the offset is changed if it passes the test. *)
Fixpoint update_at (off : Z) (f : lmt_entry -> lmt_entry) (c : chain) : chain :=
  match c with
  | [] => []
  | e :: c => if offset e =? off then f e :: c else e :: update_at off f c
  end.

Definition set_seq (q : Z) (e : lmt_entry) : lmt_entry :=
  mkEntry (e_addr e) (offset e) q (status e) (waiting_io e) (recovery_bmp e) (recovery_buf e).
Definition set_status (st : EntryStatus) (e : lmt_entry) : lmt_entry :=
  mkEntry (e_addr e) (offset e) (snap_seq e) st (waiting_io e) (recovery_bmp e) (recovery_buf e).

Definition redo_snap_seq_change (bkey : lmt_key) (bentry : lmt_entry) (old_snap_seq : Z) (s : store)
    : outcome (Z * store) :=
  match obj_lmt s !! bkey with
  | None => Done (0, s)
  | Some c =>
      let c := update_at (offset bentry)
                 (fun h => if snap_seq h =? old_snap_seq then set_seq (snap_seq bentry) h else h) c in
      Done (0, with_lmt (<[bkey := c]> (obj_lmt s)) s)
  end.

Definition redo_state_change (bkey : lmt_key) (bentry : lmt_entry) (old_status : EntryStatus) (s : store)
    : outcome (Z * store) :=
  match obj_lmt s !! bkey with
  | None => Done (0, s)
  | Some c =>
      let c := update_at (offset bentry)
                 (fun h => if decide (status h = old_status) then set_status (status bentry) h else h) c in
      Done (0, with_lmt (<[bkey := c]> (obj_lmt s)) s)
  end.

Definition redo_item (b : item_body) (s : store) : outcome (Z * store) :=
  match b with
  | ALLOCATE_OBJ k e fh => redo_allocation k e fh s
  | TRIM_OBJ k e tq => redo_trim k e tq s
  | FREE_OBJ o th ft => redo_free o th ft s
  | SNAP_SEQ_CHANGE k e o => redo_snap_seq_change k e o s
  | STATUS_CHANGE k e o => redo_state_change k e o s
  end.

(** The loop of [replay].  A page never written reads as zero: its phase is
    0 and its type is none of the known ones. *)
Fixpoint replay_loop (fuel : nat) (start_phase off : Z) (s : store) : outcome (Z * store) :=
  match fuel with
  | O => Undef
  | S fuel =>
      let (f, s) := next_fault s in
      match f with
      | Some errno => Done (- errno, s)
      | None =>
          match dev_log (dev s) !! off with
          | None => if 0 =? start_phase then Fatal else Done (0, s)
          | Some i =>
              if negb (item_phase i =? start_phase) then Done (0, s)
              else
                let* (rc, s) := redo_item (item_of i) s in
                if negb (rc =? 0) then Done (rc, s)
                else replay_loop fuel start_phase (off + LBA_LENGTH) s
          end
      end
  end.

(** Every round but the last reads another page of the finite log area. *)
Definition replay (start_phase : Z) (which : which_zone) (s : store) : outcome (Z * store) :=
  let* off := get_meta_position (head s) REDOLOG which in
  replay_loop (S (size (dev_log (dev s)))) start_phase off s.

(** ** Views *)

(** An entry without its address and its volatile fields. *)
Definition strip (e : lmt_entry) : lmt_entry :=
  mkEntry 0 (offset e) (snap_seq e) (status e) [] None None.

Record view : Type := mkView {
  v_lmt : gmap lmt_key chain;
  v_free : PfFixedSizeQueue Z;
  v_trim : PfFixedSizeQueue Z
}.

Definition strip_chain (c : chain) : chain := strip <$> c.
Definition strip_map (m : gmap lmt_key chain) : gmap lmt_key chain := strip_chain <$> m.

Definition view_of (s : store) : view :=
  mkView (strip_map (obj_lmt s)) (free_obj_queue s) (trim_obj_queue s).

Definition view_of_image (i : md_image) : view :=
  mkView (strip_map (im_lmt i)) (im_free i) (im_trim i).

(** What an item does to a view. *)
Definition redo_view (h : HeadPage) (b : item_body) (v : view) : outcome view :=
  match b with
  | ALLOCATE_OBJ k e fh =>
      let x := strip e in
      let* c :=
        match v_lmt v !! k with
        | None => Done [x]
        | Some c => let* (_, c) := chain_insert x (after_seq x) (same_seq x) c in Done c
        end in
      Done (mkView (<[k := c]> (v_lmt v)) (set_q_head fh (v_free v)) (v_trim v))
  | TRIM_OBJ k e tq =>
      let* q := redo_push tq (i32 (offset_to_obj_id h (offset e))) (v_trim v) in
      Done (mkView (match v_lmt v !! k with
                    | None => v_lmt v
                    | Some c => put_chain k (chain_delete (fun x => offset x =? offset e) c).1 (v_lmt v)
                    end) (v_free v) q)
  | FREE_OBJ o th ft =>
      let* q := redo_push ft o (v_free v) in
      Done (mkView (v_lmt v) q (set_q_head th (v_trim v)))
  | SNAP_SEQ_CHANGE k e o =>
      Done (mkView (match v_lmt v !! k with
                    | None => v_lmt v
                    | Some c => <[k := update_at (offset e)
                        (fun x => if snap_seq x =? o then set_seq (snap_seq e) x else x) c]> (v_lmt v)
                    end) (v_free v) (v_trim v))
  | STATUS_CHANGE k e o =>
      Done (mkView (match v_lmt v !! k with
                    | None => v_lmt v
                    | Some c => <[k := update_at (offset e)
                        (fun x => if decide (status x = o) then set_status (status e) x else x) c]> (v_lmt v)
                    end) (v_free v) (v_trim v))
  end.

(** ** All entries of a map *)
Definition entries (m : gmap lmt_key chain) : list lmt_entry := concat (snd <$> map_to_list m).

(** No key has an empty chain. *)
Definition no_empty (m : gmap lmt_key chain) : Prop := forall k, m !! k <> Some [].

Section Entries.
Implicit Types (m : gmap lmt_key chain) (c : chain) (k : lmt_key).

#[export] Instance concat_Permutation {A : Type} : Proper ((≡ₚ) ==> (≡ₚ)) (@concat A).
Proof.
  intros l1 l2 H. induction H as [|x l1 l2 _ IH|x y l|l1 l2 l3 _ IH1 _ IH2]; simpl.
  - done.
  - by rewrite IH.
  - rewrite !app_assoc. by rewrite (Permutation_app_comm y x).
  - by rewrite IH1.
Qed.

Lemma entries_insert_new m k c : m !! k = None -> entries (<[k := c]> m) ≡ₚ c ++ entries m.
Proof. intros Hk. unfold entries. by rewrite map_to_list_insert by done. Qed.

Lemma entries_insert m k c : entries (<[k := c]> m) ≡ₚ c ++ entries (delete k m).
Proof. rewrite <- insert_delete_eq. apply entries_insert_new, lookup_delete_eq. Qed.

Lemma entries_lookup m k c : m !! k = Some c -> entries m ≡ₚ c ++ entries (delete k m).
Proof. intros Hk. rewrite <- entries_insert. by rewrite insert_id. Qed.

Lemma entries_delete_None m k : m !! k = None -> entries (delete k m) = entries m.
Proof. intros Hk. by rewrite delete_id. Qed.

Lemma entries_put m k c : entries (put_chain k c m) ≡ₚ c ++ entries (delete k m).
Proof. destruct c as [|e c]; [done|]. apply entries_insert. Qed.

Lemma elem_of_entries m k c e : m !! k = Some c -> e ∈ c -> e ∈ entries m.
Proof. intros Hk He. rewrite (entries_lookup m k c Hk). apply elem_of_app. by left. Qed.

Lemma entries_elem m e : e ∈ entries m -> exists k c, m !! k = Some c /\ e ∈ c.
Proof.
  unfold entries. intros He%list_elem_of_In. apply in_concat in He as (c & Hc & He).
  apply list_elem_of_In in Hc, He. apply list_elem_of_fmap in Hc as ([k c'] & -> & Hc).
  apply elem_of_map_to_list in Hc. by exists k, c'.
Qed.

Lemma put_chain_no_empty m k c : no_empty m -> no_empty (put_chain k c m).
Proof.
  intros Hm k'. destruct c as [|e c]; simpl; destruct (decide (k = k')) as [->|].
  - by rewrite lookup_delete_eq.
  - by rewrite lookup_delete_ne.
  - by rewrite lookup_insert_eq.
  - by rewrite lookup_insert_ne.
Qed.

Lemma insert_no_empty m k c : c <> [] -> no_empty m -> no_empty (<[k := c]> m).
Proof.
  intros Hc Hm k'. destruct (decide (k = k')) as [->|].
  - rewrite lookup_insert_eq. congruence.
  - by rewrite lookup_insert_ne.
Qed.
End Entries.

(** ** Stripping commutes with the list routines *)
Section Strip.
Implicit Types (c : chain) (x e : lmt_entry) (m : gmap lmt_key chain).

Lemma chain_insert_loop_cons x after same e c :
  chain_insert_loop x after same (e :: c) =
  if same e then (- EEXIST, e :: c)
  else match c with
       | [] => (0, [e; x])
       | e2 :: _ =>
           if after e2 then let (rc, r) := chain_insert_loop x after same c in (rc, e :: r)
           else (0, e :: x :: c)
       end.
Proof. done. Qed.

#[local] Arguments chain_insert_loop : simpl never.

Lemma strip_insert_loop x c :
  chain_insert_loop (strip x) (after_seq (strip x)) (same_seq (strip x)) (strip_chain c)
  = ((chain_insert_loop x (after_seq x) (same_seq x) c).1,
     strip_chain (chain_insert_loop x (after_seq x) (same_seq x) c).2).
Proof.
  unfold strip_chain. induction c as [|e c IH]; [done|]. csimpl. rewrite !chain_insert_loop_cons.
  change (same_seq (strip x) (strip e)) with (same_seq x e). destruct (same_seq x e); [done|].
  destruct c as [|e2 c]; [done|]. csimpl in *.
  change (after_seq (strip x) (strip e2)) with (after_seq x e2). destruct (after_seq x e2); [|done].
  rewrite IH. by destruct (chain_insert_loop x (after_seq x) (same_seq x) (e2 :: c)).
Qed.

Lemma strip_chain_insert x c :
  chain_insert (strip x) (after_seq (strip x)) (same_seq (strip x)) (strip_chain c)
  = let* (rc, c') := chain_insert x (after_seq x) (same_seq x) c in Done (rc, strip_chain c').
Proof.
  destruct c as [|e c]; [done|]. unfold chain_insert. change (strip_chain (e :: c)) with (strip e :: strip_chain c).
  cbn iota. change (same_seq (strip x) (strip e)) with (same_seq x e). destruct (same_seq x e); [done|].
  change (after_seq (strip x) (strip e)) with (after_seq x e). destruct (after_seq x e); [|done].
  cbn [negb]. change (strip e :: strip_chain c) with (strip_chain (e :: c)).
  rewrite strip_insert_loop. destruct (chain_insert_loop _ _ _ _). done.
Qed.

Lemma strip_filter (f : lmt_entry -> bool) c :
  (forall e, f (strip e) = f e) -> List.filter f (strip_chain c) = strip_chain (List.filter f c).
Proof.
  intros Hf. unfold strip_chain. induction c as [|e c IH]; [done|]. csimpl. simpl.
  rewrite Hf. destruct (f e); csimpl; by rewrite IH.
Qed.

Lemma strip_update_at off f c :
  (forall e, f (strip e) = strip (f e)) -> update_at off f (strip_chain c) = strip_chain (update_at off f c).
Proof.
  intros Hf. unfold strip_chain. induction c as [|e c IH]; [done|]. csimpl. cbn [update_at].
  change (offset (strip e)) with (offset e). destruct (offset e =? off); csimpl; by rewrite ?Hf, ?IH.
Qed.

Lemma strip_map_insert k c m : strip_map (<[k := c]> m) = <[k := strip_chain c]> (strip_map m).
Proof. apply fmap_insert. Qed.

Lemma strip_map_put k c m : strip_map (put_chain k c m) = put_chain k (strip_chain c) (strip_map m).
Proof. destruct c; [apply fmap_delete|apply fmap_insert]. Qed.

Lemma strip_map_lookup k m : strip_map m !! k = strip_chain <$> m !! k.
Proof. apply lookup_fmap. Qed.

Lemma update_at_addrs off f c :
  (forall e, e_addr (f e) = e_addr e) -> addrs (update_at off f c) = addrs c.
Proof.
  intros Hf. unfold addrs. induction c as [|e c IH]; [done|]. cbn [update_at].
  destruct (offset e =? off); csimpl; by rewrite ?Hf, ?IH.
Qed.

Lemma insert_loop_addrs x after same c e :
  let r := chain_insert_loop x after same (e :: c) in
  r.2 <> [] /\ ((r.1 = 0 /\ addrs r.2 ≡ₚ e_addr x :: addrs (e :: c)) \/ (r.1 = - EEXIST /\ r.2 = e :: c)).
Proof.
  unfold addrs. revert e. induction c as [|e2 c IH]; intros e; rewrite chain_insert_loop_cons.
  - destruct (same e); simpl; [by auto|]. split; [done|]. left. split; [done|]. csimpl. constructor.
  - destruct (same e); simpl; [by auto|]. destruct (after e2); simpl.
    + specialize (IH e2). destruct (chain_insert_loop x after same (e2 :: c)) as [rc l]. simpl in *.
      destruct IH as [_ [[-> Hp]|[-> ->]]]; [|by auto].
      split; [done|]. left. split; [done|]. csimpl. rewrite Hp. csimpl. constructor.
    + split; [done|]. left. split; [done|]. csimpl. constructor.
Qed.

Lemma chain_insert_addrs x after same c rc c' :
  chain_insert x after same c = Done (rc, c') -> c' <> [] /\
  ((rc = 0 /\ addrs c' ≡ₚ e_addr x :: addrs c) \/ (rc = - EEXIST /\ c' = c)).
Proof.
  destruct c as [|e c]; [done|]. unfold chain_insert. destruct (same e); [intros [= <- <-]; auto|].
  destruct (after e); cbn [negb].
  - intros [= E]. pose proof (insert_loop_addrs x after same c e) as Hl. rewrite E in Hl. naive_solver.
  - intros [= <- <-]. split; [done|]. left. split; [done|]. done.
Qed.
End Strip.

(** ** The code implements [redo_view] *)

(** The pool has handed out exactly the entries of the map. *)
Definition pool_ok (m : gmap lmt_key chain) (p : lmt_pool) : Prop :=
  pool_inv p (addrs (entries m)) /\ 0 <= obj_count p.

Section Refine.
Implicit Types (m : gmap lmt_key chain) (p : lmt_pool) (s : store) (c : chain).

Lemma pool_free_all_spec l held p :
  pool_inv p (addrs l ++ held) -> 0 <= obj_count p ->
  exists p', pool_free_all l p = Done p' /\ pool_inv p' held /\ obj_count p' = obj_count p.
Proof.
  revert p. induction l as [|e l IH]; intros p Hinv Hc; simpl; [by eauto|].
  destruct (pool_free_spec p (e_addr e) (addrs l ++ held)) as (p1 & -> & Hinv1 & Hc1); [done..|].
  simpl. destruct (IH p1 Hinv1) as (p2 & -> & ? & ?); [lia|]. exists p2. split_and!; [done..|lia].
Qed.

Lemma addrs_app c1 c2 : addrs (c1 ++ c2) = addrs c1 ++ addrs c2.
Proof. apply fmap_app. Qed.

Lemma addrs_entries_insert m k c :
  addrs (entries (<[k := c]> m)) ≡ₚ addrs c ++ addrs (entries (delete k m)).
Proof. rewrite <- addrs_app. unfold addrs. by rewrite entries_insert. Qed.

Lemma addrs_entries_put m k c :
  addrs (entries (put_chain k c m)) ≡ₚ addrs c ++ addrs (entries (delete k m)).
Proof. rewrite <- addrs_app. unfold addrs. by rewrite entries_put. Qed.

Lemma addrs_entries_lookup m k c :
  m !! k = Some c -> addrs (entries m) ≡ₚ addrs c ++ addrs (entries (delete k m)).
Proof. intros Hk. rewrite <- addrs_app. unfold addrs. by rewrite (entries_lookup m k c Hk). Qed.

(** [alloc] succeeds while the map has fewer entries than the pool. *)
Lemma pool_ok_alloc m p :
  pool_ok m p -> Z.of_nat (length (entries m)) < obj_count p ->
  exists a p', pool_alloc p = Done (Some a, p') /\ (a ∉ addrs (entries m))
    /\ pool_inv p' (a :: addrs (entries m)) /\ obj_count p' = obj_count p.
Proof.
  intros [Hinv Hc] Hlen. destruct (pool_alloc_spec p _ Hinv Hc) as [(a & p' & ? & ? & _ & ? & ?)|[_ E]].
  - by exists a, p'.
  - unfold addrs in E. rewrite length_fmap in E. lia.
Qed.

Lemma filter_split_perm (f : lmt_entry -> bool) c :
  c ≡ₚ List.filter f c ++ List.filter (fun e => negb (f e)) c.
Proof.
  induction c as [|e c IH]; [done|]. simpl. destruct (f e); simpl.
  - by rewrite IH at 1.
  - rewrite <- Permutation_middle. by rewrite IH at 1.
Qed.

(** Deleting entries from a chain and returning them to the pool. *)
Lemma pool_ok_delete m p k c f :
  m !! k = Some c -> pool_ok m p ->
  exists p', pool_free_all (List.filter f c) p = Done p'
    /\ pool_ok (put_chain k (List.filter (fun e => negb (f e)) c) m) p' /\ obj_count p' = obj_count p.
Proof.
  intros Hk [Hinv Hc].
  destruct (pool_free_all_spec (List.filter f c)
              (addrs (List.filter (fun e => negb (f e)) c) ++ addrs (entries (delete k m))) p)
    as (p' & -> & Hinv' & Hc').
  { eapply pool_inv_perm; [|exact Hinv]. rewrite (addrs_entries_lookup m k c Hk).
    rewrite app_assoc. apply Permutation_app; [|done]. rewrite <- addrs_app.
    unfold addrs. by rewrite <- filter_split_perm. }
  { done. }
  exists p'. split; [done|]. split; [|done]. split; [|lia].
  eapply pool_inv_perm; [|exact Hinv']. by rewrite addrs_entries_put.
Qed.

(** Replacing a chain by one with the same addresses. *)
Lemma pool_ok_replace m p k c c' :
  m !! k = Some c -> addrs c' = addrs c -> pool_ok m p -> pool_ok (<[k := c']> m) p.
Proof.
  intros Hk Ha [Hinv Hc]. split; [|done]. eapply pool_inv_perm; [|exact Hinv].
  by rewrite addrs_entries_insert, Ha, <- addrs_entries_lookup.
Qed.

(** The fields a redo function does not change. *)
Record redo_frame (s s' : store) : Prop := mkFrame {
  fr_head : head s' = head s;
  fr_mask : in_obj_offset_mask s' = in_obj_offset_mask s;
  fr_log : redolog s' = redolog s;
  fr_compact : to_run_compact s' = to_run_compact s;
  fr_exist : compact_lmt_exist s' = compact_lmt_exist s;
  fr_scc : use_scc s' = use_scc s;
  fr_dev : dev s' = dev s;
  fr_acts : acts s' = acts s;
  fr_pool : obj_count (lmt_entry_pool s') = obj_count (lmt_entry_pool s)
}.

Lemma redo_allocation_refines k e fh s v :
  pool_ok (obj_lmt s) (lmt_entry_pool s) -> no_empty (obj_lmt s) ->
  Z.of_nat (length (entries (obj_lmt s))) < obj_count (lmt_entry_pool s) ->
  redo_view (head s) (ALLOCATE_OBJ k e fh) (view_of s) = Done v ->
  exists s', redo_allocation k e fh s = Done (0, s') /\ view_of s' = v /\ redo_frame s s'
    /\ pool_ok (obj_lmt s') (lmt_entry_pool s') /\ no_empty (obj_lmt s').
Proof.
  intros Hpool Hne Hlen Hv.
  destruct (pool_ok_alloc _ _ Hpool Hlen) as (a & p & Halloc & Hna & Hinv & Hcp).
  unfold redo_allocation. rewrite Halloc. cbn [obind].
  set (x := init_for_redo _). assert (Hx : strip x = strip e) by done.
  assert (Hxa : e_addr x = a) by done. simpl in Hv. rewrite strip_map_lookup in Hv.
  change (obj_lmt (with_pool p s)) with (obj_lmt s).
  destruct Hpool as [Hpi Hp0]. destruct (obj_lmt s !! k) as [c|] eqn:Hk; simpl in Hv.
  - rewrite <- Hx, strip_chain_insert in Hv.
    destruct (chain_insert x (after_seq x) (same_seq x) c) as [[rc c']| |] eqn:Hins; try discriminate Hv.
    simpl in Hv. simplify_eq. destruct (chain_insert_addrs _ _ _ _ _ _ Hins) as [Hc'ne [[-> Hp]|[-> ->]]].
    + cbn [obind]. change (0 =? - EEXIST) with false. cbn iota. eexists. split; [done|].
      split; [by unfold view_of; simpl; rewrite strip_map_insert|].
      split; [by split|]. split; [|by apply insert_no_empty].
      split; [|simpl; lia]. simpl. eapply pool_inv_perm; [|exact Hinv].
      rewrite (addrs_entries_lookup _ _ _ Hk), addrs_entries_insert, Hp, Hxa. done.
    + cbn [obind]. change (- EEXIST =? - EEXIST) with true. cbn iota.
      destruct (pool_free_spec p a (addrs (entries (obj_lmt s))) Hinv) as (p' & Hf & Hinv' & Hc'); [lia|].
      change (lmt_entry_pool (with_lmt (<[k:=c]> (obj_lmt s)) (with_pool p s))) with p.
      rewrite Hf. cbn [obind]. eexists. split; [done|].
      split; [by unfold view_of; simpl; rewrite strip_map_insert|].
      split; [split; try done; simpl; lia|].
      simpl. split; [|by apply insert_no_empty]. rewrite insert_id by done. split; [done|lia].
  - simplify_eq. cbn [obind]. eexists. split; [done|].
    split; [by unfold view_of; simpl; rewrite strip_map_insert|].
    split; [by split|]. split; [|by apply insert_no_empty].
    split; [|simpl; lia]. simpl. eapply pool_inv_perm; [|exact Hinv].
    rewrite addrs_entries_insert, entries_delete_None by done. done.
Qed.

Lemma redo_trim_refines k e tq s v :
  pool_ok (obj_lmt s) (lmt_entry_pool s) -> no_empty (obj_lmt s) ->
  redo_view (head s) (TRIM_OBJ k e tq) (view_of s) = Done v ->
  exists s', redo_trim k e tq s = Done (0, s') /\ view_of s' = v /\ redo_frame s s'
    /\ pool_ok (obj_lmt s') (lmt_entry_pool s') /\ no_empty (obj_lmt s').
Proof.
  intros Hpool Hne Hv. unfold redo_trim. simpl in Hv. rewrite strip_map_lookup in Hv.
  destruct (redo_push _ _ _) as [q| |]; try discriminate Hv. cbn [obind] in *.
  change (obj_lmt (with_trim q s)) with (obj_lmt s).
  destruct (obj_lmt s !! k) as [c|] eqn:Hk; simpl in Hv; simplify_eq.
  - unfold chain_delete. cbn iota.
    destruct (pool_ok_delete _ _ _ _ (fun x => offset x =? offset e) Hk Hpool) as (p' & Hf & Hok & Hc).
    change (lmt_entry_pool (with_trim q s)) with (lmt_entry_pool s). rewrite Hf. cbn [obind].
    eexists. split; [done|]. split.
    { unfold view_of. simpl. rewrite strip_map_put. by rewrite strip_filter. }
    split; [by split|]. split; [done|]. by apply put_chain_no_empty.
  - eexists. split; [done|]. split; [done|].
    split; [by split|done].
Qed.

Lemma redo_update_refines k off f s :
  (forall x, f (strip x) = strip (f x)) -> (forall x, e_addr (f x) = e_addr x) ->
  pool_ok (obj_lmt s) (lmt_entry_pool s) -> no_empty (obj_lmt s) ->
  forall c, obj_lmt s !! k = Some c ->
  let s' := with_lmt (<[k := update_at off f c]> (obj_lmt s)) s in
  view_of s' = mkView (<[k := update_at off f (strip_chain c)]> (strip_map (obj_lmt s)))
                 (free_obj_queue s) (trim_obj_queue s)
  /\ redo_frame s s' /\ pool_ok (obj_lmt s') (lmt_entry_pool s') /\ no_empty (obj_lmt s').
Proof.
  intros Hf Ha Hpool Hne c Hk s'. splits.
  - unfold view_of. simpl. by rewrite strip_map_insert, strip_update_at.
  - by split.
  - simpl. eapply pool_ok_replace; [done| |done]. by apply update_at_addrs.
  - simpl. apply insert_no_empty; [|done]. destruct c as [|e c]; [by destruct (Hne k)|].
    simpl. by destruct (offset e =? off).
Qed.

(** The redo functions implement [redo_view]. *)
Lemma redo_item_refines b s v :
  pool_ok (obj_lmt s) (lmt_entry_pool s) -> no_empty (obj_lmt s) ->
  Z.of_nat (length (entries (obj_lmt s))) < obj_count (lmt_entry_pool s) ->
  redo_view (head s) b (view_of s) = Done v ->
  exists s', redo_item b s = Done (0, s') /\ view_of s' = v /\ redo_frame s s'
    /\ pool_ok (obj_lmt s') (lmt_entry_pool s') /\ no_empty (obj_lmt s').
Proof.
  intros Hpool Hne Hlen Hv. destruct b as [k e fh|k e tq|o th ft|k e o|k e o]; simpl redo_item.
  - by apply redo_allocation_refines.
  - by apply redo_trim_refines.
  - unfold redo_free. simpl in Hv. destruct (redo_push _ _ _) as [q| |]; try discriminate Hv.
    simpl in *. simplify_eq. eexists. split; [done|]. split; [done|].
    split; [by split|done].
  - unfold redo_snap_seq_change. simpl in Hv. rewrite strip_map_lookup in Hv.
    destruct (obj_lmt s !! k) as [c|] eqn:Hk; simpl in Hv; simplify_eq.
    + eexists. split; [done|]. eapply redo_update_refines; try done.
      * intros x. simpl. by destruct (snap_seq x =? o).
      * intros x. by destruct (snap_seq x =? o).
    + exists s. split; [done|]. split; [done|]. split; [by split|done].
  - unfold redo_state_change. simpl in Hv. rewrite strip_map_lookup in Hv.
    destruct (obj_lmt s !! k) as [c|] eqn:Hk; simpl in Hv; simplify_eq.
    + eexists. split; [done|]. eapply redo_update_refines; try done.
      * intros x. simpl. by destruct (decide (status x = o)).
      * intros x. by destruct (decide (status x = o)).
    + exists s. split; [done|]. split; [done|]. split; [by split|done].
Qed.
End Refine.
