(* ===== verification/StoreOps.v ===== *)
(** * The operations of the flash store

    Model of the read and write paths, copy-on-write, deletion and trimming
    of src/pfs/src/pf_flash_store.cpp: [do_read], [do_write],
    [do_cow_entry], [begin_cow_scc]/[end_cow_scc], [delete_obj],
    [delete_obj_by_snap_seq], [delete_obj_snapshot], [delete_snapshot],
    [delete_replica], [get_snap_list], the body of [trim_proc] and the I/O
    part of [process_event].  All of them run on the event thread of the
    store, one after the other. *)

From Stdlib Require Import ZArith Lia.
From stdpp Require Import base tactics list numbers sets gmap.
From S2P Require Import Prelude FixedQueue MemPool Bitmap Ids Lmt Store RedoLog.

(** The key of the block a command addresses. *)
Definition io_key (s : store) (io : IoSubTask) : lmt_key :=
  mkKey (VOLUME_ID (rep_id io)) (vol_offset_to_block_slba (cmd_offset io) (objsize_order (head s))).

(** The loop of [do_read]: the newest entry not younger than [seq]. *)
Fixpoint find_snap (seq : Z) (c : chain) : option lmt_entry :=
  match c with
  | [] => None
  | e :: c => if seq <? snap_seq e then find_snap seq c else Some e
  end.

Definition do_read (io : IoSubTask) (s : store) : outcome (Z * store) :=
  let entry :=
    match obj_lmt s !! io_key s io with
    | None => None
    | Some c => find_snap (cmd_snap_seq io) c
    end in
  match entry with
  | None => Done (0, act (ACompleteZero (io_id io)) s)
  | Some e =>
      if decide (status e = NORMAL \/ status e = DELAY_DELETE_AFTER_COW) then
        Done (0, act (ASubmitIo (io_id io) S5_OP_READ
                        (offset e + offset_in_block (cmd_offset io) (in_obj_offset_mask s))
                        (cmd_length io)) s)
      else Done (0, act (AComplete (io_id io) MSG_STATUS_INTERNAL) s)
  end.

(** [for(i...) recovery_bmp->set_bit(first + i)] *)
Fixpoint set_bits (n : nat) (first : Z) (b : PfBitmap) : outcome PfBitmap :=
  match n with
  | O => Done b
  | S n => let* b := set_bit first b in set_bits n (first + 1) b
  end.

(** [memcpy(dst + off, src, len)] on buffers as functions of the position *)
Definition memcpy_at (dst : Z -> Z) (off len : Z) (src : Z -> Z) : Z -> Z :=
  fun x => if (off <=? x) && (x <? off + len) then src (x - off) else dst x.

Definition with_recovery (b : PfBitmap) (buf : Z -> Z) (e : lmt_entry) : lmt_entry :=
  mkEntry (e_addr e) (offset e) (snap_seq e) (status e) (waiting_io e) (Some b) (Some buf).

Definition set_waiting (l : list IoSubTask) (e : lmt_entry) : lmt_entry :=
  mkEntry (e_addr e) (offset e) (snap_seq e) (status e) l (recovery_bmp e) (recovery_buf e).

(** The branch of [do_write] on an object in recovery: the data goes to the
    pending buffer, and the sectors written are noted. *)
Definition write_recovering (io : IoSubTask) (key : lmt_key) (entry : lmt_entry) (rest : chain) (s : store)
    : outcome (Z * store) :=
  let entry := if 0 =? snap_seq entry then set_seq (cmd_snap_seq io) entry else entry in
  if negb (cmd_snap_seq io =? snap_seq entry) then Fatal
  else
    let in_off := offset_in_block (cmd_offset io) (in_obj_offset_mask s) in
    let* buf := of_option (recovery_buf entry) in
    let* bmp := of_option (recovery_bmp entry) in
    let buf := memcpy_at buf in_off (cmd_length io) (io_data io) in
    let* bmp := set_bits (Z.to_nat (cmd_length io / SECTOR_SIZE)) (in_off / SECTOR_SIZE) bmp in
    let s := with_lmt (<[key := with_recovery bmp buf entry :: rest]> (obj_lmt s)) s in
    Done (0, act (AComplete (io_id io) MSG_STATUS_SUCCESS) s).

(** Takes an object from the free queue and an entry from the pool, and
    fills in the entry (both queues have been checked or are assumed not
    to be empty by the code: the exception and the null pointer are the
    outcomes of the other case). *)
Definition alloc_object (seq : Z) (st : EntryStatus) (s : store) : outcome (lmt_entry * store) :=
  let* (id, q) := dequeue (free_obj_queue s) in
  match id with
  | None => Fatal
  | Some obj_id =>
      let s := with_free q s in
      let* (a, p) := pool_alloc (lmt_entry_pool s) in
      let* a := of_option a in
      Done (mkEntry a (obj_id_to_offset (head s) obj_id) seq st [] None None, with_pool p s)
  end.

Definition submit_write (io : IoSubTask) (e : lmt_entry) (s : store) : outcome (Z * store) :=
  Done (0, act (ASubmitIo (io_id io) (cmd_opcode io)
                  (offset e + offset_in_block (cmd_offset io) (in_obj_offset_mask s))
                  (cmd_length io)) s).

Definition do_write (io : IoSubTask) (s : store) : outcome (Z * store) :=
  let key := io_key s io in
  match obj_lmt s !! key with
  | None =>
      if is_empty (free_obj_queue s) then
        Done (0, act (ASubmitError (io_id io) MSG_STATUS_NOSPACE) s)
      else
        let* (entry, s) := alloc_object (cmd_snap_seq io) NORMAL s in
        let s := with_lmt (<[key := [entry]]> (obj_lmt s)) s in
        let* (rc, s) := log_allocation key entry (q_head (free_obj_queue s)) s in
        if negb (rc =? 0) then Done (0, act (ASubmitError (io_id io) MSG_STATUS_LOGFAILED) s)
        else submit_write io entry s
  | Some [] => Undef
  | Some (entry :: rest) =>
      if decide (status entry = RECOVERYING) then write_recovering io key entry rest s
      else if cmd_snap_seq io =? snap_seq entry then
        if decide (status entry = NORMAL) then submit_write io entry s
        else if decide (status entry = COPYING) then
          Done (0, with_lmt (<[key := set_waiting (io :: waiting_io entry) entry :: rest]> (obj_lmt s)) s)
        else Fatal
      else if cmd_snap_seq io <? snap_seq entry then
        Done (0, act (AComplete (io_id io) MSG_STATUS_READONLY) s)
      else if is_empty (free_obj_queue s) then
        Done (- ENOSPC, act (ASubmitError (io_id io) MSG_STATUS_NOSPACE) s)
      else
        let* (cow_entry, s) := alloc_object (cmd_snap_seq io) COPYING s in
        let s := with_lmt (<[key := cow_entry :: entry :: rest]> (obj_lmt s)) s in
        let* (rc, s) := log_allocation key cow_entry (q_head (free_obj_queue s)) s in
        if negb (rc =? 0) then Done (- EIO, act (ASubmitError (io_id io) MSG_STATUS_LOGFAILED) s)
        else
          let s := with_lmt (<[key := set_waiting [io] cow_entry :: entry :: rest]> (obj_lmt s)) s in
          let a := if use_scc s then ABeginScc key (e_addr entry) (e_addr cow_entry)
                   else ABeginCow key (e_addr entry) (e_addr cow_entry) in
          Done (0, act a s)
  end.

(** ** Deletion *)

(** What [free_func] does with an unlinked entry; its return codes are not
    looked at. *)
Definition free_object (key : lmt_key) (e : lmt_entry) (s : store) : outcome store :=
  let* (_, q) := enqueue (i32 (offset_to_obj_id (head s) (offset e))) (trim_obj_queue s) in
  let s := with_trim q s in
  let* (_, s) := log_trim key e (q_tail (trim_obj_queue s)) s in
  let* p := pool_free (e_addr e) (lmt_entry_pool s) in
  Done (with_pool p s).

(** [delete_matched_entry] on the chain of [key]: every matching entry is
    unlinked, then freed. *)
Fixpoint free_matched (key : lmt_key) (l : chain) (s : store) : outcome store :=
  match l with
  | [] => Done s
  | e :: l =>
      let c := default [] (obj_lmt s !! key) in
      let s := with_lmt (<[key := List.filter (fun x => negb (e_addr x =? e_addr e)) c]> (obj_lmt s)) s in
      let* s := free_object key e s in
      free_matched key l s
  end.

Definition delete_matched (key : lmt_key) (m : lmt_entry -> bool) (s : store) : outcome (Z * store) :=
  match obj_lmt s !! key with
  | None => Done (0, s)
  | Some c =>
      let* s := free_matched key (List.filter m c) s in
      Done (0, match obj_lmt s !! key with
               | Some [] => with_lmt (delete key (obj_lmt s)) s
               | _ => s
               end)
  end.

(** [delete_obj]: the entry at address [a]. *)
Definition delete_obj (key : lmt_key) (a : Z) (s : store) : outcome (Z * store) :=
  delete_matched key (fun e => e_addr e =? a) s.

Definition delete_obj_by_snap_seq (key : lmt_key) (seq : Z) (s : store) : outcome (Z * store) :=
  delete_matched key (fun e => snap_seq e =? seq) s.

(** The body of [trim_proc] that runs on the event thread. *)
Definition trim_step (s : store) : outcome (Z * store) :=
  if is_empty (trim_obj_queue s) then Done (- ENOENT, s)
  else
    let* (id, q) := dequeue (trim_obj_queue s) in
    match id with
    | None => Fatal
    | Some id =>
        let s := with_trim q s in
        let* (_, q) := enqueue id (free_obj_queue s) in
        let s := with_free q s in
        log_free id (q_head (trim_obj_queue s)) (q_tail (free_obj_queue s)) s
    end.

(** One round of [trim_proc]: at most [n] objects ([MAX_CNT] is 10). *)
Fixpoint trim_round (n : nat) (s : store) : outcome store :=
  match n with
  | O => Done s
  | S n =>
      let* (rc, s) := trim_step s in
      if rc =? - ENOENT then Done s else trim_round n s
  end.

(** ** Copy on write *)

(** The copy loop of [do_cow_entry]: chunk [j] of [n] in all.  Each task
    runs to its end before the next one starts (the future returned by
    [std::async] is destroyed at once, which waits for it). *)
Fixpoint cow_copy (n : nat) (j src dst : Z) (s : store) : bool * store :=
  match n with
  | O => (true, s)
  | S n =>
      let (f, s) := next_fault s in
      match f with
      | Some _ => (false, s)
      | None =>
          let buf := fun x => dev_data (dev s) (src + j * COW_OBJ_SIZE + x) in
          let (f, s) := next_fault s in
          match f with
          | Some _ => (false, s)
          | None =>
              let d := memcpy_at (dev_data (dev s)) (dst + j * COW_OBJ_SIZE) COW_OBJ_SIZE buf in
              cow_copy n (j + 1) src dst (with_dev (set_dev_data d (dev s)) s)
          end
      end
  end.

(** The entry at address [a] of the chain of [k0]; a pointer to an entry
    that is no longer there is dangling. *)
Definition find_entry (k0 : lmt_key) (a : Z) (s : store) : outcome lmt_entry :=
  of_option (List.find (fun e => e_addr e =? a) (default [] (obj_lmt s !! k0))).

Definition update_entry (k0 : lmt_key) (a : Z) (f : lmt_entry -> lmt_entry) (s : store) : store :=
  match obj_lmt s !! k0 with
  | None => s
  | Some c => with_lmt (<[k0 := (fun e => if e_addr e =? a then f e else e) <$> c]> (obj_lmt s)) s
  end.

(** The list from [t->next] on after the call of [do_write] on [t] that
    returned [rc] in state [s]: the call links [t] into the waiting list of
    an entry when that entry is being copied, or when it starts a copy. *)
Definition io_next (t : IoSubTask) (rest : list IoSubTask) (rc : Z) (s : store) : list IoSubTask :=
  match obj_lmt s !! io_key s t with
  | Some (e :: _) =>
      if decide (status e = RECOVERYING) then rest
      else if cmd_snap_seq t =? snap_seq e then
        if decide (status e = COPYING) then waiting_io e else rest
      else if cmd_snap_seq t <? snap_seq e then rest
      else if rc =? 0 then [] else rest
  | _ => rest
  end.

(** The loop [while(t) { ... do_write(t); t = t->next; }] over the waiting
    writes.  The list can change under the loop; a run longer than the fuel
    is one that does not end. *)
Fixpoint redo_writes (fuel : nat) (l : list IoSubTask) (s : store) : outcome store :=
  match l with
  | [] => Done s
  | t :: rest =>
      match fuel with
      | O => Undef
      | S fuel =>
          if negb ((cmd_opcode t =? S5_OP_WRITE) || (cmd_opcode t =? S5_OP_REPLICATE_WRITE)) then Fatal
          else
            let* (rc, s') := do_write t s in
            redo_writes fuel (io_next t rest rc s) s'
      end
  end.

Fixpoint fail_writes (l : list IoSubTask) (s : store) : store :=
  match l with
  | [] => s
  | t :: l => fail_writes l (act (AComplete (io_id t) MSG_STATUS_REOPEN) s)
  end.

(** The end of [do_cow_entry] on success.  [k0] is the block the two
    entries belong to; [key_mem] is what the captured pointer [key] reads:
    the pointer refers to a local variable of the call of [do_write] that
    started the copy and has returned by then. *)
Definition cow_success (k0 key_mem : lmt_key) (src dst : Z) (s : store) : outcome store :=
  let* e := find_entry k0 dst s in
  let old_status := status e in
  let s := update_entry k0 dst (set_status NORMAL) s in
  let* (_, s) := log_status_change key_mem (set_status NORMAL e) old_status s in
  let s := update_entry k0 dst (set_waiting []) s in
  let* s := redo_writes (length (waiting_io e)) (waiting_io e) s in
  let* es := find_entry k0 src s in
  if decide (status es = DELAY_DELETE_AFTER_COW) then
    let* (_, s) := delete_obj key_mem src s in Done s
  else Done s.

Definition cow_failure (k0 : lmt_key) (dst : Z) (s : store) : outcome store :=
  let* e := find_entry k0 dst s in
  Done (fail_writes (waiting_io e) (update_entry k0 dst (set_waiting []) s)).

Definition do_cow_entry (k0 key_mem : lmt_key) (src dst : Z) (s : store) : outcome store :=
  let* es := find_entry k0 src s in
  let* ed := find_entry k0 dst s in
  let (ok, s) := cow_copy (Z.to_nat (objsize (head s) / COW_OBJ_SIZE)) 0 (offset es) (offset ed) s in
  if ok then cow_success k0 key_mem src dst s else cow_failure k0 dst s.

(** [end_cow_scc], after the copy by the controller ended with [rc]. *)
Definition end_cow_scc (k0 key_mem : lmt_key) (src dst rc : Z) (s : store) : outcome store :=
  let* e := find_entry k0 dst s in
  let s := update_entry k0 dst (set_waiting []) s in
  if rc =? 0 then
    let* s := redo_writes (length (waiting_io e)) (waiting_io e) s in
    let* es := find_entry k0 src s in
    if decide (status es = DELAY_DELETE_AFTER_COW) then
      let* (_, s) := delete_obj key_mem src s in Done s
    else Done s
  else Done (fail_writes (waiting_io e) s).

(** ** Deletion of a snapshot *)

(** The loop of [delete_obj_snapshot]: the next, the target and the
    previous entry.  The body reads [target_entry->prev_snap] after moving
    [target_entry], also when it became null. *)
Fixpoint find_target (seq : Z) (next : option lmt_entry) (c : chain)
    : outcome (option lmt_entry * lmt_entry * option lmt_entry) :=
  match c with
  | [] => Undef
  | t :: c =>
      if seq <? snap_seq t then find_target seq (Some t) c
      else Done (next, t, match c with [] => None | e :: _ => Some e end)
  end.

Definition abnormal (e : option lmt_entry) : bool :=
  match e with
  | None => false
  | Some e => negb (bool_decide (status e = NORMAL))
  end.

(** [target_entry->snap_seq = seq] and the log item for it *)
Definition change_seq (key : lmt_key) (t : lmt_entry) (seq : Z) (s : store) : outcome (Z * store) :=
  let old_snap := snap_seq t in
  let s := update_entry key (e_addr t) (set_seq seq) s in
  let* (_, s) := log_snap_seq_change key (set_seq seq t) old_snap s in
  Done (0, s).

(** [if(next_entry->status == NORMAL) delete_obj(...) else ...] *)
Definition delete_or_delay (key : lmt_key) (t : lmt_entry) (next : option lmt_entry) (s : store)
    : outcome (Z * store) :=
  let* n := of_option next in
  if decide (status n = NORMAL) then
    let* (_, s) := delete_obj key (e_addr t) s in Done (0, s)
  else Done (0, update_entry key (e_addr t) (set_status DELAY_DELETE_AFTER_COW) s).

Definition UINT32_MAX : Z := 2 ^ 32 - 1.

Definition delete_obj_snapshot (volume_id lba snap prev_snap next_snap : Z) (s : store)
    : outcome (Z * store) :=
  let key := mkKey volume_id lba in
  match obj_lmt s !! key with
  | None => Done (- ENOENT, s)
  | Some c =>
      let* (next, t, prev) := find_target snap None c in
      if abnormal prev || abnormal (Some t) || abnormal next then Done (- EAGAIN, s)
      else
        let Lps := prev_snap in
        let Lts := snap in
        let Lns := next_snap in
        let Pps := match prev with None => 0 | Some e => snap_seq e end in
        let Pts := snap_seq t in
        let Pns := match next with None => UINT32_MAX | Some e => snap_seq e end in
        if negb (Pts <=? Lts) then Fatal
        else if negb (Lts <? Pns) then Fatal
        else if (Lps <? Pps) && (Pns <=? Lns) then delete_or_delay key t next s
        else if (Lps <? Pps) && (Lns <? Pns) then change_seq key t Lns s
        else if (Lps <? Pps) && negb (bool_decide (is_Some next)) then Fatal
        else if (Pps <=? Lps) && (Pns <=? Lns) then delete_or_delay key t next s
        else if (Pps <=? Lps) && (Lns <? Pns) then change_seq key t Lns s
        else if (Pps <=? Lps) && negb (bool_decide (is_Some next)) then Fatal
        else if Pts <? Lps then change_seq key t Lps s
        else Fatal
  end.

(** [delete_snapshot]: every object of the shard, codes not looked at. *)
Fixpoint delete_snapshot_loop (n : nat) (vol lba step snap prev_snap next_snap : Z) (s : store)
    : outcome store :=
  match n with
  | O => Done s
  | S n =>
      let* (_, s) := delete_obj_snapshot vol lba snap prev_snap next_snap s in
      delete_snapshot_loop n vol (lba + step) step snap prev_snap next_snap s
  end.

Definition delete_snapshot (shard_id snap prev_snap next_snap : Z) (s : store) : outcome store :=
  let obj_lba_cnt := objsize (head s) / LBA_LENGTH in
  let rounds := (SHARD_LBA_CNT + obj_lba_cnt - 1) / obj_lba_cnt in
  delete_snapshot_loop (Z.to_nat rounds) (VOLUME_ID shard_id) (SHARD_INDEX shard_id * SHARD_LBA_CNT)
    obj_lba_cnt snap prev_snap next_snap s.

(** ** Replicas *)
Definition get_snap_list (volume_id off : Z) (s : store) : list Z :=
  match obj_lmt s !! mkKey volume_id (vol_offset_to_block_slba off (objsize_order (head s))) with
  | None => []
  | Some c =>
      let c := match c with
               | p :: r => if decide (status p = RECOVERYING) then if offset p =? 0 then r else c else c
               | [] => []
               end in
      snap_seq <$> c
  end.

(** [while(head) ... delete_obj(&key, p)] *)
Fixpoint delete_all (key : lmt_key) (l : list Z) (s : store) : outcome store :=
  match l with
  | [] => Done s
  | a :: l => let* (_, s) := delete_obj key a s in delete_all key l s
  end.

Fixpoint delete_replica_loop (n : nat) (vol off : Z) (s : store) : outcome store :=
  match n with
  | O => Done s
  | S n =>
      let key := mkKey vol (vol_offset_to_block_slba off (objsize_order (head s))) in
      let* s :=
        match obj_lmt s !! key with
        | None => Done s
        | Some [] => Undef
        | Some (e :: c) =>
            if decide (status e = RECOVERYING) then Done s else delete_all key (addrs (e :: c)) s
        end in
      delete_replica_loop n vol (off + objsize (head s)) s
  end.

Definition delete_replica (rep : Z) (s : store) : outcome (Z * store) :=
  let* s := delete_replica_loop (Z.to_nat (SHARD_SIZE / objsize (head s))) (VOLUME_ID rep)
              (Z.shiftl (SHARD_INDEX rep) SHARD_SIZE_ORDER) s in
  Done (0, s).

(** ** Events *)
Definition process_io (io : IoSubTask) (s : store) : outcome (Z * store) :=
  if (cmd_opcode io =? S5_OP_READ) || (cmd_opcode io =? S5_OP_RECOVERY_READ) then
    let* (_, s) := do_read io s in Done (0, s)
  else if (cmd_opcode io =? S5_OP_WRITE) || (cmd_opcode io =? S5_OP_REPLICATE_WRITE) then
    let* (_, s) := do_write io s in Done (0, s)
  else Fatal.

(** [EVT_SAVEMD] *)
Definition process_savemd (s : store) : outcome (Z * store) :=
  if current_offset (redolog s) =? start_offset (redolog s) then Done (0, s)
  else let* (_, s) := meta_data_compaction_trigger COMPACT_TODO false s in Done (0, s).
