(* ===== verification/Views.v ===== *)
(** * Accounting of the objects of a disk

    Every object of a disk is free, waiting to be trimmed, or used by one
    entry of the map.  This file states that as an invariant of views and
    shows, for each kind of log item, that the change of the view a store
    operation makes is the change [redo_view] makes, that it keeps the
    invariant and that it neither loses nor duplicates an object. *)

From Stdlib Require Import ZArith Lia.
From stdpp Require Import base tactics list numbers sets gmap sorting.
From S2P Require Import Prelude FixedQueue MemPool Bitmap Ids Lmt Store RedoLog.

Definition entry_id (h : HeadPage) (e : lmt_entry) : Z := offset_to_obj_id h (offset e).

(** The ids of all objects a view accounts for. *)
Definition ids (h : HeadPage) (v : view) : list Z :=
  abs (v_free v) ++ abs (v_trim v) ++ (entry_id h <$> entries (v_lmt v)).

Definition aligned (h : HeadPage) (e : lmt_entry) : Prop :=
  offset e = obj_id_to_offset h (entry_id h e).

(** The states of an entry outside of a recovery. *)
Definition settled (e : lmt_entry) : Prop := status e = NORMAL \/ status e = COPYING.

Record view_ok (h : HeadPage) (v : view) : Prop := mkViewOk {
  vo_free : queue_wf (v_free v);
  vo_trim : queue_wf (v_trim v);
  vo_depth : q_depth (v_trim v) = q_depth (v_free v);
  vo_nodup : NoDup (ids h v);
  vo_range : forall i, i ∈ ids h v -> 0 <= i < q_depth (v_free v) - 1;
  vo_aligned : forall e, e ∈ entries (v_lmt v) -> aligned h e;
  vo_status : forall e, e ∈ entries (v_lmt v) -> settled e;
  vo_ne : no_empty (v_lmt v);
  vo_desc : forall k c, v_lmt v !! k = Some c -> descending c
}.

Definition head_ok (h : HeadPage) : Prop := 0 <= objsize_order h.

Section Views.
Context (h : HeadPage) (Hh : head_ok h).
Implicit Types (v : view) (e x : lmt_entry) (c : chain) (k : lmt_key).

Lemma obj_id_roundtrip i : offset_to_obj_id h (obj_id_to_offset h i) = i.
Proof.
  unfold offset_to_obj_id, obj_id_to_offset. replace (_ + meta_size h - meta_size h)
    with (Z.shiftl i (objsize_order h)) by lia.
  rewrite Z.shiftr_shiftl_l by (unfold head_ok in Hh; lia). by rewrite Z.sub_diag, Z.shiftl_0_r.
Qed.

Lemma aligned_inj e1 e2 : aligned h e1 -> aligned h e2 -> entry_id h e1 = entry_id h e2 -> offset e1 = offset e2.
Proof. unfold aligned. intros -> -> ->. done. Qed.

(** ids in the range of the queue fit in 32 bits *)
Lemma id_i32 v i : view_ok h v -> i ∈ ids h v -> i32 i = i.
Proof.
  intros Hv Hi. destruct (vo_free _ _ Hv) as [Hd _ _ _]. pose proof (vo_range _ _ Hv i Hi).
  apply i32_small. lia.
Qed.

(** The queue pushed to has room while another object is elsewhere. *)
Lemma ids_length v : view_ok h v -> Z.of_nat (length (ids h v)) <= q_depth (v_free v) - 1.
Proof.
  intros Hv. destruct (vo_free _ _ Hv) as [Hd _ _ _].
  assert (Hsub : ids h v ⊆+ seqZ 0 (q_depth (v_free v) - 1)).
  { apply NoDup_submseteq; [apply (vo_nodup _ _ Hv)|]. intros i Hi.
    apply elem_of_seqZ. pose proof (vo_range _ _ Hv i Hi). lia. }
  apply submseteq_length in Hsub. rewrite length_seqZ in Hsub. lia.
Qed.

Lemma entries_bound v : view_ok h v -> Z.of_nat (length (entries (v_lmt v))) <= q_depth (v_free v) - 1.
Proof.
  intros Hv. pose proof (ids_length v Hv) as Hl. unfold ids in Hl.
  rewrite !length_app, length_fmap in Hl. lia.
Qed.

(** A permutation of the ids with the same depth keeps the accounting. *)
Lemma accounting_perm v v' :
  view_ok h v -> ids h v' ≡ₚ ids h v -> q_depth (v_free v') = q_depth (v_free v) ->
  NoDup (ids h v') /\ forall i, i ∈ ids h v' -> 0 <= i < q_depth (v_free v') - 1.
Proof.
  intros Hv Hp Hd. split; [rewrite Hp; apply (vo_nodup _ _ Hv)|].
  intros i Hi. rewrite Hp in Hi. rewrite Hd. by apply (vo_range _ _ Hv).
Qed.

(** *** Queue operations as the redo functions see them *)
Lemma enqueue_redo_push {T : Type} (x : T) q q' :
  queue_wf q -> enqueue x q = Done (0, q') -> redo_push (q_tail q') x q = Done q'.
Proof.
  intros Hwf. unfold enqueue. destruct (is_full q); [done|].
  destruct (arr_set (q_data q) (q_tail q) x) as [d|] eqn:Hs; [|done]. intros [= <-].
  unfold redo_push. simpl. pose proof (wf_tail _ Hwf) as Ht.
  destruct (rem_step (q_depth q) (q_tail q) Ht) as [_ ->].
  assert ((if (if decide (q_tail q + 1 = q_depth q) then 0 else q_tail q + 1) - 1 <? 0
           then q_depth q - 1
           else (if decide (q_tail q + 1 = q_depth q) then 0 else q_tail q + 1) - 1) = q_tail q) as ->.
  { case_decide; match goal with |- context [?a <? ?b] => destruct (Z.ltb_spec a b) end; lia. }
  by rewrite Hs.
Qed.

Lemma dequeue_set_head {T : Type} (x : T) q q' :
  dequeue q = Done (Some x, q') -> q' = set_q_head (q_head q') q.
Proof.
  unfold dequeue, dequeue_nolock. destruct (is_empty q); [done|].
  destruct (arr_get _ _); [|done]. by intros [= <- <-].
Qed.

(** *** Allocation *)
Lemma view_alloc v k x id fq' c :
  view_ok h v -> dequeue (v_free v) = Done (Some id, fq') ->
  offset x = obj_id_to_offset h id -> strip x = x -> settled x ->
  c = default [] (v_lmt v !! k) -> (forall e, e ∈ c -> snap_seq e < snap_seq x) ->
  let v' := mkView (<[k := x :: c]> (v_lmt v)) fq' (v_trim v) in
  redo_view h (ALLOCATE_OBJ k x (q_head fq')) v = Done v' /\ view_ok h v' /\ ids h v' ≡ₚ ids h v.
Proof.
  intros Hv Hdq Hoff Hx Hset -> Hnew v'. pose proof (dequeue_set_head _ _ _ Hdq) as Efq.
  destruct (abs (v_free v)) as [|id' l] eqn:Habs.
  { rewrite dequeue_nil in Hdq by (apply (vo_free _ _ Hv) || done). done. }
  destruct (dequeue_cons _ _ _ (vo_free _ _ Hv) Habs) as (q1 & E & Hwf1 & Habs1 & Hd1).
  rewrite Hdq in E. simplify_eq.
  assert (Hid : entry_id h x = id') by (unfold entry_id; rewrite Hoff; apply obj_id_roundtrip).
  assert (Hent : entries (<[k := x :: default [] (v_lmt v !! k)]> (v_lmt v)) ≡ₚ x :: entries (v_lmt v)).
  { rewrite entries_insert. destruct (v_lmt v !! k) as [c|] eqn:Hk; simpl.
    - by rewrite (entries_lookup (v_lmt v) k c Hk).
    - by rewrite entries_delete_None. }
  assert (Hids : ids h v' ≡ₚ ids h v).
  { unfold ids. simpl. rewrite Habs, Hent. csimpl. rewrite Hid. solve_Permutation. }
  splits; [| |done].
  - cbn [redo_view]. rewrite Hx. destruct (v_lmt v !! k) as [c|] eqn:Hk; simpl.
    + simpl in Hnew. assert (Hne : c <> []) by (intros ->; by apply (vo_ne _ _ Hv k)).
      destruct c as [|e c]; [done|]. unfold chain_insert, same_seq, after_seq.
      assert (snap_seq e < snap_seq x) by (apply Hnew; left).
      destruct (Z.eqb_spec (snap_seq e) (snap_seq x)); [lia|].
      destruct (Z.ltb_spec (snap_seq x) (snap_seq e)); [lia|]. cbn [negb obind]. by rewrite <- Efq.
    + by rewrite <- Efq.
  - destruct (accounting_perm v v' Hv Hids) as [Hnd Hr]; [simpl; lia|].
    split; simpl; try done; try apply Hv.
    + rewrite (vo_depth _ _ Hv). lia.
    + intros e He. rewrite Hent in He. apply elem_of_cons in He as [->|He].
      * unfold aligned. by rewrite Hid.
      * by apply (vo_aligned _ _ Hv).
    + intros e He. rewrite Hent in He. apply elem_of_cons in He as [->|He]; [done|].
      by apply (vo_status _ _ Hv).
    + apply insert_no_empty; [done|apply Hv].
    + intros k' c' Hk'. destruct (decide (k = k')) as [<-|].
      * rewrite lookup_insert_eq in Hk'. simplify_eq. constructor.
        -- destruct (v_lmt v !! k) as [c|] eqn:Hk; simpl; [by apply (vo_desc _ _ Hv k)|constructor].
        -- apply Forall_forall. intros e He. by apply Hnew.
      * rewrite lookup_insert_ne in Hk' by done. by apply (vo_desc _ _ Hv k').
Qed.

(** *** Unique offsets *)
Lemma nodup_offsets v : view_ok h v -> NoDup (offset <$> entries (v_lmt v)).
Proof.
  intros Hv. pose proof (vo_nodup _ _ Hv) as Hnd. unfold ids in Hnd.
  apply NoDup_app in Hnd as (_ & _ & Hnd). apply NoDup_app in Hnd as (_ & _ & Hnd).
  apply (NoDup_fmap_1 (offset_to_obj_id h)). rewrite <- list_fmap_compose. exact Hnd.
Qed.

Lemma nodup_offsets_chain v k c : view_ok h v -> v_lmt v !! k = Some c -> NoDup (offset <$> c).
Proof.
  intros Hv Hk. pose proof (nodup_offsets v Hv) as Hnd.
  rewrite (entries_lookup _ _ _ Hk), fmap_app in Hnd. by apply NoDup_app in Hnd as (? & _).
Qed.

Lemma filter_offset_absent off c :
  off ∉ (offset <$> c) -> List.filter (fun x => negb (offset x =? off)) c = c.
Proof.
  induction c as [|y c IH]; [done|]. csimpl. intros Hn. apply not_elem_of_cons in Hn as [Hy Hn].
  destruct (Z.eqb_spec (offset y) off); [congruence|]. simpl. by rewrite IH.
Qed.

Lemma filter_offset_perm c e :
  NoDup (offset <$> c) -> e ∈ c -> c ≡ₚ e :: List.filter (fun x => negb (offset x =? offset e)) c.
Proof.
  induction c as [|y c IH]; intros Hnd He; [by apply elem_of_nil in He|].
  csimpl in Hnd. apply NoDup_cons in Hnd as [Hy Hnd]. simpl.
  apply elem_of_cons in He as [->|He].
  - rewrite Z.eqb_refl. simpl. by rewrite filter_offset_absent.
  - destruct (Z.eqb_spec (offset y) (offset e)) as [E|_].
    + destruct Hy. rewrite E. by apply list_elem_of_fmap_2.
    + simpl. rewrite (IH Hnd He) at 1. constructor.
Qed.

Lemma descending_filter (f : lmt_entry -> bool) c : descending c -> descending (List.filter f c).
Proof.
  intros Hd. induction Hd as [|e c Hd IH Hall]; [constructor|]. simpl. destruct (f e); [|done].
  constructor; [done|]. rewrite Forall_forall in *. intros y Hy. apply Hall.
  apply list_elem_of_In, filter_In in Hy as [Hy _]. by apply list_elem_of_In.
Qed.

Lemma put_chain_desc m k c :
  descending c -> (forall k' c', m !! k' = Some c' -> descending c') ->
  forall k' c', put_chain k c m !! k' = Some c' -> descending c'.
Proof.
  intros Hc Hm k' c'. destruct c as [|e c]; simpl; destruct (decide (k = k')) as [<-|].
  - by rewrite lookup_delete_eq.
  - rewrite lookup_delete_ne by done. apply Hm.
  - rewrite lookup_insert_eq. by intros [= <-].
  - rewrite lookup_insert_ne by done. apply Hm.
Qed.

(** *** Deletion of an entry: its object waits to be trimmed *)
Lemma view_trim v k c e :
  view_ok h v -> v_lmt v !! k = Some c -> e ∈ c ->
  exists tq', enqueue (i32 (entry_id h e)) (v_trim v) = Done (0, tq') /\
  let v' := mkView (put_chain k (List.filter (fun x => negb (offset x =? offset e)) c) (v_lmt v))
              (v_free v) tq' in
  redo_view h (TRIM_OBJ k e (q_tail tq')) v = Done v' /\ view_ok h v' /\ ids h v' ≡ₚ ids h v.
Proof.
  intros Hv Hk He.
  assert (Hin : entry_id h e ∈ ids h v).
  { unfold ids. rewrite !elem_of_app. right. right. apply list_elem_of_fmap_2.
    by apply (elem_of_entries _ k c). }
  rewrite (id_i32 v _ Hv Hin). pose proof (vo_trim _ _ Hv) as Hwf.
  assert (Hperm : entries (v_lmt v) ≡ₚ
    e :: entries (put_chain k (List.filter (fun x => negb (offset x =? offset e)) c) (v_lmt v))).
  { rewrite (entries_lookup _ _ _ Hk), entries_put.
    rewrite (filter_offset_perm c e (nodup_offsets_chain v k c Hv Hk) He) at 1. done. }
  assert (Hroom : Z.of_nat (length (abs (v_trim v))) < q_depth (v_trim v) - 1).
  { pose proof (ids_length v Hv) as Hl. unfold ids in Hl. rewrite !length_app, length_fmap, Hperm in Hl.
    simpl in Hl. rewrite (vo_depth _ _ Hv). lia. }
  destruct (enqueue_fifo (v_trim v) (entry_id h e) Hwf Hroom) as (tq' & Henq & Hwf' & Habs' & Hd').
  exists tq'. split; [done|]. intros v'.
  assert (Hids : ids h v' ≡ₚ ids h v).
  { unfold ids. simpl. rewrite Habs', Hperm. csimpl. solve_Permutation. }
  splits; [| |done].
  - cbn [redo_view]. unfold entry_id in *. rewrite (id_i32 v _ Hv Hin).
    rewrite (enqueue_redo_push _ _ _ Hwf Henq). cbn [obind]. by rewrite Hk.
  - destruct (accounting_perm v v' Hv Hids) as [Hnd Hr]; [done|].
    split; simpl; try done; try apply Hv.
    + rewrite <- (vo_depth _ _ Hv). lia.
    + intros y Hy. apply (vo_aligned _ _ Hv). rewrite Hperm. by right.
    + intros y Hy. apply (vo_status _ _ Hv). rewrite Hperm. by right.
    + apply put_chain_no_empty, Hv.
    + apply put_chain_desc; [|apply Hv]. by apply descending_filter, (vo_desc _ _ Hv k).
Qed.

(** *** Trimming: a waiting object becomes free *)
Lemma view_free v id tq' :
  view_ok h v -> dequeue (v_trim v) = Done (Some id, tq') ->
  exists fq', enqueue id (v_free v) = Done (0, fq') /\
  let v' := mkView (v_lmt v) fq' tq' in
  redo_view h (FREE_OBJ id (q_head tq') (q_tail fq')) v = Done v' /\ view_ok h v' /\ ids h v' ≡ₚ ids h v.
Proof.
  intros Hv Hdq. pose proof (vo_trim _ _ Hv) as Hwft. pose proof (vo_free _ _ Hv) as Hwff.
  destruct (abs (v_trim v)) as [|id' l] eqn:Habs; [by rewrite dequeue_nil in Hdq|].
  destruct (dequeue_cons _ _ _ Hwft Habs) as (q1 & E & Hwf1 & Habs1 & Hd1).
  rewrite Hdq in E. simplify_eq.
  assert (Hroom : Z.of_nat (length (abs (v_free v))) < q_depth (v_free v) - 1).
  { pose proof (ids_length v Hv) as Hl. unfold ids in Hl. rewrite !length_app, Habs in Hl.
    simpl in Hl. lia. }
  destruct (enqueue_fifo (v_free v) id' Hwff Hroom) as (fq' & Henq & Hwf' & Habs' & Hd').
  exists fq'. split; [done|]. intros v'.
  assert (Hids : ids h v' ≡ₚ ids h v).
  { unfold ids. simpl. rewrite Habs', Habs. solve_Permutation. }
  splits; [| |done].
  - cbn [redo_view]. rewrite (enqueue_redo_push _ _ _ Hwff Henq). cbn [obind].
    by rewrite <- (dequeue_set_head _ _ _ Hdq).
  - destruct (accounting_perm v v' Hv Hids) as [Hnd Hr]; [simpl; lia|].
    pose proof (vo_depth _ _ Hv).
    split; simpl; try done; try apply Hv. lia.
Qed.

(** *** Change of an entry in place *)
Lemma update_at_map off f c :
  NoDup (offset <$> c) ->
  update_at off f c = (fun x => if offset x =? off then f x else x) <$> c.
Proof.
  induction c as [|y c IH]; [done|]. csimpl. intros [Hy Hnd]%NoDup_cons. cbn [update_at].
  destruct (Z.eqb_spec (offset y) off) as [E|]; [|by rewrite IH].
  f_equal. subst off. clear IH Hnd. induction c as [|z c IH]; [done|]. csimpl in *.
  apply not_elem_of_cons in Hy as [Hz Hy]. destruct (Z.eqb_spec (offset z) (offset y)); [congruence|].
  by rewrite <- IH.
Qed.

Lemma update_at_ids off f c :
  (forall x, offset (f x) = offset x) -> (entry_id h <$> update_at off f c) = (entry_id h <$> c).
Proof.
  intros Hf. induction c as [|y c IH]; [done|]. cbn [update_at].
  destruct (offset y =? off); csimpl; [|by rewrite IH]. unfold entry_id at 1. by rewrite Hf.
Qed.

Lemma update_at_elem off f c y :
  y ∈ update_at off f c -> exists z, z ∈ c /\ (y = z \/ y = f z).
Proof.
  induction c as [|w c IH]; intros Hy; [by apply elem_of_nil in Hy|]. cbn [update_at] in Hy.
  destruct (offset w =? off); apply elem_of_cons in Hy as [->|Hy].
  - exists w. split; [left|by right].
  - exists y. split; [by right|by left].
  - exists w. split; [left|by left].
  - destruct (IH Hy) as (z & Hz & E). exists z. split; [by right|done].
Qed.

Lemma view_update v k c off f :
  view_ok h v -> v_lmt v !! k = Some c -> (forall x, offset (f x) = offset x) ->
  (forall x, settled x -> settled (f x)) ->
  descending (update_at off f c) ->
  let v' := mkView (<[k := update_at off f c]> (v_lmt v)) (v_free v) (v_trim v) in
  view_ok h v' /\ ids h v' ≡ₚ ids h v.
Proof.
  intros Hv Hk Hf Hset Hd v'.
  assert (Hent : (entry_id h <$> entries (v_lmt v')) ≡ₚ (entry_id h <$> entries (v_lmt v))).
  { simpl. rewrite entries_insert, (entries_lookup _ _ _ Hk), !fmap_app. by rewrite update_at_ids. }
  assert (Hids : ids h v' ≡ₚ ids h v) by (unfold ids; by rewrite Hent).
  split; [|done]. destruct (accounting_perm v v' Hv Hids) as [Hnd Hr]; [done|].
  split; simpl; try done; try apply Hv.
  - intros y Hy. rewrite entries_insert in Hy. apply elem_of_app in Hy as [Hy|Hy].
    + destruct (update_at_elem _ _ _ _ Hy) as (z & Hz & E).
      assert (Ez : offset y = offset z) by (destruct E as [->| ->]; [done|apply Hf]).
      pose proof (vo_aligned _ _ Hv z (elem_of_entries _ k c z Hk Hz)) as Ha.
      unfold aligned, entry_id in *. by rewrite Ez.
    + apply (vo_aligned _ _ Hv). rewrite (entries_lookup _ _ _ Hk). apply elem_of_app. by right.
  - intros y Hy. rewrite entries_insert in Hy. apply elem_of_app in Hy as [Hy|Hy].
    + destruct (update_at_elem _ _ _ _ Hy) as (z & Hz & E).
      pose proof (vo_status _ _ Hv z (elem_of_entries _ k c z Hk Hz)) as Ha.
      destruct E as [->| ->]; [done|by apply Hset].
    + apply (vo_status _ _ Hv). rewrite (entries_lookup _ _ _ Hk). apply elem_of_app. by right.
  - apply insert_no_empty; [|apply Hv]. intros E. destruct c as [|y c]; [by apply (vo_ne _ _ Hv k)|].
    cbn [update_at] in E. by destruct (offset y =? off).
  - intros k' c' Hk'. destruct (decide (k = k')) as [<-|].
    + rewrite lookup_insert_eq in Hk'. by simplify_eq.
    + rewrite lookup_insert_ne in Hk' by done. by apply (vo_desc _ _ Hv k').
Qed.
End Views.
