(* ===== verification/OpSteps.v ===== *)
(** * Operations as sequences of logged steps

    Every operation of the store on the event thread is a sequence of
    steps: a silent step changes nothing the log or the metadata zones
    keep; a logged step writes one item to the log, and the view of the
    store after it is the view [redo_view] computes from the item.  Each
    step keeps the invariant [store_ok]. *)

From Stdlib Require Import ZArith Lia.
From stdpp Require Import base tactics list numbers sets gmap sorting relations.
From S2P Require Import Prelude FixedQueue MemPool Bitmap Ids Lmt Store RedoLog Views StoreOps.

(** ** The invariant of a store *)
Record store_ok (s : store) : Prop := mkStoreOk {
  so_head : head_ok (head s);
  so_view : view_ok (head s) (view_of s);
  so_pool : pool_ok (obj_lmt s) (lmt_entry_pool s);
  so_cap : obj_count (lmt_entry_pool s) = 2 * q_depth (free_obj_queue s)
}.

(** The part of a store that lives on the disk or describes the log. *)
Record same_disk (s s' : store) : Prop := mkSameDisk {
  sd_head : head s' = head s;
  sd_dev : dev s' = dev s;
  sd_log : redolog s' = redolog s;
  sd_compact : to_run_compact s' = to_run_compact s;
  sd_exist : compact_lmt_exist s' = compact_lmt_exist s
}.

(** The part that the log records. *)
Record same_mem (s s' : store) : Prop := mkSameMem {
  sm_lmt : obj_lmt s' = obj_lmt s;
  sm_free : free_obj_queue s' = free_obj_queue s;
  sm_trim : trim_obj_queue s' = trim_obj_queue s;
  sm_pool : lmt_entry_pool s' = lmt_entry_pool s;
  sm_mask : in_obj_offset_mask s' = in_obj_offset_mask s;
  sm_scc : use_scc s' = use_scc s
}.

(** The zone has space for one item more after the next one. *)
Definition has_space (s : store) : Prop :=
  current_offset (redolog s) + LBA_LENGTH < start_offset (redolog s) + log_size (redolog s).

(** An item can be written: there is space, or the log can be switched to
    the other zone (which must not be the one being written). *)
Definition room (s : store) : Prop :=
  has_space s \/ (log_phase (redolog s) = redolog_phase (head s) /\ to_run_compact s <> COMPACT_ERROR).

Record log_step (b : item_body) (s s' : store) : Prop := mkLogStep {
  ls_head : head s' = head s;
  ls_exist : compact_lmt_exist s' = compact_lmt_exist s;
  ls_dev : dev s' = set_dev_log (<[current_offset (redolog s) := mkItem (log_phase (redolog s)) b]>
                                   (dev_log (dev s))) (dev s);
  ls_cursor :
    (has_space s /\ to_run_compact s' = to_run_compact s
      /\ redolog s' = mkLog (log_phase (redolog s)) (log_size (redolog s)) (start_offset (redolog s))
                        (current_offset (redolog s) + LBA_LENGTH))
    \/ (log_phase (redolog s) = redolog_phase (head s) /\ to_run_compact s' = COMPACT_TODO
        /\ exists pos, get_meta_position (head s) REDOLOG OPPOSITE = Done pos
           /\ redolog s' = mkLog (redolog_phase (head s) + 1) (log_size (redolog s)) pos pos)
}.

Inductive op_step : store -> store -> Prop :=
| op_silent s s' :
    same_disk s s' -> view_of s' = view_of s -> store_ok s' -> op_step s s'
| op_logged b s s' :
    room s -> log_step b s s' ->
    redo_view (head s) b (view_of s) = Done (view_of s') ->
    ids (head s) (view_of s') ≡ₚ ids (head s) (view_of s) ->
    store_ok s' -> op_step s s'.

(** ** Writing an item *)
Section Log.
Implicit Types (s : store).

Lemma same_disk_refl s : same_disk s s.
Proof. by split. Qed.

Lemma log_step_same_disk b s s1 s2 : same_disk s s1 -> log_step b s1 s2 -> log_step b s s2.
Proof.
  intros [Eh Ed El Ec Ee] [Lh Le Ld Lc]. rewrite Eh in *. rewrite Ed, El in *. split.
  - done.
  - congruence.
  - done.
  - unfold has_space in *. rewrite El in Lc. destruct Lc as [(? & ? & ?)|(? & ? & ?)].
    + left. splits; [done|congruence|done].
    + right. by splits.
Qed.

Lemma log_step_act b s s' a : log_step b s s' -> log_step b s (act a s').
Proof. intros [? ? ? ?]. by split. Qed.

Lemma same_mem_act s s' a : same_mem s s' -> same_mem s (act a s').
Proof. intros [? ? ? ? ? ?]. by split. Qed.

Lemma get_redolog_pos h w : exists pos, get_meta_position h REDOLOG w = Done pos.
Proof. simpl. destruct (decide _); eauto. Qed.

Lemma log_item_step b s :
  dev_faults (dev s) = [] -> room s ->
  exists s', log_item b s = Done (0, s') /\ log_step b s s' /\ same_mem s s'.
Proof.
  intros Hf Hroom. unfold log_item, write_entry, next_fault. rewrite Hf. cbn [redolog].
  set (s1 := with_log _ _). cbn [redolog with_log current_offset start_offset log_size] in *.
  assert (E : (current_offset (redolog s1) >=? start_offset (redolog s1) + log_size (redolog s1))
              = negb (bool_decide (has_space s))).
  { unfold has_space, s1. simpl. case_bool_decide; rewrite Z.geb_leb; simpl; lia. }
  rewrite E. case_bool_decide as Hs; simpl.
  - eexists. splits; [done| |by split]. split; try done. by left.
  - destruct Hroom as [?|[Hp Hne]]; [done|]. unfold meta_data_compaction_trigger.
    cbn [negb andb]. change (to_run_compact s1) with (to_run_compact s).
    change (COMPACT_TODO =? COMPACT_TODO) with true. cbn [andb].
    destruct (Z.eqb_spec (to_run_compact s) COMPACT_ERROR) as [|_]; [done|].
    cbn [obind]. destruct (get_redolog_pos (head s) OPPOSITE) as [pos Hpos].
    change (head (with_compact COMPACT_TODO s1)) with (head s). rewrite Hpos. cbn [obind negb].
    eexists. splits; [done| |by split]. split; try done. right. splits; [done|done|].
    exists pos. by split.
Qed.

Lemma view_of_same_mem s s' : same_mem s s' -> view_of s' = view_of s.
Proof. intros [? ? ? ? ? ?]. unfold view_of. congruence. Qed.

Lemma store_ok_same s s' : same_mem s s' -> head s' = head s -> store_ok s -> store_ok s'.
Proof.
  intros Hm Eh [H1 H2 H3 H4]. pose proof (view_of_same_mem _ _ Hm) as Ev.
  destruct Hm as [El Ef Et Ep _ _]. split.
  - by rewrite Eh.
  - by rewrite Eh, Ev.
  - by rewrite El, Ep.
  - by rewrite Ep, Ef.
Qed.

Lemma op_act s s' a : op_step s s' -> op_step s (act a s').
Proof.
  intros [? ? Hd Hv Ho|b ? ? Hr Hl Hv Hi Ho].
  - apply op_silent; [by destruct Hd|done|]. by eapply store_ok_same; [| |exact Ho].
  - eapply op_logged; [done|by apply log_step_act|done|done|]. by eapply store_ok_same; [| |exact Ho].
Qed.

(** An in-memory change followed by the log item that describes it. *)
Lemma op_logged_intro b s s1 s2 :
  room s -> same_disk s s1 -> log_step b s1 s2 -> same_mem s1 s2 ->
  redo_view (head s) b (view_of s) = Done (view_of s1) ->
  ids (head s) (view_of s1) ≡ₚ ids (head s) (view_of s) ->
  store_ok s1 -> op_step s s2.
Proof.
  intros Hr Hd Hl Hm Hv Hi Ho. eapply op_logged; [done|by eapply log_step_same_disk| | |].
  - by rewrite (view_of_same_mem _ _ Hm).
  - by rewrite (view_of_same_mem _ _ Hm).
  - eapply store_ok_same; [done| |done]. apply (ls_head _ _ _ Hl).
Qed.

Lemma room_same_disk s s1 : same_disk s s1 -> room s -> room s1.
Proof. intros [Eh _ El Ec _]. unfold room, has_space. by rewrite El, Eh, Ec. Qed.

Lemma entries_strip m : entries (strip_map m) ≡ₚ strip_chain (entries m).
Proof.
  unfold entries, strip_map. rewrite map_to_list_fmap. unfold strip_chain.
  generalize (map_to_list m). intros l. induction l as [|[k c] l IH]; [done|]. csimpl.
  simpl. by rewrite fmap_app, IH.
Qed.

Lemma entries_strip_length m : length (entries (strip_map m)) = length (entries m).
Proof. rewrite entries_strip. apply length_fmap. Qed.

(** The pool is never empty when an entry is needed. *)
Lemma store_pool_room s :
  store_ok s -> Z.of_nat (length (entries (obj_lmt s))) < obj_count (lmt_entry_pool s).
Proof.
  intros [_ Hv _ Hc]. pose proof (entries_bound _ _ Hv) as He. simpl in He.
  rewrite entries_strip_length in He. destruct (vo_free _ _ Hv). simpl in *. lia.
Qed.
End Log.

(** ** The write path *)
Section Write.
Implicit Types (s : store) (io : IoSubTask).

Lemma alloc_object_spec seq st s :
  store_ok s -> is_empty (free_obj_queue s) = false ->
  exists id q a p, dequeue (free_obj_queue s) = Done (Some id, q)
    /\ alloc_object seq st s
       = Done (mkEntry a (obj_id_to_offset (head s) id) seq st [] None None, with_pool p (with_free q s))
    /\ pool_inv p (a :: addrs (entries (obj_lmt s)))
    /\ obj_count p = obj_count (lmt_entry_pool s).
Proof.
  intros Hok He. pose proof (vo_free _ _ (so_view _ Hok)) as Hwf. simpl in Hwf.
  destruct (abs (free_obj_queue s)) as [|id l] eqn:Habs.
  { apply is_empty_nil in Habs; [|done]. congruence. }
  destruct (dequeue_cons _ _ _ Hwf Habs) as (q & Hdq & _).
  destruct (pool_ok_alloc _ _ (so_pool _ Hok) (store_pool_room _ Hok)) as (a & p & Ha & _ & Hinv & Hc).
  exists id, q, a, p. splits; [done| |done|done].
  unfold alloc_object. rewrite Hdq. cbn [obind].
  change (lmt_entry_pool (with_free q s)) with (lmt_entry_pool s). rewrite Ha. done.
Qed.

Lemma strip_default m k : default [] (strip_map m !! k) = strip_chain (default [] (m !! k)).
Proof. rewrite strip_map_lookup. by destruct (m !! k). Qed.

Lemma elem_of_strip c e : e ∈ strip_chain c <-> exists e', e = strip e' /\ e' ∈ c.
Proof. apply list_elem_of_fmap. Qed.

(** The state after the allocation of an object for [key], before the item
    is logged. *)
Lemma alloc_view s key id q a p seq st c :
  store_ok s -> dequeue (free_obj_queue s) = Done (Some id, q) ->
  pool_inv p (a :: addrs (entries (obj_lmt s))) -> obj_count p = obj_count (lmt_entry_pool s) ->
  st = NORMAL \/ st = COPYING ->
  c = default [] (obj_lmt s !! key) -> (forall e, e ∈ c -> snap_seq e < seq) ->
  let x := mkEntry a (obj_id_to_offset (head s) id) seq st [] None None in
  let s1 := with_lmt (<[key := x :: c]> (obj_lmt s)) (with_pool p (with_free q s)) in
  redo_view (head s) (ALLOCATE_OBJ key x (q_head q)) (view_of s) = Done (view_of s1)
  /\ ids (head s) (view_of s1) ≡ₚ ids (head s) (view_of s) /\ store_ok s1.
Proof.
  intros Hok Hdq Hpi Hpc Hst Hc Hnew x s1. destruct Hok as [Hh Hv [_ Hp0] Hcap].
  destruct (view_alloc (head s) Hh (view_of s) key (strip x) id q (strip_chain c)) as (Hr & Hv' & Hi);
    [done|done|done|done|done| | |].
  { simpl. by rewrite strip_default, Hc. }
  { intros e (e' & -> & He')%elem_of_strip. simpl. by apply Hnew. }
  assert (Ev : view_of s1 = mkView (<[key:=strip x :: strip_chain c]> (v_lmt (view_of s))) q (v_trim (view_of s))).
  { unfold view_of, s1. simpl. rewrite strip_map_insert. done. }
  rewrite Ev. splits; [exact Hr|done|]. split.
  - done.
  - change (head s1) with (head s). by rewrite Ev.
  - split; [|simpl; lia]. simpl. eapply pool_inv_perm; [|exact Hpi]. unfold addrs.
    rewrite entries_insert. csimpl. subst c. destruct (obj_lmt s !! key) as [c|] eqn:Hk; simpl.
    + by rewrite (entries_lookup _ _ _ Hk).
    + by rewrite entries_delete_None.
  - simpl. rewrite Hpc, Hcap. pose proof (dequeue_set_head _ _ _ Hdq) as E. rewrite E. done.
Qed.

(** Changes of volatile fields of entries only. *)
Lemma volatile_facts s key c c' :
  store_ok s -> obj_lmt s !! key = Some c -> strip_chain c' = strip_chain c -> addrs c' = addrs c ->
  let s' := with_lmt (<[key := c']> (obj_lmt s)) s in
  same_disk s s' /\ view_of s' = view_of s /\ store_ok s'.
Proof.
  intros [Hh Hv Hp Hcap] Hk Hs Ha s'.
  assert (Ev : view_of s' = view_of s).
  { unfold view_of. simpl. f_equal. rewrite strip_map_insert, Hs. apply insert_id.
    rewrite strip_map_lookup, Hk. done. }
  splits; [by split|done|]. split; [done|by rewrite Ev| |done]. simpl. by eapply pool_ok_replace.
Qed.

Lemma op_step_ok s s' : op_step s s' -> store_ok s'.
Proof. by destruct 1. Qed.

(** A step may be followed by such a change. *)
Lemma op_step_silent s s1 s2 :
  op_step s s1 -> same_disk s1 s2 -> view_of s2 = view_of s1 -> store_ok s2 -> op_step s s2.
Proof.
  intros Hop Hd2 Ev Ho. destruct Hop as [s s1 Hd1 Ev1 _|b s s1 Hr Hl Hrv Hi _].
  - apply op_silent; [by destruct Hd1, Hd2; split; congruence|congruence|done].
  - eapply op_logged; [done| |by rewrite Ev|by rewrite Ev|done].
    destruct Hl as [? ? ? Hc], Hd2. split; try congruence.
    destruct Hc as [(? & ? & ?)|(? & ? & pos & ? & ?)].
    + left. splits; [done|congruence|congruence].
    + right. splits; [done|congruence|]. exists pos. split; [done|congruence].
Qed.

Lemma chain_settled s key c e : store_ok s -> obj_lmt s !! key = Some c -> e ∈ c -> settled e.
Proof.
  intros Hok Hk He. apply (vo_status _ _ (so_view _ Hok) (strip e)). simpl.
  rewrite entries_strip. apply list_elem_of_fmap_2. by apply (elem_of_entries _ key c).
Qed.

Lemma op_refl s : store_ok s -> op_step s s.
Proof. intros. by apply op_silent. Qed.

Lemma chain_not_empty s key : store_ok s -> obj_lmt s !! key <> Some [].
Proof.
  intros Hok E. apply (vo_ne _ _ (so_view _ Hok) key). simpl. by rewrite strip_map_lookup, E.
Qed.

Lemma descending_strip c : descending (strip_chain c) -> descending c.
Proof.
  unfold strip_chain, descending. induction c as [|e c IH]; [constructor|]. csimpl.
  intros H. inversion H as [|? ? Hd Hall]; subst. constructor; [by apply IH|].
  rewrite Forall_forall in *. intros x Hx. apply (Hall (strip x)). by apply list_elem_of_fmap_2.
Qed.

Lemma chain_desc s key c : store_ok s -> obj_lmt s !! key = Some c -> descending c.
Proof.
  intros Hok Hk. apply descending_strip, (vo_desc _ _ (so_view _ Hok) key).
  simpl. by rewrite strip_map_lookup, Hk.
Qed.

(** Allocation of an object for [key] and its log item, as one step. *)
Lemma alloc_and_log s key seq st c :
  store_ok s -> dev_faults (dev s) = [] -> room s -> is_empty (free_obj_queue s) = false ->
  st = NORMAL \/ st = COPYING ->
  c = default [] (obj_lmt s !! key) -> (forall e, e ∈ c -> snap_seq e < seq) ->
  exists x s0 s2, alloc_object seq st s = Done (x, s0) /\ obj_lmt s0 = obj_lmt s
    /\ log_allocation key x (q_head (free_obj_queue s0)) (with_lmt (<[key := x :: c]> (obj_lmt s0)) s0) = Done (0, s2)
    /\ op_step s s2 /\ obj_lmt s2 = <[key := x :: c]> (obj_lmt s)
    /\ snap_seq x = seq /\ status x = st /\ waiting_io x = []
    /\ in_obj_offset_mask s2 = in_obj_offset_mask s /\ use_scc s2 = use_scc s.
Proof.
  intros Hok Hf Hr He Hst Hc Hnew.
  destruct (alloc_object_spec seq st s Hok He) as (id & q & a & p & Hdq & Ha & Hpi & Hpc).
  destruct (alloc_view s key id q a p seq st c Hok Hdq Hpi Hpc Hst Hc Hnew) as (Hrv & Hi & Hok1).
  set (x := mkEntry a _ _ _ _ _ _) in *. set (s1 := with_lmt _ _) in *.
  assert (Hd : same_disk s s1) by (by split).
  destruct (log_item_step (ALLOCATE_OBJ key x (q_head q)) s1) as (s2 & Hl & Hls & Hsm);
    [done|by eapply room_same_disk|].
  exists x, (with_pool p (with_free q s)), s2. splits; try done.
  - by eapply op_logged_intro.
  - apply (sm_lmt _ _ Hsm).
  - apply (sm_mask _ _ Hsm).
  - apply (sm_scc _ _ Hsm).
Qed.

Lemma older_than_head s key e c seq :
  store_ok s -> obj_lmt s !! key = Some (e :: c) -> snap_seq e < seq ->
  forall y, y ∈ e :: c -> snap_seq y < seq.
Proof.
  intros Hok Hk Hlt y Hy. assert (Hdesc := chain_desc _ _ _ Hok Hk).
  inversion Hdesc as [|? ? _ Hall]; subst. apply elem_of_cons in Hy as [->|Hy]; [done|].
  rewrite Forall_forall in Hall. specialize (Hall y Hy). unfold newer in Hall. lia.
Qed.

(** No entry is removed or moved in memory. *)
Definition grows (s s' : store) : Prop :=
  forall k c, obj_lmt s !! k = Some c -> exists c', obj_lmt s' !! k = Some c' /\ addrs c ⊆ addrs c'.

Lemma grows_same s s' : obj_lmt s' = obj_lmt s -> grows s s'.
Proof. intros E k c Hk. exists c. by rewrite E. Qed.

Lemma grows_trans s1 s2 s3 : grows s1 s2 -> grows s2 s3 -> grows s1 s3.
Proof.
  intros H1 H2 k c Hk. destruct (H1 k c Hk) as (c1 & Hk1 & Hs1). destruct (H2 k c1 Hk1) as (c2 & Hk2 & Hs2).
  exists c2. split; [done|]. by etrans.
Qed.

Lemma grows_insert s s' key c c' :
  obj_lmt s' = <[key := c']> (obj_lmt s) -> default [] (obj_lmt s !! key) = c -> addrs c ⊆ addrs c' -> grows s s'.
Proof.
  intros E Hc Hsub k c0 Hk. rewrite E. destruct (decide (key = k)) as [<-|Hne].
  - exists c'. rewrite lookup_insert_eq. split; [done|]. rewrite Hk in Hc. simpl in Hc. by rewrite Hc.
  - exists c0. by rewrite lookup_insert_ne.
Qed.

(** [do_write] returns, as one step, whenever the log can take an item. *)
Lemma do_write_op io s :
  store_ok s -> dev_faults (dev s) = [] -> room s ->
  exists rc s', do_write io s = Done (rc, s') /\ op_step s s' /\ grows s s'.
Proof.
  intros Hok Hf Hr. unfold do_write.
  destruct (obj_lmt s !! io_key s io) as [[|e c]|] eqn:Hk.
  - by apply chain_not_empty in Hk.
  - assert (Hw : settled e) by (eapply chain_settled; [done|done|left]).
    destruct (decide (status e = RECOVERYING)) as [E|_].
    { unfold settled in Hw. rewrite E in Hw. by destruct Hw. }
    destruct (Z.eqb_spec (cmd_snap_seq io) (snap_seq e)) as [_|Hne].
    + destruct (decide (status e = NORMAL)).
      { eexists _, _. splits; [done|by apply op_act, op_refl|by apply grows_same]. }
      destruct (decide (status e = COPYING)); [|by destruct Hw].
      destruct (volatile_facts s (io_key s io) (e :: c)
        (set_waiting (io :: waiting_io e) e :: c) Hok Hk) as (? & ? & ?); [done|done|].
      eexists _, _. splits; [done|by apply op_silent|].
      by eapply (grows_insert _ _ _ (e :: c)); [done|by rewrite Hk|].
    + destruct (Z.ltb_spec (cmd_snap_seq io) (snap_seq e)).
      { eexists _, _. splits; [done|by apply op_act, op_refl|by apply grows_same]. }
      destruct (is_empty (free_obj_queue s)) eqn:He.
      { eexists _, _. splits; [done|by apply op_act, op_refl|by apply grows_same]. }
      destruct (alloc_and_log s (io_key s io) (cmd_snap_seq io) COPYING (e :: c) Hok Hf Hr He)
        as (x & s0 & s2 & -> & Hl0 & Hlog & Hop & Hl2 & _ & _ & _ & _ & _);
        [by right|by rewrite Hk|eapply older_than_head; [done|done|lia]|].
      cbn [obind]. simpl free_obj_queue. rewrite Hlog. cbn [obind].
      change (negb (0 =? 0)) with false. cbn iota.
      destruct (volatile_facts s2 (io_key s io) (x :: e :: c) (set_waiting [io] x :: e :: c)
        (op_step_ok _ _ Hop)) as (? & ? & ?); [rewrite Hl2; apply lookup_insert_eq|done|done|].
      eexists _, _. splits; [done|by apply op_act; eapply op_step_silent|].
      eapply (grows_insert _ _ _ (e :: c)); [simpl; rewrite Hl2; apply insert_insert_eq|by rewrite Hk|].
      intros y Hy. by right.
  - destruct (is_empty (free_obj_queue s)) eqn:He.
    { eexists _, _. splits; [done|by apply op_act, op_refl|by apply grows_same]. }
    destruct (alloc_and_log s (io_key s io) (cmd_snap_seq io) NORMAL [] Hok Hf Hr He)
      as (x & s0 & s2 & -> & Hl0 & Hlog & Hop & Hl2 & _ & _ & _ & _ & _);
      [by left|by rewrite Hk|by intros y Hy%elem_of_nil|].
    cbn [obind]. simpl free_obj_queue. rewrite Hlog. cbn [obind].
    change (negb (0 =? 0)) with false. cbn iota.
    eexists _, _. splits; [done|by apply op_act|]. eapply (grows_insert _ _ _ []); [by simpl; rewrite Hl2|by rewrite Hk|].
    by intros y Hy%elem_of_nil.
Qed.
End Write.

(** ** Trimming and deletion *)
Section Delete.
Implicit Types (s : store) (c : chain) (e : lmt_entry).

Lemma log_step_then b s s1 s2 : log_step b s s1 -> same_disk s1 s2 -> log_step b s s2.
Proof.
  intros [? ? ? Hc] [? ? ? ? ?]. split; try congruence.
  destruct Hc as [(? & ? & ?)|(? & ? & pos & ? & ?)].
  - left. splits; [done|congruence|congruence].
  - right. splits; [done|congruence|]. exists pos. split; [done|congruence].
Qed.

Lemma trim_step_op s :
  store_ok s -> dev_faults (dev s) = [] -> room s ->
  (abs (trim_obj_queue s) = [] /\ trim_step s = Done (- ENOENT, s))
  \/ (exists id s', trim_step s = Done (0, s') /\ op_step s s'
      /\ abs (trim_obj_queue s) = id :: abs (trim_obj_queue s')
      /\ abs (free_obj_queue s') = abs (free_obj_queue s) ++ [id]).
Proof.
  intros Hok Hf Hr. pose proof (vo_trim _ _ (so_view _ Hok)) as Hwt. simpl in Hwt.
  pose proof (vo_free _ _ (so_view _ Hok)) as Hwf. simpl in Hwf. unfold trim_step.
  destruct (abs (trim_obj_queue s)) as [|id l] eqn:Habs.
  { left. split; [done|]. apply is_empty_nil in Habs; [|done]. by rewrite Habs. }
  right. destruct (is_empty (trim_obj_queue s)) eqn:He.
  { apply is_empty_nil in He; [|done]. congruence. }
  destruct (dequeue_cons _ _ _ Hwt Habs) as (tq & Hdq & _ & Habs' & _). rewrite Hdq. cbn [obind].
  destruct (view_free (head s) (view_of s) id tq (so_view _ Hok) Hdq) as (fq & Henq & Hrv & Hvo & Hi).
  simpl in Henq. change (free_obj_queue (with_trim tq s)) with (free_obj_queue s). rewrite Henq. cbn [obind].
  set (s1 := with_free fq (with_trim tq s)).
  assert (Hd : same_disk s s1) by (by split).
  destruct (log_item_step (FREE_OBJ id (q_head tq) (q_tail fq)) s1) as (s2 & Hl & Hls & Hsm);
    [done|by eapply room_same_disk|].
  exists id, s2. splits; [exact Hl| | |].
  - eapply op_logged_intro; try done. split; [apply Hok|done|apply Hok|]. simpl.
    by rewrite (so_cap _ Hok), (enqueue_depth _ _ _ _ Henq).
  - rewrite (sm_trim _ _ Hsm). simpl. by rewrite Habs'.
  - rewrite (sm_free _ _ Hsm). by apply enqueue_abs.
Qed.

Lemma nodup_addrs s : store_ok s -> NoDup (addrs (entries (obj_lmt s))).
Proof.
  intros Hok. destruct (so_pool _ Hok) as [[_ _ Hp] _].
  assert (Hnd : NoDup (seqZ 0 (obj_count (lmt_entry_pool s)))) by apply NoDup_seqZ.
  rewrite <- Hp in Hnd. by apply NoDup_app in Hnd as (_ & _ & ?).
Qed.

Lemma nodup_addrs_chain s key c : store_ok s -> obj_lmt s !! key = Some c -> NoDup (addrs c).
Proof.
  intros Hok Hk. pose proof (nodup_addrs s Hok) as Hnd. rewrite (addrs_entries_lookup _ _ _ Hk) in Hnd.
  by apply NoDup_app in Hnd as (? & _).
Qed.

Lemma nodup_offs_chain s key c : store_ok s -> obj_lmt s !! key = Some c -> NoDup (offset <$> c).
Proof.
  intros Hok Hk. pose proof (nodup_offsets_chain _ _ key (strip_chain c) (so_view _ Hok)) as Hnd.
  simpl in Hnd. rewrite strip_map_lookup, Hk in Hnd. specialize (Hnd eq_refl).
  unfold strip_chain in Hnd. rewrite <- list_fmap_compose in Hnd. exact Hnd.
Qed.

Lemma nodup_fmap_eq {A : Type} (f : A -> Z) (l : list A) x y :
  NoDup (f <$> l) -> x ∈ l -> y ∈ l -> f x = f y -> x = y.
Proof.
  induction l as [|z l IH]; intros Hnd Hx Hy E; [by apply elem_of_nil in Hx|].
  csimpl in Hnd. apply NoDup_cons in Hnd as [Hz Hnd].
  apply elem_of_cons in Hx as [->|Hx]; apply elem_of_cons in Hy as [->|Hy]; try done.
  - destruct Hz. rewrite E. by apply list_elem_of_fmap_2.
  - destruct Hz. rewrite <- E. by apply list_elem_of_fmap_2.
  - by apply IH.
Qed.

Lemma filter_ext_in (f g : lmt_entry -> bool) c :
  (forall x, x ∈ c -> f x = g x) -> List.filter f c = List.filter g c.
Proof. intros H. apply List.filter_ext_in. intros x Hx. by apply H, list_elem_of_In. Qed.

(** An entry of a chain is identified by its address as by its offset. *)
Lemma addr_offset s key c e x :
  store_ok s -> obj_lmt s !! key = Some c -> e ∈ c -> x ∈ c ->
  (e_addr x =? e_addr e) = (offset x =? offset e).
Proof.
  intros Hok Hk He Hx. destruct (Z.eqb_spec (e_addr x) (e_addr e)) as [E|N].
  - assert (x = e) as ->. { by eapply (nodup_fmap_eq e_addr c); [eapply nodup_addrs_chain| | |]. }
    by rewrite Z.eqb_refl.
  - symmetry. apply Z.eqb_neq. intros E. apply N.
    assert (x = e) as ->; [|done]. by eapply (nodup_fmap_eq offset c); [eapply nodup_offs_chain| | |].
Qed.

Lemma filter_single (f : lmt_entry -> bool) c e :
  e ∈ c -> NoDup c -> (forall x, x ∈ c -> f x = true <-> x = e) -> List.filter f c = [e].
Proof.
  intros He Hnd Hf. apply list_elem_of_split in He as (c1 & c2 & ->).
  apply NoDup_app in Hnd as (_ & Hd1 & Hnd). apply NoDup_cons in Hnd as [Hn2 _].
  assert (forall l, (forall x, x ∈ l -> x ∈ c1 ++ e :: c2 /\ x <> e) -> List.filter f l = []) as Hnil.
  { induction l as [|y l IH]; intros Hl; [done|]. simpl. destruct (Hl y) as [Hy Hne]; [left|].
    destruct (f y) eqn:E; [by apply Hf in E|]. apply IH. intros z Hz. apply Hl. by right. }
  rewrite List.filter_app. simpl. rewrite (proj2 (Hf e ltac:(set_solver)) eq_refl).
  rewrite !Hnil; [done| |].
  - intros x Hx. split; [set_solver|]. by intros ->.
  - intros x Hx. split; [set_solver|]. intros ->. apply (Hd1 e); [done|left].
Qed.

Lemma chain_nodup s key c : store_ok s -> obj_lmt s !! key = Some c -> NoDup c.
Proof. intros Hok Hk. apply (NoDup_fmap_1 e_addr). by eapply nodup_addrs_chain. Qed.

Lemma filter_offset_single s key c e :
  store_ok s -> obj_lmt s !! key = Some c -> e ∈ c -> List.filter (fun x => offset x =? offset e) c = [e].
Proof.
  intros Hok Hk He. apply filter_single; [done|by eapply chain_nodup|].
  intros x Hx. rewrite Z.eqb_eq. split; [|by intros ->].
  intros E. by eapply (nodup_fmap_eq offset c); [eapply nodup_offs_chain| | |].
Qed.

Lemma pool_free_entry s key c e :
  store_ok s -> obj_lmt s !! key = Some c -> e ∈ c ->
  exists p, pool_free (e_addr e) (lmt_entry_pool s) = Done p
    /\ pool_ok (put_chain key (List.filter (fun x => negb (offset x =? offset e)) c) (obj_lmt s)) p
    /\ obj_count p = obj_count (lmt_entry_pool s).
Proof.
  intros Hok Hk He.
  destruct (pool_ok_delete _ _ _ _ (fun x => offset x =? offset e) Hk (so_pool _ Hok)) as (p & Hpf & Hpok & Hpc).
  rewrite (filter_offset_single s key c e) in Hpf by done. cbn [pool_free_all] in Hpf.
  destruct (pool_free (e_addr e) (lmt_entry_pool s)) as [p'| |] eqn:E; try discriminate Hpf.
  cbn [obind] in Hpf. simplify_eq. by exists p.
Qed.

(** What [free_object] does, from the state in which the entry is
    unlinked (its chain may be empty and still in the map). *)
Lemma free_object_spec s key c e :
  store_ok s -> dev_faults (dev s) = [] -> room s -> obj_lmt s !! key = Some c -> e ∈ c ->
  let c' := List.filter (fun x => negb (offset x =? offset e)) c in
  exists tq p s2, enqueue (i32 (entry_id (head s) e)) (trim_obj_queue s) = Done (0, tq)
    /\ free_object key e (with_lmt (<[key := c']> (obj_lmt s)) s) = Done (with_pool p s2)
    /\ log_step (TRIM_OBJ key e (q_tail tq)) s s2
    /\ obj_lmt s2 = <[key := c']> (obj_lmt s) /\ free_obj_queue s2 = free_obj_queue s
    /\ trim_obj_queue s2 = tq /\ pool_ok (put_chain key c' (obj_lmt s)) p
    /\ obj_count p = obj_count (lmt_entry_pool s).
Proof.
  intros Hok Hf Hr Hk He c'.
  destruct (view_trim (head s) (view_of s) key (strip_chain c) (strip e) (so_view _ Hok))
    as (tq & Henq & _).
  { simpl. by rewrite strip_map_lookup, Hk. } { apply elem_of_strip. eauto. }
  change (enqueue (i32 (entry_id (head s) e)) (trim_obj_queue s) = Done (0, tq)) in Henq.
  destruct (pool_free_entry s key c e Hok Hk He) as (p & Hpf & Hpok & Hpc).
  set (s1 := with_trim tq (with_lmt (<[key:=c']> (obj_lmt s)) s)).
  assert (Hd : same_disk s s1) by (by split).
  destruct (log_item_step (TRIM_OBJ key e (q_tail tq)) s1) as (s2 & Hl & Hls & Hsm);
    [done|by eapply room_same_disk|].
  exists tq, p, s2. splits; try done.
  - unfold free_object.
    change (enqueue _ (trim_obj_queue (with_lmt (<[key:=c']> (obj_lmt s)) s)))
      with (enqueue (i32 (entry_id (head s) e)) (trim_obj_queue s)). rewrite Henq. cbn [obind].
    fold s1. change (log_trim key e (q_tail (trim_obj_queue s1)) s1) with (log_item (TRIM_OBJ key e (q_tail tq)) s1).
    rewrite Hl. cbn [obind]. rewrite (sm_pool _ _ Hsm).
    change (lmt_entry_pool s1) with (lmt_entry_pool s). by rewrite Hpf.
  - by eapply log_step_same_disk.
  - apply (sm_lmt _ _ Hsm).
  - apply (sm_free _ _ Hsm).
  - apply (sm_trim _ _ Hsm).
Qed.

(** Deleting the one entry of a block that matches. *)
Lemma delete_matched_op s key c e m :
  store_ok s -> dev_faults (dev s) = [] -> room s ->
  obj_lmt s !! key = Some c -> e ∈ c -> (forall x, x ∈ c -> m x = true <-> x = e) ->
  exists s', delete_matched key m s = Done (0, s') /\ op_step s s'
    /\ obj_lmt s' = put_chain key (List.filter (fun x => negb (offset x =? offset e)) c) (obj_lmt s)
    /\ abs (trim_obj_queue s') = abs (trim_obj_queue s) ++ [i32 (entry_id (head s) e)].
Proof.
  intros Hok Hf Hr Hk He Hm. unfold delete_matched. rewrite Hk.
  rewrite (filter_single m c e He (chain_nodup _ _ _ Hok Hk) Hm). cbn [free_matched]. rewrite Hk. simpl default.
  rewrite (filter_ext_in (fun x => negb (e_addr x =? e_addr e)) (fun x => negb (offset x =? offset e)) c)
    by (intros x Hx; by rewrite (addr_offset s key c e x)).
  destruct (free_object_spec s key c e Hok Hf Hr Hk He) as (tq & p & s2 & Henq & -> & Hls & Hl2 & Hf2 & Ht2 & Hpok & Hpc).
  set (c' := List.filter (fun x => negb (offset x =? offset e)) c) in *. cbn [obind].
  change (obj_lmt (with_pool p s2)) with (obj_lmt s2). rewrite Hl2, lookup_insert_eq.
  eexists. split; [done|]. set (s4 := match c' with [] => _ | _ :: _ => with_pool p s2 end).
  assert (Hl4 : obj_lmt s4 = put_chain key c' (obj_lmt s)).
  { unfold s4, put_chain. destruct c'; [|done]. simpl. apply delete_insert_eq. }
  assert (Hd4 : same_disk s2 s4) by (unfold s4; destruct c'; by split).
  assert (free_obj_queue s4 = free_obj_queue s /\ trim_obj_queue s4 = tq /\ lmt_entry_pool s4 = p)
    as (Hq1 & Hq2 & Hq3) by (unfold s4; by destruct c').
  destruct (view_trim (head s) (view_of s) key (strip_chain c) (strip e) (so_view _ Hok))
    as (tq' & Henq' & Hrv & Hvo & Hi).
  { simpl. by rewrite strip_map_lookup, Hk. } { apply elem_of_strip. eauto. }
  change (enqueue (i32 (entry_id (head s) e)) (trim_obj_queue s) = Done (0, tq')) in Henq'.
  rewrite Henq in Henq'. injection Henq' as <-.
  assert (Hv4 : view_of s4 = mkView (put_chain key (List.filter (fun x => negb (offset x =? offset (strip e)))
                   (strip_chain c)) (v_lmt (view_of s))) (v_free (view_of s)) tq).
  { unfold view_of. rewrite Hl4, Hq1, Hq2. simpl. f_equal. rewrite strip_map_put. by rewrite strip_filter. }
  splits; [|done|].
  - eapply (op_logged (TRIM_OBJ key e (q_tail tq))); [done|by eapply log_step_then| | |].
    + rewrite Hv4. exact Hrv.
    + by rewrite Hv4.
    + assert (Eh : head s4 = head s) by (rewrite (sd_head _ _ Hd4); apply (ls_head _ _ _ Hls)).
      split; [rewrite Eh; apply Hok|by rewrite Eh, Hv4|by rewrite Hl4, Hq3|].
      rewrite Hq3, Hq1, Hpc. apply Hok.
  - rewrite Hq2. apply enqueue_abs; [apply (vo_trim _ _ (so_view _ Hok))|done].
Qed.
End Delete.

(** ** Changing an entry in place *)
Section Update.
Implicit Types (s : store) (c : chain) (e : lmt_entry).

Definition update_addr (a : Z) (f : lmt_entry -> lmt_entry) (c : chain) : chain :=
  (fun e => if e_addr e =? a then f e else e) <$> c.

(** The change by address is the change by offset that the log replays. *)
Lemma update_addr_at s key c e f g :
  store_ok s -> obj_lmt s !! key = Some c -> e ∈ c -> g (strip e) = strip (f e) ->
  strip_chain (update_addr (e_addr e) f c) = update_at (offset e) g (strip_chain c).
Proof.
  intros Hok Hk He Hg. pose proof (nodup_offs_chain _ _ _ Hok Hk) as Hnd.
  rewrite update_at_map.
  2:{ unfold strip_chain. rewrite <- list_fmap_compose. exact Hnd. }
  unfold strip_chain, update_addr. rewrite <- !list_fmap_compose. apply list_fmap_ext.
  intros i x Hx. unfold compose. apply list_elem_of_lookup_2 in Hx.
  change (offset (strip x)) with (offset x). rewrite (addr_offset s key c e x) by done.
  destruct (Z.eqb_spec (offset x) (offset e)) as [E|]; [|done].
  assert (x = e) as -> by (by eapply (nodup_fmap_eq offset c)). done.
Qed.

Lemma update_addr_addrs a f c : (forall x, e_addr (f x) = e_addr x) -> addrs (update_addr a f c) = addrs c.
Proof.
  intros Hf. unfold addrs, update_addr. rewrite <- list_fmap_compose. apply list_fmap_ext.
  intros i x _. unfold compose. by destruct (e_addr x =? a).
Qed.

Lemma update_entry_spec s key c a f :
  obj_lmt s !! key = Some c ->
  update_entry key a f s = with_lmt (<[key := update_addr a f c]> (obj_lmt s)) s.
Proof. intros Hk. unfold update_entry. by rewrite Hk. Qed.

(** An in-place change and the item that describes it, as one step. *)
Lemma update_logged s key c e f g b :
  store_ok s -> dev_faults (dev s) = [] -> room s ->
  obj_lmt s !! key = Some c -> e ∈ c ->
  (forall x, offset (g x) = offset x) -> (forall x, e_addr (f x) = e_addr x) -> g (strip e) = strip (f e) ->
  (forall x, settled x -> settled (g x)) ->
  descending (update_at (offset e) g (strip_chain c)) ->
  redo_view (head s) b (view_of s)
    = Done (mkView (<[key := update_at (offset e) g (strip_chain c)]> (v_lmt (view_of s)))
              (v_free (view_of s)) (v_trim (view_of s))) ->
  exists s', log_item b (update_entry key (e_addr e) f s) = Done (0, s') /\ op_step s s'
    /\ obj_lmt s' = <[key := update_addr (e_addr e) f c]> (obj_lmt s)
    /\ free_obj_queue s' = free_obj_queue s /\ trim_obj_queue s' = trim_obj_queue s.
Proof.
  intros Hok Hf Hr Hk He Hgo Hfa Hg Hset Hdesc Hrv. rewrite (update_entry_spec s key c) by done.
  set (s1 := with_lmt _ s). assert (Hd : same_disk s s1) by (by split).
  destruct (log_item_step b s1) as (s2 & Hl & Hls & Hsm); [done|by eapply room_same_disk|].
  assert (Hk' : v_lmt (view_of s) !! key = Some (strip_chain c)) by (simpl; by rewrite strip_map_lookup, Hk).
  destruct (view_update (head s) (view_of s) key (strip_chain c) (offset e) g (so_view _ Hok) Hk' Hgo Hset Hdesc)
    as [Hvo Hi].
  assert (Ev : view_of s1 = mkView (<[key := update_at (offset e) g (strip_chain c)]> (v_lmt (view_of s)))
              (v_free (view_of s)) (v_trim (view_of s))).
  { unfold view_of, s1. simpl. by rewrite strip_map_insert, (update_addr_at s key c e f g). }
  exists s2. splits; [done| |apply (sm_lmt _ _ Hsm)|apply (sm_free _ _ Hsm)|apply (sm_trim _ _ Hsm)].
  eapply op_logged_intro; [done..| | |].
  - by rewrite Ev.
  - by rewrite Ev.
  - split; [apply Hok|by rewrite Ev| |apply Hok]. simpl.
    eapply pool_ok_replace; [done| |apply Hok]. by apply update_addr_addrs.
Qed.

(** [change_seq]: the sequences stay ordered when the new one fits. *)
Lemma change_seq_op s key c e q :
  store_ok s -> dev_faults (dev s) = [] -> room s -> obj_lmt s !! key = Some c -> e ∈ c ->
  descending (update_at (offset e) (set_seq q) (strip_chain c)) ->
  exists s', change_seq key e q s = Done (0, s') /\ op_step s s'
    /\ obj_lmt s' = <[key := update_addr (e_addr e) (set_seq q) c]> (obj_lmt s).
Proof.
  intros Hok Hf Hr Hk He Hd.
  set (g := fun x => if snap_seq x =? snap_seq e then set_seq q x else x).
  assert (Eg : update_at (offset e) g (strip_chain c) = update_at (offset e) (set_seq q) (strip_chain c)).
  { rewrite <- (update_addr_at s key c e (set_seq q) g), <- (update_addr_at s key c e (set_seq q) (set_seq q));
      try done. unfold g. simpl. by rewrite Z.eqb_refl. }
  destruct (update_logged s key c e (set_seq q) g (SNAP_SEQ_CHANGE key (set_seq q e) (snap_seq e)))
    as (s' & Hl & Hop & Hl' & _); try done.
  - intros x. unfold g. by destruct (_ =? _).
  - unfold g. simpl. by rewrite Z.eqb_refl.
  - intros x. unfold g. by destruct (_ =? _).
  - by rewrite Eg.
  - simpl. by rewrite strip_map_lookup, Hk.
  - exists s'. splits; [|done|done]. unfold change_seq.
    change (log_snap_seq_change key (set_seq q e) (snap_seq e)) with (log_item (SNAP_SEQ_CHANGE key (set_seq q e) (snap_seq e))).
    rewrite Hl. done.
Qed.

Lemma descending_seqs c c' : (snap_seq <$> c') = (snap_seq <$> c) -> descending c -> descending c'.
Proof.
  unfold descending. revert c'. induction c as [|e c IH]; intros [|e' c'] E Hd; csimpl in E; try done.
  injection E as E1 E2. inversion Hd as [|? ? Hd2 Hall]; subst. constructor; [by apply IH|].
  rewrite Forall_forall in *. intros x Hx. unfold newer in *. rewrite E1.
  apply (list_elem_of_fmap_2 snap_seq) in Hx. rewrite E2 in Hx.
  apply list_elem_of_fmap in Hx as (y & -> & Hy). by apply Hall.
Qed.

Lemma update_at_seqs off f c :
  (forall x, snap_seq (f x) = snap_seq x) -> (snap_seq <$> update_at off f c) = (snap_seq <$> c).
Proof.
  intros Hf. induction c as [|e c IH]; [done|]. cbn [update_at].
  destruct (offset e =? off); csimpl; by rewrite ?Hf, ?IH.
Qed.

(** The change of the status at the end of a copy. *)
Lemma status_op s key c e st :
  store_ok s -> dev_faults (dev s) = [] -> room s -> obj_lmt s !! key = Some c -> e ∈ c ->
  st = NORMAL \/ st = COPYING ->
  exists s', log_status_change key (set_status st e) (status e) (update_entry key (e_addr e) (set_status st) s)
             = Done (0, s') /\ op_step s s'
    /\ obj_lmt s' = <[key := update_addr (e_addr e) (set_status st) c]> (obj_lmt s)
    /\ free_obj_queue s' = free_obj_queue s /\ trim_obj_queue s' = trim_obj_queue s.
Proof.
  intros Hok Hf Hr Hk He Hst.
  set (g := fun x => if decide (status x = status e) then set_status st x else x).
  destruct (update_logged s key c e (set_status st) g (STATUS_CHANGE key (set_status st e) (status e)))
    as (s' & Hl & Hop & Hl' & Hq & Ht); try done.
  - intros x. unfold g. by destruct (decide _).
  - unfold g. simpl. by rewrite decide_True.
  - intros x Hx. unfold g. by destruct (decide _).
  - apply (descending_seqs (strip_chain c)).
    + apply update_at_seqs. intros x. unfold g. by destruct (decide _).
    + apply (vo_desc _ _ (so_view _ Hok) key). simpl. by rewrite strip_map_lookup, Hk.
  - simpl. by rewrite strip_map_lookup, Hk.
  - by exists s'.
Qed.
End Update.
