(* ===== verification/Boot.v ===== *)
(** * Loading, checking and compacting the metadata

    Model of [load_meta_data], [post_load_fix], [post_load_check],
    [start_metadata_service], [read_store_head], [initialize_store_head],
    [compact_tool_init] and [compact_meta_data] of
    src/pfs/src/pf_flash_store.cpp and of the thread of
    src/pfs/src/pf_redolog.cpp that runs the compaction. *)

From Stdlib Require Import ZArith Lia.
From stdpp Require Import base tactics list numbers sets gmap.
From S2P Require Import Prelude FixedQueue MemPool Bitmap Ids Lmt Store RedoLog StoreOps.

(** ** Loading *)

(** Gives each saved entry a node of the pool.  The pointers a saved entry
    held in the process that wrote it are not carried over. *)
Fixpoint alloc_chain (c : chain) (p : lmt_pool) : outcome (chain * lmt_pool) :=
  match c with
  | [] => Done ([], p)
  | e :: c =>
      let* (a, p) := pool_alloc p in
      let* a := of_option a in
      let* (c, p) := alloc_chain c p in
      Done (mkEntry a (offset e) (snap_seq e) (status e) [] None None :: c, p)
  end.

(** The loop over the saved keys: entries in recovery are dropped. *)
Fixpoint load_keys (l : list (lmt_key * chain)) (s : store) : outcome store :=
  match l with
  | [] => Done s
  | (k, c) :: l =>
      let* (c, p) := alloc_chain c (lmt_entry_pool s) in
      let (kept, freed) := chain_delete (fun e => bool_decide (status e = RECOVERYING)) c in
      let* p := pool_free_all freed p in
      let s := with_pool p s in
      let s := match kept with
               | [] => s
               | _ => with_lmt (<[k := kept]> (obj_lmt s)) s
               end in
      load_keys l s
  end.

(** [load_meta_data]; the checksum of the zone is computed and a mismatch
    logged, with no other effect. *)
Definition load_meta_data (md_zone : Z) (compaction : bool) (s : store) : outcome (Z * store) :=
  let (f, s) := next_fault s in
  match f with
  | Some errno => Done (- errno, s)
  | None =>
      let* im := of_option (dev_md (dev s) !! md_zone) in
      let s := with_trim (im_trim im) (with_free (im_free im) s) in
      let* s :=
        if compaction then Done s
        else
          let* (_, p) := pool_init 0 true true (i32 (q_depth (free_obj_queue s) * 2)) empty_queue in
          Done (with_pool p s) in
      let* s := load_keys (map_to_list (im_lmt im)) s in
      Done (0, s)
  end.

(** The loop of [post_load_fix] over the keys of the map. *)
Definition unfinished (e : lmt_entry) : bool :=
  bool_decide (status e = COPYING) || bool_decide (status e = RECOVERYING).

Fixpoint fix_keys (l : list (lmt_key * chain)) (s : store) : outcome store :=
  match l with
  | [] => Done s
  | (k, c) :: l =>
      let (kept, freed) := chain_delete unfinished c in
      let* p := pool_free_all freed (lmt_entry_pool s) in
      fix_keys l (with_pool p (with_lmt (put_chain k kept (obj_lmt s)) s))
  end.

Definition post_load_fix (s : store) : outcome store := fix_keys (map_to_list (obj_lmt s)) s.

(** The inner loop of [post_load_check]: each entry against the one before. *)
Fixpoint check_chain (last_off last_snap : Z) (c : chain) : nat :=
  match c with
  | [] => 0
  | e :: c =>
      (if (snap_seq e =? last_snap) || (offset e =? last_off) then 1 else 0)
      + check_chain (offset e) (snap_seq e) c
  end.

Definition check_errors (c : chain) : nat :=
  match c with
  | [] => 0
  | e :: c => check_chain (offset e) (snap_seq e) c
  end.

Definition post_load_check (s : store) : outcome unit :=
  if decide (sum_list_with check_errors (snd <$> map_to_list (obj_lmt s)) = 0)%nat then Done ()
  else Fatal.

(** [PfRedoLog::init] *)
Definition redolog_init (s : store) : store :=
  with_log (mkLog (log_phase (redolog s)) (redolog_size (head s)) (start_offset (redolog s))
              (current_offset (redolog s))) s.

(** ** The compaction tool: a second store on the same device *)
Record world : Type := mkWorld {
  w_main : store;
  w_tool : store
}.

Definition compact_tool_init (s : store) : outcome store :=
  let* (_, p) := pool_init 0 true true (i32 (q_depth (free_obj_queue s) * 2)) empty_queue in
  Done (mkStore (head s) 0 ∅ empty_queue empty_queue p (mkLog 0 (redolog_size (head s)) 0 0)
          COMPACT_IDLE 0 false (dev s) []).

(** The branch of [start_metadata_service] for a disk with metadata. *)
Definition start_existing (s : store) : outcome (Z * store) :=
  let* (rc, s) := load_meta_data (current_metadata (head s)) false s in
  if negb (rc =? 0) then Done (rc, s)
  else
    let s := redolog_init s in
    let* (rc, s) := replay (redolog_phase (head s)) CURRENT s in
    if negb (rc =? 0) then Done (rc, s)
    else
      let s := with_head (head_update (current_metadata (head s)) (current_redolog (head s))
                            (redolog_phase (head s) + 1) (head s)) s in
      let* (rc, s) := replay (redolog_phase (head s)) OPPOSITE s in
      if negb (rc =? 0) then Done (rc, s)
      else
        let* s := post_load_fix s in
        let* _ := post_load_check s in
        let (_, s) := save_meta_data (oppsite_md_zone (head s)) s in
        let* pos := get_meta_position (head s) REDOLOG CURRENT in
        Done (0, set_log_phase (redolog_phase (head s)) pos s).

(** The enqueue loop for a new disk. *)
Fixpoint enqueue_ids (n : nat) (i : Z) (q : PfFixedSizeQueue Z) : outcome (PfFixedSizeQueue Z) :=
  match n with
  | O => Done q
  | S n => let* (_, q) := enqueue i q in enqueue_ids n (i + 1) q
  end.

(** [clean_meta_area]: the metadata area is overwritten with zeros. *)
Definition clean_meta_area (s : store) : Z * store :=
  let (f, s) := next_fault s in
  match f with
  | Some errno => (- errno, s)
  | None =>
      (0, with_dev (mkDevice None ∅ ∅ (dev_data (dev s)) (dev_faults (dev s)) (dev_save_faults (dev s))) s)
  end.

(** [initialize_store_head] for a device of [cap] bytes *)
Definition initialize_store_head (id cap meta : Z) (s : store) : Z * store :=
  let s := with_head (initial_head id cap meta) s in
  let (f, s) := next_fault s in
  match f with
  | Some errno => (- errno, s)
  | None => (0, with_dev (set_dev_head (head s) (dev s)) s)
  end.

(** The branch of [start_metadata_service] for a new disk; [clean] is the
    result of [is_disk_clean]. *)
Definition start_new (clean : bool) (id cap meta : Z) (s : store) : outcome (Z * store) :=
  if negb clean then Done (- EUCLEAN, s)
  else
    let (rc, s) := clean_meta_area s in
    if negb (rc =? 0) then Done (rc, s)
    else
      let (rc, s) := initialize_store_head id cap meta s in
      if negb (rc =? 0) then Done (rc, s)
      else
        let obj_count := i32 (Z.shiftr (tray_capacity (head s) - meta_size (head s))
                                (objsize_order (head s))) in
        let (_, q) := queue_init 0 true obj_count in
        let* q := enqueue_ids (Z.to_nat obj_count) 0 q in
        let s := with_free q s in
        let (_, q) := queue_init 0 true obj_count in
        let s := with_trim q s in
        let* (_, p) := pool_init 0 true true (i32 (q_depth (free_obj_queue s) * 2)) empty_queue in
        let s := redolog_init (with_pool p s) in
        let (_, s) := save_meta_data (current_metadata (head s)) s in
        let* pos := get_meta_position (head s) REDOLOG CURRENT in
        Done (0, set_log_phase (redolog_phase (head s)) pos s).

(** [read_store_head] *)
Definition read_store_head (s : store) : Z * store :=
  let (f, s) := next_fault s in
  match f with
  | Some errno => (- errno, s)
  | None =>
      match dev_head (dev s) with
      | None => (- EUCLEAN, s)
      | Some h =>
          let s := with_head h s in
          if negb (magic h =? 0x3553424e) then (- EUCLEAN, s)
          else if negb (version h =? S5_VERSION) then (- EUCLEAN, s)
          else (0, s)
      end
  end.

(** A store object before [init]: nothing but the device. *)
Definition blank_store (scc : bool) (d : device) : store :=
  mkStore (initial_head 0 0 0) 0 ∅ empty_queue empty_queue (mkPool empty_queue false 0)
    (mkLog 0 0 0 0) COMPACT_IDLE 0 scc d [].

(** [start_metadata_service]: the tool is only created on success. *)
Definition start_metadata_service (init clean : bool) (id cap meta : Z) (s : store)
    : outcome (Z * world) :=
  let* (ret, s) := if init then start_new clean id cap meta s else start_existing s in
  if negb (ret =? 0) then Done (ret, mkWorld s (blank_store false (dev s)))
  else let* t := compact_tool_init s in Done (0, mkWorld s t).

(** [init] from the reading of the head page on *)
Definition store_init (clean : bool) (id cap meta : Z) (s : store) : outcome (Z * world) :=
  let (rc, s) := read_store_head s in
  if negb ((rc =? 0) || (rc =? - EUCLEAN)) then Done (rc, mkWorld s (blank_store false (dev s)))
  else
    let* (ret, w) := start_metadata_service (negb (rc =? 0)) clean id cap meta s in
    let s := w_main w in
    let s := with_mask (objsize (head s) - 1) s in
    Done (ret, mkWorld (with_lmt_exist 0 (with_compact COMPACT_IDLE s)) (w_tool w)).

(** ** Compaction *)

(** The clean-up of [compact_meta_data] after an error. *)
Definition compact_cleanup (t : store) : outcome store :=
  let* p := pool_free_all (entries (obj_lmt t)) (lmt_entry_pool t) in
  Done (with_lmt ∅ (with_pool p
          (with_trim (queue_destroy (trim_obj_queue t)) (with_free (queue_destroy (free_obj_queue t)) t)))).

(** The body of [compact_meta_data] up to the error label: the tool works
    on the device of the main store. *)
Definition compact_work (main tool : store) : outcome (Z * store) :=
  let t := with_head (head main) (with_dev (dev main) tool) in
  let* (rc, t) :=
    if compact_lmt_exist main =? 0 then load_meta_data (current_metadata (head main)) true t
    else Done (0, t) in
  if negb (rc =? 0) then Done (rc, t)
  else
    let* (rc, t) := replay (redolog_phase (head main)) CURRENT t in
    if negb (rc =? 0) then Done (rc, t)
    else Done (save_meta_data (oppsite_md_zone (head main)) t).

Definition compact_meta_data (w : world) : outcome (Z * world) :=
  let main := w_main w in
  let* (rc, t) := compact_work main (w_tool w) in
  let main := with_dev (dev t) main in
  if negb (rc =? 0) then
    let* t := compact_cleanup t in
    Done (rc, mkWorld (with_lmt_exist 0 main) t)
  else Done (0, mkWorld (with_lmt_exist 1 (with_head (head t) main)) t).

(** What the compaction thread does when it finds the state [COMPACT_TODO]
    (under [md_lock]); [posted] tells whether it posts [EVT_SAVEMD]. *)
Definition compact_thread (w : world) : outcome (bool * world) :=
  if to_run_compact (w_main w) =? COMPACT_TODO then
    let w := mkWorld (with_compact COMPACT_RUNNING (w_main w)) (w_tool w) in
    let* (rc, w) := compact_meta_data w in
    if negb (rc =? 0) then
      Done (true, mkWorld (with_compact COMPACT_ERROR (w_main w)) (w_tool w))
    else Done (false, mkWorld (with_compact COMPACT_IDLE (w_main w)) (w_tool w))
  else Done (false, w).
