(* ===== verification/BootSpec.v ===== *)
(** * What loading and fixing the metadata yields

    Lemmas on [load_meta_data], [post_load_fix] and [post_load_check]: a
    loaded store has the view of the image it was loaded from, the fix
    drops exactly the entries that were not finished, and the check passes
    on every store that satisfies the accounting invariant. *)

From Stdlib Require Import ZArith Lia.
From stdpp Require Import base tactics list numbers sets gmap sorting.
From S2P Require Import Prelude FixedQueue MemPool Bitmap Ids Lmt Store RedoLog StoreOps Views OpSteps Boot.

Section Load.
Implicit Types (s : store) (c : chain) (m : gmap lmt_key chain) (p : lmt_pool).

Lemma alloc_chain_spec c p held :
  pool_inv p held -> 0 <= obj_count p -> Z.of_nat (length held + length c) <= obj_count p ->
  exists c' p', alloc_chain c p = Done (c', p') /\ strip_chain c' = strip_chain c
    /\ pool_inv p' (addrs c' ++ held) /\ obj_count p' = obj_count p.
Proof.
  revert p held. induction c as [|e c IH]; intros p held Hinv Hc Hlen; cbn [alloc_chain].
  { by exists [], p. }
  simpl in Hlen. destruct (pool_alloc_spec p held Hinv Hc) as [(a & p1 & -> & _ & _ & Hinv1 & Hc1)|[_ E]]; [|lia].
  cbn [obind of_option]. destruct (IH p1 (a :: held) Hinv1) as (c' & p2 & -> & Es & Hinv2 & Hc2);
    [lia|simpl; lia|].
  cbn [obind]. eexists _, p2. splits; [done| | |lia].
  - unfold strip_chain in *. csimpl. by rewrite Es.
  - eapply pool_inv_perm; [|exact Hinv2]. unfold addrs. csimpl. by rewrite Permutation_middle.
Qed.

Lemma filter_recovering_settled c :
  (forall e, e ∈ c -> status e <> RECOVERYING) ->
  chain_delete (fun e => bool_decide (status e = RECOVERYING)) c = (c, []).
Proof.
  intros Hc. unfold chain_delete.
  assert (Forall (fun e => bool_decide (status e = RECOVERYING) = false) c) as Hf.
  { apply Forall_forall. intros e He. by apply bool_decide_eq_false_2, Hc. }
  destruct (filter_none _ _ Hf) as [-> ->]. done.
Qed.

(** Statuses, offsets and sequences survive stripping. *)
Lemma strip_chain_forall (P : lmt_entry -> Prop) c c' :
  (forall e, P (strip e) <-> P e) -> strip_chain c' = strip_chain c ->
  (forall e, e ∈ c -> P e) -> forall e, e ∈ c' -> P e.
Proof.
  intros HP E Hc e He. apply HP. assert (Hin : strip e ∈ strip_chain c').
  { by apply list_elem_of_fmap_2. }
  rewrite E in Hin. apply list_elem_of_fmap in Hin as (e0 & -> & He0). apply HP. by apply Hc.
Qed.

Lemma load_keys_spec l s :
  NoDup l.*1 -> (forall k c, (k, c) ∈ l -> obj_lmt s !! k = None /\ c <> [])
  -> (forall k c e, (k, c) ∈ l -> e ∈ c -> status e <> RECOVERYING) ->
  pool_ok (obj_lmt s) (lmt_entry_pool s) ->
  Z.of_nat (length (entries (obj_lmt s)) + length (concat l.*2)) <= obj_count (lmt_entry_pool s) ->
  exists s', load_keys l s = Done s'
    /\ strip_map (obj_lmt s') = strip_map (list_to_map l ∪ obj_lmt s)
    /\ redo_frame s s' /\ pool_ok (obj_lmt s') (lmt_entry_pool s')
    /\ free_obj_queue s' = free_obj_queue s /\ trim_obj_queue s' = trim_obj_queue s.
Proof.
  revert s. induction l as [|[k c] l IH]; intros s Hnd Hnew Hrec Hpool Hlen; cbn [load_keys].
  { exists s. splits; [done| |by split|done|done|done]. by rewrite list_to_map_nil, (left_id_L ∅ (∪)). }
  destruct Hpool as [Hinv Hc0]. csimpl in Hnd. apply NoDup_cons in Hnd as [Hk Hnd].
  destruct (Hnew k c) as [Hkn Hcne]; [left|]. csimpl in Hlen. simpl in Hlen. rewrite length_app in Hlen.
  destruct (alloc_chain_spec c (lmt_entry_pool s) (addrs (entries (obj_lmt s))) Hinv Hc0)
    as (c' & p' & -> & Es & Hinv' & Hc').
  { unfold addrs. rewrite length_fmap. lia. }
  assert (Hc'rec : forall e, e ∈ c' -> status e <> RECOVERYING).
  { apply (strip_chain_forall (fun e => status e <> RECOVERYING) c); [done|done|].
    intros e He. by apply (Hrec k c e); [left|]. }
  cbn [obind]. rewrite filter_recovering_settled by done. cbn iota. cbn [pool_free_all obind].
  assert (Hc'ne : c' <> []).
  { intros ->. by apply (f_equal length) in Es; unfold strip_chain in Es; rewrite !length_fmap in Es; destruct c. }
  destruct c' as [|x c']; [done|].
  set (s1 := with_lmt (<[k:=x :: c']> (obj_lmt (with_pool p' s))) (with_pool p' s)).
  assert (Hlen_c : length (x :: c') = length c).
  { apply (f_equal length) in Es. unfold strip_chain in Es. by rewrite !length_fmap in Es. }
  destruct (IH s1) as (s2 & Hl & Hm & Hfr & Hp2 & Hf2 & Ht2).
  - done.
  - intros k2 c2 Hin. assert (k2 <> k). { intros ->. apply Hk. by apply (list_elem_of_fmap_2 fst l (k, c2)). }
    destruct (Hnew k2 c2) as [? ?]; [by right|]. split; [|done]. simpl. by rewrite lookup_insert_ne.
  - intros k2 c2 e Hin. apply (Hrec k2 c2 e). by right.
  - split; [|simpl; lia]. simpl. eapply pool_inv_perm; [|exact Hinv'].
    rewrite <- addrs_app. unfold addrs. by rewrite entries_insert_new.
  - simpl. rewrite entries_insert_new by done. rewrite length_app, Hlen_c. lia.
  - exists s2. splits; [done| | |done|by rewrite Hf2|by rewrite Ht2].
    + rewrite Hm. unfold strip_map. rewrite !map_fmap_union. simpl list_to_map. simpl obj_lmt.
      rewrite !fmap_insert, Es. rewrite <- insert_union_r, insert_union_l; [done|].
      rewrite lookup_fmap. rewrite not_elem_of_list_to_map_1; [done|]. exact Hk.
    + destruct Hfr. split; simpl in *; try congruence; lia.
Qed.

(** Loading an image with a valid view gives a store with that view. *)
Lemma load_meta_data_spec zone compaction s im :
  dev_faults (dev s) = [] -> dev_md (dev s) !! zone = Some im ->
  view_ok (head s) (view_of_image im) -> obj_lmt s = ∅ ->
  (compaction = true -> pool_ok ∅ (lmt_entry_pool s)
     /\ obj_count (lmt_entry_pool s) = 2 * q_depth (im_free im)) ->
  2 * q_depth (im_free im) < 2 ^ 31 - 1 ->
  exists s', load_meta_data zone compaction s = Done (0, s') /\ view_of s' = view_of_image im
    /\ pool_ok (obj_lmt s') (lmt_entry_pool s')
    /\ obj_count (lmt_entry_pool s') = 2 * q_depth (im_free im)
    /\ head s' = head s /\ dev s' = dev s /\ redolog s' = redolog s /\ use_scc s' = use_scc s
    /\ in_obj_offset_mask s' = in_obj_offset_mask s
    /\ to_run_compact s' = to_run_compact s /\ compact_lmt_exist s' = compact_lmt_exist s.
Proof.
  intros Hf Him Hv Hemp Hcomp Hbig. unfold load_meta_data, next_fault. rewrite Hf, Him. cbn [of_option obind].
  set (s1 := with_trim _ _). pose proof (vo_free _ _ Hv) as Hwf. simpl in Hwf. destruct (wf_depth _ Hwf) as [Hd0 _].
  assert (exists s2, (if compaction then Done s1
          else let* (_, p) := pool_init 0 true true (i32 (q_depth (free_obj_queue s1) * 2)) empty_queue in
               Done (with_pool p s1)) = Done s2 /\ (exists p, s2 = with_pool p s1)
          /\ pool_ok ∅ (lmt_entry_pool s2) /\ obj_count (lmt_entry_pool s2) = 2 * q_depth (im_free im))
    as (s2 & -> & (p2 & ->) & Hpool & Hcap).
  { destruct compaction.
    - exists s1. split; [done|]. split; [by exists (lmt_entry_pool s1); destruct s1|]. by apply Hcomp.
    - change (free_obj_queue s1) with (im_free im). rewrite i32_small by lia.
      destruct (pool_init_inv (F := ring_fifo) (q_depth (im_free im) * 2) empty_queue) as (p & -> & Hi & Hc); [lia|].
      cbn [obind]. eexists. split; [done|]. split; [by eexists|]. simpl. split; [|lia]. split; [done|lia]. }
  cbn [obind]. set (s2 := with_pool p2 s1) in *. simpl in Hpool, Hcap.
  assert (Hin : forall k c, (k, c) ∈ map_to_list (im_lmt im) -> im_lmt im !! k = Some c) by (intros; by apply elem_of_map_to_list).
  assert (Hbound := entries_bound _ _ Hv). simpl in Hbound. rewrite entries_strip_length in Hbound.
  destruct (load_keys_spec (map_to_list (im_lmt im)) s2) as (s3 & -> & Hm & Hfr & Hp3 & Hf3 & Ht3).
  - apply NoDup_fst_map_to_list.
  - intros k c Hkc. split; [simpl; by rewrite Hemp|]. intros ->. apply (vo_ne _ _ Hv k). simpl.
    by rewrite strip_map_lookup, (Hin _ _ Hkc).
  - intros k c e Hkc He Hst. assert (Hs : settled (strip e)).
    { apply (vo_status _ _ Hv). simpl. rewrite entries_strip. apply list_elem_of_fmap_2.
      by apply (elem_of_entries _ k c); [apply Hin|]. }
    unfold settled in Hs. simpl in Hs. rewrite Hst in Hs. by destruct Hs.
  - simpl. by rewrite Hemp.
  - simpl. rewrite Hemp. unfold entries in *. rewrite map_to_list_empty. simpl. lia.
  - cbn [obind]. exists s3. destruct Hfr as [E1 E2 E3 E4 E5 E6 E7 E8 E9]. splits; try done.
    + unfold view_of, view_of_image. rewrite Hf3, Ht3, Hm. simpl. f_equal.
      rewrite list_to_map_to_list, Hemp. by rewrite (right_id_L ∅ (∪)).
    + rewrite E9. done.
Qed.
End Load.

(** ** The fix after loading *)
Definition fix_chain (c : chain) : chain := List.filter (fun e => negb (unfinished e)) c.

Definition nonempty (c : chain) : option chain := match c with [] => None | l => Some l end.

Definition fix_lmt (m : gmap lmt_key chain) : gmap lmt_key chain :=
  omap (fun c => nonempty (fix_chain c)) m.

Definition fix_view (v : view) : view := mkView (fix_lmt (v_lmt v)) (v_free v) (v_trim v).

Section Fix.
Implicit Types (s : store) (c : chain) (m : gmap lmt_key chain) (p : lmt_pool).

Lemma put_chain_lookup k c m k' :
  put_chain k c m !! k' = if decide (k = k') then nonempty c else m !! k'.
Proof.
  destruct c as [|e c]; simpl; case_decide; subst.
  - apply lookup_delete_eq.
  - by apply lookup_delete_ne.
  - apply lookup_insert_eq.
  - by apply lookup_insert_ne.
Qed.

Lemma fix_lmt_lookup m k : fix_lmt m !! k = m !! k ≫= (fun c => nonempty (fix_chain c)).
Proof. unfold fix_lmt. rewrite lookup_omap. done. Qed.

Lemma fix_keys_spec l s :
  NoDup l.*1 -> (forall k c, (k, c) ∈ l -> obj_lmt s !! k = Some c) ->
  pool_ok (obj_lmt s) (lmt_entry_pool s) ->
  exists s', fix_keys l s = Done s'
    /\ (forall k, obj_lmt s' !! k = if decide (k ∈ l.*1) then obj_lmt s !! k ≫= (fun c => nonempty (fix_chain c))
                                    else obj_lmt s !! k)
    /\ redo_frame s s' /\ pool_ok (obj_lmt s') (lmt_entry_pool s')
    /\ free_obj_queue s' = free_obj_queue s /\ trim_obj_queue s' = trim_obj_queue s.
Proof.
  revert s. induction l as [|[k c] l IH]; intros s Hnd Hl Hpool; cbn [fix_keys].
  { exists s. splits; [done| |by split|done|done|done]. intros k. rewrite decide_False; [done|].
    by intros ?%elem_of_nil. }
  csimpl in Hnd. apply NoDup_cons in Hnd as [Hk Hnd].
  assert (Hkc : obj_lmt s !! k = Some c) by (apply Hl; left).
  unfold chain_delete. cbn iota.
  destruct (pool_ok_delete _ _ _ _ unfinished Hkc Hpool) as (p & -> & Hpok & Hpc). cbn [obind].
  destruct (IH (with_pool p (with_lmt (put_chain k (List.filter (fun e => negb (unfinished e)) c) (obj_lmt s)) s)))
    as (s2 & -> & Hlk & Hfr & Hp2 & Hf2 & Ht2); [done| |done|].
  { intros k2 c2 Hin. assert (k2 <> k). { intros ->. apply Hk. by apply (list_elem_of_fmap_2 fst l (k, c2)). }
    simpl. rewrite put_chain_lookup, decide_False by done. apply Hl. by right. }
  exists s2. splits; [done| | |done|by rewrite Hf2|by rewrite Ht2].
  - intros k2. rewrite Hlk. csimpl. rewrite put_chain_lookup. destruct (decide (k = k2)) as [<-|Hne].
    + rewrite decide_False by done. rewrite decide_True by left. rewrite Hkc. done.
    + destruct (decide (k2 ∈ l.*1)).
      * by rewrite decide_True by (by right).
      * rewrite decide_False; [done|]. by intros [|]%elem_of_cons.
  - destruct Hfr. split; simpl in *; congruence.
Qed.

Lemma fix_lmt_strip m : strip_map (fix_lmt m) = fix_lmt (strip_map m).
Proof.
  apply map_eq. intros k. rewrite strip_map_lookup, !fix_lmt_lookup, strip_map_lookup.
  destruct (m !! k) as [c|]; [|done]. simpl. unfold fix_chain. rewrite strip_filter by done.
  by destruct (List.filter _ c).
Qed.

Lemma fix_lmt_insert m k c :
  m !! k = None -> fix_lmt (<[k := c]> m) = put_chain k (fix_chain c) (fix_lmt m).
Proof.
  intros Hk. apply map_eq. intros k'. rewrite put_chain_lookup, !fix_lmt_lookup.
  case_decide as E; subst; [by rewrite lookup_insert_eq|]. by rewrite lookup_insert_ne.
Qed.

#[export] Instance fix_chain_Permutation : Proper ((≡ₚ) ==> (≡ₚ)) fix_chain.
Proof.
  unfold fix_chain. intros c1 c2 H. induction H as [|x c1 c2 _ IH|x y c|c1 c2 c3 _ IH1 _ IH2]; simpl.
  - done.
  - destruct (negb (unfinished x)); by rewrite IH.
  - destruct (negb (unfinished x)), (negb (unfinished y)); (done || constructor).
  - by rewrite IH1.
Qed.

Lemma entries_fix m : entries (fix_lmt m) ≡ₚ fix_chain (entries m).
Proof.
  induction m as [|k c m Hk IH] using map_ind; [done|].
  rewrite fix_lmt_insert, entries_put, entries_insert_new by done. unfold fix_chain at 2.
  rewrite List.filter_app. apply Permutation_app; [done|].
  rewrite entries_delete_None; [done|]. by rewrite fix_lmt_lookup, Hk.
Qed.

Lemma fix_chain_sub c e : e ∈ fix_chain c -> e ∈ c /\ unfinished e = false.
Proof.
  unfold fix_chain. intros He%list_elem_of_In. apply filter_In in He as [He Hu].
  split; [by apply list_elem_of_In|]. by apply negb_true_iff.
Qed.

Lemma post_load_fix_spec s :
  pool_ok (obj_lmt s) (lmt_entry_pool s) ->
  exists s', post_load_fix s = Done s' /\ view_of s' = fix_view (view_of s) /\ redo_frame s s'
    /\ pool_ok (obj_lmt s') (lmt_entry_pool s')
    /\ free_obj_queue s' = free_obj_queue s.
Proof.
  intros Hpool. unfold post_load_fix.
  destruct (fix_keys_spec (map_to_list (obj_lmt s)) s) as (s' & -> & Hlk & Hfr & Hp & Hf & Ht);
    [apply NoDup_fst_map_to_list|by intros k c Hkc%elem_of_map_to_list|done|].
  exists s'. splits; try done. unfold view_of, fix_view. simpl. rewrite Hf, Ht. f_equal.
  rewrite <- fix_lmt_strip. f_equal. apply map_eq. intros k. rewrite Hlk, fix_lmt_lookup.
  case_decide as Hd; [done|]. destruct (obj_lmt s !! k) as [c|] eqn:Hk; [|done].
  destruct Hd. apply list_elem_of_fmap. exists (k, c). split; [done|]. by apply elem_of_map_to_list.
Qed.

Lemma filter_sublist (f : lmt_entry -> bool) c : List.filter f c `sublist_of` c.
Proof.
  induction c as [|e c IH]; [constructor|]. simpl. destruct (f e); by constructor.
Qed.

Lemma fix_view_ok h v : view_ok h v -> view_ok h (fix_view v).
Proof.
  intros Hv.
  assert (Hsub : ids h (fix_view v) ⊆+ ids h v).
  { unfold ids. simpl. rewrite entries_fix. do 2 apply submseteq_skips_l.
    apply sublist_submseteq. apply fmap_sublist, filter_sublist. }
  assert (Hin : forall e, e ∈ entries (v_lmt (fix_view v)) -> e ∈ entries (v_lmt v)).
  { intros e He. simpl in He. rewrite entries_fix in He. by apply fix_chain_sub in He as [? _]. }
  split; simpl; try apply Hv.
  - destruct (submseteq_Permutation _ _ Hsub) as [k Hk]. pose proof (vo_nodup _ _ Hv) as Hnd.
    rewrite Hk in Hnd. by apply NoDup_app in Hnd as (? & _).
  - intros i Hi. apply (vo_range _ _ Hv). by eapply elem_of_submseteq.
  - intros e He. by apply (vo_aligned _ _ Hv), Hin.
  - intros e He. by apply (vo_status _ _ Hv), Hin.
  - intros k E. rewrite fix_lmt_lookup in E. destruct (v_lmt v !! k) as [c|]; [|done]. simpl in E.
    by destruct (fix_chain c).
  - intros k c E. rewrite fix_lmt_lookup in E. destruct (v_lmt v !! k) as [c'|] eqn:Hk; [|done]. simpl in E.
    assert (c = fix_chain c') as -> by (unfold nonempty in E; destruct (fix_chain c'); by simplify_eq).
    apply descending_filter. by apply (vo_desc _ _ Hv k).
Qed.

(** *** The check *)
Lemma check_chain_ok e c :
  descending (e :: c) -> NoDup (offset <$> e :: c) -> check_chain (offset e) (snap_seq e) c = 0%nat.
Proof.
  revert e. induction c as [|x c IH]; intros e Hd Hnd; [done|]. cbn [check_chain].
  inversion Hd as [|? ? Hd2 Hall]; subst. csimpl in Hnd. apply NoDup_cons in Hnd as [Hn Hnd].
  rewrite IH by done. apply Forall_cons in Hall as [Hlt _]. unfold newer in Hlt.
  destruct (Z.eqb_spec (snap_seq x) (snap_seq e)); [lia|].
  destruct (Z.eqb_spec (offset x) (offset e)) as [E|]; [|done].
  destruct Hn. rewrite <- E. left.
Qed.

Lemma post_load_check_ok s : store_ok s -> post_load_check s = Done ().
Proof.
  intros Hok. unfold post_load_check. rewrite decide_True; [done|].
  assert (Hz : forall c, c ∈ (map_to_list (obj_lmt s)).*2 -> check_errors c = 0%nat).
  { intros c ([k c'] & -> & Hkc)%list_elem_of_fmap. apply elem_of_map_to_list in Hkc. simpl.
    destruct c' as [|e c]; [done|]. apply check_chain_ok; [by eapply chain_desc|by eapply nodup_offs_chain]. }
  revert Hz. generalize (map_to_list (obj_lmt s)).*2. intros l Hz. induction l as [|c l IH]; [done|].
  simpl. rewrite (Hz c) by left. apply IH. intros c' Hc'. apply Hz. by right.
Qed.
End Fix.
