(* ===== verification/Handlers.v ===== *)
(** * Handlers that write several log items

    The operations of StoreOps.v that are loops (deleting a snapshot or a
    replica, a trim round, the end of a copy on write) as sequences of the
    single steps of OpSteps.v.  Each lemma says that the handler returns
    (no FATAL exit, no dereference of a null or freed pointer, no access out
    of range) when the log has room for its items. *)

From Stdlib Require Import ZArith Lia.
From stdpp Require Import base tactics list numbers sets gmap sorting.
From S2P Require Import Prelude FixedQueue MemPool Bitmap Ids Lmt Store RedoLog StoreOps Views OpSteps.

(** ** Sequences of steps *)

(** At most [n] single steps. *)
Inductive op_steps : nat -> store -> store -> Prop :=
| os_nil n s : op_steps n s s
| os_cons n s s1 s2 : op_step s s1 -> op_steps n s1 s2 -> op_steps (S n) s s2.

(** A change of object data. *)
Definition with_data (f : Z -> Z) (s : store) : store := with_dev (set_dev_data f (dev s)) s.

(** The log has room for [n] items: in the zone in use, or after a switch
    to the other zone. *)
Definition room_n (n : nat) (s : store) : Prop :=
  LBA_LENGTH * Z.of_nat n < log_size (redolog s)
  /\ (current_offset (redolog s) + LBA_LENGTH * Z.of_nat n < start_offset (redolog s) + log_size (redolog s)
      \/ (log_phase (redolog s) = redolog_phase (head s) /\ to_run_compact s <> COMPACT_ERROR)).

Record ready (n : nat) (s : store) : Prop := mkReady {
  rd_ok : store_ok s;
  rd_faults : dev_faults (dev s) = [];
  rd_room : room_n n s
}.

Section Steps.
Implicit Types (s : store) (c : chain) (e : lmt_entry) (n : nat).

Lemma ready_room n s : ready (S n) s -> room s.
Proof.
  intros [_ _ [_ [H|H]]]; [left|by right]. unfold has_space. unfold LBA_LENGTH in *. lia.
Qed.

Lemma ready_le n n' s : (n' <= n)%nat -> ready n s -> ready n' s.
Proof.
  intros Hle [H1 H2 [H3 H4]]. split; [done|done|]. split; [unfold LBA_LENGTH in *; lia|].
  destruct H4; [left|by right]. unfold LBA_LENGTH in *. lia.
Qed.

Lemma ready_step n s s' : ready (S n) s -> op_step s s' -> ready n s'.
Proof.
  intros [Hok Hf [Hs Hr]] Hop. pose proof (op_step_ok _ _ Hop) as Hok'.
  destruct Hop as [s s' [Eh Ed El Ec _] _ _|b s s' _ [Eh _ Ed Hcur] _ _ _].
  - split; [done|by rewrite Ed|]. unfold room_n. rewrite El, Eh, Ec. split; [unfold LBA_LENGTH in *; lia|].
    destruct Hr; [left|by right]. unfold LBA_LENGTH in *. lia.
  - split; [done|by rewrite Ed|]. unfold room_n. rewrite Eh.
    destruct Hcur as [(_ & -> & ->)|(_ & _ & pos & _ & ->)]; simpl.
    + split; [unfold LBA_LENGTH in *; lia|]. destruct Hr; [left|by right]. unfold LBA_LENGTH in *. lia.
    + split; [unfold LBA_LENGTH in *; lia|]. left. unfold LBA_LENGTH in *. lia.
Qed.

Lemma ready_data n f s : ready n s -> ready n (with_data f s).
Proof. intros [H1 H2 H3]. split; [|done|done]. by eapply store_ok_same; [| |exact H1]. Qed.

Lemma ready_steps n m s s' : ready (n + m) s -> op_steps n s s' -> ready m s'.
Proof.
  intros Hr Hs. induction Hs as [n s|n s s1 s2 Hop _ IH].
  - eapply ready_le; [|done]. lia.
  - apply IH. by eapply ready_step.
Qed.

Lemma op_steps_more m n s s' : op_steps n s s' -> op_steps (m + n) s s'.
Proof.
  induction 1 as [n s|n s s1 s2 Hop _ IH]; [constructor|].
  rewrite Nat.add_succ_r. by eapply os_cons.
Qed.

Lemma op_steps_app n m s s1 s2 : op_steps n s s1 -> op_steps m s1 s2 -> op_steps (n + m) s s2.
Proof.
  intros Hs Hs2. induction Hs as [n s|n s s1 s' Hop _ IH].
  - by apply op_steps_more.
  - simpl. eapply os_cons; [done|by apply IH].
Qed.

Lemma op_steps_one s s' : op_step s s' -> op_steps 1 s s'.
Proof. intros H. eapply os_cons; [done|constructor]. Qed.

Lemma op_steps_le n n' s s' : (n <= n')%nat -> op_steps n s s' -> op_steps n' s s'.
Proof.
  intros Hle Hs. replace n' with ((n' - n) + n)%nat by lia. by apply op_steps_more.
Qed.

Lemma steps_ok n s s' : store_ok s -> op_steps n s s' -> store_ok s'.
Proof.
  intros Hok Hs. induction Hs as [n s|n s s1 s2 Hop _ IH]; [done|]. by eapply IH, op_step_ok.
Qed.

(** The head page in memory is the same after any number of steps. *)
Lemma op_step_head s s' : op_step s s' -> head s' = head s.
Proof. by destruct 1 as [? ? []|? ? ? ? []]. Qed.

Lemma op_steps_head n s s' : op_steps n s s' -> head s' = head s.
Proof.
  induction 1 as [|? ? ? ? Hop _ IH]; [done|]. by rewrite IH; apply op_step_head.
Qed.

(** The steps leave the data of the objects alone. *)
Lemma op_steps_data n s s' : op_steps n s s' -> dev_data (dev s') = dev_data (dev s).
Proof.
  induction 1 as [|? ? ? ? Hop _ IH]; [done|]. rewrite IH.
  by destruct Hop as [? ? [_ -> _ _ _]|? ? ? _ [_ _ -> _]].
Qed.

(** Objects are neither lost nor shared by any number of steps. *)
Lemma op_steps_ids n s s' : op_steps n s s' -> ids (head s') (view_of s') ≡ₚ ids (head s) (view_of s).
Proof.
  induction 1 as [|? s s1 ? Hop Hs IH]; [done|].
  rewrite IH, (op_step_head _ _ Hop). destruct Hop as [? ? _ Ev _|? ? ? _ _ _ Hi _]; [by rewrite Ev|done].
Qed.
End Steps.

(** ** Deletion *)
Section Deletion.
Implicit Types (s : store) (c : chain) (e : lmt_entry) (n : nat).

Lemma find_target_spec seq next c :
  Exists (fun e => snap_seq e <= seq) c ->
  exists pre t post, c = pre ++ t :: post /\ snap_seq t <= seq
    /\ Forall (fun e => seq < snap_seq e) pre
    /\ find_target seq next c
       = Done (match last pre with Some e => Some e | None => next end, t, hd_error post).
Proof.
  revert next. induction c as [|e c IH]; intros next Hex; [by apply Exists_nil in Hex|].
  cbn [find_target]. destruct (Z.ltb_spec seq (snap_seq e)) as [Hlt|Hle].
  - apply Exists_cons in Hex as [?|Hex]; [lia|].
    destruct (IH (Some e) Hex) as (pre & t & post & -> & Ht & Hpre & ->).
    exists (e :: pre), t, post. splits; [done|done|by constructor|].
    rewrite last_cons. by destruct (last pre).
  - exists [], e, c. splits; [done|done|constructor|]. by destruct c.
Qed.

Lemma delete_obj_op s key c e :
  store_ok s -> dev_faults (dev s) = [] -> room s -> obj_lmt s !! key = Some c -> e ∈ c ->
  exists s', delete_obj key (e_addr e) s = Done (0, s') /\ op_step s s'
    /\ obj_lmt s' = put_chain key (List.filter (fun x => negb (offset x =? offset e)) c) (obj_lmt s).
Proof.
  intros Hok Hf Hr Hk He.
  destruct (delete_matched_op s key c e (fun x => e_addr x =? e_addr e)) as (s' & ? & ? & ? & _); try done.
  - intros x Hx. rewrite Z.eqb_eq. split; [|congruence]. intros E.
    by eapply (nodup_fmap_eq e_addr c); [apply (nodup_addrs_chain _ _ _ Hok Hk)| | |].
  - by exists s'.
Qed.

Lemma update_at_app off f pre t post :
  offset t = off -> off ∉ (offset <$> pre) -> update_at off f (pre ++ t :: post) = pre ++ f t :: post.
Proof.
  intros Ht. induction pre as [|x pre IH]; intros Hn; cbn [update_at app].
  - by rewrite Ht, Z.eqb_refl.
  - csimpl in Hn. apply not_elem_of_cons in Hn as [Hx Hn].
    destruct (Z.eqb_spec (offset x) off); [congruence|]. f_equal. by apply IH.
Qed.

Lemma update_addr_absent a f c : a ∉ addrs c -> update_addr a f c = c.
Proof.
  unfold addrs, update_addr. induction c as [|x c IH]; [done|]. csimpl. intros Hn.
  apply not_elem_of_cons in Hn as [Hx Hn]. destruct (Z.eqb_spec (e_addr x) a); [congruence|]. by rewrite IH.
Qed.

Lemma update_addr_app a f pre t post :
  e_addr t = a -> NoDup (addrs (pre ++ t :: post)) -> update_addr a f (pre ++ t :: post) = pre ++ f t :: post.
Proof.
  intros Ht Hnd. rewrite addrs_app in Hnd. apply NoDup_app in Hnd as (_ & Hn & Hnd).
  change (addrs (t :: post)) with (e_addr t :: addrs post) in *. apply NoDup_cons in Hnd as [Hnt _].
  unfold update_addr. rewrite fmap_app. csimpl. rewrite Ht, Z.eqb_refl. f_equal; [|f_equal].
  - apply update_addr_absent. intros Hi. apply (Hn _ Hi). rewrite Ht. left.
  - apply update_addr_absent. by rewrite <- Ht.
Qed.

(** Raising the sequence number of an entry up to below its younger neighbour. *)
Lemma descending_raise pre t post q :
  descending (pre ++ t :: post) -> snap_seq t <= q -> Forall (fun e => q < snap_seq e) pre ->
  descending (pre ++ set_seq q t :: post).
Proof.
  unfold descending. intros Hd Ht Hpre. induction pre as [|x pre IH]; simpl in *.
  - inversion Hd as [|? ? Hd' Hall]; subst. constructor; [done|].
    eapply Forall_impl; [exact Hall|]. intros y Hy. unfold newer in *. simpl. lia.
  - inversion Hd as [|? ? Hd' Hall]; subst. inversion Hpre as [|? ? Hx Hpre']; subst.
    constructor; [by apply IH|]. apply Forall_app in Hall as [Ha Hb]. apply Forall_app. split; [done|].
    inversion Hb as [|? ? _ Hb']; subst. constructor; [|done]. unfold newer. simpl. lia.
Qed.

Lemma change_seq_raise s key pre t post q :
  store_ok s -> dev_faults (dev s) = [] -> room s -> obj_lmt s !! key = Some (pre ++ t :: post) ->
  snap_seq t <= q -> Forall (fun e => q < snap_seq e) pre ->
  exists s', change_seq key t q s = Done (0, s') /\ op_step s s'
    /\ obj_lmt s' = <[key := pre ++ set_seq q t :: post]> (obj_lmt s).
Proof.
  intros Hok Hf Hr Hk Ht Hpre.
  assert (Hin : t ∈ pre ++ t :: post) by (apply elem_of_app; right; left).
  pose proof (nodup_offs_chain _ _ _ Hok Hk) as Hnd. rewrite fmap_app in Hnd.
  apply NoDup_app in Hnd as (_ & Hn & _).
  assert (Hnt : offset t ∉ (offset <$> pre)).
  { intros Hi. apply (Hn _ Hi). csimpl. left. }
  destruct (change_seq_op s key (pre ++ t :: post) t q) as (s' & ? & ? & Hl); try done.
  - unfold strip_chain. rewrite fmap_app. csimpl. rewrite update_at_app; [|done|].
    2:{ by rewrite <- list_fmap_compose. }
    apply (descending_raise _ (strip t)); [|done|by apply Forall_fmap].
    pose proof (vo_desc _ _ (so_view _ Hok) key (strip_chain (pre ++ t :: post))) as Hd.
    unfold strip_chain in Hd. rewrite fmap_app in Hd. apply Hd. simpl. rewrite strip_map_lookup, Hk. simpl.
    unfold strip_chain. by rewrite fmap_app.
  - exists s'. splits; [done|done|]. rewrite Hl. f_equal.
    apply update_addr_app; [done|]. by eapply nodup_addrs_chain.
Qed.

Lemma filter_offset_out pre t post :
  NoDup (offset <$> pre ++ t :: post) ->
  List.filter (fun x => negb (offset x =? offset t)) (pre ++ t :: post) = pre ++ post.
Proof.
  rewrite fmap_app. csimpl. intros Hnd. apply NoDup_app in Hnd as (_ & Hn & Hnd).
  apply NoDup_cons in Hnd as [Hnt _]. rewrite List.filter_app. simpl. rewrite Z.eqb_refl. simpl. f_equal.
  - apply filter_offset_absent. intros Hi. apply (Hn _ Hi). left.
  - by apply filter_offset_absent.
Qed.

(** The chain after the deletion of a snapshot: the target goes when the
    entry after it serves the next snapshot too, or else takes its number. *)
Definition next_seq (pre : chain) : Z := match last pre with None => UINT32_MAX | Some e => snap_seq e end.
Definition snap_chain (next_snap : Z) (pre : chain) (t : lmt_entry) (post : chain) : chain :=
  if next_seq pre <=? next_snap then pre ++ post else pre ++ set_seq next_snap t :: post.

Lemma next_seq_above pre q : Forall (fun e => q < snap_seq e) pre -> q < UINT32_MAX -> q < next_seq pre.
Proof.
  intros Hpre Hq. unfold next_seq. destruct (last pre) eqn:E; [|done].
  apply last_Some_elem_of in E. rewrite Forall_forall in Hpre. by apply Hpre.
Qed.

Lemma next_seq_below pre q :
  descending pre -> q < next_seq pre -> Forall (fun e => q < snap_seq e) pre.
Proof.
  unfold next_seq. destruct pre as [|x pre] using rev_ind; [constructor|]. rewrite last_snoc.
  intros Hd Hq. apply Forall_app. split; [|by constructor].
  clear IHpre. unfold descending in Hd. induction pre as [|y pre IH]; [constructor|]. simpl in Hd.
  inversion Hd as [|? ? Hd' Hall]; subst. constructor; [|by apply IH].
  rewrite Forall_forall in Hall. specialize (Hall x). unfold newer in Hall.
  assert (snap_seq x < snap_seq y); [|lia]. apply Hall. apply elem_of_app. right. left.
Qed.

(** The branches of [delete_obj_snapshot] decide on [next_seq] alone. *)
Lemma delete_obj_snapshot_cases vol lba snap prev next pre t post s :
  obj_lmt s !! mkKey vol lba = Some (pre ++ t :: post) -> snap_seq t <= snap ->
  Forall (fun e => snap < snap_seq e) pre -> snap < next -> next < UINT32_MAX ->
  delete_obj_snapshot vol lba snap prev next s
  = if abnormal (hd_error post) || abnormal (Some t) || abnormal (last pre) then Done (- EAGAIN, s)
    else if next_seq pre <=? next then delete_or_delay (mkKey vol lba) t (last pre) s
    else change_seq (mkKey vol lba) t next s.
Proof.
  intros Hk Ht Hpre Hsn Hn. unfold delete_obj_snapshot. rewrite Hk.
  assert (Hf : find_target snap None (pre ++ t :: post) = Done (last pre, t, hd_error post)).
  { clear Hk. assert (Hgen : forall nx, find_target snap nx (pre ++ t :: post)
        = Done (match last pre with Some e => Some e | None => nx end, t, hd_error post)).
    { induction pre as [|x pre IH]; intros nx; cbn [find_target app].
      - destruct (Z.ltb_spec snap (snap_seq t)); [lia|]. by destruct post.
      - inversion Hpre; subst. destruct (Z.ltb_spec snap (snap_seq x)); [|lia].
        rewrite IH by done. rewrite last_cons. by destruct (last pre). }
    rewrite Hgen. by destruct (last pre). }
  rewrite Hf. cbn [obind]. destruct (abnormal (hd_error post) || abnormal (Some t) || abnormal (last pre)); [done|].
  fold (next_seq pre). pose proof (next_seq_above pre snap Hpre ltac:(lia)) as Hab.
  destruct (Z.leb_spec (snap_seq t) snap); [|lia]. destruct (Z.ltb_spec snap (next_seq pre)); [|lia].
  cbn [negb]. set (Pps := match hd_error post with None => 0 | Some e => snap_seq e end).
  destruct (Z.leb_spec (next_seq pre) next), (Z.ltb_spec next (next_seq pre)); try lia;
    destruct (Z.ltb_spec prev Pps), (Z.leb_spec Pps prev); try lia; done.
Qed.

Lemma delete_obj_snapshot_op vol lba snap prev next pre t post s :
  ready 1 s -> obj_lmt s !! mkKey vol lba = Some (pre ++ t :: post) -> snap_seq t <= snap ->
  Forall (fun e => snap < snap_seq e) pre -> snap < next -> next < UINT32_MAX ->
  exists rc s', delete_obj_snapshot vol lba snap prev next s = Done (rc, s') /\ op_step s s'
    /\ ((rc = - EAGAIN /\ s' = s
         /\ abnormal (hd_error post) || abnormal (Some t) || abnormal (last pre) = true)
        \/ (rc = 0 /\ obj_lmt s' = put_chain (mkKey vol lba) (snap_chain next pre t post) (obj_lmt s))).
Proof.
  intros Hrd Hk Ht Hpre Hsn Hn. pose proof (ready_room _ _ Hrd) as Hr. destruct Hrd as [Hok Hf _].
  rewrite (delete_obj_snapshot_cases _ _ _ _ _ pre t post) by done. unfold snap_chain.
  assert (Hin : t ∈ pre ++ t :: post) by (apply elem_of_app; right; left).
  destruct (_ || abnormal (last pre)) eqn:Hab.
  { exists (- EAGAIN), s. splits; [done|by apply op_refl|by left]. }
  apply orb_false_iff in Hab as [_ Hln]. destruct (Z.leb_spec (next_seq pre) next) as [Hle|Hlt].
  - unfold delete_or_delay. destruct (last pre) as [e|] eqn:El; simpl of_option; cbn [obind].
    2:{ unfold next_seq in Hle. rewrite El in Hle. lia. }
    unfold abnormal in Hln. apply negb_false_iff, bool_decide_eq_true in Hln. rewrite decide_True by done.
    destruct (delete_obj_op s _ _ t Hok Hf Hr Hk Hin) as (s' & -> & Hop & Hl). cbn [obind].
    exists 0, s'. splits; [done|done|]. right. split; [done|]. rewrite Hl, filter_offset_out; [done|].
    by eapply nodup_offs_chain.
  - destruct (change_seq_raise s _ pre t post next Hok Hf Hr Hk) as (s' & -> & Hop & Hl); [lia| |].
    { apply next_seq_below; [|lia]. apply (chain_desc _ _ _ Hok) in Hk. by eapply StronglySorted_app_1_l. }
    exists 0, s'. splits; [done|done|]. right. split; [done|]. rewrite Hl. by destruct pre.
Qed.
End Deletion.

(** ** Loops *)
Section Loops.
Implicit Types (s : store) (c : chain) (e : lmt_entry) (n : nat).

Lemma delete_obj_snapshot_total vol lba snap prev next s :
  ready 1 s -> snap < next -> next < UINT32_MAX ->
  (forall c, obj_lmt s !! mkKey vol lba = Some c -> Exists (fun e => snap_seq e <= snap) c) ->
  exists rc s', delete_obj_snapshot vol lba snap prev next s = Done (rc, s') /\ op_step s s'
    /\ (forall k, k <> mkKey vol lba -> obj_lmt s' !! k = obj_lmt s !! k).
Proof.
  intros Hrd Hsn Hn Hex. destruct (obj_lmt s !! mkKey vol lba) as [c|] eqn:Hk.
  - destruct (find_target_spec snap None c (Hex c eq_refl)) as (pre & t & post & -> & Ht & Hpre & _).
    destruct (delete_obj_snapshot_op vol lba snap prev next pre t post s)
      as (rc & s' & H1 & H2 & [(_ & -> & _)|[_ Hl]]); try done.
    + by exists rc, s.
    + exists rc, s'. splits; [done|done|]. intros k Hne. rewrite Hl. unfold put_chain.
      destruct (snap_chain _ _ _ _); [by rewrite lookup_delete_ne|by rewrite lookup_insert_ne].
  - unfold delete_obj_snapshot. rewrite Hk. eexists _, s. splits; [done| |done]. by apply op_refl, Hrd.
Qed.

(** Within one shard the loop of [delete_snapshot] visits a block once. *)
Lemma delete_snapshot_loop_steps n vol lba st snap prev next s :
  ready n s -> snap < next -> next < UINT32_MAX -> 0 < st ->
  (forall lba' c, lba <= lba' -> obj_lmt s !! mkKey vol lba' = Some c -> Exists (fun e => snap_seq e <= snap) c) ->
  exists s', delete_snapshot_loop n vol lba st snap prev next s = Done s' /\ op_steps n s s'.
Proof.
  intros Hrd Hsn Hn Hst. revert lba s Hrd. induction n as [|n IH]; intros lba s Hrd Hex; cbn [delete_snapshot_loop].
  { exists s. split; [done|constructor]. }
  destruct (delete_obj_snapshot_total vol lba snap prev next s) as (rc & s1 & -> & Hop & Hoth); try done.
  { eapply ready_le; [|done]. lia. } { intros c. apply Hex. lia. }
  cbn [obind]. destruct (IH (lba + st) s1) as (s2 & -> & Hs2).
  - by eapply ready_step.
  - intros lba' c Hle Hk. apply (Hex lba'); [lia|]. rewrite <- Hoth; [done|]. intros [= ->]. lia.
  - exists s2. split; [done|]. by eapply os_cons.
Qed.

Lemma delete_all_steps key c s :
  ready (length c) s -> obj_lmt s !! key = Some c ->
  exists s', delete_all key (addrs c) s = Done s' /\ op_steps (length c) s s'
    /\ obj_lmt s' = delete key (obj_lmt s).
Proof.
  revert s. induction c as [|e c IH]; intros s Hrd Hk.
  { by apply chain_not_empty in Hk; [|apply Hrd]. }
  change (addrs (e :: c)) with (e_addr e :: addrs c). cbn [delete_all].
  pose proof (nodup_offs_chain _ _ _ (rd_ok _ _ Hrd) Hk) as Hnd.
  destruct (delete_obj_op s key (e :: c) e) as (s1 & -> & Hop & Hl);
    [apply Hrd|apply Hrd|by eapply ready_room|done|left|].
  change (e :: c) with ([] ++ e :: c) in Hl. rewrite filter_offset_out in Hl by done. cbn [obind app] in *.
  pose proof (ready_step _ _ _ Hrd Hop) as Hrd1. destruct c as [|e2 c].
  - simpl. exists s1. splits; [done|by apply op_steps_one|done].
  - destruct (IH s1) as (s2 & -> & Hs2 & Hl2); [done|by rewrite Hl; simpl; rewrite lookup_insert_eq|].
    exists s2. splits; [done|by eapply os_cons|]. rewrite Hl2, Hl. simpl. apply delete_insert_eq.
Qed.

(** [delete_replica] writes one item for every entry it deletes. *)
Lemma delete_replica_loop_steps n vol off s :
  ready (length (entries (obj_lmt s))) s ->
  exists s', delete_replica_loop n vol off s = Done s' /\ op_steps (length (entries (obj_lmt s))) s s'.
Proof.
  revert off s. induction n as [|n IH]; intros off s Hrd; cbn [delete_replica_loop].
  { exists s. split; [done|constructor]. }
  set (key := mkKey vol _). destruct (obj_lmt s !! key) as [[|e c]|] eqn:Hk.
  - by apply chain_not_empty in Hk; [|apply Hrd].
  - destruct (decide (status e = RECOVERYING)) as [E|_].
    { assert (Hs : settled e) by (eapply chain_settled; [apply Hrd|done|left]).
      unfold settled in Hs. rewrite E in Hs. by destruct Hs. }
    pose proof (entries_lookup _ _ _ Hk) as Hp%Permutation_length. rewrite length_app in Hp.
    destruct (delete_all_steps key (e :: c) s) as (s1 & -> & Hs1 & Hl); [by eapply ready_le; [|done]; lia|done|].
    cbn [obind]. rewrite (op_steps_head _ _ _ Hs1). rewrite <- Hl in Hp. rewrite Hp in Hrd |- *.
    destruct (IH (off + objsize (head s)) s1) as (s2 & -> & Hs2); [by eapply ready_steps|].
    exists s2. split; [done|by eapply op_steps_app].
  - cbn [obind]. by apply IH.
Qed.

Lemma trim_round_steps n s : ready n s -> exists s', trim_round n s = Done s' /\ op_steps n s s'.
Proof.
  revert s. induction n as [|n IH]; intros s Hrd; cbn [trim_round].
  { exists s. split; [done|constructor]. }
  destruct (trim_step_op s) as [[_ ->]|(id & s1 & -> & Hop & _)];
    [apply Hrd|apply Hrd|by eapply ready_room|by exists s; split; [|constructor]|].
  cbn [obind]. change (0 =? - ENOENT) with false. cbn iota.
  destruct (IH s1) as (s2 & -> & Hs2); [by eapply ready_step|]. exists s2. split; [done|by eapply os_cons].
Qed.

Definition is_write (t : IoSubTask) : bool :=
  (cmd_opcode t =? S5_OP_WRITE) || (cmd_opcode t =? S5_OP_REPLICATE_WRITE).

End Loops.

(** ** The end of a copy on write *)
Section Cow.
Implicit Types (s : store) (c : chain) (e : lmt_entry) (n : nat).

Lemma find_entry_spec s key c e :
  store_ok s -> obj_lmt s !! key = Some c -> e ∈ c -> find_entry key (e_addr e) s = Done e.
Proof.
  intros Hok Hk He. unfold find_entry. rewrite Hk. simpl default.
  destruct (List.find _ c) as [x|] eqn:E.
  - apply List.find_some in E as [Hx E]. apply list_elem_of_In in Hx. apply Z.eqb_eq in E. simpl. f_equal.
    by eapply (nodup_fmap_eq e_addr c); [apply (nodup_addrs_chain _ _ _ Hok Hk)| | |].
  - eapply List.find_none in E; [|by apply list_elem_of_In]. by rewrite Z.eqb_refl in E.
Qed.

Lemma set_waiting_facts s key c a l :
  store_ok s -> obj_lmt s !! key = Some c ->
  let s' := update_entry key a (set_waiting l) s in
  same_disk s s' /\ view_of s' = view_of s /\ store_ok s'
  /\ obj_lmt s' = <[key := update_addr a (set_waiting l) c]> (obj_lmt s).
Proof.
  intros Hok Hk s'. unfold s'. rewrite (update_entry_spec s key c) by done.
  destruct (volatile_facts s key c (update_addr a (set_waiting l) c) Hok Hk) as (? & ? & ?).
  - unfold strip_chain, update_addr. rewrite <- list_fmap_compose. apply list_fmap_ext.
    intros i x _. unfold compose. by destruct (_ =? _).
  - by apply update_addr_addrs.
  - by splits.
Qed.

(** What the end of a copy is called with: two entries of the block. *)
Record cow_pair (k0 : lmt_key) (src dst : Z) (s : store) (c : chain) (es ed : lmt_entry) : Prop := mkPair {
  cp_chain : obj_lmt s !! k0 = Some c;
  cp_src : es ∈ c;
  cp_dst : ed ∈ c;
  cp_src_a : e_addr es = src;
  cp_dst_a : e_addr ed = dst;
  cp_writes : Forall (fun t => is_write t = true /\ io_key s t = k0 /\ cmd_snap_seq t = snap_seq ed) (waiting_io ed)
}.

Lemma addrs_elem e c : e ∈ c -> e_addr e ∈ addrs c.
Proof. apply list_elem_of_fmap_2. Qed.

Lemma elem_addrs a c : a ∈ addrs c -> exists e, e ∈ c /\ e_addr e = a.
Proof. intros (e & -> & He)%list_elem_of_fmap. by exists e. Qed.

(** The newest entry of the block while the waiting writes of an entry with
    number [q] are given to [do_write]: a younger entry, or that entry. *)
Definition redo_head (q : Z) (e : lmt_entry) : Prop :=
  settled e /\ (q < snap_seq e \/ snap_seq e = q /\ (status e = COPYING -> waiting_io e = [])).

(** The same metadata on disk and in the log. *)
Definition silent s s' : Prop := same_disk s s' /\ view_of s' = view_of s /\ store_ok s'.

Lemma silent_refl s : store_ok s -> silent s s.
Proof. done. Qed.

Lemma silent_trans s1 s2 s3 : silent s1 s2 -> silent s2 s3 -> silent s1 s3.
Proof.
  intros ([? ? ? ? ?] & ? & _) ([? ? ? ? ?] & ? & ?). split; [split; congruence|split; [congruence|done]].
Qed.

Lemma silent_act a s : store_ok s -> silent s (act a s).
Proof. intros Hok. split; [done|split; [done|]]. by eapply store_ok_same; [| |exact Hok]. Qed.

Lemma silent_step s s1 s2 : op_step s s1 -> silent s1 s2 -> op_step s s2.
Proof. intros H (H1 & H2 & H3). by eapply op_step_silent. Qed.

(** No write of the list starts a copy, and at most the first one waits. *)
Lemma redo_writes_spec fuel l k0 q s e c :
  (length l <= fuel)%nat -> store_ok s -> obj_lmt s !! k0 = Some (e :: c) -> redo_head q e ->
  Forall (fun t => is_write t = true /\ io_key s t = k0 /\ cmd_snap_seq t = q) l ->
  exists s', redo_writes fuel l s = Done s' /\ silent s s' /\ grows s s'.
Proof.
  intros Hf Hok Hk [Hse Hq] Hl. revert fuel s Hf Hok Hk Hl. induction l as [|t l IH]; intros fuel s Hf Hok Hk Hl.
  { destruct fuel; exists s; (splits; [done|by apply silent_refl|by apply grows_same]). }
  destruct fuel as [|fuel]; [simpl in Hf; lia|]. cbn [redo_writes].
  inversion Hl as [|? ? (Ht & Hkey & Hseq) Hl']; subst. unfold is_write in Ht. rewrite Ht. cbn [negb].
  assert (Hcont : forall a, exists s', redo_writes fuel l (act a s) = Done s' /\ silent s s' /\ grows s s').
  { intros a. destruct (IH fuel (act a s)) as (s' & -> & Hop & Hg); try done.
    - simpl in Hf. lia.
    - by apply silent_act.
    - exists s'. splits; [done| |by eapply grows_trans; [apply grows_same|]].
      eapply silent_trans; [by apply silent_act|done]. }
  unfold do_write, io_next. rewrite Hk. destruct (decide (status e = RECOVERYING)); [destruct Hse; congruence|].
  destruct (Z.eqb_spec (cmd_snap_seq t) (snap_seq e)) as [Eq|Hne].
  - destruct (decide (status e = NORMAL)) as [En|Hnn].
    + destruct (decide (status e = COPYING)); [congruence|]. cbn [obind submit_write]. apply Hcont.
    + destruct (decide (status e = COPYING)) as [|Hnc]; [|by destruct Hse]. cbn [obind].
      destruct Hq as [?|[_ Hw]]; [lia|]. rewrite Hw by (by destruct Hse).
      pose proof (volatile_facts s (io_key s t) (e :: c) (set_waiting [t] e :: c) Hok Hk eq_refl eq_refl) as Hsil.
      destruct fuel; (eexists; splits; [done|exact Hsil|]);
        (eapply (grows_insert _ _ _ (e :: c)); [done|by rewrite Hk|done]).
  - destruct (Z.ltb_spec (cmd_snap_seq t) (snap_seq e)); [|destruct Hq as [?|[? _]]; lia].
    cbn [obind]. apply Hcont.
Qed.

(** After the waiting writes the source is still there, and no entry
    outside of a recovery waits to be deleted. *)
Lemma redo_writes_end l k0 key_mem q a s e c :
  store_ok s -> obj_lmt s !! k0 = Some (e :: c) -> redo_head q e -> a ∈ addrs (e :: c) ->
  Forall (fun t => is_write t = true /\ io_key s t = k0 /\ cmd_snap_seq t = q) l ->
  exists s', (let* s := redo_writes (length l) l s in
              let* es := find_entry k0 a s in
              if decide (status es = DELAY_DELETE_AFTER_COW) then
                let* (_, s) := delete_obj key_mem a s in Done s
              else Done s) = Done s' /\ silent s s'.
Proof.
  intros Hok Hk Hh Ha Hl.
  destruct (redo_writes_spec (length l) l k0 q s e c ltac:(lia) Hok Hk Hh Hl) as (s1 & -> & Hs & Hg).
  cbn [obind]. destruct (Hg k0 _ Hk) as (c1 & Hk1 & Hsub). apply Hsub, elem_addrs in Ha as (e1 & He & <-).
  pose proof (proj2 (proj2 Hs)) as Hok1. rewrite (find_entry_spec s1 k0 c1 e1) by done. cbn [obind].
  pose proof (chain_settled _ _ _ _ Hok1 Hk1 He) as Hse.
  rewrite decide_False by (destruct Hse; congruence). by exists s1.
Qed.

(** The newest entry of a chain that holds an entry. *)
Lemma chain_head s k0 c ed :
  store_ok s -> obj_lmt s !! k0 = Some c -> ed ∈ c ->
  exists e r, c = e :: r /\ settled e /\ (snap_seq ed < snap_seq e \/ e = ed).
Proof.
  intros Hok Hk Hd. destruct c as [|e r]; [by apply elem_of_nil in Hd|]. exists e, r.
  splits; [done|eapply chain_settled; [done|done|left]|].
  apply elem_of_cons in Hd as [->|Hd]; [by right|left].
  pose proof (chain_desc _ _ _ Hok Hk) as Hdesc. inversion Hdesc as [|? ? _ Hall]; subst.
  rewrite Forall_forall in Hall. by apply Hall.
Qed.

Lemma cow_success_step k0 src dst s c es ed :
  ready 1 s -> cow_pair k0 src dst s c es ed ->
  exists s', cow_success k0 k0 src dst s = Done s' /\ op_step s s'.
Proof.
  intros Hrd [Hk Hs Hd <- <- Hw]. unfold cow_success.
  rewrite (find_entry_spec s k0 c ed) by (try apply Hrd; done). cbn [obind].
  destruct (status_op s k0 c ed NORMAL) as (s1 & -> & Hop & Hl1 & _ & _);
    [apply Hrd|apply Hrd|by eapply ready_room|done|done|by left|]. cbn [obind].
  set (c1 := update_addr (e_addr ed) (set_status NORMAL) c) in *.
  pose proof (op_step_ok _ _ Hop) as Hok1.
  assert (Hk1 : obj_lmt s1 !! k0 = Some c1) by (rewrite Hl1; apply lookup_insert_eq).
  destruct (set_waiting_facts s1 k0 c1 (e_addr ed) [] Hok1 Hk1) as (Hd2 & Hv2 & Hok2 & Hl2).
  set (s2 := update_entry k0 (e_addr ed) (set_waiting []) s1) in *.
  set (c2 := update_addr (e_addr ed) (set_waiting []) c1) in *.
  assert (Hk2 : obj_lmt s2 !! k0 = Some c2) by (rewrite Hl2; apply lookup_insert_eq).
  destruct (chain_head s k0 c ed (rd_ok _ _ Hrd) Hk Hd) as (e & r & -> & Hse & Hcase).
  assert (Hh2 : exists e2 r2, c2 = e2 :: r2 /\ redo_head (snap_seq ed) e2).
  { unfold c2, c1, update_addr. csimpl. eexists _, _. split; [done|].
    destruct (Z.eqb_spec (e_addr e) (e_addr ed)) as [Ea|Ea]; simpl; rewrite ?(proj2 (Z.eqb_eq _ _) Ea), ?(proj2 (Z.eqb_neq _ _) Ea).
    - split; [by left|]. simpl. destruct Hcase as [Hlt| ->]; [by left|by right].
    - split; [done|]. destruct Hcase as [Hlt| ->]; [by left|done]. }
  destruct Hh2 as (e2 & r2 & Ec2 & Hh).
  destruct (redo_writes_end (waiting_io ed) k0 k0 (snap_seq ed) (e_addr es) s2 e2 r2) as (s3 & -> & Hs3);
    [done|by rewrite <- Ec2|done| | |].
  - rewrite <- Ec2. unfold c2. rewrite update_addr_addrs by done. unfold c1. rewrite update_addr_addrs by done.
    by apply addrs_elem.
  - eapply Forall_impl; [exact Hw|]. intros t (? & <- & ?). splits; [done| |done].
    unfold io_key. by rewrite (sd_head _ _ Hd2), (op_step_head _ _ Hop).
  - exists s3. split; [done|]. eapply silent_step; [|done]. by eapply silent_step.
Qed.

Lemma range_spec lo hi x : reflect (lo <= x < hi) ((lo <=? x) && (x <? hi)).
Proof. destruct (lo <=? x) eqn:?, (x <? hi) eqn:?; simpl; constructor; lia. Qed.

Lemma memcpy_in (m : Z -> Z) (a n : Z) (buf : Z -> Z) (x : Z) : a <= x < a + n -> memcpy_at m a n buf x = buf (x - a).
Proof. intros H. unfold memcpy_at. by destruct (range_spec a (a + n) x). Qed.

Lemma memcpy_out (m : Z -> Z) (a n : Z) (buf : Z -> Z) (x : Z) : ~ (a <= x < a + n) -> memcpy_at m a n buf x = m x.
Proof. intros H. unfold memcpy_at. by destruct (range_spec a (a + n) x). Qed.

(** The copy loop reads and writes all chunks when the device does. *)
Lemma cow_copy_data n j src dst s :
  dev_faults (dev s) = [] ->
  exists f, cow_copy n j src dst s = (true, with_data f s)
    /\ (0 <= j -> src + (j + Z.of_nat n) * COW_OBJ_SIZE <= dst \/ dst + (j + Z.of_nat n) * COW_OBJ_SIZE <= src ->
        forall x, f x = if (dst + j * COW_OBJ_SIZE <=? x) && (x <? dst + (j + Z.of_nat n) * COW_OBJ_SIZE)
                        then dev_data (dev s) (src + (x - dst)) else dev_data (dev s) x).
Proof.
  revert j s. induction n as [|n IH]; intros j s Hf; cbn [cow_copy].
  - exists (dev_data (dev s)). split.
    + f_equal. destruct s as [? ? ? ? ? ? ? ? ? ? d ?]. unfold with_data, with_dev, set_dev_data. simpl. by destruct d.
    + intros Hj Hdis x. destruct (range_spec (dst + j * COW_OBJ_SIZE) (dst + (j + Z.of_nat 0) * COW_OBJ_SIZE) x); [lia|done].
  - unfold next_fault. rewrite Hf. simpl. rewrite Hf.
    set (g := memcpy_at _ _ _ _). fold (with_data g s). destruct (IH (j + 1) (with_data g s)) as (f & -> & Hd); [done|].
    exists f. split; [done|]. intros Hj Hdis x.
    rewrite Hd; [|lia|change COW_OBJ_SIZE with 131072 in *; lia]. simpl dev_data. unfold g, memcpy_at.
    replace (j + 1 + Z.of_nat n) with (j + Z.of_nat (S n)) by lia.
    destruct (range_spec (dst + (j + 1) * COW_OBJ_SIZE) (dst + (j + Z.of_nat (S n)) * COW_OBJ_SIZE) x),
      (range_spec (dst + j * COW_OBJ_SIZE) (dst + (j + Z.of_nat (S n)) * COW_OBJ_SIZE) x),
      (range_spec (dst + j * COW_OBJ_SIZE) (dst + j * COW_OBJ_SIZE + COW_OBJ_SIZE) x),
      (range_spec (dst + j * COW_OBJ_SIZE) (dst + j * COW_OBJ_SIZE + COW_OBJ_SIZE) (src + (x - dst)));
      try (f_equal; lia); change COW_OBJ_SIZE with 131072 in *; lia.
Qed.

(** The whole of [do_cow_entry], when the captured pointer still reads the
    key: the data is copied, then comes the step of [cow_success]. *)
Lemma do_cow_entry_step k0 src dst s c es ed :
  ready 1 s -> cow_pair k0 src dst s c es ed ->
  let n := Z.of_nat (Z.to_nat (objsize (head s) / COW_OBJ_SIZE)) * COW_OBJ_SIZE in
  exists f s', do_cow_entry k0 k0 src dst s = Done s' /\ op_step (with_data f s) s'
    /\ (offset es + n <= offset ed \/ offset ed + n <= offset es ->
        forall x, f x = if (offset ed <=? x) && (x <? offset ed + n)
                        then dev_data (dev s) (offset es + (x - offset ed)) else dev_data (dev s) x).
Proof.
  intros Hrd Hp n. pose proof Hp as [Hk Hs Hd <- <- Hw]. unfold do_cow_entry.
  rewrite (find_entry_spec s k0 c es), (find_entry_spec s k0 c ed) by (try apply Hrd; done). cbn [obind].
  destruct (cow_copy_data (Z.to_nat (objsize (head s) / COW_OBJ_SIZE)) 0 (offset es) (offset ed) s)
    as (f & -> & Hf); [apply Hrd|].
  destruct (cow_success_step k0 (e_addr es) (e_addr ed) (with_data f s) c es ed)
    as (s' & -> & Hs'); [by apply ready_data|by split|].
  exists f, s'. splits; [done|done|]. rewrite !Z.add_0_l, Z.mul_0_l, Z.add_0_r in Hf. fold n in Hf. by apply Hf.
Qed.

Lemma fail_writes_op l s s' : op_step s s' -> op_step s (fail_writes l s').
Proof. revert s'. induction l as [|t l IH]; intros s' H; [done|]. cbn [fail_writes]. by apply IH, op_act. Qed.

Lemma end_cow_scc_step k0 src dst rc s c es ed :
  store_ok s -> cow_pair k0 src dst s c es ed ->
  exists s', end_cow_scc k0 k0 src dst rc s = Done s' /\ op_step s s'.
Proof.
  intros Hok [Hk Hs Hd <- <- Hw]. unfold end_cow_scc.
  rewrite (find_entry_spec s k0 c ed) by done. cbn [obind].
  destruct (set_waiting_facts s k0 c (e_addr ed) [] Hok Hk) as (Hd2 & Hv2 & Hok2 & Hl2).
  set (s2 := update_entry k0 (e_addr ed) (set_waiting []) s) in *.
  set (c2 := update_addr (e_addr ed) (set_waiting []) c) in *.
  assert (Hop : op_step s s2) by (by apply op_silent).
  destruct (rc =? 0).
  - destruct (chain_head s k0 c ed Hok Hk Hd) as (e & r & -> & Hse & Hcase).
    assert (Hh2 : exists e2 r2, c2 = e2 :: r2 /\ redo_head (snap_seq ed) e2).
    { unfold c2, update_addr. csimpl. eexists _, _. split; [done|].
      destruct (Z.eqb_spec (e_addr e) (e_addr ed)) as [Ea|Ea].
      - split; [done|]. simpl. destruct Hcase as [Hlt| ->]; [by left|by right].
      - split; [done|]. destruct Hcase as [Hlt| ->]; [by left|done]. }
    destruct Hh2 as (e2 & r2 & Ec2 & Hh).
    destruct (redo_writes_end (waiting_io ed) k0 k0 (snap_seq ed) (e_addr es) s2 e2 r2) as (s3 & -> & Hs3);
      [done|by rewrite <- Ec2, Hl2, lookup_insert_eq|done| | |].
    + rewrite <- Ec2. unfold c2. rewrite update_addr_addrs by done. by apply addrs_elem.
    + eapply Forall_impl; [exact Hw|]. intros t (? & <- & ?). splits; [done| |done].
      unfold io_key. by rewrite (sd_head _ _ Hd2).
    + exists s3. split; [done|]. by eapply silent_step.
  - eexists. split; [done|]. by apply fail_writes_op.
Qed.
End Cow.
