(* ===== verification/MetaData.v ===== *)
(** * The byte format of a metadata zone

    Model of [LmtEntrySerializer], [save_fixed_queue], [load_fixed_queue] and
    of the parts of [save_meta_data] and [load_meta_data] of
    src/pfs/src/pf_flash_store.cpp that write and read a zone, on the stream
    of src/pfs/src/pf_md5.cpp.  Store.v keeps a zone as an image of the
    queues and the map; the theorem of this file is that the bytes written
    for an image are read back as that image, with the checksum matching.

    The device is a function from positions to bytes.  The checksum is the
    one of the isa-l_crypto library, a function of the bytes hashed. *)

From Stdlib Require Import ZArith Lia.
From stdpp Require Import base tactics list numbers gmap.
From S2P Require Import Prelude Bytes FixedQueue Ids Lmt Store StoreOps Handlers.

(** ** [MD5Stream] *)
Record stream : Type := mkStream {
  st_mem : Z -> Z;
  spdk_engine : bool;
  st_faults : list (option Z);
  st_errno : Z;
  st_hash : list Z
}.

(** The bytes of a buffer, and a buffer that holds given bytes. *)
Definition bytes_of (buf : Z -> Z) (n : Z) : list Z := buf <$> seqZ 0 n.
Definition buf_of (l : list Z) : Z -> Z := fun i => default 0 (arr_get l i).
Definition zero_buf : Z -> Z := fun _ => 0.

Definition st_fault (st : stream) : option Z * stream :=
  match st_faults st with
  | [] => (None, st)
  | f :: r =>
      (f, mkStream (st_mem st) (spdk_engine st) r
            (match f with Some e => e | None => st_errno st end) (st_hash st))
  end.

(** [MD5Stream::write] and [MD5Stream::read]: -1 with the SPDK engine and
    [-errno] otherwise when the device fails. *)
Definition stream_write (buf : Z -> Z) (count off : Z) (st : stream) : Z * stream :=
  let (f, st) := st_fault st in
  match f with
  | Some e => (if spdk_engine st then -1 else - e, st)
  | None =>
      (0, mkStream (memcpy_at (st_mem st) off count buf) (spdk_engine st) (st_faults st) (st_errno st) (st_hash st))
  end.

Definition stream_read (count off : Z) (st : stream) : Z * (Z -> Z) * stream :=
  let (f, st) := st_fault st in
  match f with
  | Some e => (if spdk_engine st then -1 else - e, zero_buf, st)
  | None => (0, (fun i => st_mem st (off + i)), st)
  end.

Definition hash_more (l : list Z) (st : stream) : stream :=
  mkStream (st_mem st) (spdk_engine st) (st_faults st) (st_errno st) (st_hash st ++ l).

Definition write_calc (buf : Z -> Z) (count off : Z) (st : stream) : Z * stream :=
  let (rc, st) := stream_write buf count off st in
  if negb (rc =? 0) then (rc, st) else (0, hash_more (bytes_of buf count) st).

Definition read_calc (count off : Z) (st : stream) : Z * (Z -> Z) * stream :=
  let '(rc, buf, st) := stream_read count off st in
  if negb (rc =? 0) then (rc, buf, st) else (0, buf, hash_more (bytes_of buf count) st).

(** [finalize]: the digest of all bytes and a page of zeros. *)
Definition finalize (digest : list Z -> Z) (st : stream) : Z :=
  digest (st_hash st ++ replicate (Z.to_nat LBA_LENGTH) 0).

(** ** Queues *)
Definition up_align (number alignment : Z) : Z := (number + alignment - 1) / alignment * alignment.

(** The array of a queue as bytes in memory. *)
Definition int_bytes (d : list Z) : list Z := concat (le 4 <$> d).
Definition read_int (buf : Z -> Z) (i : Z) : Z := sext 4 (unle (bytes_of (fun k => buf (4 * i + k)) 4)).

(** [memcpy(buf, data + src, s)] into a zeroed buffer *)
Definition chunk (d : Z -> Z) (src s : Z) : Z -> Z := memcpy_at zero_buf 0 s (fun i => d (src + i)).

Fixpoint save_chunks (fuel : nat) (d : Z -> Z) (total src off buf_size : Z) (st : stream) : outcome (Z * stream) :=
  if src <? total then
    match fuel with
    | O => Undef
    | S fuel =>
        let s := Z.min (total - src) buf_size in
        let (rc, st) := write_calc (chunk d src s) (up_align s LBA_LENGTH) (off + src + LBA_LENGTH) st in
        if rc =? -1 then Done (- st_errno st, st)
        else save_chunks fuel d total (src + s) off buf_size st
    end
  else Done (0, st).

Definition queue_head_page (q : PfFixedSizeQueue Z) : Z -> Z :=
  buf_of (le 4 (q_depth q) ++ le 4 (q_head q) ++ le 4 (q_tail q)).

Definition save_fixed_queue (q : PfFixedSizeQueue Z) (off buf_size : Z) (st : stream) : outcome (Z * stream) :=
  let (rc, st) := write_calc (queue_head_page q) LBA_LENGTH off st in
  if rc =? -1 then Done (- st_errno st, st)
  else save_chunks (S (length (q_data q))) (buf_of (int_bytes (q_data q))) (q_depth q * 4) 0 off buf_size st.

Fixpoint load_chunks (fuel : nat) (total src off buf_size : Z) (d : Z -> Z) (st : stream)
    : outcome (Z * (Z -> Z) * stream) :=
  if src <? total then
    match fuel with
    | O => Undef
    | S fuel =>
        let s := Z.min (total - src) buf_size in
        let '(rc, buf, st) := read_calc (up_align s LBA_LENGTH) (off + src + LBA_LENGTH) st in
        if negb (rc =? 0) then Done (- st_errno st, d, st)
        else load_chunks fuel total (src + s) off buf_size (memcpy_at d src s buf) st
    end
  else Done (0, d, st).

(** The queue is set up with one element less than the saved depth: [init]
    adds the cell that is never used. *)
Definition load_fixed_queue (off buf_size : Z) (st : stream) : outcome (Z * PfFixedSizeQueue Z * stream) :=
  let '(rc, page, st) := read_calc LBA_LENGTH off st in
  if negb (rc =? 0) then Done (rc, empty_queue, st)
  else
    let (rc, q) := queue_init 0 true (read_int page 0 - 1) in
    if negb (rc =? 0) then Done (rc, q, st)
    else
      let* (r, st) := load_chunks (S (Z.to_nat (q_depth q))) (q_depth q * 4) 0 off buf_size
                        (buf_of (int_bytes (q_data q))) st in
      let (rc, d) := r in
      Done (rc, mkQueue (read_int page 2) (read_int page 1) (q_depth q)
                  (read_int d <$> seqZ 0 (q_depth q)), st).

(** ** Regions of the device *)
Definition region (m : Z -> Z) (a n : Z) : list Z := bytes_of (fun i => m (a + i)) n.

Section Regions.
Implicit Types (m buf : Z -> Z) (st : stream).

Lemma region_ext m m' a n : (forall x, a <= x < a + n -> m x = m' x) -> region m a n = region m' a n.
Proof.
  intros H. unfold region, bytes_of. apply list_fmap_ext. intros i x Hx.
  apply list_elem_of_lookup_2, elem_of_seqZ in Hx. apply H. lia.
Qed.

Lemma region_app m a n k : 0 <= n -> 0 <= k -> region m a (n + k) = region m a n ++ region m (a + n) k.
Proof.
  intros Hn Hk. unfold region, bytes_of. rewrite seqZ_app by done. rewrite fmap_app. f_equal.
  replace (seqZ (0 + n) k) with (Z.add n <$> seqZ 0 k) by (rewrite fmap_add_seqZ; f_equal; lia).
  rewrite <- list_fmap_compose. apply list_fmap_ext. intros i x _. unfold compose. f_equal. lia.
Qed.

Lemma region_memcpy m a n buf : region (memcpy_at m a n buf) a n = bytes_of buf n.
Proof.
  unfold region, bytes_of. apply list_fmap_ext. intros i x Hx.
  apply list_elem_of_lookup_2, elem_of_seqZ in Hx. unfold memcpy_at.
  destruct (range_spec a (a + n) (a + x)); [f_equal; lia|lia].
Qed.

(** A stream whose device does not fail. *)
Definition clean st : Prop := st_faults st = [].
Definition st_put m (h : list Z) st : stream := mkStream m (spdk_engine st) (st_faults st) (st_errno st) (st_hash st ++ h).

Lemma write_calc_ok buf n off st :
  clean st -> write_calc buf n off st = (0, st_put (memcpy_at (st_mem st) off n buf) (bytes_of buf n) st).
Proof. unfold clean, write_calc, stream_write, st_fault. by intros ->. Qed.

Lemma read_calc_ok n off st :
  clean st -> read_calc n off st = (0, (fun i => st_mem st (off + i)), st_put (st_mem st) (region (st_mem st) off n) st).
Proof. unfold clean, read_calc, stream_read, st_fault. by intros ->. Qed.

Lemma st_put_put m1 h1 m2 h2 st : st_put m2 h2 (st_put m1 h1 st) = st_put m2 (h1 ++ h2) st.
Proof. unfold st_put. simpl. by rewrite app_assoc. Qed.

Lemma st_put_nil m a st : st_put (st_mem st) (region m a 0) st = st.
Proof. unfold st_put. change (region m a 0) with (@nil Z). rewrite app_nil_r. by destruct st. Qed.

Lemma up_align_ge n : 0 <= n -> n <= up_align n LBA_LENGTH.
Proof. unfold up_align, LBA_LENGTH. intros. pose proof (Z.div_mod (n + 4096 - 1) 4096). pose proof (Z.mod_pos_bound (n + 4096 - 1) 4096). lia. Qed.

Lemma up_align_mult n k : up_align (LBA_LENGTH * k + n) LBA_LENGTH = LBA_LENGTH * k + up_align n LBA_LENGTH.
Proof.
  unfold up_align, LBA_LENGTH. replace (4096 * k + n + 4096 - 1) with (n + 4096 - 1 + k * 4096) by lia.
  rewrite Z.div_add by lia. lia.
Qed.

Lemma up_align_0 : up_align 0 LBA_LENGTH = 0.
Proof. done. Qed.

(** The bytes the chunks of a queue cover from [src] on. *)
Definition rest (total src : Z) : Z := if src <? total then up_align total LBA_LENGTH - src else 0.
End Regions.

Section Chunks.
Context (total off buf_size kb : Z) (Hb : buf_size = LBA_LENGTH * kb) (Hkb : 0 < kb).
Implicit Types (m buf d : Z -> Z) (st : stream).

(** The size of the chunk at [src], and where the next one starts. *)
Lemma chunk_facts src k :
  src = buf_size * k -> 0 <= k -> src < total ->
  let s := Z.min (total - src) buf_size in
  0 < s /\ s <= up_align s LBA_LENGTH /\ up_align s LBA_LENGTH <= rest total src
  /\ rest total src = up_align s LBA_LENGTH + rest total (src + s)
  /\ (src + s < total -> src + s = buf_size * (k + 1) /\ up_align s LBA_LENGTH = s)
  /\ 0 <= rest total (src + s).
Proof using Hb Hkb.
  intros Es Hk Hlt s. assert (Hs : 0 < s) by (unfold s, LBA_LENGTH in *; lia).
  pose proof (up_align_ge s ltac:(lia)) as Hge.
  unfold rest. rewrite (proj2 (Z.ltb_lt _ _) Hlt).
  destruct (Z.le_gt_cases (total - src) buf_size) as [Hlast|Hmore].
  - assert (Es' : s = total - src) by (unfold s; lia).
    assert (Ha : up_align total LBA_LENGTH = src + up_align s LBA_LENGTH).
    { replace total with (LBA_LENGTH * (kb * k) + s) at 1 by (rewrite Es', Es, Hb; lia).
      rewrite up_align_mult. rewrite Es, Hb. lia. }
    rewrite (proj2 (Z.ltb_ge (src + s) total)) by lia. repeat split; lia.
  - assert (Es' : s = buf_size) by (unfold s; lia).
    assert (Ha : up_align s LBA_LENGTH = s).
    { rewrite Es', Hb. rewrite <- (Z.add_0_r (LBA_LENGTH * kb)) at 1. by rewrite up_align_mult, up_align_0, Z.add_0_r. }
    rewrite (proj2 (Z.ltb_lt (src + s) total)) by lia.
    pose proof (up_align_ge total ltac:(unfold LBA_LENGTH in *; nia)). repeat split; lia.
Qed.

(** Where a loop over the chunks can be. *)
Definition at_chunk (src : Z) : Prop := total <= src \/ exists k, 0 <= k /\ src = buf_size * k.

Lemma rest_end src : total <= src -> rest total src = 0.
Proof. intros H. unfold rest. by rewrite (proj2 (Z.ltb_ge _ _) H). Qed.

Lemma chunk_next src :
  at_chunk src -> src < total -> let s := Z.min (total - src) buf_size in
  0 < s <= up_align s LBA_LENGTH /\ rest total src = up_align s LBA_LENGTH + rest total (src + s)
  /\ at_chunk (src + s) /\ 0 <= rest total (src + s)
  /\ (rest total (src + s) = 0 /\ total <= src + s \/ up_align s LBA_LENGTH = s).
Proof using Hb Hkb.
  intros [?|(k & Hk & Es)] Hlt s; [lia|]. destruct (chunk_facts src k Es Hk Hlt) as (Hs & Ha1 & _ & Hr & Hn & Hr0).
  fold s in Hs, Ha1, Hr, Hn, Hr0.
  splits; [lia|lia|done| |done|].
  - destruct (Z.le_gt_cases total (src + s)); [by left|right].
    exists (k + 1). split; [lia|]. apply Hn. lia.
  - destruct (Z.le_gt_cases total (src + s)) as [Hl|Hl]; [left|right; by apply Hn].
    split; [by apply rest_end|done].
Qed.

Lemma fuel_next src fuel :
  total - src <= buf_size * Z.of_nat (S fuel) ->
  total - (src + Z.min (total - src) buf_size) <= buf_size * Z.of_nat fuel.
Proof using Hb Hkb.
  intros Hf. rewrite Nat2Z.inj_succ, Z.mul_succ_r in Hf.
  assert (0 <= buf_size * Z.of_nat fuel) by (apply Z.mul_nonneg_nonneg; unfold LBA_LENGTH in *; lia). lia.
Qed.

(** Saving writes the bytes from [src] on and touches nothing else. *)
Lemma save_chunks_spec fuel d src st :
  clean st -> at_chunk src -> total - src <= buf_size * Z.of_nat fuel ->
  exists m, save_chunks fuel d total src off buf_size st
            = Done (0, st_put m (region m (off + LBA_LENGTH + src) (rest total src)) st)
    /\ (forall x, src <= x < total -> m (off + LBA_LENGTH + x) = d x)
    /\ (forall y, y < off + LBA_LENGTH + src \/ off + LBA_LENGTH + src + rest total src <= y -> m y = st_mem st y).
Proof using Hb Hkb.
  revert src st. induction fuel as [|fuel IH]; intros src st Hc Hat Hf; cbn [save_chunks].
  all: destruct (Z.ltb_spec src total) as [Hlt|Hge];
    [|by exists (st_mem st); rewrite (rest_end src Hge), st_put_nil; splits; [|lia|]]; try lia.
  destruct (chunk_next src Hat Hlt) as (Hs & Hr & Hat' & Hr0 & Hcase).
  set (s := Z.min (total - src) buf_size) in *. set (a := up_align s LBA_LENGTH) in *.
  rewrite write_calc_ok by done. change (0 =? -1) with false. cbn iota.
  set (m1 := memcpy_at (st_mem st) (off + src + LBA_LENGTH) a (chunk d src s)).
  destruct (IH (src + s) (st_put m1 (bytes_of (chunk d src s) a) st)) as (m & -> & Hd & Ho); [done|done|by apply fuel_next|].
  assert (Hold : forall y, y < off + LBA_LENGTH + src + a -> m y = m1 y).
  { intros y Hy. apply Ho. destruct Hcase as [[E _]|E]; lia. }
  exists m. rewrite st_put_put. splits.
  - do 3 f_equal. rewrite Hr, region_app by lia. f_equal.
    + rewrite (region_ext m m1) by (intros x Hx; apply Hold; lia).
      unfold m1. replace (off + LBA_LENGTH + src) with (off + src + LBA_LENGTH) by lia. symmetry. apply region_memcpy.
    + destruct Hcase as [[E _]|E]; [by rewrite E|]. f_equal. lia.
  - intros x Hx. destruct (Z.lt_ge_cases x (src + s)); [|apply Hd; lia].
    rewrite Hold by lia. unfold m1. simpl. rewrite memcpy_in by lia. unfold chunk. rewrite memcpy_in by lia. f_equal. lia.
  - intros y Hy. rewrite Ho by (destruct Hcase as [[E _]|E]; lia). unfold m1. simpl. apply memcpy_out. lia.
Qed.

(** Loading reads them back. *)
Lemma load_chunks_spec fuel d src st :
  clean st -> at_chunk src -> total - src <= buf_size * Z.of_nat fuel ->
  exists d', load_chunks fuel total src off buf_size d st
             = Done (0, d', st_put (st_mem st) (region (st_mem st) (off + LBA_LENGTH + src) (rest total src)) st)
    /\ (forall x, src <= x < total -> d' x = st_mem st (off + LBA_LENGTH + x))
    /\ (forall x, x < src -> d' x = d x).
Proof using Hb Hkb.
  revert src d st. induction fuel as [|fuel IH]; intros src d st Hc Hat Hf; cbn [load_chunks].
  all: destruct (Z.ltb_spec src total) as [Hlt|Hge];
    [|by exists d; rewrite (rest_end src Hge), st_put_nil; splits; [|lia|]]; try lia.
  destruct (chunk_next src Hat Hlt) as (Hs & Hr & Hat' & Hr0 & Hcase).
  set (s := Z.min (total - src) buf_size) in *. set (a := up_align s LBA_LENGTH) in *.
  rewrite read_calc_ok by done. cbn [negb Z.eqb].
  set (d1 := memcpy_at d src s _).
  destruct (IH (src + s) d1 (st_put (st_mem st) (region (st_mem st) (off + src + LBA_LENGTH) a) st))
    as (d' & -> & Hd & Ho); [done|done|by apply fuel_next|].
  exists d'. rewrite st_put_put. splits.
  - do 3 f_equal. rewrite Hr, region_app by lia. f_equal; [f_equal; lia|].
    destruct Hcase as [[E _]|E]; [by rewrite E|]. simpl. f_equal. lia.
  - intros x Hx. destruct (Z.lt_ge_cases x (src + s)); [|apply Hd; lia].
    rewrite Ho by lia. unfold d1. rewrite memcpy_in by lia. f_equal. lia.
  - intros x Hx. rewrite Ho by lia. unfold d1. apply memcpy_out. lia.
Qed.
End Chunks.

(** ** Encodings *)
Section Encodings.

Lemma buf_of_app l1 l2 k :
  0 <= k -> buf_of (l1 ++ l2) k
  = if k <? Z.of_nat (length l1) then buf_of l1 k else buf_of l2 (k - Z.of_nat (length l1)).
Proof.
  intros Hk. unfold buf_of, arr_get. destruct (Z.ltb_spec k (Z.of_nat (length l1))).
  - rewrite !decide_True by lia. f_equal. apply lookup_app_l. lia.
  - rewrite !decide_True by lia. f_equal. rewrite lookup_app_r by lia. f_equal. lia.
Qed.

Lemma bytes_of_buf l : bytes_of (buf_of l) (Z.of_nat (length l)) = l.
Proof.
  apply list_eq. intros i. unfold bytes_of. rewrite list_lookup_fmap.
  destruct (decide (i < length l)%nat) as [Hi|Hi].
  - rewrite lookup_seqZ_lt by lia. simpl. unfold buf_of, arr_get. rewrite decide_True by lia.
    rewrite Z.add_0_l, Nat2Z.id. destruct (l !! i) eqn:E; [done|]. apply lookup_ge_None in E. lia.
  - rewrite lookup_seqZ_ge by lia. simpl. symmetry. apply lookup_ge_None. lia.
Qed.

Lemma int_bytes_at d (i : nat) z k :
  d !! i = Some z -> 0 <= k < 4 -> buf_of (int_bytes d) (4 * Z.of_nat i + k) = buf_of (le 4 z) k.
Proof.
  revert i. induction d as [|y d IH]; intros i Hi Hk; [done|].
  change (int_bytes (y :: d)) with (le 4 y ++ int_bytes d).
  rewrite buf_of_app, le_length by lia. destruct i as [|i].
  - simpl in Hi. simplify_eq. rewrite (proj2 (Z.ltb_lt _ _)) by lia. done.
  - rewrite (proj2 (Z.ltb_ge _ _)) by lia. rewrite <- (IH i Hi Hk). f_equal. lia.
Qed.

Definition i32_ok (z : Z) : Prop := - 2 ^ 31 <= z < 2 ^ 31.

Lemma read_le4 buf i z :
  i32_ok z -> (forall k, 0 <= k < 4 -> buf (4 * i + k) = buf_of (le 4 z) k) -> read_int buf i = z.
Proof.
  intros Hz Hb. unfold read_int.
  assert (E : bytes_of (fun k => buf (4 * i + k)) 4 = le 4 z).
  { rewrite <- (bytes_of_buf (le 4 z)). rewrite le_length. unfold bytes_of. apply list_fmap_ext.
    intros j x Hx. apply list_elem_of_lookup_2, elem_of_seqZ in Hx. apply Hb. lia. }
  rewrite E, unle_le. apply (sext_mod 4); [lia|done].
Qed.

Lemma read_int_data buf d (i : nat) z :
  d !! i = Some z -> i32_ok z ->
  (forall x, 4 * Z.of_nat i <= x < 4 * Z.of_nat i + 4 -> buf x = buf_of (int_bytes d) x) ->
  read_int buf (Z.of_nat i) = z.
Proof.
  intros Hi Hz Hb. apply read_le4; [done|]. intros k Hk. rewrite Hb by lia. by apply int_bytes_at.
Qed.
End Encodings.

(** ** The round trip of a queue *)
Record queue_ok (q : PfFixedSizeQueue Z) : Prop := mkQueueOk {
  qo_len : Z.of_nat (length (q_data q)) = q_depth q;
  qo_depth : 1 <= q_depth q < 2 ^ 31;
  qo_head : i32_ok (q_head q);
  qo_tail : i32_ok (q_tail q);
  qo_data : Forall i32_ok (q_data q)
}.

(** The bytes a saved queue takes. *)
Definition queue_bytes (q : PfFixedSizeQueue Z) : Z := LBA_LENGTH + rest (q_depth q * 4) 0.

Section Queues.
Context (off buf_size kb : Z) (Hb : buf_size = LBA_LENGTH * kb) (Hkb : 0 < kb).
Implicit Types (st : stream) (q : PfFixedSizeQueue Z).

Lemma at_chunk_0 total : at_chunk total buf_size 0.
Proof. right. exists 0. lia. Qed.

Lemma queue_fuel q fuel : queue_ok q -> q_depth q <= Z.of_nat fuel -> q_depth q * 4 - 0 <= buf_size * Z.of_nat fuel.
Proof using Hb Hkb. intros [_ Hd _ _ _] Hf. rewrite Hb. unfold LBA_LENGTH. nia. Qed.

Lemma save_queue_spec q st :
  clean st -> queue_ok q ->
  exists m, save_fixed_queue q off buf_size st = Done (0, st_put m (region m off (queue_bytes q)) st)
    /\ (forall k, 0 <= k < LBA_LENGTH -> m (off + k) = queue_head_page q k)
    /\ (forall x, 0 <= x < q_depth q * 4 -> m (off + LBA_LENGTH + x) = buf_of (int_bytes (q_data q)) x)
    /\ (forall y, y < off \/ off + queue_bytes q <= y -> m y = st_mem st y).
Proof using Hb Hkb.
  intros Hc Hq. unfold save_fixed_queue. rewrite write_calc_ok by done. change (0 =? -1) with false. cbn iota.
  set (m1 := memcpy_at _ _ _ _).
  assert (Hr : 0 <= rest (q_depth q * 4) 0).
  { unfold rest. destruct (_ <? _); [|lia]. pose proof (up_align_ge (q_depth q * 4)). destruct Hq. lia. }
  destruct (save_chunks_spec (q_depth q * 4) off buf_size kb Hb Hkb (S (length (q_data q)))
              (buf_of (int_bytes (q_data q))) 0 (st_put m1 (bytes_of (queue_head_page q) LBA_LENGTH) st))
    as (m & -> & Hd & Ho); [done|apply at_chunk_0|apply queue_fuel; [done|destruct Hq; lia]|].
  rewrite Z.add_0_r in Ho |- *. exists m. rewrite st_put_put. unfold queue_bytes. splits.
  - do 3 f_equal. rewrite region_app by (unfold LBA_LENGTH; lia). f_equal.
    rewrite (region_ext m m1) by (intros x Hx; apply Ho; lia). symmetry. apply region_memcpy.
  - intros k Hk. rewrite Ho by lia. simpl. unfold m1. rewrite memcpy_in by lia. f_equal. lia.
  - intros x Hx. by apply Hd.
  - intros y Hy. rewrite Ho by (unfold LBA_LENGTH in *; lia). simpl. apply memcpy_out. unfold LBA_LENGTH in *. lia.
Qed.

Lemma queue_page_int q page i z :
  queue_ok q -> (forall k, 0 <= k < LBA_LENGTH -> page k = queue_head_page q k) ->
  [q_depth q; q_head q; q_tail q] !! i = Some z -> read_int page (Z.of_nat i) = z.
Proof.
  intros [H1 H2 H3 H4 H5] Hp Hi.
  apply (read_int_data page [q_depth q; q_head q; q_tail q] i z Hi).
  - unfold i32_ok in *. destruct i as [|[|[|]]]; simpl in Hi; simplify_eq; lia.
  - intros x Hx. apply lookup_lt_Some in Hi. simpl in Hi. rewrite Hp by (unfold LBA_LENGTH; lia). done.
Qed.

Lemma load_queue_spec q st :
  clean st -> queue_ok q ->
  (forall k, 0 <= k < LBA_LENGTH -> st_mem st (off + k) = queue_head_page q k) ->
  (forall x, 0 <= x < q_depth q * 4 -> st_mem st (off + LBA_LENGTH + x) = buf_of (int_bytes (q_data q)) x) ->
  load_fixed_queue off buf_size st = Done (0, q, st_put (st_mem st) (region (st_mem st) off (queue_bytes q)) st).
Proof using Hb Hkb.
  intros Hc Hq Hp Hd. unfold load_fixed_queue. rewrite read_calc_ok by done. cbn [negb Z.eqb].
  pose proof (fun i z => queue_page_int q (fun i => st_mem st (off + i)) i z Hq Hp) as Hint.
  pose proof (Hint 0%nat _ eq_refl) as H0. pose proof (Hint 1%nat _ eq_refl) as H1.
  pose proof (Hint 2%nat _ eq_refl) as H2. change (Z.of_nat 0) with 0 in H0. change (Z.of_nat 1) with 1 in H1.
  change (Z.of_nat 2) with 2 in H2. rewrite H0, H1, H2.
  unfold queue_init. pose proof Hq as [Hlen Hdep Hh Ht Hdata]. rewrite Z.sub_add.
  rewrite i32_small by lia. change (negb (0 =? 0)) with false. cbn iota. cbn [q_depth q_data].
  set (st1 := st_put _ _ st).
  destruct (load_chunks_spec (q_depth q * 4) off buf_size kb Hb Hkb (S (Z.to_nat (q_depth q)))
              (buf_of (int_bytes (replicate (Z.to_nat (q_depth q)) 0))) 0 st1)
    as (d' & -> & Hd' & _); [done|apply at_chunk_0|apply (queue_fuel q); [done|lia]|].
  cbn [obind]. rewrite Z.add_0_r. unfold st1. rewrite st_put_put. unfold queue_bytes.
  assert (Hr : 0 <= rest (q_depth q * 4) 0).
  { unfold rest. destruct (_ <? _); [|lia]. pose proof (up_align_ge (q_depth q * 4)). lia. }
  rewrite region_app by (unfold LBA_LENGTH; lia). do 3 f_equal.
  destruct q as [tl hd dep data]. simpl in *. f_equal. apply list_eq. intros i. rewrite list_lookup_fmap.
  destruct (data !! i) as [z|] eqn:Hi.
  - apply lookup_lt_Some in Hi as Hlt. rewrite lookup_seqZ_lt by lia. simpl. f_equal.
    apply (read_int_data d' data i z Hi); [by eapply Forall_lookup_1|].
    intros x Hx. rewrite Hd' by lia. apply Hd. lia.
  - apply lookup_ge_None in Hi. rewrite lookup_seqZ_ge by lia. done.
Qed.
End Queues.

(** ** [LmtEntrySerializer] *)
Record LmtEntrySerializer : Type := mkSer {
  ser_offset : Z;
  ser_buf : Z -> Z;
  ser_buf_size : Z;
  ser_pos : Z;
  ser_st : stream
}.

Definition new_serializer (off buf_size : Z) (write : bool) (st : stream) : LmtEntrySerializer :=
  mkSer off zero_buf buf_size (if write then 0 else buf_size) st.

Definition load_buffer (s : LmtEntrySerializer) : Z * LmtEntrySerializer :=
  let '(rc, buf, st) := read_calc (ser_buf_size s) (ser_offset s) (ser_st s) in
  if rc =? -1 then (- st_errno st, mkSer (ser_offset s) (ser_buf s) (ser_buf_size s) (ser_pos s) st)
  else (0, mkSer (ser_offset s + ser_buf_size s) (if rc =? 0 then buf else ser_buf s) (ser_buf_size s) 0 st).

Definition flush_buffer (s : LmtEntrySerializer) : Z * LmtEntrySerializer :=
  let (rc, st) := write_calc (ser_buf s) (ser_buf_size s) (ser_offset s) (ser_st s) in
  if rc =? -1 then (- st_errno st, mkSer (ser_offset s) (ser_buf s) (ser_buf_size s) (ser_pos s) st)
  else (0, mkSer (ser_offset s + ser_buf_size s) (ser_buf s) (ser_buf_size s) 0 st).

(** The common part of [write_key] and [write_entry], and of [read_key] and
    [read_entry]: a record never crosses the end of the buffer. *)
Definition put_record (rec : list Z) (s : LmtEntrySerializer) : Z * LmtEntrySerializer :=
  let n := Z.of_nat (length rec) in
  let (rc, s) := if ser_pos s + n >? ser_buf_size s then flush_buffer s else (0, s) in
  if negb (rc =? 0) then (rc, s)
  else (0, mkSer (ser_offset s) (memcpy_at (ser_buf s) (ser_pos s) n (buf_of rec)) (ser_buf_size s)
             (ser_pos s + n) (ser_st s)).

Definition get_record (n : Z) (s : LmtEntrySerializer) : Z * list Z * LmtEntrySerializer :=
  let (rc, s) := if ser_pos s + n >? ser_buf_size s then load_buffer s else (0, s) in
  if negb (rc =? 0) then (rc, [], s)
  else (0, region (ser_buf s) (ser_pos s) n,
        mkSer (ser_offset s) (ser_buf s) (ser_buf_size s) (ser_pos s + n) (ser_st s)).

Fixpoint put_records (l : list (list Z)) (s : LmtEntrySerializer) : Z * LmtEntrySerializer :=
  match l with
  | [] => (0, s)
  | r :: l =>
      let (rc, s) := put_record r s in
      if negb (rc =? 0) then (rc, s) else put_records l s
  end.

Section Serializer.
Context (bs : Z) (Hbs : 0 < bs).
Implicit Types (w r : LmtEntrySerializer) (m : Z -> Z) (recs : list (list Z)).

(** A reader that will deliver the records one after the other. *)
Fixpoint will_read recs (fin : LmtEntrySerializer -> Prop) r : Prop :=
  match recs with
  | [] => fin r
  | rec :: recs => exists r', get_record (Z.of_nat (length rec)) r = (0, rec, r') /\ will_read recs fin r'
  end.

Record ser_ok w : Prop := mkSerOk {
  sk_clean : clean (ser_st w);
  sk_size : ser_buf_size w = bs;
  sk_pos : 0 <= ser_pos w <= bs
}.

Definition rec_ok (rec : list Z) : Prop := Z.of_nat (length rec) <= bs.

Definition put_at (rec : list Z) w : LmtEntrySerializer :=
  mkSer (ser_offset w) (memcpy_at (ser_buf w) (ser_pos w) (Z.of_nat (length rec)) (buf_of rec)) (ser_buf_size w)
    (ser_pos w + Z.of_nat (length rec)) (ser_st w).

Definition flushed w : LmtEntrySerializer :=
  mkSer (ser_offset w + bs) (ser_buf w) bs 0
    (st_put (memcpy_at (st_mem (ser_st w)) (ser_offset w) bs (ser_buf w)) (bytes_of (ser_buf w) bs) (ser_st w)).

Lemma flush_ok w : ser_ok w -> flush_buffer w = (0, flushed w) /\ ser_ok (flushed w).
Proof using Hbs.
  intros [Hc Hs Hp]. unfold flush_buffer. rewrite Hs, write_calc_ok by done. split; [done|]. split; simpl; [done|done|lia].
Qed.

Lemma put_record_ok rec w :
  ser_ok w -> rec_ok rec ->
  let w0 := if ser_pos w + Z.of_nat (length rec) >? bs then flushed w else w in
  put_record rec w = (0, put_at rec w0) /\ ser_ok (put_at rec w0).
Proof using Hbs.
  intros Hw Hr w0. unfold w0, put_record, rec_ok in *. rewrite (sk_size _ Hw). clear w0.
  destruct (Z.gtb_spec (ser_pos w + Z.of_nat (length rec)) bs).
  - destruct (flush_ok w Hw) as [-> Hf]. split; [done|]. destruct Hf. split; simpl in *; [done|done|lia].
  - split; [done|]. destruct Hw. split; simpl; [done|done|lia].
Qed.

(** What a writer that puts [recs] and flushes leaves: the device [m] and
    the end [fin] of the blocks. *)
Record written recs w m fin w' : Prop := mkWritten {
  wr_put : exists w1, put_records recs w = (0, w1) /\ flush_buffer w1 = (0, w');
  wr_mem : st_mem (ser_st w') = m;
  wr_clean : clean (ser_st w');
  wr_end : ser_offset w' = fin /\ ser_offset w + bs <= fin;
  wr_below : forall x, x < ser_offset w -> m x = st_mem (ser_st w) x;
  wr_above : forall x, fin <= x -> m x = st_mem (ser_st w) x;
  wr_buf : forall k, 0 <= k < ser_pos w -> m (ser_offset w + k) = ser_buf w k;
  wr_hash : st_hash (ser_st w') = st_hash (ser_st w) ++ region m (ser_offset w) (fin - ser_offset w)
}.

(** A reader of the device that has loaded the block the writer is at. *)
Record reads w m r : Prop := mkReads {
  rd_clean : clean (ser_st r);
  rd_mem : st_mem (ser_st r) = m;
  rd_size : ser_buf_size r = bs;
  rd_offset : ser_offset r = ser_offset w + bs;
  rd_pos : ser_pos r = ser_pos w;
  rd_buf : forall k, 0 <= k < bs -> ser_buf r k = m (ser_offset w + k)
}.

Definition done_reading m from fin (h : list Z) r : Prop :=
  clean (ser_st r) /\ st_mem (ser_st r) = m /\ st_hash (ser_st r) = h ++ region m from (fin - from).

Lemma get_record_in n r :
  ser_pos r + n <= ser_buf_size r ->
  get_record n r = (0, region (ser_buf r) (ser_pos r) n,
                    mkSer (ser_offset r) (ser_buf r) (ser_buf_size r) (ser_pos r + n) (ser_st r)).
Proof. intros H. unfold get_record. rewrite Z.gtb_ltb, (proj2 (Z.ltb_ge _ _)) by lia. done. Qed.

Definition loaded r : LmtEntrySerializer :=
  mkSer (ser_offset r + ser_buf_size r) (fun i => st_mem (ser_st r) (ser_offset r + i)) (ser_buf_size r) 0
    (st_put (st_mem (ser_st r)) (region (st_mem (ser_st r)) (ser_offset r) (ser_buf_size r)) (ser_st r)).

Lemma get_record_load n r :
  clean (ser_st r) -> ser_buf_size r < ser_pos r + n -> n <= ser_buf_size r ->
  get_record n r = get_record n (loaded r).
Proof.
  intros Hc H Hn. unfold get_record at 1. rewrite Z.gtb_ltb, (proj2 (Z.ltb_lt _ _)) by lia.
  unfold load_buffer. rewrite read_calc_ok by done. change (0 =? -1) with false. cbn iota.
  fold (loaded r). cbn [negb Z.eqb]. rewrite get_record_in by (simpl; lia). done.
Qed.

Lemma written_nil w : ser_ok w -> written [] w (st_mem (ser_st (flushed w))) (ser_offset w + bs) (flushed w).
Proof using Hbs.
  intros Hw. pose proof (flush_ok w Hw) as [Hf Hok]. split; simpl; try done.
  - by exists w.
  - apply Hok.
  - intros x Hx. apply memcpy_out. lia.
  - intros x Hx. apply memcpy_out. lia.
  - intros k Hk. rewrite memcpy_in by (destruct Hw; lia). f_equal. lia.
  - f_equal. rewrite <- (region_memcpy (st_mem (ser_st w)) (ser_offset w)). f_equal. lia.
Qed.

(** One more record, in the block the writer is at. *)
Lemma written_in rec recs w m fin w' :
  ser_ok w -> ser_pos w + Z.of_nat (length rec) <= bs -> written recs (put_at rec w) m fin w' ->
  written (rec :: recs) w m fin w' /\ region m (ser_offset w + ser_pos w) (Z.of_nat (length rec)) = rec.
Proof using Hbs.
  intros Hw Hr [(w1 & Hp & Hf) Hm Hc He Hb Ha Hk Hh]. simpl in *. split.
  - split; try done.
    + exists w1. split; [|done]. cbn [put_records]. destruct (put_record_ok rec w Hw ltac:(unfold rec_ok; destruct Hw; lia)) as [E _].
      rewrite Z.gtb_ltb, (proj2 (Z.ltb_ge _ _)) in E by lia. rewrite E. cbn [negb Z.eqb]. done.
    + intros k Hkk. rewrite Hk by lia. apply memcpy_out. lia.
  - rewrite <- (bytes_of_buf rec) at 2. unfold region, bytes_of. apply list_fmap_ext. intros i x Hx.
    apply list_elem_of_lookup_2, elem_of_seqZ in Hx. rewrite <- Z.add_assoc, Hk by (destruct Hw; lia).
    rewrite memcpy_in by lia. f_equal. lia.
Qed.

(** One more record, in the next block. *)
Lemma written_flush rec recs w m fin w' :
  ser_ok w -> rec_ok rec -> bs < ser_pos w + Z.of_nat (length rec) -> written (rec :: recs) (flushed w) m fin w' ->
  written (rec :: recs) w m fin w'.
Proof using Hbs.
  intros Hw Hrec Hr [(w1 & Hp & Hf) Hm Hc He Hb Ha Hk Hh]. destruct (flush_ok w Hw) as [_ Hok].
  assert (Hblk : forall x, ser_offset w <= x < ser_offset w + bs -> m x = ser_buf w (x - ser_offset w)).
  { intros x Hx. rewrite Hb by (simpl; lia). simpl. by apply memcpy_in. }
  split; try done.
  - exists w1. split; [|done]. revert Hp. cbn [put_records].
    destruct (put_record_ok rec w Hw Hrec) as [E _]. rewrite Z.gtb_ltb, (proj2 (Z.ltb_lt _ _)) in E by lia. rewrite E.
    destruct (put_record_ok rec (flushed w) Hok Hrec) as [E2 _]. simpl ser_pos in E2. rewrite Z.gtb_ltb, (proj2 (Z.ltb_ge _ _)) in E2 by done.
    by rewrite E2.
  - simpl in He. lia.
  - intros x Hx. rewrite Hb by (simpl; lia). simpl. apply memcpy_out. lia.
  - intros x Hx. rewrite Ha by (simpl; lia). simpl in *. apply memcpy_out. lia.
  - intros k Hkk. rewrite Hblk by (destruct Hw; lia). f_equal. lia.
  - rewrite Hh. simpl. rewrite <- app_assoc. f_equal. simpl in He.
    replace (fin - ser_offset w) with (bs + (fin - (ser_offset w + bs))) by lia.
    rewrite region_app by lia. f_equal. rewrite <- (region_memcpy (st_mem (ser_st w)) (ser_offset w)).
    apply region_ext. intros x Hx. rewrite memcpy_in by lia. symmetry. by apply Hblk.
Qed.

Lemma will_read_impl recs (P Q : LmtEntrySerializer -> Prop) r :
  (forall r, P r -> Q r) -> will_read recs P r -> will_read recs Q r.
Proof.
  intros H. revert r. induction recs as [|rec recs IH]; intros r; cbn [will_read]; [apply H|].
  intros (r' & Hg & Hw). exists r'. split; [done|by apply IH].
Qed.

(** What is written is read back, in order and over the same bytes. *)
Definition readable recs w : Prop :=
  exists m fin w', written recs w m fin w'
    /\ forall r, reads w m r -> will_read recs (done_reading m (ser_offset w + bs) fin (st_hash (ser_st r))) r.

Lemma readable_in rec recs w :
  ser_ok w -> ser_pos w + Z.of_nat (length rec) <= bs -> readable recs (put_at rec w) -> readable (rec :: recs) w.
Proof using Hbs.
  intros Hw Hr (m & fin & w' & Hwr & Hrd). destruct (written_in rec recs w m fin w' Hw Hr Hwr) as [Hwr' Hreg].
  exists m, fin, w'. split; [done|]. intros r [R1 R2 R3 R4 R5 R6]. cbn [will_read].
  rewrite get_record_in by lia. eexists. split.
  - f_equal. f_equal. transitivity (region m (ser_offset w + ser_pos w) (Z.of_nat (length rec))); [|done].
    unfold region, bytes_of. apply list_fmap_ext. intros i x Hx.
    apply list_elem_of_lookup_2, elem_of_seqZ in Hx. rewrite R6 by (destruct Hw; lia). f_equal. lia.
  - eapply (Hrd (mkSer _ _ _ _ _)). split; simpl; try done. lia.
Qed.

Lemma readable_flush rec recs w :
  ser_ok w -> rec_ok rec -> bs < ser_pos w + Z.of_nat (length rec) -> readable (rec :: recs) (flushed w) ->
  readable (rec :: recs) w.
Proof using Hbs.
  intros Hw Hrec Hr (m & fin & w' & Hwr & Hrd). pose proof (wr_end _ _ _ _ _ Hwr) as [_ He]. simpl in He.
  exists m, fin, w'. split; [by apply written_flush|].
  intros r [R1 R2 R3 R4 R5 R6]. assert (Hl : reads (flushed w) m (loaded r)).
  { split; simpl; [exact R1|done|done|lia|done|]. intros k Hk. by rewrite R2, R4. }
  specialize (Hrd (loaded r) Hl). unfold rec_ok in Hrec. revert Hrd. cbn [will_read].
  rewrite (get_record_load _ r) by (done || lia). intros (r' & Hg & Hw'). exists r'. split; [done|].
  eapply will_read_impl; [|exact Hw']. intros r2 (H1 & H2 & H3). split; [done|split; [done|]].
  rewrite H3. simpl. rewrite R2, R3, R4, <- app_assoc. f_equal. rewrite <- region_app by lia. f_equal. lia.
Qed.

Lemma serializer_readable recs w : Forall rec_ok recs -> ser_ok w -> readable recs w.
Proof using Hbs.
  intros Hall. revert w. induction Hall as [|rec recs Hrec _ IH]; intros w Hw.
  - eexists _, _, _. split; [by apply written_nil|]. intros r [R1 R2 R3 R4 R5 R6]. split; [done|split; [done|]].
    rewrite Z.sub_diag. by rewrite app_nil_r.
  - destruct (Z.le_gt_cases (ser_pos w + Z.of_nat (length rec)) bs) as [Hin|Hout].
    + apply readable_in; [done|done|]. apply IH. destruct Hw. split; simpl; [done|done|lia].
    + destruct (flush_ok w Hw) as [_ Hf]. apply readable_flush; [done|done|done|].
      apply readable_in; [done|done|]. apply IH. destruct Hf. unfold rec_ok in Hrec. split; simpl in *; [done|done|lia].
Qed.
End Serializer.

(** ** Keys and entries *)
Definition encode_key (k : lmt_key) : list Z := le 8 (vol_id k) ++ le 8 (slba k) ++ le 8 0 ++ le 8 0.
Definition decode_key (b : list Z) : lmt_key :=
  mkKey (unle (take 8 b)) (sext 8 (unle (take 8 (drop 8 b)))).

(** What a saved entry says: the fields that have a meaning on the disk, and
    the saved pointer, which is only compared with null. *)
Record saved_entry : Type := mkSaved {
  sv_offset : Z;
  sv_snap : Z;
  sv_status : Z;
  sv_prev : Z
}.

Definition decode_entry (b : list Z) : saved_entry :=
  mkSaved (sext 8 (unle (take 8 b))) (unle (take 4 (drop 8 b))) (unle (take 4 (drop 12 b)))
    (unle (take 8 (drop 16 b))).

Section Zone.
(** The values of the pointers to entries, and of the three other pointers of
    an entry, in the process that saves. *)
Context (addr : Z -> Z) (ptrs : lmt_entry -> Z * Z * Z).

Definition encode_entry (prev : Z) (e : lmt_entry) : list Z :=
  le 8 (offset e) ++ le 4 (snap_seq e) ++ le 4 (status_code (status e)) ++ le 8 prev
  ++ le 8 (ptrs e).1.1 ++ le 8 (ptrs e).1.2 ++ le 8 (ptrs e).2.

Definition prev_ptr (c : chain) : Z := match c with [] => 0 | e :: _ => addr (e_addr e) end.

Fixpoint write_chain (c : chain) (s : LmtEntrySerializer) : Z * LmtEntrySerializer :=
  match c with
  | [] => (0, s)
  | e :: c =>
      let (rc, s) := put_record (encode_entry (prev_ptr c) e) s in
      if negb (rc =? 0) then (rc, s) else write_chain c s
  end.

Fixpoint write_keys (l : list (lmt_key * chain)) (s : LmtEntrySerializer) : Z * LmtEntrySerializer :=
  match l with
  | [] => (0, s)
  | (k, c) :: l =>
      let (rc, s) := put_record (encode_key k) s in
      let (rc, s) := if rc =? 0 then write_chain c s else (rc, s) in
      if negb (rc =? 0) then (rc, s) else write_keys l s
  end.

(** The part of [save_meta_data] that writes a zone; the result of the last
    [flush_buffer] is not looked at. *)
Definition lmt_page (n : Z) : Z -> Z := buf_of (le 4 n ++ le 4 48 ++ le 4 0).

Definition save_zone (fl tl lp bs : Z) (fq tq : PfFixedSizeQueue Z) (l : list (lmt_key * chain)) (st : stream)
    : outcome (Z * stream) :=
  let* (rc, st) := save_fixed_queue fq fl bs st in
  if negb (rc =? 0) then Done (rc, st)
  else
    let* (rc, st) := save_fixed_queue tq tl bs st in
    if negb (rc =? 0) then Done (rc, st)
    else
      let (rc, st) := write_calc (lmt_page (Z.of_nat (length l))) LBA_LENGTH lp st in
      if rc =? -1 then Done (- st_errno st, st)
      else
        let (rc, ser) := write_keys l (new_serializer (lp + LBA_LENGTH) bs true st) in
        if negb (rc =? 0) then Done (rc, ser_st ser)
        else let (_, ser) := flush_buffer ser in Done (0, ser_st ser).

(** The loop over the entries of a key. *)
Fixpoint read_chain (fuel : nat) (s : LmtEntrySerializer) : outcome (Z * list saved_entry * LmtEntrySerializer) :=
  match fuel with
  | O => Undef
  | S fuel =>
      let '(rc, b, s) := get_record 48 s in
      if negb (rc =? 0) then Done (rc, [], s)
      else
        let e := decode_entry b in
        if sv_prev e =? 0 then Done (0, [e], s)
        else
          let* (r, s) := read_chain fuel s in
          let (rc, c) := r in Done (rc, e :: c, s)
  end.

Fixpoint read_keys (fuel n : nat) (s : LmtEntrySerializer)
    : outcome (Z * list (lmt_key * list saved_entry) * LmtEntrySerializer) :=
  match n with
  | O => Done (0, [], s)
  | S n =>
      let '(rc, b, s) := get_record 32 s in
      if negb (rc =? 0) then Done (rc, [], s)
      else
        let* (r, s) := read_chain fuel s in
        let (rc, c) := r in
        if negb (rc =? 0) then Done (rc, [], s)
        else
          let* (r, s) := read_keys fuel n s in
          let (rc, l) := r in Done (rc, (decode_key b, c) :: l, s)
  end.

(** The part of [load_meta_data] that reads a zone; an error of the read of
    the page with the number of keys is only logged, and the number is then
    taken from [left], what the buffer holds from the reads before. *)
Definition load_zone (fuel : nat) (fl tl lp bs : Z) (left : Z -> Z) (st : stream)
    : outcome (Z * PfFixedSizeQueue Z * PfFixedSizeQueue Z * list (lmt_key * list saved_entry) * stream) :=
  let* (r, st) := load_fixed_queue fl bs st in
  let (rc, fq) := r in
  if negb (rc =? 0) then Done (rc, fq, empty_queue, [], st)
  else
    let* (r, st) := load_fixed_queue tl bs st in
    let (rc, tq) := r in
    if negb (rc =? 0) then Done (rc, fq, tq, [], st)
    else
      let '(rc, page, st) := read_calc LBA_LENGTH lp st in
      let key_count := read_int (if rc =? 0 then page else left) 0 in
      let* (r, s) := read_keys fuel (Z.to_nat key_count) (new_serializer (lp + LBA_LENGTH) bs false st) in
      let (rc, l) := r in
      if negb (rc =? 0) then Done (rc, fq, tq, [], ser_st s)
      else
        let (_, s) := if key_count =? 0 then load_buffer s else (0, s) in
        Done (0, fq, tq, l, ser_st s).

(** The records of a map. *)
Fixpoint chain_records (c : chain) : list (list Z) :=
  match c with
  | [] => []
  | e :: c => encode_entry (prev_ptr c) e :: chain_records c
  end.
Definition key_records (kc : lmt_key * chain) : list (list Z) := encode_key kc.1 :: chain_records kc.2.
Definition records (l : list (lmt_key * chain)) : list (list Z) := concat (key_records <$> l).

Fixpoint saved_chain (c : chain) : list saved_entry :=
  match c with
  | [] => []
  | e :: c => mkSaved (offset e) (snap_seq e) (status_code (status e)) (prev_ptr c) :: saved_chain c
  end.

Lemma put_records_app l1 l2 s s1 :
  put_records l1 s = (0, s1) -> put_records (l1 ++ l2) s = put_records l2 s1.
Proof.
  revert s. induction l1 as [|r l1 IH]; intros s; cbn [put_records app]; [by intros [= <-]|].
  destruct (put_record r s) as [rc s2]. destruct (Z.eqb_spec rc 0); cbn [negb]; [apply IH|].
  by intros [= -> _].
Qed.

Lemma put_records_inv l1 l2 s s' :
  put_records (l1 ++ l2) s = (0, s') -> exists s1, put_records l1 s = (0, s1) /\ put_records l2 s1 = (0, s').
Proof.
  revert s. induction l1 as [|r l1 IH]; intros s; cbn [put_records app]; [by exists s|].
  destruct (put_record r s) as [rc s2]. destruct (Z.eqb_spec rc 0); cbn [negb]; [apply IH|]. by intros [= -> _].
Qed.

Lemma write_chain_records c s s' : put_records (chain_records c) s = (0, s') -> write_chain c s = (0, s').
Proof.
  revert s. induction c as [|e c IH]; intros s; cbn [put_records chain_records write_chain]; [done|].
  destruct (put_record _ s) as [rc s2]. destruct (Z.eqb_spec rc 0); cbn [negb]; [apply IH|done].
Qed.

Lemma write_keys_records l s s' : put_records (records l) s = (0, s') -> write_keys l s = (0, s').
Proof.
  revert s. induction l as [|[k c] l IH]; intros s; [done|]. unfold records. csimpl. cbn [concat].
  unfold key_records at 1. simpl fst. simpl snd. cbn [app put_records write_keys].
  destruct (put_record _ s) as [rc s2]. destruct (Z.eqb_spec rc 0) as [->|]; cbn [negb]; [|by intros [= -> _]].
  intros H. apply put_records_inv in H as (s1 & Hc & Hl). rewrite (write_chain_records c s2 s1 Hc).
  cbn [negb Z.eqb]. by apply IH.
Qed.

Definition key_ok (k : lmt_key) : Prop := 0 <= vol_id k < 2 ^ 64 /\ - 2 ^ 63 <= slba k < 2 ^ 63.
Definition entry_ok (e : lmt_entry) : Prop := - 2 ^ 63 <= offset e < 2 ^ 63 /\ 0 <= snap_seq e < 2 ^ 32.

Lemma decode_encode_key k : key_ok k -> decode_key (encode_key k) = k.
Proof.
  intros [Hv Hs]. unfold decode_key, encode_key. rewrite take_le, drop_le, take_le, !unle_le.
  rewrite (Z.mod_small (vol_id k)) by (simpl; lia). rewrite (sext_mod 8) by (simpl; lia). by destruct k.
Qed.

Context (Haddr : forall a, 0 < addr a < 2 ^ 64).

Lemma prev_ptr_range c : 0 <= prev_ptr c < 2 ^ 64.
Proof using Haddr. destruct c as [|e c]; simpl; [lia|]. specialize (Haddr (e_addr e)). lia. Qed.

Lemma decode_encode_entry e c :
  entry_ok e ->
  decode_entry (encode_entry (prev_ptr c) e) = mkSaved (offset e) (snap_seq e) (status_code (status e)) (prev_ptr c).
Proof using Haddr.
  intros [Ho Hs]. pose proof (prev_ptr_range c) as Hp. unfold decode_entry, encode_entry.
  change (drop 16) with (drop (A := Z) (8 + (4 + 4))). change (drop 12) with (drop (A := Z) (8 + 4)).
  rewrite <- !drop_drop, !drop_le, !take_le, !unle_le, (sext_mod 8) by (simpl; lia).
  rewrite !Z.mod_small by (destruct (status e); simpl; lia). done.
Qed.

Lemma read_chain_spec fuel c more fin r :
  c <> [] -> Forall entry_ok c -> (length c <= fuel)%nat -> will_read (chain_records c ++ more) fin r ->
  exists r', read_chain fuel r = Done (0, saved_chain c, r') /\ will_read more fin r'.
Proof using Haddr.
  revert fuel r. induction c as [|e c IH]; intros fuel r Hne Hok Hf Hw; [done|].
  destruct fuel as [|fuel]; [simpl in Hf; lia|]. apply Forall_cons in Hok as [He Hok].
  destruct Hw as (r1 & Hg & Hw). cbn [read_chain]. change (Z.of_nat _) with 48 in Hg. rewrite Hg. cbn [negb Z.eqb].
  rewrite decode_encode_entry by done. simpl sv_prev. cbn [saved_chain].
  destruct c as [|e' c]; [by exists r1|]. cbn [prev_ptr].
  rewrite (proj2 (Z.eqb_neq _ _)) by (specialize (Haddr (e_addr e')); lia).
  destruct (IH fuel r1) as (r' & -> & Hw'); [done|done|simpl in *; lia|exact Hw|]. by exists r'.
Qed.

Definition saved (l : list (lmt_key * chain)) : list (lmt_key * list saved_entry) :=
  (fun kc => (kc.1, saved_chain kc.2)) <$> l.

(** What the map must satisfy to be saved. *)
Definition pair_ok (fuel : nat) (kc : lmt_key * chain) : Prop :=
  key_ok kc.1 /\ kc.2 <> [] /\ Forall entry_ok kc.2 /\ (length kc.2 <= fuel)%nat.

Lemma read_keys_spec fuel l fin r :
  Forall (pair_ok fuel) l -> will_read (records l) fin r ->
  exists r', read_keys fuel (length l) r = Done (0, saved l, r') /\ fin r'.
Proof using Haddr.
  revert r. induction l as [|[k c] l IH]; intros r Hok Hw; [by exists r|].
  apply Forall_cons in Hok as [(Hk & Hne & He & Hf) Hok]. destruct Hw as (r1 & Hg & Hw).
  cbn [length read_keys]. change (Z.of_nat _) with 32 in Hg. rewrite Hg. cbn [negb Z.eqb].
  destruct (read_chain_spec fuel c (records l) fin r1) as (r2 & -> & Hw2); [done|done|done|exact Hw|].
  cbn [obind negb Z.eqb]. destruct (IH r2 Hok Hw2) as (r3 & -> & Hfin). exists r3. split; [|done].
  cbn [obind]. by rewrite decode_encode_key.
Qed.

Lemma records_ok bs l : 48 <= bs -> Forall (rec_ok bs) (records l).
Proof.
  intros Hb. assert (Hc : forall c, Forall (rec_ok bs) (chain_records c)).
  { intros c. induction c as [|e c IH]; constructor; [|done]. unfold rec_ok. change (Z.of_nat _) with 48. done. }
  induction l as [|[k c] l IH]; [constructor|]. change (records ((k, c) :: l)) with (encode_key k :: chain_records c ++ records l).
  constructor; [|by apply Forall_app]. unfold rec_ok. change (Z.of_nat _) with 32. lia.
Qed.

Section Map.
Context (off bs : Z) (Hbs : 48 <= bs) (fuel : nat) (l : list (lmt_key * chain)) (Hl : Forall (pair_ok fuel) l).

(** The end of the reading of the map: with no key the block is read for the
    checksum only. *)
Definition map_end (n : Z) (s : LmtEntrySerializer) : LmtEntrySerializer :=
  (if n =? 0 then load_buffer s else (0, s)).2.

Definition map_read (m : Z -> Z) (fin : Z) (st : stream) : Prop :=
  exists s, read_keys fuel (length l) (new_serializer off bs false st) = Done (0, saved l, s)
    /\ clean (ser_st (map_end (Z.of_nat (length l)) s))
    /\ st_mem (ser_st (map_end (Z.of_nat (length l)) s)) = m
    /\ st_hash (ser_st (map_end (Z.of_nat (length l)) s)) = st_hash st ++ region m off (fin - off).

Lemma region_split m fin : off + bs <= fin ->
  region m off (fin - off) = region m off bs ++ region m (off + bs) (fin - (off + bs)).
Proof using Hbs. intros H. rewrite <- region_app by lia. f_equal. lia. Qed.

Lemma map_roundtrip st :
  clean st ->
  exists m fin w1 w', write_keys l (new_serializer off bs true st) = (0, w1) /\ flush_buffer w1 = (0, w')
    /\ clean (ser_st w') /\ st_mem (ser_st w') = m /\ off + bs <= fin
    /\ (forall x, x < off -> m x = st_mem st x)
    /\ st_hash (ser_st w') = st_hash st ++ region m off (fin - off)
    /\ forall str, clean str -> st_mem str = m -> map_read m fin str.
Proof using Hbs Hl Haddr.
  intros Hc. set (w := new_serializer off bs true st).
  assert (Hw : ser_ok bs w) by (split; simpl; [done|done|lia]).
  destruct (serializer_readable bs ltac:(lia) (records l) w (records_ok bs l Hbs) Hw)
    as (m & fin & w' & [(w1 & Hp & Hf) Hm Hc' He Hbe _ _ Hh] & Hrd). simpl in He, Hbe, Hh.
  exists m, fin, w1, w'. splits; try done; [by apply write_keys_records|lia|].
  intros str Hcs Hms. set (r := new_serializer off bs false str). specialize (Hrd (loaded r)). unfold map_read. fold r.
  assert (Hl0 : st_hash (ser_st (loaded r)) = st_hash str ++ region m off bs) by (simpl; by rewrite Hms).
  destruct l as [|kc l'] eqn:El.
  - exists r. unfold map_end. simpl length. cbn [Z.of_nat Z.eqb]. unfold load_buffer.
    simpl ser_st. simpl ser_offset. simpl ser_buf_size. rewrite read_calc_ok by done. simpl. rewrite Hms.
    cbn [records fmap list_fmap concat put_records] in Hp. injection Hp as <-.
    destruct (flush_ok bs ltac:(lia) w Hw) as [E _]. rewrite E in Hf. injection Hf as <-. simpl in He.
    replace (fin - off) with bs by lia. done.
  - rewrite <- El in *. assert (Hwr : will_read (records l) (done_reading m (off + bs) fin (st_hash str ++ region m off bs)) r).
    { rewrite <- Hl0. assert (Hr : reads bs w m (loaded r)).
      { split; simpl; [done|done|done|lia|done|]. intros k Hk. by rewrite Hms. }
      specialize (Hrd Hr). simpl ser_offset in Hrd. revert Hrd. pose proof (records_ok bs l Hbs) as Hro. rewrite El in *.
      destruct (records (kc :: l')) as [|rec recs] eqn:Er; [done|]. cbn [will_read].
      apply Forall_cons in Hro as [Hrec _]. unfold rec_ok in Hrec.
      assert (0 < Z.of_nat (length rec)) by (unfold records, key_records in Er; injection Er as <- _; done).
      rewrite (get_record_load _ r) by (done || simpl; lia). done. }
    destruct (read_keys_spec fuel l _ r Hl Hwr) as (s & Hs & H1 & H2 & H3). exists s. split; [done|].
    unfold map_end. rewrite (proj2 (Z.eqb_neq _ _)) by (rewrite El; simpl; lia). simpl. splits; [done|done|].
    rewrite H3, <- app_assoc, <- region_split by lia. done.
Qed.
End Map.

(** ** A zone *)
Section Whole.
Context (fl tl lp bs kb : Z) (Hb : bs = LBA_LENGTH * kb) (Hkb : 0 < kb).
Context (fuel : nat) (fq tq : PfFixedSizeQueue Z) (l : list (lmt_key * chain)).
Context (Hfq : queue_ok fq) (Htq : queue_ok tq) (Hl : Forall (pair_ok fuel) l) (Hn : Z.of_nat (length l) < 2 ^ 31).
Context (Hft : fl + queue_bytes fq <= tl) (Htl : tl + queue_bytes tq <= lp).

Lemma lmt_page_count m : (forall k, 0 <= k < LBA_LENGTH -> m k = lmt_page (Z.of_nat (length l)) k) ->
  read_int m 0 = Z.of_nat (length l).
Proof using Hn.
  intros Hm. apply (read_int_data m [Z.of_nat (length l); 48; 0] 0); [done|unfold i32_ok; lia|].
  intros x Hx. rewrite Hm by (unfold LBA_LENGTH; simpl in Hx; lia). done.
Qed.

Lemma queue_bytes_pos q : queue_ok q -> LBA_LENGTH + q_depth q * 4 <= queue_bytes q.
Proof.
  intros [_ Hd _ _ _]. unfold queue_bytes, rest. rewrite (proj2 (Z.ltb_lt _ _)) by lia.
  pose proof (up_align_ge (q_depth q * 4)). unfold LBA_LENGTH in *. lia.
Qed.

(** The bytes of a queue on the device. *)
Definition queue_at (m : Z -> Z) (off : Z) (q : PfFixedSizeQueue Z) : Prop :=
  (forall k, 0 <= k < LBA_LENGTH -> m (off + k) = queue_head_page q k)
  /\ (forall x, 0 <= x < q_depth q * 4 -> m (off + LBA_LENGTH + x) = buf_of (int_bytes (q_data q)) x).

Lemma queue_at_ext m m' off q :
  queue_ok q -> queue_at m off q -> (forall x, off <= x < off + queue_bytes q -> m' x = m x) -> queue_at m' off q.
Proof.
  intros Hq [H1 H2] Hm. pose proof (queue_bytes_pos q Hq) as Hs. destruct Hq as [_ Hd _ _ _].
  split; intros x Hx.
  - rewrite Hm; [by apply H1|unfold LBA_LENGTH in *; lia].
  - rewrite Hm; [by apply H2|unfold LBA_LENGTH in *; lia].
Qed.

Record zone_at (m : Z -> Z) (fin : Z) : Prop := mkZoneAt {
  za_fq : queue_at m fl fq;
  za_tq : queue_at m tl tq;
  za_page : forall k, 0 <= k < LBA_LENGTH -> m (lp + k) = lmt_page (Z.of_nat (length l)) k;
  za_map : forall st, clean st -> st_mem st = m -> map_read (lp + LBA_LENGTH) bs fuel l m fin st
}.

Definition zone_bytes (m : Z -> Z) (fin : Z) : list Z :=
  region m fl (queue_bytes fq) ++ region m tl (queue_bytes tq) ++ region m lp LBA_LENGTH
  ++ region m (lp + LBA_LENGTH) (fin - (lp + LBA_LENGTH)).

Lemma load_zone_spec left m fin st :
  clean st -> st_mem st = m -> zone_at m fin ->
  exists st', load_zone fuel fl tl lp bs left st = Done (0, fq, tq, saved l, st')
    /\ clean st' /\ st_mem st' = m /\ st_hash st' = st_hash st ++ zone_bytes m fin.
Proof using Hb Hkb Hfq Htq Hn.
  intros Hc Hm [[F1 F2] [T1 T2] Hp Hmap]. unfold load_zone.
  rewrite (load_queue_spec fl bs kb Hb Hkb fq) by (done || by rewrite Hm). cbn [obind negb Z.eqb].
  rewrite (load_queue_spec tl bs kb Hb Hkb tq) by (done || (simpl; by rewrite Hm)). cbn [obind negb Z.eqb].
  rewrite read_calc_ok by done. cbn [Z.eqb]. simpl st_mem. rewrite Hm.
  rewrite (lmt_page_count (fun i => m (lp + i))) by done. rewrite Nat2Z.id.
  set (str := st_put _ _ _). destruct (Hmap str) as (s & -> & Hs1 & Hs2 & Hs3); [done|done|].
  cbn [obind negb Z.eqb]. unfold map_end in *. destruct (if _ =? 0 then _ else _) as [rc s']. simpl in *.
  eexists. splits; [done|done|done|]. rewrite Hs3. unfold str, zone_bytes. cbn [st_hash st_put]. by rewrite <- !app_assoc.
Qed.

Lemma save_zone_spec st :
  clean st ->
  exists m fin st', save_zone fl tl lp bs fq tq l st = Done (0, st')
    /\ clean st' /\ st_mem st' = m /\ st_hash st' = st_hash st ++ zone_bytes m fin /\ zone_at m fin.
Proof using Hb Hkb Hfq Htq Hl Hft Htl Haddr.
  intros Hc. unfold save_zone.
  destruct (save_queue_spec fl bs kb Hb Hkb fq st Hc Hfq) as (m1 & -> & F1 & F2 & F3). cbn [obind negb Z.eqb].
  set (st1 := st_put _ _ st). assert (Hc1 : clean st1) by done.
  destruct (save_queue_spec tl bs kb Hb Hkb tq st1 Hc1 Htq) as (m2 & -> & T1 & T2 & T3). cbn [obind negb Z.eqb].
  set (st2 := st_put _ _ st1). assert (Hc2 : clean st2) by done. rewrite write_calc_ok by done.
  change (0 =? -1) with false. cbn iota. set (m3 := memcpy_at _ _ _ _). set (st3 := st_put m3 _ st2).
  destruct (map_roundtrip (lp + LBA_LENGTH) bs ltac:(unfold LBA_LENGTH in *; lia) fuel l Hl st3)
    as (m & fin & w1 & w' & -> & Hf & Hcw & Hmw & Hfin & Hbe & Hh & Hrd); [done|].
  cbn [negb Z.eqb]. rewrite Hf. exists m, fin, (ser_st w').
  assert (E3 : forall x, x < lp -> m x = m2 x).
  { intros x Hx. rewrite Hbe by (unfold LBA_LENGTH; lia). simpl. apply memcpy_out. lia. }
  assert (E2 : forall x, x < tl -> m x = m1 x).
  { intros x Hx. rewrite E3 by (pose proof (queue_bytes_pos tq Htq); destruct Htq; unfold LBA_LENGTH in *; lia). rewrite T3 by lia. done. }
  assert (Ep : forall k, 0 <= k < LBA_LENGTH -> m (lp + k) = lmt_page (Z.of_nat (length l)) k).
  { intros k Hk. rewrite Hbe by lia. simpl. unfold m3. rewrite memcpy_in by lia. f_equal. lia. }
  splits; [done|done|done| |].
  - rewrite Hh. unfold st3, st2, st1, zone_bytes. cbn [st_hash st_put]. rewrite <- !app_assoc. f_equal.
    rewrite (region_ext m m1 fl), (region_ext m m2 tl) by (intros x Hx; first [apply E2; lia|apply E3; lia]).
    do 3 f_equal. unfold region, bytes_of. apply list_fmap_ext. intros i x Hx. apply list_elem_of_lookup_2, elem_of_seqZ in Hx.
    symmetry. apply Ep. lia.
  - split; [|  |done|done].
    + apply (queue_at_ext m1); [done|done|]. intros x Hx. apply E2. lia.
    + apply (queue_at_ext m2); [done|done|]. intros x Hx. apply E3. lia.
Qed.
End Whole.
End Zone.

(** ** Errors of the device

    Without SPDK a failed write returns [-errno], while the callers compare
    the result with -1. *)
Section Errors.
Definition EPERM : Z := 1.
Definition unseen (st : stream) : Prop := spdk_engine st = false /\ Forall (fun f => f <> Some EPERM) (st_faults st).

Lemma write_calc_unseen buf n off st :
  unseen st -> exists rc st', write_calc buf n off st = (rc, st') /\ (rc =? -1) = false /\ unseen st'.
Proof.
  intros [He Hf]. unfold write_calc, stream_write, st_fault.
  destruct st as [m sp [|[e|] fs] en h]; simpl in *; subst sp; [by eexists _, _| |];
    apply Forall_cons in Hf as [Hn Hf].
  - destruct (Z.eqb_spec (- e) 0); simpl; eexists _, _; (split; [done|]); (split; [|by split]); [done|].
    apply Z.eqb_neq. intros ?. apply Hn. unfold EPERM. f_equal. lia.
  - by eexists _, _.
Qed.

Lemma save_chunks_unseen fuel d total src off bs st :
  0 < bs -> total - src <= bs * Z.of_nat fuel -> unseen st ->
  exists st', save_chunks fuel d total src off bs st = Done (0, st') /\ unseen st'.
Proof.
  intros Hb. revert src st. induction fuel as [|fuel IH]; intros src st Hf Hu; cbn [save_chunks].
  - rewrite (proj2 (Z.ltb_ge _ _)) by lia. by exists st.
  - destruct (Z.ltb_spec src total); [|by exists st].
    destruct (write_calc_unseen (chunk d src (Z.min (total - src) bs)) (up_align (Z.min (total - src) bs) LBA_LENGTH)
                (off + src + LBA_LENGTH) st Hu) as (rc & st1 & -> & -> & Hu1).
    apply IH; [lia|done].
Qed.

Lemma save_queue_unseen q off bs st :
  0 < bs -> 4 <= bs -> Z.of_nat (length (q_data q)) = q_depth q -> unseen st ->
  exists st', save_fixed_queue q off bs st = Done (0, st') /\ unseen st'.
Proof.
  intros Hb Hb4 Hq Hu. unfold save_fixed_queue.
  destruct (write_calc_unseen (queue_head_page q) LBA_LENGTH off st Hu) as (rc & st1 & -> & -> & Hu1).
  apply save_chunks_unseen; [done|nia|done].
Qed.

Lemma flush_unseen s : unseen (ser_st s) -> exists s', flush_buffer s = (0, s') /\ unseen (ser_st s').
Proof.
  intros Hu. unfold flush_buffer.
  destruct (write_calc_unseen (ser_buf s) (ser_buf_size s) (ser_offset s) (ser_st s) Hu) as (rc & st1 & -> & -> & Hu1).
  by eexists.
Qed.

Lemma put_record_unseen rec s : unseen (ser_st s) -> exists s', put_record rec s = (0, s') /\ unseen (ser_st s').
Proof.
  intros Hu. unfold put_record. destruct (_ >? _).
  - destruct (flush_unseen s Hu) as (s1 & -> & Hu1). by eexists.
  - by eexists.
Qed.

Lemma write_chain_unseen addr ptrs c s :
  unseen (ser_st s) -> exists s', write_chain addr ptrs c s = (0, s') /\ unseen (ser_st s').
Proof.
  revert s. induction c as [|e c IH]; intros s Hu; cbn [write_chain]; [by exists s|].
  destruct (put_record_unseen (encode_entry ptrs (prev_ptr addr c) e) s Hu) as (s1 & -> & Hu1). by apply IH.
Qed.

Lemma write_keys_unseen addr ptrs l s :
  unseen (ser_st s) -> exists s', write_keys addr ptrs l s = (0, s') /\ unseen (ser_st s').
Proof.
  revert s. induction l as [|[k c] l IH]; intros s Hu; cbn [write_keys]; [by exists s|].
  destruct (put_record_unseen (encode_key k) s Hu) as (s1 & -> & Hu1). cbn [Z.eqb].
  destruct (write_chain_unseen addr ptrs c s1 Hu1) as (s2 & -> & Hu2). by apply IH.
Qed.
End Errors.

(** ** Properties *)

(** What is read of an entry, and what an entry holds on the disk. *)
Definition sv_image (e : saved_entry) : Z * Z * Z := (sv_offset e, sv_snap e, sv_status e).
Definition entry_fields (e : lmt_entry) : Z * Z * Z := (offset e, snap_seq e, status_code (status e)).

Definition read_image (l : list (lmt_key * list saved_entry)) : list (lmt_key * list (Z * Z * Z)) :=
  (fun kc : lmt_key * list saved_entry => (kc.1, sv_image <$> kc.2)) <$> l.
Definition map_image (l : list (lmt_key * chain)) : list (lmt_key * list (Z * Z * Z)) :=
  (fun kc : lmt_key * chain => (kc.1, entry_fields <$> kc.2)) <$> l.

Lemma saved_chain_image addr c : sv_image <$> saved_chain addr c = entry_fields <$> c.
Proof. induction c as [|e c IH]; [done|]. csimpl. by rewrite IH. Qed.

(** C35 (a saved zone is read back): for two queues and a map that a store can
    hold, laid out without overlap, [save_zone] on a device that does not fail
    returns 0, and [load_zone] of what it wrote returns 0 with the same two
    queues, the same keys in the order saved, and for each key the same chain
    of offsets, snapshots and states; the checksum of the reader equals the
    checksum of the writer.  This holds for every buffer that is a positive
    number of pages, and whatever the pointers in the entries were. *)
Theorem zone_roundtrip addr ptrs fl tl lp bs kb fuel fq tq l left digest st str :
  (forall a, 0 < addr a < 2 ^ 64) -> bs = LBA_LENGTH * kb -> 0 < kb ->
  queue_ok fq -> queue_ok tq -> Forall (pair_ok fuel) l -> Z.of_nat (length l) < 2 ^ 31 ->
  fl + queue_bytes fq <= tl -> tl + queue_bytes tq <= lp ->
  clean st -> st_hash st = [] -> clean str -> st_hash str = [] ->
  exists st', save_zone addr ptrs fl tl lp bs fq tq l st = Done (0, st') /\
    (st_mem str = st_mem st' ->
     exists l' str', load_zone fuel fl tl lp bs left str = Done (0, fq, tq, l', str')
       /\ read_image l' = map_image l
       /\ finalize digest str' = finalize digest st').
Proof.
  intros Ha Hb Hkb Hfq Htq Hl Hn Hft Htl Hc Hh Hcr Hhr.
  destruct (save_zone_spec addr ptrs Ha fl tl lp bs kb Hb Hkb fuel fq tq l Hfq Htq Hl Hft Htl st Hc)
    as (m & fin & st' & Hs & _ & Hm & Hw & Hz).
  exists st'. split; [done|]. intros Hstr. rewrite Hm in Hstr.
  destruct (load_zone_spec addr fl tl lp bs kb Hb Hkb fuel fq tq l Hfq Htq Hn left m fin str Hcr Hstr Hz)
    as (str' & Hld & _ & _ & Hr).
  eexists _, str'. split; [done|]. split.
  - unfold read_image, saved. rewrite <- list_fmap_compose. apply list_fmap_ext. intros i [k c] _. unfold compose. simpl.
    by rewrite saved_chain_image.
  - unfold finalize. by rewrite Hw, Hr, Hh, Hhr.
Qed.

Definition demo_fq : PfFixedSizeQueue Z := mkQueue 2 0 4 [0; 1; 0; 0].
Definition demo_tq : PfFixedSizeQueue Z := mkQueue 0 0 4 [0; 0; 0; 0].
Definition demo_map : list (lmt_key * chain) :=
  [(mkKey 16777216 0, [mkEntry 1 40000000 2 NORMAL [] None None; mkEntry 2 20000000 1 NORMAL [] None None]);
   (mkKey 16777216 131072, [mkEntry 3 60000000 2 NORMAL [] None None])].
Definition demo_stream : stream := mkStream zero_buf false [] 0 [].

Lemma zone_roundtrip_witness :
  exists st', save_zone (fun _ => 4096) (fun _ => (0, 0, 0)) 8192 16384 32768 (LBA_LENGTH * 256) demo_fq demo_tq demo_map
      demo_stream = Done (0, st')
    /\ exists l' str',
         load_zone 5 8192 16384 32768 (LBA_LENGTH * 256) zero_buf (mkStream (st_mem st') false [] 0 [])
           = Done (0, demo_fq, demo_tq, l', str') /\ read_image l' = map_image demo_map.
Proof.
  assert (Hq : queue_ok demo_fq /\ queue_ok demo_tq).
  { split; (split; [done|simpl; lia|unfold i32_ok; simpl; lia|unfold i32_ok; simpl; lia|]);
      repeat constructor; unfold i32_ok; simpl; lia. }
  destruct Hq as [Hq1 Hq2].
  assert (Hl : Forall (pair_ok 5) demo_map) by (repeat constructor; simpl; lia || done).
  assert (H0 : forall a, 0 < (fun _ : Z => 4096) a < 2 ^ 64) by lia.
  assert (H1 : 8192 + queue_bytes demo_fq <= 16384) by (vm_compute; discriminate).
  assert (H2 : 16384 + queue_bytes demo_tq <= 32768) by (vm_compute; discriminate).
  pose proof (fun str => zone_roundtrip (fun _ => 4096) (fun _ => (0, 0, 0)) 8192 16384 32768 (LBA_LENGTH * 256) 256 5
                demo_fq demo_tq demo_map zero_buf (fun _ => 0) demo_stream str H0 eq_refl ltac:(lia) Hq1 Hq2 Hl ltac:(simpl; lia)
                H1 H2 eq_refl eq_refl) as H.
  destruct (H demo_stream eq_refl eq_refl) as (st' & Hs & _). exists st'. split; [exact Hs|].
  destruct (H (mkStream (st_mem st') false [] 0 []) eq_refl eq_refl) as (st2 & Hs2 & Hr).
  rewrite Hs in Hs2. assert (E : st' = st2) by (by injection Hs2). subst st2.
  destruct (Hr eq_refl) as (l' & str' & Hl' & Hi & _). by exists l', str'.
Defined.

(** Errors of saving are not seen: without SPDK, [save_zone] returns 0
    whichever of its writes fail and with whatever errors, [EPERM] apart; the
    head page that makes the zone current is then written. *)
Theorem save_errors_unseen addr ptrs fl tl lp bs fq tq l st :
  4 <= bs -> Z.of_nat (length (q_data fq)) = q_depth fq -> Z.of_nat (length (q_data tq)) = q_depth tq ->
  spdk_engine st = false -> Forall (fun f => f <> Some EPERM) (st_faults st) ->
  exists st', save_zone addr ptrs fl tl lp bs fq tq l st = Done (0, st').
Proof.
  intros Hb Hf Ht He Hfa. assert (Hu : unseen st) by done. unfold save_zone.
  destruct (save_queue_unseen fq fl bs st) as (st1 & -> & Hu1); [lia|done|done|done|]. cbn [obind negb Z.eqb].
  destruct (save_queue_unseen tq tl bs st1) as (st2 & -> & Hu2); [lia|done|done|done|]. cbn [obind negb Z.eqb].
  destruct (write_calc_unseen (lmt_page (Z.of_nat (length l))) LBA_LENGTH lp st2 Hu2) as (rc & st3 & -> & -> & Hu3).
  destruct (write_keys_unseen addr ptrs l (new_serializer (lp + LBA_LENGTH) bs true st3) Hu3) as (s & -> & Hs).
  cbn [negb Z.eqb]. destruct (flush_buffer s) as [rc' s']. by eexists.
Qed.

(** Every write fails with [EIO] and the device is left as it was. *)
Lemma save_errors_unseen_witness :
  let st := mkStream zero_buf false (replicate 9 (Some 5)) 0 [] in
  exists st', save_zone (fun _ => 4096) (fun _ => (0, 0, 0)) 8192 16384 32768 (LBA_LENGTH * 256) demo_fq demo_tq demo_map st
    = Done (0, st') /\ st_faults st' = replicate 3 (Some 5) /\ st_mem st' 8192 = 0.
Proof.
  intros st. destruct (save_errors_unseen (fun _ => 4096) (fun _ => (0, 0, 0)) 8192 16384 32768 (LBA_LENGTH * 256)
                demo_fq demo_tq demo_map st) as (st' & H); [unfold LBA_LENGTH; lia|done|done|done|by apply Forall_replicate|].
  exists st'. split; [exact H|]. vm_compute in H. injection H as <-. done.
Defined.
