(* ===== verification/Crash.v ===== *)
(** * Crash safety of the metadata

    The protocol between the metadata zones, the two log zones and the head
    page: at every moment the head page names an image and a phase such
    that the image, the items of that phase in the current log zone and the
    items of the next phase in the other log zone give the metadata in
    memory.  The invariant is kept by every logged step, by the switch of
    the log, by a compaction, and by a restart after a crash at any point. *)

From Stdlib Require Import ZArith Lia.
From stdpp Require Import base tactics list numbers sets gmap sorting relations.
From S2P Require Import Prelude FixedQueue MemPool Bitmap Ids Lmt Store RedoLog StoreOps Views OpSteps Boot.
From S2P Require Import BootSpec.

(** ** Positions of the log zones *)
Definition cur_pos (h : HeadPage) : Z :=
  if current_redolog h =? FIRST_REDOLOG_ZONE then redolog_position_first h else redolog_position_second h.
Definition opp_pos (h : HeadPage) : Z :=
  if current_redolog h =? FIRST_REDOLOG_ZONE then redolog_position_second h else redolog_position_first h.

Record zones_ok (h : HeadPage) : Prop := mkZonesOk {
  zo_head : head_ok h;
  zo_magic : magic h = 0x3553424e;
  zo_version : version h = S5_VERSION;
  zo_size : exists n, 0 < n /\ redolog_size h = LBA_LENGTH * n;
  zo_disjoint : redolog_position_first h + redolog_size h <= redolog_position_second h
}.

(** The pages of phase [ph] of the device are the items [L] from [start] on. *)
Record pages (d : device) (ph start : Z) (L : list item_body) : Prop := mkPages {
  pg_at : forall (i : nat) b, L !! i = Some b ->
    dev_log d !! (start + LBA_LENGTH * Z.of_nat i) = Some (mkItem ph b);
  pg_only : forall o it, dev_log d !! o = Some it -> item_phase it = ph ->
    exists i : nat, (i < length L)%nat /\ o = start + LBA_LENGTH * Z.of_nat i
}.

(** Items replayed one after the other, through valid views. *)
Inductive replays (h : HeadPage) : view -> list item_body -> view -> Prop :=
| replays_nil v : replays h v [] v
| replays_cons v b v1 L v2 :
    redo_view h b v = Done v1 -> view_ok h v1 -> replays h v1 L v2 -> replays h v (b :: L) v2.

(** What the disk holds: an image of [V0], the items [L1] that lead to
    [V1], and the items [L2] that lead to [V2]. *)
Record disk_ok (d : device) (h : HeadPage) (V0 V1 V2 : view) (L1 L2 : list item_body) : Prop := mkDiskOk {
  dk_head : dev_head d = Some h;
  dk_zones : zones_ok h;
  dk_phase : 1 <= redolog_phase h;
  dk_img : exists im, dev_md d !! current_metadata h = Some im /\ view_of_image im = V0;
  dk_V0 : view_ok h V0;
  dk_p1 : pages d (redolog_phase h) (cur_pos h) L1;
  dk_p2 : pages d (redolog_phase h + 1) (opp_pos h) L2;
  dk_max : forall o it, dev_log d !! o = Some it -> item_phase it <= redolog_phase h + 1;
  dk_fit1 : LBA_LENGTH * Z.of_nat (length L1) <= redolog_size h;
  dk_fit2 : LBA_LENGTH * Z.of_nat (length L2) <= redolog_size h;
  dk_r1 : replays h V0 L1 V1;
  dk_r2 : replays h V1 L2 V2;
  dk_small : 2 * q_depth (v_free V0) < 2 ^ 31 - 1;
  dk_nofault : dev_faults d = [] /\ dev_save_faults d = []
}.

(** The cursor of the log: in the current zone with nothing in the other
    one, or in the other zone with a compaction asked for. *)
Definition cursor_ok (s : store) (L1 L2 : list item_body) : Prop :=
  (L2 = [] /\ to_run_compact s = COMPACT_IDLE
    /\ redolog s = mkLog (redolog_phase (head s)) (redolog_size (head s)) (cur_pos (head s))
                     (cur_pos (head s) + LBA_LENGTH * Z.of_nat (length L1))
    /\ LBA_LENGTH * Z.of_nat (length L1) < redolog_size (head s))
  \/ (to_run_compact s = COMPACT_TODO
    /\ redolog s = mkLog (redolog_phase (head s) + 1) (redolog_size (head s)) (opp_pos (head s))
                     (opp_pos (head s) + LBA_LENGTH * Z.of_nat (length L2))
    /\ LBA_LENGTH * Z.of_nat (length L2) < redolog_size (head s)).

(** The compaction tool is empty or holds the image of the current zone. *)
Definition tool_ok (s t : store) (V0 : view) : Prop :=
  pool_ok (obj_lmt t) (lmt_entry_pool t)
  /\ obj_count (lmt_entry_pool t) = 2 * q_depth (v_free V0)
  /\ ((compact_lmt_exist s = 0 /\ obj_lmt t = ∅) \/ (compact_lmt_exist s = 1 /\ view_of t = V0)).

Record proto_with (w : world) (V0 V1 : view) (L1 L2 : list item_body) : Prop := mkProto {
  pr_store : store_ok (w_main w);
  pr_disk : disk_ok (dev (w_main w)) (head (w_main w)) V0 V1 (view_of (w_main w)) L1 L2;
  pr_cursor : cursor_ok (w_main w) L1 L2;
  pr_tool : tool_ok (w_main w) (w_tool w) V0
}.

Definition proto (w : world) : Prop := exists V0 V1 L1 L2, proto_with w V0 V1 L1 L2.

(** Two head pages that differ only in the zones in use and the phase. *)
Definition same_geom (h h' : HeadPage) : Prop := exists md rl ph, h' = head_update md rl ph h.

Section Basics.
Implicit Types (h : HeadPage) (v : view) (L : list item_body) (d : device).

(** The views do not depend on the fields a save changes. *)
Lemma view_ok_update md rl ph h v : view_ok h v -> view_ok (head_update md rl ph h) v.
Proof. intros [? ? ? ? ? ? ? ? ?]. by split. Qed.

Lemma redo_view_update md rl ph h b v : redo_view (head_update md rl ph h) b v = redo_view h b v.
Proof. done. Qed.

Lemma replays_update md rl ph h v L v' : replays h v L v' -> replays (head_update md rl ph h) v L v'.
Proof.
  induction 1 as [|v b v1 L v2 Hr Hv _ IH]; [constructor|].
  econstructor; [by rewrite redo_view_update|by apply view_ok_update|done].
Qed.

Lemma same_geom_trans h h1 h2 : same_geom h h1 -> same_geom h1 h2 -> same_geom h h2.
Proof. intros (? & ? & ? & ->) (md & rl & ph & ->). by exists md, rl, ph. Qed.

Lemma zones_ok_update md rl ph h : zones_ok h -> zones_ok (head_update md rl ph h).
Proof. intros [? ? ? ? ?]. by split. Qed.

Lemma replays_ok h v L v' : view_ok h v -> replays h v L v' -> view_ok h v'.
Proof. intros Hv. induction 1; auto. Qed.

Lemma replays_snoc h v L v1 b v2 :
  replays h v L v1 -> redo_view h b v1 = Done v2 -> view_ok h v2 -> replays h v (L ++ [b]) v2.
Proof.
  induction 1 as [|v b0 v0 L v3 Hr Hv _ IH]; intros Hb Hv2; simpl.
  - econstructor; [done|done|constructor].
  - econstructor; [done|done|]. by apply IH.
Qed.

Lemma redo_push_depth {T : Type} t (x : T) q q' : redo_push t x q = Done q' -> q_depth q' = q_depth q.
Proof. unfold redo_push. destruct (arr_set _ _ _); [|done]. by intros [= <-]. Qed.

Lemma redo_view_depth h b v v' : redo_view h b v = Done v' -> q_depth (v_free v') = q_depth (v_free v).
Proof.
  destruct b as [k e fh|k e tq|o th ft|k e o|k e o]; cbn [redo_view].
  - destruct (v_lmt v !! k) as [c|]; [destruct (chain_insert _ _ _ c) as [[rc c']| |]; [|done|done]|];
      cbn [obind]; by intros [= <-].
  - destruct (redo_push _ _ _); [|done|done]. cbn [obind]. by intros [= <-].
  - destruct (redo_push ft o (v_free v)) as [q| |] eqn:E; [|done|done]. cbn [obind]. intros [= <-]. simpl.
    by eapply redo_push_depth.
  - by intros [= <-].
  - by intros [= <-].
Qed.

Lemma replays_depth h v L v' : replays h v L v' -> q_depth (v_free v') = q_depth (v_free v).
Proof. induction 1 as [|v b v1 L v2 Hr _ _ IH]; [done|]. rewrite IH. by eapply redo_view_depth. Qed.

(** No more items than pages. *)
Lemma pages_size d ph start L : pages d ph start L -> (length L <= size (dev_log d))%nat.
Proof.
  intros [Hat _]. set (offs := (fun i : nat => start + LBA_LENGTH * Z.of_nat i) <$> seq 0 (length L)).
  assert (Hnd : NoDup offs).
  { apply NoDup_fmap_2; [|apply NoDup_seq]. intros i j E. unfold LBA_LENGTH in E. lia. }
  assert (Hsub : list_to_set offs ⊆ dom (dev_log d)).
  { intros o Ho. apply elem_of_list_to_set, list_elem_of_fmap in Ho as (i & -> & Hi).
    apply elem_of_seq in Hi. destruct (lookup_lt_is_Some_2 L i) as [b Hb]; [lia|].
    apply elem_of_dom. rewrite (Hat i b Hb). eauto. }
  apply subseteq_size in Hsub. rewrite size_list_to_set, size_dom in Hsub by done.
  unfold offs in Hsub. by rewrite length_fmap, length_seq in Hsub.
Qed.

Lemma pages_end d ph start L it :
  pages d ph start L -> dev_log d !! (start + LBA_LENGTH * Z.of_nat (length L)) = Some it ->
  item_phase it <> ph.
Proof.
  intros [_ Honly] Hit E. destruct (Honly _ _ Hit E) as (i & Hi & Eo). unfold LBA_LENGTH in Eo. lia.
Qed.

Lemma replay_loop_spec L fuel ph off s v :
  1 <= ph -> dev_faults (dev s) = [] -> store_ok s ->
  (forall (i : nat) b, L !! i = Some b ->
     dev_log (dev s) !! (off + LBA_LENGTH * Z.of_nat i) = Some (mkItem ph b)) ->
  (forall it, dev_log (dev s) !! (off + LBA_LENGTH * Z.of_nat (length L)) = Some it -> item_phase it <> ph) ->
  (length L < fuel)%nat -> replays (head s) (view_of s) L v ->
  exists s', replay_loop fuel ph off s = Done (0, s') /\ view_of s' = v /\ redo_frame s s' /\ store_ok s'.
Proof.
  intros Hph. revert fuel off s. induction L as [|b L IH]; intros fuel off s Hf Hok Hat Hend Hfuel Hr;
    (destruct fuel as [|fuel]; [lia|]); cbn [replay_loop]; unfold next_fault; rewrite Hf.
  - inversion Hr; subst. exists s. splits; [|done|by split|done].
    simpl in Hend. rewrite Z.add_0_r in Hend.
    destruct (dev_log (dev s) !! off) as [it|].
    + destruct (Z.eqb_spec (item_phase it) ph) as [E|_]; [|done]. by specialize (Hend it eq_refl).
    + destruct (Z.eqb_spec 0 ph); [lia|done].
  - pose proof (Hat 0%nat b eq_refl) as H0. rewrite Z.mul_0_r, Z.add_0_r in H0. rewrite H0.
    cbn [item_phase item_of]. rewrite Z.eqb_refl. cbn [negb].
    inversion Hr as [|? ? v1 ? ? Hrv Hv1 Hr2]; subst.
    destruct (redo_item_refines b s v1 (so_pool _ Hok)) as (s1 & -> & Hv & Hfr & Hp1 & Hne1);
      [|by apply store_pool_room|done|].
    { intros k E. by apply (chain_not_empty s k Hok). }
    cbn [obind]. change (negb (0 =? 0)) with false. cbn iota.
    destruct Hfr as [E1 E2 E3 E4 E5 E6 E7 E8 E9].
    assert (Hok1 : store_ok s1).
    { split; [rewrite E1; apply Hok|by rewrite E1, Hv|done|]. rewrite E9, (so_cap _ Hok).
      pose proof (redo_view_depth _ _ _ _ Hrv) as Hd. rewrite <- Hv in Hd. simpl in Hd. by rewrite Hd. }
    destruct (IH fuel (off + LBA_LENGTH) s1) as (s2 & -> & Hv2 & Hfr2 & Hok2).
    + by rewrite E7.
    + done.
    + intros i b' Hb. rewrite E7. rewrite <- (Hat (S i) b' Hb). f_equal. lia.
    + intros it Hit. apply (Hend it). rewrite E7 in Hit. rewrite <- Hit. f_equal. simpl. lia.
    + simpl in Hfuel. lia.
    + by rewrite E1, Hv.
    + exists s2. splits; [done|done| |done]. destruct Hfr2. split; congruence.
Qed.

Lemma get_cur_pos h : get_meta_position h REDOLOG CURRENT = Done (cur_pos h).
Proof. done. Qed.

Lemma get_opp_pos h : get_meta_position h REDOLOG OPPOSITE = Done (opp_pos h).
Proof. done. Qed.

(** Replaying a zone. *)
Lemma replay_spec ph which pos L s v :
  1 <= ph -> dev_faults (dev s) = [] -> store_ok s ->
  get_meta_position (head s) REDOLOG which = Done pos -> pages (dev s) ph pos L ->
  replays (head s) (view_of s) L v ->
  exists s', replay ph which s = Done (0, s') /\ view_of s' = v /\ redo_frame s s' /\ store_ok s'.
Proof.
  intros Hph Hf Hok Hpos Hpg Hr. unfold replay. rewrite Hpos. cbn [obind].
  pose proof (pages_size _ _ _ _ Hpg). eapply (replay_loop_spec L); try done.
  - apply Hpg.
  - intros it. by apply (pages_end _ _ _ _ _ Hpg).
  - lia.
Qed.
End Basics.

(** ** Steps keep the protocol *)
Section Steps.
Implicit Types (h : HeadPage) (v : view) (L : list item_body) (d : device) (s t : store) (w : world).

Lemma pages_append d ph start L b :
  pages d ph start L ->
  pages (set_dev_log (<[start + LBA_LENGTH * Z.of_nat (length L) := mkItem ph b]> (dev_log d)) d)
    ph start (L ++ [b]).
Proof.
  intros [Hat Honly]. split; simpl.
  - intros i b' Hb. destruct (decide (i < length L)%nat).
    + rewrite lookup_app_l in Hb by done. rewrite lookup_insert_ne by (unfold LBA_LENGTH; lia). by apply Hat.
    + rewrite lookup_app_r in Hb by lia. apply list_lookup_singleton_Some in Hb as [Hi ->].
      replace i with (length L) by lia. apply lookup_insert_eq.
  - intros o it Hit Hp. rewrite length_app. simpl.
    destruct (decide (start + LBA_LENGTH * Z.of_nat (length L) = o)) as [<-|Hne].
    + exists (length L). split; [lia|done].
    + rewrite lookup_insert_ne in Hit by done. destruct (Honly _ _ Hit Hp) as (i & ? & ?).
      exists i. split; [lia|done].
Qed.

(** A page written elsewhere with another phase. *)
Lemma pages_other d ph start L o it :
  pages d ph start L -> item_phase it <> ph ->
  (forall i : nat, (i < length L)%nat -> o <> start + LBA_LENGTH * Z.of_nat i) ->
  pages (set_dev_log (<[o := it]> (dev_log d)) d) ph start L.
Proof.
  intros [Hat Honly] Hp Ho. split; simpl.
  - intros i b Hb. rewrite lookup_insert_ne; [by apply Hat|]. apply Ho. by eapply lookup_lt_Some.
  - intros o' it' Hit Hp'. destruct (decide (o = o')) as [<-|Hne].
    + rewrite lookup_insert_eq in Hit. by simplify_eq.
    + rewrite lookup_insert_ne in Hit by done. by eapply Honly.
Qed.

Lemma zone_sep h : zones_ok h ->
  cur_pos h + redolog_size h <= opp_pos h \/ opp_pos h + redolog_size h <= cur_pos h.
Proof. intros [_ _ _ _ Hd]. unfold cur_pos, opp_pos. destruct (_ =? _); [by left|by right]. Qed.

(** An item appended to the current zone. *)
Lemma disk_append1 d h V0 V1 L1 b V' :
  disk_ok d h V0 V1 V1 L1 [] -> LBA_LENGTH * Z.of_nat (length L1) < redolog_size h ->
  redo_view h b V1 = Done V' -> view_ok h V' ->
  disk_ok (set_dev_log (<[cur_pos h + LBA_LENGTH * Z.of_nat (length L1) := mkItem (redolog_phase h) b]>
                          (dev_log d)) d) h V0 V' V' (L1 ++ [b]) [].
Proof.
  intros [H1 H2 H3 H4 H5 H6 H7 H8 H9 H10 H11 H12 H13 H14] Hfit Hr Hv.
  destruct (zo_size _ H2) as (n & Hn & En).
  split; try done.
  - by apply pages_append.
  - apply pages_other; [done|simpl; lia|]. intros i Hi. simpl in Hi. lia.
  - simpl. intros o it Hit. destruct (decide (cur_pos h + LBA_LENGTH * Z.of_nat (length L1) = o)) as [<-|].
    + rewrite lookup_insert_eq in Hit. simplify_eq. simpl. lia.
    + rewrite lookup_insert_ne in Hit by done. by eapply H8.
  - rewrite length_app. simpl. unfold LBA_LENGTH in *. rewrite En in *. nia.
  - by eapply replays_snoc.
  - constructor.
Qed.

(** An item appended to the other zone. *)
Lemma disk_append2 d h V0 V1 V2 L1 L2 b V' :
  disk_ok d h V0 V1 V2 L1 L2 -> LBA_LENGTH * Z.of_nat (length L2) < redolog_size h ->
  redo_view h b V2 = Done V' -> view_ok h V' ->
  disk_ok (set_dev_log (<[opp_pos h + LBA_LENGTH * Z.of_nat (length L2) := mkItem (redolog_phase h + 1) b]>
                          (dev_log d)) d) h V0 V1 V' L1 (L2 ++ [b]).
Proof.
  intros [H1 H2 H3 H4 H5 H6 H7 H8 H9 H10 H11 H12 H13 H14] Hfit Hr Hv.
  destruct (zo_size _ H2) as (n & Hn & En).
  split; try done.
  - apply pages_other; [done|simpl; lia|]. intros i Hi. unfold LBA_LENGTH in *.
    destruct (zone_sep h H2); lia.
  - by apply pages_append.
  - simpl. intros o it Hit. destruct (decide (opp_pos h + LBA_LENGTH * Z.of_nat (length L2) = o)) as [<-|].
    + rewrite lookup_insert_eq in Hit. simplify_eq. simpl. lia.
    + rewrite lookup_insert_ne in Hit by done. by eapply H8.
  - rewrite length_app. simpl. unfold LBA_LENGTH in *. rewrite En in *. nia.
  - by eapply replays_snoc.
Qed.

Lemma tool_ok_exist s s' t V0 : compact_lmt_exist s' = compact_lmt_exist s -> tool_ok s t V0 -> tool_ok s' t V0.
Proof. intros E. unfold tool_ok. by rewrite E. Qed.

Lemma proto_op w s' : proto w -> op_step (w_main w) s' -> proto (mkWorld s' (w_tool w)).
Proof.
  intros (V0 & V1 & L1 & L2 & [Hok Hd Hc Ht]) Hop.
  inversion Hop as [? ? [Eh Ed El Ec Ee] Ev Hok'|b ? ? Hroom [Eh Ee Ed Hcur] Hrv _ Hok']; subst.
  - exists V0, V1, L1, L2. split; simpl.
    + done.
    + by rewrite Ed, Eh, Ev.
    + unfold cursor_ok in *. by rewrite El, Eh, Ec.
    + by eapply tool_ok_exist.
  - assert (Hvo : view_ok (head (w_main w)) (view_of s')) by (rewrite <- Eh; apply Hok').
    destruct Hc as [(-> & Hto & Elog & Hfit)|(Hto & Elog & Hfit)].
    + assert (V1 = view_of (w_main w)) as ->.
      { pose proof (dk_r2 _ _ _ _ _ _ _ Hd) as Hr2. by inversion Hr2. }
      exists V0, (view_of s'), (L1 ++ [b]), []. split; simpl; [done| | |by eapply tool_ok_exist].
      * rewrite Ed, Eh, Elog. simpl. by eapply disk_append1.
      * unfold cursor_ok. rewrite Eh. destruct Hcur as [(Hsp & Ec & El)|(_ & Ec & pos & Hpos & El)].
        -- left. rewrite El, Elog. unfold has_space in Hsp. rewrite Elog in Hsp. simpl in *.
           splits; [done|congruence| |]; rewrite length_app; simpl; [f_equal|]; unfold LBA_LENGTH in *; lia.
        -- right. rewrite get_opp_pos in Hpos. injection Hpos as <-. rewrite El, Elog. simpl.
           destruct (zo_size _ (dk_zones _ _ _ _ _ _ _ Hd)) as (n & Hn & En).
           splits; [done|f_equal; lia|]. unfold LBA_LENGTH in *. lia.
    + assert (Hsp : has_space (w_main w)).
      { destruct Hroom as [?|[E _]]; [done|]. rewrite Elog in E. simpl in E. lia. }
      exists V0, V1, L1, (L2 ++ [b]). split; simpl; [done| | |by eapply tool_ok_exist].
      * rewrite Ed, Eh, Elog. simpl. by eapply disk_append2.
      * unfold cursor_ok. rewrite Eh. right. destruct Hcur as [(_ & Ec & El)|(E & _)].
        -- rewrite El, Elog. unfold has_space in Hsp. rewrite Elog in Hsp. simpl in *.
           splits; [congruence| |]; rewrite length_app; simpl; [f_equal|]; unfold LBA_LENGTH in *; lia.
        -- rewrite Elog in E. simpl in E. lia.
Qed.

(** The event that asks for a compaction, when none is pending. *)
Lemma proto_savemd w :
  proto w -> to_run_compact (w_main w) = COMPACT_IDLE ->
  exists s', process_savemd (w_main w) = Done (0, s') /\ proto (mkWorld s' (w_tool w))
    /\ view_of s' = view_of (w_main w) /\ head s' = head (w_main w).
Proof.
  intros (V0 & V1 & L1 & L2 & [Hok Hd Hc Ht]) Hidle. unfold process_savemd.
  destruct (_ =? _).
  { exists (w_main w). splits; [done| |done|done]. exists V0, V1, L1, L2. by split. }
  unfold meta_data_compaction_trigger. cbn [negb andb]. rewrite Hidle.
  change (COMPACT_IDLE =? COMPACT_RUNNING) with false. cbn iota.
  change ((COMPACT_TODO =? COMPACT_TODO) && (COMPACT_IDLE =? COMPACT_ERROR)) with false. cbn [obind].
  change ((COMPACT_TODO =? COMPACT_TODO) && negb (COMPACT_IDLE =? COMPACT_ERROR)) with true. cbn iota.
  change (head (with_compact COMPACT_TODO (w_main w))) with (head (w_main w)).
  rewrite get_opp_pos. cbn [obind]. eexists. splits; [done| |done|done].
  destruct Hc as [(-> & Hto & Elog & Hfit)|(Hto & _ & _)]; [|rewrite Hidle in Hto; discriminate].
  exists V0, V1, L1, []. split; simpl.
  - by eapply store_ok_same; [| |exact Hok].
  - done.
  - right. simpl. rewrite Elog. simpl. destruct (zo_size _ (dk_zones _ _ _ _ _ _ _ Hd)) as (n & Hn & En).
    splits; [done|f_equal; lia|]. unfold LBA_LENGTH in *. lia.
  - done.
Qed.
End Steps.

(** ** Compaction and restart *)
Section Switch.
Implicit Types (h : HeadPage) (v : view) (L : list item_body) (d : device) (s t : store) (w : world).

(** The head page after a save to [zone]. *)
Definition switched (zone : Z) h : HeadPage :=
  head_update zone (oppsite_redolog_zone h) (redolog_phase h + 1) h.

Lemma save_meta_data_ok zone s :
  dev_save_faults (dev s) = [] ->
  save_meta_data zone s =
    (0, with_dev (set_dev_head (switched zone (head s)) (set_dev_md (<[zone := image_of s]> (dev_md (dev s))) (dev s)))
          (with_head (switched zone (head s)) s)).
Proof. intros Hf. unfold save_meta_data, next_save_fault. by rewrite Hf. Qed.

Lemma cur_pos_switched zone h : cur_pos (switched zone h) = opp_pos h.
Proof.
  unfold cur_pos, opp_pos, switched, oppsite_redolog_zone. simpl.
  destruct (current_redolog h =? FIRST_REDOLOG_ZONE); done.
Qed.

Lemma opp_pos_switched zone h : opp_pos (switched zone h) = cur_pos h.
Proof.
  unfold cur_pos, opp_pos, switched, oppsite_redolog_zone. simpl.
  destruct (current_redolog h =? FIRST_REDOLOG_ZONE); done.
Qed.

Lemma pages_none d ph start :
  (forall o it, dev_log d !! o = Some it -> item_phase it < ph) -> pages d ph start [].
Proof.
  intros H. split; [done|]. intros o it Hit E. specialize (H o it Hit). lia.
Qed.

(** The disk after a compaction that saved [V1]. *)
Lemma disk_compact d h V0 V1 V2 L1 L2 im zone :
  disk_ok d h V0 V1 V2 L1 L2 -> view_of_image im = V1 ->
  disk_ok (set_dev_head (switched zone h) (set_dev_md (<[zone := im]> (dev_md d)) d))
    (switched zone h) V1 V2 V2 L2 [].
Proof.
  intros [H1 H2 H3 H4 H5 H6 H7 H8 H9 H10 H11 H12 H13 H14] Him.
  assert (HV1 : view_ok h V1) by (by eapply replays_ok).
  split; simpl; try done.
  - by apply zones_ok_update.
  - lia.
  - exists im. split; [apply lookup_insert_eq|done].
  - by apply view_ok_update.
  - rewrite cur_pos_switched. by destruct H7; split.
  - rewrite opp_pos_switched. apply pages_none. simpl. intros o it Hit. specialize (H8 o it Hit). lia.
  - intros o it Hit. specialize (H8 o it Hit). lia.
  - destruct (zo_size _ H2) as (n & Hn & En). unfold LBA_LENGTH in *. lia.
  - by apply replays_update.
  - constructor.
  - by rewrite (replays_depth _ _ _ _ H11).
Qed.

(** The tool after loading, when it has to load. *)
Lemma tool_load w V0 V1 L1 L2 :
  proto_with w V0 V1 L1 L2 ->
  let main := w_main w in
  let t := with_head (head main) (with_dev (dev main) (w_tool w)) in
  exists t1,
    (if compact_lmt_exist main =? 0 then load_meta_data (current_metadata (head main)) true t else Done (0, t))
      = Done (0, t1)
    /\ view_of t1 = V0 /\ store_ok t1 /\ head t1 = head main /\ dev t1 = dev main.
Proof.
  intros [Hok Hd _ (Hp & Hcap & Ht)] main t.
  destruct (dk_img _ _ _ _ _ _ _ Hd) as (im & Him & Evim).
  assert (Hdepth : q_depth (im_free im) = q_depth (v_free V0)) by (by rewrite <- Evim).
  pose proof (dk_V0 _ _ _ _ _ _ _ Hd) as HV0. pose proof (zo_head _ (dk_zones _ _ _ _ _ _ _ Hd)) as Hh.
  destruct Ht as [(He & Hemp)|(He & Hv)]; fold main in He; rewrite He; cbn [Z.eqb].
  - destruct (load_meta_data_spec (current_metadata (head main)) true t im)
      as (t1 & Hl & Hv1 & Hp1 & Hc1 & Eh & Ed & _).
    + apply (dk_nofault _ _ _ _ _ _ _ Hd).
    + done.
    + simpl. by rewrite Evim.
    + done.
    + intros _. rewrite Hdepth. simpl. by rewrite <- Hemp.
    + rewrite Hdepth. apply (dk_small _ _ _ _ _ _ _ Hd).
    + exists t1. rewrite Hv1, Evim, Eh, Ed. splits; try done. split.
      * by rewrite Eh.
      * by rewrite Eh, Hv1, Evim.
      * done.
      * rewrite Hc1. f_equal. rewrite <- Hv1 in Evim. simpl in Evim. by rewrite Hdepth, <- Evim.
  - exists t. splits; try done. split; try done.
    + simpl. change (view_of t) with (view_of (w_tool w)). by rewrite Hv.
    + simpl. rewrite Hcap, <- Hv. done.
Qed.

Lemma oppsite_md_ne h : oppsite_md_zone h <> current_metadata h.
Proof.
  unfold oppsite_md_zone. destruct (Z.eqb_spec (current_metadata h) FIRST_METADATA_ZONE) as [->|]; [done|].
  by intros E.
Qed.

(** A pending compaction runs to its end and keeps the protocol; the
    metadata in memory do not change. *)
Lemma proto_compact w :
  proto w -> to_run_compact (w_main w) = COMPACT_TODO ->
  exists w', compact_thread w = Done (false, w') /\ proto w'
    /\ view_of (w_main w') = view_of (w_main w) /\ same_geom (head (w_main w)) (head (w_main w'))
    /\ to_run_compact (w_main w') = COMPACT_IDLE.
Proof.
  intros (V0 & V1 & L1 & L2 & Hpr) Htodo. pose proof Hpr as [Hok Hd Hc Ht].
  set (w0 := mkWorld (with_compact COMPACT_RUNNING (w_main w)) (w_tool w)).
  destruct (tool_load w V0 V1 L1 L2 Hpr) as (t1 & Hl & Hv1 & Hok1 & Eh1 & Ed1).
  destruct (replay_spec (redolog_phase (head (w_main w))) CURRENT (cur_pos (head (w_main w))) L1 t1 V1)
    as (t2 & Hrep & Hv2 & Hfr & Hok2).
  { apply Hd. } { rewrite Ed1. apply Hd. } { done. } { by rewrite Eh1. } { rewrite Ed1. apply Hd. }
  { rewrite Eh1, Hv1. apply Hd. }
  destruct Hfr as [Eh2 _ _ _ _ _ Ed2 _ _]. rewrite Eh1 in Eh2. rewrite Ed1 in Ed2.
  set (zone := oppsite_md_zone (head (w_main w))).
  pose proof (save_meta_data_ok zone t2) as Hsave. rewrite Ed2, Eh2 in Hsave.
  specialize (Hsave (proj2 (dk_nofault _ _ _ _ _ _ _ Hd))).
  set (t3 := with_dev _ (with_head _ t2)) in Hsave.
  set (main' := with_lmt_exist 1 (with_head (head t3) (with_dev (dev t3) (with_compact COMPACT_RUNNING (w_main w))))).
  assert (Hcm : compact_meta_data w0 = Done (0, mkWorld main' t3)).
  { unfold compact_meta_data, compact_work. cbn [w_main w_tool w0].
    change (compact_lmt_exist (with_compact COMPACT_RUNNING (w_main w))) with (compact_lmt_exist (w_main w)).
    change (head (with_compact COMPACT_RUNNING (w_main w))) with (head (w_main w)).
    change (dev (with_compact COMPACT_RUNNING (w_main w))) with (dev (w_main w)).
    rewrite Hl. cbn [obind]. change (negb (0 =? 0)) with false. cbn iota.
    rewrite Hrep. cbn [obind]. change (negb (0 =? 0)) with false. cbn iota.
    change (oppsite_md_zone (head (w_main w))) with zone. by rewrite Hsave. }
  exists (mkWorld (with_compact COMPACT_IDLE main') t3). splits; [| |done|by eexists _, _, _|done].
  { unfold compact_thread. rewrite Htodo. change (COMPACT_TODO =? COMPACT_TODO) with true. cbn iota.
    fold w0. by rewrite Hcm. }
  destruct Hc as [(_ & E & _)|(_ & Elog & Hfit)]; [rewrite Htodo in E; discriminate|].
  exists V1, (view_of (w_main w)), L2, []. split.
  - destruct Hok as [A1 A2 A3 A4]. split; [done|by apply view_ok_update|done|done].
  - apply (disk_compact _ _ V0 V1 _ L1 L2 (image_of t2) zone Hd). by rewrite <- Hv2.
  - left. simpl. rewrite cur_pos_switched, Elog. splits; [done|done|done|done].
  - destruct Hok2 as [B1 B2 B3 B4]. split; [done|]. split.
    + simpl. rewrite B4. by rewrite <- Hv2.
    + right. split; [done|]. by rewrite <- Hv2.
Qed.
End Switch.

(** ** Restart *)

(** The disk found after a crash: a save that was running may have left
    anything in the zone it wrote to, and data writes may be lost. *)
Record crash_disk (h : HeadPage) (d d' : device) : Prop := mkCrash {
  cr_head : dev_head d' = dev_head d;
  cr_log : dev_log d' = dev_log d;
  cr_md : dev_md d' !! current_metadata h = dev_md d !! current_metadata h;
  cr_faults : dev_faults d' = dev_faults d /\ dev_save_faults d' = dev_save_faults d
}.

Section Restart.
Implicit Types (h : HeadPage) (v : view) (L : list item_body) (d : device) (s t : store) (w : world).

Lemma disk_ok_crash d d' h V0 V1 V2 L1 L2 :
  disk_ok d h V0 V1 V2 L1 L2 -> crash_disk h d d' -> disk_ok d' h V0 V1 V2 L1 L2.
Proof.
  intros [H1 H2 H3 H4 H5 H6 H7 H8 H9 H10 H11 H12 H13 H14] [Eh El Em [Ef Es]].
  split; try done.
  - by rewrite Eh.
  - by rewrite Em.
  - destruct H6. split; by rewrite El.
  - destruct H7. split; by rewrite El.
  - by rewrite El.
  - by rewrite Ef, Es.
Qed.

(** Both log zones are replayed on the image. *)
Lemma load_and_replay d h V0 V1 V2 L1 L2 s :
  disk_ok d h V0 V1 V2 L1 L2 -> head s = h -> dev s = d -> obj_lmt s = ∅ ->
  let h1 := head_update (current_metadata h) (current_redolog h) (redolog_phase h + 1) h in
  exists s1 s2 s3,
    load_meta_data (current_metadata h) false s = Done (0, s1) /\ head s1 = h
    /\ replay (redolog_phase h) CURRENT (redolog_init s1) = Done (0, s2)
    /\ head s2 = h /\ dev s2 = d
    /\ replay (redolog_phase h + 1) OPPOSITE (with_head h1 s2) = Done (0, s3)
    /\ view_of s3 = V2 /\ store_ok s3 /\ head s3 = h1 /\ dev s3 = d
    /\ log_size (redolog s3) = redolog_size h /\ use_scc s3 = use_scc s.
Proof.
  intros Hd Eh Ed Hemp h1. destruct (dk_img _ _ _ _ _ _ _ Hd) as (im & Him & Evim).
  assert (Hdepth : q_depth (im_free im) = q_depth (v_free V0)) by (by rewrite <- Evim).
  destruct (load_meta_data_spec (current_metadata h) false s im)
    as (s1 & Hl & Hv1 & Hp1 & Hc1 & Eh1 & Ed1 & _ & Escc & _).
  { rewrite Ed. apply Hd. } { by rewrite Ed. } { rewrite Eh, Evim. apply Hd. } { done. } { done. }
  { rewrite Hdepth. apply Hd. }
  rewrite Eh in Eh1. rewrite Ed in Ed1. rewrite Evim in Hv1.
  assert (Hok1 : store_ok (redolog_init s1)).
  { split; simpl; rewrite ?Eh1.
    - apply (zo_head _ (dk_zones _ _ _ _ _ _ _ Hd)).
    - change (view_of (redolog_init s1)) with (view_of s1). rewrite Hv1. apply Hd.
    - done.
    - rewrite Hc1. f_equal. by rewrite Hdepth, <- Hv1. }
  destruct (replay_spec (redolog_phase h) CURRENT (cur_pos h) L1 (redolog_init s1) V1)
    as (s2 & Hrep & Hv2 & Hfr & Hok2).
  { apply Hd. } { simpl. rewrite Ed1. apply Hd. } { done. } { simpl. by rewrite Eh1. }
  { simpl. rewrite Ed1. apply Hd. }
  { change (view_of (redolog_init s1)) with (view_of s1). rewrite Hv1. simpl. rewrite Eh1. apply Hd. }
  destruct Hfr as [Eh2 _ El2 _ _ Es2 Ed2 _ _]. simpl in Eh2, Ed2, El2, Es2. rewrite Eh1 in Eh2, El2. rewrite Ed1 in Ed2.
  assert (Hokh : store_ok (with_head h1 s2)).
  { destruct Hok2 as [A1 A2 A3 A4]. rewrite Eh2 in A1, A2. split; [done| |done|done].
    simpl. by apply view_ok_update. }
  destruct (replay_spec (redolog_phase h + 1) OPPOSITE (opp_pos h) L2 (with_head h1 s2) V2)
    as (s3 & Hrep2 & Hv3 & Hfr3 & Hok3).
  { pose proof (dk_phase _ _ _ _ _ _ _ Hd). lia. } { simpl. rewrite Ed2. apply Hd. } { done. } { done. }
  { simpl. rewrite Ed2. apply Hd. }
  { change (view_of (with_head h1 s2)) with (view_of s2). rewrite Hv2. simpl. apply replays_update, Hd. }
  destruct Hfr3 as [Eh3 _ El3 _ _ Es3 Ed3 _ _]. simpl in *.
  exists s1, s2, s3. splits; try done.
  - congruence.
  - by rewrite El3, El2.
  - congruence.
Qed.

Lemma store_ok_fix s s' :
  store_ok s -> view_of s' = fix_view (view_of s) -> redo_frame s s' ->
  pool_ok (obj_lmt s') (lmt_entry_pool s') -> free_obj_queue s' = free_obj_queue s -> store_ok s'.
Proof.
  intros [A1 A2 A3 A4] Hv [E1 E2 E3 E4 E5 E6 E7 E8 E9] Hp Hf. split; rewrite ?E1, ?Hv; try done.
  - by apply fix_view_ok.
  - by rewrite E9, Hf.
Qed.

Lemma start_existing_spec d h V0 V1 V2 L1 L2 s :
  disk_ok d h V0 V1 V2 L1 L2 -> head s = h -> dev s = d -> obj_lmt s = ∅ ->
  let h1 := head_update (current_metadata h) (current_redolog h) (redolog_phase h + 1) h in
  exists s4 s', start_existing s = Done (0, s') /\ view_of s4 = fix_view V2 /\ store_ok s4
    /\ head s4 = h1 /\ dev s4 = d
    /\ let zone := oppsite_md_zone h1 in
       s' = set_log_phase (redolog_phase h + 2) (cur_pos (switched zone h1))
              (with_dev (set_dev_head (switched zone h1)
                           (set_dev_md (<[zone := image_of s4]> (dev_md d)) d))
                 (with_head (switched zone h1) s4))
    /\ log_size (redolog s4) = redolog_size h.
Proof.
  intros Hd Eh Ed Hemp h1.
  destruct (load_and_replay d h V0 V1 V2 L1 L2 s Hd Eh Ed Hemp)
    as (s1 & s2 & s3 & Hl & Eh1 & Hr1 & Eh2 & Ed2 & Hr2 & Hv3 & Hok3 & Eh3 & Ed3 & El3 & _). fold h1 in Hr2, Eh3.
  destruct (post_load_fix_spec s3 (so_pool _ Hok3)) as (s4 & Hfix & Hv4 & Hfr & Hp4 & Hf4).
  pose proof (store_ok_fix s3 s4 Hok3 Hv4 Hfr Hp4 Hf4) as Hok4.
  destruct Hfr as [Eh4 _ El4 _ _ _ Ed4 _ _]. rewrite Eh3 in Eh4. rewrite Ed3 in Ed4. rewrite Hv3 in Hv4.
  exists s4, (set_log_phase (redolog_phase h + 2) (cur_pos (switched (oppsite_md_zone h1) h1))
              (with_dev (set_dev_head (switched (oppsite_md_zone h1) h1)
                           (set_dev_md (<[oppsite_md_zone h1 := image_of s4]> (dev_md d)) d))
                 (with_head (switched (oppsite_md_zone h1) h1) s4))).
  splits; try done.
  - unfold start_existing. rewrite Eh, Hl. cbn [obind]. change (negb (0 =? 0)) with false. cbn iota.
    change (head (redolog_init s1)) with (head s1). rewrite Eh1, Hr1. cbn [obind].
    change (negb (0 =? 0)) with false. cbn iota. rewrite Eh2. fold h1.
    change (redolog_phase (head (with_head h1 s2))) with (redolog_phase h + 1). rewrite Hr2. cbn [obind].
    change (negb (0 =? 0)) with false. cbn iota. rewrite Hfix. cbn [obind].
    rewrite (post_load_check_ok s4 Hok4). cbn [obind].
    rewrite (save_meta_data_ok _ s4) by (rewrite Ed4; apply Hd). rewrite get_cur_pos. cbn [obind].
    rewrite Eh4, Ed4. simpl redolog_phase. do 3 f_equal. lia.
  - split; [done|]. by rewrite El4.
Qed.

(** A disk just saved, with no item of the current phase. *)
Lemma disk_fresh d h V im :
  dev_head d = Some h -> zones_ok h -> 1 <= redolog_phase h ->
  dev_md d !! current_metadata h = Some im -> view_of_image im = V -> view_ok h V ->
  (forall o it, dev_log d !! o = Some it -> item_phase it < redolog_phase h) ->
  2 * q_depth (v_free V) < 2 ^ 31 - 1 -> dev_faults d = [] /\ dev_save_faults d = [] ->
  disk_ok d h V V V [] [].
Proof.
  intros H1 H2 H3 H4 H5 H6 H7 H8 H9. destruct (zo_size _ H2) as (n & Hn & En).
  split; try done.
  - by exists im.
  - by apply pages_none.
  - apply pages_none. intros o it Hit. specialize (H7 o it Hit). lia.
  - intros o it Hit. specialize (H7 o it Hit). lia.
  - unfold LBA_LENGTH in *. simpl. lia.
  - unfold LBA_LENGTH in *. simpl. lia.
  - constructor.
  - constructor.
Qed.

(** Restarting on a disk left by a crash. *)
Lemma restart_spec d h V0 V1 V2 L1 L2 clean id cap meta scc :
  disk_ok d h V0 V1 V2 L1 L2 ->
  exists w', store_init clean id cap meta (blank_store scc d) = Done (0, w') /\ proto w'
    /\ view_of (w_main w') = fix_view V2 /\ same_geom h (head (w_main w')).
Proof.
  intros Hd.
  assert (Hread : read_store_head (blank_store scc d) = (0, with_head h (blank_store scc d))).
  { unfold read_store_head, next_fault. simpl dev. rewrite (proj1 (dk_nofault _ _ _ _ _ _ _ Hd)).
    simpl dev. rewrite (dk_head _ _ _ _ _ _ _ Hd).
    by rewrite (zo_magic _ (dk_zones _ _ _ _ _ _ _ Hd)), (zo_version _ (dk_zones _ _ _ _ _ _ _ Hd)). }
  unfold store_init. rewrite Hread. cbn [negb orb Z.eqb].
  unfold start_metadata_service. cbn iota.
  destruct (start_existing_spec d h V0 V1 V2 L1 L2 (with_head h (blank_store scc d)) Hd)
    as (s4 & s' & -> & Hv4 & Hok4 & Eh4 & Ed4 & Es' & El4); [done..|].
  set (h1 := head_update _ _ _ h) in *. set (zone := oppsite_md_zone h1) in *.
  cbn [obind]. change (negb (0 =? 0)) with false. cbn iota.
  pose proof (so_view _ Hok4) as Hvo. pose proof (wf_depth _ (vo_free _ _ Hvo)) as Hdep. simpl in Hdep.
  assert (Hdepth : q_depth (free_obj_queue s4) = q_depth (v_free V0)).
  { change (q_depth (free_obj_queue s4)) with (q_depth (v_free (view_of s4))). rewrite Hv4. simpl.
    rewrite (replays_depth _ _ _ _ (dk_r2 _ _ _ _ _ _ _ Hd)). apply (replays_depth _ _ _ _ (dk_r1 _ _ _ _ _ _ _ Hd)). }
  pose proof (dk_small _ _ _ _ _ _ _ Hd) as Hsmall.
  unfold compact_tool_init. rewrite Es'. cbn [free_obj_queue set_log_phase with_log with_dev with_head].
  rewrite i32_small by lia.
  destruct (pool_init_inv (F := ring_fifo) (q_depth (free_obj_queue s4) * 2) empty_queue) as (pt & -> & Hpi & Hpc); [lia|].
  cbn [obind w_main w_tool]. eexists. splits; [done| |done|by eexists _, _, _].
  exists (fix_view V2), (fix_view V2), [], []. split.
  - destruct Hok4 as [A1 A2 A3 A4]. rewrite Eh4 in A1, A2. split; [done|by apply view_ok_update|done|done].
  - simpl. change (view_of _) with (view_of s4). rewrite Hv4.
    eapply (disk_fresh _ _ _ (image_of s4)); simpl.
    + done.
    + by do 2 apply zones_ok_update; apply Hd.
    + pose proof (dk_phase _ _ _ _ _ _ _ Hd). lia.
    + apply lookup_insert_eq.
    + by rewrite <- Hv4.
    + apply view_ok_update. rewrite <- Hv4, <- Eh4. apply Hok4.
    + intros o it Hit. pose proof (dk_max _ _ _ _ _ _ _ Hd o it Hit). lia.
    + change (q_depth (v_free V2)) with (q_depth (v_free (fix_view V2))). rewrite <- Hv4. simpl. lia.
    + apply Hd.
  - left. simpl. rewrite El4. destruct (zo_size _ (dk_zones _ _ _ _ _ _ _ Hd)) as (n & Hn & En).
    splits; [done|done|f_equal; lia|]. unfold LBA_LENGTH in *. lia.
  - split; [split; [done|simpl; lia]|]. split; [|by left]. simpl. rewrite Hpc.
    change (q_depth (v_free V2)) with (q_depth (v_free (fix_view V2))). rewrite <- Hv4. simpl. lia.
Qed.
End Restart.

(** ** A new disk *)
Section New.
Implicit Types (d : device) (s : store).

Lemma enqueue_ids_spec n i q :
  queue_wf q -> Z.of_nat (length (abs q) + n) <= q_depth q - 1 ->
  exists q', enqueue_ids n i q = Done q' /\ queue_wf q' /\ q_depth q' = q_depth q
    /\ abs q' = abs q ++ seqZ i (Z.of_nat n).
Proof.
  revert i q. induction n as [|n IH]; intros i q Hwf Hn; cbn [enqueue_ids].
  - exists q. by rewrite app_nil_r.
  - destruct (enqueue_fifo q i Hwf) as (q1 & Eq & Hwf1 & Ha1 & Hd1); [lia|]. rewrite Eq. cbn [obind].
    destruct (IH (i + 1) q1 Hwf1) as (q2 & -> & Hwf2 & Hd2 & Ha2).
    { rewrite Ha1, length_app. simpl. lia. }
    exists q2. splits; [done|done|lia|]. rewrite Ha2, Ha1, <- app_assoc. simpl. f_equal.
    rewrite (seqZ_cons i) by lia. do 2 f_equal; lia.
Qed.

(** The number of objects of a device. *)
Definition new_obj_count (cap meta : Z) : Z := Z.shiftr (cap - meta) DEFAULT_OBJ_SIZE_ORDER.

Lemma initial_zones_ok id cap meta : zones_ok (initial_head id cap meta).
Proof.
  split; try done. exists 65536. done.
Qed.

Lemma initial_view_ok h fq tq n :
  head_ok h -> queue_wf fq -> queue_wf tq -> q_depth fq = n + 1 -> q_depth tq = n + 1 ->
  abs fq = seqZ 0 n -> abs tq = [] -> view_ok h (mkView ∅ fq tq).
Proof.
  intros Hh Hf Ht Hdf Hdt Haf Hat.
  assert (Hids : ids h (mkView ∅ fq tq) = seqZ 0 n).
  { unfold ids. simpl. rewrite Haf, Hat. unfold entries. rewrite map_to_list_empty. simpl. by rewrite app_nil_r. }
  split; rewrite ?Hids; simpl; try done.
  - congruence.
  - apply NoDup_seqZ.
  - intros i Hi%elem_of_seqZ. lia.
  - intros e He. unfold entries in He. rewrite map_to_list_empty in He. by apply elem_of_nil in He.
  - intros e He. unfold entries in He. rewrite map_to_list_empty in He. by apply elem_of_nil in He.
Qed.

(** The empty device [clean_meta_area] leaves, with the head page written. *)
Definition formatted h d : device := mkDevice (Some h) ∅ ∅ (dev_data d) [] [].

Lemma start_new_spec d id cap meta scc :
  dev_faults d = [] -> dev_save_faults d = [] ->
  let n := new_obj_count cap meta in let h0 := initial_head id cap meta in
  0 <= n -> 2 * (n + 1) < 2 ^ 31 - 1 ->
  exists fq tq p s1,
    start_new true id cap meta (blank_store scc d)
    = Done (0, set_log_phase (redolog_phase h0 + 1) (opp_pos h0)
                 (save_meta_data (current_metadata h0) s1).2)
    /\ queue_wf fq /\ q_depth fq = n + 1 /\ abs fq = seqZ 0 n
    /\ queue_wf tq /\ q_depth tq = n + 1 /\ abs tq = []
    /\ pool_inv p [] /\ MemPool.obj_count p = 2 * (n + 1)
    /\ s1 = mkStore h0 0 ∅ fq tq p (mkLog 0 (redolog_size h0) 0 0) COMPACT_IDLE 0 scc (formatted h0 d) [].
Proof.
  intros Hdf Hds n h0 Hn Hsmall.
  destruct (init_pair 0 n) as (q0 & Hq0 & Hwf0 & Ha0 & Hd0); [lia|].
  destruct (enqueue_ids_spec (Z.to_nat n) 0 q0 Hwf0) as (q1 & Hq1 & Hwf1 & Hd1 & Ha1).
  { rewrite Ha0. simpl. lia. }
  rewrite Ha0 in Ha1. simpl in Ha1. rewrite Z2Nat.id in Ha1 by lia.
  destruct (pool_init_inv (F := ring_fifo) (q_depth q1 * 2) empty_queue) as (p & Hp & Hpi & Hpc); [lia|].
  set (s2 := mkStore h0 0 ∅ q1 q0 p (mkLog 0 (redolog_size h0) 0 0) COMPACT_IDLE 0 scc (formatted h0 d) []).
  exists q1, q0, p, s2. splits; [|done|lia|done|done|lia|done|done|lia|reflexivity].
  set (sc := with_dev (mkDevice None ∅ ∅ (dev_data d) [] []) (blank_store scc d)).
  set (s0 := with_dev (formatted h0 d) (with_head h0 sc)).
  assert (Hc : clean_meta_area (blank_store scc d) = (0, sc)).
  { unfold clean_meta_area, next_fault. change (dev (blank_store scc d)) with d. rewrite Hdf.
    subst sc. change (dev (blank_store scc d)) with d. by rewrite Hdf, Hds. }
  assert (Hi : initialize_store_head id cap meta sc = (0, s0)) by done.
  unfold start_new. change (negb true) with false. cbn iota.
  rewrite Hc. change (negb (0 =? 0)) with false. cbn iota.
  rewrite Hi. change (negb (0 =? 0)) with false. cbn iota.
  change (Z.shiftr (tray_capacity (head s0) - meta_size (head s0)) (objsize_order (head s0))) with n.
  rewrite (i32_small n) by lia. rewrite Hq0, Hq1. cbn [obind].
  change (free_obj_queue (with_trim q0 (with_free q1 s0))) with q1.
  rewrite i32_small by lia. rewrite Hp. cbn [obind].
  change (redolog_init _) with s2. rewrite (save_meta_data_ok _ s2) by done. rewrite get_cur_pos. cbn [obind]. done.
Qed.

(** The store of a disk that is formatted for the first time. *)
Lemma new_disk_spec d id cap meta scc :
  dev_head d = None -> dev_faults d = [] -> dev_save_faults d = [] ->
  0 <= new_obj_count cap meta -> 2 * (new_obj_count cap meta + 1) < 2 ^ 31 - 1 ->
  exists w, store_init true id cap meta (blank_store scc d) = Done (0, w) /\ proto w
    /\ same_geom (initial_head id cap meta) (head (w_main w))
    /\ exists fq tq, view_of (w_main w) = mkView ∅ fq tq /\ abs fq = seqZ 0 (new_obj_count cap meta)
       /\ abs tq = [] /\ q_depth fq = new_obj_count cap meta + 1.
Proof.
  intros Hdh Hdf Hds Hn Hsmall.
  assert (Hread : read_store_head (blank_store scc d) = (- EUCLEAN, blank_store scc d)).
  { unfold read_store_head, next_fault. simpl dev. rewrite Hdf. simpl dev. by rewrite Hdh. }
  unfold store_init. rewrite Hread. change (negb ((- EUCLEAN =? 0) || (- EUCLEAN =? - EUCLEAN))) with false.
  cbn iota. unfold start_metadata_service. change (negb (- EUCLEAN =? 0)) with true. cbn iota.
  destruct (start_new_spec d id cap meta scc Hdf Hds Hn Hsmall)
    as (fq & tq & p & s1 & -> & Hf & Hfd & Hfa & Ht & Htd & Hta & Hp & Hpc & Es1).
  set (n := new_obj_count cap meta) in *. set (h0 := initial_head id cap meta) in *.
  rewrite (save_meta_data_ok _ s1) by by subst s1. cbn [obind snd].
  change (negb (0 =? 0)) with false. cbn iota. unfold compact_tool_init.
  change (free_obj_queue (set_log_phase _ _ _)) with (free_obj_queue s1).
  assert (Eq1 : free_obj_queue s1 = fq) by by subst s1. rewrite Eq1. rewrite i32_small by lia.
  destruct (pool_init_inv (F := ring_fifo) (q_depth fq * 2) empty_queue) as (pt & -> & Hpi & Hptc); [lia|].
  cbn [obind w_main w_tool]. subst s1. eexists. splits; [done| |by eexists _, _, _|by exists fq, tq].
  assert (Hvo : view_ok h0 (mkView ∅ fq tq)) by (by apply (initial_view_ok _ _ _ n)).
  assert (Hpo : pool_ok ∅ p) by (split; [done|lia]).
  exists (mkView ∅ fq tq), (mkView ∅ fq tq), [], []. split.
  - split; simpl; [done|by apply view_ok_update|done|lia].
  - eapply (disk_fresh _ _ _ _); simpl; try done.
    + apply zones_ok_update, initial_zones_ok.
    + by apply view_ok_update.
    + lia.
  - left. simpl. splits; done.
  - split; [split; [done|simpl; lia]|]. split; [simpl; lia|by left].
Qed.
End New.
