(* ===== verification/History.v ===== *)
(** * Histories of a store

    The store as it runs: a device is formatted, the handlers of the event
    thread and the compaction thread run one after the other, and at any
    point the process may die and be started again on the same device.  The
    theorems of this file hold for every state such a history reaches. *)

From Stdlib Require Import ZArith Lia.
From stdpp Require Import base tactics list numbers sets gmap sorting.
From S2P Require Import Prelude FixedQueue MemPool Bitmap Ids Lmt Store RedoLog StoreOps Views OpSteps Boot.
From S2P Require Import BootSpec Handlers Crash.

(** ** Handlers *)
Inductive handler : Type :=
| HIo (io : IoSubTask)
| HTrim
| HDeleteSnapshot (shard_id snap prev_snap next_snap : Z)
| HDeleteReplica (rep : Z)
| HCowEnd (k0 : lmt_key) (src dst : Z)
| HSccEnd (k0 : lmt_key) (src dst rc : Z)
| HSaveMd
| HCompact.

(** [MAX_CNT] of [trim_proc] *)
Definition MAX_CNT : nat := 10.

Definition on_main (f : store -> outcome store) (w : world) : outcome world :=
  let* s := f (w_main w) in Done (mkWorld s (w_tool w)).

Definition run_handler (h : handler) (w : world) : outcome world :=
  match h with
  | HIo io => on_main (fun s => let* (_, s) := process_io io s in Done s) w
  | HTrim => on_main (trim_round MAX_CNT) w
  | HDeleteSnapshot id snap prev next => on_main (delete_snapshot id snap prev next) w
  | HDeleteReplica rep => on_main (fun s => let* (_, s) := delete_replica rep s in Done s) w
  | HCowEnd k0 src dst => on_main (do_cow_entry k0 k0 src dst) w
  | HSccEnd k0 src dst rc => on_main (end_cow_scc k0 k0 src dst rc) w
  | HSaveMd => on_main (fun s => let* (_, s) := process_savemd s in Done s) w
  | HCompact => let* (_, w) := compact_thread w in Done w
  end.

(** The blocks of a shard. *)
Definition shard_rounds (s : store) : nat :=
  let obj_lba_cnt := objsize (head s) / LBA_LENGTH in
  Z.to_nat ((SHARD_LBA_CNT + obj_lba_cnt - 1) / obj_lba_cnt).

(** What a handler is called with. *)
Definition enabled (h : handler) (w : world) : Prop :=
  let s := w_main w in
  match h with
  | HIo io =>
      room_n 1 s /\ (cmd_opcode io ∈ [S5_OP_READ; S5_OP_RECOVERY_READ; S5_OP_WRITE; S5_OP_REPLICATE_WRITE])
  | HTrim => room_n MAX_CNT s
  | HDeleteSnapshot id snap prev next =>
      room_n (shard_rounds s) s /\ snap < next /\ next < UINT32_MAX
      /\ (forall lba c, obj_lmt s !! mkKey (VOLUME_ID id) lba = Some c -> Exists (fun e => snap_seq e <= snap) c)
  | HDeleteReplica _ => room_n (length (entries (obj_lmt s))) s
  | HCowEnd k0 src dst | HSccEnd k0 src dst _ =>
      room_n 1 s /\ exists c es ed, cow_pair k0 src dst s c es ed
  | HSaveMd => to_run_compact s = COMPACT_IDLE
  | HCompact => True
  end.

(** ** Reachable states *)
Section Reach.
Context (id cap meta : Z) (scc : bool).

Inductive reachable : world -> Prop :=
| reach_new d w :
    dev_head d = None -> dev_faults d = [] -> dev_save_faults d = [] ->
    store_init true id cap meta (blank_store scc d) = Done (0, w) -> reachable w
| reach_handler h w w' :
    reachable w -> enabled h w -> run_handler h w = Done w' -> reachable w'
| reach_restart clean d w w' :
    reachable w -> crash_disk (head (w_main w)) (dev (w_main w)) d ->
    store_init clean id cap meta (blank_store scc d) = Done (0, w') -> reachable w'.

Implicit Types (w : world) (s : store).

Lemma proto_data w f :
  proto w -> proto (mkWorld (with_data f (w_main w)) (w_tool w)).
Proof.
  intros (V0 & V1 & L1 & L2 & [Hok Hd Hc Ht]). exists V0, V1, L1, L2. split; simpl; [|by eapply disk_ok_crash|done|done].
  by eapply store_ok_same; [| |exact Hok].
Qed.

Lemma proto_steps n w s' : proto w -> op_steps n (w_main w) s' -> proto (mkWorld s' (w_tool w)).
Proof.
  intros Hp Hs. remember (w_main w) as s eqn:Es. revert w Hp Es.
  induction Hs as [n s|n s s1 s2 Hop _ IH]; intros w Hp ->.
  - by destruct w.
  - apply (IH (mkWorld s1 (w_tool w))); [by apply proto_op|done].
Qed.

Lemma proto_ready n w : proto w -> room_n n (w_main w) -> ready n (w_main w).
Proof. intros (V0 & V1 & L1 & L2 & [Hok Hd Hc Ht]) Hr. split; [done|apply Hd|done]. Qed.

(** What a handler keeps: the protocol, the geometry of the device, and the
    objects. *)
Record kept w w' : Prop := mkKept {
  kp_proto : proto w';
  kp_geom : same_geom (head (w_main w)) (head (w_main w'));
  kp_ids : ids (head (w_main w')) (view_of (w_main w')) ≡ₚ ids (head (w_main w)) (view_of (w_main w));
  kp_depth : q_depth (free_obj_queue (w_main w')) = q_depth (free_obj_queue (w_main w))
}.

Lemma same_geom_refl h : same_geom h h.
Proof. exists (current_metadata h), (current_redolog h), (redolog_phase h). by destruct h. Qed.

Lemma op_step_depth s s' : op_step s s' -> q_depth (free_obj_queue s') = q_depth (free_obj_queue s).
Proof.
  change (q_depth (free_obj_queue s')) with (q_depth (v_free (view_of s'))).
  change (q_depth (free_obj_queue s)) with (q_depth (v_free (view_of s))).
  destruct 1 as [? ? _ Ev _|? ? ? _ _ Hrv _ _]; [by rewrite Ev|by eapply redo_view_depth].
Qed.

Lemma op_steps_depth n s s' : op_steps n s s' -> q_depth (free_obj_queue s') = q_depth (free_obj_queue s).
Proof.
  induction 1 as [|? ? ? ? Hop _ IH]; [done|]. rewrite IH. by apply op_step_depth.
Qed.

Lemma kept_steps n w s' : proto w -> op_steps n (w_main w) s' -> kept w (mkWorld s' (w_tool w)).
Proof.
  intros Hp Hs. split; simpl.
  - by eapply proto_steps.
  - rewrite (op_steps_head _ _ _ Hs). apply same_geom_refl.
  - by eapply op_steps_ids.
  - by eapply op_steps_depth.
Qed.

Lemma same_view_kept w w' :
  proto w' -> same_geom (head (w_main w)) (head (w_main w')) -> view_of (w_main w') = view_of (w_main w) ->
  kept w w'.
Proof.
  intros Hp Hg Hv. split; [done|done| |].
  - rewrite Hv. destruct Hg as (md & rl & ph & ->). done.
  - change (q_depth (v_free (view_of (w_main w'))) = q_depth (v_free (view_of (w_main w)))). by rewrite Hv.
Qed.

Lemma on_main_kept n f w :
  proto w -> (exists s', f (w_main w) = Done s' /\ op_steps n (w_main w) s') ->
  exists w', on_main f w = Done w' /\ kept w w'.
Proof.
  intros Hp (s' & E & Hs). exists (mkWorld s' (w_tool w)). unfold on_main. rewrite E.
  split; [done|]. by eapply kept_steps.
Qed.

Lemma process_io_steps io s :
  ready 1 s -> cmd_opcode io ∈ [S5_OP_READ; S5_OP_RECOVERY_READ; S5_OP_WRITE; S5_OP_REPLICATE_WRITE] ->
  exists s', (let* (_, s) := process_io io s in Done s) = Done s' /\ op_steps 1 s s'.
Proof.
  intros Hrd Hop.
  assert (Hw : exists s', (let* (_, s) := (let* (_, s) := do_write io s in Done (0, s)) in Done s) = Done s'
                     /\ op_steps 1 s s').
  { destruct (do_write_op io s) as (rc & s' & -> & Hs & _); [apply Hrd|apply Hrd|by eapply ready_room|].
    exists s'. split; [done|by apply op_steps_one]. }
  assert (Hr : exists s', (let* (_, s) := (let* (_, s) := do_read io s in Done (0, s)) in Done s) = Done s'
                     /\ op_steps 1 s s').
  { unfold do_read. destruct (match obj_lmt s !! io_key s io with Some c => _ | None => None end) as [e|];
      [destruct (decide _)|]; (eexists; split; [done|]); apply op_steps_one, op_act, op_refl, Hrd. }
  unfold process_io.
  repeat (apply elem_of_cons in Hop as [->|Hop]; [done|]). by apply elem_of_nil in Hop.
Qed.

Lemma compact_idle w : to_run_compact (w_main w) <> COMPACT_TODO -> compact_thread w = Done (false, w).
Proof. intros H. unfold compact_thread. by rewrite (proj2 (Z.eqb_neq _ _) H). Qed.

Lemma delete_snapshot_steps shard snap prev next s :
  ready (shard_rounds s) s -> objsize (head s) = DEFAULT_OBJ_SIZE -> snap < next -> next < UINT32_MAX ->
  (forall lba c, obj_lmt s !! mkKey (VOLUME_ID shard) lba = Some c -> Exists (fun e => snap_seq e <= snap) c) ->
  exists s', delete_snapshot shard snap prev next s = Done s' /\ op_steps (shard_rounds s) s s'.
Proof.
  intros Hrd Ho Hsn Hn Hex. apply delete_snapshot_loop_steps; [done|done|done| |].
  - by rewrite Ho.
  - intros lba c _. apply Hex.
Qed.

(** The device can hold its objects. *)
Definition fits : Prop := 0 <= new_obj_count cap meta /\ 2 * (new_obj_count cap meta + 1) < 2 ^ 31 - 1.

Record reach_inv w : Prop := mkReachInv {
  ri_proto : proto w;
  ri_geom : same_geom (initial_head id cap meta) (head (w_main w));
  ri_depth : q_depth (free_obj_queue (w_main w)) = new_obj_count cap meta + 1
}.

(** Every handler called with its condition returns, and keeps the invariant. *)
Lemma handler_kept h w :
  reach_inv w -> enabled h w -> exists w', run_handler h w = Done w' /\ kept w w'.
Proof.
  intros [Hp (md & rl & ph & Hg) _]. destruct h as [io| |shard snap prev next|rep|k0 src dst|k0 src dst rc| |];
    cbn [enabled run_handler].
  - intros [Hr Hop]. apply (on_main_kept 1); [done|]. apply process_io_steps; [by apply proto_ready|done].
  - intros Hr. apply (on_main_kept MAX_CNT); [done|]. by apply trim_round_steps, proto_ready.
  - intros (Hr & Hsn & Hn & Hex). apply (on_main_kept (shard_rounds (w_main w))); [done|].
    apply delete_snapshot_steps; [by apply proto_ready|by rewrite Hg|done|done|done].
  - intros Hr. apply (on_main_kept (length (entries (obj_lmt (w_main w))))); [done|]. unfold delete_replica.
    edestruct delete_replica_loop_steps as (s' & -> & Hs); [by apply proto_ready|]. by exists s'.
  - intros (Hr & c & es & ed & Hpair).
    destruct (do_cow_entry_step k0 src dst (w_main w) c es ed) as (f & s' & E & Hs%op_steps_one & _);
      [by apply proto_ready|done|].
    exists (mkWorld s' (w_tool w)). unfold on_main. rewrite E. split; [done|].
    destruct (kept_steps _ (mkWorld (with_data f (w_main w)) (w_tool w)) s' (proto_data w f Hp) Hs). by split.
  - intros (Hr & c & es & ed & Hpair). apply (on_main_kept 1); [done|].
    destruct (end_cow_scc_step k0 src dst rc (w_main w) c es ed) as (s' & E & Hs); [by apply (proto_ready 1)|done|].
    exists s'. split; [done|by apply op_steps_one].
  - intros Hi. destruct (proto_savemd w Hp Hi) as (s' & E & Hp' & Hv & Hh). exists (mkWorld s' (w_tool w)).
    unfold on_main. rewrite E. split; [done|]. apply same_view_kept; [done|simpl; rewrite Hh; apply same_geom_refl|done].
  - intros _. destruct (decide (to_run_compact (w_main w) = COMPACT_TODO)) as [E|E].
    + destruct (proto_compact w Hp E) as (w' & -> & Hp' & Hv & Hg' & _). exists w'. split; [done|by apply same_view_kept].
    + rewrite (compact_idle w E). exists w. split; [done|]. apply same_view_kept; [done|apply same_geom_refl|done].
Qed.

Lemma kept_inv w w' : reach_inv w -> kept w w' -> reach_inv w'.
Proof.
  intros [H1 H2 H3] [K1 K2 K3 K4]. split; [done|by eapply same_geom_trans|congruence].
Qed.

(** A restart on the disk of a crash. *)
Lemma restart_inv w d clean :
  reach_inv w -> crash_disk (head (w_main w)) (dev (w_main w)) d ->
  exists w', store_init clean id cap meta (blank_store scc d) = Done (0, w') /\ reach_inv w'
    /\ view_of (w_main w') = fix_view (view_of (w_main w)).
Proof.
  intros [(V0 & V1 & L1 & L2 & [Hok Hd Hc Ht]) H2 H3] Hcr.
  destruct (restart_spec d _ V0 V1 _ L1 L2 clean id cap meta scc (disk_ok_crash _ _ _ _ _ _ _ _ Hd Hcr))
    as (w' & E & Hp & Hv & Hg).
  exists w'. splits; [done| |done]. split; [done|by eapply same_geom_trans|].
  change (q_depth (v_free (view_of (w_main w'))) = new_obj_count cap meta + 1). by rewrite Hv.
Qed.

Lemma reachable_inv w : fits -> reachable w -> reach_inv w.
Proof.
  intros [Hn Hsmall] Hr. induction Hr as [d w Hd Hf Hs Hi|h w w' _ IH He Hrun|clean d w w' _ IH Hcr Hi].
  - destruct (new_disk_spec d id cap meta scc Hd Hf Hs Hn Hsmall) as (w0 & E & Hp & Hg & fq & tq & Hv & _ & _ & Hq).
    rewrite Hi in E. injection E as <-. split; [done|done|].
    change (q_depth (v_free (view_of (w_main w))) = new_obj_count cap meta + 1). by rewrite Hv.
  - destruct (handler_kept h w IH He) as (w0 & E & Hk). rewrite Hrun in E. injection E as <-. by eapply kept_inv.
  - destruct (restart_inv w d clean IH Hcr) as (w0 & E & Hk & _). rewrite Hi in E. by injection E as <-.
Qed.
End Reach.

(** ** A small history

    A device of four objects; one block is written, a newer snapshot of it
    is written, and the copy ends. *)
Module Demo.
Definition cap : Z := META_RESERVE_SIZE + 4 * DEFAULT_OBJ_SIZE.
Definition disk : device := mkDevice None ∅ ∅ (fun x => x) [] [].
Definition rep : Z := 0x1000000.
Definition key : lmt_key := mkKey rep 0.
Definition request (op seq off : Z) : IoSubTask := mkIo (1000 + seq) rep op seq rep off LBA_LENGTH (fun _ => seq).
Definition write (seq : Z) : handler := HIo (request S5_OP_WRITE seq 0).

Definition dead : world := mkWorld (blank_store false disk) (blank_store false disk).
Definition result (o : outcome world) : world := match o with Done w => w | _ => dead end.
Definition boot (d : device) : world :=
  result (let* (_, w) := store_init true 7 cap META_RESERVE_SIZE (blank_store false d) in Done w).

Abbreviation reach := (reachable 7 cap META_RESERVE_SIZE false).

Lemma demo_fits : fits cap META_RESERVE_SIZE.
Proof. split; vm_compute; congruence. Qed.

Lemma reach_run h w : reach w -> enabled h w -> reach (result (run_handler h w)).
Proof.
  intros Hr He. destruct (handler_kept 7 cap META_RESERVE_SIZE h w) as (w' & E & _); [|done|].
  - by apply (reachable_inv _ _ _ false); [apply demo_fits|].
  - rewrite E. by apply (reach_handler _ _ _ _ h w).
Qed.

Lemma reach_boot w d :
  reach w -> crash_disk (head (w_main w)) (dev (w_main w)) d -> reach (boot d).
Proof.
  intros Hr Hcr. destruct (restart_inv 7 cap META_RESERVE_SIZE false w d true) as (w' & E & _); [|done|].
  - by apply (reachable_inv _ _ _ false); [apply demo_fits|].
  - unfold boot. rewrite E. by apply (reach_restart _ _ _ _ true d w).
Qed.

Lemma room_dec n s :
  (LBA_LENGTH * Z.of_nat n <? log_size (redolog s)) = true ->
  (current_offset (redolog s) + LBA_LENGTH * Z.of_nat n <? start_offset (redolog s) + log_size (redolog s)) = true ->
  room_n n s.
Proof. intros H1 H2. apply Z.ltb_lt in H1, H2. split; [done|by left]. Qed.

(** The states of the history. *)
Definition w0 : world := boot disk.
Definition w1 : world := result (run_handler (write 1) w0).
Definition w2 : world := result (run_handler (write 3) w1).
Definition w3 : world := result (run_handler (HCowEnd key 0 1) w2).

Lemma reach0 : reach w0.
Proof. apply (reach_new _ _ _ _ disk); [reflexivity|reflexivity|reflexivity|]. vm_compute. reflexivity. Qed.

Lemma enabled1 : enabled (write 1) w0.
Proof. split; [apply room_dec; vm_compute; reflexivity|]. simpl. set_solver. Qed.

Lemma enabled2 : enabled (write 3) w1.
Proof. split; [apply room_dec; vm_compute; reflexivity|]. simpl. set_solver. Qed.

Lemma reach1 : reach w1.
Proof. apply reach_run; [apply reach0|apply enabled1]. Qed.

Lemma reach2 : reach w2.
Proof. apply reach_run; [apply reach1|apply enabled2]. Qed.

Definition blank_entry : lmt_entry := mkEntry 0 0 0 NORMAL [] None None.
Definition chain2 : chain := default [] (obj_lmt (w_main w2) !! key).
Definition src2 : lmt_entry := default blank_entry (chain2 !! 1%nat).
Definition dst2 : lmt_entry := default blank_entry (chain2 !! 0%nat).

Lemma waiting2 : waiting_io dst2 = [request S5_OP_WRITE 3 0].
Proof. vm_compute. reflexivity. Qed.

Lemma pair2 : cow_pair key 0 1 (w_main w2) chain2 src2 dst2.
Proof.
  split; [vm_compute; reflexivity| | |vm_compute; reflexivity|vm_compute; reflexivity|].
  - apply (list_elem_of_lookup_2 _ 1). vm_compute. reflexivity.
  - apply (list_elem_of_lookup_2 _ 0). vm_compute. reflexivity.
  - rewrite waiting2. constructor; [|constructor].
    split; [vm_compute; reflexivity|split; vm_compute; reflexivity].
Qed.

Lemma enabled3 : enabled (HCowEnd key 0 1) w2.
Proof. split; [apply room_dec; vm_compute; reflexivity|]. exists chain2, src2, dst2. apply pair2. Qed.

Lemma reach3 : reach w3.
Proof. apply reach_run; [apply reach2|apply enabled3]. Qed.
End Demo.
