(* ===== verification/Recovery.v ===== *)
(** * Recovery of a replica

    Model of [recovery_replica], [recovery_object_series],
    [recovery_single_object_entry], [recovery_write] and
    [finish_recovery_object] of src/pfs/src/pf_flash_store.cpp, with the
    recovery task and its completion.

    The recovery runs on a thread of its own.  What it does with the map, the
    queues and the log runs on the event thread, through [sync_invoke]: each
    such call is one definition here.  Between two calls the event thread
    serves other events, which are the argument [other].  The answers of the
    other store are the arguments [query] (the snapshots a block has there,
    or none when the request fails) and [remote] (the data of a read, or none
    when it fails); [sched] says which reads end while the recovery waits. *)

From Stdlib Require Import ZArith Lia.
From stdpp Require Import base tactics list numbers sets gmap.
From S2P Require Import Prelude FixedQueue MemPool Bitmap Ids Lmt Store RedoLog StoreOps Handlers.

Definition RECOVERY_IO_SIZE : Z := Z.shiftl 128 10.
Definition iodepth : nat := 4.

(** ** Transfers *)
Definition sync_write (buf : Z -> Z) (len off : Z) (s : store) : Z * store :=
  let (f, s) := next_fault s in
  match f with
  | Some errno => (- errno, s)
  | None => (0, with_dev (set_dev_data (memcpy_at (dev_data (dev s)) off len buf) (dev s)) s)
  end.

Definition sync_read (off : Z) (s : store) : Z * (Z -> Z) * store :=
  let (f, s) := next_fault s in
  match f with
  | Some errno => (- errno, fun _ => 0, s)
  | None => (0, fun x => dev_data (dev s) (off + x), s)
  end.

Definition recovery_write (entry : lmt_entry) (seq : Z) (buf : Z -> Z) (length off : Z) (s : store)
    : outcome (Z * store) :=
  if negb (snap_seq entry =? seq) then Fatal
  else Done (sync_write buf length (offset entry + offset_in_block off (in_obj_offset_mask s)) s).

(** ** The tasks of the recovery *)
Record RecoverySubTask : Type := mkTask {
  recovery_bd : option (Z -> Z);
  t_offset : Z;
  t_snap_seq : Z;
  complete_ok : bool
}.

Definition new_task : RecoverySubTask := mkTask None 0 0 false.
(** [t->recovery_bd = NULL; t->snap_seq = 0] *)
Definition idle_task (t : RecoverySubTask) : RecoverySubTask := mkTask None (t_offset t) 0 (complete_ok t).

(** The tasks in the queue of free tasks, in order, those being read, the
    number of free data buffers, and [failed].  The semaphore counts the free
    tasks. *)
Record pipe : Type := mkPipe {
  p_free : list RecoverySubTask;
  p_flying : list RecoverySubTask;
  p_bds : Z;
  p_failed : bool
}.

Section Reads.
Context (remote : Z -> Z -> option (Z -> Z)).

(** The end of a read: [recovery_complete] returns the task to its queue. *)
Definition complete_task (t : RecoverySubTask) : RecoverySubTask :=
  match remote (t_snap_seq t) (t_offset t) with
  | Some d => mkTask (Some d) (t_offset t) (t_snap_seq t) true
  | None => mkTask (recovery_bd t) (t_offset t) (t_snap_seq t) false
  end.

Definition recovery_complete (p : pipe) (i : nat) : pipe :=
  match p_flying p !! i with
  | None => p
  | Some t => mkPipe (p_free p ++ [complete_task t]) (delete i (p_flying p)) (p_bds p) (p_failed p)
  end.

(** The reads that end before the next [sem_wait] returns: at least one when
    no task is free. *)
Definition sem_wait (l : list nat) (p : pipe) : pipe :=
  let p := foldl recovery_complete p l in
  match p_free p with
  | [] => recovery_complete p 0
  | _ => p
  end.

(** What is done with a task taken from the queue that holds data: whether
    the read or the write failed. *)
Definition absorb (key : lmt_key) (target : Z) (t : RecoverySubTask) (s : store) : outcome (bool * store) :=
  match recovery_bd t with
  | None => Done (false, s)
  | Some buf =>
      if complete_ok t then
        let* e := find_entry key target s in
        let* (rc, s) := recovery_write e (t_snap_seq t) buf RECOVERY_IO_SIZE (t_offset t) s in
        Done (negb (rc =? 0), s)
      else Done (true, s)
  end.

Definition bd_back (t : RecoverySubTask) (bds : Z) : Z :=
  match recovery_bd t with Some _ => bds + 1 | None => bds end.

(** The loop that sends the reads, [n] of them from number [j] on; taking a
    buffer from an empty pool throws. *)
Fixpoint read_loop (n : nat) (j : Z) (sched : Z -> list nat) (key : lmt_key) (target seq off : Z) (p : pipe) (s : store)
    : outcome (pipe * store) :=
  match n with
  | O => Done (p, s)
  | S n =>
      let p := sem_wait (sched j) p in
      match p_free p with
      | [] => Fatal
      | t :: free =>
          let* (bad, s) := absorb key target t s in
          let bds := bd_back t (p_bds p) in
          if bad : bool then Done (mkPipe (free ++ [idle_task t]) (p_flying p) bds true, s)
          else if bds =? 0 then Fatal
          else
            let t' := mkTask (Some (fun _ => 0)) (off + j * RECOVERY_IO_SIZE) seq (complete_ok t) in
            read_loop n (j + 1) sched key target seq off (mkPipe free (p_flying p ++ [t']) (bds - 1) false) s
      end
  end.

(** The loop after all reads ended. *)
Fixpoint drain (n : nat) (key : lmt_key) (target : Z) (p : pipe) (s : store) : outcome (pipe * store) :=
  match n with
  | O => Done (p, s)
  | S n =>
      match p_free p with
      | [] => Fatal
      | t :: free =>
          let* (bad, s) := absorb key target t s in
          drain n key target
            (mkPipe (free ++ [idle_task t]) (p_flying p) (bd_back t (p_bds p)) (p_failed p || bad)) s
      end
  end.

(** The waits before it: the rest of the reads end, in an order of which
    [l] is the first part. *)
Definition wait_all (l : list nat) (p : pipe) : pipe :=
  let p := foldl recovery_complete p l in
  foldl recovery_complete p (replicate (length (p_flying p)) 0%nat).

Definition read_object (n : nat) (sched : Z -> list nat) (last : list nat) (key : lmt_key) (target seq off : Z)
    (p : pipe) (s : store) : outcome (pipe * store) :=
  let* (p, s) := read_loop n 0 sched key target seq off p s in
  drain iodepth key target (wait_all last p) s.
End Reads.

(** ** One object *)

(** The placeholder of the recovery and the chain behind it; it is the head
    of the chain of the block from the begin of the recovery to its end. *)
Definition placeholder (key : lmt_key) (a : Z) (s : store) : outcome (lmt_entry * chain) :=
  match obj_lmt s !! key with
  | Some (ph :: rest) => if e_addr ph =? a then Done (ph, rest) else Undef
  | _ => Undef
  end.

(** Puts the placeholder in front of the chain of the block. *)
Definition recovery_begin (key : lmt_key) (ph : lmt_entry) (s : store) : outcome (Z * store) :=
  match obj_lmt s !! key with
  | None => Done (0, with_lmt (<[key := [ph]]> (obj_lmt s)) s)
  | Some [] => Undef
  | Some (e :: c) =>
      if decide (status e = RECOVERYING) then Fatal
      else if decide (status e = COPYING) then Done (- EBUSY, s)
      else Done (0, with_lmt (<[key := ph :: e :: c]> (obj_lmt s)) s)
  end.

(** The conditions passed to [insert_lmt_entry_list]. *)
Definition after_recov (seq : Z) (e : lmt_entry) : bool := if snap_seq e =? 0 then true else seq <? snap_seq e.
Definition same_recov (seq : Z) (e : lmt_entry) : bool := if snap_seq e =? 0 then false else snap_seq e =? seq.

(** An object for a snapshot that is not there, linked behind the
    placeholder.  An entry that would go in front of the placeholder
    replaces the pointer of the context to it; this is not followed. *)
Definition recovery_alloc (key : lmt_key) (a seq : Z) (s : store) : outcome (Z * Z * store) :=
  if is_empty (free_obj_queue s) then Done (- ENOSPC, 0, s)
  else
    let* (e, s) := alloc_object seq RECOVERYING s in
    let* (rc, s) := log_allocation key e (q_head (free_obj_queue s)) s in
    if negb (rc =? 0) then
      let* p := pool_free (e_addr e) (lmt_entry_pool s) in
      let* (_, q) := enqueue (i32 (offset_to_obj_id (head s) (offset e))) (free_obj_queue s) in
      Done (rc, 0, with_free q (with_pool p s))
    else
      let* (ph, rest) := placeholder key a s in
      let* (rc, c) := chain_insert e (after_recov seq) (same_recov seq) (ph :: rest) in
      if negb (rc =? 0) then Fatal
      else
        match c with
        | x :: _ => if e_addr x =? a then Done (0, e_addr e, with_lmt (<[key := c]> (obj_lmt s)) s) else Undef
        | [] => Undef
        end.

(** The status becomes [NORMAL], also when a read failed. *)
Definition recovery_end (key : lmt_key) (target : Z) (s : store) : outcome (Z * store) :=
  let* e := find_entry key target s in
  if decide (status e = NORMAL) then Done (0, s)
  else
    let s := update_entry key target (set_status NORMAL) s in
    log_status_change key (set_status NORMAL e) (status e) s.

(** [RecoveryContext]: the address of the placeholder and the idle tasks; the
    placeholder itself is in the map while an object is recovered. *)
Record RecoveryContext : Type := mkContext {
  recovery_head_entry : lmt_entry;
  task_queue : list RecoverySubTask;
  io_bds : Z
}.

Definition recovery_head (a n : Z) : lmt_entry :=
  mkEntry a 0 0 RECOVERYING [] (Some (new_bitmap n)) (Some (fun _ => 0)).

Definition with_tasks (p : pipe) (c : RecoveryContext) : RecoveryContext :=
  mkContext (recovery_head_entry c) (p_free p) (p_bds p).

Section Object.
Context (remote : Z -> Z -> option (Z -> Z)) (sched : Z -> Z -> list nat) (last : Z -> list nat).

Definition recovery_single_object_entry (ctx : RecoveryContext) (key : lmt_key) (seq off : Z) (s : store)
    : outcome (Z * RecoveryContext * store) :=
  let a := e_addr (recovery_head_entry ctx) in
  let* (ph, rest) := placeholder key a s in
  let* (r, s) :=
    match List.find (fun e => snap_seq e =? seq) rest with
    | Some e => Done (0, e_addr e, s)
    | None => recovery_alloc key a seq s
    end in
  let (rc, target) := r in
  if negb (rc =? 0) then Done (rc, ctx, s)
  else
    let* (p, s) := read_object remote (Z.to_nat (objsize (head s) / RECOVERY_IO_SIZE)) (sched seq) (last seq) key
                     target seq off (mkPipe (task_queue ctx) [] (io_bds ctx) false) s in
    let ctx := with_tasks p ctx in
    let* (rc, s) := recovery_end key target s in
    if negb (rc =? 0) then Done (rc, ctx, s)
    else Done (if p_failed p then - EIO else rc, ctx, s).
End Object.

(** ** The end of an object *)
Inductive finish_step : Type :=
| FinishDone
| FinishError (rc : Z)
| FinishCow (src dst : Z)
| FinishReady.

(** The first call: drops the placeholder when nothing was written, or finds
    or makes the object for the data written meanwhile. *)
Definition finish_prepare (key : lmt_key) (a : Z) (failed : bool) (s : store) : outcome (finish_step * store) :=
  let* (ph, rest) := placeholder key a s in
  if negb (bool_decide (status ph = RECOVERYING)) then Fatal
  else
    let* bmp := of_option (recovery_bmp ph) in
    let* e := bitmap_is_empty bmp in
    if failed || e then Done (FinishDone, with_lmt (put_chain key rest (obj_lmt s)) s)
    else
      if match rest with [] => true | d :: _ => snap_seq d <? snap_seq ph end then
        if is_empty (free_obj_queue s) then Done (FinishError (- ENOSPC), s)
        else
          let* (d, s) := alloc_object (snap_seq ph) COPYING s in
          let* (rc, s) := log_allocation key d (q_head (free_obj_queue s)) s in
          if negb (rc =? 0) then
            let* p := pool_free (e_addr d) (lmt_entry_pool s) in
            let* (_, q) := enqueue (i32 (offset_to_obj_id (head s) (offset d))) (free_obj_queue s) in
            Done (FinishError rc, with_free q (with_pool p s))
          else
            let s := with_lmt (<[key := ph :: d :: rest]> (obj_lmt s)) s in
            match rest with
            | [] => Done (FinishReady, s)
            | old :: _ => Done (FinishCow (offset old) (offset d), s)
            end
      else
        match rest with
        | d :: _ => if snap_seq ph <? snap_seq d then Fatal else Done (FinishReady, s)
        | [] => Undef
        end.

(** The sectors of the pending buffer, from number [i] on. *)
Fixpoint write_pending (n : nat) (i : Z) (bmp : PfBitmap) (buf : Z -> Z) (base : Z) (s : store) : outcome (Z * store) :=
  match n with
  | O => Done (0, s)
  | S n =>
      let* b := is_set i bmp in
      if b : bool then
        let (rc, s) := sync_write (fun x => buf (i * SECTOR_SIZE + x)) SECTOR_SIZE (base + i * SECTOR_SIZE) s in
        if negb (rc =? 0) then Done (rc, s) else write_pending n (i + 1) bmp buf base s
      else write_pending n (i + 1) bmp buf base s
  end.

(** The second call. *)
Definition finish_write (key : lmt_key) (a off : Z) (s : store) : outcome (Z * store) :=
  let* (ph, rest) := placeholder key a s in
  match rest with
  | [] => Undef
  | d :: r =>
      let base := offset d + offset_in_block off (in_obj_offset_mask s) in
      let* bmp := of_option (recovery_bmp ph) in
      let* buf := of_option (recovery_buf ph) in
      let* (rc, s) := write_pending (Z.to_nat (bit_count bmp)) 0 bmp buf base s in
      if negb (rc =? 0) then Done (rc, s)
      else
        let d' := set_status NORMAL d in
        let s := with_lmt (<[key := ph :: d' :: r]> (obj_lmt s)) s in
        let* (_, s) := log_status_change key d' (status d) s in
        Done (0, with_lmt (<[key := d' :: r]> (obj_lmt s)) s)
  end.

(** Other events run between the two calls.  The result carries the
    placeholder as the calls left it: the context keeps its bitmap and its
    buffer for the next object. *)
Definition finish_recovery_object (other : store -> outcome store) (key : lmt_key) (a off : Z) (failed : bool)
    (s : store) : outcome (Z * lmt_entry * store) :=
  let finish (s : store) :=
    let* s := other s in
    let* (ph, _) := placeholder key a s in
    let* (rc, s) := finish_write key a off s in
    Done (rc, ph, s) in
  let* (ph, _) := placeholder key a s in
  let* (r, s) := finish_prepare key a failed s in
  match r with
  | FinishDone => Done (0, ph, s)
  | FinishError rc => Done (rc, ph, s)
  | FinishReady => finish s
  | FinishCow src dst =>
      let '(rc, buf, s) := sync_read src s in
      if negb (rc =? 0) then Done (rc, ph, s)
      else
        let (rc, s) := sync_write buf (objsize (head s)) dst s in
        if negb (rc =? 0) then Done (rc, ph, s) else finish s
  end.

(** ** All snapshots of an object *)

(** Whether the snapshot lies between two neighbours of the ascending list,
    the first of which is preceded by [prev]. *)
Fixpoint absent_on (snap prev : Z) (asc : list Z) : bool :=
  match asc with
  | [] => false
  | p :: asc => if (prev <? snap) && (snap <? p) then true else absent_on snap p asc
  end.

(** Deletes the local snapshots the primary does not have; the list of the
    others. *)
Fixpoint delete_absent (key : lmt_key) (primary local : list Z) (s : store) : outcome (list Z * store) :=
  match local with
  | [] => Done ([], s)
  | snap :: local =>
      if absent_on snap (-1) (rev primary) then
        let* (_, s) := delete_obj_by_snap_seq key snap s in
        delete_absent key primary local s
      else
        let* (l, s) := delete_absent key primary local s in
        Done (snap :: l, s)
  end.

Definition snap_to_recovery (primary local : list Z) : list Z :=
  List.filter (fun x => (Z.of_nat (length local) <? 2) || negb (bool_decide (x ∈ drop 2 local))) primary.

(** Where other events run. *)
Inductive recovery_point : Type :=
| AtSleep (i : nat)
| AtQuery
| AtSnap (seq : Z)
| AtFinish
| AtFinishWrite.

Section Series.
Context (remote : Z -> Z -> option (Z -> Z)) (query : Z -> Z -> option (list Z)).
Context (sched : Z -> Z -> list nat) (last : Z -> list nat) (other : recovery_point -> store -> outcome store).

Fixpoint recover_snaps (l : list Z) (ctx : RecoveryContext) (key : lmt_key) (off : Z) (s : store)
    : outcome (Z * RecoveryContext * store) :=
  match l with
  | [] => Done (0, ctx, s)
  | seq :: l =>
      let* s := other (AtSnap seq) s in
      let* (r, s) := recovery_single_object_entry remote sched last ctx key seq off s in
      let (rc, ctx) := r in
      if negb (rc =? 0) then Done (rc, ctx, s) else recover_snaps l ctx key off s
  end.

(** The loop that waits for the end of a copy; [n] bounds the number of
    seconds waited. *)
Fixpoint begin_loop (n : nat) (key : lmt_key) (ph : lmt_entry) (s : store) : outcome store :=
  match n with
  | O => Undef
  | S n =>
      let* (rc, s) := recovery_begin key ph s in
      if rc =? 0 then Done s else let* s := other (AtSleep n) s in begin_loop n key ph s
  end.

(** The placeholder as it is at the start of each object. *)
Definition reset_head (e : lmt_entry) : lmt_entry :=
  mkEntry (e_addr e) (offset e) 0 RECOVERYING [] (bitmap_clear <$> recovery_bmp e) (recovery_buf e).

Definition recovery_object_series (wait : nat) (ctx : RecoveryContext) (key : lmt_key) (off : Z) (s : store)
    : outcome (Z * RecoveryContext * store) :=
  let a := e_addr (recovery_head_entry ctx) in
  let* s := begin_loop wait key (reset_head (recovery_head_entry ctx)) s in
  let* s := other AtQuery s in
  match query (vol_id key) off with
  | None => Done (-1, ctx, s)
  | Some primary =>
      let* (local, s) := delete_absent key primary (get_snap_list (vol_id key) off s) s in
      let* (r, s) := recover_snaps (rev (snap_to_recovery primary local)) ctx key off s in
      let (rc, ctx) := r in
      let* s := other AtFinish s in
      let* (r, s) := finish_recovery_object (other AtFinishWrite) key a off (negb (rc =? 0)) s in
      let (rc2, ph) := r in
      Done (if negb (rc =? 0) then rc else rc2, mkContext ph (task_queue ctx) (io_bds ctx), s)
  end.

(** ** The replica *)
Fixpoint recovery_loop (n : nat) (i : Z) (wait : nat) (ctx : RecoveryContext) (rep : Z) (s : store)
    : outcome (Z * RecoveryContext * store) :=
  match n with
  | O => Done (0, ctx, s)
  | S n =>
      let off := Z.shiftl (SHARD_INDEX rep) SHARD_SIZE_ORDER + objsize (head s) * i in
      let key := mkKey (VOLUME_ID rep) (vol_offset_to_block_slba off (objsize_order (head s))) in
      let* (r, s) := recovery_object_series wait ctx key off s in
      let (rc, ctx) := r in
      if negb (rc =? 0) then Done (rc, ctx, s) else recovery_loop n (i + 1) wait ctx rep s
  end.

(** [vol_size] is the size of the volume when it is open.  The destructor of
    the context returns the placeholder to the pool. *)
Definition recovery_replica (wait : nat) (rep : Z) (vol_size : option Z) (bds recov_object_size : Z) (s : store)
    : outcome (Z * store) :=
  match vol_size with
  | None => Done (- EINVAL, s)
  | Some size =>
      if negb (objsize (head s) =? recov_object_size) then Fatal
      else
        let shard_size := Z.min SHARD_SIZE (size - SHARD_INDEX rep * SHARD_SIZE) in
        let obj_cnt := Z.quot shard_size recov_object_size in
        let* (a, p) := pool_alloc (lmt_entry_pool s) in
        match a with
        | None => Done (- ENOMEM, s)
        | Some a =>
            let ctx := mkContext (recovery_head a (recov_object_size / SECTOR_SIZE)) (replicate iodepth new_task) bds in
            let* (r, s) := recovery_loop (Z.to_nat obj_cnt) 0 wait ctx rep (with_pool p s) in
            let (rc, ctx) := r in
            let* p := pool_free a (lmt_entry_pool s) in
            Done (rc, with_pool p s)
        end
  end.
End Series.
