(* ===== verification/RecoveryProps.v ===== *)
(** * Properties of the recovery

    The pipeline of reads of an object delivers every chunk whatever the
    order in which the reads end; the end of an object puts the data written
    meanwhile on top; the recovery of an object leaves the replica with the
    snapshots of the primary. *)

From Stdlib Require Import ZArith Lia Sorted.
From stdpp Require Import base tactics list numbers sets gmap.
From S2P Require Import Prelude FixedQueue MemPool Bitmap Ids Lmt Store RedoLog StoreOps Views OpSteps Boot BootSpec Handlers Crash History Recovery.

(** ** The pipeline *)
Section Pipeline.
Context (remote : Z -> Z -> option (Z -> Z)) (key : lmt_key) (a seq off n B : Z) (e : lmt_entry) (s0 : store).
Context (He : find_entry key a s0 = Done e) (Hseq : snap_seq e = seq) (Hq : dev_faults (dev s0) = []).
Context (Hin : forall j, 0 <= j < n -> offset_in_block (off + j * RECOVERY_IO_SIZE) (in_obj_offset_mask s0) = j * RECOVERY_IO_SIZE).
Context (HB : Z.of_nat iodepth <= B).
Implicit Types (p : pipe) (d : Z -> Z) (t : RecoverySubTask).

Definition chunk_of (j : Z) : option (Z -> Z) := remote seq (off + j * RECOVERY_IO_SIZE).

(** Chunk [j] is on the device. *)
Definition covered d (j : Z) : Prop :=
  exists c, chunk_of j = Some c /\ forall x, 0 <= x < RECOVERY_IO_SIZE -> d (offset e + j * RECOVERY_IO_SIZE + x) = c x.

(** A task that reads chunk [j], and one that has read it. *)
Definition for_chunk (j : Z) t : Prop := t_offset t = off + j * RECOVERY_IO_SIZE /\ t_snap_seq t = seq /\ recovery_bd t <> None.
Definition has_read (j : Z) t : Prop :=
  for_chunk j t /\ match chunk_of j with
                   | Some c => recovery_bd t = Some c /\ complete_ok t = true
                   | None => complete_ok t = false
                   end.

Definition busy t : bool := match recovery_bd t with Some _ => true | None => false end.
Definition busy_count (l : list RecoverySubTask) : Z := Z.of_nat (length (List.filter busy l)).

Record pipe_ok (J : Z) p d : Prop := mkPipeOk {
  po_free : Forall (fun t => recovery_bd t = None \/ exists j, 0 <= j < J /\ has_read j t) (p_free p);
  po_fly : Forall (fun t => exists j, 0 <= j < J /\ for_chunk j t) (p_flying p);
  po_len : (length (p_free p) + length (p_flying p))%nat = iodepth;
  po_bds : p_bds p + busy_count (p_free p) + Z.of_nat (length (p_flying p)) = B;
  po_out : forall x, x < offset e \/ offset e + n * RECOVERY_IO_SIZE <= x -> d x = dev_data (dev s0) x;
  po_bad : p_failed p = true -> exists j, 0 <= j < n /\ chunk_of j = None;
  po_all : p_failed p = false ->
    forall j, 0 <= j < J -> covered d j \/ exists t, t ∈ p_free p ++ p_flying p /\ for_chunk j t
}.

Lemma busy_app l1 l2 : busy_count (l1 ++ l2) = busy_count l1 + busy_count l2.
Proof. unfold busy_count. rewrite List.filter_app, length_app. lia. Qed.

Lemma busy_le l : 0 <= busy_count l <= Z.of_nat (length l).
Proof. unfold busy_count. pose proof (List.filter_length_le busy l). lia. Qed.

Lemma complete_has_read j t : for_chunk j t -> has_read j (complete_task remote t).
Proof.
  intros (H1 & H2 & H3). unfold has_read, for_chunk, complete_task, chunk_of. rewrite H1, H2.
  destruct (remote seq _) as [c|]; simpl; rewrite ?H1, ?H2; done.
Qed.

Lemma complete_ok_pipe J p d i : pipe_ok J p d -> pipe_ok J (recovery_complete remote p i) d.
Proof.
  intros [F1 F2 F3 F4 F5 F6 F7]. unfold recovery_complete. destruct (p_flying p !! i) as [t|] eqn:Ei; [|by split].
  pose proof (proj1 (Forall_forall _ _) F2 t (list_elem_of_lookup_2 _ _ _ Ei)) as (j & Hj & Ht).
  pose proof (complete_has_read j t Ht) as Hr. pose proof (lookup_lt_Some _ _ _ Ei) as Hlt.
  assert (Hd : length (delete i (p_flying p)) = pred (length (p_flying p))) by (rewrite length_delete; [lia|by eexists]).
  split; simpl.
  - apply Forall_app. split; [done|]. constructor; [|done]. right. by exists j.
  - apply Forall_delete, F2.
  - rewrite length_app, Hd. simpl. lia.
  - rewrite busy_app, Hd. unfold busy_count at 2. simpl. unfold busy at 1.
    destruct Hr as [(_ & _ & Hb) _]. destruct (recovery_bd (complete_task remote t)); [|done]. simpl. lia.
  - done.
  - done.
  - intros Hf j' Hj'. destruct (F7 Hf j' Hj') as [Hc|(t' & Hin' & Ht')]; [by left|]. right.
    apply elem_of_app in Hin' as [Hin'|Hin'].
    + exists t'. split; [|done]. apply elem_of_app. left. apply elem_of_app. by left.
    + apply list_elem_of_lookup in Hin' as [k Hk]. destruct (decide (k = i)) as [->|Hne].
      * assert (t' = t) by congruence. subst t'. exists (complete_task remote t). split.
        -- apply elem_of_app. left. apply elem_of_app. right. by left.
        -- by apply complete_has_read.
      * exists t'. split; [|done]. apply elem_of_app. right. apply list_elem_of_lookup.
        destruct (decide (k < i)%nat).
        -- exists k. rewrite list_lookup_delete_lt; done.
        -- exists (pred k). rewrite list_lookup_delete_ge by lia. by replace (S (pred k)) with k by lia.
Qed.

Lemma complete_all_ok J p d l : pipe_ok J p d -> pipe_ok J (foldl (recovery_complete remote) p l) d.
Proof. revert p. induction l as [|i l IH]; intros p Hp; simpl; [done|]. by apply IH, complete_ok_pipe. Qed.

Lemma io_size_pos : 0 < RECOVERY_IO_SIZE.
Proof. done. Qed.

(** Writing a chunk. *)
Lemma write_covers d j c :
  0 <= j < n -> chunk_of j = Some c ->
  let d' := memcpy_at d (offset e + j * RECOVERY_IO_SIZE) RECOVERY_IO_SIZE c in
  covered d' j /\ (forall i, covered d i -> covered d' i)
  /\ (forall x, x < offset e \/ offset e + n * RECOVERY_IO_SIZE <= x -> d' x = d x).
Proof.
  intros Hj Hc d'. pose proof io_size_pos as Hp. split; [|split].
  - exists c. split; [done|]. intros x Hx. unfold d'. rewrite memcpy_in by lia. f_equal. lia.
  - intros i (ci & Hci & Hx). destruct (decide (i = j)) as [->|Hne].
    + exists c. split; [done|]. intros x Hxx. unfold d'. rewrite memcpy_in by lia. f_equal. lia.
    + exists ci. split; [done|]. intros x Hxx. unfold d'. rewrite memcpy_out; [by apply Hx|]. nia.
  - intros x Hx. unfold d'. apply memcpy_out. nia.
Qed.

Lemma for_chunk_fun i j t : for_chunk i t -> for_chunk j t -> i = j.
Proof. intros (H1 & _) (H2 & _). pose proof io_size_pos. nia. Qed.

Lemma absorb_ok t d :
  recovery_bd t = None \/ (exists j, 0 <= j < n /\ has_read j t) ->
  exists bad d', absorb key a t (with_data d s0) = Done (bad, with_data d' s0)
    /\ (bad = true -> exists j, 0 <= j < n /\ chunk_of j = None)
    /\ (forall x, x < offset e \/ offset e + n * RECOVERY_IO_SIZE <= x -> d' x = d x)
    /\ (bad = false -> (forall j, covered d j -> covered d' j) /\ (forall j, for_chunk j t -> covered d' j)).
Proof using He Hseq Hq Hin.
  intros Ht. unfold absorb. destruct Ht as [Hn|(j & Hj & Hfor & Hread)].
  - rewrite Hn. exists false, d. splits; try done. intros _. split; [done|]. intros j (_ & _ & Hb). done.
  - destruct Hfor as (H1 & H2 & H3). destruct (recovery_bd t) as [buf|] eqn:Hb; [|done].
    destruct (chunk_of j) as [c|] eqn:Hc.
    + destruct Hread as [[= ->] ->].
      change (find_entry key a (with_data d s0)) with (find_entry key a s0). rewrite He. cbn [obind].
      unfold recovery_write. rewrite Hseq, H2, Z.eqb_refl. cbn [negb]. unfold sync_write, next_fault.
      change (dev_faults (dev (with_data d s0))) with (dev_faults (dev s0)). rewrite Hq. cbn [obind negb Z.eqb].
      change (in_obj_offset_mask (with_data d s0)) with (in_obj_offset_mask s0). rewrite H1, Hin by done.
      destruct (write_covers d j c Hj Hc) as (W1 & W2 & W3).
      eexists false, (memcpy_at d (offset e + j * RECOVERY_IO_SIZE) RECOVERY_IO_SIZE c).
      split; [done|]. split; [done|]. split; [done|]. intros _. split; [done|]. intros i Hi.
      rewrite (for_chunk_fun i j t Hi); [done|]. unfold for_chunk. by rewrite Hb.
    + rewrite Hread. exists true, d. splits; try done. intros _. by exists j.
Qed.

Lemma pipe_ok_mono J p d : pipe_ok J p d -> forall J', J <= J' -> p_failed p = true -> pipe_ok J' p d.
Proof.
  intros [F1 F2 F3 F4 F5 F6 F7] J' HJ Hf. split; try done.
  - eapply Forall_impl; [exact F1|]. intros t [H|(j & Hj & H)]; [by left|right; exists j; split; [lia|done]].
  - eapply Forall_impl; [exact F2|]. intros t (j & Hj & H). exists j; split; [lia|done].
  - rewrite Hf. done.
Qed.

(** A task is taken from the front of the queue and comes back idle or goes
    out with the next chunk. *)
Lemma take_task J p d t free :
  J <= n -> pipe_ok J p d -> p_free p = t :: free ->
  exists bad d', absorb key a t (with_data d s0) = Done (bad, with_data d' s0)
    /\ (bad = true -> pipe_ok J (mkPipe (free ++ [idle_task t]) (p_flying p) (bd_back t (p_bds p)) true) d')
    /\ (bad = false -> pipe_ok J (mkPipe (free ++ [idle_task t]) (p_flying p) (bd_back t (p_bds p)) (p_failed p)) d'
         /\ 0 < bd_back t (p_bds p)).
Proof using He Hseq Hq Hin HB.
  intros HJ [F1 F2 F3 F4 F5 F6 F7] Ep. rewrite Ep in *. apply Forall_cons in F1 as [Ht F1].
  destruct (absorb_ok t d) as (bad & d' & Ha & Hbad & Hout & Hcov).
  { destruct Ht as [H|(j & Hj & H)]; [by left|right; exists j; split; [lia|done]]. }
  exists bad, d'. split; [done|].
  assert (Hbd : bd_back t (p_bds p) + busy_count (free ++ [idle_task t]) + Z.of_nat (length (p_flying p)) = B).
  { rewrite busy_app. change (t :: free) with ([t] ++ free) in F4. rewrite busy_app in F4.
    unfold busy_count in *. simpl in *. unfold bd_back, busy in *. destruct (recovery_bd t); simpl in *; lia. }
  assert (Hidle : Forall (fun t => recovery_bd t = None \/ exists j, 0 <= j < J /\ has_read j t) (free ++ [idle_task t])).
  { apply Forall_app. split; [done|]. constructor; [by left|done]. }
  assert (Hlen : (length (free ++ [idle_task t]) + length (p_flying p))%nat = iodepth).
  { rewrite length_app. simpl in *. lia. }
  assert (Hout' : forall x, x < offset e \/ offset e + n * RECOVERY_IO_SIZE <= x -> d' x = dev_data (dev s0) x).
  { intros x Hx. rewrite Hout by done. by apply F5. }
  split.
  - intros ->. by split.
  - intros ->. destruct (Hcov eq_refl) as [C1 C2]. split.
    + split; simpl; try done. intros Hf j Hj. destruct (F7 Hf j Hj) as [Hc|(t' & Hin' & Ht')]; [left; by apply C1|].
      apply elem_of_app in Hin' as [Hin'|Hin'].
      * apply elem_of_cons in Hin' as [->|Hin']; [left; by apply C2|]. right. exists t'. split; [|done].
        apply elem_of_app. left. apply elem_of_app. by left.
      * right. exists t'. split; [|done]. apply elem_of_app. by right.
    + rewrite busy_app in Hbd. unfold busy_count at 2 in Hbd. simpl in Hbd. pose proof (busy_le free). simpl in F3. lia.
Qed.

(** The loop: the task taken goes out with the next chunk. *)
Lemma send_next J p d t free :
  0 <= J -> p_failed p = false ->
  pipe_ok J (mkPipe (free ++ [idle_task t]) (p_flying p) (bd_back t (p_bds p)) false) d ->
  pipe_ok (J + 1)
    (mkPipe free (p_flying p ++ [mkTask (Some (fun _ => 0)) (off + J * RECOVERY_IO_SIZE) seq (complete_ok t)])
       (bd_back t (p_bds p) - 1) false) d.
Proof.
  intros HJ Hf [F1 F2 F3 F4 F5 F6 F7]. simpl in *. apply Forall_app in F1 as [F1 _].
  set (t' := mkTask _ _ _ _). split; simpl.
  - eapply Forall_impl; [exact F1|]. intros x [H|(j & Hj & H)]; [by left|right; exists j; split; [lia|done]].
  - apply Forall_app. split; [|constructor; [exists J; split; [lia|done]|done]].
    eapply Forall_impl; [exact F2|]. intros x (j & Hj & H). exists j; split; [lia|done].
  - rewrite length_app in *. simpl in *. lia.
  - rewrite busy_app in F4. unfold busy_count at 2 in F4. rewrite length_app. simpl in *. lia.
  - done.
  - done.
  - intros _ j Hj. destruct (decide (j = J)) as [->|Hne].
    + right. exists t'. split; [|done]. apply elem_of_app. right. apply elem_of_app. right. by left.
    + destruct (F7 eq_refl j ltac:(lia)) as [Hc|(x & Hx & Hfor)]; [by left|]. right.
      apply elem_of_app in Hx as [Hx|Hx]; [apply elem_of_app in Hx as [Hx|Hx]|].
      * exists x. split; [|done]. apply elem_of_app. by left.
      * apply list_elem_of_singleton in Hx as ->. by destruct Hfor as (_ & _ & []).
      * exists x. split; [|done]. apply elem_of_app. right. apply elem_of_app. by left.
Qed.

Lemma sem_wait_ok J p d l : pipe_ok J p d -> pipe_ok J (sem_wait remote l p) d /\ p_free (sem_wait remote l p) <> []
  /\ p_failed (sem_wait remote l p) = p_failed p.
Proof.
  intros Hp. unfold sem_wait. pose proof (complete_all_ok J p d l Hp) as Hp1.
  assert (Hf : p_failed (foldl (recovery_complete remote) p l) = p_failed p).
  { clear Hp Hp1. revert p. induction l as [|i l IH]; intros p; simpl; [done|]. rewrite IH. unfold recovery_complete.
    by destruct (p_flying p !! i). }
  destruct (p_free (foldl (recovery_complete remote) p l)) as [|t f] eqn:Ef; [|by rewrite Ef].
  split; [by apply complete_ok_pipe|]. pose proof (po_len _ _ _ Hp1) as Hlen. rewrite Ef in Hlen. simpl in Hlen.
  unfold recovery_complete at 1 3. destruct (p_flying (foldl _ p l)) as [|t fl] eqn:Efl; [done|]. simpl.
  split; [|done]. rewrite Ef. done.
Qed.

Lemma read_loop_ok k J p d sched :
  0 <= J -> J + Z.of_nat k = n -> p_failed p = false -> pipe_ok J p d ->
  exists p' d', read_loop remote k J sched key a seq off p (with_data d s0) = Done (p', with_data d' s0)
    /\ pipe_ok n p' d'.
Proof using He Hseq Hq Hin HB.
  revert J p d. induction k as [|k IH]; intros J p d HJ Hn Hf Hp; cbn [read_loop].
  - exists p, d. replace n with J by lia. done.
  - destruct (sem_wait_ok J p d (sched J) Hp) as (Hp1 & Hne & Hf1). rewrite Hf in Hf1.
    destruct (p_free (sem_wait remote (sched J) p)) as [|t free] eqn:Ef; [done|].
    destruct (take_task J _ d t free ltac:(lia) Hp1 Ef) as (bad & d' & -> & Hb & Hg). cbn [obind].
    destruct bad.
    + eexists _, d'. split; [done|]. eapply pipe_ok_mono; [by apply Hb|lia|done].
    + destruct (Hg eq_refl) as [Hp2 Hpos]. rewrite Hf1 in Hp2.
      rewrite (proj2 (Z.eqb_neq _ _)) by lia.
      apply IH; [lia|lia|done|]. by apply send_next.
Qed.

Lemma wait_all_ok J p d l : pipe_ok J p d -> pipe_ok J (wait_all remote l p) d /\ p_flying (wait_all remote l p) = [].
Proof.
  intros Hp. unfold wait_all. split; [by apply complete_all_ok, complete_all_ok|].
  generalize (foldl (recovery_complete remote) p l). intros q. remember (p_flying q) as fl eqn:Efl.
  revert q Efl. induction fl as [|t fl IH]; intros q Efl; simpl; [done|]. apply IH.
  unfold recovery_complete. rewrite <- Efl. done.
Qed.

Definition idle t : Prop := recovery_bd t = None.

Lemma idle_not_busy l : Forall idle l -> busy_count l = 0.
Proof.
  unfold busy_count. induction 1 as [|t l Ht _ IH]; [done|]. simpl. unfold busy at 1. by rewrite Ht.
Qed.

Lemma drain_ok k p d rest done_ :
  pipe_ok n p d -> p_flying p = [] -> p_free p = rest ++ done_ -> Forall idle done_ -> length rest = k ->
  exists p' d', drain k key a p (with_data d s0) = Done (p', with_data d' s0)
    /\ pipe_ok n p' d' /\ p_flying p' = [] /\ Forall idle (p_free p').
Proof using He Hseq Hq Hin HB.
  revert p d rest done_. induction k as [|k IH]; intros p d rest done_ Hp Hfl Hfr Hid Hk; cbn [drain].
  - apply nil_length_inv in Hk. subst rest. exists p, d. rewrite Hfr. done.
  - destruct rest as [|t rest]; [done|]. cbn [app] in Hfr. rewrite Hfr.
    destruct (take_task n p d t (rest ++ done_) ltac:(lia) Hp Hfr) as (bad & d' & -> & Hb & Hg). cbn [obind].
    apply (IH _ _ rest (done_ ++ [idle_task t])).
    + destruct bad; [rewrite orb_true_r; by apply Hb|rewrite orb_false_r; by apply Hg].
    + done.
    + simpl. by rewrite <- app_assoc.
    + apply Forall_app. split; [done|]. by constructor.
    + simpl in Hk. lia.
Qed.

(** What the pipeline leaves: no task holds data, all buffers are back, no
    byte outside the object changed; a failure is reported exactly when a
    read failed, and without one all chunks are on the device. *)
Lemma read_object_ok sched last tasks :
  0 <= n -> Forall idle tasks -> length tasks = iodepth ->
  exists p' d', read_object remote (Z.to_nat n) sched last key a seq off (mkPipe tasks [] B false)
                  (with_data (dev_data (dev s0)) s0) = Done (p', with_data d' s0)
    /\ Forall idle (p_free p') /\ length (p_free p') = iodepth /\ p_flying p' = [] /\ p_bds p' = B
    /\ (forall x, x < offset e \/ offset e + n * RECOVERY_IO_SIZE <= x -> d' x = dev_data (dev s0) x)
    /\ (p_failed p' = true <-> exists j, 0 <= j < n /\ chunk_of j = None)
    /\ (p_failed p' = false -> forall j, 0 <= j < n -> covered d' j).
Proof using He Hseq Hq Hin HB.
  intros Hn Hid Hlen. unfold read_object.
  assert (H0 : pipe_ok 0 (mkPipe tasks [] B false) (dev_data (dev s0))).
  { split; simpl; try done.
    - eapply Forall_impl; [exact Hid|]. by left.
    - by rewrite Nat.add_0_r.
    - rewrite (idle_not_busy tasks Hid). lia.
    - intros _ j Hj. lia. }
  destruct (read_loop_ok (Z.to_nat n) 0 (mkPipe tasks [] B false) _ sched ltac:(lia) ltac:(lia) eq_refl H0) as (p1 & d1 & -> & Hp1). cbn [obind].
  destruct (wait_all_ok n p1 d1 last Hp1) as [Hp2 Hfl2]. set (p2 := wait_all remote last p1) in *.
  destruct (drain_ok iodepth p2 d1 (p_free p2) []) as (p' & d' & -> & Hp' & Hfl & Hidle);
    [done|done|by rewrite app_nil_r|done| |].
  { pose proof (po_len _ _ _ Hp2) as Hl. rewrite Hfl2 in Hl. simpl in Hl. lia. }
  destruct Hp' as [F1 F2 F3 F4 F5 F6 F7]. rewrite Hfl in *. simpl in *.
  assert (Hnone : forall t, t ∈ p_free p' ++ [] -> forall j, ~ for_chunk j t).
  { intros t Ht j (_ & _ & Hb). rewrite app_nil_r in Ht. by apply Hb, (proj1 (Forall_forall _ _) Hidle). }
  assert (Hcov : p_failed p' = false -> forall j, 0 <= j < n -> covered d' j).
  { intros Hf j Hj. destruct (F7 Hf j Hj) as [Hc|(t & Ht & Hfor)]; [done|]. by destruct (Hnone t Ht j). }
  exists p', d'. splits; try done.
  - lia.
  - rewrite (idle_not_busy (p_free p') Hidle) in F4. lia.
  - split; [done|]. intros (j & Hj & Hc). destruct (p_failed p') eqn:Ef; [done|].
    destruct (Hcov eq_refl j Hj) as (c & Hc' & _). congruence.
Qed.
End Pipeline.

(** ** The log on a device that does not fail *)
Definition quiet (s : store) : Prop := dev_faults (dev s) = [] /\ dev_save_faults (dev s) = [].

(** The states agree on all but the log, the zones and the fields of the head
    page that a save of the metadata changes. *)
Record same_but_log (s s' : store) : Prop := mkSame {
  sl_geom : same_geom (head s) (head s');
  sl_mask : in_obj_offset_mask s' = in_obj_offset_mask s;
  sl_lmt : obj_lmt s' = obj_lmt s;
  sl_free : free_obj_queue s' = free_obj_queue s;
  sl_trim : trim_obj_queue s' = trim_obj_queue s;
  sl_pool : lmt_entry_pool s' = lmt_entry_pool s;
  sl_data : dev_data (dev s') = dev_data (dev s);
  sl_quiet : quiet s'
}.

Lemma same_refl_geom h : same_geom h h.
Proof. exists (current_metadata h), (current_redolog h), (redolog_phase h). by destruct h. Qed.

Lemma save_quiet z s : quiet s -> exists s', save_meta_data z s = (0, s') /\ same_but_log s s'.
Proof.
  intros [Hf Hs]. unfold save_meta_data, next_save_fault. rewrite Hs. eexists. split; [done|].
  split; simpl; try done. unfold discard. simpl. by eexists _, _, _.
Qed.

Lemma log_item_quiet b s : quiet s -> exists s', log_item b s = Done (0, s') /\ same_but_log s s'.
Proof.
  intros Hq. pose proof Hq as [Hf Hs]. unfold log_item, write_entry, next_fault. rewrite Hf.
  set (s1 := with_log _ _). assert (H1 : same_but_log s s1) by (split; simpl; try done; apply same_refl_geom).
  destruct (_ >=? _); [|by exists s1]. unfold meta_data_compaction_trigger. cbn [negb andb].
  change (COMPACT_TODO =? COMPACT_TODO) with true. cbn [andb].
  destruct (to_run_compact s1 =? COMPACT_ERROR); cbn [negb obind].
  - set (s2 := with_head _ _). assert (Hq2 : quiet s2) by apply H1.
    destruct (save_quiet (oppsite_md_zone (head s2)) s2 Hq2) as (s3 & E & H3). rewrite E. cbn [negb Z.eqb get_meta_position].
    destruct (decide _); [done|]. cbn [obind]. eexists. split; [done|].
    destruct H3 as [G3 ? ? ? ? ? ? [? ?]]. by split.
  - cbn [get_meta_position]. destruct (decide _); [done|]. cbn [obind]. eexists. split; [done|].
    split; simpl; try done. apply same_refl_geom.
Qed.

(** ** A block in recovery *)

(** Insertion behind the placeholder. *)
Lemma insert_loop_ext x (f g f' g' : lmt_entry -> bool) c :
  (forall e, e ∈ c -> f e = f' e) -> (forall e, e ∈ c -> g e = g' e) ->
  chain_insert_loop x f g c = chain_insert_loop x f' g' c.
Proof.
  intros Hf Hg. induction c as [|e c IH]; [done|]. cbn [chain_insert_loop]. rewrite (Hg e) by left.
  destruct c as [|e2 c]; [done|]. rewrite (Hf e2) by (right; left).
  rewrite IH; [done| |]; intros y Hy; [apply Hf|apply Hg]; by right.
Qed.

Lemma recov_insert x ph c :
  snap_seq ph = 0 -> (forall e, e ∈ c -> 0 < snap_seq e) -> descending c ->
  (forall e, e ∈ c -> snap_seq e <> snap_seq x) ->
  exists c', chain_insert x (after_recov (snap_seq x)) (same_recov (snap_seq x)) (ph :: c) = Done (0, ph :: c')
    /\ descending c' /\ c' ≡ₚ x :: c.
Proof.
  intros Hph Hpos Hd Hfresh. cbn [chain_insert chain_insert_loop].
  assert (E1 : same_recov (snap_seq x) ph = false) by (unfold same_recov; by rewrite Hph).
  assert (E2 : after_recov (snap_seq x) ph = true) by (unfold after_recov; by rewrite Hph).
  rewrite E1, E2. cbn [negb].
  destruct c as [|e2 c]; [exists [x]; splits; [done|repeat constructor|done]|].
  assert (Hne : (snap_seq e2 =? 0) = false) by (apply Z.eqb_neq; specialize (Hpos e2 ltac:(left)); lia).
  unfold after_recov at 1. rewrite Hne. destruct (Z.ltb_spec (snap_seq x) (snap_seq e2)) as [Hlt|Hge].
  - destruct (insert_loop_fresh x (e2 :: c) Hd Hfresh Hlt) as (c' & E & Hc'). destruct Hc' as (? & ? & _); [done|].
    rewrite (insert_loop_ext x _ _ (after_seq x) (same_seq x)).
    + rewrite E. by exists c'.
    + intros e He. unfold after_recov, after_seq. rewrite (proj2 (Z.eqb_neq _ _)); [done|]. specialize (Hpos e He). lia.
    + intros e He. unfold same_recov, same_seq. rewrite (proj2 (Z.eqb_neq _ _)); [done|]. specialize (Hpos e He). lia.
  - exists (x :: e2 :: c). splits; [done| |done]. constructor; [done|].
    apply Forall_forall. intros z Hz. unfold newer. assert (snap_seq e2 <> snap_seq x) by (apply Hfresh; left).
    apply elem_of_cons in Hz as [->|Hz]; [lia|]. inversion Hd as [|? ? _ Hall]; subst.
    rewrite Forall_forall in Hall. specialize (Hall z Hz). unfold newer in Hall. lia.
Qed.

(** The objects of the device: an extent of [objsize] bytes each. *)
Record geometry (h : HeadPage) (mask off N : Z) : Prop := mkGeometry {
  ge_order : 0 <= objsize_order h;
  ge_size : objsize h = 2 ^ objsize_order h;
  ge_chunks : objsize h = N * RECOVERY_IO_SIZE;
  ge_mask : mask = objsize h - 1;
  ge_off : exists k, 0 <= k /\ off = k * objsize h
}.

Lemma geometry_same h h' mask off N : same_geom h h' -> geometry h mask off N -> geometry h' mask off N.
Proof. intros (md & rl & ph & ->) [? ? ? ? ?]. by split. Qed.

Lemma same_geom_offset h h' : same_geom h h' -> obj_id_to_offset h' = obj_id_to_offset h.
Proof. by intros (md & rl & ph & ->). Qed.

Lemma geometry_block h mask off N j :
  geometry h mask off N -> 0 <= j < N -> offset_in_block (off + j * RECOVERY_IO_SIZE) mask = j * RECOVERY_IO_SIZE.
Proof.
  intros [Ho Hs Hc Hm (k & Hk & ->)] Hj. unfold offset_in_block. pose proof io_size_pos as Hp.
  rewrite Hm, Hs. replace (2 ^ objsize_order h - 1) with (Z.ones (objsize_order h)) by (rewrite Z.ones_equiv; lia).
  rewrite Z.land_ones by done. rewrite Z.add_comm, Z.mod_add by (rewrite <- Hs; nia). apply Z.mod_small. rewrite <- Hs. nia.
Qed.

Lemma ids_disjoint h i j : 0 <= objsize_order h -> objsize h = 2 ^ objsize_order h -> i <> j ->
  obj_id_to_offset h i + objsize h <= obj_id_to_offset h j \/ obj_id_to_offset h j + objsize h <= obj_id_to_offset h i.
Proof.
  intros Ho Hs Hne. unfold obj_id_to_offset. rewrite Hs, !Z.shiftl_mul_pow2 by done.
  pose proof (Z.pow_pos_nonneg 2 (objsize_order h)). nia.
Qed.

(** The block while it is recovered: the placeholder is in front; all objects
    are done, that of snapshot [x] apart. *)
Record block_inv (key : lmt_key) (ph : lmt_entry) (x : Z) (others : list Z) (s : store) (c : chain) : Prop := mkBlock {
  bi_lmt : obj_lmt s !! key = Some (ph :: c);
  bi_pos : forall e, e ∈ c -> 0 < snap_seq e;
  bi_desc : descending c;
  bi_normal : forall e, e ∈ c -> snap_seq e <> x -> status e = NORMAL;
  bi_pool : pool_inv (lmt_entry_pool s) (e_addr ph :: addrs c ++ others);
  bi_cap : 0 <= obj_count (lmt_entry_pool s);
  bi_free : queue_wf (free_obj_queue s);
  bi_ids : exists l, offset <$> c ≡ₚ obj_id_to_offset (head s) <$> l /\ NoDup (l ++ abs (free_obj_queue s));
  bi_quiet : quiet s
}.

Lemma block_log key ph x others s s' c :
  same_but_log s s' -> block_inv key ph x others s c -> block_inv key ph x others s' c.
Proof.
  intros [G M L F T P D Q] [B1 B2 B3 B4 B5 B6 B7 B8 B9]. split; rewrite ?L, ?F, ?P; try done.
  by rewrite (same_geom_offset _ _ G).
Qed.

(** What a step on a block leaves as it is. *)
Record block_frame (key : lmt_key) (s s' : store) : Prop := mkFrame {
  fr_geom : same_geom (head s) (head s');
  fr_mask : in_obj_offset_mask s' = in_obj_offset_mask s;
  fr_cap : obj_count (lmt_entry_pool s') = obj_count (lmt_entry_pool s);
  fr_other : forall k, k <> key -> obj_lmt s' !! k = obj_lmt s !! k
}.

Lemma frame_refl key s : block_frame key s s.
Proof. split; [apply same_refl_geom|done..]. Qed.

Lemma frame_trans key s1 s2 s3 : block_frame key s1 s2 -> block_frame key s2 s3 -> block_frame key s1 s3.
Proof.
  intros [G1 M1 C1 O1] [G2 M2 C2 O2]. split; [by eapply same_geom_trans|congruence|congruence|].
  intros k Hk. by rewrite O2, O1.
Qed.

Lemma frame_log key s s' : same_but_log s s' -> block_frame key s s'.
Proof. intros [G M L F T P D Q]. split; [done|done|by rewrite P|by rewrite L]. Qed.

(** An object and an entry are taken for snapshot [seq]. *)
Lemma take_object key ph others s c seq st :
  block_inv key ph 0 others s c -> abs (free_obj_queue s) <> [] ->
  Z.of_nat (S (length c + length others)) < obj_count (lmt_entry_pool s) ->
  exists x s', alloc_object seq st s = Done (x, s') /\ snap_seq x = seq /\ status x = st
    /\ block_frame key s s' /\ dev s' = dev s /\ trim_obj_queue s' = trim_obj_queue s /\ obj_lmt s' = obj_lmt s
    /\ pool_inv (lmt_entry_pool s') (e_addr x :: e_addr ph :: addrs c ++ others) /\ queue_wf (free_obj_queue s')
    /\ S (length (abs (free_obj_queue s'))) = length (abs (free_obj_queue s))
    /\ exists id l, offset x = obj_id_to_offset (head s) id /\ offset <$> c ≡ₚ obj_id_to_offset (head s) <$> l
         /\ NoDup ((id :: l) ++ abs (free_obj_queue s')).
Proof.
  intros [B1 B2 B3 B4 B5 B6 B7 B8 B9] Hne Hroom. unfold alloc_object.
  destruct (abs (free_obj_queue s)) as [|id r] eqn:Ea; [done|].
  destruct (dequeue_cons _ id r B7 Ea) as (q & -> & Hq & Hr & _). cbn [obind].
  change (lmt_entry_pool (with_free q s)) with (lmt_entry_pool s).
  destruct (pool_alloc_spec _ _ B5 B6) as [(y & p & -> & Hy & _ & Hp & Hc)|[_ Hfull]].
  - cbn [obind of_option]. eexists _, _. split; [done|]. splits; try done; [by split; [apply same_refl_geom|..]|simpl; by rewrite Hr|].
    destruct B8 as (l & Hl & Hnd). exists id, l. splits; [done|done|]. simpl. rewrite Hr.
    by rewrite Permutation_middle.
  - simpl in Hfull. rewrite length_app in Hfull. unfold addrs in Hfull. rewrite length_fmap in Hfull. lia.
Qed.

Lemma recovery_alloc_ok key ph others s c seq :
  block_inv key ph 0 others s c -> snap_seq ph = 0 -> 0 < seq -> (forall e, e ∈ c -> snap_seq e <> seq) ->
  abs (free_obj_queue s) <> [] -> Z.of_nat (S (length c + length others)) < obj_count (lmt_entry_pool s) ->
  exists x s' c', recovery_alloc key (e_addr ph) seq s = Done (0, e_addr x, s') /\ snap_seq x = seq
    /\ block_inv key ph seq others s' c' /\ c' ≡ₚ x :: c /\ block_frame key s s'
    /\ dev_data (dev s') = dev_data (dev s) /\ trim_obj_queue s' = trim_obj_queue s
    /\ S (length (abs (free_obj_queue s'))) = length (abs (free_obj_queue s)).
Proof.
  intros Hb Hph Hseq Hfresh Hne Hroom. unfold recovery_alloc.
  rewrite (not_true_is_false (is_empty (free_obj_queue s))) by (rewrite is_empty_nil; [done|apply Hb]).
  destruct (take_object key ph others s c seq RECOVERYING Hb Hne Hroom)
    as (x & s1 & -> & Hxs & Hst & Hf1 & Hd1 & Ht1 & Hl1 & Hp1 & Hq1 & Hlen & id & l & Hxo & Hlo & Hnd). cbn [obind].
  assert (Hqt : quiet s1) by (unfold quiet; rewrite Hd1; apply Hb).
  destruct (log_item_quiet (ALLOCATE_OBJ key x (q_head (free_obj_queue s1))) s1 Hqt) as (s2 & E2 & Hs2).
  unfold log_allocation. rewrite E2. cbn [obind negb Z.eqb].
  pose proof Hs2 as [G2 M2 L2 F2 T2 P2 D2 Q2]. destruct Hb as [B1 B2 B3 B4 B5 B6 B7 B8 B9].
  unfold placeholder. rewrite L2, Hl1, B1, Z.eqb_refl. cbn [obind].
  destruct (recov_insert x ph c Hph B2 B3) as (c' & Hins & Hdesc & Hperm); [by rewrite Hxs|].
  rewrite Hxs in Hins. rewrite Hins. cbn [obind negb Z.eqb]. rewrite Z.eqb_refl.
  eexists x, _, c'. split; [done|]. split; [done|]. split; [|splits; try done].
  - split; simpl.
    + rewrite lookup_insert_eq. done.
    + intros e He. rewrite Hperm in He. apply elem_of_cons in He as [->|He]; [lia|by apply B2].
    + done.
    + intros e He Hs. rewrite Hperm in He. apply elem_of_cons in He as [->|He]; [done|].
      apply B4; [done|]. specialize (B2 e He). lia.
    + rewrite P2. eapply pool_inv_perm; [|exact Hp1]. unfold addrs. rewrite Hperm. simpl. apply Permutation_swap.
    + rewrite P2. by rewrite (fr_cap _ _ _ Hf1).
    + by rewrite F2.
    + exists (id :: l). rewrite F2. split; [|done].
      rewrite (same_geom_offset _ _ G2), (same_geom_offset _ _ (fr_geom _ _ _ Hf1)), Hperm. csimpl. by rewrite Hxo, Hlo.
    + done.
  - eapply frame_trans; [exact Hf1|]. eapply frame_trans; [by apply frame_log|]. split; simpl; [apply same_refl_geom|done|done|].
    intros k Hk. by rewrite lookup_insert_ne, L2, Hl1.
  - simpl. by rewrite D2, Hd1.
  - simpl. by rewrite T2, Ht1.
  - simpl. by rewrite F2.
Qed.

Lemma find_addr l e :
  NoDup (addrs l) -> e ∈ l -> List.find (fun y => e_addr y =? e_addr e) l = Some e.
Proof.
  unfold addrs. induction l as [|y l IH]; intros Hnd He; [by apply elem_of_nil in He|]. csimpl in Hnd.
  apply NoDup_cons in Hnd as [Hy Hnd]. cbn [List.find]. apply elem_of_cons in He as [->|He]; [by rewrite Z.eqb_refl|].
  destruct (Z.eqb_spec (e_addr y) (e_addr e)) as [E|]; [|by apply IH].
  destruct Hy. rewrite E. apply list_elem_of_fmap. by exists e.
Qed.

Lemma block_nodup key ph x others s c : block_inv key ph x others s c -> NoDup (addrs (ph :: c)).
Proof.
  intros Hb. pose proof (pi_perm _ _ (bi_pool _ _ _ _ _ _ Hb)) as Hp.
  assert (Hnd : NoDup (seqZ 0 (obj_count (lmt_entry_pool s)))) by apply NoDup_seqZ. rewrite <- Hp in Hnd.
  apply NoDup_app in Hnd as (_ & _ & Hnd). rewrite app_comm_cons in Hnd. by apply NoDup_app in Hnd as (? & _ & _).
Qed.

Lemma block_find key ph x others s c e :
  block_inv key ph x others s c -> e ∈ c -> find_entry key (e_addr e) s = Done e.
Proof.
  intros Hb He. unfold find_entry. rewrite (bi_lmt _ _ _ _ _ _ Hb). simpl default.
  rewrite (find_addr (ph :: c) e); [done|by eapply block_nodup|by right].
Qed.

(** The fields of an entry that do not change once it is linked. *)
Definition shape (e : lmt_entry) : Z * Z * Z := (e_addr e, offset e, snap_seq e).

Lemma block_shape key ph x y others s s' c c' :
  block_inv key ph x others s c -> shape <$> c' = shape <$> c -> same_but_log s s' ->
  (forall e, e ∈ c' -> snap_seq e <> y -> status e = NORMAL) ->
  block_inv key ph y others (with_lmt (<[key := ph :: c']> (obj_lmt s')) s') c'.
Proof.
  intros [B1 B2 B3 B4 B5 B6 B7 B8 B9] Hsh Hs Hn. pose proof Hs as [G M L F T P D Q].
  assert (Ea : addrs c' = addrs c).
  { unfold addrs. apply (f_equal (fmap (fun t : Z * Z * Z => t.1.1))) in Hsh. by rewrite <- !list_fmap_compose in Hsh. }
  assert (Eo : offset <$> c' = offset <$> c).
  { apply (f_equal (fmap (fun t : Z * Z * Z => t.1.2))) in Hsh. by rewrite <- !list_fmap_compose in Hsh. }
  assert (Es : snap_seq <$> c' = snap_seq <$> c).
  { apply (f_equal (fmap (fun t : Z * Z * Z => t.2))) in Hsh. by rewrite <- !list_fmap_compose in Hsh. }
  split; simpl; rewrite ?Ea, ?Eo, ?F, ?P; try done.
  - by rewrite lookup_insert_eq.
  - intros e He. assert (H : snap_seq e ∈ snap_seq <$> c') by (apply list_elem_of_fmap; by exists e).
    rewrite Es in H. apply list_elem_of_fmap in H as (e' & -> & He'). by apply B2.
  - by apply (descending_seqs c).
  - by rewrite (same_geom_offset _ _ G).
Qed.

Lemma desc_unique c y e : descending c -> y ∈ c -> e ∈ c -> snap_seq y = snap_seq e -> y = e.
Proof.
  intros Hd Hy He E. induction Hd as [|z c Hd IH Hall]; [by apply elem_of_nil in He|].
  rewrite Forall_forall in Hall. unfold newer in Hall.
  apply elem_of_cons in Hy as [->|Hy]; apply elem_of_cons in He as [->|He]; [done| | |by apply IH].
  - specialize (Hall _ He). lia.
  - specialize (Hall _ Hy). lia.
Qed.

Lemma recovery_end_ok key ph seq others s c e :
  block_inv key ph seq others s c -> e ∈ c -> snap_seq e = seq ->
  exists s' c', recovery_end key (e_addr e) s = Done (0, s') /\ block_inv key ph 0 others s' c'
    /\ shape <$> c' = shape <$> c /\ block_frame key s s' /\ dev_data (dev s') = dev_data (dev s)
    /\ trim_obj_queue s' = trim_obj_queue s /\ free_obj_queue s' = free_obj_queue s.
Proof.
  intros Hb He Hseq. unfold recovery_end. rewrite (block_find _ _ _ _ _ _ _ Hb He). cbn [obind].
  assert (Hone : forall y, y ∈ c -> snap_seq y = seq -> y = e).
  { intros y Hy Hys. apply (desc_unique c); [apply Hb|done|done|congruence]. }
  destruct (decide (status e = NORMAL)) as [Hn|Hn].
  - exists s, c. splits; try done; [|apply frame_refl]. destruct Hb as [B1 B2 B3 B4 B5 B6 B7 B8 B9]. split; try done.
    intros y Hy _. destruct (decide (snap_seq y = seq)) as [Hys|Hys]; [by rewrite (Hone y Hy Hys)|by apply B4].
  - pose proof (block_nodup _ _ _ _ _ _ Hb) as Hnd. pose proof (bi_lmt _ _ _ _ _ _ Hb) as Hl.
    unfold update_entry. rewrite Hl. csimpl.
    assert (Hph : (e_addr ph =? e_addr e) = false).
    { apply Z.eqb_neq. intros E. unfold addrs in Hnd. csimpl in Hnd. apply NoDup_cons in Hnd as [H _]. apply H. rewrite E.
      apply list_elem_of_fmap. by exists e. }
    rewrite Hph. set (c' := (fun y => if e_addr y =? e_addr e then set_status NORMAL y else y) <$> c).
    set (s1 := with_lmt _ s). assert (Hsh : shape <$> c' = shape <$> c).
    { unfold c'. rewrite <- list_fmap_compose. apply list_fmap_ext. intros i y _. simpl. by destruct (e_addr y =? e_addr e). }
    assert (Hn' : forall y, y ∈ c' -> snap_seq y <> 0 -> status y = NORMAL).
    { intros y Hy _. apply list_elem_of_fmap in Hy as (z & -> & Hz). destruct (Z.eqb_spec (e_addr z) (e_addr e)) as [E|E]; [done|].
      apply (bi_normal _ _ _ _ _ _ Hb); [done|]. intros Hs. by rewrite (Hone z Hz Hs) in E. }
    assert (Hb1 : block_inv key ph 0 others s1 c').
    { apply (block_shape key ph seq 0 others s s c c' Hb Hsh); [|done]. split; try done; [apply same_refl_geom|apply Hb]. }
    destruct (log_item_quiet (STATUS_CHANGE key (set_status NORMAL e) (status e)) s1) as (s2 & E2 & Hs2); [apply Hb1|].
    exists s2, c'. splits; try done.
    + by eapply block_log.
    + eapply frame_trans; [|by apply frame_log]. split; simpl; [apply same_refl_geom|done|done|].
      intros k Hk. by rewrite lookup_insert_ne.
    + by rewrite (sl_data _ _ Hs2).
    + by rewrite (sl_trim _ _ Hs2).
    + by rewrite (sl_free _ _ Hs2).
Qed.

Lemma with_data_id s : with_data (dev_data (dev s)) s = s.
Proof. destruct s as [? ? ? ? ? ? ? ? ? ? d ?]. unfold with_data, with_dev, set_dev_data. simpl. by destruct d. Qed.

Lemma block_data key ph x others s c d : block_inv key ph x others s c -> block_inv key ph x others (with_data d s) c.
Proof. intros [B1 B2 B3 B4 B5 B6 B7 B8 B9]. by split. Qed.

(** Objects of different snapshots do not overlap. *)
Lemma block_disjoint key ph x others s c e1 e2 mask off N :
  geometry (head s) mask off N -> block_inv key ph x others s c -> e1 ∈ c -> e2 ∈ c -> snap_seq e1 <> snap_seq e2 ->
  offset e1 + objsize (head s) <= offset e2 \/ offset e2 + objsize (head s) <= offset e1.
Proof.
  intros [Ho Hs _ _ _] Hb H1 H2 Hne. destruct (bi_ids _ _ _ _ _ _ Hb) as (l & Hl & Hnd). apply NoDup_app in Hnd as (Hnd & _ & _).
  assert (Hpos : 0 < objsize (head s)) by (rewrite Hs; by apply Z.pow_pos_nonneg).
  assert (Hinj : NoDup (offset <$> c)).
  { rewrite Hl. apply NoDup_fmap_2_strong; [|done]. intros i j _ _ E. destruct (decide (i = j)) as [|Hij]; [done|].
    destruct (ids_disjoint (head s) i j Ho Hs Hij); lia. }
  assert (Hid : forall e, e ∈ c -> exists i, offset e = obj_id_to_offset (head s) i).
  { intros e He. assert (H : offset e ∈ offset <$> c) by (apply list_elem_of_fmap; by exists e).
    rewrite Hl in H. apply list_elem_of_fmap in H as (i & -> & _). by exists i. }
  destruct (Hid e1 H1) as [i Hi], (Hid e2 H2) as [j Hj]. rewrite Hi, Hj. apply ids_disjoint; [done|done|]. intros ->.
  assert (e1 = e2) as ->; [|done]. rewrite <- Hj in Hi. by apply (nodup_fmap_eq offset c).
Qed.

Definition snaps (c : chain) : list Z := snap_seq <$> c.

Lemma elem_of_snaps q c : q ∈ snaps c <-> exists e, e ∈ c /\ snap_seq e = q.
Proof. unfold snaps. rewrite list_elem_of_fmap. firstorder. Qed.

Lemma shape_elem (c c' : chain) e : shape <$> c' = shape <$> c -> e ∈ c -> exists e', e' ∈ c' /\ shape e' = shape e.
Proof.
  intros H He. assert (Hin : shape e ∈ shape <$> c') by (rewrite H; apply list_elem_of_fmap; by exists e).
  apply list_elem_of_fmap in Hin as (e' & E & He'). by exists e'.
Qed.

Lemma shape_snaps (c c' : chain) : shape <$> c' = shape <$> c -> snaps c' = snaps c.
Proof. intros H. apply (f_equal (fmap (fun t : Z * Z * Z => t.2))) in H. by rewrite <- !list_fmap_compose in H. Qed.

(** The context between two objects. *)
Record ctx_ok (a : Z) (ctx : RecoveryContext) : Prop := mkCtxOk {
  co_addr : e_addr (recovery_head_entry ctx) = a;
  co_idle : Forall idle (task_queue ctx);
  co_len : length (task_queue ctx) = iodepth;
  co_bds : Z.of_nat iodepth <= io_bds ctx
}.

Section Single.
Context (remote : Z -> Z -> option (Z -> Z)) (sched : Z -> Z -> list nat) (last : Z -> list nat).
Context (key : lmt_key) (ph : lmt_entry) (others : list Z) (off N : Z) (Hph : snap_seq ph = 0).

(** The object of an entry holds what the other store has of a snapshot. *)
Definition recovered (s : store) (e : lmt_entry) (seq : Z) : Prop :=
  forall j, 0 <= j < N -> covered remote seq off e (dev_data (dev s)) j.

Definition unchanged (s s' : store) (e : lmt_entry) : Prop :=
  forall x, 0 <= x < objsize (head s) -> dev_data (dev s') (offset e + x) = dev_data (dev s) (offset e + x).

(** The step from [c] to [c'] that recovers snapshot [seq]. *)
Record recovers (seq : Z) (s s' : store) (c c' : chain) : Prop := mkRecovers {
  re_frame : block_frame key s s';
  re_trim : trim_obj_queue s' = trim_obj_queue s;
  re_count : (length c' + length (abs (free_obj_queue s')) = length c + length (abs (free_obj_queue s)))%nat;
  re_len : (length c' <= S (length c))%nat;
  re_snaps : forall q, q ∈ snaps c' <-> q = seq \/ q ∈ snaps c;
  re_new : exists e, e ∈ c' /\ snap_seq e = seq /\ recovered s' e seq;
  re_keep : forall e, e ∈ c -> exists e', e' ∈ c' /\ shape e' = shape e;
  re_old : forall e, e ∈ c -> snap_seq e <> seq -> unchanged s s' e;
  re_out : forall z, (forall e, e ∈ c' -> z < offset e \/ offset e + objsize (head s) <= z) ->
           dev_data (dev s') z = dev_data (dev s) z
}.

Lemma block_weaken x s c : block_inv key ph 0 others s c -> block_inv key ph x others s c.
Proof.
  intros [B1 B2 B3 B4 B5 B6 B7 B8 B9]. split; try done. intros e He _. apply B4; [done|]. specialize (B2 e He). lia.
Qed.

Definition find_target_entry (seq : Z) (s : store) (c : chain) : outcome (Z * Z * store) :=
  match List.find (fun e => snap_seq e =? seq) c with
  | Some e => Done (0, e_addr e, s)
  | None => recovery_alloc key (e_addr ph) seq s
  end.

Lemma target_ok seq s c :
  block_inv key ph 0 others s c -> 0 < seq ->
  (~ seq ∈ snaps c -> abs (free_obj_queue s) <> [] /\ Z.of_nat (S (length c + length others)) < obj_count (lmt_entry_pool s)) ->
  exists e s1 c1, find_target_entry seq s c = Done (0, e_addr e, s1) /\ block_inv key ph seq others s1 c1
    /\ e ∈ c1 /\ snap_seq e = seq /\ block_frame key s s1 /\ dev_data (dev s1) = dev_data (dev s)
    /\ trim_obj_queue s1 = trim_obj_queue s
    /\ (length c1 + length (abs (free_obj_queue s1)) = length c + length (abs (free_obj_queue s)))%nat
    /\ (length c1 <= S (length c))%nat
    /\ (forall q, q ∈ snaps c1 <-> q = seq \/ q ∈ snaps c) /\ (forall y, y ∈ c -> y ∈ c1).
Proof using Hph.
  intros Hb Hseq Hroom. unfold find_target_entry. destruct (List.find _ c) as [e|] eqn:Ef.
  - apply List.find_some in Ef as [He Hs]. apply list_elem_of_In in He. apply Z.eqb_eq in Hs.
    exists e, s, c. splits; try done; [by apply block_weaken|apply frame_refl|lia|]. intros q. split; [by right|].
    intros [->|]; [|done]. apply elem_of_snaps. by exists e.
  - assert (Hno : forall e, e ∈ c -> snap_seq e <> seq).
    { intros e He. apply Z.eqb_neq, (List.find_none _ _ Ef e). by apply list_elem_of_In. }
    destruct Hroom as [Hr1 Hr2]. { rewrite elem_of_snaps. intros (e & He & Hs). by apply (Hno e). }
    destruct (recovery_alloc_ok key ph others s c seq Hb Hph Hseq Hno Hr1 Hr2)
      as (x & s1 & c1 & -> & Hx & Hb1 & Hp & Hf & Hd & Ht & Hl).
    exists x, s1, c1. splits; try done.
    + rewrite Hp. left.
    + apply Permutation_length in Hp. simpl in Hp. lia.
    + apply Permutation_length in Hp. simpl in Hp. lia.
    + intros q. unfold snaps. rewrite Hp. csimpl. rewrite elem_of_cons, Hx. done.
    + intros y Hy. rewrite Hp. by right.
Qed.

Lemma single_ok seq s c ctx :
  block_inv key ph 0 others s c -> geometry (head s) (in_obj_offset_mask s) off N -> 0 < seq ->
  (~ seq ∈ snaps c -> abs (free_obj_queue s) <> [] /\ Z.of_nat (S (length c + length others)) < obj_count (lmt_entry_pool s)) ->
  (forall j, 0 <= j < N -> remote seq (off + j * RECOVERY_IO_SIZE) <> None) -> ctx_ok (e_addr ph) ctx ->
  exists ctx' s' c', recovery_single_object_entry remote sched last ctx key seq off s = Done (0, ctx', s')
    /\ ctx_ok (e_addr ph) ctx' /\ recovery_head_entry ctx' = recovery_head_entry ctx
    /\ block_inv key ph 0 others s' c' /\ recovers seq s s' c c'.
Proof using Hph.
  intros Hb Hg Hseq Hroom Hrem [C1 C2 C3 C4]. unfold recovery_single_object_entry, placeholder.
  rewrite C1, (bi_lmt _ _ _ _ _ _ Hb), Z.eqb_refl. cbn [obind]. fold (find_target_entry seq s c).
  destruct (target_ok seq s c Hb Hseq Hroom) as (e & s1 & c1 & -> & Hb1 & He & Hes & Hf1 & Hd1 & Ht1 & Hn1 & Hle1 & Hs1 & Hin1).
  cbn [obind negb Z.eqb]. pose proof (geometry_same _ _ _ _ _ (fr_geom _ _ _ Hf1) Hg) as Hg1.
  rewrite <- (fr_mask _ _ _ Hf1) in Hg1. rewrite (ge_chunks _ _ _ _ Hg1), Z.div_mul by done.
  assert (HN : 0 <= N). { pose proof (ge_chunks _ _ _ _ Hg1) as H. rewrite (ge_size _ _ _ _ Hg1) in H.
    pose proof (Z.pow_pos_nonneg 2 (objsize_order (head s1)) eq_refl (ge_order _ _ _ _ Hg1)). pose proof io_size_pos. nia. }
  destruct (read_object_ok remote key (e_addr e) seq off N (io_bds ctx) e s1 (block_find _ _ _ _ _ _ _ Hb1 He) Hes
              (proj1 (bi_quiet _ _ _ _ _ _ Hb1)) (fun j Hj => geometry_block _ _ _ _ j Hg1 Hj) C4 (sched seq) (last seq)
              (task_queue ctx) HN C2 C3) as (p & d & E & Hi & Hlen & Hfly & Hbds & Hout & Hbad & Hcov).
  rewrite with_data_id in E. rewrite E. cbn [obind]. clear E.
  assert (Hfail : p_failed p = false).
  { destruct (p_failed p); [|done]. destruct (proj1 Hbad eq_refl) as (j & Hj & Hc). by destruct (Hrem j Hj). }
  destruct (recovery_end_ok key ph seq others (with_data d s1) c1 e) as (s2 & c2 & -> & Hb2 & Hsh & Hf2 & Hd2 & Ht2 & Hfr2);
    [by apply block_data|done|done|].
  cbn [obind negb Z.eqb]. rewrite Hfail. eexists _, s2, c2. split; [done|]. split; [by split; simpl; rewrite ?Hbds|].
  split; [done|]. split; [done|]. simpl in Hd2, Ht2, Hfr2.
  assert (Hsz : objsize (head s1) = objsize (head s)) by (destruct (fr_geom _ _ _ Hf1) as (? & ? & ? & ->); done).
  assert (HszN : objsize (head s1) = N * RECOVERY_IO_SIZE) by apply Hg1.
  assert (Hlc : length c2 = length c1) by (apply (f_equal length) in Hsh; by rewrite !length_fmap in Hsh).
  split.
  - eapply frame_trans; [exact Hf1|]. eapply frame_trans; [|exact Hf2]. split; [apply same_refl_geom|done..].
  - congruence.
  - rewrite Hlc, Hfr2. done.
  - by rewrite Hlc.
  - intros q. rewrite (shape_snaps c1 c2 Hsh). apply Hs1.
  - destruct (shape_elem c1 c2 e Hsh He) as (e' & He' & Hse). injection Hse as _ Hoff Hss. exists e'. split; [done|].
    split; [congruence|]. intros j Hj. unfold covered. rewrite Hoff, Hd2. by apply Hcov.
  - intros y Hy. apply (shape_elem c1); [done|by apply Hin1].
  - intros y Hy Hys x Hx. rewrite Hd2, Hout, Hd1; [done|].
    destruct (block_disjoint key ph seq others s1 c1 y e _ _ _ Hg1 Hb1 (Hin1 y Hy) He) as [H|H]; [congruence|lia|lia].
  - intros z Hz. destruct (shape_elem c1 c2 e Hsh He) as (e' & He' & Hse). injection Hse as _ Hoff _.
    specialize (Hz e' He'). rewrite Hd2, Hout, Hd1; [done|]. rewrite Hoff in Hz. lia.
Qed.

(** The steps for a list of snapshots. *)
Record recovers_all (l : list Z) (s s' : store) (c c' : chain) : Prop := mkRecoversAll {
  ra_frame : block_frame key s s';
  ra_trim : trim_obj_queue s' = trim_obj_queue s;
  ra_snaps : forall q, q ∈ snaps c' <-> q ∈ l \/ q ∈ snaps c;
  ra_new : forall q, q ∈ l -> exists e, e ∈ c' /\ snap_seq e = q /\ recovered s' e q;
  ra_keep : forall e, e ∈ c -> exists e', e' ∈ c' /\ shape e' = shape e;
  ra_old : forall e, e ∈ c -> snap_seq e ∉ l -> unchanged s s' e;
  ra_out : forall z, (forall e, e ∈ c' -> z < offset e \/ offset e + objsize (head s) <= z) ->
           dev_data (dev s') z = dev_data (dev s) z
}.

Lemma recovered_unchanged s s' e e' seq :
  objsize (head s) = N * RECOVERY_IO_SIZE -> shape e' = shape e -> unchanged s s' e ->
  recovered s e seq -> recovered s' e' seq.
Proof.
  intros HN Hsh Hu Hr j Hj. injection Hsh as _ Ho _. destruct (Hr j Hj) as (d & Hd & Hx). exists d. split; [done|].
  intros x Hxx. pose proof io_size_pos. rewrite Ho, <- Z.add_assoc, Hu, Z.add_assoc by nia. by apply Hx.
Qed.

Lemma recovers_cons seq l s s1 s2 c c1 c2 :
  objsize (head s) = N * RECOVERY_IO_SIZE ->
  recovers seq s s1 c c1 -> recovers_all l s1 s2 c1 c2 -> recovers_all (seq :: l) s s2 c c2.
Proof.
  intros HN [F1 T1 _ _ S1 N1 K1 O1 U1] [F2 T2 S2 N2 K2 O2 U2].
  assert (Hsz : objsize (head s1) = objsize (head s)) by (destruct (fr_geom _ _ _ F1) as (? & ? & ? & ->); done).
  assert (K : forall e, e ∈ c -> exists e2, e2 ∈ c2 /\ shape e2 = shape e).
  { intros e He. destruct (K1 e He) as (e1 & He1 & Hsh1), (K2 e1 He1) as (e2 & He2 & Hsh2). exists e2. split; [done|congruence]. }
  split.
  - by eapply frame_trans.
  - congruence.
  - intros q. rewrite S2, S1, elem_of_cons. tauto.
  - intros q Hq. destruct (decide (q ∈ l)) as [Hl|Hl]; [by apply N2|]. apply elem_of_cons in Hq as [->|Hq]; [|done].
    destruct N1 as (e & He & Hes & Hr), (K2 e He) as (e' & He' & Hsh). exists e'. split; [done|].
    split; [by injection Hsh as _ _ ->|].
    eapply recovered_unchanged; [|done|apply O2; [done|by rewrite Hes]|done]. lia.
  - done.
  - intros e He Hq x Hx. rewrite not_elem_of_cons in Hq. destruct Hq as [Hq1 Hq2].
    rewrite <- (O1 e He Hq1) by done. destruct (K1 e He) as (e1 & He1 & Hsh1). injection Hsh1 as _ Ho1 Hs1.
    rewrite <- Ho1. apply O2; [done|by rewrite Hs1|lia].
  - intros z Hz. rewrite U2, U1; [done| |].
    + intros e He. destruct (K2 e He) as (e2 & He2 & Hsh2). injection Hsh2 as _ <- _. by apply Hz.
    + intros e He. rewrite Hsz. by apply Hz.
Qed.

Lemma recover_snaps_ok l s c ctx :
  block_inv key ph 0 others s c -> geometry (head s) (in_obj_offset_mask s) off N ->
  (forall q, q ∈ l -> 0 < q) ->
  (length l <= length (abs (free_obj_queue s)))%nat ->
  Z.of_nat (length c + length others + length l) < obj_count (lmt_entry_pool s) ->
  (forall q j, q ∈ l -> 0 <= j < N -> remote q (off + j * RECOVERY_IO_SIZE) <> None) -> ctx_ok (e_addr ph) ctx ->
  exists ctx' s' c', recover_snaps remote sched last (fun _ s => Done s) l ctx key off s = Done (0, ctx', s')
    /\ ctx_ok (e_addr ph) ctx' /\ recovery_head_entry ctx' = recovery_head_entry ctx
    /\ block_inv key ph 0 others s' c' /\ recovers_all l s s' c c'.
Proof using Hph.
  revert s c ctx. induction l as [|seq l IH]; intros s c ctx Hb Hg Hpos Hfree Hroom Hrem Hctx; cbn [recover_snaps].
  - exists ctx, s, c. splits; try done. split; try done; [apply frame_refl|intros q; split; [by right|intros [H|]; [by apply elem_of_nil in H|done]]| |].
    + intros q Hq. by apply elem_of_nil in Hq.
    + intros e He. by exists e.
  - cbn [obind]. simpl in Hfree, Hroom.
    destruct (single_ok seq s c ctx Hb Hg) as (ctx1 & s1 & c1 & -> & Hc1 & Hh1 & Hb1 & Hr1);
      [apply Hpos; left| |intros j; apply Hrem; left|done|].
    { intros _. split; [|lia]. intros E. rewrite E in Hfree. simpl in Hfree. lia. }
    cbn [obind negb Z.eqb]. pose proof Hr1 as [F1 _ Cn1 Ln1 _ _ _ _ _].
    assert (Hg1 : geometry (head s1) (in_obj_offset_mask s1) off N).
    { rewrite (fr_mask _ _ _ F1). eapply geometry_same; [apply F1|done]. }
    destruct (IH s1 c1 ctx1 Hb1 Hg1) as (ctx2 & s2 & c2 & -> & Hc2 & Hh2 & Hb2 & Hr2); try done.
    + intros q Hq. apply Hpos. by right.
    + lia.
    + rewrite (fr_cap _ _ _ F1). lia.
    + intros q j Hq. apply Hrem. by right.
    + exists ctx2, s2, c2. splits; try done; [congruence|]. eapply recovers_cons; [apply Hg|done|done].
Qed.
End Single.

Lemma enqueue_total {T : Type} (x : T) q : queue_wf q -> exists rc q', enqueue x q = Done (rc, q') /\ queue_wf q'.
Proof.
  intros Hwf. pose proof (abs_bound q Hwf). destruct (decide (Z.of_nat (length (abs q)) = q_depth q - 1)) as [Hf|Hn].
  - exists (- EAGAIN), q. by rewrite enqueue_full.
  - destruct (enqueue_fifo q x Hwf) as (q1 & E1 & Hq & _); [lia|]. by exists 0, q1.
Qed.

(** ** Deletion of the snapshots the primary does not have *)
Section Delete.
Context (key : lmt_key) (ph : lmt_entry) (others : list Z) (Hph : snap_seq ph = 0).
Implicit Types (s : store) (c : chain).

Definition without (q : Z) (c : chain) : chain := List.filter (fun y => negb (snap_seq y =? q)) c.

Lemma filter_perm (f : lmt_entry -> bool) c : c ≡ₚ List.filter f c ++ List.filter (fun y => negb (f y)) c.
Proof.
  induction c as [|y c IH]; [done|]. simpl. destruct (f y); simpl; [by rewrite <- IH|]. rewrite <- Permutation_middle. by rewrite <- IH.
Qed.

Lemma without_perm c e : descending c -> e ∈ c -> c ≡ₚ e :: without (snap_seq e) c.
Proof.
  intros Hd He. rewrite (filter_perm (fun y => snap_seq y =? snap_seq e) c) at 1.
  rewrite (filter_single _ c e); [done|done| |].
  - clear He. induction Hd as [|z c Hd IH Hall]; constructor; [|done]. intros Hz. rewrite Forall_forall in Hall.
    specialize (Hall z Hz). unfold newer in Hall. lia.
  - intros y Hy. rewrite Z.eqb_eq. split; [|by intros ->]. intros E. by apply (desc_unique c).
Qed.

Lemma without_elem q c e : e ∈ without q c <-> e ∈ c /\ snap_seq e <> q.
Proof.
  unfold without. rewrite list_elem_of_In, List.filter_In, <- list_elem_of_In, negb_true_iff, Z.eqb_neq. done.
Qed.

Lemma block_without s c e :
  block_inv key ph 0 others s c -> e ∈ c ->
  forall p, pool_inv p (e_addr ph :: addrs (without (snap_seq e) c) ++ others) -> obj_count p = obj_count (lmt_entry_pool s) ->
  forall s', obj_lmt s' !! key = Some (ph :: without (snap_seq e) c) -> lmt_entry_pool s' = p ->
  free_obj_queue s' = free_obj_queue s -> same_geom (head s) (head s') -> quiet s' ->
  block_inv key ph 0 others s' (without (snap_seq e) c).
Proof.
  intros [B1 B2 B3 B4 B5 B6 B7 B8 B9] He p Hp Hc s' Hl Ep Ef Hg Hq. split; rewrite ?Ep, ?Ef; try done.
  - intros y Hy. apply without_elem in Hy as [Hy _]. by apply B2.
  - by apply descending_filter.
  - intros y Hy. apply without_elem in Hy as [Hy _]. by apply B4.
  - by rewrite Hc.
  - destruct B8 as (l & Hl8 & Hnd). rewrite (without_perm c e B3 He) in Hl8. csimpl in Hl8.
    assert (Hin : offset e ∈ obj_id_to_offset (head s) <$> l) by (rewrite <- Hl8; left).
    apply list_elem_of_fmap in Hin as (i & Hi & Hil). apply elem_of_Permutation in Hil as (l' & Hl').
    exists l'. split.
    + rewrite (same_geom_offset _ _ Hg). rewrite Hl' in Hl8. csimpl in Hl8. rewrite <- Hi in Hl8. by apply Permutation_cons_inv in Hl8.
    + rewrite Hl' in Hnd. by apply NoDup_cons in Hnd as [_ Hnd].
Qed.

Lemma delete_snap_ok s c e :
  block_inv key ph 0 others s c -> e ∈ c -> queue_wf (trim_obj_queue s) ->
  exists s', delete_obj_by_snap_seq key (snap_seq e) s = Done (0, s')
    /\ block_inv key ph 0 others s' (without (snap_seq e) c) /\ queue_wf (trim_obj_queue s')
    /\ block_frame key s s' /\ dev_data (dev s') = dev_data (dev s) /\ free_obj_queue s' = free_obj_queue s.
Proof using Hph.
  intros Hb He Ht. pose proof Hb as [B1 B2 B3 B4 B5 B6 B7 B8 B9]. unfold delete_obj_by_snap_seq, delete_matched. rewrite B1.
  pose proof (B2 e He) as Hpos. cbn [List.filter]. rewrite Hph, (proj2 (Z.eqb_neq 0 (snap_seq e))) by lia.
  pose proof (block_nodup _ _ _ _ _ _ Hb) as Hnd.
  assert (Ef : List.filter (fun y => snap_seq y =? snap_seq e) c = [e]).
  { apply filter_single; [done| |]; [apply (NoDup_fmap_1 e_addr); unfold addrs in Hnd; csimpl in Hnd; by apply NoDup_cons in Hnd as [_ ?]|].
    intros y Hy. rewrite Z.eqb_eq. split; [|by intros ->]. intros E. by apply (desc_unique c). }
  rewrite Ef. cbn [free_matched]. rewrite B1. simpl default.
  assert (Ec : List.filter (fun x => negb (e_addr x =? e_addr e)) (ph :: c) = ph :: without (snap_seq e) c).
  { cbn [List.filter]. unfold addrs in Hnd. csimpl in Hnd. apply NoDup_cons in Hnd as [Hn1 Hnd].
    rewrite (proj2 (Z.eqb_neq _ _)) by (intros E; apply Hn1; rewrite E; apply list_elem_of_fmap; by exists e). cbn [negb].
    f_equal. apply filter_ext_in. intros y Hy. f_equal. destruct (Z.eqb_spec (e_addr y) (e_addr e)) as [E|E].
    - rewrite (nodup_fmap_eq e_addr c y e Hnd Hy He E). by rewrite Z.eqb_refl.
    - symmetry. apply Z.eqb_neq. intros Es. by rewrite (desc_unique c y e B3 Hy He Es) in E. }
  rewrite Ec. set (s1 := with_lmt _ s). unfold free_object.
  destruct (enqueue_total (i32 (offset_to_obj_id (head s1) (offset e))) (trim_obj_queue s1) Ht) as (rc & q & -> & Hq). cbn [obind].
  assert (Hqt : quiet (with_trim q s1)) by done.
  destruct (log_item_quiet (TRIM_OBJ key e (q_tail (trim_obj_queue (with_trim q s1)))) _ Hqt) as (s2 & E2 & Hs2).
  unfold log_trim. rewrite E2. cbn [obind]. pose proof Hs2 as [G2 M2 L2 F2 T2 P2 D2 Q2]. rewrite P2.
  change (lmt_entry_pool (with_trim q s1)) with (lmt_entry_pool s).
  destruct (pool_free_spec (lmt_entry_pool s) (e_addr e) (e_addr ph :: addrs (without (snap_seq e) c) ++ others)) as (p & -> & Hp & Hc);
    [|done|].
  { eapply pool_inv_perm; [|exact B5]. unfold addrs. rewrite (without_perm c e B3 He) at 1. csimpl. apply Permutation_swap. }
  cbn [obind]. assert (El : obj_lmt s2 !! key = Some (ph :: without (snap_seq e) c)) by (rewrite L2; simpl; by rewrite lookup_insert_eq).
  simpl obj_lmt. rewrite El. eexists. split; [done|]. splits; try done.
  - by eapply block_without.
  - simpl. by rewrite T2.
  - split; simpl; [done|done|done|]. intros k Hk. rewrite L2. simpl. by rewrite lookup_insert_ne.
Qed.

Lemma delete_absent_ok primary local s c :
  block_inv key ph 0 others s c -> queue_wf (trim_obj_queue s) -> NoDup local -> (forall q, q ∈ local -> q ∈ snaps c) ->
  exists s' c', delete_absent key primary local s
      = Done (List.filter (fun q => negb (absent_on q (-1) (rev primary))) local, s')
    /\ block_inv key ph 0 others s' c' /\ queue_wf (trim_obj_queue s') /\ block_frame key s s'
    /\ dev_data (dev s') = dev_data (dev s) /\ free_obj_queue s' = free_obj_queue s
    /\ (forall e, e ∈ c' <-> e ∈ c /\ ~ (snap_seq e ∈ local /\ absent_on (snap_seq e) (-1) (rev primary) = true))
    /\ (length c' <= length c)%nat.
Proof using Hph.
  revert s c. induction local as [|q local IH]; intros s c Hb Ht Hnd Hin; cbn [delete_absent List.filter].
  - exists s, c. splits; try done; [apply frame_refl|]. intros e. split; [|by intros [? _]]. intros He. split; [done|].
    intros [H _]. by apply elem_of_nil in H.
  - apply NoDup_cons in Hnd as [Hq Hnd]. destruct (absent_on q (-1) (rev primary)) eqn:Ea; cbn [negb].
    + destruct (proj1 (elem_of_snaps q c) (Hin q ltac:(left))) as (e & He & <-).
      destruct (delete_snap_ok s c e Hb He Ht) as (s1 & -> & Hb1 & Ht1 & Hf1 & Hd1 & Hfr1). cbn [obind].
      destruct (IH s1 (without (snap_seq e) c) Hb1 Ht1 Hnd) as (s2 & c2 & -> & Hb2 & Ht2 & Hf2 & Hd2 & Hfr2 & Hc2 & Hl2).
      { intros q Hql. destruct (proj1 (elem_of_snaps q c) (Hin q ltac:(by right))) as (y & Hy & <-).
        apply elem_of_snaps. exists y. split; [|done]. apply without_elem. split; [done|]. intros E. by rewrite E in Hql. }
      exists s2, c2. splits; try done; [by eapply frame_trans|congruence|congruence| |].
      * intros y. rewrite Hc2, without_elem, elem_of_cons. split.
        -- intros [[Hy Hne] Hno]. split; [done|]. intros [[E|Hl] Ha]; [done|by apply Hno].
        -- intros [Hy Hno]. split; [split; [done|]|]; [intros E; apply Hno; rewrite E; split; [by left|done]|].
           intros [Hl Ha]. apply Hno. split; [by right|done].
      * pose proof (List.filter_length_le (fun y => negb (snap_seq y =? snap_seq e)) c). unfold without in Hl2. lia.
    + destruct (IH s c Hb Ht Hnd) as (s2 & c2 & -> & Hb2 & Ht2 & Hf2 & Hd2 & Hfr2 & Hc2 & Hl2); [intros; apply Hin; by right|].
      cbn [obind]. exists s2, c2. splits; try done. intros y. rewrite Hc2, elem_of_cons. split.
      * intros [Hy Hno]. split; [done|]. intros [[E|Hl] Ha]; [congruence|by apply Hno].
      * intros [Hy Hno]. split; [done|]. intros [Hl Ha]. apply Hno. split; [by right|done].
Qed.
End Delete.

(** ** The recovery of an object *)
Lemma absent_spec asc prev q :
  StronglySorted Z.lt asc -> Forall (Z.lt prev) asc ->
  absent_on q prev asc = true <-> (prev < q) /\ (q ∉ asc) /\ (exists p, p ∈ asc /\ q < p).
Proof.
  intros Hs. revert prev. induction Hs as [|p asc Hs IH Hall]; intros prev Hp; cbn [absent_on].
  - split; [done|]. intros (_ & _ & p & H & _). by apply elem_of_nil in H.
  - apply Forall_cons in Hp as [Hpp Hp]. destruct (Z.ltb_spec prev q), (Z.ltb_spec q p); cbn [andb].
    + split; [|done]. intros _. split; [lia|]. split; [|exists p; split; [left|done]].
      intros Hq. apply elem_of_cons in Hq as [->|Hq]; [lia|]. rewrite Forall_forall in Hall. specialize (Hall q Hq). lia.
    + rewrite IH by done. rewrite not_elem_of_cons. split.
      * intros (? & ? & x & ? & ?). split; [lia|]. split; [split; [lia|done]|]. exists x. split; [by right|done].
      * intros (? & [? ?] & x & Hx & ?). apply elem_of_cons in Hx as [->|Hx]; [lia|]. split; [lia|]. split; [done|by exists x].
    + rewrite IH by done. split; intros (? & ? & ?); lia.
    + rewrite IH by done. split; intros (? & ? & ?); lia.
Qed.

(** The chain of a block, empty when the block is not in the map. *)
Definition chain_at (s : store) (key : lmt_key) (c : chain) : Prop :=
  obj_lmt s !! key = match c with [] => None | _ => Some c end.

(** A block that can be recovered to the snapshots [P] of the primary: it is
    in order, its objects are done, the device works, and there are objects
    and entries for the snapshots. *)
Record recoverable (key : lmt_key) (a : Z) (others : list Z) (off N : Z) (P : list Z) (s : store) (c : chain) : Prop := mkRecoverable {
  rv_chain : chain_at s key c;
  rv_key : slba key = vol_offset_to_block_slba off (objsize_order (head s));
  rv_pos : forall e, e ∈ c -> 0 < snap_seq e;
  rv_desc : descending c;
  rv_normal : forall e, e ∈ c -> status e = NORMAL;
  rv_pool : pool_inv (lmt_entry_pool s) (a :: addrs c ++ others);
  rv_cap : 0 <= obj_count (lmt_entry_pool s);
  rv_free : queue_wf (free_obj_queue s);
  rv_trim : queue_wf (trim_obj_queue s);
  rv_ids : exists l, offset <$> c ≡ₚ obj_id_to_offset (head s) <$> l /\ NoDup (l ++ abs (free_obj_queue s));
  rv_quiet : quiet s;
  rv_geometry : geometry (head s) (in_obj_offset_mask s) off N;
  rv_primary : StronglySorted Z.lt (rev P) /\ forall q, q ∈ P -> 0 < q;
  rv_room : (length P <= length (abs (free_obj_queue s)))%nat
            /\ Z.of_nat (length c + length others + length P) < obj_count (lmt_entry_pool s)
}.

Section Series.
Context (remote : Z -> Z -> option (Z -> Z)) (sched : Z -> Z -> list nat) (last : Z -> list nat).
Context (key : lmt_key) (a : Z) (others : list Z) (off N : Z) (P : list Z).

Definition calm (_ : recovery_point) (s : store) : outcome store := Done s.

Lemma begun_block ph s c :
  recoverable key a others off N P s c -> e_addr ph = a ->
  block_inv key ph 0 others (with_lmt (<[key := ph :: c]> (obj_lmt s)) s) c.
Proof.
  intros [R1 R2 R3 R4 R5 R6 R7 R8 R9 R10 R11 R12 R13 R14] <-.
  split; try done; simpl; [by rewrite lookup_insert_eq|]. intros e He _. by apply R5.
Qed.

Lemma begin_ok n ph s c :
  recoverable key a others off N P s c -> e_addr ph = a -> 
  exists s1, begin_loop calm (S n) key ph s = Done s1 /\ block_inv key ph 0 others s1 c
    /\ obj_lmt s1 = <[key := ph :: c]> (obj_lmt s) /\ free_obj_queue s1 = free_obj_queue s
    /\ trim_obj_queue s1 = trim_obj_queue s /\ block_frame key s s1 /\ dev_data (dev s1) = dev_data (dev s).
Proof.
  intros Hr Ha. cbn [begin_loop]. exists (with_lmt (<[key := ph :: c]> (obj_lmt s)) s). split.
  - unfold recovery_begin. pose proof (rv_chain _ _ _ _ _ _ _ _ Hr) as R1. unfold chain_at in R1. rewrite R1.
    destruct c as [|e c]; [done|]. rewrite (rv_normal _ _ _ _ _ _ _ _ Hr e) by left. done.
  - splits; try done; [by apply begun_block|].
    split; simpl; [apply same_refl_geom|done|done|]. intros k Hk. by rewrite lookup_insert_ne.
Qed.

Lemma local_list ph s c :
  obj_lmt s !! key = Some (ph :: c) -> slba key = vol_offset_to_block_slba off (objsize_order (head s)) ->
  status ph = RECOVERYING -> offset ph = 0 -> get_snap_list (vol_id key) off s = snaps c.
Proof.
  intros Hl Hk Hs Ho. unfold get_snap_list. rewrite <- Hk. replace (mkKey (vol_id key) (slba key)) with key by (by destruct key).
  rewrite Hl, Hs, Ho. done.
Qed.

(** Nothing was written: the placeholder is taken away. *)
Lemma finish_empty ph b s c failed other :
  obj_lmt s !! key = Some (ph :: c) -> status ph = RECOVERYING -> recovery_bmp ph = Some b -> bitmap_is_empty b = Done true ->
  finish_recovery_object other key (e_addr ph) off failed s = Done (0, ph, with_lmt (put_chain key c (obj_lmt s)) s).
Proof.
  intros Hl Hs Hb He. unfold finish_recovery_object, finish_prepare, placeholder. rewrite Hl, Z.eqb_refl. cbn [obind].
  rewrite Hs, Hb. cbn [of_option obind bool_decide negb]. rewrite bool_decide_true by done. cbn [negb]. rewrite He. cbn [obind].
  by rewrite orb_true_r.
Qed.

Lemma snaps_nodup c : descending c -> NoDup (snaps c).
Proof.
  induction 1 as [|e c Hd IH Hall]; csimpl; constructor; [|done]. intros Hin. apply elem_of_snaps in Hin as (y & Hy & E).
  rewrite Forall_forall in Hall. specialize (Hall y Hy). unfold newer in Hall. lia.
Qed.

(** What a recovery leaves. *)
Record restored (s s' : store) (c c' : chain) : Prop := mkRestored {
  rs_chain : chain_at s' key c';
  rs_desc : descending c';
  rs_normal : forall e, e ∈ c' -> status e = NORMAL;
  rs_snaps : forall q, q ∈ snaps c' <-> q ∈ P \/ (q ∈ snaps c /\ (forall p, p ∈ P -> p < q));
  rs_data : forall q, q ∈ P -> exists e, e ∈ c' /\ snap_seq e = q
    /\ (recovered remote off N s' e q
        \/ exists e0, e0 ∈ c /\ shape e = shape e0 /\ unchanged s s' e0
             /\ q ∈ drop 2 (List.filter (fun x => negb (absent_on x (-1) (rev P))) (snaps c)));
  rs_other : forall k, k <> key -> obj_lmt s' !! k = obj_lmt s !! k;
  rs_out : forall z, (forall e, e ∈ c' -> z < offset e \/ offset e + objsize (head s) <= z) ->
           dev_data (dev s') z = dev_data (dev s) z
}.

Lemma to_recover q local :
  q ∈ rev (snap_to_recovery P local) <-> q ∈ P /\ q ∉ drop 2 local.
Proof.
  unfold snap_to_recovery. rewrite list_elem_of_In, <- List.in_rev, List.filter_In, <- list_elem_of_In, orb_true_iff, Z.ltb_lt, negb_true_iff,
    bool_decide_eq_false. split; intros [Hq Hd]; (split; [done|]).
  - destruct Hd as [Hl|]; [|done]. rewrite drop_ge by lia. apply not_elem_of_nil.
  - by right.
Qed.

Definition kept_snaps (c : chain) : list Z := List.filter (fun x => negb (absent_on x (-1) (rev P))) (snaps c).

Lemma kept_elem s c q :
  recoverable key a others off N P s c ->
  q ∈ kept_snaps c <-> q ∈ snaps c /\ (q ∈ P \/ (forall p, p ∈ P -> p < q)).
Proof.
  intros Hr. destruct (rv_primary _ _ _ _ _ _ _ _ Hr) as [Hs Hpos]. unfold kept_snaps.
  rewrite list_elem_of_In, List.filter_In, <- list_elem_of_In, negb_true_iff, <- not_true_iff_false.
  assert (Hrev : forall x, x ∈ rev P <-> x ∈ P) by (intros x; rewrite !list_elem_of_In; symmetry; apply List.in_rev).
  rewrite absent_spec; [|done|apply Forall_forall; intros x Hx; specialize (Hpos x (proj1 (Hrev x) Hx)); lia].
  split; intros [Hq H]; (split; [done|]).
  - destruct (decide (q ∈ P)) as [Hin|Hin]; [by left|]. right. intros p Hp.
    apply elem_of_snaps in Hq as (e & He & <-). pose proof (rv_pos _ _ _ _ _ _ _ _ Hr e He).
    destruct (decide (snap_seq e < p)) as [Hlt|]; [|destruct (decide (p = snap_seq e)) as [->|]; [done|lia]].
    destruct H. split; [lia|]. split; [by rewrite Hrev|]. exists p. by rewrite Hrev.
  - intros (_ & Hn & p & Hp & Hlt). rewrite Hrev in Hn, Hp. destruct H as [|H]; [done|]. specialize (H p Hp). lia.
Qed.

Lemma restored_intro s s2 s3 c c2 c3 :
  recoverable key a others off N P s c -> block_frame key s s2 -> dev_data (dev s2) = dev_data (dev s) ->
  (forall e, e ∈ c2 <-> e ∈ c /\ snap_seq e ∈ kept_snaps c) ->
  descending c3 -> (forall e, e ∈ c3 -> status e = NORMAL) ->
  recovers_all remote key off N (rev (snap_to_recovery P (kept_snaps c))) s2 s3 c2 c3 ->
  restored s (with_lmt (put_chain key c3 (obj_lmt s3)) s3) c c3.
Proof.
  intros Hr Hf Hd Hc2 Hdesc Hnorm [F T S Nw K O U].
  assert (Hsz : objsize (head s2) = objsize (head s)) by (destruct (fr_geom _ _ _ Hf) as (? & ? & ? & ->); done).
  assert (Hs2 : forall q, q ∈ snaps c2 <-> q ∈ kept_snaps c).
  { intros q. rewrite elem_of_snaps. split; [intros (e & He & <-); by apply Hc2|]. intros Hq.
    pose proof (proj1 (proj1 (kept_elem s c q Hr) Hq)) as Hqc. apply elem_of_snaps in Hqc as (e & He & <-).
    exists e. split; [by apply Hc2|done]. }
  assert (Hdrop : forall q, q ∈ drop 2 (kept_snaps c) -> q ∈ kept_snaps c).
  { intros q Hq. rewrite <- (take_drop 2 (kept_snaps c)). apply elem_of_app. by right. }
  split; simpl.
  - unfold chain_at, put_chain. simpl. destruct c3; [apply lookup_delete_eq|apply lookup_insert_eq].
  - done.
  - done.
  - intros q. rewrite S, to_recover, Hs2, (kept_elem s) by done. split; [tauto|]. intros [Hq|Hq]; [|tauto].
    destruct (decide (q ∈ drop 2 (kept_snaps c))) as [Hin|]; [|tauto]. apply Hdrop, (kept_elem s) in Hin; [tauto|done].
  - intros q Hq. destruct (decide (q ∈ drop 2 (kept_snaps c))) as [Hin|Hin].
    + pose proof (Hdrop q Hin) as Hk. apply Hs2, elem_of_snaps in Hk as (e & He & <-). destruct (K e He) as (e' & He' & Hsh).
      exists e'. split; [done|]. split; [by injection Hsh as _ _ ->|]. right. exists e. split; [by apply Hc2|].
      split; [done|]. split; [|done]. intros x Hx. simpl. rewrite O, Hd; [done|done|rewrite to_recover; tauto|lia].
    + destruct (Nw q) as (e & He & Hes & Hre); [by rewrite to_recover|]. exists e. split; [done|]. split; [done|]. by left.
  - intros k Hk. unfold put_chain. rewrite <- (fr_other _ _ _ Hf k Hk), <- (fr_other _ _ _ F k Hk).
    destruct c3; [by rewrite lookup_delete_ne|by rewrite lookup_insert_ne].
  - intros z Hz. rewrite U, Hd; [done|]. by rewrite Hsz.
Qed.

Lemma delete_kept c e :
  (e ∈ c /\ ~ (snap_seq e ∈ snaps c /\ absent_on (snap_seq e) (-1) (rev P) = true)) <-> e ∈ c /\ snap_seq e ∈ kept_snaps c.
Proof.
  unfold kept_snaps. rewrite (list_elem_of_In (List.filter _ _)), List.filter_In, <- list_elem_of_In, negb_true_iff.
  split; intros [He H]; (split; [done|]).
  - assert (Hs : snap_seq e ∈ snaps c) by (apply elem_of_snaps; by exists e). split; [done|].
    destruct (absent_on _ _ _); [|done]. by destruct H.
  - intros [_ Ha]. destruct H as [_ H]. congruence.
Qed.

Lemma to_recover_length local : (length (rev (snap_to_recovery P local)) <= length P)%nat.
Proof. rewrite length_rev. apply List.filter_length_le. Qed.
End Series.

(** ** Recovery in a state of a history *)
Lemma chain_entries s key c : chain_at s key c -> entries (obj_lmt s) ≡ₚ c ++ entries (delete key (obj_lmt s)).
Proof.
  unfold chain_at. destruct c as [|e c]; intros Hk; [by rewrite entries_delete_None|by apply entries_lookup].
Qed.

(** The offsets of a chain are those of objects that are not free. *)
Lemma store_ids s key c :
  store_ok s -> chain_at s key c ->
  (offset <$> c) = (obj_id_to_offset (head s) <$> (entry_id (head s) <$> c))
  /\ NoDup ((entry_id (head s) <$> c) ++ abs (free_obj_queue s)).
Proof.
  intros Hok Hc. pose proof (so_view _ Hok) as Hv. pose proof (chain_entries s key c Hc) as He. split.
  - rewrite <- list_fmap_compose. apply list_fmap_ext. intros i e Hi.
    assert (Hin : strip e ∈ entries (strip_map (obj_lmt s))).
    { rewrite entries_strip. apply elem_of_strip. exists e. split; [done|]. rewrite He. apply elem_of_app. left.
      by eapply list_elem_of_lookup_2. }
    exact (vo_aligned _ _ Hv _ Hin).
  - pose proof (vo_nodup _ _ Hv) as Hnd. unfold ids in Hnd. simpl in Hnd. rewrite entries_strip in Hnd.
    assert (E : entry_id (head s) <$> strip_chain (entries (obj_lmt s)) = entry_id (head s) <$> entries (obj_lmt s)).
    { unfold strip_chain. rewrite <- list_fmap_compose. done. }
    rewrite E, He, fmap_app in Hnd. rewrite (Permutation_app_comm (abs (trim_obj_queue s))), <- app_assoc, app_assoc in Hnd.
    apply NoDup_app in Hnd as (Hnd & _ & _). by rewrite Permutation_app_comm.
Qed.

Lemma store_recoverable key a p off N P s c :
  store_ok s -> chain_at s key c -> (forall e, e ∈ c -> 0 < snap_seq e /\ status e = NORMAL) ->
  slba key = vol_offset_to_block_slba off (objsize_order (head s)) -> quiet s ->
  geometry (head s) (in_obj_offset_mask s) off N -> StronglySorted Z.lt (rev P) -> (forall q, q ∈ P -> 0 < q) ->
  (length P <= length (abs (free_obj_queue s)))%nat -> pool_alloc (lmt_entry_pool s) = Done (Some a, p) ->
  recoverable key a (addrs (entries (delete key (obj_lmt s)))) off N P (with_pool p s) c.
Proof.
  intros Hok Hc Hent Hkey Hq Hg Hs Hpos Hroom Ha. pose proof (so_view _ Hok) as Hv. pose proof (chain_entries s key c Hc) as He.
  destruct (pool_ok_alloc _ _ (so_pool _ Hok) (store_pool_room _ Hok)) as (a' & p' & E & _ & Hinv & Hcap).
  rewrite Ha in E. assert (a' = a /\ p' = p) as [-> ->] by (by simplify_eq).
  pose proof (entries_bound _ _ Hv) as Hbound. simpl in Hbound. rewrite entries_strip_length, He, length_app in Hbound.
  pose proof (abs_bound _ (vo_free _ _ Hv)) as Hfree. pose proof (so_cap _ Hok) as Hdep.
  split; simpl; try done.
  - intros e Hin. by apply Hent.
  - unfold chain_at in Hc. destruct c as [|e c]; [constructor|by apply (chain_desc s key)].
  - intros e Hin. by apply Hent.
  - eapply pool_inv_perm; [|exact Hinv]. rewrite <- addrs_app. unfold addrs. by rewrite He.
  - rewrite Hcap. apply (so_pool _ Hok).
  - apply Hv.
  - apply Hv.
  - destruct (store_ids s key c Hok Hc) as [Ho Hnd]. eexists. split; [by rewrite Ho|done].
  - split; [done|]. unfold addrs. rewrite length_fmap, Hcap, Hdep. simpl in Hfree. lia.
Qed.

(** ** Properties *)


(** The block of the example history, which has snapshot 1, from a primary
    that has the snapshots 3 and 1. *)
Definition demo_a : Z := 1.
Definition demo_s : store := w_main Demo.w1.
Definition demo_pool : lmt_pool := match pool_alloc (lmt_entry_pool demo_s) with Done (_, p) => p | _ => lmt_entry_pool demo_s end.
Definition demo_chain : chain := default [] (obj_lmt demo_s !! Demo.key).
Definition demo_ctx : RecoveryContext := mkContext (recovery_head demo_a 131072) (replicate iodepth new_task) 512.
Definition demo_remote (q o : Z) : option (Z -> Z) := Some (fun x => q + o + x).

Lemma demo_recoverable :
  recoverable Demo.key demo_a (addrs (entries (delete Demo.key (obj_lmt demo_s)))) 0 512 [3; 1] (with_pool demo_pool demo_s) demo_chain.
Proof.
  assert (Hok : store_ok demo_s).
  { destruct (reachable_inv _ _ _ _ _ Demo.demo_fits Demo.reach1) as [(V0 & V1 & L1 & L2 & [Hok _ _ _]) _ _]. exact Hok. }
  apply store_recoverable; [exact Hok|vm_compute; reflexivity| |vm_compute; reflexivity|split; vm_compute; reflexivity| | | | |].
  - assert (E : (fun e => (snap_seq e, status e)) <$> demo_chain = [(1, NORMAL)]) by (vm_compute; reflexivity).
    intros e He. assert (Hin : (snap_seq e, status e) ∈ [(1, NORMAL)]) by (rewrite <- E; apply list_elem_of_fmap; exists e; split; [reflexivity|exact He]).
    apply list_elem_of_singleton in Hin. injection Hin as -> ->. split; [lia|reflexivity].
  - split; [vm_compute; congruence|vm_compute; reflexivity|vm_compute; reflexivity|vm_compute; reflexivity|exists 0; split; [lia|reflexivity]].
  - repeat constructor.
  - intros q Hq. apply elem_of_cons in Hq as [->|Hq]; [lia|]. apply list_elem_of_singleton in Hq as ->. lia.
  - assert (E : length (abs (free_obj_queue demo_s)) = 3%nat) by (vm_compute; reflexivity). rewrite E. simpl. lia.
  - vm_compute. reflexivity.
Qed.

