(* ===== verification/RecoveryFinish.v ===== *)
(** * Writes during a recovery, and recoveries that fail

    What [finish_recovery_object] makes of the data written while an object
    was recovered, and what the recovery leaves behind when it meets such a
    write at the wrong time, when a read fails or when the other store does
    not answer. *)

From Stdlib Require Import ZArith Lia Sorted.
From stdpp Require Import base tactics list numbers sets gmap.
From S2P Require Import Prelude FixedQueue MemPool Bitmap Ids Lmt Store RedoLog StoreOps Views OpSteps Boot BootSpec Handlers Crash History Recovery RecoveryProps.

(** ** The pending sectors *)
Section Pending.
Implicit Types (s : store) (bmp : PfBitmap) (buf d : Z -> Z).

(** [d] with the sectors of the bitmap below number [k] taken from the
    buffer. *)
Definition overlay bmp buf (base k : Z) d : Z -> Z := fun x =>
  if bool_decide (base <= x < base + k * SECTOR_SIZE) && bit_at (bits_data bmp) ((x - base) / SECTOR_SIZE)
  then buf (x - base) else d x.

Lemma overlay_0 bmp buf base d x : overlay bmp buf base 0 d x = d x.
Proof. unfold overlay. rewrite bool_decide_false by lia. done. Qed.

Lemma overlay_step bmp buf base i d x :
  0 <= i ->
  overlay bmp buf base (i + 1) d x
  = (if bit_at (bits_data bmp) i
     then memcpy_at (overlay bmp buf base i d) (base + i * SECTOR_SIZE) SECTOR_SIZE (fun y => buf (i * SECTOR_SIZE + y))
     else overlay bmp buf base i d) x.
Proof.
  intros Hi. unfold SECTOR_SIZE. set (a := base + i * 512).
  destruct (decide (a <= x < a + 512)) as [Hin|Hout].
  - assert (E : (x - base) / 512 = i) by (symmetry; apply (Z.div_unique _ _ _ (x - a)); lia).
    unfold overlay at 1, SECTOR_SIZE. rewrite bool_decide_true, E by lia. cbn [andb].
    destruct (bit_at (bits_data bmp) i).
    + rewrite memcpy_in by done. f_equal. lia.
    + unfold overlay, SECTOR_SIZE. rewrite bool_decide_false by lia. done.
  - assert (E : overlay bmp buf base (i + 1) d x = overlay bmp buf base i d x).
    { unfold overlay, SECTOR_SIZE. destruct (decide (base <= x < base + i * 512)) as [H|H].
      - rewrite !bool_decide_true by lia. done.
      - rewrite !bool_decide_false by lia. done. }
    rewrite E. destruct (bit_at _ i); [|done]. by rewrite memcpy_out.
Qed.

Lemma memcpy_ext (d d' : Z -> Z) (o n : Z) (b : Z -> Z) x : d x = d' x -> memcpy_at d o n b x = memcpy_at d' o n b x.
Proof. intros E. unfold memcpy_at. by destruct (_ && _). Qed.

Lemma write_pending_ok n i bmp buf base s d :
  dev_faults (dev s) = [] -> bitmap_wf bmp -> 0 <= i -> i + Z.of_nat n <= bit_count bmp ->
  (forall x, dev_data (dev s) x = overlay bmp buf base i d x) ->
  exists d', write_pending n i bmp buf base s = Done (0, with_data d' s)
    /\ forall x, d' x = overlay bmp buf base (i + Z.of_nat n) d x.
Proof.
  intros Hf Hwf. revert i s Hf. induction n as [|n IH]; intros i s Hf Hi Hn Hd; cbn [write_pending].
  - exists (dev_data (dev s)). rewrite with_data_id, Z.add_0_r. done.
  - rewrite (is_set_bit_at bmp i Hwf) by lia. cbn [obind].
    replace (i + Z.of_nat (S n)) with (i + 1 + Z.of_nat n) by lia.
    destruct (bit_at (bits_data bmp) i) eqn:Eb.
    + unfold sync_write, next_fault. rewrite Hf. cbn [negb Z.eqb].
      set (d1 := memcpy_at _ _ _ _). fold (with_data d1 s).
      destruct (IH (i + 1) (with_data d1 s)) as (d' & -> & Hd'); [done|lia|lia| |by exists d'].
      intros x. simpl. rewrite overlay_step, Eb by done. by apply memcpy_ext.
    + apply IH; [done|lia|lia|]. intros x. by rewrite overlay_step, Eb by done.
Qed.
End Pending.

(** ** The end of an object that was written to *)
Section Finish.
Context (key : lmt_key) (ph : lmt_entry) (others : list Z) (off N : Z) (bmp : PfBitmap) (buf : Z -> Z).
Context (Hbmp : recovery_bmp ph = Some bmp) (Hbuf : recovery_buf ph = Some buf) (Hwf : bitmap_wf bmp).
Implicit Types (s : store) (c : chain).

Lemma block_placeholder x s c : block_inv key ph x others s c -> placeholder key (e_addr ph) s = Done (ph, c).
Proof. intros Hb. unfold placeholder. by rewrite (bi_lmt _ _ _ _ _ _ Hb), Z.eqb_refl. Qed.

Lemma geometry_off h mask : geometry h mask off N -> offset_in_block off mask = 0.
Proof.
  intros Hg. pose proof io_size_pos as Hp. assert (HN : 0 < N).
  { pose proof (ge_chunks _ _ _ _ Hg) as H. rewrite (ge_size _ _ _ _ Hg) in H.
    pose proof (Z.pow_pos_nonneg 2 (objsize_order h) eq_refl (ge_order _ _ _ _ Hg)). nia. }
  pose proof (geometry_block h mask off N 0 Hg ltac:(lia)) as E. by rewrite Z.mul_0_l, Z.add_0_r in E.
Qed.

(** The second call: the pending sectors go to the newest object, which is
    then done. *)
Lemma finish_write_ok s d r :
  block_inv key ph (snap_seq d) others s (d :: r) -> geometry (head s) (in_obj_offset_mask s) off N ->
  exists s', finish_write key (e_addr ph) off s = Done (0, s')
    /\ obj_lmt s' = <[key := set_status NORMAL d :: r]> (obj_lmt s) /\ same_geom (head s) (head s')
    /\ forall x, dev_data (dev s') x = overlay bmp buf (offset d) (bit_count bmp) (dev_data (dev s)) x.
Proof using Hbmp Hbuf Hwf.
  intros Hb Hg. unfold finish_write. rewrite (block_placeholder _ _ _ Hb). cbn [obind]. rewrite Hbmp, Hbuf. cbn [of_option obind].
  rewrite (geometry_off _ _ Hg), Z.add_0_r. pose proof (bw_count _ Hwf) as Hc.
  destruct (write_pending_ok (Z.to_nat (bit_count bmp)) 0 bmp buf (offset d) s (dev_data (dev s))) as (d' & -> & Hd');
    [apply Hb|done|lia|lia|intros x; by rewrite overlay_0|]. rewrite Z.add_0_l, Z2Nat.id in Hd' by lia. cbn [obind negb Z.eqb].
  set (s1 := with_lmt _ _).
  destruct (log_item_quiet (STATUS_CHANGE key (set_status NORMAL d) (status d)) s1) as (s2 & E & Hs2); [apply Hb|].
  unfold log_status_change. rewrite E. cbn [obind]. eexists. split; [done|]. simpl.
  rewrite (sl_lmt _ _ Hs2), (sl_data _ _ Hs2). simpl. splits; [by rewrite insert_insert_eq|apply Hs2|done].
Qed.

(** The first call, when the newest object is older than the data written, or
    there is none. *)
Lemma finish_prepare_new s c :
  block_inv key ph 0 others s c -> status ph = RECOVERYING -> bitmap_is_empty bmp = Done false ->
  0 < snap_seq ph -> (forall e, e ∈ c -> snap_seq e < snap_seq ph) -> abs (free_obj_queue s) <> [] ->
  Z.of_nat (S (length c + length others)) < obj_count (lmt_entry_pool s) ->
  exists x s', finish_prepare key (e_addr ph) false s
      = Done (match c with [] => FinishReady | old :: _ => FinishCow (offset old) (offset x) end, s')
    /\ snap_seq x = snap_seq ph /\ block_inv key ph (snap_seq ph) others s' (x :: c) /\ block_frame key s s'
    /\ dev_data (dev s') = dev_data (dev s).
Proof using Hbmp.
  intros Hb Hst He Hpos Hold Hne Hroom. unfold finish_prepare. rewrite (block_placeholder _ _ _ Hb). cbn [obind].
  rewrite bool_decide_true by done. cbn [negb]. rewrite Hbmp. cbn [of_option obind]. rewrite He. cbn [obind orb].
  assert (Hnew : match c with [] => true | d :: _ => snap_seq d <? snap_seq ph end = true).
  { destruct c as [|d c']; [done|]. apply Z.ltb_lt, Hold. left. }
  rewrite Hnew, (not_true_is_false (is_empty (free_obj_queue s))) by (rewrite is_empty_nil; [done|apply Hb]).
  destruct (take_object key ph others s c (snap_seq ph) COPYING Hb Hne Hroom)
    as (x & s1 & -> & Hxs & Hxst & Hf1 & Hd1 & Ht1 & Hl1 & Hp1 & Hq1 & Hlen & id & l & Hxo & Hlo & Hnd). cbn [obind].
  assert (Hqt : quiet s1) by (unfold quiet; rewrite Hd1; apply Hb).
  destruct (log_item_quiet (ALLOCATE_OBJ key x (q_head (free_obj_queue s1))) s1 Hqt) as (s2 & E2 & Hs2).
  unfold log_allocation. rewrite E2. cbn [obind negb Z.eqb]. pose proof Hs2 as [G2 M2 L2 F2 T2 P2 D2 Q2].
  destruct Hb as [B1 B2 B3 B4 B5 B6 B7 B8 B9]. exists x, (with_lmt (<[key := ph :: x :: c]> (obj_lmt s2)) s2).
  split; [by destruct c|]. split; [done|]. split; [|split].
  - split; simpl.
    + by rewrite lookup_insert_eq.
    + intros e Hin. apply elem_of_cons in Hin as [->|Hin]; [lia|by apply B2].
    + constructor; [done|]. apply Forall_forall. intros e Hin. unfold newer. rewrite Hxs. by apply Hold.
    + intros e Hin Hs. apply elem_of_cons in Hin as [->|Hin]; [done|]. apply B4; [done|]. specialize (B2 e Hin). lia.
    + rewrite P2. eapply pool_inv_perm; [|exact Hp1]. apply Permutation_swap.
    + rewrite P2, (fr_cap _ _ _ Hf1). done.
    + by rewrite F2.
    + exists (id :: l). rewrite F2. split; [|done].
      rewrite (same_geom_offset _ _ G2), (same_geom_offset _ _ (fr_geom _ _ _ Hf1)). csimpl. by rewrite Hxo, Hlo.
    + done.
  - eapply frame_trans; [exact Hf1|]. eapply frame_trans; [by apply frame_log|]. split; simpl; [apply same_refl_geom|done|done|].
    intros k Hk. by rewrite lookup_insert_ne.
  - simpl. by rewrite D2, Hd1.
Qed.

(** The data of an object of [size] bytes after the pending sectors went on
    top of the data [d] has at [from]. *)
Definition overlaid (size : Z) (d' d : Z -> Z) (o from : Z) : Prop :=
  forall x, 0 <= x < size -> d' (o + x) = if bit_at (bits_data bmp) (x / SECTOR_SIZE) then buf x else d (from + x).

Lemma overlay_at size (d' d d0 : Z -> Z) o from :
  bit_count bmp * SECTOR_SIZE = size -> (forall x, d' x = overlay bmp buf o (bit_count bmp) d x) ->
  (forall x, 0 <= x < size -> d (o + x) = d0 (from + x)) -> overlaid size d' d0 o from.
Proof.
  intros Hs Hd Hb x Hx. rewrite Hd. unfold overlay. rewrite bool_decide_true by lia. replace (o + x - o) with x by lia. cbn [andb].
  destruct (bit_at _ _); [done|by apply Hb].
Qed.

Lemma overlay_out (d' d : Z -> Z) o x :
  (forall x, d' x = overlay bmp buf o (bit_count bmp) d x) -> x < o \/ o + bit_count bmp * SECTOR_SIZE <= x -> d' x = d x.
Proof. intros Hd Hx. rewrite Hd. unfold overlay. rewrite bool_decide_false by lia. done. Qed.

(** What the end of an object that was written to leaves: the newest object
    [d] has the snapshot of the writes. *)
Record finished s s' c (d : lmt_entry) (r : chain) : Prop := mkFinished {
  fi_chain : obj_lmt s' !! key = Some (d :: r);
  fi_seq : snap_seq d = snap_seq ph;
  fi_status : status d = NORMAL;
  fi_rest : r = match c with e :: c' => if snap_seq e =? snap_seq ph then c' else c | [] => [] end;
  fi_data : overlaid (objsize (head s)) (dev_data (dev s')) (dev_data (dev s)) (offset d)
              (match c with e :: _ => offset e | [] => offset d end);
  fi_old : forall e, e ∈ r -> unchanged s s' e;
  fi_other : forall k, k <> key -> obj_lmt s' !! k = obj_lmt s !! k
}.

Lemma finish_same s d r :
  block_inv key ph 0 others s (d :: r) -> geometry (head s) (in_obj_offset_mask s) off N -> status ph = RECOVERYING ->
  bit_count bmp * SECTOR_SIZE = objsize (head s) -> bitmap_is_empty bmp = Done false -> snap_seq d = snap_seq ph ->
  exists s', finish_recovery_object (fun s => Done s) key (e_addr ph) off false s = Done (0, ph, s')
    /\ finished s s' (d :: r) (set_status NORMAL d) r.
Proof using Hbmp Hbuf Hwf.
  intros Hb Hg Hst Hsz He Hs. unfold finish_recovery_object, finish_prepare. rewrite (block_placeholder _ _ _ Hb). cbn [obind].
  rewrite bool_decide_true by done. cbn [negb]. rewrite Hbmp. cbn [of_option obind]. rewrite He. cbn [obind orb].
  rewrite Hs, Z.ltb_irrefl. cbn [obind]. rewrite (block_placeholder _ _ _ Hb). cbn [obind].
  assert (Hb' : block_inv key ph (snap_seq d) others s (d :: r)) by (apply block_weaken; done).
  destruct (finish_write_ok s d r Hb' Hg) as (s' & -> & Hl & _ & Hd). cbn [obind]. exists s'. split; [done|].
  split; simpl; try done.
  - by rewrite Hl, lookup_insert_eq.
  - by rewrite Hs, Z.eqb_refl.
  - eapply overlay_at; [done|exact Hd|done].
  - intros e Hin x Hx. eapply overlay_out; [exact Hd|]. pose proof (bi_desc _ _ _ _ _ _ Hb) as Hdesc.
    inversion Hdesc as [|? ? _ Hall]; subst. rewrite Forall_forall in Hall. specialize (Hall e Hin). unfold newer in Hall.
    destruct (block_disjoint key ph 0 others s (d :: r) e d _ _ _ Hg Hb) as [H|H]; [by right|by left|lia|lia|lia].
  - intros k Hk. by rewrite Hl, lookup_insert_ne.
Qed.

(** The rest of the work once the object [x] has its base. *)
Lemma finish_tail s s2 c x :
  block_inv key ph (snap_seq x) others s2 (x :: c) -> geometry (head s2) (in_obj_offset_mask s2) off N ->
  bit_count bmp * SECTOR_SIZE = objsize (head s) -> snap_seq x = snap_seq ph ->
  c = match c with e :: c' => if snap_seq e =? snap_seq ph then c' else c | [] => [] end ->
  (forall e, e ∈ c -> offset e + objsize (head s) <= offset x \/ offset x + objsize (head s) <= offset e) ->
  (forall y, 0 <= y < objsize (head s) -> dev_data (dev s2) (offset x + y)
              = dev_data (dev s) (match c with e :: _ => offset e | [] => offset x end + y)) ->
  (forall y, y < offset x \/ offset x + objsize (head s) <= y -> dev_data (dev s2) y = dev_data (dev s) y) ->
  (forall k, k <> key -> obj_lmt s2 !! k = obj_lmt s !! k) ->
  exists s' d, (let* (p, _) := placeholder key (e_addr ph) s2 in
                let* (rc, s) := finish_write key (e_addr ph) off s2 in Done (rc, p, s)) = Done (0, ph, s')
    /\ finished s s' c d c.
Proof using Hbmp Hbuf Hwf.
  intros Hb2 Hg2 Hsz Hx Hrest Hdis Hin2 Hout2 Ho2. rewrite (block_placeholder _ _ _ Hb2). cbn [obind].
  destruct (finish_write_ok s2 x c Hb2 Hg2) as (s' & -> & Hl & _ & Hd). cbn [obind]. exists s', (set_status NORMAL x).
  split; [done|]. split; simpl; try done.
  - by rewrite Hl, lookup_insert_eq.
  - by eapply overlay_at.
  - intros e Hin y Hy. rewrite (overlay_out _ _ _ _ Hd) by (destruct (Hdis e Hin); lia). apply Hout2. destruct (Hdis e Hin); lia.
  - intros k Hk. rewrite Hl, lookup_insert_ne by done. by apply Ho2.
Qed.

Lemma finish_new s c :
  block_inv key ph 0 others s c -> geometry (head s) (in_obj_offset_mask s) off N -> status ph = RECOVERYING ->
  bit_count bmp * SECTOR_SIZE = objsize (head s) -> bitmap_is_empty bmp = Done false -> 0 < snap_seq ph ->
  (forall e, e ∈ c -> snap_seq e < snap_seq ph) -> abs (free_obj_queue s) <> [] ->
  Z.of_nat (S (length c + length others)) < obj_count (lmt_entry_pool s) ->
  exists s' d, finish_recovery_object (fun s => Done s) key (e_addr ph) off false s = Done (0, ph, s')
    /\ finished s s' c d c.
Proof using Hbmp Hbuf Hwf.
  intros Hb Hg Hst Hsz He Hpos Hold Hne Hroom. unfold finish_recovery_object. rewrite (block_placeholder _ _ _ Hb). cbn [obind].
  destruct (finish_prepare_new s c Hb Hst He Hpos Hold Hne Hroom) as (x & s1 & -> & Hx & Hb1 & Hf1 & Hd1). cbn [obind].
  assert (Hg1 : geometry (head s1) (in_obj_offset_mask s1) off N).
  { rewrite (fr_mask _ _ _ Hf1). eapply geometry_same; [apply Hf1|done]. }
  assert (Ho1 : objsize (head s1) = objsize (head s)) by (destruct (fr_geom _ _ _ Hf1) as (? & ? & ? & ->); done).
  assert (Hdis : forall e, e ∈ c -> offset e + objsize (head s) <= offset x \/ offset x + objsize (head s) <= offset e).
  { intros e Hin. rewrite <- Ho1. apply (block_disjoint key ph (snap_seq ph) others s1 (x :: c) e x _ _ _ Hg1 Hb1);
      [by right|by left|]. specialize (Hold e Hin). lia. }
  assert (Hrest : c = match c with e :: c' => if snap_seq e =? snap_seq ph then c' else c | [] => [] end).
  { destruct c as [|e c']; [done|]. specialize (Hold e ltac:(left)). rewrite (proj2 (Z.eqb_neq _ _)) by lia. done. }
  rewrite <- Hx in Hb1. destruct c as [|old c'].
  - apply (finish_tail s s1 [] x); try done; [intros y Hy; by rewrite Hd1|intros y Hy; by rewrite Hd1|apply Hf1].
  - unfold sync_read, next_fault. rewrite (proj1 (bi_quiet _ _ _ _ _ _ Hb1)). cbn [negb Z.eqb]. unfold sync_write, next_fault.
    rewrite (proj1 (bi_quiet _ _ _ _ _ _ Hb1)). cbn [negb Z.eqb]. set (d2 := memcpy_at _ _ _ _). fold (with_data d2 s1).
    apply (finish_tail s (with_data d2 s1) (old :: c') x); try done.
    + by apply block_data.
    + intros y Hy. simpl. unfold d2. rewrite memcpy_in by lia. rewrite Hd1. f_equal. lia.
    + intros y Hy. simpl. unfold d2. rewrite memcpy_out by lia. by rewrite Hd1.
    + apply Hf1.
Qed.
End Finish.

(** ** Properties *)

(** C13 (writes during a recovery): when a recovery ends and writes with
    snapshot [snap_seq ph] came in meanwhile, the newest object of the block
    is one of that snapshot, and is done.  Each of its sectors that was
    written holds the data written last; every other sector holds what the
    newest object held before (the object itself, or the one it was copied
    from).  The older objects and the other blocks are as they were. *)
Theorem finish_overlays key ph others off N bmp buf s c :
  block_inv key ph 0 others s c -> geometry (head s) (in_obj_offset_mask s) off N ->
  recovery_bmp ph = Some bmp -> recovery_buf ph = Some buf -> bitmap_wf bmp -> status ph = RECOVERYING ->
  bit_count bmp * SECTOR_SIZE = objsize (head s) -> bitmap_is_empty bmp = Done false -> 0 < snap_seq ph ->
  (forall e, e ∈ c -> snap_seq e <= snap_seq ph) -> abs (free_obj_queue s) <> [] ->
  Z.of_nat (S (length c + length others)) < obj_count (lmt_entry_pool s) ->
  exists s' d r, finish_recovery_object (fun s => Done s) key (e_addr ph) off false s = Done (0, ph, s')
    /\ finished key ph bmp buf s s' c d r.
Proof.
  intros Hb Hg Hbmp Hbuf Hwf Hst Hsz He Hpos Hle Hne Hroom.
  assert (Hnew : (forall e, e ∈ c -> snap_seq e < snap_seq ph) \/ exists d r, c = d :: r /\ snap_seq d = snap_seq ph).
  { destruct c as [|d r]; [left; intros e H; by apply elem_of_nil in H|].
    destruct (decide (snap_seq d = snap_seq ph)) as [E|E]; [right; by exists d, r|]. left. intros e Hin.
    pose proof (bi_desc _ _ _ _ _ _ Hb) as Hd. inversion Hd as [|? ? _ Hall]; subst. rewrite Forall_forall in Hall.
    specialize (Hle d ltac:(left)). apply elem_of_cons in Hin as [->|Hin]; [lia|]. specialize (Hall e Hin). unfold newer in Hall. lia. }
  destruct Hnew as [Hnew|(d & r & -> & E)].
  - destruct (finish_new key ph others off N bmp buf Hbmp Hbuf Hwf s c) as (s' & d & H1 & H2); try done. by exists s', d, c.
  - destruct (finish_same key ph others off N bmp buf Hbmp Hbuf Hwf s d r) as (s' & H1 & H2); try done. by eexists s', _, r.
Qed.

(** A write of snapshot 3 came in while the block of the example history,
    which has snapshot 1, was recovered. *)
Definition demo_bmp : PfBitmap := match set_bit 40 (new_bitmap 131072) with Done b => b | _ => new_bitmap 0 end.
Definition demo_ph : lmt_entry := mkEntry demo_a 0 3 RECOVERYING [] (Some demo_bmp) (Some (fun x => 1000 + x)).

Lemma demo_bmp_wf : bitmap_wf demo_bmp.
Proof.
  assert (Hn : bitmap_wf (new_bitmap 131072)).
  { split; [vm_compute; split; congruence|vm_compute; reflexivity|]. apply Forall_replicate. vm_compute. split; congruence. }
  destruct (set_bit_spec (new_bitmap 131072) 40 Hn) as (b & E & Hb & _ & _); [vm_compute; split; congruence|].
  unfold demo_bmp. rewrite E. exact Hb.
Qed.

Definition demo_others : list Z := addrs (entries (delete Demo.key (obj_lmt demo_s))).
Definition demo_begun (ph : lmt_entry) : store :=
  with_lmt (<[Demo.key := ph :: demo_chain]> (obj_lmt (with_pool demo_pool demo_s))) (with_pool demo_pool demo_s).

Lemma demo_block ph : e_addr ph = demo_a -> block_inv Demo.key ph 0 demo_others (demo_begun ph) demo_chain.
Proof.
  intros Ha. exact (begun_block _ _ _ _ _ _ ph _ _ demo_recoverable Ha).
Qed.

Lemma lmt_geometry key a others off N P s c m :
  recoverable key a others off N P s c -> geometry (head (with_lmt m s)) (in_obj_offset_mask (with_lmt m s)) off N.
Proof. intros Hr. apply Hr. Qed.

Lemma demo_geometry ph : geometry (head (demo_begun ph)) (in_obj_offset_mask (demo_begun ph)) 0 512.
Proof. unfold demo_begun. exact (lmt_geometry _ _ _ _ _ _ _ _ _ demo_recoverable). Qed.

Lemma demo_snaps : snaps demo_chain = [1].
Proof. vm_compute. reflexivity. Qed.

Lemma demo_free ph : abs (free_obj_queue (demo_begun ph)) <> [].
Proof.
  assert (E : length (abs (free_obj_queue (demo_begun ph))) = 3%nat) by (vm_compute; reflexivity). intros H.
  rewrite H in E. discriminate E.
Qed.

Lemma demo_pool_room ph : Z.of_nat (S (length demo_chain + length demo_others)) < obj_count (lmt_entry_pool (demo_begun ph)).
Proof. vm_compute. reflexivity. Qed.

Lemma finish_overlays_witness :
  exists s' d r, finish_recovery_object (fun s => Done s) Demo.key demo_a 0 false (demo_begun demo_ph) = Done (0, demo_ph, s')
    /\ obj_lmt s' !! Demo.key = Some (d :: r) /\ snap_seq d = 3 /\ status d = NORMAL.
Proof.
  destruct (finish_overlays Demo.key demo_ph demo_others 0 512 demo_bmp (fun x => 1000 + x) (demo_begun demo_ph) demo_chain)
    as (s' & d & r & E & Hf);
    [apply demo_block; reflexivity|apply demo_geometry|reflexivity|reflexivity|apply demo_bmp_wf|reflexivity|vm_compute; reflexivity
    |vm_compute; reflexivity|vm_compute; reflexivity| |apply demo_free|apply demo_pool_room|].
  - intros e He. assert (H : snap_seq e ∈ snaps demo_chain) by (apply elem_of_snaps; exists e; split; [exact He|reflexivity]).
    rewrite demo_snaps in H. apply list_elem_of_singleton in H. rewrite H. vm_compute. congruence.
  - exists s', d, r. split; [exact E|]. split; [apply (fi_chain _ _ _ _ _ _ _ _ _ Hf)|].
    split; [apply (fi_seq _ _ _ _ _ _ _ _ _ Hf)|apply (fi_status _ _ _ _ _ _ _ _ _ Hf)].
Defined.

(** A write before its snapshot is recovered: the first write of
    snapshot [seq] during a recovery gives the placeholder that number; when
    the recovery then comes to the object of this snapshot and the block does
    not have it, the insertion of the new entry meets the placeholder as a
    duplicate, and the process ends with FATAL. *)
Theorem recovery_meets_write remote sched last key ph others off s c ctx :
  block_inv key ph 0 others s c -> 0 < snap_seq ph -> (snap_seq ph ∉ snaps c) -> ctx_ok (e_addr ph) ctx ->
  abs (free_obj_queue s) <> [] -> Z.of_nat (S (length c + length others)) < obj_count (lmt_entry_pool s) ->
  recovery_single_object_entry remote sched last ctx key (snap_seq ph) off s = Fatal.
Proof.
  intros Hb Hpos Hno Hctx Hne Hroom. unfold recovery_single_object_entry. rewrite (co_addr _ _ Hctx), (block_placeholder _ _ _ _ _ _ Hb).
  cbn [obind]. destruct (List.find _ c) as [e|] eqn:Ef.
  { apply List.find_some in Ef as [He Hs]. apply list_elem_of_In in He. apply Z.eqb_eq in Hs. destruct Hno. apply elem_of_snaps. by exists e. }
  unfold recovery_alloc. rewrite (not_true_is_false (is_empty (free_obj_queue s))) by (rewrite is_empty_nil; [done|apply Hb]).
  destruct (take_object key ph others s c (snap_seq ph) RECOVERYING Hb Hne Hroom)
    as (x & s1 & -> & Hxs & _ & _ & Hd1 & _ & Hl1 & _ & _ & _ & _). cbn [obind].
  assert (Hqt : quiet s1) by (unfold quiet; rewrite Hd1; apply Hb).
  destruct (log_item_quiet (ALLOCATE_OBJ key x (q_head (free_obj_queue s1))) s1 Hqt) as (s2 & E2 & Hs2).
  unfold log_allocation. rewrite E2. cbn [obind negb Z.eqb]. unfold placeholder.
  rewrite (sl_lmt _ _ Hs2), Hl1, (bi_lmt _ _ _ _ _ _ Hb), Z.eqb_refl. cbn [obind chain_insert].
  unfold same_recov at 1. rewrite (proj2 (Z.eqb_neq (snap_seq ph) 0)), Z.eqb_refl by lia. done.
Qed.

Lemma recovery_meets_write_witness :
  recovery_single_object_entry demo_remote (fun _ _ => []) (fun _ => []) demo_ctx Demo.key 3 0 (demo_begun demo_ph) = Fatal.
Proof.
  apply (recovery_meets_write demo_remote (fun _ _ => []) (fun _ => []) Demo.key demo_ph demo_others 0 (demo_begun demo_ph)
           demo_chain demo_ctx); [apply demo_block; reflexivity|vm_compute; reflexivity| | |apply demo_free|apply demo_pool_room].
  - rewrite demo_snaps. intros H. apply list_elem_of_singleton in H. discriminate H.
  - split; [reflexivity|repeat constructor|reflexivity|vm_compute; congruence].
Defined.

(** A failed read: when a read of a chunk from the primary fails, the
    recovery of the snapshot returns -EIO, and yet the object is in the chain
    of the block with status NORMAL, as if it were complete. *)
Theorem failed_read_marked_normal remote sched last key ph others off N seq s c ctx :
  block_inv key ph 0 others s c -> snap_seq ph = 0 -> geometry (head s) (in_obj_offset_mask s) off N -> 0 < seq ->
  ctx_ok (e_addr ph) ctx -> abs (free_obj_queue s) <> [] ->
  Z.of_nat (S (length c + length others)) < obj_count (lmt_entry_pool s) ->
  (exists j, 0 <= j < N /\ remote seq (off + j * RECOVERY_IO_SIZE) = None) ->
  exists ctx' s' c' e, recovery_single_object_entry remote sched last ctx key seq off s = Done (- EIO, ctx', s')
    /\ block_inv key ph 0 others s' c' /\ e ∈ c' /\ snap_seq e = seq /\ status e = NORMAL.
Proof.
  intros Hb Hph Hg Hseq [C1 C2 C3 C4] Hne Hroom Hbadr. unfold recovery_single_object_entry.
  rewrite C1, (block_placeholder _ _ _ _ _ _ Hb). cbn [obind]. fold (find_target_entry key ph seq s c).
  destruct (target_ok key ph others Hph seq s c Hb Hseq ltac:(done)) as (e & s1 & c1 & -> & Hb1 & He & Hes & Hf1 & _).
  cbn [obind negb Z.eqb]. pose proof (geometry_same _ _ _ _ _ (fr_geom _ _ _ Hf1) Hg) as Hg1.
  rewrite <- (fr_mask _ _ _ Hf1) in Hg1. rewrite (ge_chunks _ _ _ _ Hg1), Z.div_mul by done.
  assert (HN : 0 <= N) by (destruct Hbadr as (j & Hj & _); lia).
  destruct (read_object_ok remote key (e_addr e) seq off N (io_bds ctx) e s1 (block_find _ _ _ _ _ _ _ Hb1 He) Hes
              (proj1 (bi_quiet _ _ _ _ _ _ Hb1)) (fun j Hj => geometry_block _ _ _ _ j Hg1 Hj) C4 (sched seq) (last seq)
              (task_queue ctx) HN C2 C3) as (p & d & E & _ & _ & _ & _ & _ & Hbad & _).
  rewrite with_data_id in E. rewrite E. cbn [obind]. clear E. rewrite (proj2 Hbad Hbadr).
  destruct (recovery_end_ok key ph seq others (with_data d s1) c1 e) as (s2 & c2 & -> & Hb2 & Hsh & _);
    [by apply block_data|done|done|]. cbn [obind negb Z.eqb].
  destruct (shape_elem c1 c2 e Hsh He) as (e' & He' & Hse). injection Hse as _ _ Hss. eexists _, s2, c2, e'.
  splits; [done|done|done|congruence|]. apply (bi_normal _ _ _ _ _ _ Hb2); [done|]. lia.
Qed.

Definition demo_ph0 : lmt_entry := recovery_head demo_a 131072.

(** The read of chunk 7 fails. *)
Definition failing_remote (q o : Z) : option (Z -> Z) := if o =? 7 * RECOVERY_IO_SIZE then None else demo_remote q o.

Lemma failed_read_marked_normal_witness :
  exists ctx' s' (c' : chain) e, recovery_single_object_entry failing_remote (fun _ _ => []) (fun _ => []) demo_ctx Demo.key 3 0
      (demo_begun demo_ph0) = Done (- EIO, ctx', s') /\ e ∈ c' /\ snap_seq e = 3 /\ status e = NORMAL.
Proof.
  destruct (failed_read_marked_normal failing_remote (fun _ _ => []) (fun _ => []) Demo.key demo_ph0 demo_others 0 512 3
              (demo_begun demo_ph0) demo_chain demo_ctx) as (ctx' & s' & c' & e & E & _ & He & Hs & Hn);
    [apply demo_block; reflexivity|reflexivity|apply demo_geometry|lia| |apply demo_free|apply demo_pool_room| |].
  - split; [reflexivity|repeat constructor|reflexivity|vm_compute; congruence].
  - exists 7. split; [lia|reflexivity].
  - exists ctx', s', c', e. split; [exact E|]. split; [exact He|]. split; [exact Hs|exact Hn].
Defined.

(** An unanswered query: when the other store does not answer the query
    for its snapshots, the recovery of the replica returns -1, and the
    placeholder is still the head of the chain of the block although its
    memory has been given back to the pool of entries. *)
Theorem unanswered_query_dangles remote sched last rep size n bds s c :
  let off := Z.shiftl (SHARD_INDEX rep) SHARD_SIZE_ORDER in
  let key := mkKey (VOLUME_ID rep) (vol_offset_to_block_slba off (objsize_order (head s))) in
  0 < Z.quot (Z.min SHARD_SIZE (size - SHARD_INDEX rep * SHARD_SIZE)) (objsize (head s)) ->
  chain_at s key c -> (forall e, e ∈ c -> status e = NORMAL) -> pool_ok (obj_lmt s) (lmt_entry_pool s) ->
  Z.of_nat (length (entries (obj_lmt s))) < obj_count (lmt_entry_pool s) ->
  exists s' ph, recovery_replica remote (fun _ _ => None) sched last calm (S n) rep (Some size) bds (objsize (head s)) s
      = Done (-1, s')
    /\ obj_lmt s' !! key = Some (ph :: c) /\ e_addr ph ∈ abs (free_objs (lmt_entry_pool s')).
Proof.
  intros off key Hcnt Hc Hn Hp Hroom. destruct (pool_ok_alloc _ _ Hp Hroom) as (a & p & Ha & Hnew & Hinv & Hcap).
  unfold recovery_replica. rewrite Z.eqb_refl. cbn [negb]. rewrite Ha. cbn [obind].
  destruct (Z.to_nat _) as [|k] eqn:Ek; [lia|]. cbn [recovery_loop]. rewrite Z.mul_0_r, Z.add_0_r.
  change (head (with_pool p s)) with (head s). fold off key. unfold recovery_object_series. cbn [begin_loop].
  set (ph := reset_head _).
  assert (Eb : recovery_begin key ph (with_pool p s) = Done (0, with_lmt (<[key := ph :: c]> (obj_lmt s)) (with_pool p s))).
  { unfold recovery_begin. simpl obj_lmt. unfold chain_at in Hc. rewrite Hc. destruct c as [|e c']; [done|]. by rewrite (Hn e) by left. }
  rewrite Eb. cbn [obind Z.eqb calm negb].
  destruct (pool_free_spec p a (addrs (entries (obj_lmt s))) Hinv) as (p' & Hfree & Hinv' & Hcap'); [rewrite Hcap; apply Hp|].
  cbn [lmt_entry_pool with_lmt with_pool]. rewrite Hfree. cbn [obind]. eexists _, ph. split; [done|]. split; [apply lookup_insert_eq|].
  change (e_addr ph) with a. simpl. pose proof (pi_perm _ _ Hinv') as Hperm. pose proof (pi_perm _ _ Hinv) as Hperm0.
  assert (Hin : a ∈ fifo_list (free_objs p') ++ addrs (entries (obj_lmt s))).
  { rewrite Hperm, Hcap', <- Hperm0. apply elem_of_app. right. left. }
  apply elem_of_app in Hin as [Hin|Hin]; [exact Hin|done].
Qed.

Lemma unanswered_query_dangles_witness :
  exists s' ph, recovery_replica demo_remote (fun _ _ => None) (fun _ _ => []) (fun _ => []) calm 1 Demo.rep (Some DEFAULT_OBJ_SIZE) 512
      (objsize (head demo_s)) demo_s = Done (-1, s')
    /\ obj_lmt s' !! Demo.key = Some (ph :: demo_chain) /\ e_addr ph ∈ abs (free_objs (lmt_entry_pool s')).
Proof.
  apply (unanswered_query_dangles demo_remote (fun _ _ => []) (fun _ => []) Demo.rep DEFAULT_OBJ_SIZE 0 512 demo_s demo_chain).
  - vm_compute. reflexivity.
  - vm_compute. reflexivity.
  - intros e He. exact (rv_normal _ _ _ _ _ _ _ _ demo_recoverable e He).
  - destruct (reachable_inv _ _ _ _ _ Demo.demo_fits Demo.reach1) as [(V0 & V1 & L1 & L2 & [Hok _ _ _]) _ _]. apply Hok.
  - vm_compute. reflexivity.
Defined.
