(* ===== verification/StoreProps.v ===== *)
(** * Properties of the flash store

    What every state of a history (History.v) satisfies, and what each
    handler does in such a state. *)

From Stdlib Require Import ZArith Lia.
From stdpp Require Import base tactics list numbers sets gmap sorting.
From S2P Require Import Prelude FixedQueue MemPool Bitmap Ids Lmt Store RedoLog StoreOps Views OpSteps Boot.
From S2P Require Import BootSpec Handlers Crash History.

Section Props.
Context (id cap meta : Z) (scc : bool) (Hfits : fits cap meta).
Implicit Types (w : world) (s : store) (c : chain) (e : lmt_entry).

(** ** Crashes *)



Lemma idle_room w n :
  reach_inv id cap meta w -> to_run_compact (w_main w) = COMPACT_IDLE ->
  LBA_LENGTH * Z.of_nat n < REDO_LOG_SIZE -> room_n n (w_main w).
Proof.
  intros [(V0 & V1 & L1 & L2 & [Hok Hd Hc Ht]) (md & rl & ph & Hg) _] Hi Hn.
  destruct Hc as [(_ & _ & Hl & _)|(Hto & _)]; [|rewrite Hi in Hto; discriminate].
  unfold room_n. rewrite Hl, Hi. simpl. split; [by rewrite Hg|by right].
Qed.

(** C11 (liveness): the compaction, run in any state of a history, ends with
    nothing pending and the metadata in memory as they were; the log then
    has room for any number of items that fits a zone. *)
Theorem compaction_makes_room w :
  reachable id cap meta scc w ->
  exists w', run_handler HCompact w = Done w' /\ to_run_compact (w_main w') = COMPACT_IDLE
    /\ view_of (w_main w') = view_of (w_main w)
    /\ (forall n, LBA_LENGTH * Z.of_nat n < REDO_LOG_SIZE -> room_n n (w_main w')).
Proof using Hfits.
  intros Hr%reachable_inv; [|done]. pose proof (ri_proto _ _ _ _ Hr) as Hp. cbn [run_handler].
  destruct (decide (to_run_compact (w_main w) = COMPACT_TODO)) as [E|E].
  - destruct (proto_compact w Hp E) as (w' & Hc & Hp' & Hv & Hg' & Hi). rewrite Hc. cbn [obind].
    exists w'. splits; [done|done|done|]. intros n. apply idle_room; [|done].
    eapply kept_inv; [exact Hr|by apply same_view_kept].
  - rewrite (compact_idle w E). cbn [obind]. assert (Hi : to_run_compact (w_main w) = COMPACT_IDLE).
    { destruct Hp as (V0 & V1 & L1 & L2 & [_ _ [(_ & ? & _)|(? & _)] _]); [done|congruence]. }
    exists w. splits; [done|done|done|]. intros n. by apply idle_room.
Qed.

(** ** Objects *)

(** The objects of a store, by number: those of entries, those waiting to
    be trimmed and the free ones. *)
Definition objects w : list Z := ids (head (w_main w)) (view_of (w_main w)).

(** C3 (invariant): no handler loses, duplicates or shares an object: the
    objects of entries, of the trim queue and of the free queue together are
    the same before and after. *)
Theorem objects_conserved h w w' :
  reachable id cap meta scc w -> enabled h w -> run_handler h w = Done w' -> objects w' ≡ₚ objects w.
Proof using Hfits.
  intros Hr%reachable_inv He Hrun; [|done]. destruct (handler_kept id cap meta h w Hr He) as (w0 & E & Hk).
  rewrite Hrun in E. injection E as <-. apply (kp_ids _ _ Hk).
Qed.

Lemma reach_view w : reach_inv id cap meta w -> view_ok (head (w_main w)) (view_of (w_main w)).
Proof. intros [(V0 & V1 & L1 & L2 & [Hok _ _ _]) _ _]. apply Hok. Qed.

Lemma ids_geom w w' v :
  reach_inv id cap meta w -> reach_inv id cap meta w' -> ids (head (w_main w')) v = ids (head (w_main w)) v.
Proof. intros [_ (? & ? & ? & E) _] [_ (? & ? & ? & E') _]. by rewrite E, E'. Qed.

Lemma filter_split (f : lmt_entry -> bool) c : c ≡ₚ List.filter (fun e => negb (f e)) c ++ List.filter f c.
Proof.
  induction c as [|e c IH]; [done|]. simpl. destruct (f e); simpl.
  - by rewrite <- Permutation_middle, <- IH.
  - by rewrite <- IH.
Qed.

Lemma entry_id_strip h c : entry_id h <$> strip_chain c = entry_id h <$> c.
Proof. unfold strip_chain. by rewrite <- list_fmap_compose. Qed.

(** What [post_load_fix] leaves out of the accounts. *)
Lemma ids_fix h s :
  ids h (view_of s) ≡ₚ ids h (fix_view (view_of s)) ++ (entry_id h <$> List.filter unfinished (entries (obj_lmt s))).
Proof.
  unfold ids. simpl. rewrite entries_fix, entries_strip. unfold fix_chain.
  rewrite strip_filter by done. rewrite !entry_id_strip, <- !app_assoc, <- fmap_app. by rewrite <- filter_split.
Qed.


Lemma entry_facts w :
  reach_inv id cap meta w -> let s := w_main w in
  NoDup (entry_id (head s) <$> entries (obj_lmt s))
  /\ forall e, e ∈ entries (obj_lmt s) ->
       0 <= entry_id (head s) e < new_obj_count cap meta
       /\ offset e = entry_id (head s) e * DEFAULT_OBJ_SIZE + meta.
Proof.
  intros Hr s. pose proof (reach_view w Hr) as Hv.
  assert (Hp : entry_id (head s) <$> entries (v_lmt (view_of s)) ≡ₚ entry_id (head s) <$> entries (obj_lmt s)).
  { simpl. by rewrite entries_strip, entry_id_strip. }
  split.
  - rewrite <- Hp. pose proof (vo_nodup _ _ Hv) as Hnd. unfold ids in Hnd.
    apply NoDup_app in Hnd as (_ & _ & Hnd). by apply NoDup_app in Hnd as (_ & _ & Hnd).
  - intros e He. assert (Hi : entry_id (head s) e ∈ ids (head s) (view_of s)).
    { unfold ids. rewrite !elem_of_app. right. right. rewrite Hp. by apply list_elem_of_fmap_2. }
    apply (vo_range _ _ Hv) in Hi. simpl in Hi. rewrite (ri_depth _ _ _ _ Hr) in Hi. split; [lia|].
    assert (Ha : aligned (head s) (strip e)).
    { apply (vo_aligned _ _ Hv). simpl. rewrite entries_strip. by apply list_elem_of_fmap_2. }
    unfold aligned, obj_id_to_offset in Ha. change (offset (strip e)) with (offset e) in Ha.
    change (entry_id (head s) (strip e)) with (entry_id (head s) e) in Ha. rewrite Ha at 1.
    destruct (ri_geom _ _ _ _ Hr) as (md & rl & ph & Hg). fold s in Hg. rewrite Hg.
    change (objsize_order _) with DEFAULT_OBJ_SIZE_ORDER. change (meta_size _) with meta.
    rewrite Z.shiftl_mul_pow2 by done. done.
Qed.

(** C10 (invariant): the extents of two entries never overlap, and lie in the
    data area of the device, behind the metadata. *)
Theorem extents_disjoint w i j e1 e2 :
  reachable id cap meta scc w -> let s := w_main w in
  entries (obj_lmt s) !! i = Some e1 -> entries (obj_lmt s) !! j = Some e2 -> i <> j ->
  (offset e1 + DEFAULT_OBJ_SIZE <= offset e2 \/ offset e2 + DEFAULT_OBJ_SIZE <= offset e1)
  /\ meta <= offset e1 /\ offset e1 + DEFAULT_OBJ_SIZE <= meta + new_obj_count cap meta * DEFAULT_OBJ_SIZE.
Proof using Hfits.
  intros Hr%reachable_inv s H1 H2 Hne; [|done]. destruct (entry_facts w Hr) as [Hnd Hf]. fold s in Hnd, Hf.
  destruct (Hf e1) as [Hb1 Ho1]; [by eapply list_elem_of_lookup_2|].
  destruct (Hf e2) as [Hb2 Ho2]; [by eapply list_elem_of_lookup_2|].
  assert (entry_id (head s) e1 <> entry_id (head s) e2).
  { intros E. apply Hne. eapply NoDup_lookup; [exact Hnd| |]; rewrite list_lookup_fmap, ?H1, ?H2; simpl; by f_equal. }
  change DEFAULT_OBJ_SIZE with 67108864 in *. lia.
Qed.
End Props.

(** ** Instances on the small history *)
Lemma same_crash h d : crash_disk h d d.
Proof. by split. Qed.



Lemma compaction_makes_room_witness :
  exists w', run_handler HCompact Demo.w3 = Done w' /\ to_run_compact (w_main w') = COMPACT_IDLE.
Proof.
  destruct (compaction_makes_room 7 Demo.cap META_RESERVE_SIZE false Demo.demo_fits Demo.w3 Demo.reach3)
    as (w' & H1 & H2 & _).
  exists w'. split; [exact H1|exact H2].
Defined.

Lemma objects_conserved_witness : objects Demo.w1 ≡ₚ objects Demo.w0.
Proof.
  apply (objects_conserved 7 Demo.cap META_RESERVE_SIZE false Demo.demo_fits (Demo.write 1));
    [exact Demo.reach0|exact Demo.enabled1|vm_compute; reflexivity].
Defined.


Lemma extents_disjoint_witness :
  let l := entries (obj_lmt (w_main Demo.w2)) in
  length l = 2%nat /\ exists e1 e2, l !! 0%nat = Some e1 /\ l !! 1%nat = Some e2
    /\ (offset e1 + DEFAULT_OBJ_SIZE <= offset e2 \/ offset e2 + DEFAULT_OBJ_SIZE <= offset e1).
Proof.
  split; [vm_compute; reflexivity|].
  destruct (entries (obj_lmt (w_main Demo.w2)) !! 0%nat) as [e1|] eqn:E1; [|vm_compute in E1; discriminate E1].
  destruct (entries (obj_lmt (w_main Demo.w2)) !! 1%nat) as [e2|] eqn:E2; [|vm_compute in E2; discriminate E2].
  exists e1, e2. split; [reflexivity|]. split; [reflexivity|].
  exact (proj1 (extents_disjoint 7 Demo.cap META_RESERVE_SIZE false Demo.demo_fits Demo.w2 0 1 e1 e2
                  Demo.reach2 E1 E2 ltac:(discriminate))).
Defined.
