(* ===== verification/IoProps.v ===== *)
(** * What reads, writes, copies and snapshot deletions do

    The functional behaviour of the handlers in any state of a history: which
    object a read or a write is sent to, what a copy on write leaves on the
    device, and what the other snapshots of a block read after one of them
    is deleted. *)

From Stdlib Require Import ZArith Lia.
From stdpp Require Import base tactics list numbers sets gmap sorting.
From S2P Require Import Prelude FixedQueue MemPool Bitmap Ids Lmt Store RedoLog StoreOps Views OpSteps Boot.
From S2P Require Import BootSpec Handlers Crash History StoreProps.

(** The newest entry of a chain that snapshot [q] can see. *)
Definition newest (q : Z) (c : chain) (e : lmt_entry) : Prop :=
  e ∈ c /\ snap_seq e <= q /\ (forall x, x ∈ c -> snap_seq x <= q -> snap_seq x <= snap_seq e).

Section Io.
Context (id cap meta : Z) (scc : bool) (Hfits : fits cap meta).
Implicit Types (w : world) (s : store) (c : chain) (e : lmt_entry).

Lemma find_snap_spec q c :
  descending c ->
  match find_snap q c with
  | Some e => newest q c e
  | None => forall x, x ∈ c -> q < snap_seq x
  end.
Proof.
  intros Hd. induction Hd as [|e c Hd IH Hall]; cbn [find_snap].
  { by intros x Hx%elem_of_nil. }
  destruct (Z.ltb_spec q (snap_seq e)) as [Hlt|Hle].
  - destruct (find_snap q c) as [e'|].
    + destruct IH as (H1 & H2 & H3). unfold newest. splits; [by right|done|]. intros x Hx Hxq.
      apply elem_of_cons in Hx as [->|Hx]; [lia|by apply H3].
    + intros x [->|Hx]%elem_of_cons; [done|by apply IH].
  - unfold newest. splits; [left|done|]. intros x Hx _. apply elem_of_cons in Hx as [->|Hx]; [done|].
    rewrite Forall_forall in Hall. specialize (Hall x Hx). unfold newer in Hall. lia.
Qed.

Lemma reach_store w : reach_inv id cap meta w -> store_ok (w_main w).
Proof. by intros [(V0 & V1 & L1 & L2 & [Hok _ _ _]) _ _]. Qed.

Lemma process_read io s :
  cmd_opcode io = S5_OP_READ -> process_io io s = let* (_, s) := do_read io s in Done (0, s).
Proof. unfold process_io. by intros ->. Qed.

Lemma process_write io s :
  cmd_opcode io = S5_OP_WRITE -> process_io io s = let* (_, s) := do_write io s in Done (0, s).
Proof. unfold process_io. by intros ->. Qed.

(** C7 (functional): a read is answered with zeros when no entry of the
    block is visible to its snapshot; otherwise it is sent, at its offset in
    the object, to the newest entry the snapshot can see, or refused while
    that entry is being copied.  It changes nothing else. *)
Theorem read_resolves w io :
  reachable id cap meta scc w -> cmd_opcode io = S5_OP_READ ->
  let s := w_main w in let c := default [] (obj_lmt s !! io_key s io) in
  exists a, run_handler (HIo io) w = Done (mkWorld (act a s) (w_tool w))
    /\ (((forall x, x ∈ c -> cmd_snap_seq io < snap_seq x) /\ a = ACompleteZero (io_id io))
        \/ exists e, newest (cmd_snap_seq io) c e
           /\ ((status e = NORMAL
                /\ a = ASubmitIo (io_id io) S5_OP_READ
                         (offset e + offset_in_block (cmd_offset io) (in_obj_offset_mask s)) (cmd_length io))
               \/ (status e = COPYING /\ a = AComplete (io_id io) MSG_STATUS_INTERNAL))).
Proof using Hfits.
  intros Hr%reachable_inv Hop s c; [|done]. pose proof (reach_store w Hr) as Hok. fold s in Hok.
  unfold run_handler, on_main. rewrite process_read by done. fold s. unfold do_read. subst c. destruct (obj_lmt s !! io_key s io) as [c|] eqn:Hk; simpl default.
  2:{ eexists. split; [done|]. left. split; [by intros x Hx%elem_of_nil|done]. }
  pose proof (find_snap_spec (cmd_snap_seq io) c (chain_desc _ _ _ Hok Hk)) as Hf.
  destruct (find_snap (cmd_snap_seq io) c) as [e|].
  2:{ eexists. split; [done|]. by left. }
  pose proof (chain_settled _ _ _ _ Hok Hk (proj1 Hf)) as Hse.
  destruct (decide (status e = NORMAL \/ status e = DELAY_DELETE_AFTER_COW)) as [[E|E]|Hn].
  - eexists. split; [done|]. right. exists e. split; [done|by left].
  - destruct Hse; congruence.
  - eexists. split; [done|]. right. exists e. split; [done|]. right. split; [|done]. destruct Hse; [tauto|done].
Qed.

(** A log item may also ask for a compaction. *)
Definition quiet (l : list action) : Prop := l = [] \/ l = [ASignalCompact].

Lemma save_meta_data_acts z s : acts (save_meta_data z s).2 = acts s.
Proof.
  unfold save_meta_data, next_save_fault. destruct (dev_save_faults (dev s)) as [|f r]; [done|].
  by destruct f.
Qed.

Lemma trigger_acts st fw s rc s' :
  meta_data_compaction_trigger st fw s = Done (rc, s') -> exists l, acts s' = acts s ++ l /\ quiet l.
Proof.
  unfold meta_data_compaction_trigger. destruct (_ && _).
  { intros [= _ <-]. exists []. rewrite app_nil_r. split; [done|by left]. }
  destruct (_ && (_ =? COMPACT_ERROR)), (_ && negb _); intros H.
  all: try (destruct (save_meta_data _ _) as [rc1 s1] eqn:E1; pose proof (f_equal snd E1) as Hs; simpl in Hs;
            destruct (negb (rc1 =? 0)); [discriminate H|]).
  all: inv_done; simplify_eq; simpl.
  all: rewrite ?save_meta_data_acts; simpl.
  all: first [exists []; rewrite ?app_nil_r; split; [done|by left] | exists [ASignalCompact]; split; [done|by right]].
Qed.

Lemma log_item_acts b s rc s' : log_item b s = Done (rc, s') -> exists l, acts s' = acts s ++ l /\ quiet l.
Proof.
  unfold log_item, write_entry, next_fault. intros H.
  assert (Hq : exists l, acts s = acts s ++ l /\ quiet l).
  { exists []. rewrite app_nil_r. split; [done|by left]. }
  destruct (dev_faults (dev s)) as [|[f|] r]; [|by simplify_eq|];
    destruct (_ >=? _); try (apply trigger_acts in H; exact H); by simplify_eq.
Qed.

(** Allocating an object for a block, and its log item. *)
Lemma alloc_effect s key seq st c :
  store_ok s -> dev_faults (dev s) = [] -> room s -> is_empty (free_obj_queue s) = false ->
  exists x s0 s2 i l, alloc_object seq st s = Done (x, s0) /\ obj_lmt s0 = obj_lmt s
    /\ log_allocation key x (q_head (free_obj_queue s0)) (with_lmt (<[key := x :: c]> (obj_lmt s0)) s0) = Done (0, s2)
    /\ obj_lmt s2 = <[key := x :: c]> (obj_lmt s)
    /\ in_obj_offset_mask s2 = in_obj_offset_mask s /\ use_scc s2 = use_scc s
    /\ abs (free_obj_queue s) = i :: abs (free_obj_queue s2)
    /\ x = mkEntry (e_addr x) (obj_id_to_offset (head s) i) seq st [] None None
    /\ acts s2 = acts s ++ l /\ quiet l.
Proof.
  intros Hok Hf Hr He. destruct (alloc_object_spec seq st s Hok He) as (i & q & a & p & Hdq & Ha & _ & _).
  set (x := mkEntry a _ _ _ _ _ _) in *. set (s0 := with_pool p (with_free q s)) in *.
  set (s1 := with_lmt (<[key := x :: c]> (obj_lmt s0)) s0).
  destruct (log_item_step (ALLOCATE_OBJ key x (q_head q)) s1) as (s2 & Hl & Hls & [E1 E2 E3 E4 E5 E6]);
    [done|by eapply room_same_disk|].
  destruct (log_item_acts _ _ _ _ Hl) as (l & Hl' & Hq).
  pose proof (vo_free _ _ (so_view _ Hok)) as Hwf. simpl in Hwf.
  destruct (abs (free_obj_queue s)) as [|i' r] eqn:Habs.
  { apply is_empty_nil in Habs; [congruence|done]. }
  destruct (dequeue_cons _ _ _ Hwf Habs) as (q' & Hdq' & _ & Habs' & _). rewrite Hdq in Hdq'. simplify_eq.
  exists x, s0, s2, i', l. splits; try done. by rewrite E2.
Qed.

(** What a write finds at its block, and what it does there: it is sent to
    the newest entry, waits for the copy of it, or gets an object of its own
    from the front of the free queue; a write older than the newest entry,
    or without a free object, is refused and changes nothing. *)
Definition write_effect (io : IoSubTask) s s' : Prop :=
  let key := io_key s io in let q := cmd_snap_seq io in
  let send e := ASubmitIo (io_id io) (cmd_opcode io)
                  (offset e + offset_in_block (cmd_offset io) (in_obj_offset_mask s)) (cmd_length io) in
  let takes x st wait := exists i, abs (free_obj_queue s) = i :: abs (free_obj_queue s')
                   /\ x = mkEntry (e_addr x) (obj_id_to_offset (head s) i) q st wait None None in
  let does a := exists l, quiet l /\ acts s' = acts s ++ l ++ [a] in
  match obj_lmt s !! key with
  | None =>
      if is_empty (free_obj_queue s) then s' = act (ASubmitError (io_id io) MSG_STATUS_NOSPACE) s
      else exists x, takes x NORMAL [] /\ does (send x) /\ obj_lmt s' = <[key := [x]]> (obj_lmt s)
  | Some [] => False
  | Some (e :: c) =>
      if q <? snap_seq e then s' = act (AComplete (io_id io) MSG_STATUS_READONLY) s
      else if q =? snap_seq e then
        if decide (status e = NORMAL) then s' = act (send e) s
        else s' = with_lmt (<[key := set_waiting (io :: waiting_io e) e :: c]> (obj_lmt s)) s
      else if is_empty (free_obj_queue s) then s' = act (ASubmitError (io_id io) MSG_STATUS_NOSPACE) s
      else exists x, takes x COPYING [io] /\ obj_lmt s' = <[key := x :: e :: c]> (obj_lmt s)
           /\ does (if use_scc s then ABeginScc key (e_addr e) (e_addr x) else ABeginCow key (e_addr e) (e_addr x))
  end.

Lemma do_write_effect io s :
  store_ok s -> dev_faults (dev s) = [] -> room s ->
  exists rc s', do_write io s = Done (rc, s') /\ write_effect io s s'.
Proof.
  intros Hok Hf Hr. unfold do_write, write_effect.
  destruct (obj_lmt s !! io_key s io) as [[|e c]|] eqn:Hk.
  - by apply chain_not_empty in Hk.
  - pose proof (chain_settled _ _ _ e Hok Hk ltac:(left)) as Hse.
    rewrite decide_False by (destruct Hse; congruence).
    destruct (Z.eqb_spec (cmd_snap_seq io) (snap_seq e)) as [Eq|Hne].
    { rewrite Eq, Z.ltb_irrefl, ?Z.eqb_refl. destruct (decide (status e = NORMAL)); [by eexists _, _|].
      rewrite decide_True by (by destruct Hse). by eexists _, _. }
    destruct (Z.ltb_spec (cmd_snap_seq io) (snap_seq e)); [by eexists _, _|].
    destruct (is_empty (free_obj_queue s)) eqn:He; [by eexists _, _|].
    destruct (alloc_effect s (io_key s io) (cmd_snap_seq io) COPYING (e :: c) Hok Hf Hr He)
      as (x & s0 & s2 & i & l & -> & Hl0 & Hlog & Hl2 & Hm & Hsc & Hq & Hx & Ha & Hl).
    cbn [obind]. simpl free_obj_queue. rewrite Hlog. cbn [obind]. change (negb (0 =? 0)) with false. cbn iota.
    eexists _, _. split; [done|]. exists (set_waiting [io] x). splits.
    + exists i. split; [done|]. by rewrite Hx.
    + simpl. rewrite Hl2. apply insert_insert_eq.
    + exists l. split; [done|]. simpl. rewrite Hsc, Ha. by rewrite <- app_assoc.
  - destruct (is_empty (free_obj_queue s)) eqn:He; [by eexists _, _|].
    destruct (alloc_effect s (io_key s io) (cmd_snap_seq io) NORMAL [] Hok Hf Hr He)
      as (x & s0 & s2 & i & l & -> & Hl0 & Hlog & Hl2 & Hm & Hsc & Hq & Hx & Ha & Hl).
    cbn [obind]. simpl free_obj_queue. rewrite Hlog. cbn [obind]. change (negb (0 =? 0)) with false. cbn iota.
    unfold submit_write. cbn [obind]. eexists _, _. split; [done|]. exists x. splits.
    + by exists i.
    + exists l. split; [done|]. simpl. rewrite Hm, Ha. by rewrite <- app_assoc.
    + done.
Qed.


(** ** Contents *)

(** Byte [x] of a block as snapshot [q] reads it. *)
Definition content s (key : lmt_key) (q x : Z) : Z :=
  match find_snap q (default [] (obj_lmt s !! key)) with
  | None => 0
  | Some e => dev_data (dev s) (offset e + x)
  end.

Lemma entry_extents w k1 k2 c1 c2 e1 e2 :
  reach_inv id cap meta w -> obj_lmt (w_main w) !! k1 = Some c1 -> obj_lmt (w_main w) !! k2 = Some c2 ->
  e1 ∈ c1 -> e2 ∈ c2 -> e1 = e2 /\ k1 = k2
  \/ offset e1 + DEFAULT_OBJ_SIZE <= offset e2 \/ offset e2 + DEFAULT_OBJ_SIZE <= offset e1.
Proof.
  intros Hr H1 H2 He1 He2. destruct (entry_facts id cap meta w Hr) as [Hnd Hf].
  destruct (Hf e1 (elem_of_entries _ _ _ _ H1 He1)) as [Hb1 Ho1].
  destruct (Hf e2 (elem_of_entries _ _ _ _ H2 He2)) as [Hb2 Ho2].
  destruct (decide (entry_id (head (w_main w)) e1 = entry_id (head (w_main w)) e2)) as [E|Hne].
  2:{ right. change DEFAULT_OBJ_SIZE with 67108864 in *. lia. }
  left. rewrite (entries_lookup _ _ _ H1) in Hnd. rewrite fmap_app in Hnd.
  apply NoDup_app in Hnd as (Hnd1 & Hnd2 & _).
  destruct (decide (k1 = k2)) as [<-|Hk].
  - rewrite H1 in H2. simplify_eq. split; [|done]. by eapply (nodup_fmap_eq (entry_id (head (w_main w)))).
  - exfalso. apply (Hnd2 (entry_id (head (w_main w)) e1)); [by apply list_elem_of_fmap_2|].
    rewrite E. apply list_elem_of_fmap_2. apply (elem_of_entries _ k2 c2); [|done].
    by rewrite lookup_delete_ne.
Qed.

Lemma find_snap_elem q c e : find_snap q c = Some e -> e ∈ c.
Proof.
  induction c as [|x c IH]; [done|]. cbn [find_snap]. destruct (_ <? _); [right; by apply IH|].
  intros [= <-]. left.
Qed.

(** C4 (functional): when the device performs a write that was sent to the
    newest entry of a block, exactly the bytes it covers change, for exactly
    the snapshots that see that entry; every older snapshot of the block and
    every other block read what they read before. *)
Theorem write_in_place_content w key e c off len src k q x :
  reachable id cap meta scc w -> let s := w_main w in
  obj_lmt s !! key = Some (e :: c) -> 0 <= off -> off + len <= DEFAULT_OBJ_SIZE -> 0 <= x < DEFAULT_OBJ_SIZE ->
  let s' := with_data (memcpy_at (dev_data (dev s)) (offset e + off) len src) s in
  content s' k q x
  = if decide (k = key /\ snap_seq e <= q /\ off <= x < off + len) then src (x - off) else content s k q x.
Proof using Hfits.
  intros Hr%reachable_inv s Hk Hoff Hlen Hx s'; [|done]. unfold content, s', memcpy_at. simpl.
  destruct (find_snap q (default [] (obj_lmt s !! k))) as [e2|] eqn:Hf.
  - destruct (obj_lmt s !! k) as [c2|] eqn:Hk2; [|done]. simpl in Hf.
    pose proof (find_snap_elem _ _ _ Hf) as He2.
    destruct (entry_extents w key k (e :: c) c2 e e2 Hr Hk Hk2 ltac:(left) He2) as [[<- <-]|Hdis].
    + fold s in Hk. rewrite Hk in Hk2. simplify_eq. cbn [find_snap] in Hf.
      assert (Hq : snap_seq e <= q).
      { destruct (Z.ltb_spec q (snap_seq e)); [|lia]. apply find_snap_elem in Hf.
        pose proof (chain_desc _ _ _ (reach_store w Hr) Hk) as Hd. inversion Hd as [|? ? _ Hall]; subst.
        rewrite Forall_forall in Hall. specialize (Hall e Hf). unfold newer in Hall. lia. }
      destruct (range_spec (offset e + off) (offset e + off + len) (offset e + x)).
      * rewrite decide_True by (splits; [done|done|lia|lia]). f_equal. lia.
      * rewrite decide_False; [done|]. intros (_ & _ & ? & ?). lia.
    + destruct (range_spec (offset e + off) (offset e + off + len) (offset e2 + x)).
      { change DEFAULT_OBJ_SIZE with 67108864 in *. lia. }
      rewrite decide_False; [done|]. intros (-> & Hq & _). rewrite Hk in Hk2. simplify_eq.
      cbn [find_snap] in Hf. destruct (Z.ltb_spec q (snap_seq e)); [lia|]. simplify_eq.
      change DEFAULT_OBJ_SIZE with 67108864 in *. lia.
  - rewrite decide_False; [done|]. intros (-> & Hq & _). rewrite Hk in Hf. simpl in Hf.
    destruct (Z.ltb_spec q (snap_seq e)); [lia|done].
Qed.


(** ** Deleting a snapshot *)
Lemma find_snap_app q pre c :
  find_snap q (pre ++ c) = match find_snap q pre with Some e => Some e | None => find_snap q c end.
Proof. induction pre as [|e pre IH]; [done|]. simpl. by destruct (q <? snap_seq e). Qed.

Lemma find_snap_none q c : Forall (fun e => q < snap_seq e) c -> find_snap q c = None.
Proof.
  induction 1 as [|e c He _ IH]; [done|]. cbn [find_snap]. destruct (Z.ltb_spec q (snap_seq e)); [done|lia].
Qed.

Lemma find_snap_some q pre : descending pre -> next_seq pre <= q -> q < UINT32_MAX -> is_Some (find_snap q pre).
Proof.
  intros Hd Hq Hmax. destruct (find_snap q pre) as [e|] eqn:E; [by eexists|].
  pose proof (find_snap_spec q pre Hd) as Hs. rewrite E in Hs. exfalso.
  pose proof (next_seq_above pre q) as Hab. assert (q < next_seq pre); [|lia].
  apply Hab; [|done]. apply Forall_forall. intros x Hx. by apply Hs.
Qed.

(** The snapshots that keep their object when the snapshot between [prev]
    and [next] goes. *)
Lemma snap_chain_reads next pre t post q :
  descending (pre ++ t :: post) -> snap_seq t <= next ->
  (next <= q /\ q < UINT32_MAX) \/ (q < snap_seq t /\ Forall (fun e => q < snap_seq e) pre) ->
  offset <$> find_snap q (snap_chain next pre t post) = offset <$> find_snap q (pre ++ t :: post).
Proof.
  intros Hd Htn Hq. unfold snap_chain.
  assert (Hpre : descending pre) by (by eapply StronglySorted_app_1_l).
  destruct (Z.leb_spec (next_seq pre) next) as [Hle|Hlt]; rewrite !find_snap_app.
  - destruct Hq as [[Hq Hmax]|[Hq Hall]].
    + destruct (find_snap_some q pre Hpre ltac:(lia) Hmax) as [e ->]. done.
    + rewrite (find_snap_none q pre Hall). cbn [find_snap]. by rewrite (proj2 (Z.ltb_lt _ _) Hq).
  - destruct (find_snap q pre); [done|]. cbn [find_snap set_seq snap_seq].
    destruct Hq as [[Hq Hmax]|[Hq Hall]].
    + destruct (Z.ltb_spec q next), (Z.ltb_spec q (snap_seq t)); try lia. done.
    + destruct (Z.ltb_spec q next), (Z.ltb_spec q (snap_seq t)); try lia. done.
Qed.

(** C5 (functional): deleting a snapshot of a block, when the object it
    shares is not the one its predecessor reads ([prev] is older than the
    entry found), leaves every other snapshot reading the object it read
    before: those up to [prev] and those from [next] on. *)
Theorem snapshot_delete_keeps_reads w vol lba snap prev next pre t post :
  reachable id cap meta scc w -> let s := w_main w in
  room_n 1 s -> obj_lmt s !! mkKey vol lba = Some (pre ++ t :: post) -> snap_seq t <= snap ->
  Forall (fun e => snap < snap_seq e) pre -> snap < next -> next < UINT32_MAX -> prev < snap_seq t ->
  exists rc s', delete_obj_snapshot vol lba snap prev next s = Done (rc, s')
    /\ forall k q, q <= prev \/ next <= q < UINT32_MAX ->
         offset <$> find_snap q (default [] (obj_lmt s' !! k))
         = offset <$> find_snap q (default [] (obj_lmt s !! k)).
Proof using Hfits.
  intros Hr%reachable_inv s Hroom Hk Ht Hpre Hsn Hn Hprev; [|done].
  pose proof (proto_ready 1 w (ri_proto _ _ _ _ Hr) Hroom) as Hrd. fold s in Hrd.
  destruct (delete_obj_snapshot_op vol lba snap prev next pre t post s) as (rc & s' & E & _ & Hl); try done.
  exists rc, s'. split; [done|]. intros k q Hq. destruct Hl as [(_ & -> & _)|[_ ->]]; [done|].
  destruct (decide (k = mkKey vol lba)) as [->|Hne].
  - rewrite Hk. rewrite put_chain_lookup, decide_True by done. simpl default.
    rewrite <- (snap_chain_reads next pre t post q).
    + by destruct (snap_chain next pre t post).
    + apply (chain_desc s (mkKey vol lba)); [apply Hrd|done].
    + lia.
    + destruct Hq as [Hq|Hq]; [right|by left; lia]. split; [lia|].
      eapply Forall_impl; [exact Hpre|]. simpl. lia.
  - by rewrite put_chain_lookup, decide_False.
Qed.
End Io.

(** ** Instances on the small history *)
Lemma read_resolves_witness :
  exists a, run_handler (HIo (Demo.request S5_OP_READ 2 0)) Demo.w1
            = Done (mkWorld (act a (w_main Demo.w1)) (w_tool Demo.w1)).
Proof.
  destruct (read_resolves 7 Demo.cap META_RESERVE_SIZE false Demo.demo_fits Demo.w1 (Demo.request S5_OP_READ 2 0)
              Demo.reach1 eq_refl) as (a & E & _).
  exists a. exact E.
Defined.


Definition demo_chain1 : chain := default [] (obj_lmt (w_main Demo.w1) !! Demo.key).

Lemma write_in_place_content_witness :
  let s := w_main Demo.w1 in
  content (with_data (memcpy_at (dev_data (dev s)) (META_RESERVE_SIZE + 4096) 4096 (fun _ => 9)) s) Demo.key 1 5000 = 9.
Proof.
  destruct demo_chain1 as [|e c] eqn:E; [vm_compute in E; discriminate E|].
  assert (Ho : META_RESERVE_SIZE = offset e).
  { transitivity (offset (hd Demo.blank_entry demo_chain1)); [vm_compute; reflexivity|rewrite E; reflexivity]. }
  assert (Hs : snap_seq e = 1).
  { transitivity (snap_seq (hd Demo.blank_entry demo_chain1)); [rewrite E; reflexivity|vm_compute; reflexivity]. }
  cbv zeta. rewrite Ho.
  assert (Hk : obj_lmt (w_main Demo.w1) !! Demo.key = Some (e :: c)).
  { rewrite <- E. vm_compute. reflexivity. }
  rewrite (write_in_place_content 7 Demo.cap META_RESERVE_SIZE false Demo.demo_fits Demo.w1 Demo.key e c
             4096 4096 (fun _ => 9) Demo.key 1 5000 Demo.reach1 Hk); [|discriminate|discriminate|split; [discriminate|reflexivity]].
  rewrite Hs. reflexivity.
Defined.


Definition demo_chain3 : chain := default [] (obj_lmt (w_main Demo.w3) !! Demo.key).

Lemma snapshot_delete_keeps_reads_witness :
  exists rc s', delete_obj_snapshot Demo.rep 0 2 0 3 (w_main Demo.w3) = Done (rc, s')
    /\ offset <$> find_snap 3 (default [] (obj_lmt s' !! Demo.key)) = offset <$> find_snap 3 demo_chain3.
Proof.
  destruct demo_chain3 as [|e c] eqn:E; [vm_compute in E; discriminate E|].
  destruct c as [|t post]; [vm_compute in E; discriminate E|].
  assert (He : snap_seq e = 3).
  { transitivity (snap_seq (hd Demo.blank_entry demo_chain3)); [rewrite E; reflexivity|vm_compute; reflexivity]. }
  assert (Ht : snap_seq t = 1).
  { transitivity (snap_seq (hd Demo.blank_entry (tail demo_chain3))); [rewrite E; reflexivity|vm_compute; reflexivity]. }
  assert (Hk : obj_lmt (w_main Demo.w3) !! Demo.key = Some ([e] ++ t :: post)).
  { simpl app. rewrite <- E. vm_compute. reflexivity. }
  destruct (snapshot_delete_keeps_reads 7 Demo.cap META_RESERVE_SIZE false Demo.demo_fits Demo.w3 Demo.rep 0 2 0 3
              [e] t post Demo.reach3) as (rc & s' & Hd & Hq).
  - apply Demo.room_dec; vm_compute; reflexivity.
  - exact Hk.
  - lia.
  - constructor; [lia|constructor].
  - lia.
  - reflexivity.
  - lia.
  - exists rc, s'. split; [exact Hd|]. rewrite (Hq Demo.key 3) by (right; split; [lia|reflexivity]).
    rewrite Hk. reflexivity.
Defined.
