(* ===== verification/Limits.v ===== *)
(** * Where the guarantees end

    The theorems of StoreProps.v and IoProps.v have conditions.  This file
    shows what the code does outside of them: each theorem is a history (or
    a class of states) in which it loses data, uses memory it has released,
    or leaves a request without an answer. *)

From Stdlib Require Import ZArith Lia.
From stdpp Require Import base tactics list numbers sets gmap sorting.
From S2P Require Import Prelude FixedQueue MemPool Bitmap Ids Lmt Store RedoLog StoreOps Views OpSteps Boot.
From S2P Require Import BootSpec Handlers Crash History StoreProps IoProps.

Section Snapshots.
Context (id cap meta : Z) (scc : bool) (Hfits : fits cap meta).
Implicit Types (w : world) (s : store) (c : chain) (e : lmt_entry).

Lemma find_target_null snap next c : Forall (fun e => snap < snap_seq e) c -> find_target snap next c = Undef.
Proof.
  intros Hc. revert next. induction Hc as [|e c He _ IH]; intros next; [done|]. cbn [find_target].
  destruct (Z.ltb_spec snap (snap_seq e)); [apply IH|lia].
Qed.

(** Deleting a snapshot dereferences a null pointer on every
    block that was first written after the snapshot was taken. *)
Theorem snapshot_delete_null_deref vol lba snap prev next c s :
  obj_lmt s !! mkKey vol lba = Some c -> Forall (fun e => snap < snap_seq e) c ->
  delete_obj_snapshot vol lba snap prev next s = Undef.
Proof.
  intros Hk Hc. unfold delete_obj_snapshot. rewrite Hk. by rewrite find_target_null.
Qed.

Lemma normal_chain (o : option lmt_entry) : (forall x, o = Some x -> status x = NORMAL) -> abnormal o = false.
Proof. intros H. destruct o as [x|]; [|done]. unfold abnormal. by rewrite bool_decide_eq_true_2 by (by apply H). Qed.

(** C40 (error): when two snapshots share an object ([prev] is not older than
    the entry found) and the block was written again before [next],
    deleting the younger one deletes the object: the older snapshot reads
    another object, or zeros. *)
Theorem snapshot_delete_loses_shared w vol lba snap prev next pre t post :
  reachable id cap meta scc w -> let s := w_main w in
  room_n 1 s -> obj_lmt s !! mkKey vol lba = Some (pre ++ t :: post) ->
  Forall (fun e => status e = NORMAL) (pre ++ t :: post) ->
  snap_seq t <= prev -> prev < snap -> snap < next -> next < UINT32_MAX ->
  Forall (fun e => snap < snap_seq e) pre -> next_seq pre <= next ->
  exists s', delete_obj_snapshot vol lba snap prev next s = Done (0, s')
    /\ find_snap prev (default [] (obj_lmt s !! mkKey vol lba)) = Some t
    /\ offset <$> find_snap prev (default [] (obj_lmt s' !! mkKey vol lba)) <> Some (offset t).
Proof using Hfits.
  intros Hr%reachable_inv s Hroom Hk Hn Htp Hps Hsn Hmax Hpre Hns; [|done].
  pose proof (proto_ready 1 w (ri_proto _ _ _ _ Hr) Hroom) as Hrd. fold s in Hrd.
  destruct (delete_obj_snapshot_op vol lba snap prev next pre t post s) as (rc & s' & E & _ & Hl); [done|done|lia|done..|].
  assert (Hpp : Forall (fun e => prev < snap_seq e) pre) by (eapply Forall_impl; [exact Hpre|]; simpl; lia).
  assert (Hf : find_snap prev (pre ++ t :: post) = Some t).
  { rewrite find_snap_app, find_snap_none by done. cbn [find_snap]. destruct (Z.ltb_spec prev (snap_seq t)); [lia|done]. }
  destruct Hl as [(_ & _ & Hab)|[-> Hl]].
  - exfalso. rewrite !normal_chain in Hab; [done|..].
    + intros x Hx. rewrite Forall_forall in Hn. apply Hn, elem_of_app. left. by apply last_Some_elem_of.
    + intros x [= <-]. rewrite Forall_forall in Hn. apply Hn, elem_of_app. right. left.
    + intros x Hx. rewrite Forall_forall in Hn. apply Hn, elem_of_app. right. right.
      destruct post as [|y post]; [done|]. injection Hx as <-. left.
  - exists s'. splits; [done|by rewrite Hk|]. rewrite Hl, put_chain_lookup, decide_True by done.
    unfold snap_chain. rewrite (proj2 (Z.leb_le _ _) Hns).
    assert (Hd : default [] (nonempty (pre ++ post)) = pre ++ post) by (by destruct (pre ++ post)).
    rewrite Hd, find_snap_app, find_snap_none by done. destruct (find_snap prev post) as [e|] eqn:Ep; [|done].
    simpl. intros [= Eo]. apply find_snap_elem in Ep.
    pose proof (nodup_offs_chain _ _ _ (rd_ok _ _ Hrd) Hk) as Hnd. rewrite fmap_app in Hnd.
    apply NoDup_app in Hnd as (_ & _ & Hnd). csimpl in Hnd. apply NoDup_cons in Hnd as [Hnt _].
    apply Hnt. rewrite <- Eo. by apply list_elem_of_fmap_2.
Qed.
End Snapshots.

(** ** Histories *)
Section Histories.
Import Demo.

(** Writes of other blocks of the volume. *)
Definition write_at (n : Z) : handler := HIo (request S5_OP_WRITE 1 (n * DEFAULT_OBJ_SIZE)).
Definition key_at (n : Z) : lmt_key := mkKey rep (vol_offset_to_block_slba (n * DEFAULT_OBJ_SIZE) DEFAULT_OBJ_SIZE_ORDER).
Definition mapped (k : lmt_key) (w : world) : bool := bool_decide (is_Some (obj_lmt (w_main w) !! k)).

(** [EVT_SAVEMD], also where a history would not allow it. *)
Definition savemd (w : world) : world := result (run_handler HSaveMd w).

(** A compaction is asked for, block 1 is written, a compaction is asked for
    again before the first one ran, and block 2 is written. *)
Definition twice : world :=
  result (run_handler (write_at 2) (savemd (result (run_handler (write_at 1) (savemd w1))))).

(** A second [EVT_SAVEMD] before the compaction thread has run
    moves the log back to the start of the zone it is writing: the items
    there are overwritten, and a restart has lost block 1, which is mapped
    in memory. *)
Theorem second_trigger_loses_items :
  mapped (key_at 1) twice = true /\ mapped (key_at 2) twice = true
  /\ mapped (key_at 1) (boot (dev (w_main twice))) = false
  /\ mapped (key_at 2) (boot (dev (w_main twice))) = true.
Proof. vm_compute. done. Qed.

(** The device fails one read while the compaction loads the metadata. *)
Definition with_fault (w : world) : world :=
  let s := w_main w in let d := dev s in
  mkWorld (with_dev (mkDevice (dev_head d) (dev_md d) (dev_log d) (dev_data d) [Some EIO] (dev_save_faults d)) s)
    (w_tool w).

(** A compaction is asked for, block 1 is written, and the compaction fails.
    The thread posts [EVT_SAVEMD] after the failure, which saves the
    metadata; block 2 is written after that. *)
Definition failed : world :=
  result (run_handler HCompact (with_fault (result (run_handler (write_at 1) (savemd w1))))).
Definition after_error : world := result (run_handler (write_at 2) (savemd failed)).

(** After a failed compaction the metadata are saved and the log
    goes on in the zone that a restart does not read for this phase: block 2,
    logged after the save, is lost by a restart. *)
Theorem compaction_error_loses_items :
  to_run_compact (w_main failed) = COMPACT_ERROR
  /\ mapped (key_at 1) after_error = true /\ mapped (key_at 2) after_error = true
  /\ mapped (key_at 1) (boot (dev (w_main after_error))) = true
  /\ mapped (key_at 2) (boot (dev (w_main after_error))) = false.
Proof. vm_compute. done. Qed.

(** Deleting a replica frees the entries of a copy in progress,
    and the end of the copy then uses them. *)
Theorem delete_replica_breaks_copy :
  enabled (HCowEnd key 0 1) w2
  /\ match run_handler (HDeleteReplica rep) w2 with
     | Done w => run_handler (HCowEnd key 0 1) w = Undef
     | _ => False
     end.
Proof. split; [apply enabled3|]. vm_compute. reflexivity. Qed.

(** A restart while a copy is in progress gives up its object:
    it belongs to no entry, and to neither queue. *)
Theorem restart_leaks_copy :
  length (objects w2) = 4%nat /\ length (objects (boot (dev (w_main w2)))) = 3%nat
  /\ length (objects w3) = 4%nat /\ length (objects (boot (dev (w_main w3)))) = 4%nat.
Proof. vm_compute. done. Qed.

(** The status and the waiting requests of the newest entry of the block. *)
Definition newest_state (w : world) : option (EntryStatus * list Z) :=
  match obj_lmt (w_main w) !! key with
  | Some (e :: _) => Some (status e, io_id <$> waiting_io e)
  | _ => None
  end.

(** A write of a newer snapshot while the copy is in progress
    starts a copy of the entry being copied; when the first copy ends, its
    waiting write is refused as read-only. *)
Theorem copy_of_a_copy :
  let w := result (run_handler (write 5) w2) in
  let w' := result (run_handler (HCowEnd key 0 1) w) in
  newest_state w2 = Some (COPYING, [1003])
  /\ last (acts (w_main w)) = Some (ABeginCow key 1 2)
  /\ last (acts (w_main w')) = Some (AComplete 1003 MSG_STATUS_READONLY).
Proof. vm_compute. done. Qed.

(** The same history with the copy done by the controller. *)
Definition scc_boot : world :=
  result (let* (_, w) := store_init true 7 cap META_RESERVE_SIZE (blank_store true disk) in Done w).
Definition scc_copy : world := result (run_handler (write 3) (result (run_handler (write 1) scc_boot))).
Definition scc_wait : world :=
  result (run_handler (HIo (mkIo 2003 rep S5_OP_WRITE 3 rep LBA_LENGTH LBA_LENGTH (fun _ => 0))) scc_copy).

(** The end of a copy done by the controller leaves the entry in
    the state of a copy: of two waiting writes the one given to [do_write]
    first waits again, and the loop, which follows its [next] pointer, drops
    the other one; neither is sent or answered. *)
Theorem scc_copy_never_ends :
  last (acts (w_main scc_copy)) = Some (ABeginScc key 0 1)
  /\ newest_state scc_wait = Some (COPYING, [2003; 1003])
  /\ newest_state (result (run_handler (HSccEnd key 0 1 0) scc_wait)) = Some (COPYING, [2003])
  /\ acts (w_main (result (run_handler (HSccEnd key 0 1 0) scc_wait))) = acts (w_main scc_copy).
Proof. vm_compute. done. Qed.
End Histories.

Lemma snapshot_delete_null_deref_witness :
  delete_obj_snapshot Demo.rep 0 0 0 1 (w_main Demo.w1) = Undef.
Proof.
  apply (snapshot_delete_null_deref Demo.rep 0 0 0 1 demo_chain1).
  - vm_compute. reflexivity.
  - vm_compute. repeat constructor.
Defined.

Lemma snapshot_delete_loses_shared_witness :
  exists s', delete_obj_snapshot Demo.rep 0 2 1 3 (w_main Demo.w3) = Done (0, s')
    /\ is_Some (find_snap 1 demo_chain3)
    /\ offset <$> find_snap 1 (default [] (obj_lmt s' !! Demo.key)) <> offset <$> find_snap 1 demo_chain3.
Proof.
  destruct demo_chain3 as [|e c] eqn:E; [vm_compute in E; discriminate E|].
  destruct c as [|t post]; [vm_compute in E; discriminate E|].
  assert (Hn : Forall (fun e => status e = NORMAL) demo_chain3) by (vm_compute; repeat constructor).
  assert (He : snap_seq e = 3).
  { transitivity (snap_seq (hd Demo.blank_entry demo_chain3)); [rewrite E; reflexivity|vm_compute; reflexivity]. }
  assert (Ht : snap_seq t = 1).
  { transitivity (snap_seq (hd Demo.blank_entry (tail demo_chain3))); [rewrite E; reflexivity|vm_compute; reflexivity]. }
  assert (Hk : obj_lmt (w_main Demo.w3) !! Demo.key = Some ([e] ++ t :: post)).
  { simpl app. rewrite <- E. vm_compute. reflexivity. }
  destruct (snapshot_delete_loses_shared 7 Demo.cap META_RESERVE_SIZE false Demo.demo_fits Demo.w3 Demo.rep 0 2 1 3
              [e] t post Demo.reach3) as (s' & Hd & Hf & Ho).
  - apply Demo.room_dec; vm_compute; reflexivity.
  - exact Hk.
  - simpl app. rewrite <- E. exact Hn.
  - lia.
  - lia.
  - lia.
  - reflexivity.
  - constructor; [lia|constructor].
  - unfold next_seq. simpl. lia.
  - exists s'. split; [exact Hd|]. fold Demo.key in Hf, Ho. change (mkKey Demo.rep 0) with Demo.key in Hf, Ho.
    rewrite Hk in Hf. simpl default in Hf. change ([e] ++ t :: post) with (e :: t :: post) in Hf.
    rewrite Hf. split; [exists t; reflexivity|]. exact Ho.
Defined.
