(* ===== verification/EventQueue.v ===== *)
(** * Event queues and event threads

    Model of PfEventQueue (src/common/src/pf_event_queue.cpp and
    pf_event_queue.h) and of the loop of an event thread
    (src/common/src/pf_event_thread.cpp, [thread_proc_eventq]) that every
    dispatcher, replicator and store runs on when SPDK is not used.

    The queue is a pair of rings: producers append to the current one under
    a spin lock and then add one to an eventfd; the consumer waits for the
    eventfd, swaps the rings and empties the other ring without a lock.
    [eq_step] interleaves any number of producers with the consumer at the
    granularity of the critical sections and of the system calls: the append
    and the write to the eventfd of a producer are two steps, and so are the
    read of the eventfd and the swap of the consumer.

    The theorems state that accepted events are handled exactly once, in
    the order in which they were accepted, and that no wakeup is lost. *)

From Stdlib Require Import ZArith Lia.
From stdpp Require Import base tactics list numbers sets relations.
From S2P Require Import Prelude FixedQueue.

(** ** Data *)
Record S5Event : Type := mkEvent {
  evt_type : Z;
  evt_arg_i : Z;
  evt_arg_p : Z;
  evt_arg_q : Z
}.

#[global] Instance event_eq_dec : EqDecision S5Event.
Proof. solve_decision. Defined.

Definition EVT_SYNC_INVOKE : Z := 1.
Definition EVT_IO_REQ : Z := 4.
Definition EVT_IO_COMPLETE : Z := 5.
Definition EVT_THREAD_EXIT : Z := 10.
Definition EVT_RECOVERY_READ_IO : Z := 15.
Definition EVT_CONN_CLOSED : Z := 16.
Definition EVT_FORCE_RELEASE_CONN : Z := 20.

(** the all-zero event of [calloc] *)
Definition zero_event : S5Event := mkEvent 0 0 0 0.

(** [current_queue] points to [queue1] ([Some true]), to [queue2]
    ([Some false]) or is NULL; [event_fd] is the counter of the eventfd. *)
Record PfEventQueue : Type := mkEventQueue {
  queue1 : PfFixedSizeQueue S5Event;
  queue2 : PfFixedSizeQueue S5Event;
  current_queue : option bool;
  event_fd : Z;
  semaphore_mode : bool
}.

(** ** Operations *)

(** [init]: [fd_rc] is the errno of [eventfd] (0 when it succeeds), [mem1]
    and [mem2] whether the rings find memory. *)
Definition eq_init (fd_rc : Z) (mem1 mem2 : bool) (size : Z) (sem : bool)
    : Z * PfEventQueue :=
  let q0 := mkEventQueue empty_queue empty_queue None 0 sem in
  if negb (fd_rc =? 0) then (- fd_rc, q0)
  else
    let (rc1, q1) := queue_init zero_event mem1 size in
    if negb (rc1 =? 0) then (rc1, mkEventQueue q1 empty_queue None 0 sem)
    else
      let (rc2, q2) := queue_init zero_event mem2 size in
      if negb (rc2 =? 0) then (rc2, mkEventQueue (queue_destroy q1) q2 None 0 sem)
      else (0, mkEventQueue q1 q2 (Some true) 0 sem).

Definition eq_destroy (q : PfEventQueue) : PfEventQueue :=
  mkEventQueue (queue_destroy (queue1 q)) (queue_destroy (queue2 q)) None 0 (semaphore_mode q).

(** the ring a pointer selects, and its update *)
Definition ring (b : bool) (q : PfEventQueue) : PfFixedSizeQueue S5Event :=
  if b then queue1 q else queue2 q.

Definition set_ring (b : bool) (r : PfFixedSizeQueue S5Event) (q : PfEventQueue) : PfEventQueue :=
  if b then mkEventQueue r (queue2 q) (current_queue q) (event_fd q) (semaphore_mode q)
  else mkEventQueue (queue1 q) r (current_queue q) (event_fd q) (semaphore_mode q).

Definition set_fd (n : Z) (q : PfEventQueue) : PfEventQueue :=
  mkEventQueue (queue1 q) (queue2 q) (current_queue q) n (semaphore_mode q).

(** the critical section of [post_event] *)
Definition post_locked (e : S5Event) (q : PfEventQueue) : outcome (Z * PfEventQueue) :=
  let* b := of_option (current_queue q) in
  let* (rc, r) := enqueue_nolock e (ring b q) in
  Done (rc, set_ring b r q).

(** the write of 1 to the eventfd *)
Definition post_signal (q : PfEventQueue) : PfEventQueue := set_fd (event_fd q + 1) q.

Definition post_event (e : S5Event) (q : PfEventQueue) : outcome (Z * PfEventQueue) :=
  let* (rc, q) := post_locked e q in
  if negb (rc =? 0) then Done (rc, q) else Done (0, post_signal q).

(** [read] of the eventfd: [None] while the caller is blocked *)
Definition read_fd (q : PfEventQueue) : option PfEventQueue :=
  if event_fd q =? 0 then None
  else Some (set_fd (if semaphore_mode q then event_fd q - 1 else 0) q).

(** the critical section of [get_events]: the ring to empty, and the swap *)
Definition swap_queues (q : PfEventQueue) : outcome (bool * PfEventQueue) :=
  let* b := of_option (current_queue q) in
  Done (b, mkEventQueue (queue1 q) (queue2 q) (Some (negb b)) (event_fd q) (semaphore_mode q)).

Definition get_events (q : PfEventQueue) : option (outcome (bool * PfEventQueue)) :=
  swap_queues <$> read_fd q.

(** the element at the head of a ring, and the ring with the head moved:
    the loops of [thread_proc_eventq] and [get_event] read the cell
    themselves *)
Definition take_head (r : PfFixedSizeQueue S5Event)
    : outcome (S5Event * PfFixedSizeQueue S5Event) :=
  let* e := of_option (arr_get (q_data r) (q_head r)) in
  if q_depth r =? 0 then Undef
  else Done (e, mkQueue (q_tail r) (Z.rem (q_head r + 1) (q_depth r)) (q_depth r) (q_data r)).

(** [get_event] after its [read]: [inl] is the error return *)
Definition get_event_locked (q : PfEventQueue) : outcome (Z + S5Event * PfEventQueue) :=
  let* b := of_option (current_queue q) in
  if is_empty (ring b q) then Done (inl (- ENOENT))
  else let* (e, r) := take_head (ring b q) in Done (inr (e, set_ring b r q)).

Definition get_event (q : PfEventQueue) : option (outcome (Z + S5Event * PfEventQueue)) :=
  get_event_locked <$> read_fd q.

(** ** The event thread

    [process_event] and [commit_batch] are the virtual functions of the
    thread's class on its state, [func] runs the closure of a synchronous
    call; [posted] collects the calls whose semaphore was posted, with their
    return values. *)
Section Thread.
Context {St : Type}.
Variable process_event : S5Event -> St -> St.
Variable func : Z -> St -> Z * St.
Variable commit_batch : St -> St.

(** one turn of the inner loop of [thread_proc_eventq]: the state, the
    answers of synchronous calls, and whether the thread goes on *)
Definition handle_event (e : S5Event) (s : St) (rcs : list (Z * Z)) : St * list (Z * Z) * bool :=
  if evt_type e =? EVT_SYNC_INVOKE then
    let (rc, s) := func (evt_arg_p e) s in (s, rcs ++ [(evt_arg_p e, rc)], true)
  else if evt_type e =? EVT_THREAD_EXIT then (s, rcs, false)
  else (process_event e s, rcs, true).

(** Where the consumer is: before the read of the eventfd, between the read
    and the swap, emptying a ring, or gone. *)
Inductive phase : Type :=
| Waiting
| Woken
| Draining (b : bool)
| Exited.

(** [pending] counts producers between their two steps. [accepted] and
    [handled] are the histories of appended and of handled events; a [None]
    in [handled] is a call of [commit_batch]. *)
Record eq_sys : Type := mkSys {
  es_queue : PfEventQueue;
  es_pending : Z;
  es_phase : phase;
  es_app : St;
  es_rcs : list (Z * Z);
  es_accepted : list S5Event;
  es_handled : list (option S5Event)
}.

Inductive eq_step : eq_sys -> eq_sys -> Prop :=
| step_post e q q' n ph s rcs acc hd :
    post_locked e q = Done (0, q') ->
    eq_step (mkSys q n ph s rcs acc hd) (mkSys q' (n + 1) ph s rcs (acc ++ [e]) hd)
| step_refused e q q' rc n ph s rcs acc hd :
    post_locked e q = Done (rc, q') -> rc <> 0 ->
    eq_step (mkSys q n ph s rcs acc hd) (mkSys q' n ph s rcs acc hd)
| step_signal q n ph s rcs acc hd :
    0 < n ->
    eq_step (mkSys q n ph s rcs acc hd) (mkSys (post_signal q) (n - 1) ph s rcs acc hd)
| step_read q q' n s rcs acc hd :
    read_fd q = Some q' ->
    eq_step (mkSys q n Waiting s rcs acc hd) (mkSys q' n Woken s rcs acc hd)
| step_swap q q' b n s rcs acc hd :
    swap_queues q = Done (b, q') ->
    eq_step (mkSys q n Woken s rcs acc hd) (mkSys q' n (Draining b) s rcs acc hd)
| step_handle q b e r n s s' rcs rcs' go acc hd :
    is_empty (ring b q) = false ->
    take_head (ring b q) = Done (e, r) ->
    handle_event e s rcs = (s', rcs', go) ->
    eq_step (mkSys q n (Draining b) s rcs acc hd)
            (mkSys (set_ring b r q) n (if go then Draining b else Exited) s' rcs' acc (hd ++ [Some e]))
| step_commit q b n s rcs acc hd :
    is_empty (ring b q) = true ->
    eq_step (mkSys q n (Draining b) s rcs acc hd)
            (mkSys q n Waiting (commit_batch s) rcs acc (hd ++ [None])).

(** the consumer's next step, as the thread executes it; [None] when it is
    blocked in [read] or gone *)
Definition consumer_step (y : eq_sys) : option (outcome eq_sys) :=
  let 'mkSys q n ph s rcs acc hd := y in
  match ph with
  | Waiting => match read_fd q with
               | None => None
               | Some q => Some (Done (mkSys q n Woken s rcs acc hd))
               end
  | Woken => Some (let* (b, q) := swap_queues q in Done (mkSys q n (Draining b) s rcs acc hd))
  | Draining b =>
      Some (if is_empty (ring b q) then Done (mkSys q n Waiting (commit_batch s) rcs acc (hd ++ [None]))
            else let* (e, r) := take_head (ring b q) in
                 let '(s, rcs, go) := handle_event e s rcs in
                 Done (mkSys (set_ring b r q) n (if go then Draining b else Exited) s rcs acc (hd ++ [Some e])))
  | Exited => None
  end.

Definition initial_sys (size : Z) (s : St) : eq_sys :=
  mkSys (snd (eq_init 0 true true size false)) 0 Waiting s [] [] [].

(** the state and the answers after a history of handled events *)
Fixpoint replay_events (h : list (option S5Event)) (s : St) (rcs : list (Z * Z)) : St * list (Z * Z) :=
  match h with
  | [] => (s, rcs)
  | None :: h => replay_events h (commit_batch s) rcs
  | Some e :: h => let '(s, rcs, _) := handle_event e s rcs in replay_events h s rcs
  end.
End Thread.

Arguments mkSys {St}.
Arguments es_queue {St}.
Arguments es_pending {St}.
Arguments es_phase {St}.
Arguments es_app {St}.
Arguments es_rcs {St}.
Arguments es_accepted {St}.
Arguments es_handled {St}.

(** ** Rings *)
Lemma take_head_cons (r : PfFixedSizeQueue S5Event) e l :
  queue_wf r -> abs r = e :: l ->
  exists r', take_head r = Done (e, r') /\ queue_wf r' /\ abs r' = l /\ q_depth r' = q_depth r.
Proof.
  intros Hwf Ha. destruct (dequeue_cons r e l Hwf Ha) as (r' & Hd & Hwf' & Ha' & Hc).
  exists r'. splits; [|done|done|lia].
  unfold dequeue, dequeue_nolock in Hd. unfold take_head.
  assert (is_empty r = false) as E.
  { apply not_true_is_false. intros E%is_empty_nil; [congruence|done]. }
  rewrite E in Hd. destruct (arr_get _ _) as [x|]; cbn [of_option obind] in *; [|done].
  injection Hd as -> <-.
  rewrite (proj2 (Z.eqb_neq _ _)) by (destruct Hwf; lia). done.
Qed.

Lemma ring_set_same b r q : ring b (set_ring b r q) = r.
Proof. by destruct b. Qed.

Lemma ring_set_other b r q : ring (negb b) (set_ring b r q) = ring (negb b) q.
Proof. by destruct b. Qed.

Lemma ring_set_negb b r q : ring b (set_ring (negb b) r q) = ring b q.
Proof. by destruct b. Qed.

Lemma set_ring_fields b r q :
  current_queue (set_ring b r q) = current_queue q
  /\ event_fd (set_ring b r q) = event_fd q
  /\ semaphore_mode (set_ring b r q) = semaphore_mode q.
Proof. by destruct b. Qed.

Lemma ring_set_fd b n q : ring b (set_fd n q) = ring b q.
Proof. by destruct b. Qed.

(** [post_locked] on a queue in use: it appends to the current ring, or
    answers -EAGAIN when that ring is full. *)
Lemma post_locked_spec e q c :
  current_queue q = Some c -> queue_wf (ring c q) ->
  (Z.of_nat (length (abs (ring c q))) < q_depth (ring c q) - 1
   /\ exists r, post_locked e q = Done (0, set_ring c r q) /\ queue_wf r
        /\ abs r = abs (ring c q) ++ [e] /\ q_depth r = q_depth (ring c q))
  \/ (Z.of_nat (length (abs (ring c q))) = q_depth (ring c q) - 1
      /\ post_locked e q = Done (- EAGAIN, q)).
Proof.
  intros Hc Hwf. unfold post_locked. rewrite Hc. cbn [of_option obind].
  pose proof (abs_bound _ Hwf) as Hb.
  change (enqueue_nolock e (ring c q)) with (enqueue e (ring c q)).
  destruct (decide (Z.of_nat (length (abs (ring c q))) = q_depth (ring c q) - 1)) as [Hf|Hf].
  - right. split; [done|]. rewrite enqueue_full by done. cbn [obind].
    do 2 f_equal. destruct q, c; reflexivity.
  - left. split; [lia|].
    destruct (enqueue_fifo (ring c q) e Hwf) as (r & He & Hr & Ha & Hd); [lia|].
    exists r. rewrite He. cbn [obind]. splits; (done || lia).
Qed.

(** ** The invariant *)
Definition events (h : list (option S5Event)) : list S5Event := omap id h.

Section Invariant.
Context {St : Type}.
Variable process_event : S5Event -> St -> St.
Variable func : Z -> St -> Z * St.
Variable commit_batch : St -> St.
Variables (size : Z) (s0 : St).
Hypothesis size_ok : 0 <= size < 2 ^ 31 - 1.

Abbreviation step := (eq_step process_event func commit_batch).
Abbreviation handle := (handle_event process_event func).

(** [c] is the ring producers append to. *)
Record eq_inv (y : @eq_sys St) (c : bool) : Prop := mkEqInv {
  inv_current : current_queue (es_queue y) = Some c;
  inv_mode : semaphore_mode (es_queue y) = false;
  inv_fd : 0 <= event_fd (es_queue y);
  inv_pending : 0 <= es_pending y;
  inv_wf : forall b, queue_wf (ring b (es_queue y)) /\ q_depth (ring b (es_queue y)) - 1 = size;
  inv_phase : match es_phase y with
              | Waiting | Woken => abs (ring (negb c) (es_queue y)) = []
              | Draining b => c = negb b
              | Exited => exists e, e ∈ events (es_handled y) /\ evt_type e = EVT_THREAD_EXIT
              end;
  inv_wakeup : abs (ring c (es_queue y)) = [] \/ es_phase y = Woken
               \/ 0 < event_fd (es_queue y) \/ 0 < es_pending y;
  inv_order : es_accepted y = events (es_handled y) ++ abs (ring (negb c) (es_queue y))
                                ++ abs (ring c (es_queue y));
  inv_app : replay_events process_event func commit_batch (es_handled y) s0 [] = (es_app y, es_rcs y)
}.

(** projections of a literal state *)
Tactic Notation "sysn" "in" "*" :=
  cbn [es_queue es_pending es_phase es_app es_rcs es_accepted es_handled] in *.
Tactic Notation "sysn" :=
  cbn [es_queue es_pending es_phase es_app es_rcs es_accepted es_handled].

Lemma events_app h1 h2 : events (h1 ++ h2) = events h1 ++ events h2.
Proof. apply omap_app. Qed.

Lemma replay_events_app h1 h2 s rcs :
  replay_events process_event func commit_batch (h1 ++ h2) s rcs
  = let (s, rcs) := replay_events process_event func commit_batch h1 s rcs in
    replay_events process_event func commit_batch h2 s rcs.
Proof.
  revert s rcs. induction h1 as [|[e|] h1 IH]; intros s rcs; [done| |]; simpl.
  - destruct (handle e s rcs) as [[s' rcs'] go]. apply IH.
  - apply IH.
Qed.

Lemma initial_inv : eq_inv (initial_sys size s0) true.
Proof.
  destruct (init_pair zero_event size size_ok) as (r & E & Hw & Ha & Hd).
  unfold initial_sys, eq_init. rewrite E. cbn [negb Z.eqb snd].
  split; cbn; auto; try lia; [by intros []|by rewrite Ha].
Qed.

Lemma inv_post e q n ph s rcs acc hd c q' :
  eq_inv (mkSys q n ph s rcs acc hd) c -> post_locked e q = Done (0, q') ->
  eq_inv (mkSys q' (n + 1) ph s rcs (acc ++ [e]) hd) c.
Proof.
  intros [Hc Hm Hf Hp Hw Hph Hk Ho Ha] E. sysn in *.
  destruct (post_locked_spec e q c Hc (proj1 (Hw c))) as [[_ (r & E' & Hr & Har & Hd)]|[_ E']];
    rewrite E in E'; [|discriminate E']. injection E' as ->.
  destruct (set_ring_fields c r q) as (F1 & F2 & F3).
  split; sysn; rewrite ?F1, ?F2, ?F3, ?ring_set_same, ?ring_set_other; auto; try lia.
  - intros b. destruct (decide (b = c)) as [->|Hb].
    + rewrite ring_set_same. split; [done|]. rewrite Hd. apply Hw.
    + assert (b = negb c) as -> by (by destruct b, c). rewrite ring_set_other. apply Hw.
  - rewrite Ho, Har. by rewrite <- !app_assoc.
Qed.

Lemma handle_exit e s rcs s' rcs' :
  handle e s rcs = (s', rcs', false) -> evt_type e = EVT_THREAD_EXIT.
Proof.
  unfold handle_event. destruct (evt_type e =? EVT_SYNC_INVOKE); [by destruct (func _ _)|].
  destruct (Z.eqb_spec (evt_type e) EVT_THREAD_EXIT); [done|]. intros [=].
Qed.

Lemma inv_handle q b e r n s s' rcs rcs' go acc hd c :
  eq_inv (mkSys q n (Draining b) s rcs acc hd) c ->
  is_empty (ring b q) = false -> take_head (ring b q) = Done (e, r) ->
  handle e s rcs = (s', rcs', go) ->
  eq_inv (mkSys (set_ring b r q) n (if go then Draining b else Exited) s' rcs' acc (hd ++ [Some e])) c.
Proof.
  intros [Hc Hm Hf Hp Hw Hph Hk Ho Ha] He E Eh. sysn in *. subst c. rewrite negb_involutive in Ho.
  destruct (abs (ring b q)) as [|e' l] eqn:El.
  { apply is_empty_nil in El; [congruence|apply Hw]. }
  destruct (take_head_cons _ _ _ (proj1 (Hw b)) El) as (r' & E' & Hr & Har & Hd).
  rewrite E in E'. injection E' as -> ->.
  destruct (set_ring_fields b r' q) as (F1 & F2 & F3).
  split; sysn; rewrite ?F1, ?F2, ?F3, ?negb_involutive, ?ring_set_same, ?ring_set_other; auto.
  - intros b'. destruct (decide (b' = b)) as [->|Hb].
    + rewrite ring_set_same. split; [done|]. rewrite Hd. apply Hw.
    + assert (b' = negb b) as -> by (by destruct b, b'). rewrite ring_set_other. apply Hw.
  - destruct go; [done|]. exists e'. rewrite events_app. split; [|by eapply handle_exit].
    apply elem_of_app. right. by apply list_elem_of_singleton.
  - destruct Hk as [?|[?|[?|?]]]; [by left|done|by right; right; left|by right; right; right].
  - rewrite Ho, Har, events_app. cbn. by rewrite <- app_assoc.
  - rewrite replay_events_app, Ha. cbn. by rewrite Eh.
Qed.

Lemma inv_step y y' c : eq_inv y c -> step y y' -> exists c', eq_inv y' c'.
Proof.
  intros Hi Hs. destruct Hs as [e q q' n ph s rcs acc hd E|e q q' rc n ph s rcs acc hd E Hrc
    |q n ph s rcs acc hd Hn|q q' n s rcs acc hd E|q q' b n s rcs acc hd E
    |q b e r n s s' rcs rcs' go acc hd He E Eh|q b n s rcs acc hd He].
  - exists c. by eapply inv_post.
  - destruct Hi as [Hc Hm Hf Hp Hw Hph Hk Ho Ha]. sysn in *.
    destruct (post_locked_spec e q c Hc (proj1 (Hw c))) as [[_ (r & E' & _)]|[_ E']];
      rewrite E in E'; injection E' as -> ->; [done|]. exists c. by split.
  - destruct Hi as [Hc Hm Hf Hp Hw Hph Hk Ho Ha]. sysn in *. exists c.
    unfold post_signal. split; sysn; rewrite ?ring_set_fd;
      cbn [set_fd current_queue event_fd semaphore_mode]; auto; try lia.
  - destruct Hi as [Hc Hm Hf Hp Hw Hph Hk Ho Ha]. sysn in *. exists c.
    unfold read_fd in E. rewrite Hm in E. destruct (event_fd q =? 0); [done|]. injection E as <-.
    split; sysn; rewrite ?ring_set_fd; cbn [set_fd current_queue event_fd semaphore_mode]; auto; try lia.
  - destruct Hi as [Hc Hm Hf Hp Hw Hph Hk Ho Ha]. sysn in *. exists (negb c).
    unfold swap_queues in E. rewrite Hc in E. cbn in E. injection E as <- <-.
    split; sysn; rewrite ?negb_involutive; auto. rewrite Ho.
    change (ring (negb c) (mkEventQueue _ _ _ _ _)) with (ring (negb c) q).
    change (ring c (mkEventQueue _ _ _ _ _)) with (ring c q). rewrite Hph. by rewrite app_nil_r.
  - exists c. by eapply inv_handle.
  - destruct Hi as [Hc Hm Hf Hp Hw Hph Hk Ho Ha]. sysn in *. subst c. exists (negb b).
    apply is_empty_nil in He; [|apply Hw].
    split; sysn; rewrite ?negb_involutive; auto.
    + destruct Hk as [?|[?|[?|?]]]; [by left|done|by right; right; left|by right; right; right].
    + rewrite Ho, events_app. cbn. by rewrite app_nil_r, negb_involutive.
    + rewrite replay_events_app, Ha. done.
Qed.

Lemma eq_reachable_inv y : rtc step (initial_sys size s0) y -> exists c, eq_inv y c.
Proof.
  intros Hr. assert (exists c, eq_inv (initial_sys size s0) c) as H0 by (exists true; apply initial_inv).
  induction Hr as [|y1 y2 y3 Hs _ IH]; [done|]. apply IH. destruct H0 as [c Hc]. by eapply inv_step.
Qed.

(** ** Progress of the consumer *)
Definition consumes (y y' : @eq_sys St) : Prop :=
  consumer_step process_event func commit_batch y = Some (Done y').

Lemma consumes_step y y' : consumes y y' -> step y y'.
Proof.
  destruct y as [q n ph s rcs acc hd]. unfold consumes, consumer_step.
  destruct ph as [| |b|]; [| | |done].
  - destruct (read_fd q) eqn:E; [|done]. intros [= <-]. by constructor.
  - destruct (swap_queues q) as [[b q']| |] eqn:E; [|done..]. intros [= <-]. by constructor.
  - destruct (is_empty (ring b q)) eqn:E; [intros [= <-]; by constructor|].
    destruct (take_head (ring b q)) as [[e r]| |] eqn:Et; [|done..]. cbn [obind].
    destruct (handle e s rcs) as [[s' rcs'] go] eqn:Eh. intros [= <-]. by econstructor.
Qed.

(** the events accepted and not yet handled, and a measure that every step
    of the consumer decreases while there are some *)
Definition backlog (y : @eq_sys St) : nat := length (es_accepted y) - length (events (es_handled y)).

Definition phase_weight (y : @eq_sys St) : nat :=
  match es_phase y with
  | Waiting => 2
  | Woken => 1
  | Draining b => if is_empty (ring b (es_queue y)) then 3 else 0
  | Exited => 0
  end%nat.

Definition work (y : @eq_sys St) : nat := (4 * backlog y + phase_weight y)%nat.

Lemma phase_weight_le y : (phase_weight y <= 3)%nat.
Proof. unfold phase_weight. destruct (es_phase y); [lia..| |lia]. destruct (is_empty _); lia. Qed.

Lemma backlog_rings y c :
  eq_inv y c -> backlog y = (length (abs (ring (negb c) (es_queue y)))
                             + length (abs (ring c (es_queue y))))%nat.
Proof. intros Hi. unfold backlog. rewrite (inv_order _ _ Hi), !length_app. lia. Qed.

Lemma consumer_progress y c :
  eq_inv y c -> es_pending y = 0 -> es_phase y <> Exited -> backlog y <> 0%nat ->
  exists y', consumes y y' /\ (work y' < work y)%nat
    /\ es_pending y' = 0 /\ es_accepted y' = es_accepted y.
Proof.
  intros Hi Hp Hx Hb. pose proof (backlog_rings y c Hi) as Hbl.
  pose proof Hi as [Hc Hm Hf _ Hw Hph Hk Ho Ha]. unfold consumes, work.
  destruct y as [q n ph s rcs acc hd]. sysn in *. subst n. destruct ph as [| |b|]; [| | |done].
  - rewrite Hph in Hbl. cbn [length] in Hbl. cbn [consumer_step]. unfold read_fd.
    destruct (Z.eqb_spec (event_fd q) 0) as [E|E].
    { destruct Hk as [Hk|[?|?]]; [rewrite Hk in Hbl; done|done|lia]. }
    eexists. split; [reflexivity|]. unfold phase_weight, backlog. sysn. splits; (done || lia).
  - rewrite Hph in Hbl. cbn [length] in Hbl. cbn [consumer_step]. unfold swap_queues. rewrite Hc.
    eexists. split; [reflexivity|]. unfold phase_weight, backlog in *. sysn in *. splits; [|done..].
    change (ring c (mkEventQueue _ _ _ _ _)) with (ring c q).
    destruct (is_empty (ring c q)) eqn:E; [|lia].
    apply is_empty_nil in E; [|apply Hw]. rewrite E in Hbl. done.
  - cbn [consumer_step]. destruct (is_empty (ring b q)) eqn:E.
    + eexists. split; [reflexivity|]. unfold phase_weight, backlog in *. sysn.
      rewrite E, events_app, app_nil_r. splits; (done || lia).
    + destruct (abs (ring b q)) as [|e l] eqn:El.
      { apply is_empty_nil in El; [congruence|apply Hw]. }
      destruct (take_head_cons _ _ _ (proj1 (Hw b)) El) as (r & Et & _). rewrite Et. cbn [obind].
      destruct (handle e s rcs) as [[s' rcs'] go] eqn:Eh.
      eexists. split; [reflexivity|]. splits; [|done..].
      match goal with |- (4 * backlog ?z + _ < _)%nat => pose proof (phase_weight_le z) end.
      unfold backlog in *. sysn in *. rewrite events_app, length_app. cbn [length events omap]. cbn. lia.
Qed.

Lemma not_exited y c :
  eq_inv y c -> (forall e, e ∈ es_accepted y -> evt_type e <> EVT_THREAD_EXIT) -> es_phase y <> Exited.
Proof.
  intros Hi Hn E. pose proof (inv_phase _ _ Hi) as H. rewrite E in H. destruct H as (e & He & Ht).
  apply (Hn e); [|done]. rewrite (inv_order _ _ Hi). apply elem_of_app. by left.
Qed.

Lemma consumer_catches_up y c :
  eq_inv y c -> es_pending y = 0 ->
  (forall e, e ∈ es_accepted y -> evt_type e <> EVT_THREAD_EXIT) ->
  exists y', rtc consumes y y' /\ es_accepted y' = es_accepted y
    /\ events (es_handled y') = es_accepted y'.
Proof.
  remember (work y) as k eqn:Ek. revert y c Ek.
  induction (lt_wf k) as [k _ IH]. intros y c -> Hi Hp Hn.
  destruct (decide (backlog y = 0%nat)) as [Hb|Hb].
  - exists y. splits; [apply rtc_refl|done|]. rewrite (backlog_rings y c Hi) in Hb.
    rewrite (inv_order _ _ Hi). destruct (abs (ring (negb c) _)), (abs (ring c _)); try done.
    by rewrite !app_nil_r.
  - destruct (consumer_progress y c Hi Hp (not_exited y c Hi Hn) Hb) as (y1 & Hs & Hw & Hp1 & Ha1).
    destruct (inv_step y y1 c Hi (consumes_step _ _ Hs)) as (c1 & Hi1).
    destruct (IH (work y1) Hw y1 c1 eq_refl Hi1 Hp1) as (y2 & Hr & Ha2 & Hh); [by rewrite Ha1|].
    exists y2. splits; [by eapply rtc_l|congruence|done].
Qed.
End Invariant.

(** ** Properties *)
Section Properties.
Context {St : Type}.
Variable process_event : S5Event -> St -> St.
Variable func : Z -> St -> Z * St.
Variable commit_batch : St -> St.

(** C29 (events handled once and in order): whatever the interleaving of
    producers with the thread, the events the thread has handled are a prefix
    of the events [post_event] accepted, in the order of acceptance; the
    state of the thread and the answers of synchronous calls are those of
    handling exactly these events in this order; at most twice the size of
    the queue wait, and a producer finds the queue usable: it is accepted,
    or refused with -EAGAIN when the current ring is full. *)
Theorem events_in_order (size : Z) (s0 : St) (y : @eq_sys St) :
  0 <= size < 2 ^ 31 - 1 ->
  rtc (eq_step process_event func commit_batch) (initial_sys size s0) y ->
  exists rest, es_accepted y = events (es_handled y) ++ rest
    /\ Z.of_nat (length rest) <= 2 * size
    /\ replay_events process_event func commit_batch (es_handled y) s0 [] = (es_app y, es_rcs y)
    /\ forall e, (exists q, post_locked e (es_queue y) = Done (0, q))
         \/ (size <= Z.of_nat (length rest) /\ post_locked e (es_queue y) = Done (- EAGAIN, es_queue y)).
Proof.
  intros Hs Hr. destruct (eq_reachable_inv _ _ _ _ _ Hs y Hr) as (c & Hi).
  pose proof Hi as [Hc _ _ _ Hw _ _ Ho Ha].
  destruct (Hw c) as [Hwc Hdc], (Hw (negb c)) as [Hwn Hdn].
  pose proof (abs_bound _ Hwc). pose proof (abs_bound _ Hwn).
  eexists. splits; [exact Ho|rewrite length_app; lia|exact Ha|].
  intros e. destruct (post_locked_spec e _ c Hc Hwc) as [[_ (r & E & _)]|[Hl E]]; [left; by eexists|].
  right. rewrite length_app. split; [lia|done].
Qed.

(** C30 (no lost wakeup): when no producer is between its append and its write
    to the eventfd, the thread, run alone from any state an interleaving
    reaches, is never left blocked with an accepted event: it handles all of
    them in finitely many steps. *)
Theorem no_lost_wakeup (size : Z) (s0 : St) (y : @eq_sys St) :
  0 <= size < 2 ^ 31 - 1 ->
  rtc (eq_step process_event func commit_batch) (initial_sys size s0) y ->
  es_pending y = 0 ->
  (forall e, e ∈ es_accepted y -> evt_type e <> EVT_THREAD_EXIT) ->
  exists y', rtc (consumes process_event func commit_batch) y y'
    /\ es_accepted y' = es_accepted y /\ events (es_handled y') = es_accepted y'.
Proof.
  intros Hs Hr Hp Hn. destruct (eq_reachable_inv _ _ _ _ _ Hs y Hr) as (c & Hi).
  by eapply consumer_catches_up.
Qed.
End Properties.

(** ** A concrete interleaving *)
Module EventDemo.
Definition process (e : S5Event) (s : list Z) : list Z := s ++ [evt_arg_i e].
Definition call (p : Z) (s : list Z) : Z * list Z := (Z.of_nat (length s), s).
Definition commit (s : list Z) : list Z := s.

Inductive act : Type :=
| Post (e : S5Event)
| Signal
| Consume.

Definition run_act (a : act) (y : @eq_sys (list Z)) : option eq_sys :=
  match a, y with
  | Post e, mkSys q n ph s rcs acc hd =>
      match post_locked e q with
      | Done (0, q) => Some (mkSys q (n + 1) ph s rcs (acc ++ [e]) hd)
      | _ => None
      end
  | Signal, mkSys q n ph s rcs acc hd =>
      if 0 <? n then Some (mkSys (post_signal q) (n - 1) ph s rcs acc hd) else None
  | Consume, y => match consumer_step process call commit y with Some (Done y) => Some y | _ => None end
  end.

Definition run_acts (l : list act) (y : eq_sys) : option eq_sys :=
  foldl (fun o a => y ← o; run_act a y) (Some y) l.

Lemma run_act_step a y y' : run_act a y = Some y' -> eq_step process call commit y y'.
Proof.
  destruct a as [e| |]; destruct y as [q n ph s rcs acc hd]; cbn [run_act].
  - destruct (post_locked e q) as [[rc q']| |] eqn:E; [|done..]. destruct rc; [|done..].
    intros [= <-]. by constructor.
  - destruct (Z.ltb_spec 0 n); [|done]. intros [= <-]. by constructor.
  - destruct (consumer_step _ _ _ _) as [[y| |]|] eqn:E; [|done..]. intros [= <-].
    by apply consumes_step.
Qed.

Lemma run_acts_rtc l y y' : run_acts l y = Some y' -> rtc (eq_step process call commit) y y'.
Proof.
  revert y'. induction l as [|a l IH] using rev_ind; intros y'; unfold run_acts in *.
  - intros [= <-]. apply rtc_refl.
  - rewrite foldl_app. cbn. destruct (foldl _ _ l) as [y1|] eqn:E; [|done]. cbn.
    intros H. eapply rtc_r; [by apply IH|by eapply run_act_step].
Qed.

Definition ev (i : Z) : S5Event := mkEvent EVT_IO_REQ i 0 0.

(** The second event arrives between the read of the eventfd and the swap,
    the third and a synchronous call while the ring is emptied. *)
Definition sched : list act :=
  [Post (ev 1); Signal; Consume; Post (ev 2); Consume; Consume; Signal; Post (ev 3);
   Consume; Post (mkEvent EVT_SYNC_INVOKE 0 77 0); Signal; Consume; Signal].

Definition y : eq_sys := default (initial_sys 4 []) (run_acts sched (initial_sys 4 [])).

Lemma y_reachable : rtc (eq_step process call commit) (initial_sys 4 []) y.
Proof. apply (run_acts_rtc sched). vm_compute. reflexivity. Qed.
End EventDemo.

Lemma events_in_order_witness :
  exists rest, es_accepted EventDemo.y = events (es_handled EventDemo.y) ++ rest
    /\ rest = [EventDemo.ev 3; mkEvent EVT_SYNC_INVOKE 0 77 0].
Proof.
  destruct (events_in_order EventDemo.process EventDemo.call EventDemo.commit 4 [] EventDemo.y
              ltac:(lia) EventDemo.y_reachable) as (rest & Hr & _).
  exists rest. split; [exact Hr|]. vm_compute in Hr.
  injection Hr as <-. reflexivity.
Defined.

Lemma no_lost_wakeup_witness :
  exists y', rtc (consumes EventDemo.process EventDemo.call EventDemo.commit) EventDemo.y y'
    /\ es_accepted y' = es_accepted EventDemo.y /\ events (es_handled y') = es_accepted y'.
Proof.
  apply (no_lost_wakeup EventDemo.process EventDemo.call EventDemo.commit 4 [] EventDemo.y
           ltac:(lia) EventDemo.y_reachable).
  - vm_compute. reflexivity.
  - intros e He Ht. vm_compute in He.
    repeat (apply elem_of_cons in He as [->|He]; [vm_compute in Ht; discriminate Ht|]).
    by apply not_elem_of_nil in He.
Defined.
