(* ===== verification/SpdkQueue.v ===== *)
(** * Event queues and event threads over SPDK

    Model of PfSpdkQueue (src/common/src/pf_spdk_ring.cpp) and of the loop
    of an event thread over it (src/common/src/pf_event_thread.cpp,
    [event_queue_run_batch], [thread_poll], [thread_update_stats],
    [thread_proc_spdkr]), which dispatchers, replicators and disks run on
    when the SPDK engine is used, in place of EventQueue.

    An event travels in a message. A thread with a queue of its own takes
    the message from [msg_cache] of its own queue, any other thread from
    [msg_cache_locked] of the receiving queue, under its spin lock; the
    message is enqueued to a ring and goes back to a cache of the receiving
    queue after its event was handled. [sp_step] interleaves any number of
    threads: a producer takes a message and enqueues it in two steps, and a
    handler, which may post events itself, runs between two steps.

    The ring and the memory pool are those of SPDK: a ring is a queue which
    may refuse a message and gives any number of messages, at most those
    asked for, in the order in which they were enqueued.

    The theorems state that no message is ever in two places or lost but by
    a ring that refuses it, and that a thread handles the events its ring
    accepted exactly once and in order; further what happens when a cache
    is empty, and that the fourth argument of an event is not passed on. *)

From Stdlib Require Import ZArith Lia.
From stdpp Require Import base tactics list numbers relations functions.
From S2P Require Import Prelude Runs EventQueue.

(** ** Data *)
Definition EVT_GET_STAT : Z := 19.
Definition MEMPOOL_CACHE_SIZE : nat := 1024.
Definition MSG_BATCH_SIZE : Z := 8.
Definition BATH_PROCESS : Z := 8.

Record pf_spdk_msg : Type := mkMsg {
  msg_event : S5Event;
  lock_cache_msg : bool
}.

(** Messages are named by numbers. [sq_lock] says that the spin lock is
    held outside of the operations below, [sq_zeroed] that the memory of the
    object was zero when it was created: the constructor leaves the heads of
    the two lists as it finds them. *)
Record PfSpdkQueue : Type := mkSpdkQueue {
  sq_messages : list nat;
  msg_cache : list nat;
  msg_cache_locked : list nat;
  sq_lock : bool;
  sq_zeroed : bool
}.

(** ** The operations of a queue *)

(** [init]: whether the ring, the pool and its messages [msgs] are given *)
Definition sq_init (ring_ok pool_ok bulk_ok zeroed : bool) (msgs : list nat) : Z * PfSpdkQueue :=
  let q := mkSpdkQueue [] [] [] false zeroed in
  if negb ring_ok then (-1, q)
  else if negb pool_ok then (-1, q)
  else if bulk_ok
  then (0, mkSpdkQueue [] (reverse (take MEMPOOL_CACHE_SIZE msgs))
             (reverse (take MEMPOOL_CACHE_SIZE (drop MEMPOOL_CACHE_SIZE msgs))) false zeroed)
  else (0, q).

(** the first message of a list; the end of the list is what the head was
    at the start *)
Definition slist_first (zeroed : bool) (l : list nat) : outcome (option (nat * list nat)) :=
  match l with
  | m :: l => Done (Some (m, l))
  | [] => if zeroed then Done None else Undef
  end.

(** the branch of [post_event] for a thread whose own queue is [q] *)
Definition take_own (q : PfSpdkQueue) : outcome (option nat * PfSpdkQueue) :=
  let* f := slist_first (sq_zeroed q) (msg_cache q) in
  match f with
  | None => Done (None, q)
  | Some (m, l) =>
      Done (Some m, mkSpdkQueue (sq_messages q) l (msg_cache_locked q) (sq_lock q) (sq_zeroed q))
  end.

(** the branch for any other thread: it spins while the lock is held, and
    returns with the lock when there is no message *)
Definition take_locked (q : PfSpdkQueue) : run (option nat * PfSpdkQueue) :=
  if sq_lock q then Done None
  else let* f := slist_first (sq_zeroed q) (msg_cache_locked q) in
       match f with
       | None => ret (None, mkSpdkQueue (sq_messages q) (msg_cache q) (msg_cache_locked q) true (sq_zeroed q))
       | Some (m, l) => ret (Some m, mkSpdkQueue (sq_messages q) (msg_cache q) l false (sq_zeroed q))
       end.

(** the fields of a message that a post writes *)
Definition fill (locked : bool) (e : S5Event) (m : pf_spdk_msg) : pf_spdk_msg :=
  mkMsg (mkEvent (evt_type e) (evt_arg_i e) (evt_arg_p e) (evt_arg_q (msg_event m))) locked.

(** [spdk_ring_enqueue] of one message; [room] is the answer of the ring *)
Definition enqueue (room : bool) (m : nat) (q : PfSpdkQueue) : Z * PfSpdkQueue :=
  if room
  then (0, mkSpdkQueue (sq_messages q ++ [m]) (msg_cache q) (msg_cache_locked q) (sq_lock q) (sq_zeroed q))
  else (-1, q).

(** [get_events]; the ring has [k] messages ready *)
Definition get_events (max_events : Z) (k : nat) (q : PfSpdkQueue) : list nat * PfSpdkQueue :=
  let max_events := if 0 <? max_events then Z.min max_events MSG_BATCH_SIZE else MSG_BATCH_SIZE in
  let n := Nat.min k (Z.to_nat max_events) in
  (take n (sq_messages q),
   mkSpdkQueue (drop n (sq_messages q)) (msg_cache q) (msg_cache_locked q) (sq_lock q) (sq_zeroed q)).

(** what [put_event] writes into the message *)
Definition clear (m : pf_spdk_msg) : pf_spdk_msg :=
  mkMsg (mkEvent 0 0 0 (evt_arg_q (msg_event m))) (lock_cache_msg m).

(** [put_event]: the message [m] goes back to a cache of [q] *)
Definition put_event (locked : bool) (m : nat) (q : PfSpdkQueue) : run PfSpdkQueue :=
  if locked then
    if sq_lock q then Done None
    else ret (mkSpdkQueue (sq_messages q) (msg_cache q) (m :: msg_cache_locked q) false (sq_zeroed q))
  else ret (mkSpdkQueue (sq_messages q) (m :: msg_cache q) (msg_cache_locked q) (sq_lock q) (sq_zeroed q)).

(** ** Threads and messages *)

(** what the switch of [event_queue_run_batch] does with an event *)
Inductive action : Type :=
| Invoke (arg : Z)
| Exit
| GetStat (ctx : Z)
| Process (e : S5Event).

Definition dispatch (e : S5Event) : action :=
  if evt_type e =? EVT_SYNC_INVOKE then Invoke (evt_arg_p e)
  else if evt_type e =? EVT_THREAD_EXIT then Exit
  else if evt_type e =? EVT_GET_STAT then GetStat (evt_arg_p e)
  else Process e.

Record pf_thread_stats : Type := mkStats {
  busy_tsc : Z;
  idle_tsc : Z;
  tsc_last : Z
}.

Definition thread_update_stats (end_ start rc : Z) (st : pf_thread_stats) : pf_thread_stats :=
  let d := u64 (end_ - start) in
  if rc =? 0 then mkStats (busy_tsc st) (u64 (idle_tsc st + d)) end_
  else if 0 <? rc then mkStats (u64 (busy_tsc st + d)) (idle_tsc st) end_
  else mkStats (busy_tsc st) (idle_tsc st) end_.

(** [th_batch] holds the messages of [events] from the current one on;
    [th_running] says that the event of the first one is being handled.
    [th_accepted] and [th_handled] are the histories of the events the ring
    accepted and of the events given to a handler; [th_polls] counts the
    calls of [func_run]. *)
Record spdk_thread : Type := mkThread {
  th_queue : PfSpdkQueue;
  th_batch : list nat;
  th_running : bool;
  exiting : bool;
  proceessed_events : Z;
  th_polls : nat;
  th_accepted : list S5Event;
  th_handled : list S5Event
}.

Definition set_queue (q : PfSpdkQueue) (th : spdk_thread) : spdk_thread :=
  mkThread q (th_batch th) (th_running th) (exiting th) (proceessed_events th) (th_polls th)
    (th_accepted th) (th_handled th).

(** [sp_hands]: the producers that have taken a message and not enqueued it
    yet, with the receiving thread, the message and the event; [sp_lost]:
    the messages a ring has refused. *)
Record spdk_sys : Type := mkSpdk {
  sp_threads : list spdk_thread;
  sp_msgs : nat -> pf_spdk_msg;
  sp_hands : list (nat * nat * S5Event);
  sp_lost : list nat
}.

Definition put_thread (t : nat) (th : spdk_thread) (s : spdk_sys) : spdk_sys :=
  mkSpdk (<[t := th]> (sp_threads s)) (sp_msgs s) (sp_hands s) (sp_lost s).

Definition get_thread (t : nat) (s : spdk_sys) : outcome spdk_thread :=
  match sp_threads s !! t with Some th => Done th | None => Undef end.

(** the message [m] is filled and in the hands of a producer for [t] *)
Definition to_hand (t m : nat) (locked : bool) (e : S5Event) (s : spdk_sys) : spdk_sys :=
  mkSpdk (sp_threads s) (<[m := fill locked e (sp_msgs s m)]> (sp_msgs s)) ((t, m, e) :: sp_hands s) (sp_lost s).

(** [post_event] to the thread [t] up to the ring; [tls_queue] is the queue
    of the posting thread. [false]: there is no message, and 0 is returned. *)
Definition post_begin (tls_queue : option nat) (t : nat) (e : S5Event) (s : spdk_sys) : run (bool * spdk_sys) :=
  match tls_queue with
  | Some a =>
      let* th := get_thread a s in
      let* (m, q) := take_own (th_queue th) in
      let s := put_thread a (set_queue q th) s in
      match m with Some m => ret (true, to_hand t m false e s) | None => ret (false, s) end
  | None =>
      let* th := get_thread t s in
      let? (m, q) := take_locked (th_queue th) in
      let s := put_thread t (set_queue q th) s in
      match m with Some m => ret (true, to_hand t m true e s) | None => ret (false, s) end
  end.

(** [post_event_locked] up to the ring: the message is not compared with NULL *)
Definition post_locked_begin (t : nat) (e : S5Event) (s : spdk_sys) : run spdk_sys :=
  let* th := get_thread t s in
  let? (m, q) := take_locked (th_queue th) in
  match m with
  | Some m => ret (to_hand t m true e (put_thread t (set_queue q th) s))
  | None => Undef
  end.

(** the rest of both, for the producer number [h] *)
Definition post_end (h : nat) (room : bool) (s : spdk_sys) : outcome (Z * spdk_sys) :=
  match sp_hands s !! h with
  | None => Undef
  | Some (t, m, e) =>
      let* th := get_thread t s in
      let (rc, q) := enqueue room m (th_queue th) in
      let th := mkThread q (th_batch th) (th_running th) (exiting th) (proceessed_events th) (th_polls th)
                  (if room then th_accepted th ++ [e] else th_accepted th) (th_handled th) in
      Done (rc, mkSpdk (<[t := th]> (sp_threads s)) (sp_msgs s) (delete h (sp_hands s))
                  (if room then sp_lost s else m :: sp_lost s))
  end.

Definition post_event (tls_queue : option nat) (t : nat) (e : S5Event) (room : bool) (s : spdk_sys)
    : run (Z * spdk_sys) :=
  let? (got, s) := post_begin tls_queue t e s in
  if got then lift (post_end 0 room s) else ret (0, s).

Definition post_event_locked (t : nat) (e : S5Event) (room : bool) (s : spdk_sys) : run (Z * spdk_sys) :=
  let? s := post_locked_begin t e s in lift (post_end 0 room s).

(** ** The loop of a thread *)

(** the start of [thread_poll], with [k] messages ready: a batch, or one
    call of [func_run] *)
Definition poll_begin (k : nat) (th : spdk_thread) : spdk_thread :=
  let (ms, q) := get_events BATH_PROCESS k (th_queue th) in
  mkThread q ms false (exiting th) (proceessed_events th)
    (match ms with [] => S (th_polls th) | _ => th_polls th end) (th_accepted th) (th_handled th).

(** the switch, for the first message of the batch *)
Definition batch_handle (e : S5Event) (th : spdk_thread) : spdk_thread :=
  mkThread (th_queue th) (th_batch th) true
    (match dispatch e with Exit => true | _ => exiting th end) (proceessed_events th) (th_polls th)
    (th_accepted th) (th_handled th ++ [e]).

(** the end of a turn of the loop over the batch *)
Definition batch_put (t : nat) (s : spdk_sys) : run spdk_sys :=
  let* th := get_thread t s in
  match th_batch th with
  | [] => Undef
  | m :: ms =>
      let? q := put_event (lock_cache_msg (sp_msgs s m)) m (th_queue th) in
      ret (mkSpdk (<[t := mkThread q ms false (exiting th) ((proceessed_events th + 1) mod 2 ^ 32) (th_polls th)
                            (th_accepted th) (th_handled th)]> (sp_threads s))
             (<[m := clear (sp_msgs s m)]> (sp_msgs s)) (sp_hands s) (sp_lost s))
  end.

(** ** Steps *)
Inductive sp_step : spdk_sys -> spdk_sys -> Prop :=
| st_post tls t e got s s' : post_begin tls t e s = ret (got, s') -> sp_step s s'
| st_post_locked t e s s' : post_locked_begin t e s = ret s' -> sp_step s s'
| st_enqueue h room rc s s' : post_end h room s = Done (rc, s') -> sp_step s s'
| st_poll t k th s :
    sp_threads s !! t = Some th -> exiting th = false -> th_batch th = [] ->
    sp_step s (put_thread t (poll_begin k th) s)
| st_handle t th m ms s :
    sp_threads s !! t = Some th -> th_batch th = m :: ms -> th_running th = false ->
    sp_step s (put_thread t (batch_handle (msg_event (sp_msgs s m)) th) s)
| st_put t th s s' :
    sp_threads s !! t = Some th -> th_running th = true -> batch_put t s = ret s' -> sp_step s s'.

(** thread [t] after [init] and before its first turn *)
Definition start_thread (t : nat) : spdk_thread :=
  mkThread (sq_init true true true true (seq (t * (2 * MEMPOOL_CACHE_SIZE)) (2 * MEMPOOL_CACHE_SIZE))).2
    [] false false 0 0 [] [].

(** [n] threads; the contents of the messages are what the pool gives *)
Definition boot (n : nat) (msgs : nat -> pf_spdk_msg) : spdk_sys :=
  mkSpdk (start_thread <$> seq 0 n) msgs [] [].

(** ** Where messages are *)

(** messages without an event: in a cache, or with a handled event *)
Definition free_of (th : spdk_thread) : list nat :=
  msg_cache (th_queue th) ++ msg_cache_locked (th_queue th)
  ++ (if th_running th then take 1 (th_batch th) else []).

(** messages with an event to handle, in order *)
Definition pend_of (th : spdk_thread) : list nat :=
  (if th_running th then drop 1 (th_batch th) else th_batch th) ++ sq_messages (th_queue th).

Definition free_ids (s : spdk_sys) : list nat := concat (free_of <$> sp_threads s).
Definition pend_ids (s : spdk_sys) : list nat := concat (pend_of <$> sp_threads s).
Definition hand_ids (s : spdk_sys) : list nat := (fun h => h.1.2) <$> sp_hands s.

Definition all_ids (s : spdk_sys) : list nat := free_ids s ++ hand_ids s ++ pend_ids s ++ sp_lost s.

(** what a handler gets of an event *)
Definition args (e : S5Event) : Z * Z * Z := (evt_type e, evt_arg_i e, evt_arg_p e).

Abbreviation content s := (fun m => args (msg_event (sp_msgs s m))).

(** ** Counting *)
Definition occ (x : nat) (l : list nat) : nat := count_occ Nat.eq_dec l x.
#[local] Arguments occ : simpl never.
#[local] Arguments all_ids : simpl never.

Lemma occ_app x l1 l2 : occ x (l1 ++ l2) = (occ x l1 + occ x l2)%nat.
Proof. apply count_occ_app. Qed.

Lemma occ_cons x y l : occ x (y :: l) = (occ x [y] + occ x l)%nat.
Proof. apply (occ_app x [y]). Qed.

Lemma occ_self x : occ x [x] = 1%nat.
Proof. unfold occ. cbn. by destruct (Nat.eq_dec x x). Qed.

Lemma occ_elem x l : x ∈ l <-> (0 < occ x l)%nat.
Proof. rewrite list_elem_of_In. apply count_occ_In. Qed.

Lemma occ_nil x : occ x [] = 0%nat.
Proof. done. Qed.

Lemma occ_concat_insert {A} (f : A -> list nat) l i a b x :
  l !! i = Some a ->
  (occ x (concat (f <$> <[i := b]> l)) + occ x (f a) = occ x (concat (f <$> l)) + occ x (f b))%nat.
Proof.
  revert i. induction l as [|c l IH]; intros [|i] H; csimpl in *; simplify_eq; rewrite ?occ_app; [lia|].
  specialize (IH i H). lia.
Qed.

Lemma occ_concat_le {A} (f : A -> list nat) l i a x :
  l !! i = Some a -> (occ x (f a) <= occ x (concat (f <$> l)))%nat.
Proof.
  revert i. induction l as [|c l IH]; intros [|i] H; csimpl in *; simplify_eq; rewrite ?occ_app; [lia|].
  specialize (IH i H). lia.
Qed.

Lemma occ_perm x l l' : l ≡ₚ l' -> occ x l = occ x l'.
Proof. intros H. by apply Permutation_count_occ. Qed.

Lemma occ_delete (l : list nat) i m x :
  l !! i = Some m -> (occ x (delete i l) + occ x [m] = occ x l)%nat.
Proof. intros H%delete_Permutation. rewrite (occ_perm x _ _ H), (occ_cons x m (delete i l)). lia. Qed.

Lemma occ_seq x a n : occ x (seq a n) = (if decide (a <= x < a + n)%nat then 1 else 0)%nat.
Proof.
  revert a. induction n as [|n IH]; intros a; [case_decide; [lia|done]|].
  cbn [seq]. rewrite occ_cons, IH. unfold occ. cbn. destruct (Nat.eq_dec a x); repeat case_decide; lia.
Qed.

Lemma occ_reverse x l : occ x (reverse l) = occ x l.
Proof. apply occ_perm, reverse_Permutation. Qed.

(** ** The invariant

    [s0] is the state at the start. *)
Record sp_inv (s0 s : spdk_sys) : Prop := {
  si_ids : forall x, occ x (all_ids s) = occ x (all_ids s0);
  si_run : forall t th, sp_threads s !! t = Some th -> th_running th = true -> th_batch th <> [];
  si_events : forall t th, sp_threads s !! t = Some th ->
    args <$> th_accepted th = (args <$> th_handled th) ++ (content s <$> pend_of th);
  si_hands : forall t m e, (t, m, e) ∈ sp_hands s -> args (msg_event (sp_msgs s m)) = args e;
  si_arg_q : forall m, evt_arg_q (msg_event (sp_msgs s m)) = evt_arg_q (msg_event (sp_msgs s0 m));
  si_handled : forall t th e, sp_threads s !! t = Some th -> e ∈ th_handled th ->
    exists m, evt_arg_q e = evt_arg_q (msg_event (sp_msgs s0 m))
}.

Definition unique (s : spdk_sys) : Prop := forall x, (occ x (all_ids s) <= 1)%nat.

Lemma occ_all x s :
  occ x (all_ids s) = (occ x (free_ids s) + occ x (hand_ids s) + occ x (pend_ids s) + occ x (sp_lost s))%nat.
Proof. unfold all_ids. rewrite !occ_app. lia. Qed.

(** a free message is not that of an event *)
Lemma free_not_pending s t th m t' th' :
  unique s -> sp_threads s !! t = Some th -> m ∈ free_of th -> sp_threads s !! t' = Some th' -> m ∉ pend_of th'.
Proof.
  rewrite !occ_elem. intros Hu Ht Hm Ht' Hp. specialize (Hu m). rewrite occ_all in Hu.
  pose proof (occ_concat_le free_of _ _ _ m Ht). pose proof (occ_concat_le pend_of _ _ _ m Ht').
  unfold free_ids, pend_ids in Hu. lia.
Qed.

Lemma free_not_in_hand s t th m t' e :
  unique s -> sp_threads s !! t = Some th -> m ∈ free_of th -> (t', m, e) ∉ sp_hands s.
Proof.
  intros Hu Ht Hm Hh. specialize (Hu m). rewrite occ_all in Hu. apply occ_elem in Hm.
  pose proof (occ_concat_le free_of _ _ _ m Ht).
  assert (m ∈ hand_ids s) as H1%occ_elem by (apply list_elem_of_fmap; by exists (t', m, e)).
  unfold free_ids in Hu. lia.
Qed.

(** writing a message which no list of events has does not change them *)
Lemma content_write (f : nat -> pf_spdk_msg) m v (l : list nat) :
  m ∉ l ->
  (fun m' => args (msg_event ((<[m := v]> f) m'))) <$> l = (fun m' => args (msg_event (f m'))) <$> l.
Proof.
  intros Hm. apply list_fmap_ext. intros i m' Hi. rewrite fn_lookup_insert_ne; [done|].
  intros ->. by apply list_elem_of_lookup_2 in Hi.
Qed.

(** a thread of [<[t := th']> l] is [th'] or one of [l] *)
Lemma insert_cases {A} (l : list A) t (x y : A) u z :
  l !! t = Some y -> <[t := x]> l !! u = Some z -> (u = t /\ z = x) \/ (u <> t /\ l !! u = Some z).
Proof.
  intros Hl Hu. destruct (decide (u = t)) as [->|Hne].
  - rewrite list_lookup_insert_eq in Hu by (by eapply lookup_lt_Some). left. by simplify_eq.
  - rewrite list_lookup_insert_ne in Hu by done. by right.
Qed.

Lemma inv_unique s0 s : unique s0 -> sp_inv s0 s -> unique s.
Proof. intros Hu Hi x. rewrite (si_ids _ _ Hi). apply Hu. Qed.

(** a change of one thread that moves messages within it *)
Lemma inv_put_thread s0 s t th th' :
  sp_inv s0 s -> sp_threads s !! t = Some th ->
  (forall x, occ x (free_of th') + occ x (pend_of th') = occ x (free_of th) + occ x (pend_of th))%nat ->
  (th_running th' = true -> th_batch th' <> []) ->
  args <$> th_accepted th' = (args <$> th_handled th') ++ (content s <$> pend_of th') ->
  (forall e, e ∈ th_handled th' -> e ∈ th_handled th \/ exists m, e = msg_event (sp_msgs s m)) ->
  sp_inv s0 (put_thread t th' s).
Proof.
  intros Hi Ht Hocc Hrun Hev Hh. split.
  - intros x. rewrite <- (si_ids _ _ Hi x), !occ_all. unfold free_ids, pend_ids, hand_ids. csimpl.
    pose proof (occ_concat_insert free_of _ _ _ th' x Ht). pose proof (occ_concat_insert pend_of _ _ _ th' x Ht).
    specialize (Hocc x). lia.
  - intros u z Hu. destruct (insert_cases _ _ _ _ _ _ Ht Hu) as [[-> ->]|[_ Hz]]; [done|].
    exact (si_run _ _ Hi _ _ Hz).
  - intros u z Hu. destruct (insert_cases _ _ _ _ _ _ Ht Hu) as [[-> ->]|[_ Hz]]; [done|].
    exact (si_events _ _ Hi _ _ Hz).
  - apply (si_hands _ _ Hi).
  - apply (si_arg_q _ _ Hi).
  - intros u z e Hu He. destruct (insert_cases _ _ _ _ _ _ Ht Hu) as [[-> ->]|[_ Hz]].
    + destruct (Hh e He) as [Ho|[m ->]]; [by eapply si_handled|]. exists m. apply (si_arg_q _ _ Hi).
    + by eapply si_handled.
Qed.

(** a change of the content of a free message, which keeps its [arg_q] *)
Lemma inv_write s0 s t th m v :
  unique s0 -> sp_inv s0 s -> sp_threads s !! t = Some th -> m ∈ free_of th ->
  evt_arg_q (msg_event v) = evt_arg_q (msg_event (sp_msgs s m)) ->
  sp_inv s0 (mkSpdk (sp_threads s) (<[m := v]> (sp_msgs s)) (sp_hands s) (sp_lost s)).
Proof.
  intros Hu Hi Ht Hm Hv. pose proof (inv_unique _ _ Hu Hi) as Hus. split; cbn.
  - apply (si_ids _ _ Hi).
  - apply (si_run _ _ Hi).
  - intros u z Hz. rewrite content_write; [by apply (si_events _ _ Hi u)|].
    exact (free_not_pending _ _ _ _ _ _ Hus Ht Hm Hz).
  - intros u m' e He. rewrite fn_lookup_insert_ne; [by apply (si_hands _ _ Hi u)|].
    intros ->. exact (free_not_in_hand _ _ _ _ _ _ Hus Ht Hm He).
  - intros m'. rewrite <- (si_arg_q _ _ Hi m'). destruct (decide (m' = m)) as [->|].
    + by rewrite fn_lookup_insert.
    + by rewrite fn_lookup_insert_ne.
  - apply (si_handled _ _ Hi).
Qed.

(** a free message with its new content goes into the hands of a producer *)
Lemma inv_hand s0 s t th th' u m e :
  sp_inv s0 s -> sp_threads s !! t = Some th ->
  (forall x, occ x (free_of th') + occ x [m] = occ x (free_of th))%nat ->
  pend_of th' = pend_of th -> th_running th' = th_running th -> th_batch th' = th_batch th ->
  th_accepted th' = th_accepted th -> th_handled th' = th_handled th ->
  args (msg_event (sp_msgs s m)) = args e ->
  sp_inv s0 (mkSpdk (<[t := th']> (sp_threads s)) (sp_msgs s) ((u, m, e) :: sp_hands s) (sp_lost s)).
Proof.
  intros Hi Ht Hocc Hp Hr Hb Ha Hh Hm. split; cbn.
  - intros x. rewrite <- (si_ids _ _ Hi x), !occ_all. unfold free_ids, pend_ids, hand_ids. csimpl.
    pose proof (occ_concat_insert free_of _ _ _ th' x Ht). pose proof (occ_concat_insert pend_of _ _ _ th' x Ht) as H2.
    rewrite Hp in H2. specialize (Hocc x). rewrite (occ_cons x m). lia.
  - intros v z Hv. destruct (insert_cases _ _ _ _ _ _ Ht Hv) as [[-> ->]|[_ Hz]]; [rewrite Hr, Hb|];
      [by apply (si_run _ _ Hi t)|by apply (si_run _ _ Hi v)].
  - intros v z Hv. destruct (insert_cases _ _ _ _ _ _ Ht Hv) as [[-> ->]|[_ Hz]]; [rewrite Ha, Hh, Hp|];
      [by apply (si_events _ _ Hi t)|by apply (si_events _ _ Hi v)].
  - intros v m' e' [He|He]%elem_of_cons; [by injection He as -> -> ->|]. by apply (si_hands _ _ Hi v).
  - apply (si_arg_q _ _ Hi).
  - intros v z e' Hv. destruct (insert_cases _ _ _ _ _ _ Ht Hv) as [[-> ->]|[_ Hz]]; [rewrite Hh|];
      [by apply (si_handled _ _ Hi t)|by apply (si_handled _ _ Hi v)].
Qed.

(** a producer enqueues its message, or loses it *)
Lemma inv_enqueue s0 s h room rc s' : sp_inv s0 s -> post_end h room s = Done (rc, s') -> sp_inv s0 s'.
Proof.
  unfold post_end, get_thread. intros Hi H. destruct (sp_hands s !! h) as [[[t m] e]|] eqn:Eh; [|done].
  destruct (sp_threads s !! t) as [th|] eqn:Et; [|done]. cbn in H.
  pose proof (si_hands _ _ Hi t m e (list_elem_of_lookup_2 _ _ _ Eh)) as Hm.
  assert (hand_ids s !! h = Some m) as Eid by (unfold hand_ids; by rewrite list_lookup_fmap, Eh).
  set (th' := mkThread (enqueue room m (th_queue th)).2 (th_batch th) (th_running th) (exiting th)
                (proceessed_events th) (th_polls th) (if room then th_accepted th ++ [e] else th_accepted th) (th_handled th)).
  assert (pend_of th' = pend_of th ++ (if room then [m] else [])) as Hp
    by (unfold pend_of, th'; destruct room; cbn; by rewrite ?app_assoc, ?app_nil_r).
  assert (free_of th' = free_of th) as Hf by (unfold free_of, th'; by destruct room).
  assert (s' = mkSpdk (<[t := th']> (sp_threads s)) (sp_msgs s) (delete h (sp_hands s))
                 (if room then sp_lost s else m :: sp_lost s)) as -> by (unfold th'; destruct room; by injection H).
  clear H. split; cbn.
  - intros x. rewrite <- (si_ids _ _ Hi x), !occ_all. unfold free_ids, pend_ids. csimpl.
    pose proof (occ_concat_insert free_of _ _ _ th' x Et) as H1. pose proof (occ_concat_insert pend_of _ _ _ th' x Et) as H2.
    pose proof (occ_delete _ _ _ x Eid) as H3. unfold hand_ids in *. rewrite <- list_fmap_delete in H3.
    rewrite Hp, occ_app in H2. rewrite Hf in H1.
    destruct room; [|rewrite (occ_cons x m (sp_lost s)), occ_nil in *]; cbn [sp_hands sp_lost]; lia.
  - intros v z Hv. destruct (insert_cases _ _ _ _ _ _ Et Hv) as [[-> ->]|[_ Hz]];
      [exact (si_run _ _ Hi t th Et)|by apply (si_run _ _ Hi v)].
  - intros v z Hv. destruct (insert_cases _ _ _ _ _ _ Et Hv) as [[-> ->]|[_ Hz]]; [|by apply (si_events _ _ Hi v)].
    pose proof (si_events _ _ Hi t th Et) as He. rewrite Hp. unfold th'. cbn [th_accepted th_handled].
    destruct room; [|by rewrite app_nil_r]. rewrite !fmap_app, He, <- app_assoc. csimpl. by rewrite Hm.
  - intros v m' e' He. apply (si_hands _ _ Hi v). by eapply list_elem_of_delete_inv.
  - apply (si_arg_q _ _ Hi).
  - intros v z e' Hv. destruct (insert_cases _ _ _ _ _ _ Et Hv) as [[-> ->]|[_ Hz]];
      [exact (si_handled _ _ Hi t th e' Et)|by apply (si_handled _ _ Hi v)].
Qed.

(** a message taken from a cache of thread [a] for thread [t] *)
Lemma inv_take s0 s a th q m locked t e :
  unique s0 -> sp_inv s0 s -> sp_threads s !! a = Some th -> sq_messages q = sq_messages (th_queue th) ->
  (forall x, occ x (msg_cache q) + occ x (msg_cache_locked q) + occ x [m]
             = occ x (msg_cache (th_queue th)) + occ x (msg_cache_locked (th_queue th)))%nat ->
  sp_inv s0 (to_hand t m locked e (put_thread a (set_queue q th) s)).
Proof.
  intros Hu Hi Ha Hq Hocc. set (v := fill locked e (sp_msgs s m)).
  assert (forall x, occ x (free_of (set_queue q th)) + occ x [m] = occ x (free_of th))%nat as Hf
    by (intros x; specialize (Hocc x); unfold free_of; cbn; rewrite !occ_app; lia).
  assert (m ∈ free_of th) as Hm by (apply occ_elem; specialize (Hf m); rewrite occ_self in Hf; lia).
  pose proof (inv_write _ _ _ _ m v Hu Hi Ha Hm eq_refl) as Hw.
  apply (inv_hand _ _ a th (set_queue q th) t m e Hw); cbn; try done.
  - unfold pend_of. cbn. by rewrite Hq.
  - by rewrite fn_lookup_insert.
Qed.

Lemma take_own_some q m q' :
  take_own q = Done (Some m, q') ->
  sq_messages q' = sq_messages q /\ msg_cache_locked q' = msg_cache_locked q /\ msg_cache q = m :: msg_cache q'.
Proof. unfold take_own, slist_first. intros H. destruct (msg_cache q); [by destruct sq_zeroed|]. by injection H as -> <-. Qed.

Lemma take_own_none q q' : take_own q = Done (None, q') -> q' = q /\ msg_cache q = [].
Proof. unfold take_own, slist_first. intros H. destruct (msg_cache q); [|done]. destruct sq_zeroed; [|done]. by injection H as <-. Qed.

Lemma take_locked_some q m q' :
  take_locked q = ret (Some m, q') ->
  sq_messages q' = sq_messages q /\ msg_cache q' = msg_cache q /\ msg_cache_locked q = m :: msg_cache_locked q'.
Proof.
  unfold take_locked, slist_first. intros H. destruct (sq_lock q); [done|].
  destruct (msg_cache_locked q); [by destruct sq_zeroed|]. by injection H as -> <-.
Qed.

Lemma take_locked_none q q' :
  take_locked q = ret (None, q') ->
  msg_cache_locked q = [] /\ q' = mkSpdkQueue (sq_messages q) (msg_cache q) [] true (sq_zeroed q).
Proof.
  unfold take_locked, slist_first. intros H. destruct (sq_lock q); [done|].
  destruct (msg_cache_locked q); [|done]. destruct (sq_zeroed q); [|done]. by injection H as <-.
Qed.

(** a change of a queue that moves no message *)
Lemma inv_same_queue s0 s t th q :
  sp_inv s0 s -> sp_threads s !! t = Some th -> sq_messages q = sq_messages (th_queue th) ->
  msg_cache q = msg_cache (th_queue th) -> msg_cache_locked q = msg_cache_locked (th_queue th) ->
  sp_inv s0 (put_thread t (set_queue q th) s).
Proof.
  intros Hi Ht H1 H2 H3. apply (inv_put_thread _ _ _ th); cbn; try done.
  - intros x. unfold free_of, pend_of. cbn. by rewrite H1, H2, H3.
  - by apply (si_run _ _ Hi t).
  - unfold pend_of. cbn. rewrite H1. by apply (si_events _ _ Hi t).
  - intros e. by left.
Qed.

Lemma sp_inv_post s0 s tls t e got s' :
  unique s0 -> sp_inv s0 s -> post_begin tls t e s = ret (got, s') -> sp_inv s0 s'.
Proof.
  unfold post_begin, get_thread. intros Hu Hi H. destruct tls as [a|].
  - destruct (sp_threads s !! a) as [th|] eqn:Ea; [|done]. cbn in H.
    destruct (take_own (th_queue th)) as [[[m|] q]| |] eqn:Eq; try done; cbn in H; injection H as <- <-.
    + apply take_own_some in Eq as (H1 & H2 & H3). apply inv_take; try done.
      intros x. rewrite H2, H3, (occ_cons x m (msg_cache q)). lia.
    + apply take_own_none in Eq as [-> _]. by apply inv_same_queue.
  - destruct (sp_threads s !! t) as [th|] eqn:Ea; [|done]. cbn in H.
    destruct (take_locked (th_queue th)) as [[[[m|] q]|]| |] eqn:Eq; try done; cbn in H; injection H as <- <-.
    + apply take_locked_some in Eq as (H1 & H2 & H3). apply inv_take; try done.
      intros x. rewrite H2, H3, (occ_cons x m (msg_cache_locked q)). lia.
    + apply take_locked_none in Eq as [H1 ->]. by apply inv_same_queue.
Qed.

Lemma inv_post_locked s0 s t e s' :
  unique s0 -> sp_inv s0 s -> post_locked_begin t e s = ret s' -> sp_inv s0 s'.
Proof.
  unfold post_locked_begin, get_thread. intros Hu Hi H.
  destruct (sp_threads s !! t) as [th|] eqn:Ea; [|done]. cbn in H.
  destruct (take_locked (th_queue th)) as [[[[m|] q]|]| |] eqn:Eq; try done; cbn in H; injection H as <-.
  apply take_locked_some in Eq as (H1 & H2 & H3). apply inv_take; try done.
  intros x. rewrite H2, H3, (occ_cons x m (msg_cache_locked q)). lia.
Qed.

Lemma inv_poll s0 s t k th :
  sp_inv s0 s -> sp_threads s !! t = Some th -> th_batch th = [] -> sp_inv s0 (put_thread t (poll_begin k th) s).
Proof.
  intros Hi Ht Hb.
  assert (th_running th = false) as Hr
    by (destruct (th_running th) eqn:E; [|done]; by destruct (si_run _ _ Hi t th Ht E)).
  assert (pend_of (poll_begin k th) = pend_of th) as Hp
    by (unfold pend_of; rewrite Hr, Hb; cbn; by rewrite take_drop).
  apply (inv_put_thread _ _ _ th); [done|done| | | |].
  - intros x. rewrite Hp. unfold free_of. by rewrite Hr.
  - done.
  - rewrite Hp. exact (si_events _ _ Hi t th Ht).
  - intros e. by left.
Qed.

Lemma sp_inv_handle s0 s t th m ms :
  sp_inv s0 s -> sp_threads s !! t = Some th -> th_batch th = m :: ms -> th_running th = false ->
  sp_inv s0 (put_thread t (batch_handle (msg_event (sp_msgs s m)) th) s).
Proof.
  intros Hi Ht Hb Hr. apply (inv_put_thread _ _ _ th); cbn; try done.
  - intros x. unfold free_of, pend_of. cbn. rewrite Hb, Hr, !occ_app. cbn.
    rewrite take_0, drop_0, (occ_cons x m ms), occ_nil. lia.
  - by rewrite Hb.
  - pose proof (si_events _ _ Hi t th Ht) as He. unfold pend_of in *. rewrite Hr, Hb in He. cbn. rewrite Hb. cbn.
    by rewrite He, drop_0, (fmap_app args), <- app_assoc.
  - intros e [He|He]%elem_of_app; [by left|]. apply list_elem_of_singleton in He. right. by exists m.
Qed.

Lemma sp_inv_put s0 s t th s' :
  unique s0 -> sp_inv s0 s -> sp_threads s !! t = Some th -> th_running th = true ->
  batch_put t s = ret s' -> sp_inv s0 s'.
Proof.
  unfold batch_put, get_thread. intros Hu Hi Ht Hr H. rewrite Ht in H. cbn in H.
  destruct (th_batch th) as [|m ms] eqn:Eb; [done|].
  destruct (put_event _ m (th_queue th)) as [[q|]| |] eqn:Eq; try done. cbn in H. injection H as <-.
  assert (sq_messages q = sq_messages (th_queue th) /\
          forall x, (occ x (msg_cache q) + occ x (msg_cache_locked q)
             = occ x (msg_cache (th_queue th)) + occ x (msg_cache_locked (th_queue th)) + occ x [m])%nat) as [Hq Hocc].
  { unfold put_event in Eq. destruct lock_cache_msg; [destruct (sq_lock _); [done|]|]; injection Eq as <-;
      (split; [done|]); intros x; cbn.
    - rewrite (occ_cons x m (msg_cache_locked _)). lia.
    - rewrite (occ_cons x m (msg_cache _)). lia. }
  assert (m ∈ free_of th) as Hm
    by (unfold free_of; rewrite Hr, Eb, !elem_of_app; right; right; apply list_elem_of_singleton; done).
  pose proof (inv_write _ _ _ _ m (clear (sp_msgs s m)) Hu Hi Ht Hm eq_refl) as Hw.
  apply (inv_put_thread _ _ t th _ Hw Ht); cbn; try done.
  - intros x. specialize (Hocc x). unfold free_of, pend_of. cbn. rewrite Hr, Eb, Hq, !occ_app, occ_nil. cbn.
    rewrite take_0, drop_0. lia.
  - pose proof (si_events _ _ Hw t th Ht) as He. unfold pend_of in *. rewrite Hr, Eb in He. cbn in *.
    rewrite drop_0 in He. by rewrite Hq.
  - intros e. by left.
Qed.

Lemma sp_step_inv s0 s s' : unique s0 -> sp_inv s0 s -> sp_step s s' -> sp_inv s0 s'.
Proof.
  intros Hu Hi Hs. destruct Hs.
  - by eapply sp_inv_post.
  - by eapply inv_post_locked.
  - by eapply inv_enqueue.
  - by apply inv_poll.
  - by eapply sp_inv_handle.
  - by eapply sp_inv_put.
Qed.

(** ** The start *)
#[local] Opaque MEMPOOL_CACHE_SIZE.

Lemma start_free t x :
  occ x (free_of (start_thread t)) = occ x (seq (t * (2 * MEMPOOL_CACHE_SIZE)) (2 * MEMPOOL_CACHE_SIZE)).
Proof.
  unfold start_thread, free_of. cbn -[MEMPOOL_CACHE_SIZE Nat.mul seq].
  set (l := seq _ _). rewrite !occ_app, !occ_reverse, occ_nil.
  rewrite (take_ge (drop _ l)) by (unfold l; rewrite length_drop, length_seq; lia).
  rewrite Nat.add_0_r, <- occ_app. by rewrite take_drop.
Qed.

Lemma boot_ids n msgs x : occ x (all_ids (boot n msgs)) = occ x (seq 0 (n * (2 * MEMPOOL_CACHE_SIZE))).
Proof.
  rewrite occ_all. cbn [hand_ids boot sp_hands sp_lost sp_threads fmap list_fmap]. rewrite occ_nil.
  unfold free_ids, pend_ids, boot. cbn [sp_threads].
  induction n as [|n IH]; [done|]. rewrite seq_S, !fmap_app, !concat_app. csimpl.
  rewrite !app_nil_r, !occ_app, start_free, !occ_seq. rewrite occ_seq in IH.
  repeat case_decide; lia.
Qed.

Lemma boot_unique n msgs : unique (boot n msgs).
Proof. intros x. rewrite boot_ids, occ_seq. case_decide; lia. Qed.

Lemma boot_thread n msgs t th : sp_threads (boot n msgs) !! t = Some th <-> (t < n)%nat /\ th = start_thread t.
Proof.
  cbn. rewrite list_lookup_fmap. destruct (decide (t < n)%nat).
  - rewrite lookup_seq_lt by done. cbn. split; [by intros [= <-]|by intros [_ ->]].
  - rewrite lookup_seq_ge by lia. split; [done|intros [? _]; lia].
Qed.

Lemma boot_inv n msgs : sp_inv (boot n msgs) (boot n msgs).
Proof.
  split; try done.
  - intros t th [_ ->]%boot_thread. done.
  - intros t th [_ ->]%boot_thread. done.
  - intros t m e H. by apply elem_of_nil in H.
  - intros t th e [_ ->]%boot_thread H. by apply elem_of_nil in H.
Qed.

Lemma sp_reachable_inv n msgs s : rtc sp_step (boot n msgs) s -> sp_inv (boot n msgs) s.
Proof.
  revert s. apply (rtc_ind_r (fun s => sp_inv (boot n msgs) s)); [apply boot_inv|].
  intros s s' _ Hs IH. exact (sp_step_inv _ _ _ (boot_unique n msgs) IH Hs).
Qed.

(** ** Correctness *)

(** C31 (safety): over any interleaving of threads that post events and
    handle them, every message of the pools is in exactly one place - free,
    with a producer, with an event to handle, or refused by a ring - and
    every thread has handled the events its ring accepted in order and each
    one once, up to those that are still in its batch and its ring. *)
Theorem spdk_events_in_order n msgs s :
  rtc sp_step (boot n msgs) s ->
  free_ids s ++ hand_ids s ++ pend_ids s ++ sp_lost s ≡ₚ seq 0 (n * (2 * MEMPOOL_CACHE_SIZE)) /\
  forall t th, sp_threads s !! t = Some th ->
    args <$> th_accepted th = (args <$> th_handled th) ++ (content s <$> pend_of th).
Proof.
  intros Hi%sp_reachable_inv. split.
  - apply (Permutation_count_occ Nat.eq_dec). intros x. exact (eq_trans (si_ids _ _ Hi x) (boot_ids n msgs x)).
  - apply (si_events _ _ Hi).
Qed.

(** Whatever was posted, the fourth argument a handler gets is what the
    memory of the pool held at the start. *)
Theorem fourth_argument_dropped n msgs s t th e :
  rtc sp_step (boot n msgs) s -> sp_threads s !! t = Some th -> e ∈ th_handled th ->
  exists m, evt_arg_q e = evt_arg_q (msg_event (msgs m)).
Proof. intros Hi%sp_reachable_inv. apply (si_handled _ _ Hi). Qed.

(** The two counters together are the time since the loop was entered. *)
Lemma update_stats_sum end_ start rc st :
  0 <= rc ->
  u64 (busy_tsc (thread_update_stats end_ start rc st) + idle_tsc (thread_update_stats end_ start rc st))
  = u64 (busy_tsc st + idle_tsc st + (end_ - start)).
Proof.
  intros Hrc. unfold thread_update_stats, u64. destruct (Z.eqb_spec rc 0); cbn.
  - by rewrite Zplus_mod_idemp_r, Z.add_assoc, Zplus_mod_idemp_r.
  - rewrite (proj2 (Z.ltb_lt 0 rc)) by lia. cbn. by rewrite Zplus_mod_idemp_l, Z.add_shuffle0, Zplus_mod_idemp_r.
Qed.

(** ** Empty caches *)

(** the thread [a], without messages of its own, posts: success, no event *)
Lemma own_cache_empty s a th t e room :
  sp_threads s !! a = Some th -> msg_cache (th_queue th) = [] -> sq_zeroed (th_queue th) = true ->
  post_event (Some a) t e room s = ret (0, s).
Proof.
  intros Ha Hc Hz. unfold post_event, post_begin, get_thread, take_own. rewrite Ha. cbn. rewrite Hc. cbn. rewrite Hz. cbn.
  do 2 f_equal. f_equal. destruct s, th. unfold put_thread, set_queue. cbn in *. by rewrite list_insert_id.
Qed.

(** a thread with nothing to do *)
Definition quiet (th : spdk_thread) : Prop :=
  sq_messages (th_queue th) = [] /\ th_batch th = [] /\ th_running th = false /\ exiting th = false.

Lemma batch_put_eq t s th m ms q :
  sp_threads s !! t = Some th -> th_batch th = m :: ms ->
  put_event (lock_cache_msg (sp_msgs s m)) m (th_queue th) = ret q ->
  batch_put t s
  = ret (mkSpdk (<[t := mkThread q ms false (exiting th) ((proceessed_events th + 1) mod 2 ^ 32) (th_polls th)
                            (th_accepted th) (th_handled th)]> (sp_threads s))
           (<[m := clear (sp_msgs s m)]> (sp_msgs s)) (sp_hands s) (sp_lost s)).
Proof. intros Ht Hb Hp. unfold batch_put, get_thread. rewrite Ht. cbn. by rewrite Hb, Hp. Qed.

(** the thread [t] takes and handles the event of its only message *)
Lemma handle_one s t th m :
  sp_threads s !! t = Some th -> sq_messages (th_queue th) = [m] -> th_batch th = [] -> th_running th = false ->
  exiting th = false -> lock_cache_msg (sp_msgs s m) = false -> evt_type (msg_event (sp_msgs s m)) <> EVT_THREAD_EXIT ->
  exists s' th', rtc sp_step s s' /\ sp_threads s' = <[t := th']> (sp_threads s) /\ sp_hands s' = sp_hands s /\
    quiet th' /\ th_handled th' = th_handled th ++ [msg_event (sp_msgs s m)].
Proof.
  intros Ht Hq Hb Hr Hx Hl Hne. pose proof (lookup_lt_Some _ _ _ Ht) as Hlt.
  set (e := msg_event (sp_msgs s m)) in *. set (th1 := poll_begin 1 th). set (th2 := batch_handle e th1).
  assert (th_batch th1 = [m] /\ sq_messages (th_queue th1) = []) as [Hb1 Hq1] by (cbn; by rewrite Hq).
  assert (exiting th2 = false) as Hx2.
  { cbn. unfold dispatch. rewrite (proj2 (Z.eqb_neq (evt_type e) EVT_THREAD_EXIT)) by done.
    by repeat case_match. }
  eexists _, _. split.
  { eapply rtc_l; [by apply (st_poll t 1 th)|]. fold th1.
    eapply rtc_l; [apply (st_handle t th1 m []); [by apply list_lookup_insert_eq|done|done]|].
    apply rtc_once, (st_put t th2); [cbn; by rewrite list_lookup_insert_eq by (by rewrite length_insert)|done|].
    apply (batch_put_eq _ _ th2 m []); [cbn; by rewrite list_lookup_insert_eq by (by rewrite length_insert)|done|].
    cbn [sp_msgs put_thread]. by rewrite Hl. }
  splits; [cbn; by rewrite !list_insert_insert_eq|done|by split|done].
Qed.

(** the thread [a] posts an event to a quiet thread [t], which handles it *)
Lemma post_and_handle s a t tha thb m rest e :
  a <> t -> sp_threads s !! a = Some tha -> msg_cache (th_queue tha) = m :: rest ->
  sp_threads s !! t = Some thb -> quiet thb -> sp_hands s = [] -> evt_type e <> EVT_THREAD_EXIT ->
  exists s' tha' thb', rtc sp_step s s' /\ sp_hands s' = [] /\
    sp_threads s' !! a = Some tha' /\ msg_cache (th_queue tha') = rest /\
    sq_zeroed (th_queue tha') = sq_zeroed (th_queue tha) /\
    sp_threads s' !! t = Some thb' /\ quiet thb' /\ args <$> th_handled thb' = (args <$> th_handled thb) ++ [args e].
Proof.
  intros Hat Ha Hc Ht (Hq & Hb & Hr & Hx) Hh Hne.
  set (q := mkSpdkQueue (sq_messages (th_queue tha)) rest (msg_cache_locked (th_queue tha)) (sq_lock (th_queue tha))
              (sq_zeroed (th_queue tha))).
  set (s1 := to_hand t m false e (put_thread a (set_queue q tha) s)).
  assert (post_begin (Some a) t e s = ret (true, s1)) as E1.
  { unfold post_begin, get_thread. rewrite Ha. cbn. unfold take_own. by rewrite Hc. }
  set (th1 := mkThread (enqueue true m (th_queue thb)).2 (th_batch thb) (th_running thb) (exiting thb)
                (proceessed_events thb) (th_polls thb) (th_accepted thb ++ [e]) (th_handled thb)).
  set (s2 := mkSpdk (<[t := th1]> (sp_threads s1)) (sp_msgs s1) (sp_hands s) (sp_lost s)).
  assert (post_end 0 true s1 = Done (0, s2)) as E2.
  { unfold post_end, get_thread. cbn. by rewrite list_lookup_insert_ne, Ht by done. }
  assert (t < length (sp_threads s1))%nat as Hlt by (cbn; rewrite length_insert; by eapply lookup_lt_Some).
  assert (sp_msgs s2 m = fill false e (sp_msgs s m)) as Hm by (cbn; apply fn_lookup_insert).
  destruct (handle_one s2 t th1 m) as (s3 & th3 & R & T3 & H3 & Hqt & Hd); try done.
  - by apply list_lookup_insert_eq.
  - cbn. by rewrite Hq.
  - by rewrite Hm.
  - by rewrite Hm.
  - exists s3, (set_queue q tha), th3. splits; try done.
    + eapply rtc_l; [by eapply st_post|]. eapply rtc_l; [by eapply st_enqueue|done].
    + by rewrite H3.
    + rewrite T3. cbn. rewrite !list_lookup_insert_ne by done. apply list_lookup_insert_eq. by eapply lookup_lt_Some.
    + rewrite T3. apply list_lookup_insert_eq. cbn. by rewrite length_insert.
    + rewrite Hd, fmap_app, Hm. done.
Qed.

(** as often as [a] has messages *)
Lemma one_way s a t tha thb e :
  a <> t -> sp_threads s !! a = Some tha -> sp_threads s !! t = Some thb -> quiet thb -> sp_hands s = [] ->
  evt_type e <> EVT_THREAD_EXIT ->
  exists s' tha' thb', rtc sp_step s s' /\ sp_threads s' !! a = Some tha' /\ msg_cache (th_queue tha') = [] /\
    sq_zeroed (th_queue tha') = sq_zeroed (th_queue tha) /\ sp_threads s' !! t = Some thb' /\ quiet thb' /\
    args <$> th_handled thb' = (args <$> th_handled thb) ++ replicate (length (msg_cache (th_queue tha))) (args e).
Proof.
  remember (msg_cache (th_queue tha)) as l eqn:El. revert s tha thb El.
  induction l as [|m l IH]; intros s tha thb El Hat Ha Ht Hqt Hh Hne.
  - exists s, tha, thb. splits; try done. cbn. by rewrite app_nil_r.
  - destruct (post_and_handle s a t tha thb m l e) as (s1 & tha1 & thb1 & R & H1 & H2 & H3 & H4 & H5 & H6 & H7); try done.
    destruct (IH s1 tha1 thb1) as (s2 & tha2 & thb2 & R2 & G1 & G2 & G3 & G4 & G5 & G6); try done.
    exists s2, tha2, thb2. splits; try done; [by etrans|by rewrite G3|].
    cbn. by rewrite G6, H7, <- app_assoc.
Qed.

(** A thread that sends and gets nothing back stops: it has
    [MEMPOOL_CACHE_SIZE] messages, which stay with the receiver, and all
    events it posts after them disappear, although the calls return 0. *)
Theorem one_way_traffic_stops n msgs a t e :
  (a < n)%nat -> (t < n)%nat -> a <> t -> evt_type e <> EVT_THREAD_EXIT ->
  exists s th, rtc sp_step (boot n msgs) s /\ sp_threads s !! t = Some th /\ quiet th /\
    args <$> th_handled th = replicate MEMPOOL_CACHE_SIZE (args e) /\
    forall e' room, post_event (Some a) t e' room s = ret (0, s).
Proof.
  intros Ha Ht Hat He.
  destruct (one_way (boot n msgs) a t (start_thread a) (start_thread t) e)
    as (s & tha & thb & R & H1 & H2 & H3 & H4 & H5 & H6); try done; [by apply boot_thread..|].
  exists s, thb. splits; [done|done|done| |].
  - rewrite H6. cbn -[MEMPOOL_CACHE_SIZE Nat.mul seq]. f_equal.
  - intros e' room. by eapply own_cache_empty.
Qed.

(** A thread without a queue that finds no message keeps the lock: every
    later post of such a thread spins, and so does the receiving thread
    itself when it is done with a message such a thread sent. *)
Theorem empty_cache_keeps_lock s t th e room :
  sp_threads s !! t = Some th -> sq_lock (th_queue th) = false -> msg_cache_locked (th_queue th) = [] ->
  sq_zeroed (th_queue th) = true ->
  exists s' th', post_event None t e room s = ret (0, s') /\ sp_threads s' !! t = Some th' /\
    sq_messages (th_queue th') = sq_messages (th_queue th) /\ sq_lock (th_queue th') = true /\
    (forall e' room', post_event None t e' room' s' = Done None) /\
    (forall e' room', post_event_locked t e' room' s' = Done None) /\
    (forall m ms, th_batch th = m :: ms -> lock_cache_msg (sp_msgs s m) = true -> batch_put t s' = Done None).
Proof.
  intros Ht Hl Hc Hz. pose proof (lookup_lt_Some _ _ _ Ht) as Hlt.
  set (q := mkSpdkQueue (sq_messages (th_queue th)) (msg_cache (th_queue th)) (msg_cache_locked (th_queue th)) true true).
  set (s' := put_thread t (set_queue q th) s).
  assert (sp_threads s' !! t = Some (set_queue q th)) as Ht' by (by apply list_lookup_insert_eq).
  exists s', (set_queue q th). splits; try done.
  - unfold post_event, post_begin, get_thread, take_locked. rewrite Ht. cbn. unfold s', q. by rewrite Hl, Hc, Hz.
  - intros e' room'. unfold post_event, post_begin, get_thread. by rewrite Ht'.
  - intros e' room'. unfold post_event_locked, post_locked_begin, get_thread. by rewrite Ht'.
  - intros m ms Hb Hm. unfold batch_put, get_thread. rewrite Ht'. cbn. by rewrite Hb, Hm.
Qed.

(** [post_event_locked] does not look whether there is a message *)
Theorem locked_post_of_null s t th e room :
  sp_threads s !! t = Some th -> sq_lock (th_queue th) = false -> msg_cache_locked (th_queue th) = [] ->
  post_event_locked t e room s = Undef.
Proof.
  intros Ht Hl Hc. unfold post_event_locked, post_locked_begin, get_thread, take_locked. rewrite Ht. cbn.
  rewrite Hl, Hc. by destruct sq_zeroed.
Qed.

Lemma first_message t : exists m rest, msg_cache (th_queue (start_thread t)) = m :: rest.
Proof.
  assert (length (msg_cache (th_queue (start_thread t))) = MEMPOOL_CACHE_SIZE) as Hl.
  { cbn -[MEMPOOL_CACHE_SIZE Nat.mul seq]. rewrite length_reverse, length_take, length_seq. lia. }
  destruct (msg_cache _) as [|m rest]; [done|]. by exists m, rest.
Qed.

Lemma spdk_events_in_order_witness :
  exists s th, sp_threads s !! 1%nat = Some th /\
    args <$> th_handled th = [(EVT_IO_REQ, 0, 7)] /\ args <$> th_accepted th = [(EVT_IO_REQ, 0, 7)] /\
    free_ids s ++ hand_ids s ++ pend_ids s ++ sp_lost s ≡ₚ seq 0 (2 * (2 * MEMPOOL_CACHE_SIZE)).
Proof.
  destruct (first_message 0) as (m & rest & Hc). set (msgs := fun _ : nat => mkMsg zero_event false).
  destruct (post_and_handle (boot 2 msgs) 0 1 (start_thread 0) (start_thread 1) m rest (mkEvent EVT_IO_REQ 0 7 0))
    as (s & tha & thb & R & _ & _ & _ & _ & Ht & Hq & Hh);
    [done|apply boot_thread; split; [lia|done]|done|apply boot_thread; split; [lia|done]|done|done|done|].
  destruct (spdk_events_in_order 2 msgs s R) as [Hp He]. exists s, thb. splits; [done|done| |done].
  specialize (He 1%nat thb Ht). destruct Hq as (Hm & Hb & Hr & _). unfold pend_of in He.
  rewrite Hm, Hb, Hr, Hh in He. exact He.
Defined.
