(* ===== verification/Volume.v ===== *)
(** * Volumes, shards and replicas of a store node

    Model of src/pfs/include/pf_volume.h and src/pfs/src/pf_volume.cpp: the
    records a dispatcher looks at to route a request, and the move assignment
    that takes over a new description of a volume that is already open.

    A pointer that may be NULL is an option; [std::vector] and the array of
    replicas are lists, and an index outside of them is undefined. *)

From Stdlib Require Import ZArith Lia String.
From stdpp Require Import base tactics list numbers sets strings.
From S2P Require Import Prelude Ids.

Record PfReplica : Type := mkReplica {
  r_status : Z;
  r_id : Z;
  r_store_id : Z;
  r_is_local : bool;
  r_is_primary : bool;
  r_rep_index : Z;
  r_ssd_index : Z;
  (** [PfSyncRemoteReplica::replicator]: which replicator *)
  r_replicator : Z
}.

Record PfShard : Type := mkShard {
  s_id : Z;
  s_shard_index : Z;
  s_replicas : list (option PfReplica);
  s_primary_replica_index : Z;
  s_duty_rep_index : Z;
  s_is_primary_node : bool;
  s_rep_count : Z;
  s_snap_seq : Z;
  s_status : Z
}.

Record PfVolume : Type := mkVolume {
  v_name : string;
  v_id : Z;
  v_size : Z;
  v_rep_count : Z;
  v_shard_count : Z;
  v_shards : list (option PfShard);
  v_snap_seq : Z;
  v_status : Z;
  v_meta_ver : Z
}.

Definition set_r_status (st : Z) (r : PfReplica) : PfReplica :=
  mkReplica st (r_id r) (r_store_id r) (r_is_local r) (r_is_primary r) (r_rep_index r)
    (r_ssd_index r) (r_replicator r).

Definition set_replicas (l : list (option PfReplica)) (s : PfShard) : PfShard :=
  mkShard (s_id s) (s_shard_index s) l (s_primary_replica_index s) (s_duty_rep_index s)
    (s_is_primary_node s) (s_rep_count s) (s_snap_seq s) (s_status s).

Definition set_shards (l : list (option PfShard)) (v : PfVolume) : PfVolume :=
  mkVolume (v_name v) (v_id v) (v_size v) (v_rep_count v) (v_shard_count v) l (v_snap_seq v)
    (v_status v) (v_meta_ver v).

Definition set_v_snap_seq (n : Z) (v : PfVolume) : PfVolume :=
  mkVolume (v_name v) (v_id v) (v_size v) (v_rep_count v) (v_shard_count v) (v_shards v) n
    (v_status v) (v_meta_ver v).

Definition set_v_meta_ver (n : Z) (v : PfVolume) : PfVolume :=
  mkVolume (v_name v) (v_id v) (v_size v) (v_rep_count v) (v_shard_count v) (v_shards v)
    (v_snap_seq v) (v_status v) n.

(** ** Pointers of arrays: an index out of range or NULL is undefined *)
Definition deref {A : Type} (l : list (option A)) (i : Z) : outcome A :=
  of_option (mjoin (arr_get l i)).

Definition store_at {A : Type} (l : list A) (i : Z) (x : A) : outcome (list A) :=
  of_option (arr_set l i x).

(** ** The move assignment *)

(** the loop over the replicas [j], [j+1], ... of an old shard [s] whose
    place the new shard [ns] takes: a replica in recovery stays so when the
    new description calls it failed *)
Fixpoint keep_recovering (n : nat) (j : Z) (s : PfShard) (ns : option PfShard)
    : outcome (option PfShard) :=
  match n with
  | O => Done ns
  | S n =>
      let* r := of_option (arr_get (s_replicas s) j) in
      match r with
      | None => keep_recovering n (j + 1) s ns
      | Some r =>
          if r_status r =? HS_RECOVERYING then
            let* t := of_option ns in
            let* nr := deref (s_replicas t) j in
            if r_status nr =? HS_ERROR then
              let* l := store_at (s_replicas t) j (Some (set_r_status HS_RECOVERYING nr)) in
              keep_recovering n (j + 1) s (Some (set_replicas l t))
            else keep_recovering n (j + 1) s ns
          else keep_recovering n (j + 1) s ns
      end
  end.

(** the loop over the shards: [old] are the shards of the volume assigned
    to, [nw] those of the source, which ends up with NULL pointers *)
Fixpoint move_shards (n : nat) (i : Z) (old nw : list (option PfShard))
    : outcome (list (option PfShard) * list (option PfShard)) :=
  match n with
  | O => Done (old, nw)
  | S n =>
      let* s := deref old i in
      let* ns := of_option (arr_get nw i) in
      let* ns := keep_recovering (Z.to_nat (s_rep_count s)) 0 s ns in
      let* old := store_at old i ns in
      let* nw := store_at nw i None in
      move_shards n (i + 1) old nw
  end.

(** [operator=(PfVolume&&)]: the volume and what is left of the source *)
Definition move_assign (this vol : PfVolume) : outcome (PfVolume * PfVolume) :=
  let count := v_shard_count vol in
  let* (shards, rest) := move_shards (Z.to_nat count) 0 (v_shards this) (v_shards vol) in
  let shards := shards ++ drop (Z.to_nat count) rest in
  let rest := take (Z.to_nat count) rest ++ replicate (length rest - Z.to_nat count) None in
  Done (mkVolume (v_name this) (v_id this) (v_size vol) (v_rep_count this) count shards
          (v_snap_seq vol) (v_status vol) (v_meta_ver vol),
        set_shards rest vol).

(** ** What the assignment does *)
Definition merge_replica (o n : option PfReplica) : option PfReplica :=
  match o, n with
  | Some o, Some n =>
      if (r_status o =? HS_RECOVERYING) && (r_status n =? HS_ERROR)
      then Some (set_r_status HS_RECOVERYING n) else Some n
  | _, n => n
  end.

Definition merge_shard (o n : PfShard) : PfShard :=
  set_replicas
    (zip_with merge_replica (take (Z.to_nat (s_rep_count o)) (s_replicas o)) (s_replicas n)
     ++ drop (Z.to_nat (s_rep_count o)) (s_replicas n)) n.

(** A new shard can take the place of an old one: arrays of the same size,
    and no replica in recovery disappears. *)
Record replaces (o n : PfShard) : Prop := mkReplaces {
  rp_arrays : length (s_replicas n) = length (s_replicas o);
  rp_count : (Z.to_nat (s_rep_count o) <= length (s_replicas o))%nat;
  rp_kept : forall j r, s_replicas o !! j = Some (Some r) -> r_status r = HS_RECOVERYING ->
            exists r', s_replicas n !! j = Some (Some r')
}.

Section Merge.
Context (o n : list (option PfReplica)).
Hypothesis same_length : length n = length o.

(** the replicas after the first [k] turns of the loop *)
Definition merged (k : nat) : list (option PfReplica) :=
  zip_with merge_replica (take k o) n ++ drop k n.

Lemma merged_length k : (k <= length o)%nat -> length (merged k) = length n.
Proof.
  intros Hk. unfold merged. rewrite length_app, length_zip_with, length_take, length_drop. lia.
Qed.

Lemma merged_before k i x y :
  (i < k)%nat -> o !! i = Some x -> n !! i = Some y -> merged k !! i = Some (merge_replica x y).
Proof.
  intros Hi Hx Hy. unfold merged. pose proof (lookup_lt_Some _ _ _ Hx). pose proof (lookup_lt_Some _ _ _ Hy).
  rewrite lookup_app_l by (rewrite length_zip_with, length_take; lia).
  rewrite lookup_zip_with, lookup_take_lt by done. by rewrite Hx, Hy.
Qed.

Lemma merged_after k i : (k <= length o)%nat -> (k <= i)%nat -> merged k !! i = n !! i.
Proof.
  intros Hk Hi. unfold merged.
  assert (length (zip_with merge_replica (take k o) n) = k) as E
    by (rewrite length_zip_with, length_take; lia).
  rewrite lookup_app_r by lia. rewrite E, lookup_drop. f_equal. lia.
Qed.

Lemma merged_step k x y :
  o !! k = Some x -> n !! k = Some y ->
  <[k := merge_replica x y]> (merged k) = merged (S k).
Proof.
  intros Hx Hy. pose proof (lookup_lt_Some _ _ _ Hx). apply list_eq. intros i.
  destruct (lt_eq_lt_dec i k) as [[Hi| ->]|Hi].
  - destruct (lookup_lt_is_Some_2 o i) as [a Ha]; [lia|].
    destruct (lookup_lt_is_Some_2 n i) as [b Hb]; [lia|].
    rewrite list_lookup_insert_ne by lia.
    by rewrite (merged_before k i a b), (merged_before (S k) i a b) by (done || lia).
  - rewrite list_lookup_insert_eq by (rewrite merged_length; lia).
    by rewrite (merged_before (S k) k x y) by (done || lia).
  - rewrite list_lookup_insert_ne by lia. by rewrite !merged_after by lia.
Qed.
End Merge.

Lemma deref_lookup {A} (l : list (option A)) (k : nat) x :
  l !! k = Some (Some x) -> deref l (Z.of_nat k) = Done x.
Proof. intros E. unfold deref. rewrite arr_get_nat, E. done. Qed.

Lemma store_at_nat {A} (l : list A) (k : nat) x :
  (k < length l)%nat -> store_at l (Z.of_nat k) x = Done (<[k := x]> l).
Proof. intros Hk. unfold store_at. rewrite arr_set_spec by lia. by rewrite Nat2Z.id. Qed.

Lemma keep_recovering_from s t (m k : nat) :
  replaces s t -> (k + m = Z.to_nat (s_rep_count s))%nat ->
  keep_recovering m (Z.of_nat k) s (Some (set_replicas (merged (s_replicas s) (s_replicas t) k) t))
  = Done (Some (merge_shard s t)).
Proof.
  intros [Hl Hc Hk]. revert k. induction m as [|m IH]; intros k E.
  { rewrite Nat.add_0_r in E. subst k. done. }
  destruct (lookup_lt_is_Some_2 (s_replicas s) k) as [x Hx]; [lia|].
  destruct (lookup_lt_is_Some_2 (s_replicas t) k) as [y Hy]; [lia|].
  pose proof (merged_step _ _ Hl k x y Hx Hy) as Hs.
  pose proof (merged_after (s_replicas s) (s_replicas t) Hl k k) as Ha.
  pose proof (merged_length (s_replicas s) (s_replicas t) Hl k) as Hml.
  specialize (IH (S k)). rewrite <- Hs in IH. clear Hs.
  replace (Z.of_nat (S k)) with (Z.of_nat k + 1) in IH by lia.
  cbn [keep_recovering]. rewrite arr_get_nat, Hx. cbn [of_option obind].
  assert (forall z, merge_replica x y = y -> <[k := merge_replica x y]> (merged (s_replicas s) (s_replicas t) k)
             = z -> merged (s_replicas s) (s_replicas t) k = z) as Hid.
  { intros z -> <-. symmetry. apply list_insert_id. rewrite Ha, Hy by lia. done. }
  destruct x as [r|]; [|rewrite (Hid _ eq_refl eq_refl); apply IH; lia].
  destruct (Z.eqb_spec (r_status r) HS_RECOVERYING) as [Er|Er].
  - destruct (Hk k r Hx Er) as [r' Hr']. rewrite Hy in Hr'. injection Hr' as ->.
    cbn [set_replicas s_replicas]. rewrite (deref_lookup _ k r') by (rewrite Ha, Hy by lia; done).
    cbn [obind]. cbn [merge_replica] in *. rewrite (proj2 (Z.eqb_eq _ _) Er) in *. cbn [andb] in *.
    destruct (r_status r' =? HS_ERROR).
    + rewrite store_at_nat by lia. cbn [obind]. apply IH. lia.
    + rewrite (Hid _ eq_refl eq_refl). apply IH. lia.
  - rewrite (Hid _ ltac:(cbn [merge_replica]; rewrite (proj2 (Z.eqb_neq _ _) Er); by destruct y) eq_refl).
    apply IH. lia.
Qed.

Lemma set_replicas_id t : set_replicas (s_replicas t) t = t.
Proof. by destruct t. Qed.

Lemma keep_recovering_spec s t :
  replaces s t ->
  keep_recovering (Z.to_nat (s_rep_count s)) 0 s (Some t) = Done (Some (merge_shard s t)).
Proof.
  intros Hr. pose proof (keep_recovering_from s t (Z.to_nat (s_rep_count s)) 0 Hr eq_refl) as E.
  unfold merged in E. rewrite take_0, drop_0 in E. cbn [zip_with app Z.of_nat] in E.
  rewrite set_replicas_id in E. exact E.
Qed.

(** ** The shards *)
Section MoveShards.
Context (old nw : list PfShard).
Hypothesis all_replace : Forall2 replaces old nw.

(** the shards of both volumes after the first [k] turns; [tail] are shards
    of the old volume beyond those of the new one *)
Definition moved (k : nat) (tail : list (option PfShard)) : list (option PfShard) :=
  (Some <$> zip_with merge_shard (take k old) nw) ++ (Some <$> drop k old) ++ tail.

Definition left_over (k : nat) : list (option PfShard) :=
  replicate k None ++ (Some <$> drop k nw).

Lemma moved_turn k tail a b :
  old !! k = Some a -> nw !! k = Some b ->
  <[k := Some (merge_shard a b)]> (moved k tail) = moved (S k) tail.
Proof.
  intros Ha Hb. pose proof (lookup_lt_Some _ _ _ Ha). pose proof (Forall2_length _ _ _ all_replace).
  unfold moved. assert (length (Some <$> zip_with merge_shard (take k old) nw) = k) as E
    by (rewrite length_fmap, length_zip_with, length_take; lia).
  rewrite (drop_S _ _ _ Ha). cbn [fmap list_fmap app].
  rewrite insert_app_r_alt by lia. rewrite E, Nat.sub_diag. cbn [insert list_insert].
  rewrite (take_S_r _ _ _ Ha), zip_with_app_l, length_take.
  replace (k `min` length old)%nat with k by lia. rewrite (drop_S _ _ _ Hb). cbn [zip_with].
  rewrite zip_with_take_r' by (rewrite length_take; lia).
  rewrite fmap_app. cbn [fmap list_fmap]. rewrite <- app_assoc. done.
Qed.

Lemma left_over_turn k b : nw !! k = Some b -> <[k := None]> (left_over k) = left_over (S k).
Proof.
  intros Hb. unfold left_over. rewrite (drop_S _ _ _ Hb). cbn [fmap list_fmap].
  rewrite insert_app_r_alt by (rewrite length_replicate; lia).
  rewrite length_replicate, Nat.sub_diag. cbn [insert list_insert].
  rewrite replicate_S_end, <- app_assoc. done.
Qed.

Lemma move_shards_from m k extra tail more :
  (k + m = length nw)%nat ->
  move_shards (m + extra) (Z.of_nat k) (moved k tail) (left_over k ++ more)
  = move_shards extra (Z.of_nat (length nw)) (moved (length nw) tail) (left_over (length nw) ++ more).
Proof.
  revert k. induction m as [|m IH]; intros k E.
  { rewrite Nat.add_0_r in E. by subst k. }
  pose proof (Forall2_length _ _ _ all_replace) as Hl.
  destruct (lookup_lt_is_Some_2 nw k) as [b Hb]; [lia|].
  destruct (lookup_lt_is_Some_2 old k) as [a Ha]; [lia|].
  pose proof (Forall2_lookup_lr _ _ _ _ _ _ all_replace Ha Hb) as Hr.
  pose proof (moved_turn k tail a b Ha Hb) as Hm. pose proof (left_over_turn k b Hb) as Hv.
  assert (moved k tail !! k = Some (Some a)) as Hma.
  { unfold moved. rewrite lookup_app_r; rewrite length_fmap, length_zip_with, length_take; [|lia].
    rewrite (drop_S _ _ _ Ha). replace (k - _)%nat with 0%nat by lia. done. }
  assert (left_over k !! k = Some (Some b)) as Hvb.
  { unfold left_over. rewrite lookup_app_r; rewrite length_replicate; [|lia].
    rewrite (drop_S _ _ _ Hb), Nat.sub_diag. done. }
  pose proof (lookup_lt_Some _ _ _ Hvb). cbn [move_shards Nat.add].
  rewrite (deref_lookup _ _ _ Hma), arr_get_nat, lookup_app_l, Hvb by lia. cbn [of_option obind].
  rewrite keep_recovering_spec by done. cbn [obind].
  rewrite store_at_nat by (by eapply lookup_lt_Some). cbn [obind].
  rewrite store_at_nat by (rewrite length_app; lia). cbn [obind].
  rewrite insert_app_l, Hm, Hv by lia.
  replace (Z.of_nat k + 1) with (Z.of_nat (S k)) by lia. apply IH. lia.
Qed.

Lemma move_shards_start extra tail more :
  move_shards (length nw + extra) 0 ((Some <$> old) ++ tail) ((Some <$> nw) ++ more)
  = move_shards extra (Z.of_nat (length nw)) ((Some <$> zip_with merge_shard old nw) ++ tail)
      (replicate (length nw) None ++ more).
Proof.
  pose proof (Forall2_length _ _ _ all_replace) as Hl.
  pose proof (move_shards_from (length nw) 0 extra tail more eq_refl) as E.
  unfold moved, left_over in E. rewrite take_0, !drop_0 in E.
  cbn [zip_with fmap list_fmap replicate app] in E. change (Z.of_nat 0) with 0 in E. rewrite E.
  rewrite (take_ge old), (drop_ge old), (drop_ge nw) by lia.
  cbn [fmap list_fmap app]. by rewrite app_nil_r.
Qed.
End MoveShards.

(** A description of a volume as the management sends it: one shard for
    each index below [shard_count]. *)
Definition full_shards (v : PfVolume) (l : list PfShard) : Prop :=
  v_shards v = Some <$> l /\ v_shard_count v = Z.of_nat (length l).

(** The assignment of a volume with no more shards than the one it replaces:
    all fields but name, id and replica count are the new ones, the shards
    are merged one by one, shards beyond the new ones stay, and the source
    owns no shard any more. *)
Lemma move_assign_spec this vol old nw tail :
  v_shards this = (Some <$> old) ++ tail -> full_shards vol nw -> Forall2 replaces old nw ->
  move_assign this vol =
    Done (mkVolume (v_name this) (v_id this) (v_size vol) (v_rep_count this) (v_shard_count vol)
            ((Some <$> zip_with merge_shard old nw) ++ tail)
            (v_snap_seq vol) (v_status vol) (v_meta_ver vol),
          set_shards (replicate (length nw) None) vol).
Proof.
  intros Ho [Hn Hc] Hr. pose proof (Forall2_length _ _ _ Hr) as Hl.
  unfold move_assign. rewrite Hc, Nat2Z.id, Ho, Hn.
  pose proof (move_shards_start old nw Hr 0 tail []) as E.
  rewrite Nat.add_0_r, !app_nil_r in E. rewrite E. cbn [move_shards obind].
  rewrite drop_ge, take_ge by (rewrite length_replicate; lia).
  rewrite length_replicate, Nat.sub_diag. cbn [replicate]. by rewrite !app_nil_r.
Qed.

(** With more shards than before, the first loop already runs to the new
    shard count and reads past the end of the vector. *)
Lemma move_assign_enlarged this vol old nw more :
  full_shards this old -> full_shards vol (nw ++ more) -> Forall2 replaces old nw -> more <> [] ->
  move_assign this vol = Undef.
Proof.
  intros [Ho _] [Hn Hc] Hr Hm. pose proof (Forall2_length _ _ _ Hr) as Hl.
  destruct more as [|b more]; [done|].
  unfold move_assign. rewrite Hc, Nat2Z.id, Ho, Hn, length_app, fmap_app.
  pose proof (move_shards_start old nw Hr (length (b :: more)) [] (Some <$> b :: more)) as E.
  rewrite !app_nil_r in E. rewrite E. cbn [length move_shards].
  unfold deref. rewrite arr_get_nat, lookup_ge_None_2 by (rewrite length_fmap, length_zip_with; lia).
  done.
Qed.
