(* ===== verification/Connection.v ===== *)
(** * Messages and connections

    The message head and reply of src/common/include/pf_message.h, and the
    part of PfConnection (src/common/include/pf_connection.h and
    src/common/src/pf_connection.cpp) that the dispatcher and the replicator
    rely on: reference counts, closing, and the throttle that limits the
    requests in flight.  A connection is a cell of a heap; a deleted one is
    not in the heap any more.  Sockets and verbs (post_send and the like)
    are arguments of the definitions that call them. *)

From Stdlib Require Import ZArith Lia.
From stdpp Require Import base tactics list numbers sets gmap relations.
From S2P Require Import Prelude Ids.

(** ** Messages *)
Record PfMessageHead : Type := mkHead {
  h_opcode : Z;
  h_command_id : Z;
  h_snap_seq : Z;
  h_vol_id : Z;
  h_buf_addr : Z;
  h_rkey : Z;
  h_meta_ver : Z;
  h_offset : Z;
  h_length : Z;
  h_command_seq : Z
}.

Record PfMessageReply : Type := mkReply {
  rep_status : Z;
  rep_meta_ver : Z;
  rep_command_id : Z;
  rep_command_seq : Z
}.

#[global] Instance reply_eq_dec : EqDecision PfMessageReply.
Proof. solve_decision. Defined.

Definition set_h_snap_seq (n : Z) (h : PfMessageHead) : PfMessageHead :=
  mkHead (h_opcode h) (h_command_id h) n (h_vol_id h) (h_buf_addr h) (h_rkey h) (h_meta_ver h)
    (h_offset h) (h_length h) (h_command_seq h).

(** ** Connections *)
Definition CONN_INIT : Z := 0.
Definition CONN_OK : Z := 1.
Definition CONN_CLOSED : Z := 2.
Definition CONN_CLOSING : Z := 3.
Definition TCP_TYPE : Z := 0.
Definition RDMA_TYPE : Z := 1.

Record PfConnection : Type := mkConn {
  c_state : Z;
  c_conn_type : Z;
  c_ref_count : Z;
  c_io_depth : Z;
  c_inflying_io : Z;
  c_inflying_heartbeat : Z;
  c_unclean_closed : bool;
  (** [PfRdmaConnection::used_iocb] *)
  c_used_iocb : list Z
}.

Abbreviation conn_heap := (gmap Z PfConnection).

Definition set_c_state (n : Z) (c : PfConnection) : PfConnection :=
  mkConn n (c_conn_type c) (c_ref_count c) (c_io_depth c) (c_inflying_io c)
    (c_inflying_heartbeat c) (c_unclean_closed c) (c_used_iocb c).
Definition set_c_ref (n : Z) (c : PfConnection) : PfConnection :=
  mkConn (c_state c) (c_conn_type c) n (c_io_depth c) (c_inflying_io c)
    (c_inflying_heartbeat c) (c_unclean_closed c) (c_used_iocb c).
Definition set_c_inflying (n : Z) (c : PfConnection) : PfConnection :=
  mkConn (c_state c) (c_conn_type c) (c_ref_count c) (c_io_depth c) n
    (c_inflying_heartbeat c) (c_unclean_closed c) (c_used_iocb c).
Definition set_c_heartbeat (n : Z) (c : PfConnection) : PfConnection :=
  mkConn (c_state c) (c_conn_type c) (c_ref_count c) (c_io_depth c) (c_inflying_io c)
    n (c_unclean_closed c) (c_used_iocb c).
Definition set_c_unclean (b : bool) (c : PfConnection) : PfConnection :=
  mkConn (c_state c) (c_conn_type c) (c_ref_count c) (c_io_depth c) (c_inflying_io c)
    (c_inflying_heartbeat c) b (c_used_iocb c).

Definition conn_add_ref (c : Z) (h : conn_heap) : outcome conn_heap :=
  let* k := of_option (h !! c) in
  Done (<[c := set_c_ref (c_ref_count k + 1) k]> h).

(** [close] up to its call of [on_close]: whether this call closes the
    connection (the state was CONN_OK) *)
Definition conn_close (c : Z) (h : conn_heap) : outcome (bool * conn_heap) :=
  let* k := of_option (h !! c) in
  if c_state k =? CONN_OK then Done (true, <[c := set_c_state CONN_CLOSED k]> h)
  else Done (false, h).

(** [dec_ref]: whether it closed the connection, in which case [on_close]
    was called, and the heap; the last reference deletes the connection *)
Definition conn_dec_ref (c : Z) (h : conn_heap) : outcome (bool * conn_heap) :=
  let* k := of_option (h !! c) in
  let k := set_c_ref (c_ref_count k - 1) k in
  if c_ref_count k =? 0 then Done (c_state k =? CONN_OK, delete c h)
  else Done (false, <[c := k]> h).

(** [get_throttle] as one call: the answer and the connection *)
Definition get_throttle (k : PfConnection) : bool * PfConnection :=
  let current_cnt := c_inflying_io k in
  let k := set_c_inflying (current_cnt + 1) k in
  if current_cnt <? c_io_depth k then (true, k)
  else (false, set_c_inflying (c_inflying_io k - 1) k).

Definition put_throttle (k : PfConnection) : PfConnection :=
  set_c_inflying (c_inflying_io k - 1) k.

(** ** The throttle under concurrent callers

    [get_throttle] is an atomic addition, a comparison with the old value,
    and an atomic subtraction when the caller is refused.  [granted] callers
    hold the throttle, [refused] ones have not subtracted yet. *)
Record throttle : Type := mkThrottle {
  th_inflying : Z;
  th_granted : Z;
  th_refused : Z
}.

Inductive throttle_step (io_depth : Z) : throttle -> throttle -> Prop :=
| th_grant n g r :
    n < io_depth ->
    throttle_step io_depth (mkThrottle n g r) (mkThrottle (n + 1) (g + 1) r)
| th_refuse n g r :
    io_depth <= n ->
    throttle_step io_depth (mkThrottle n g r) (mkThrottle (n + 1) g (r + 1))
| th_undo n g r :
    0 < r -> throttle_step io_depth (mkThrottle n g r) (mkThrottle (n - 1) g (r - 1))
| th_put n g r :
    0 < g -> throttle_step io_depth (mkThrottle n g r) (mkThrottle (n - 1) (g - 1) r).


