(* ===== verification/Dispatcher.v ===== *)
(** * The dispatcher

    Model of src/pfs/src/pf_dispatcher.cpp and pf_dispatcher.h, with the
    error handler of src/pfs/src/pf_error_handler.cpp.  A dispatcher is an
    event thread that owns a table of opened volumes and a pool of request
    blocks (iocbs).  [process_event] is one turn of the thread.

    Calls that leave the dispatcher are recorded in [d_out]: the submission
    of a subtask to a replica, the reply to the client.  What they return is
    an argument ([disp_env]).  Completions are called by other threads:
    [server_complete] posts an event to the queue [d_events], whose order and
    delivery are the subject of EventQueue.v. *)

From Stdlib Require Import ZArith Lia String.
From stdpp Require Import base tactics list numbers sets gmap strings.
From S2P Require Import Prelude FixedQueue MemPool Ids Volume Connection.

(** ** Data *)
Record SubTask : Type := mkSubTask {
  t_opcode : Z;
  t_rep_id : Z;
  t_store_id : Z;
  t_task_mask : Z;
  t_rep_index : Z;
  t_complete_status : Z
}.

Definition PF_MAX_SUBTASK_CNT : nat := 5.

Record PfServerIocb : Type := mkIocb {
  i_cmd : PfMessageHead;
  i_task_mask : Z;
  i_subtasks : list (option SubTask);
  i_conn : option Z;
  i_vol_id : Z;
  i_complete_status : Z;
  i_complete_meta_ver : Z;
  i_ref_count : Z;
  i_disp_index : Z;
  i_is_timeout : bool
}.

Record DispatchStat : Type := mkStat {
  rd_cnt : Z;
  wr_cnt : Z;
  rep_wr_cnt : Z;
  rd_bytes : Z;
  wr_bytes : Z;
  rep_wr_bytes : Z
}.

(** a subtask is named by its iocb and its index *)
Inductive disp_event : Type :=
| EvIoReq (i : Z)
| EvIoComplete (i k : Z)
| EvForceReleaseConn (c : Z).

Inductive disp_action : Type :=
| ASubmit (i k : Z) (r : PfReplica)   (* the queue of the replica took the subtask *)
| ASubmitFailed (i k : Z)             (* it was full: logged only *)
| APostWrite (c i : Z)                (* RDMA write of the data *)
| AReply (c i : Z) (m : PfMessageReply)
| AConnClosed (c : Z)                 (* the last reference closed the connection *)
| AConductorIp (ip : string).         (* the error handler's [conductor_ip] *)

Record PfDispatcher : Type := mkDisp {
  d_opened : gmap Z PfVolume;
  d_index : Z;
  d_stat : DispatchStat;
  d_iocbs : gmap Z PfServerIocb;
  d_iocb_pool : ObjectMemoryPool PfFixedSizeQueue;
  d_conns : conn_heap;
  d_events : list disp_event;
  (** the thread waits for the end of an asynchronous task that itself waits
      for this thread *)
  d_blocked : bool;
  d_out : list disp_action
}.

(** What the conductor answers to an error report, attempt by attempt. *)
Inductive http_answer : Type :=
| NoAnswer
| Refused
| Answer (action_code meta_ver : Z).

Inductive report_result : Type :=
| Reported (action_code meta_ver : Z)
| NotReported   (* returns -1 and leaves the reply unset *)
| ReportThrows.

(** [launch] is the policy the implementation picks for [std::async]. *)
Inductive launch : Type := LaunchAsync | LaunchDeferred.

Record disp_env : Type := mkEnv {
  e_post_write : Z -> Z -> Z;
  e_post_send : Z -> PfMessageReply -> Z;
  e_submit : Z -> Z -> Z;
  e_conductor_ip : string;
  e_master : nat -> string;
  e_http : nat -> string -> http_answer;
  e_launch : launch;
  e_disp_count : Z
}.

(** ** Updates *)
Definition set_opened (m : gmap Z PfVolume) (d : PfDispatcher) : PfDispatcher :=
  mkDisp m (d_index d) (d_stat d) (d_iocbs d) (d_iocb_pool d) (d_conns d) (d_events d) (d_blocked d) (d_out d).
Definition set_stat (x : DispatchStat) (d : PfDispatcher) : PfDispatcher :=
  mkDisp (d_opened d) (d_index d) x (d_iocbs d) (d_iocb_pool d) (d_conns d) (d_events d) (d_blocked d) (d_out d).
Definition set_iocb (i : Z) (b : PfServerIocb) (d : PfDispatcher) : PfDispatcher :=
  mkDisp (d_opened d) (d_index d) (d_stat d) (<[i := b]> (d_iocbs d)) (d_iocb_pool d) (d_conns d) (d_events d)
    (d_blocked d) (d_out d).
Definition set_iocb_pool (p : ObjectMemoryPool PfFixedSizeQueue) (d : PfDispatcher) : PfDispatcher :=
  mkDisp (d_opened d) (d_index d) (d_stat d) (d_iocbs d) p (d_conns d) (d_events d) (d_blocked d) (d_out d).
Definition set_conns (h : conn_heap) (d : PfDispatcher) : PfDispatcher :=
  mkDisp (d_opened d) (d_index d) (d_stat d) (d_iocbs d) (d_iocb_pool d) h (d_events d) (d_blocked d) (d_out d).
Definition set_events (l : list disp_event) (d : PfDispatcher) : PfDispatcher :=
  mkDisp (d_opened d) (d_index d) (d_stat d) (d_iocbs d) (d_iocb_pool d) (d_conns d) l (d_blocked d) (d_out d).
Definition set_blocked (b : bool) (d : PfDispatcher) : PfDispatcher :=
  mkDisp (d_opened d) (d_index d) (d_stat d) (d_iocbs d) (d_iocb_pool d) (d_conns d) (d_events d) b (d_out d).
Definition out (a : disp_action) (d : PfDispatcher) : PfDispatcher :=
  mkDisp (d_opened d) (d_index d) (d_stat d) (d_iocbs d) (d_iocb_pool d) (d_conns d) (d_events d) (d_blocked d)
    (d_out d ++ [a]).

Definition set_cmd (h : PfMessageHead) (b : PfServerIocb) : PfServerIocb :=
  mkIocb h (i_task_mask b) (i_subtasks b) (i_conn b) (i_vol_id b) (i_complete_status b)
    (i_complete_meta_ver b) (i_ref_count b) (i_disp_index b) (i_is_timeout b).
Definition set_mask (m : Z) (b : PfServerIocb) : PfServerIocb :=
  mkIocb (i_cmd b) m (i_subtasks b) (i_conn b) (i_vol_id b) (i_complete_status b)
    (i_complete_meta_ver b) (i_ref_count b) (i_disp_index b) (i_is_timeout b).
Definition set_subtasks (l : list (option SubTask)) (b : PfServerIocb) : PfServerIocb :=
  mkIocb (i_cmd b) (i_task_mask b) l (i_conn b) (i_vol_id b) (i_complete_status b)
    (i_complete_meta_ver b) (i_ref_count b) (i_disp_index b) (i_is_timeout b).
Definition set_iconn (c : option Z) (b : PfServerIocb) : PfServerIocb :=
  mkIocb (i_cmd b) (i_task_mask b) (i_subtasks b) c (i_vol_id b) (i_complete_status b)
    (i_complete_meta_ver b) (i_ref_count b) (i_disp_index b) (i_is_timeout b).
Definition set_status (sc mv : Z) (b : PfServerIocb) : PfServerIocb :=
  mkIocb (i_cmd b) (i_task_mask b) (i_subtasks b) (i_conn b) (i_vol_id b) sc mv
    (i_ref_count b) (i_disp_index b) (i_is_timeout b).
Definition set_ref (n : Z) (b : PfServerIocb) : PfServerIocb :=
  mkIocb (i_cmd b) (i_task_mask b) (i_subtasks b) (i_conn b) (i_vol_id b) (i_complete_status b)
    (i_complete_meta_ver b) n (i_disp_index b) (i_is_timeout b).

Definition get_iocb (i : Z) (d : PfDispatcher) : outcome PfServerIocb := of_option (d_iocbs d !! i).

(** ** Reference counts *)
Definition iocb_add_ref (b : PfServerIocb) : PfServerIocb := set_ref (u32 (i_ref_count b + 1)) b.

(** the connection an iocb lets go of *)
Definition drop_conn (c : Z) (d : PfDispatcher) : outcome PfDispatcher :=
  let* (closed, h) := conn_dec_ref c (d_conns d) in
  let d := set_conns h d in
  Done (if closed : bool then out (AConnClosed c) d else d).

(** [free_to_pool]; [disps] is the number of dispatchers, the iocb is one of
    this dispatcher *)
Definition free_to_pool (disps : Z) (i : Z) (d : PfDispatcher) : outcome PfDispatcher :=
  let* b := get_iocb i d in
  let conn_tmp := i_conn b in
  let b := mkIocb (i_cmd b) 0 (i_subtasks b) None 0 MSG_STATUS_SUCCESS 0 (i_ref_count b)
             (i_disp_index b) false in
  let d := set_iocb i b d in
  let* d := match conn_tmp with
            | Some c => drop_conn c d
            | None => Done d
            end in
  if negb ((0 <=? i_disp_index b) && (i_disp_index b <? disps)) then Fatal
  else
    let* p := pool_free i (d_iocb_pool d) in
    Done (set_iocb_pool p d).

Definition iocb_dec_ref (disps i : Z) (d : PfDispatcher) : outcome PfDispatcher :=
  let* b := get_iocb i d in
  let b := set_ref (u32 (i_ref_count b - 1)) b in
  let d := set_iocb i b d in
  if i_ref_count b =? 0 then free_to_pool disps i d else Done d.

Definition dec_ref_on_error (disps i : Z) (d : PfDispatcher) : outcome PfDispatcher :=
  let* b := get_iocb i d in
  let b := set_ref (u32 (i_ref_count b - 1)) b in
  let d := set_iocb i b d in
  if i_ref_count b =? 0 then free_to_pool disps i d
  else
    match i_conn b with
    | Some c => drop_conn c (set_iocb i (set_iconn None b) d)
    | None => Done d
    end.

(** ** The reply *)
Definition reply_message (b : PfServerIocb) : PfMessageReply :=
  mkReply (i_complete_status b) (i_complete_meta_ver b) (h_command_id (i_cmd b))
    (h_command_seq (i_cmd b)).

Definition send_reply (env : disp_env) (c i : Z) (b : PfServerIocb) (d : PfDispatcher)
    : outcome PfDispatcher :=
  let m := reply_message b in
  if e_post_send env c m =? 0 then Done (out (AReply c i m) d)
  else dec_ref_on_error (e_disp_count env) i d.

Definition reply_io_to_client (env : disp_env) (i : Z) (d : PfDispatcher) : outcome PfDispatcher :=
  let* b := get_iocb i d in
  match i_conn b with
  | None => dec_ref_on_error (e_disp_count env) i d
  | Some c =>
      let* k := of_option (d_conns d !! c) in
      if negb (c_state k =? CONN_OK) then dec_ref_on_error (e_disp_count env) i d
      else if IS_READ_OP (h_opcode (i_cmd b)) && (c_conn_type k =? RDMA_TYPE)
              && (i_complete_status b =? MSG_STATUS_SUCCESS) then
        if e_post_write env c i =? 0 then send_reply env c i b (out (APostWrite c i) d)
        else dec_ref_on_error (e_disp_count env) i d
      else send_reply env c i b d
  end.

(** ** Completion of a subtask, called by the thread of the replica *)
Definition set_t_status (sc : Z) (t : SubTask) : SubTask :=
  mkSubTask (t_opcode t) (t_rep_id t) (t_store_id t) (t_task_mask t) (t_rep_index t) sc.

Definition server_complete (i k sc : Z) (d : PfDispatcher) : outcome PfDispatcher :=
  let* b := get_iocb i d in
  let* t := deref (i_subtasks b) k in
  let* l := store_at (i_subtasks b) k (Some (set_t_status sc t)) in
  let d := set_iocb i (set_subtasks l b) d in
  Done (set_events (d_events d ++ [EvIoComplete i k]) d).

Definition server_complete_with_metaver (i k sc mv : Z) (d : PfDispatcher) : outcome PfDispatcher :=
  let* b := get_iocb i d in
  let d := if i_complete_meta_ver b <? mv then set_iocb i (set_status (i_complete_status b) mv b) d
           else d in
  server_complete i k sc d.

(** ** The error handler *)
Fixpoint report_loop (env : disp_env) (n : nat) (i : nat) (ip : string) : report_result * string :=
  match n with
  | O => (NotReported, ip)
  | S n =>
      let ip := if String.eqb ip EmptyString then e_master env i else ip in
      match e_http env i ip with
      | Answer ac mv => (Reported ac mv, ip)
      | Refused => (ReportThrows, ip)
      | NoAnswer => report_loop env n (S i) (match n with O => ip | _ => EmptyString end)
      end
  end.

Definition report_error_to_conductor (env : disp_env) : report_result * string :=
  report_loop env 5 0 (e_conductor_ip env).

(** [submit_error]: without an answer of the conductor it completes the
    subtask with the unset fields of its local reply *)
Definition submit_error (env : disp_env) (i k : Z) (d : PfDispatcher) : outcome PfDispatcher :=
  let (r, ip) := report_error_to_conductor env in
  match r with
  | Reported ac mv => server_complete_with_metaver i k ac mv (out (AConductorIp ip) d)
  | NotReported => Undef
  | ReportThrows => Fatal
  end.

(** ** Subtasks *)
Definition live_status (r : PfReplica) : bool :=
  (r_status r =? HS_OK) || (r_status r =? HS_RECOVERYING).

Definition setup_one_subtask (k opcode : Z) (b : PfServerIocb) : outcome PfServerIocb :=
  let* t := deref (i_subtasks b) k in
  let t := mkSubTask opcode (t_rep_id t) (t_store_id t) (t_task_mask t) (t_rep_index t) MSG_STATUS_SUCCESS in
  let* l := store_at (i_subtasks b) k (Some t) in
  Done (iocb_add_ref (set_mask (Z.lor (i_task_mask b) (t_task_mask t)) (set_subtasks l b))).

(** the loop of [setup_subtask] over the replicas [k], [k+1], ... *)
Fixpoint setup_loop (n : nat) (k : Z) (s : PfShard) (opcode : Z) (b : PfServerIocb) : outcome PfServerIocb :=
  match n with
  | O => Done b
  | S n =>
      let* r := of_option (arr_get (s_replicas s) k) in
      let* b := match r with
                | None => Done b
                | Some r => if live_status r then setup_one_subtask k opcode b else Done b
                end in
      setup_loop n (k + 1) s opcode b
  end.

Definition setup_subtask (s : PfShard) (opcode : Z) (b : PfServerIocb) : outcome PfServerIocb :=
  setup_loop (Z.to_nat (s_rep_count s)) 0 s opcode b.

(** [subtasks[k]->rep_id = ...; subtasks[k]->store_id = ...] *)
Definition set_target (k : Z) (r : PfReplica) (b : PfServerIocb) : outcome PfServerIocb :=
  let* t := deref (i_subtasks b) k in
  let t := mkSubTask (t_opcode t) (r_id r) (r_store_id r) (t_task_mask t) (t_rep_index t)
             (t_complete_status t) in
  let* l := store_at (i_subtasks b) k (Some t) in
  Done (set_subtasks l b).

(** [PfLocalReplica::submit_io] and [PfSyncRemoteReplica::submit_io]: post
    to the queue of the disk or of the replicator; [io_subtasks] has three
    elements *)
Definition submit_io (env : disp_env) (i k : Z) (r : PfReplica) (d : PfDispatcher) : outcome PfDispatcher :=
  if negb ((0 <=? k) && (k <? 3)) then Undef
  else Done (if e_submit env i k =? 0 then out (ASubmit i k r) d else out (ASubmitFailed i k) d).

(** ** Requests *)

(** the loop of [dispatch_write] over the replicas [k], [k+1], ... *)
Fixpoint submit_loop (env : disp_env) (n : nat) (k : Z) (s : PfShard) (i : Z) (d : PfDispatcher)
    : outcome PfDispatcher :=
  match n with
  | O => Done d
  | S n =>
      let* r := deref (s_replicas s) k in
      let* d := (if live_status r then
                   let* b := get_iocb i d in
                   let* b := set_target k r b in
                   submit_io env i k r (set_iocb i b d)
                 else Done d) in
      submit_loop env n (k + 1) s i d
  end.

(** [dispatch_write].  On a node that is not primary the result of
    [std::async] is a temporary future, whose destructor waits for the task
    when it was launched asynchronously; the task ends with a synchronous
    call on this thread.  A deferred task is never run. *)
Definition dispatch_write (env : disp_env) (i : Z) (vol : PfVolume) (s : PfShard) (d : PfDispatcher)
    : outcome (Z * PfDispatcher) :=
  let* b := get_iocb i d in
  let b := set_mask 0 b in
  let d := set_iocb i b d in
  let* ok := (if s_is_primary_node s then
                let* r := deref (s_replicas s) (s_duty_rep_index s) in Done (r_status r =? HS_OK)
              else Done false) in
  if negb ok then
    let d := set_iocb i (set_status MSG_STATUS_REOPEN (i_complete_meta_ver b) b) d in
    match e_launch env with
    | LaunchDeferred => Done (1, d)
    | LaunchAsync => Done (1, set_blocked true d)
    end
  else
    let* b := setup_subtask s (h_opcode (i_cmd b)) b in
    let* d := submit_loop env (Z.to_nat (v_rep_count vol)) 0 s i (set_iocb i b d) in
    Done (0, d).

Definition dispatch_read (env : disp_env) (i : Z) (vol : PfVolume) (s : PfShard) (d : PfDispatcher)
    : outcome (Z * PfDispatcher) :=
  let* b := get_iocb i d in
  let b := set_mask 0 b in
  let d := set_iocb i b d in
  let k := s_duty_rep_index s in
  let* r := deref (s_replicas s) k in
  if r_status r =? HS_OK then
    let* b := setup_one_subtask k (h_opcode (i_cmd b)) b in
    let* b := set_target k r b in
    let d := set_iocb i b d in
    if negb (s_is_primary_node s) then
      let* d := submit_error env i k d in Done (1, d)
    else let* d := submit_io env i k r d in Done (0, d)
  else Done (0, d).

Definition dispatch_rep_write (env : disp_env) (i : Z) (vol : PfVolume) (s : PfShard) (d : PfDispatcher)
    : outcome (Z * PfDispatcher) :=
  let* b := get_iocb i d in
  let b := set_mask 0 b in
  let d := set_iocb i b d in
  let k := s_duty_rep_index s in
  let* r := deref (s_replicas s) k in
  if live_status r then
    let* b := setup_one_subtask k S5_OP_REPLICATE_WRITE b in
    let* b := set_target k r b in
    let d := set_iocb i b d in
    if s_is_primary_node s then
      let* d := submit_error env i k d in Done (1, d)
    else let* d := submit_io env i k r d in Done (0, d)
  else Fatal.

(** the status and the version of an early reply *)
Definition early_reply (env : disp_env) (i sc mv : Z) (b : PfServerIocb) (d : PfDispatcher)
    : outcome (Z * PfDispatcher) :=
  let* d := reply_io_to_client env i (set_iocb i (set_status sc mv b) d) in
  Done (0, d).

Definition OFFSET_TO_SHARD_INDEX (off : Z) : Z := Z.shiftr off (LBA_LENGTH_ORDER + SHARD_LBA_CNT_ORDER).

Definition count_write (n : Z) (x : DispatchStat) : DispatchStat :=
  mkStat (rd_cnt x) (wr_cnt x + 1) (rep_wr_cnt x) (rd_bytes x) (wr_bytes x + n) (rep_wr_bytes x).
Definition count_read (n : Z) (x : DispatchStat) : DispatchStat :=
  mkStat (rd_cnt x + 1) (wr_cnt x) (rep_wr_cnt x) (rd_bytes x + n) (wr_bytes x) (rep_wr_bytes x).
Definition count_rep_write (n : Z) (x : DispatchStat) : DispatchStat :=
  mkStat (rd_cnt x) (wr_cnt x) (rep_wr_cnt x + 1) (rd_bytes x) (wr_bytes x) (rep_wr_bytes x + n).

(** the switch of [dispatch_io] on the opcode *)
Definition route (env : disp_env) (i : Z) (cmd : PfMessageHead) (vol : PfVolume) (s : PfShard)
    (d : PfDispatcher) : outcome (Z * PfDispatcher) :=
  let op := h_opcode cmd in
  let n := h_length cmd in
  if op =? S5_OP_WRITE then
    dispatch_write env i vol s (set_stat (count_write n (d_stat d)) d)
  else if (op =? S5_OP_READ) || (op =? S5_OP_RECOVERY_READ) then
    dispatch_read env i vol s (set_stat (count_read n (d_stat d)) d)
  else if op =? S5_OP_REPLICATE_WRITE then
    dispatch_rep_write env i vol s (set_stat (count_rep_write n (d_stat d)) d)
  else Fatal.

Definition dispatch_io (env : disp_env) (i : Z) (d : PfDispatcher) : outcome (Z * PfDispatcher) :=
  let* b := get_iocb i d in
  let cmd := i_cmd b in
  match d_opened d !! h_vol_id cmd with
  | None => early_reply env i (Z.lor MSG_STATUS_REOPEN MSG_STATUS_INVALID_STATE) (u16 (-1)) b d
  | Some vol =>
      if negb (h_meta_ver cmd =? v_meta_ver vol) then
        early_reply env i MSG_STATUS_REOPEN (u16 (v_meta_ver vol)) b d
      else
        let cmd := if h_snap_seq cmd =? SNAP_SEQ_HEAD then set_h_snap_seq (u32 (v_snap_seq vol)) cmd else cmd in
        let b := set_cmd cmd b in
        let d := set_iocb i b d in
        let shard_index := u32 (OFFSET_TO_SHARD_INDEX (h_offset cmd)) in
        if u32 (v_shard_count vol) <? shard_index then
          early_reply env i (Z.lor MSG_STATUS_REOPEN MSG_STATUS_INVALID_FIELD) (u16 (v_meta_ver vol)) b d
        else
          let* s := deref (v_shards vol) shard_index in
          route env i cmd vol s d
  end.

(** ** Completion of a request *)
Definition dispatch_complete (env : disp_env) (i k : Z) (d : PfDispatcher) : outcome (Z * PfDispatcher) :=
  let* b := get_iocb i d in
  let* t := deref (i_subtasks b) k in
  let b := set_mask (Z.land (i_task_mask b) (Z.lnot (t_task_mask t))) b in
  let sc := if i_complete_status b =? MSG_STATUS_SUCCESS then t_complete_status t else i_complete_status b in
  let b := set_status sc (i_complete_meta_ver b) b in
  let d := set_iocb i b d in
  let* d := (if i_task_mask b =? 0 then reply_io_to_client env i d else Done d) in
  let* d := iocb_dec_ref (e_disp_count env) i d in
  Done (0, d).

(** the loop of EVT_FORCE_RELEASE_CONN over [used_iocb] *)
Fixpoint force_release (disps c : Z) (l : list Z) (d : PfDispatcher) : outcome PfDispatcher :=
  match l with
  | [] => Done d
  | i :: l =>
      let* b := get_iocb i d in
      let* d := (if decide (i_conn b = Some c) then dec_ref_on_error disps i d else Done d) in
      force_release disps c l d
  end.

Definition process_event (env : disp_env) (e : disp_event) (d : PfDispatcher) : outcome (Z * PfDispatcher) :=
  match e with
  | EvIoReq i => dispatch_io env i d
  | EvIoComplete i k => dispatch_complete env i k d
  | EvForceReleaseConn c =>
      let* k := of_option (d_conns d !! c) in
      let* d := (if negb (c_conn_type k =? RDMA_TYPE) then Done d
                 else force_release (e_disp_count env) c (c_used_iocb k) d) in
      let* d := drop_conn c d in
      Done (0, d)
  end.

(** One turn of the thread: the next event, unless the thread is blocked. *)
Definition turn (env : disp_env) (d : PfDispatcher) : outcome PfDispatcher :=
  if d_blocked d then Done d
  else match d_events d with
       | [] => Done d
       | e :: l => let* (_, d) := process_event env e (set_events l d) in Done d
       end.

(** ** The table of volumes

    Each call also returns what is left of the volume passed in: the caller
    drops its reference afterwards, and the destructor deletes the shards
    that were not taken over. *)
Definition prepare_volume (vol : PfVolume) (d : PfDispatcher) : outcome (Z * PfVolume * PfDispatcher) :=
  match d_opened d !! v_id vol with
  | Some old_v =>
      if v_meta_ver vol <=? v_meta_ver old_v then Done (0, vol, d)
      else
        let* (v, rest) := move_assign old_v vol in
        Done (0, rest, set_opened (<[v_id vol := v]> (d_opened d)) d)
  | None => Done (0, set_shards [] vol, set_opened (<[v_id vol := vol]> (d_opened d)) d)
  end.

Definition delete_volume (vol_id : Z) (d : PfDispatcher) : outcome (Z * PfDispatcher) :=
  if vol_id =? 0 then Fatal
  else Done (0, set_opened (delete vol_id (d_opened d)) d).

Definition set_snap_seq (vol_id snap_seq : Z) (d : PfDispatcher) : PfDispatcher :=
  match d_opened d !! vol_id with
  | None => d
  | Some v => set_opened (<[vol_id := set_v_snap_seq snap_seq v]> (d_opened d)) d
  end.

(** [meta_ver] is an [int], the field a [uint64_t]: the comparison is
    unsigned *)
Definition set_meta_ver (vol_id meta_ver : Z) (d : PfDispatcher) : Z * PfDispatcher :=
  match d_opened d !! vol_id with
  | None => (- ENOENT, d)
  | Some v =>
      if u64 meta_ver <? v_meta_ver v then (- EINVAL, d)
      else (0, set_opened (<[vol_id := set_v_meta_ver (u64 meta_ver) v]> (d_opened d)) d)
  end.

(** the loop of [prepare_shards]: every shard of [nw] replaces the one with
    its index *)
Fixpoint replace_shards (nw old : list (option PfShard)) : outcome (list (option PfShard)) :=
  match nw with
  | [] => Done old
  | s :: nw =>
      let* s := of_option s in
      let* old := store_at old (s_shard_index s) (Some s) in
      replace_shards nw old
  end.

Definition prepare_shards (vol : PfVolume) (d : PfDispatcher) : outcome (Z * PfDispatcher) :=
  match d_opened d !! v_id vol with
  | None => Done (- ENOENT, d)
  | Some old_v =>
      let* l := replace_shards (v_shards vol) (v_shards old_v) in
      Done (0, set_opened (<[v_id vol := set_shards l (set_v_meta_ver (v_meta_ver vol) old_v)]> (d_opened d)) d)
  end.

(** ** The blocks of the pool: the body of the loop of [init_mempools] *)
Definition init_subtask (k : Z) : SubTask := mkSubTask 0 0 0 (Z.shiftl 1 k) k 0.

Definition init_iocb (disp_index : Z) (cmd : PfMessageHead) : PfServerIocb :=
  mkIocb cmd 0 ((Some <$> (init_subtask <$> [0; 1; 2])) ++ replicate (PF_MAX_SUBTASK_CNT - 3) None)
    None 0 MSG_STATUS_SUCCESS 0 0 disp_index false.
