(* ===== verification/DispatcherProps.v ===== *)
(** * What the dispatcher guarantees

    A request is split into subtasks, one for each replica that takes part;
    it is answered once, when the last subtask has completed, with the first
    error and the newest version its replicas reported, and the reference
    count of its block returns to what it was.  [flight] is the invariant of
    a request between its submission and its reply; [flight_step] lets
    replicas answer, the dispatcher take its next event, and anything happen
    that does not concern the request, in any order. *)

From Stdlib Require Import ZArith Lia String.
From stdpp Require Import base tactics list numbers sets gmap strings relations.
From S2P Require Import Prelude FixedQueue MemPool Ids Volume Connection Dispatcher.

(** ** The block of a request in flight *)
Definition subtasks_ok (l : list (option SubTask)) : Prop :=
  length l = PF_MAX_SUBTASK_CNT
  /\ forall k, 0 <= k < 3 -> exists t, arr_get l k = Some (Some t) /\ t_task_mask t = 2 ^ k.

(** [rest] are the subtasks whose completion the dispatcher has not seen *)
Record iocb_at (b : PfServerIocb) (rest : list Z) (r0 sc mv : Z) (cmd : PfMessageHead) (c : option Z)
    : Prop := mkIocbAt {
  ia_subtasks : subtasks_ok (i_subtasks b);
  ia_nodup : NoDup rest;
  ia_range : forall k, k ∈ rest -> 0 <= k < 3;
  ia_bits : forall k, 0 <= k -> Z.testbit (i_task_mask b) k = bool_decide (k ∈ rest);
  ia_mask : 0 <= i_task_mask b;
  ia_ref : i_ref_count b = r0 + Z.of_nat (length rest);
  ia_status : i_complete_status b = sc;
  ia_meta_ver : i_complete_meta_ver b = mv;
  ia_cmd : i_cmd b = cmd;
  ia_conn : i_conn b = c
}.

Lemma subtasks_deref l k : subtasks_ok l -> 0 <= k < 3 ->
  exists t, deref l k = Done t /\ t_task_mask t = 2 ^ k /\ arr_get l k = Some (Some t).
Proof.
  intros [_ H] Hk. destruct (H k Hk) as (t & E & Ht). exists t. unfold deref. by rewrite E.
Qed.

Lemma subtasks_store l k t :
  subtasks_ok l -> 0 <= k < 3 -> t_task_mask t = 2 ^ k ->
  exists l', store_at l k (Some t) = Done l' /\ subtasks_ok l'
    /\ forall j, arr_get l' j = if decide (k = j) then Some (Some t) else arr_get l j.
Proof.
  intros [Hl H] Hk Ht. unfold store_at.
  destruct (arr_set l k (Some t)) as [l'|] eqn:E.
  2: { unfold arr_set in E. rewrite decide_True in E; [done|]. rewrite Hl. unfold PF_MAX_SUBTASK_CNT. lia. }
  exists l'. split; [done|]. assert (forall j, arr_get l' j = if decide (k = j) then Some (Some t) else arr_get l j)
    as Hg by (intros j; by eapply arr_get_set).
  split; [|done]. split; [rewrite (arr_set_length _ _ _ _ E); done|].
  intros j Hj. rewrite Hg. case_decide; [subst j; by exists t|by apply H].
Qed.

Lemma bit_add m k rest :
  0 <= k -> (forall j, 0 <= j -> Z.testbit m j = bool_decide (j ∈ rest)) ->
  forall j, 0 <= j -> Z.testbit (Z.lor m (2 ^ k)) j = bool_decide (j ∈ rest ++ [k]).
Proof.
  intros Hk H j Hj. rewrite Z.lor_spec, H, Z.pow2_bits_eqb by done.
  rewrite (bool_decide_ext (j ∈ rest ++ [k]) (j ∈ rest \/ j = k))
    by (by rewrite elem_of_app, list_elem_of_singleton).
  rewrite bool_decide_or. f_equal.
  destruct (Z.eqb_spec k j); [by rewrite bool_decide_eq_true_2|by rewrite bool_decide_eq_false_2 by done].
Qed.

Lemma bit_clear m k rest rest' :
  0 <= k -> k ∉ rest' -> rest ≡ₚ k :: rest' ->
  (forall j, 0 <= j -> Z.testbit m j = bool_decide (j ∈ rest)) ->
  forall j, 0 <= j -> Z.testbit (Z.land m (Z.lnot (2 ^ k))) j = bool_decide (j ∈ rest').
Proof.
  intros Hk Hn Hp H j Hj. rewrite Z.land_spec, Z.lnot_spec, H, Z.pow2_bits_eqb by done.
  destruct (Z.eqb_spec k j) as [->|Hne]; cbn [negb].
  - rewrite andb_false_r. symmetry. by apply bool_decide_eq_false_2.
  - rewrite andb_true_r. apply bool_decide_ext. rewrite Hp, elem_of_cons. split; [intros [?|?]; [congruence|done]|by right].
Qed.

Lemma mask_zero m rest :
  0 <= m -> (forall j, 0 <= j -> Z.testbit m j = bool_decide (j ∈ rest)) -> (forall k, k ∈ rest -> 0 <= k) ->
  m = 0 <-> rest = [].
Proof.
  intros Hm H Hr. split.
  - intros ->. destruct rest as [|k rest]; [done|]. assert (0 <= k) as Hk by (apply Hr; left).
    specialize (H k Hk). rewrite Z.bits_0, bool_decide_eq_true_2 in H by left. done.
  - intros ->. apply Z.bits_inj'. intros j Hj. rewrite Z.bits_0, H by done. done.
Qed.

(** the range of reference counts that occur *)
Definition ref_room (r0 : Z) : Prop := 1 <= r0 < 2 ^ 31.

Lemma short_list (l : list Z) : NoDup l -> (forall k, k ∈ l -> 0 <= k < 3) -> (length l <= 3)%nat.
Proof.
  intros Hn Hr. assert (l ⊆+ [0; 1; 2]) as Hs; [|by apply submseteq_length in Hs].
  apply NoDup_submseteq; [done|]. intros k Hk%Hr.
  assert (k = 0 \/ k = 1 \/ k = 2) as [->|[->| ->]] by lia; clear; set_solver.
Qed.

Lemma ref_u32 r0 n : ref_room r0 -> (n <= 3)%nat -> u32 (r0 + Z.of_nat n) = r0 + Z.of_nat n.
Proof. intros [? ?] ?. unfold u32. apply Z.mod_small. lia. Qed.

(** ** Setting up and submitting subtasks *)
Lemma setup_one_at b rest r0 sc mv cmd c k op :
  iocb_at b rest r0 sc mv cmd c -> ref_room r0 -> 0 <= k < 3 -> k ∉ rest ->
  exists b', setup_one_subtask k op b = Done b' /\ iocb_at b' (rest ++ [k]) r0 sc mv cmd c.
Proof.
  intros Hb Hroom Hk Hn. pose proof Hb as [Hs Hnd Hr Hbits Hm Href Hsc Hmv Hcmd Hc].
  destruct (subtasks_deref _ k Hs Hk) as (t & E & Ht & _). unfold setup_one_subtask. rewrite E. cbn [obind].
  edestruct (subtasks_store (i_subtasks b) k) as (l & El & Hl & _); [done|done| |rewrite El]; [done|].
  cbn [obind t_task_mask]. rewrite Ht. eexists. split; [reflexivity|].
  assert (NoDup (rest ++ [k])) as Hnd'.
  { apply NoDup_app. splits; [done|by intros j Hj ->%list_elem_of_singleton|apply NoDup_singleton]. }
  assert (forall j, j ∈ rest ++ [k] -> 0 <= j < 3) as Hr'.
  { intros j [Hj%Hr| ->%list_elem_of_singleton]%elem_of_app; done. }
  pose proof (short_list _ Hnd' Hr') as Hlen.
  split; cbn [i_subtasks i_task_mask i_ref_count i_complete_status i_complete_meta_ver i_cmd i_conn
              iocb_add_ref set_ref set_mask set_subtasks]; auto.
  - apply bit_add; [lia|done].
  - apply Z.lor_nonneg. split; [done|]. lia.
  - rewrite Href. rewrite <- (ref_u32 r0 (length (rest ++ [k]))) by done.
    f_equal. rewrite length_app. cbn [length]. lia.
Qed.

Lemma set_target_at b rest r0 sc mv cmd c k r :
  iocb_at b rest r0 sc mv cmd c -> 0 <= k < 3 ->
  exists b', set_target k r b = Done b' /\ iocb_at b' rest r0 sc mv cmd c.
Proof.
  intros [Hs Hnd Hr Hbits Hm Href Hsc Hmv Hcmd Hc] Hk.
  destruct (subtasks_deref _ k Hs Hk) as (t & E & Ht & _). unfold set_target. rewrite E. cbn [obind].
  edestruct (subtasks_store (i_subtasks b) k) as (l & El & Hl & _); [done|done| |rewrite El]; [done|].
  eexists. split; [reflexivity|]. by split.
Qed.

(** the replicas among [k], [k+1], ... that take part in a write *)
Fixpoint live_list (n : nat) (k : Z) (s : PfShard) : list Z :=
  match n with
  | O => []
  | S n => (match mjoin (arr_get (s_replicas s) k) with
            | Some r => if live_status r then [k] else []
            | None => []
            end) ++ live_list n (k + 1) s
  end.

Lemma live_list_range n k s j : j ∈ live_list n k s -> k <= j < k + Z.of_nat n.
Proof.
  revert k. induction n as [|n IH]; intros k; cbn [live_list]; [by intros ?%not_elem_of_nil|].
  intros [H|H%IH]%elem_of_app; [|lia]. destruct (mjoin _) as [r|]; [|by apply not_elem_of_nil in H].
  destruct (live_status r); [|by apply not_elem_of_nil in H]. apply list_elem_of_singleton in H. lia.
Qed.

Lemma setup_loop_at n k s op b rest r0 sc mv cmd c :
  iocb_at b rest r0 sc mv cmd c -> ref_room r0 -> 0 <= k -> k + Z.of_nat n <= 3 ->
  (3 <= length (s_replicas s))%nat -> (forall j, j ∈ rest -> j < k) ->
  exists b', setup_loop n k s op b = Done b' /\ iocb_at b' (rest ++ live_list n k s) r0 sc mv cmd c.
Proof.
  revert k b rest. induction n as [|n IH]; intros k b rest Hb Hroom Hk Hn Hl Hlt.
  { exists b. cbn. by rewrite app_nil_r. }
  cbn [setup_loop live_list].
  destruct (arr_get_is_Some (s_replicas s) k) as [o Eo]; [lia|]. rewrite Eo. cbn [of_option obind mjoin option_join].
  assert (forall j, j ∈ rest -> j < k + 1) as Hlt' by (intros j ?%Hlt; lia).
  destruct o as [r|]; [destruct (live_status r)|]; cbn [obind app]; [|by apply IH; try lia..].
  destruct (setup_one_at b rest r0 sc mv cmd c k op Hb Hroom) as (b1 & E1 & Hb1); [lia|intros ?%Hlt; lia|].
  rewrite E1. cbn [obind].
  destruct (IH (k + 1) b1 (rest ++ [k]) Hb1 Hroom) as (b2 & E2 & Hb2); [lia..|done| |].
  - intros j [Hj%Hlt| ->%list_elem_of_singleton]%elem_of_app; lia.
  - exists b2. rewrite E2, <- app_assoc in *. done.
Qed.

Definition add_out (l : list disp_action) (d : PfDispatcher) : PfDispatcher :=
  mkDisp (d_opened d) (d_index d) (d_stat d) (d_iocbs d) (d_iocb_pool d) (d_conns d) (d_events d)
    (d_blocked d) (d_out d ++ l).

(** the submissions of the replicas [k], [k+1], ... *)
Fixpoint submissions (n : nat) (k : Z) (s : PfShard) (i : Z) : list disp_action :=
  match n with
  | O => []
  | S n => (match mjoin (arr_get (s_replicas s) k) with
            | Some r => if live_status r then [ASubmit i k r] else []
            | None => []
            end) ++ submissions n (k + 1) s i
  end.

Lemma submit_loop_at env n k s i d b rest r0 sc mv cmd c :
  d_iocbs d !! i = Some b -> iocb_at b rest r0 sc mv cmd c -> 0 <= k -> k + Z.of_nat n <= 3 ->
  (forall j, k <= j < k + Z.of_nat n -> exists r, arr_get (s_replicas s) j = Some (Some r)) ->
  (forall j, e_submit env i j = 0) ->
  exists b', submit_loop env n k s i d = Done (add_out (submissions n k s i) (set_iocb i b' d))
    /\ iocb_at b' rest r0 sc mv cmd c.
Proof.
  revert k d b. induction n as [|n IH]; intros k d b Ei Hb Hk Hn Hr He.
  { exists b. split; [|done]. cbn. unfold add_out, set_iocb. cbn. rewrite app_nil_r, insert_id by done. by destruct d. }
  cbn [submit_loop submissions]. destruct (Hr k) as [r Er]; [lia|].
  unfold deref. rewrite Er. cbn [mjoin option_join of_option obind].
  assert (forall j, k + 1 <= j < k + 1 + Z.of_nat n -> exists r, arr_get (s_replicas s) j = Some (Some r)) as Hr'
    by (intros j Hj; apply Hr; lia).
  destruct (live_status r); cbn [obind app]; [|by apply IH with (b := b); try lia].
  unfold get_iocb. rewrite Ei. cbn [of_option obind].
  destruct (set_target_at b rest r0 sc mv cmd c k r Hb) as (b1 & E1 & Hb1); [lia|]. rewrite E1. cbn [obind].
  unfold submit_io. rewrite (proj2 (Z.leb_le 0 k)), (proj2 (Z.ltb_lt k 3)) by lia. cbn [andb negb].
  rewrite He. cbn [obind Z.eqb].
  destruct (IH (k + 1) (out (ASubmit i k r) (set_iocb i b1 d)) b1) as (b2 & E2 & Hb2); auto; try lia.
  { cbn. by rewrite lookup_insert_eq. }
  exists b2. split; [|done]. rewrite E2. unfold add_out, set_iocb, out. cbn.
  rewrite insert_insert_eq, <- app_assoc. done.
Qed.

(** ** A request in flight *)
Record answer : Type := mkAnswer {
  a_task : Z;
  a_status : Z;
  a_meta_ver : Z
}.

Definition first_error (l : list answer) : Z :=
  foldl (fun sc a => if sc =? MSG_STATUS_SUCCESS then a_status a else sc) MSG_STATUS_SUCCESS l.

Definition newest (mv : Z) (l : list answer) : Z := foldl (fun m a => Z.max m (a_meta_ver a)) mv l.

Lemma newest_snoc mv l a : newest mv (l ++ [a]) = Z.max (newest mv l) (a_meta_ver a).
Proof. unfold newest. by rewrite foldl_app. Qed.

Lemma first_error_snoc l a :
  first_error (l ++ [a]) = if first_error l =? MSG_STATUS_SUCCESS then a_status a else first_error l.
Proof. unfold first_error. by rewrite foldl_app. Qed.

(** the replies to the request in block [i] among the actions *)
Definition replies_in (i : Z) (l : list disp_action) : list PfMessageReply :=
  omap (fun a => match a with
                 | AReply _ j m => if decide (j = i) then Some m else None
                 | _ => None
                 end) l.

Definition replies (i : Z) (d : PfDispatcher) : list PfMessageReply := replies_in i (d_out d).

(** the completions of the request waiting in the queue of events *)
Definition done_of (i : Z) (l : list disp_event) : list Z :=
  omap (fun e => match e with
                 | EvIoComplete j k => if decide (j = i) then Some k else None
                 | _ => None
                 end) l.

Lemma replies_in_app i l1 l2 : replies_in i (l1 ++ l2) = replies_in i l1 ++ replies_in i l2.
Proof. apply omap_app. Qed.

Section Flight.
Variables (env : disp_env) (i c r0 mv0 : Z) (cmd : PfMessageHead) (base : list PfMessageReply).

(** sending on this connection works *)
Definition sends : Prop :=
  (forall m, e_post_send env c m = 0) /\ (forall j, e_post_write env c j = 0).

(** [waiting]: subtasks no replica has answered; [pend]: answers whose event
    the dispatcher has not taken; [deliv]: the others. *)
Record flight (d : PfDispatcher) (b : PfServerIocb) (waiting : list Z) (deliv pend : list answer) : Prop :=
  mkFlight {
  fl_iocb : d_iocbs d !! i = Some b;
  fl_at : iocb_at b (waiting ++ (a_task <$> pend)) r0 (first_error deliv) (newest mv0 (deliv ++ pend)) cmd (Some c);
  fl_pend : forall a, a ∈ pend -> exists t, arr_get (i_subtasks b) (a_task a) = Some (Some t)
                                        /\ t_complete_status t = a_status a;
  fl_events : done_of i (d_events d) = a_task <$> pend;
  fl_conn : exists k, d_conns d !! c = Some k /\ c_state k = CONN_OK;
  fl_running : d_blocked d = false;
  fl_replies : replies i d = base ++
    (match waiting, pend with
     | [], [] => [mkReply (first_error deliv) (newest mv0 deliv) (h_command_id cmd) (h_command_seq cmd)]
     | _, _ => []
     end)
}.

(** whatever else the dispatcher and other threads do *)
Record elsewhere (d d' : PfDispatcher) : Prop := mkElsewhere {
  ew_iocb : d_iocbs d' !! i = d_iocbs d !! i;
  ew_events : done_of i (d_events d') = done_of i (d_events d);
  ew_conn : forall k, d_conns d !! c = Some k ->
            exists k', d_conns d' !! c = Some k' /\ c_state k' = c_state k;
  ew_running : d_blocked d' = d_blocked d;
  ew_replies : replies i d' = replies i d
}.

(** the steps of a request: the dispatcher, the subtasks not answered, and
    the answers so far *)
Inductive flight_step : PfDispatcher * list Z * list answer -> PfDispatcher * list Z * list answer -> Prop :=
| fs_answer d d' w1 w2 k sc mv log :
    server_complete_with_metaver i k sc mv d = Done d' ->
    flight_step (d, w1 ++ k :: w2, log) (d', w1 ++ w2, log ++ [mkAnswer k sc mv])
| fs_turn d d' w log k l :
    d_events d = EvIoComplete i k :: l -> turn env d = Done d' ->
    flight_step (d, w, log) (d', w, log)
| fs_elsewhere d d' w log :
    elsewhere d d' -> flight_step (d, w, log) (d', w, log).

Lemma iocb_at_perm b l1 l2 sc mv :
  l1 ≡ₚ l2 -> iocb_at b l1 r0 sc mv cmd (Some c) -> iocb_at b l2 r0 sc mv cmd (Some c).
Proof.
  intros Hp [Hs Hnd Hr Hbits Hm Href Hsc Hmv Hcmd Hc]. split; auto.
  - by rewrite <- Hp.
  - intros k. rewrite <- Hp. apply Hr.
  - intros k Hk. rewrite Hbits by done. apply bool_decide_ext. by rewrite Hp.
  - by rewrite <- Hp.
Qed.

(** ** A replica answers *)
Lemma answer_runs d b waiting deliv pend k sc mv :
  flight d b waiting deliv pend -> k ∈ waiting ->
  exists b' l, server_complete_with_metaver i k sc mv d
                 = Done (set_events (d_events d ++ [EvIoComplete i k]) (set_iocb i b' d))
    /\ b' = set_subtasks l (set_status (i_complete_status b) (Z.max (i_complete_meta_ver b) mv) b)
    /\ subtasks_ok l
    /\ forall j, arr_get l j = if decide (k = j)
         then option_map (option_map (set_t_status sc)) (arr_get (i_subtasks b) k) else arr_get (i_subtasks b) j.
Proof.
  intros Hf Hk. pose proof (fl_at _ _ _ _ _ Hf) as Hb.
  assert (0 <= k < 3) as Hk3 by (apply (ia_range _ _ _ _ _ _ _ Hb); apply elem_of_app; by left).
  destruct (subtasks_deref _ k (ia_subtasks _ _ _ _ _ _ _ Hb) Hk3) as (t & Et & Ht & Eg).
  destruct (subtasks_store (i_subtasks b) k (set_t_status sc t)) as (l & El & Hl & Hg);
    [apply Hb|done|done|].
  exists (set_subtasks l (set_status (i_complete_status b) (Z.max (i_complete_meta_ver b) mv) b)), l.
  splits; [|done|done|].
  - unfold server_complete_with_metaver, get_iocb. rewrite (fl_iocb _ _ _ _ _ Hf). cbn [of_option obind].
    destruct (Z.ltb_spec (i_complete_meta_ver b) mv) as [Hlt|Hge]; unfold server_complete, get_iocb.
    + cbn [d_iocbs set_iocb]. rewrite lookup_insert_eq. cbn [of_option obind i_subtasks set_status].
      rewrite Et. cbn [obind]. rewrite El. cbn [obind]. unfold set_events, set_iocb. cbn.
      rewrite insert_insert_eq, Z.max_r by lia. done.
    + rewrite (fl_iocb _ _ _ _ _ Hf). cbn [of_option obind]. rewrite Et. cbn [obind]. rewrite El.
      cbn [obind]. rewrite Z.max_l by lia. by destruct b.
  - intros j. rewrite Hg. case_decide; [|done]. by rewrite Eg.
Qed.

Lemma done_of_snoc l k : done_of i (l ++ [EvIoComplete i k]) = done_of i l ++ [k].
Proof. unfold done_of. rewrite omap_app. cbn. by rewrite decide_True by done. Qed.

Lemma answer_flight d b w1 w2 deliv pend k sc mv d' :
  flight d b (w1 ++ k :: w2) deliv pend -> server_complete_with_metaver i k sc mv d = Done d' ->
  exists b', flight d' b' (w1 ++ w2) deliv (pend ++ [mkAnswer k sc mv]).
Proof.
  intros Hf E. destruct (answer_runs d b _ deliv pend k sc mv Hf) as (b' & l & E' & Eb & Hl & Hg).
  { apply elem_of_app. right. left. }
  rewrite E in E'. injection E' as ->. exists b'. destruct Hf as [Hi Hb Hpend Hev Hc Hr Hrep].
  assert (k ∉ a_task <$> pend) as Hkp.
  { pose proof (ia_nodup _ _ _ _ _ _ _ Hb) as Hn. apply NoDup_app in Hn as (_ & Hn & _).
    apply Hn. apply elem_of_app. right. left. }
  split; cbn [set_events set_iocb d_iocbs d_events d_conns d_blocked]; auto.
  - apply lookup_insert_eq.
  - subst b'. apply (iocb_at_perm _ ((w1 ++ k :: w2) ++ (a_task <$> pend))).
    { rewrite fmap_app. cbn. rewrite <- !app_assoc. apply Permutation_app_head. cbn.
      rewrite (app_assoc w2). apply Permutation_cons_append. }
    destruct Hb as [Hs Hnd Hrg Hbits Hm Href Hsc Hmv Hcmd Hcc]. split; auto.
    cbn [i_complete_meta_ver set_subtasks set_status]. by rewrite Hmv, app_assoc, newest_snoc.
  - intros a [Ha|Ha%list_elem_of_singleton]%elem_of_app.
    + destruct (Hpend a Ha) as (t & Et & Ht). exists t. split; [|done]. subst b'. cbn [i_subtasks set_subtasks].
      rewrite Hg, decide_False; [done|]. intros ->. apply Hkp. by apply list_elem_of_fmap_2.
    + subst a b'. cbn [a_task a_status i_subtasks set_subtasks].
      destruct (subtasks_deref (i_subtasks b) k) as (t & _ & _ & Et); [apply Hb| |].
      { apply (ia_range _ _ _ _ _ _ _ Hb). apply elem_of_app. left. apply elem_of_app. right. left. }
      exists (set_t_status sc t). rewrite Hg, decide_True, Et by done. done.
  - rewrite done_of_snoc, Hev, fmap_app. done.
  - change (replies i (set_events _ (set_iocb i b' d))) with (replies i d). rewrite Hrep.
    destruct w1; cbn; [|done]. destruct w2; cbn; [|done]. by destruct pend.
Qed.

(** ** The dispatcher takes a completion *)
Hypothesis Hsends : sends.
Hypothesis Hroom : ref_room r0.

Lemma reply_sent d b :
  d_iocbs d !! i = Some b -> i_conn b = Some c ->
  (exists k, d_conns d !! c = Some k /\ c_state k = CONN_OK) ->
  exists l, reply_io_to_client env i d = Done (add_out l d) /\ replies_in i l = [reply_message b].
Proof.
  intros Ei Ec (k & Ek & Hk). destruct Hsends as [Hs Hw]. unfold reply_io_to_client, get_iocb.
  rewrite Ei. cbn [of_option obind]. rewrite Ec, Ek. cbn [of_option obind].
  rewrite Hk, Z.eqb_refl. cbn [negb].
  unfold send_reply. rewrite Hs, Hw. cbn [Z.eqb].
  destruct (_ && _).
  - exists [APostWrite c i; AReply c i (reply_message b)]. split.
    + unfold add_out, out. cbn. by rewrite <- app_assoc.
    + cbn. by rewrite decide_True by done.
  - exists [AReply c i (reply_message b)]. split; [done|]. cbn. by rewrite decide_True by done.
Qed.

Lemma add_out_nil d : add_out [] d = d.
Proof. unfold add_out. rewrite app_nil_r. by destruct d. Qed.

(** the block after a completion, before the reference is dropped *)
Definition completed (b : PfServerIocb) (k : Z) (t : SubTask) : PfServerIocb :=
  set_status (if i_complete_status b =? MSG_STATUS_SUCCESS then t_complete_status t else i_complete_status b)
    (i_complete_meta_ver b) (set_mask (Z.land (i_task_mask b) (Z.lnot (2 ^ k))) b).

Lemma completed_at b k t rest rest' deliv a all :
  iocb_at b rest r0 (first_error deliv) (newest mv0 all) cmd (Some c) ->
  rest ≡ₚ k :: rest' -> t_complete_status t = a_status a ->
  iocb_at (set_ref (r0 + Z.of_nat (length rest')) (completed b k t)) rest' r0 (first_error (deliv ++ [a]))
    (newest mv0 all) cmd (Some c)
  /\ i_ref_count (completed b k t) = r0 + Z.of_nat (length rest') + 1.
Proof.
  intros [Hs Hnd Hr Hbits Hm Href Hsc Hmv Hcmd Hc] Hp Ht.
  rewrite Hp in Hnd. apply NoDup_cons in Hnd as [Hk Hnd].
  assert (0 <= k < 3) as Hk3 by (apply Hr; rewrite Hp; left).
  split.
  - split; cbn; auto.
    + intros j Hj. apply Hr. rewrite Hp. by right.
    + apply (bit_clear _ _ rest); (done || lia).
    + apply Z.land_nonneg. by left.
    + rewrite first_error_snoc, Hsc, Ht. done.
  - cbn. rewrite Href, Hp. cbn [length]. lia.
Qed.

(** a reference that is not the last one *)
Lemma dec_ref_some disps d b n :
  d_iocbs d !! i = Some b -> i_ref_count b = n + 1 -> 1 <= n < 2 ^ 32 ->
  iocb_dec_ref disps i d = Done (set_iocb i (set_ref n b) d).
Proof.
  intros Ei Hn Hr. unfold iocb_dec_ref, get_iocb. rewrite Ei. cbn [of_option obind].
  rewrite Hn. replace (n + 1 - 1) with n by lia. unfold u32. rewrite Z.mod_small by lia.
  cbn [i_ref_count set_ref]. by rewrite (proj2 (Z.eqb_neq n 0)) by lia.
Qed.

Lemma done_of_cons k l : done_of i (EvIoComplete i k :: l) = k :: done_of i l.
Proof. unfold done_of. cbn. by rewrite decide_True by done. Qed.

(** the reply is sent with the last completion only *)
Lemma reply_if_last d b waiting (pend : list answer) sc mv :
  iocb_at (set_ref (r0 + Z.of_nat (length (waiting ++ (a_task <$> pend)))) b)
    (waiting ++ (a_task <$> pend)) r0 sc mv cmd (Some c) ->
  (exists k, d_conns d !! c = Some k /\ c_state k = CONN_OK) ->
  exists out', (if i_task_mask b =? 0 then reply_io_to_client env i (set_iocb i b d)
                else Done (set_iocb i b d)) = Done (add_out out' (set_iocb i b d))
    /\ replies_in i out' = (match waiting, pend with [], [] => [reply_message b] | _, _ => [] end).
Proof.
  intros Hb Hc.
  assert (i_task_mask b = 0 <-> waiting ++ (a_task <$> pend) = []) as Hz.
  { apply mask_zero; [apply (ia_mask _ _ _ _ _ _ _ Hb)|apply (ia_bits _ _ _ _ _ _ _ Hb)|].
    intros j Hj. apply (ia_range _ _ _ _ _ _ _ Hb) in Hj. lia. }
  destruct (Z.eqb_spec (i_task_mask b) 0) as [E|E].
  - apply Hz in E. destruct (reply_sent (set_iocb i b d) b) as (o & Eo & Ho);
      [apply lookup_insert_eq|apply (ia_conn _ _ _ _ _ _ _ Hb)|done|].
    exists o. split; [done|]. rewrite Ho.
    apply app_eq_nil in E as [-> E]. apply fmap_nil_inv in E as ->. done.
  - exists []. rewrite add_out_nil. split; [done|]. destruct waiting; [|done]. destruct pend; [|done].
    exfalso. apply E, Hz. done.
Qed.

(** what one turn on an event of the request does *)
Lemma turn_runs d b waiting deliv a pend k l :
  flight d b waiting deliv (a :: pend) -> d_events d = EvIoComplete i k :: l ->
  exists t out', k = a_task a /\ t_complete_status t = a_status a
    /\ turn env d = Done (set_iocb i (set_ref (r0 + Z.of_nat (length (waiting ++ (a_task <$> pend))))
                                        (completed b k t)) (add_out out' (set_events l d)))
    /\ replies_in i out' = (match waiting, pend with
                            | [], [] => [reply_message (completed b k t)]
                            | _, _ => []
                            end).
Proof.
  intros Hf Ee. pose proof Hf as [Hi Hb Hpend Hev Hc Hr Hrep].
  rewrite Ee, done_of_cons in Hev. cbn [fmap list_fmap] in Hev. injection Hev as -> Hev.
  destruct (Hpend a) as (t & Et & Ht); [left|]. set (k := a_task a) in *.
  set (rest := waiting ++ (a_task <$> pend)).
  assert (waiting ++ (a_task <$> a :: pend) ≡ₚ k :: rest) as Hp.
  { unfold rest. cbn. by rewrite <- Permutation_middle. }
  destruct (completed_at b k t _ rest deliv a _ Hb Hp Ht) as [Hb' Href].
  assert (0 <= k < 3) as Hk3 by (apply (ia_range _ _ _ _ _ _ _ Hb); rewrite Hp; left).
  destruct (ia_subtasks _ _ _ _ _ _ _ Hb) as [_ Hsub]. destruct (Hsub k Hk3) as (t' & Et' & Hmask).
  rewrite Et in Et'. injection Et' as <-.
  pose proof (short_list _ (ia_nodup _ _ _ _ _ _ _ Hb') (ia_range _ _ _ _ _ _ _ Hb')) as Hlen.
  destruct (reply_if_last (set_events l d) (completed b k t) waiting pend _ _ Hb' Hc) as (o & Eo & Ho).
  set (d1 := set_iocb i (completed b k t) (set_events l d)) in *.
  exists t, o. splits; [done|done| |done].
  unfold turn. rewrite Hr, Ee. cbn [process_event]. unfold dispatch_complete, get_iocb.
  cbn [d_iocbs set_events]. rewrite Hi. cbn [of_option obind]. unfold deref at 1. rewrite Et.
  cbn [mjoin option_join of_option obind]. rewrite Hmask.
  change (set_iocb i _ (set_events l d)) with d1.
  change (i_task_mask (set_status _ _ _)) with (i_task_mask (completed b k t)).
  rewrite Eo. cbn [obind].
  rewrite (dec_ref_some _ _ (completed b k t) (r0 + Z.of_nat (length rest))); cbn [obind].
  - f_equal. unfold d1, set_iocb, add_out. cbn. by rewrite insert_insert_eq.
  - apply lookup_insert_eq.
  - exact Href.
  - destruct Hroom. lia.
Qed.

Lemma turn_flight d b waiting deliv pend k l d' :
  flight d b waiting deliv pend -> d_events d = EvIoComplete i k :: l -> turn env d = Done d' ->
  exists a pend' b', pend = a :: pend' /\ flight d' b' waiting (deliv ++ [a]) pend'.
Proof.
  intros Hf Ee E. destruct pend as [|a pend].
  { pose proof (fl_events _ _ _ _ _ Hf) as Hev. rewrite Ee, done_of_cons in Hev. discriminate Hev. }
  destruct (turn_runs d b waiting deliv a pend k l Hf Ee) as (t & o & -> & Ht & E' & Ho).
  rewrite E in E'. injection E' as ->. exists a, pend. eexists. split; [reflexivity|].
  destruct Hf as [Hi Hb Hpend Hev Hc Hr Hrep].
  assert (waiting ++ (a_task <$> a :: pend) ≡ₚ a_task a :: waiting ++ (a_task <$> pend)) as Hp.
  { cbn. by rewrite <- Permutation_middle. }
  destruct (completed_at b (a_task a) t _ _ deliv a _ Hb Hp Ht) as [Hb' _].
  split; cbn [set_iocb add_out set_events d_iocbs d_events d_conns d_blocked]; auto.
  - apply lookup_insert_eq.
  - rewrite <- app_assoc. exact Hb'.
  - intros a' Ha'. apply Hpend. by right.
  - rewrite Ee, done_of_cons in Hev. cbn in Hev. by injection Hev.
  - unfold replies in *. cbn [set_iocb add_out set_events d_out]. rewrite replies_in_app, Hrep, Ho.
    rewrite <- app_assoc. f_equal. destruct waiting; [|done]. destruct pend; [|done]. cbn [app].
    unfold reply_message. rewrite <- (ia_status _ _ _ _ _ _ _ Hb'), <- (ia_meta_ver _ _ _ _ _ _ _ Hb'),
      <- (ia_cmd _ _ _ _ _ _ _ Hb'). done.
Qed.

Lemma elsewhere_flight d b waiting deliv pend d' :
  flight d b waiting deliv pend -> elsewhere d d' -> flight d' b waiting deliv pend.
Proof.
  intros [Hi Hb Hpend Hev (k & Hk & Hs) Hr Hrep] [E1 E2 E3 E4 E5].
  split; auto; try congruence. destruct (E3 k Hk) as (k' & Hk' & Hs'). exists k'. split; congruence.
Qed.

(** [subs] are the subtasks submitted *)
Lemma flight_steps d0 b0 subs d waiting log :
  flight d0 b0 subs [] [] -> rtc flight_step (d0, subs, []) (d, waiting, log) ->
  exists b deliv pend, log = deliv ++ pend /\ subs ≡ₚ waiting ++ (a_task <$> log)
    /\ flight d b waiting deliv pend.
Proof.
  intros Hf Hr. remember (d, waiting, log) as y eqn:Ey. revert d waiting log Ey. revert y Hr.
  apply (rtc_ind_r (fun y => forall d waiting log, y = (d, waiting, log) -> exists b deliv pend,
    log = deliv ++ pend /\ subs ≡ₚ waiting ++ (a_task <$> log) /\ flight d b waiting deliv pend));
    [intros d waiting log Ey|intros y z Hr Hs IH d waiting log Ey].
  { injection Ey as <- <- <-. exists b0, [], []. splits; [done| |done]. by rewrite app_nil_r. }
  destruct y as [[d1 w1] log1]. destruct (IH d1 w1 log1 eq_refl) as (b & deliv & pend & -> & Hp & Hf1). clear IH.
  subst z. inversion Hs as [d2 d' u1 u2 k sc mv log2 E|d2 d' w2 log2 k l Ee E|d2 d' w2 log2 E]; subst.
  - destruct (answer_flight _ _ _ _ _ _ _ _ _ _ Hf1 E) as (b' & Hf').
    exists b', deliv, (pend ++ [mkAnswer k sc mv]). splits; [by rewrite app_assoc| |done].
    rewrite Hp, (fmap_app a_task (deliv ++ pend)). cbn. rewrite <- !app_assoc. apply Permutation_app_head. cbn.
    rewrite !(app_assoc u2). apply Permutation_cons_append.
  - destruct (turn_flight _ _ _ _ _ _ _ _ Hf1 Ee E) as (a & pend' & b' & -> & Hf').
    exists b', (deliv ++ [a]), pend'. splits; [by rewrite <- app_assoc|done|done].
  - exists b, deliv, pend. splits; [done|done|]. by eapply elsewhere_flight.
Qed.
End Flight.

(** ** Dispatching *)

(** [subs]: the subtasks a request is split into *)
Definition subs_of (op : Z) (s : PfShard) : list Z :=
  if op =? S5_OP_WRITE then live_list (Z.to_nat (s_rep_count s)) 0 s else [s_duty_rep_index s].

(** A shard that serves the operation on this node: a write needs the
    primary, with every replica known and its own one healthy; a read the
    primary with a healthy replica; a replicated write a node that is not the
    primary, with a replica that is healthy or in recovery. *)
Record writable (vol : PfVolume) (s : PfShard) : Prop := mkWritable {
  wr_count : s_rep_count s = v_rep_count vol /\ 1 <= s_rep_count s <= 3;
  wr_arrays : Z.of_nat (length (s_replicas s)) = MAX_REP_COUNT;
  wr_present : forall j, 0 <= j < s_rep_count s -> exists r, arr_get (s_replicas s) j = Some (Some r);
  wr_duty : 0 <= s_duty_rep_index s < s_rep_count s;
  wr_primary : s_is_primary_node s = true;
  wr_healthy : exists r, arr_get (s_replicas s) (s_duty_rep_index s) = Some (Some r) /\ r_status r = HS_OK
}.

Definition serves (op : Z) (vol : PfVolume) (s : PfShard) : Prop :=
  (op = S5_OP_WRITE /\ writable vol s)
  \/ ((op = S5_OP_READ \/ op = S5_OP_RECOVERY_READ) /\ s_is_primary_node s = true
      /\ 0 <= s_duty_rep_index s < 3
      /\ exists r, arr_get (s_replicas s) (s_duty_rep_index s) = Some (Some r) /\ r_status r = HS_OK)
  \/ (op = S5_OP_REPLICATE_WRITE /\ s_is_primary_node s = false /\ 0 <= s_duty_rep_index s < 3
      /\ exists r, arr_get (s_replicas s) (s_duty_rep_index s) = Some (Some r) /\ live_status r = true).

(** A block as it leaves [init_mempools], [re_init] or [free_to_pool], with a
    request on connection [c] in it. *)
Record fresh (b : PfServerIocb) (c r0 : Z) : Prop := mkFresh {
  fr_subtasks : subtasks_ok (i_subtasks b);
  fr_status : i_complete_status b = MSG_STATUS_SUCCESS;
  fr_conn : i_conn b = Some c;
  fr_ref : i_ref_count b = r0
}.

Lemma fresh_at b c r0 : fresh b c r0 ->
  iocb_at (set_mask 0 b) [] r0 MSG_STATUS_SUCCESS (i_complete_meta_ver b) (i_cmd b) (Some c).
Proof.
  intros [Hs Hsc Hc Hr]. split; cbn; auto.
  - apply NoDup_nil_2.
  - by intros k ?%not_elem_of_nil.
  - intros k _. by rewrite Z.bits_0.
  - lia.
  - lia.
Qed.

Lemma duty_live s j n k r :
  arr_get (s_replicas s) j = Some (Some r) -> live_status r = true -> k <= j < k + Z.of_nat n ->
  j ∈ live_list n k s.
Proof.
  intros E Hr. revert k. induction n as [|n IH]; intros k Hj; [lia|]. cbn [live_list]. apply elem_of_app.
  destruct (decide (j = k)) as [->|Hne]; [left|right; apply IH; lia].
  rewrite E. cbn. rewrite Hr. by apply list_elem_of_singleton.
Qed.

Lemma live_ok r : r_status r = HS_OK -> live_status r = true.
Proof. intros E. unfold live_status. by rewrite E. Qed.

Section Dispatch.
Variables (env : disp_env) (i c r0 : Z).
Hypothesis Hsubmits : forall k, e_submit env i k = 0.
Hypothesis Hroom : ref_room r0.

(** what a dispatch leaves: the request in flight with its subtasks, all of
    them submitted, and nothing else changed *)
Definition in_flight (cmd : PfMessageHead) (mv0 : Z) (subs : list Z) (d d' : PfDispatcher) : Prop :=
  exists b' acts, d' = add_out acts (set_iocb i b' d)
    /\ iocb_at b' subs r0 MSG_STATUS_SUCCESS mv0 cmd (Some c)
    /\ Forall (fun a => match a with ASubmit j _ _ => j = i | _ => False end) acts
    /\ (fun a => match a with ASubmit _ k _ => k | _ => -1 end) <$> acts = subs.

Lemma submissions_subs n k s :
  Forall (fun a => match a with ASubmit j _ _ => j = i | _ => False end) (submissions n k s i)
  /\ (fun a => match a with ASubmit _ k _ => k | _ => -1 end) <$> submissions n k s i = live_list n k s.
Proof.
  revert k. induction n as [|n IH]; intros k; cbn [submissions live_list]; [done|].
  destruct (IH (k + 1)) as [H1 H2]. destruct (mjoin _) as [r|]; [|done].
  destruct (live_status r); [|done]. cbn. rewrite H2. split; [by constructor|done].
Qed.

Lemma dispatch_write_flight d b vol s :
  d_iocbs d !! i = Some b -> fresh b c r0 -> writable vol s ->
  exists d', dispatch_write env i vol s d = Done (0, d')
    /\ in_flight (i_cmd b) (i_complete_meta_ver b) (live_list (Z.to_nat (s_rep_count s)) 0 s) d d'.
Proof.
  intros Ei Hb [[Hc1 Hc2] Ha Hpr Hdu Hp (r & Er & Hr)]. unfold dispatch_write, get_iocb.
  rewrite Ei. cbn [of_option obind]. rewrite Hp. unfold deref at 1. rewrite Er.
  cbn [mjoin option_join of_option obind]. rewrite Hr. cbn [HS_OK Z.eqb negb].
  destruct (setup_loop_at (Z.to_nat (s_rep_count s)) 0 s (h_opcode (i_cmd (set_mask 0 b))) (set_mask 0 b) []
     r0 _ _ _ _ (fresh_at b c r0 Hb) Hroom) as (b1 & E1 & Hb1);
    [lia|lia|unfold MAX_REP_COUNT in Ha; lia|by intros j ?%not_elem_of_nil|].
  unfold setup_subtask. rewrite E1. cbn [obind app] in *. rewrite <- Hc1.
  edestruct (submit_loop_at env (Z.to_nat (s_rep_count s)) 0 s i (set_iocb i b1 (set_iocb i (set_mask 0 b) d)) b1)
    as (b2 & E2 & Hb2); [apply lookup_insert_eq|exact Hb1|lia|lia| |done|].
  { intros j Hj. apply Hpr. lia. }
  rewrite E2. cbn [obind]. eexists. split; [reflexivity|].
  destruct (submissions_subs (Z.to_nat (s_rep_count s)) 0 s) as [S1 S2].
  exists b2, (submissions (Z.to_nat (s_rep_count s)) 0 s i). splits; [|exact Hb2|done|done].
  unfold add_out, set_iocb. cbn. by rewrite !insert_insert_eq.
Qed.

(** the common tail of [dispatch_read] and [dispatch_rep_write] *)
Lemma one_subtask_flight d b k op r :
  d_iocbs d !! i = Some b -> fresh b c r0 -> 0 <= k < 3 ->
  exists b1 b2, setup_one_subtask k op (set_mask 0 b) = Done b1 /\ set_target k r b1 = Done b2
    /\ submit_io env i k r (set_iocb i b2 (set_iocb i (set_mask 0 b) d))
       = Done (add_out [ASubmit i k r] (set_iocb i b2 d))
    /\ in_flight (i_cmd b) (i_complete_meta_ver b) [k] d (add_out [ASubmit i k r] (set_iocb i b2 d)).
Proof.
  intros Ei Hb Hk.
  destruct (setup_one_at _ _ _ _ _ _ _ k op (fresh_at b c r0 Hb) Hroom Hk) as (b1 & E1 & Hb1);
    [by apply not_elem_of_nil|].
  destruct (set_target_at _ _ _ _ _ _ _ k r Hb1 Hk) as (b2 & E2 & Hb2).
  exists b1, b2. splits; auto.
  - unfold submit_io. rewrite (proj2 (Z.leb_le 0 k)), (proj2 (Z.ltb_lt k 3)) by lia. cbn [andb negb].
    rewrite Hsubmits. cbn [Z.eqb]. f_equal. unfold add_out, out, set_iocb. cbn. by rewrite insert_insert_eq.
  - exists b2, [ASubmit i k r]. splits; [done|exact Hb2|by constructor|done].
Qed.

Lemma dispatch_read_flight d b vol s r :
  d_iocbs d !! i = Some b -> fresh b c r0 -> s_is_primary_node s = true -> 0 <= s_duty_rep_index s < 3 ->
  arr_get (s_replicas s) (s_duty_rep_index s) = Some (Some r) -> r_status r = HS_OK ->
  exists d', dispatch_read env i vol s d = Done (0, d')
    /\ in_flight (i_cmd b) (i_complete_meta_ver b) [s_duty_rep_index s] d d'.
Proof.
  intros Ei Hb Hp Hk Er Hr.
  destruct (one_subtask_flight d b (s_duty_rep_index s) (h_opcode (i_cmd b)) r Ei Hb Hk)
    as (b1 & b2 & E1 & E2 & E3 & Hf).
  unfold dispatch_read, get_iocb. rewrite Ei. cbn [of_option obind].
  unfold deref at 1. rewrite Er. cbn [mjoin option_join of_option obind]. rewrite Hr. cbn [HS_OK Z.eqb].
  change (h_opcode (i_cmd (set_mask 0 b))) with (h_opcode (i_cmd b)). rewrite E1. cbn [obind].
  rewrite E2, Hp. cbn [obind negb]. rewrite E3. cbn [obind]. eauto.
Qed.

Lemma dispatch_rep_write_flight d b vol s r :
  d_iocbs d !! i = Some b -> fresh b c r0 -> s_is_primary_node s = false -> 0 <= s_duty_rep_index s < 3 ->
  arr_get (s_replicas s) (s_duty_rep_index s) = Some (Some r) -> live_status r = true ->
  exists d', dispatch_rep_write env i vol s d = Done (0, d')
    /\ in_flight (i_cmd b) (i_complete_meta_ver b) [s_duty_rep_index s] d d'.
Proof.
  intros Ei Hb Hp Hk Er Hr.
  destruct (one_subtask_flight d b (s_duty_rep_index s) S5_OP_REPLICATE_WRITE r Ei Hb Hk)
    as (b1 & b2 & E1 & E2 & E3 & Hf).
  unfold dispatch_rep_write, get_iocb. rewrite Ei. cbn [of_option obind].
  unfold deref at 1. rewrite Er. cbn [mjoin option_join of_option obind]. rewrite Hr, E1. cbn [obind].
  rewrite E2, Hp. cbn [obind]. rewrite E3. cbn [obind]. eauto.
Qed.

Lemma route_flight d b vol s :
  d_iocbs d !! i = Some b -> fresh b c r0 -> serves (h_opcode (i_cmd b)) vol s ->
  exists d' st, route env i (i_cmd b) vol s d = Done (0, d')
    /\ in_flight (i_cmd b) (i_complete_meta_ver b) (subs_of (h_opcode (i_cmd b)) s) (set_stat st d) d'.
Proof.
  intros Ei Hb Hs. unfold route, subs_of.
  destruct Hs as [[Ho Hw]|[(Ho & Hp & Hk & r & Er & Hr)|(Ho & Hp & Hk & r & Er & Hr)]].
  - rewrite Ho. change (S5_OP_WRITE =? S5_OP_WRITE) with true. cbn iota.
    destruct (dispatch_write_flight (set_stat (count_write (h_length (i_cmd b)) (d_stat d)) d) b vol s)
      as (d' & E & Hf); [done..|]. eauto.
  - assert ((h_opcode (i_cmd b) =? S5_OP_WRITE) = false
      /\ (h_opcode (i_cmd b) =? S5_OP_READ) || (h_opcode (i_cmd b) =? S5_OP_RECOVERY_READ) = true)
      as [-> ->] by (by destruct Ho as [-> | ->]).
    destruct (dispatch_read_flight (set_stat (count_read (h_length (i_cmd b)) (d_stat d)) d) b vol s r)
      as (d' & E & Hf); [done..|]. eauto.
  - assert ((h_opcode (i_cmd b) =? S5_OP_WRITE) = false
      /\ (h_opcode (i_cmd b) =? S5_OP_READ) || (h_opcode (i_cmd b) =? S5_OP_RECOVERY_READ) = false
      /\ (h_opcode (i_cmd b) =? S5_OP_REPLICATE_WRITE) = true) as (-> & -> & ->) by (by rewrite Ho).
    destruct (dispatch_rep_write_flight (set_stat (count_rep_write (h_length (i_cmd b)) (d_stat d)) d) b vol s r)
      as (d' & E & Hf); [done..|]. eauto.
Qed.

(** The request finds its volume, its version and its shard. *)
Record routed (d : PfDispatcher) (cmd : PfMessageHead) (vol : PfVolume) (s : PfShard) : Prop := mkRouted {
  ro_volume : d_opened d !! h_vol_id cmd = Some vol;
  ro_version : h_meta_ver cmd = v_meta_ver vol;
  ro_index : u32 (OFFSET_TO_SHARD_INDEX (h_offset cmd)) <= u32 (v_shard_count vol);
  ro_shard : arr_get (v_shards vol) (u32 (OFFSET_TO_SHARD_INDEX (h_offset cmd))) = Some (Some s)
}.

(** the command with the snapshot it is sent to the replicas with *)
Definition resolved (vol : PfVolume) (cmd : PfMessageHead) : PfMessageHead :=
  if h_snap_seq cmd =? SNAP_SEQ_HEAD then set_h_snap_seq (u32 (v_snap_seq vol)) cmd else cmd.

Lemma resolved_fields vol cmd :
  h_opcode (resolved vol cmd) = h_opcode cmd /\ h_offset (resolved vol cmd) = h_offset cmd
  /\ h_command_id (resolved vol cmd) = h_command_id cmd /\ h_command_seq (resolved vol cmd) = h_command_seq cmd.
Proof. unfold resolved. by destruct (_ =? _). Qed.

Lemma dispatch_io_routed d b vol s :
  d_iocbs d !! i = Some b -> routed d (i_cmd b) vol s ->
  dispatch_io env i d
  = route env i (resolved vol (i_cmd b)) vol s (set_iocb i (set_cmd (resolved vol (i_cmd b)) b) d).
Proof.
  intros Ei [Hv Hm Hx Hs]. unfold dispatch_io, get_iocb. rewrite Ei. cbn [of_option obind].
  rewrite Hv, Hm, Z.eqb_refl. cbn [negb]. fold (resolved vol (i_cmd b)).
  destruct (resolved_fields vol (i_cmd b)) as (_ & F2 & _ & _). rewrite F2.
  rewrite (proj2 (Z.ltb_ge _ _)) by done. unfold deref at 1. by rewrite Hs.
Qed.

Lemma dispatch_io_flight d b vol s :
  d_iocbs d !! i = Some b -> fresh b c r0 -> routed d (i_cmd b) vol s ->
  serves (h_opcode (i_cmd b)) vol s ->
  exists d' st, dispatch_io env i d = Done (0, d')
    /\ in_flight (resolved vol (i_cmd b)) (i_complete_meta_ver b) (subs_of (h_opcode (i_cmd b)) s)
         (set_stat st d) d'.
Proof.
  intros Ei Hb Hro Hserve. rewrite (dispatch_io_routed d b vol s Ei Hro).
  destruct (resolved_fields vol (i_cmd b)) as (F1 & _ & _ & _).
  set (b1 := set_cmd (resolved vol (i_cmd b)) b).
  destruct (route_flight (set_iocb i b1 d) b1 vol s) as (d' & st & E & b' & acts & -> & Hb' & Ha & Hk).
  - apply lookup_insert_eq.
  - by destruct Hb.
  - cbn. by rewrite F1.
  - change (i_cmd b1) with (resolved vol (i_cmd b)) in *. rewrite F1 in Hk, Hb'.
    eexists _, st. split; [exact E|]. exists b', acts. splits; [|done|done|done].
    unfold add_out, set_iocb, set_stat. cbn. by rewrite insert_insert_eq.
Qed.

Lemma in_flight_replies cmd mv0 subs d d' : in_flight cmd mv0 subs d d' -> replies i d' = replies i d.
Proof.
  intros (b' & acts & -> & _ & Ha & _). unfold replies. cbn [d_out add_out set_iocb].
  rewrite replies_in_app. replace (replies_in i acts) with (@nil PfMessageReply); [by rewrite app_nil_r|].
  symmetry. clear -Ha. induction Ha as [|a l Ha _ IH]; [done|]. by destruct a.
Qed.
End Dispatch.

Lemma subs_nonempty op vol s : serves op vol s -> subs_of op s <> [].
Proof.
  unfold subs_of. destruct (op =? S5_OP_WRITE) eqn:E; [|done]. apply Z.eqb_eq in E. subst op.
  intros [[_ [Hc _ _ Hd _ (r & Er & Hr)]]|[([?|?] & _)|[? _]]]; [|done..]. intros El.
  assert (s_duty_rep_index s ∈ live_list (Z.to_nat (s_rep_count s)) 0 s) as Hin
    by (eapply duty_live; [done|by apply live_ok|lia]).
  rewrite El in Hin. by apply not_elem_of_nil in Hin.
Qed.

