(* ===== verification/DispatcherLimits.v ===== *)
(** * Requests the dispatcher does not serve

    The immediate refusals, and the requests that are never answered: where
    the guards of [dispatch_io] and its callees leave a case out.  [DispDemo]
    is a dispatcher with one volume that the witnesses share. *)

From Stdlib Require Import ZArith Lia String.
From stdpp Require Import base tactics list numbers sets gmap strings relations.
From S2P Require Import Prelude FixedQueue MemPool Ids Volume Connection Dispatcher DispatcherProps.

(** ** Refusals *)

(** status and version of the immediate reply to a request, if it gets one *)
Definition refusal (d : PfDispatcher) (cmd : PfMessageHead) : option (Z * Z) :=
  match d_opened d !! h_vol_id cmd with
  | None => Some (Z.lor MSG_STATUS_REOPEN MSG_STATUS_INVALID_STATE, 65535)
  | Some vol =>
      if negb (h_meta_ver cmd =? v_meta_ver vol) then Some (MSG_STATUS_REOPEN, u16 (v_meta_ver vol))
      else if u32 (v_shard_count vol) <? u32 (OFFSET_TO_SHARD_INDEX (h_offset cmd))
      then Some (Z.lor MSG_STATUS_REOPEN MSG_STATUS_INVALID_FIELD, u16 (v_meta_ver vol))
      else None
  end.

Lemma early_reply_sent env i c sc mv b d :
  sends env c -> i_conn b = Some c -> (exists k, d_conns d !! c = Some k /\ c_state k = CONN_OK) ->
  sc <> MSG_STATUS_SUCCESS ->
  early_reply env i sc mv b d
  = Done (0, add_out [AReply c i (mkReply sc mv (h_command_id (i_cmd b)) (h_command_seq (i_cmd b)))]
               (set_iocb i (set_status sc mv b) d)).
Proof.
  intros [Hs _] Hc (k & Ek & Hk) Hsc. unfold early_reply, reply_io_to_client, get_iocb.
  cbn [d_iocbs set_iocb]. rewrite lookup_insert_eq. cbn [of_option obind i_conn set_status].
  rewrite Hc. cbn [d_conns set_iocb]. rewrite Ek. cbn [of_option obind].
  rewrite Hk, Z.eqb_refl. cbn [negb i_complete_status set_status].
  rewrite (proj2 (Z.eqb_neq _ _) Hsc), andb_false_r. unfold send_reply. rewrite Hs. done.
Qed.

(** Refusals: a request for a volume that is not open, with a version
    other than the volume's, or beyond its last shard, is answered at once
    with the status that makes the client reopen the volume, and nothing of
    the dispatcher changes but the block of the request. *)
Theorem refused_at_once (env : disp_env) (i c sc mv : Z) (d : PfDispatcher) (b : PfServerIocb) :
  sends env c -> d_iocbs d !! i = Some b -> i_conn b = Some c ->
  (exists k, d_conns d !! c = Some k /\ c_state k = CONN_OK) ->
  refusal d (i_cmd b) = Some (sc, mv) ->
  Z.testbit sc 14 = true
  /\ exists b', dispatch_io env i d
       = Done (0, add_out [AReply c i (mkReply sc mv (h_command_id (i_cmd b)) (h_command_seq (i_cmd b)))]
                    (set_iocb i b' d)).
Proof.
  intros Hs Ei Hc Hk Hr. unfold refusal in Hr. unfold dispatch_io, get_iocb.
  rewrite Ei. cbn [of_option obind].
  destruct (d_opened d !! h_vol_id (i_cmd b)) as [vol|].
  2: { injection Hr as <- <-. split; [done|]. eexists. by apply early_reply_sent. }
  destruct (negb (h_meta_ver (i_cmd b) =? v_meta_ver vol)).
  { injection Hr as <- <-. split; [done|]. eexists. by apply early_reply_sent. }
  fold (resolved vol (i_cmd b)). destruct (resolved_fields vol (i_cmd b)) as (_ & F2 & F3 & F4). rewrite F2.
  destruct (_ <? _); [|done]. injection Hr as <- <-. split; [done|].
  eexists. rewrite (early_reply_sent _ _ c) by done. cbn [i_cmd set_cmd]. rewrite F3, F4.
  unfold add_out, set_iocb. cbn. rewrite insert_insert_eq. reflexivity.
Qed.

(** Versions above 16 bits: the version in a request has 16 bits, that
    of a volume 64: once the version of a volume passes 65535 every request
    for it is refused, whatever the client sends. *)
Theorem wide_version_refused (d : PfDispatcher) (cmd : PfMessageHead) (vol : PfVolume) :
  d_opened d !! h_vol_id cmd = Some vol -> 0 <= h_meta_ver cmd < 2 ^ 16 -> 2 ^ 16 <= v_meta_ver vol ->
  refusal d cmd = Some (MSG_STATUS_REOPEN, u16 (v_meta_ver vol)).
Proof.
  intros Hv Hm Hw. unfold refusal. rewrite Hv, (proj2 (Z.eqb_neq _ _)) by lia. done.
Qed.

(** ** Requests that are never answered *)

(** every later turn of the thread, while nobody else completes a subtask *)
Fixpoint turns (env : disp_env) (n : nat) (d : PfDispatcher) : outcome PfDispatcher :=
  match n with
  | O => Done d
  | S n => let* d := turn env d in turns env n d
  end.

Lemma blocked_forever env n d : d_blocked d = true -> turns env n d = Done d.
Proof. intros Hb. induction n as [|n IH]; [done|]. cbn. unfold turn. rewrite Hb. cbn. exact IH. Qed.

(** A write on a node that is not primary: the dispatcher waits for the
    task that reports the error, and the task waits for the dispatcher: from
    then on the thread takes no event at all, and neither this request nor
    any other one is answered. *)
Theorem secondary_write_blocks (env : disp_env) (i : Z) (d : PfDispatcher) (b : PfServerIocb)
    (vol : PfVolume) (s : PfShard) :
  d_iocbs d !! i = Some b -> routed d (i_cmd b) vol s -> h_opcode (i_cmd b) = S5_OP_WRITE ->
  s_is_primary_node s = false -> e_launch env = LaunchAsync ->
  exists d', dispatch_io env i d = Done (1, d') /\ d_out d' = d_out d
    /\ forall n, turns env n d' = Done d'.
Proof.
  intros Ei Hro Ho Hp Hl. rewrite (dispatch_io_routed env i d b vol s Ei Hro).
  destruct (resolved_fields vol (i_cmd b)) as (F1 & _ & _ & _).
  unfold route. rewrite F1, Ho. change (S5_OP_WRITE =? S5_OP_WRITE) with true. cbn iota.
  unfold dispatch_write, get_iocb. cbn [d_iocbs set_stat set_iocb]. rewrite lookup_insert_eq.
  cbn [of_option obind]. rewrite Hp. cbn [obind negb]. rewrite Hl.
  eexists. split; [reflexivity|]. split; [done|]. intros n. by apply blocked_forever.
Qed.

(** A read of a replica that is not healthy: the read is dropped: no
    subtask, no reply, and no completion that could send one later. *)
Theorem unhealthy_read_dropped (env : disp_env) (i : Z) (d : PfDispatcher) (b : PfServerIocb)
    (vol : PfVolume) (s : PfShard) (r : PfReplica) :
  d_iocbs d !! i = Some b -> routed d (i_cmd b) vol s -> h_opcode (i_cmd b) = S5_OP_READ ->
  arr_get (s_replicas s) (s_duty_rep_index s) = Some (Some r) -> r_status r <> HS_OK ->
  exists d' b', dispatch_io env i d = Done (0, d') /\ d_out d' = d_out d /\ d_events d' = d_events d
    /\ d_iocbs d' = <[i := b']> (d_iocbs d) /\ i_task_mask b' = 0 /\ i_conn b' = i_conn b
    /\ i_ref_count b' = i_ref_count b.
Proof.
  intros Ei Hro Ho Hr Hst. rewrite (dispatch_io_routed env i d b vol s Ei Hro).
  destruct (resolved_fields vol (i_cmd b)) as (F1 & _ & _ & _).
  unfold route. rewrite F1, Ho. change (S5_OP_READ =? S5_OP_WRITE) with false.
  change (S5_OP_READ =? S5_OP_READ) with true. cbn iota. cbn [orb].
  unfold dispatch_read, get_iocb. cbn [d_iocbs set_stat set_iocb]. rewrite lookup_insert_eq.
  cbn [of_option obind]. unfold deref at 1. rewrite Hr. cbn [mjoin option_join of_option obind].
  rewrite (proj2 (Z.eqb_neq _ _) Hst).
  eexists _, (set_mask 0 (set_cmd (resolved vol (i_cmd b)) b)). split; [reflexivity|]. cbn. splits; try done.
  by rewrite insert_insert_eq.
Qed.

(** The shard after the last one: the guard compares with [>]: an offset
    in the first shard beyond the end of the volume passes it and indexes the
    vector of shards out of range. *)
Theorem shard_after_last_undefined (env : disp_env) (i : Z) (d : PfDispatcher) (b : PfServerIocb)
    (vol : PfVolume) :
  d_iocbs d !! i = Some b -> d_opened d !! h_vol_id (i_cmd b) = Some vol ->
  h_meta_ver (i_cmd b) = v_meta_ver vol -> 0 <= v_shard_count vol < 2 ^ 28 ->
  Z.of_nat (length (v_shards vol)) = v_shard_count vol ->
  h_offset (i_cmd b) = v_shard_count vol * SHARD_SIZE ->
  dispatch_io env i d = Undef.
Proof.
  intros Ei Hv Hm Hc Hl Hof. unfold dispatch_io, get_iocb. rewrite Ei. cbn [of_option obind].
  rewrite Hv, Hm, Z.eqb_refl. cbn [negb]. fold (resolved vol (i_cmd b)).
  destruct (resolved_fields vol (i_cmd b)) as (_ & F2 & _ & _). rewrite F2, Hof.
  assert (OFFSET_TO_SHARD_INDEX (v_shard_count vol * SHARD_SIZE) = v_shard_count vol) as ->.
  { unfold OFFSET_TO_SHARD_INDEX. rewrite Z.shiftr_div_pow2 by (unfold LBA_LENGTH_ORDER, SHARD_LBA_CNT_ORDER; lia).
    change SHARD_SIZE with (2 ^ (LBA_LENGTH_ORDER + SHARD_LBA_CNT_ORDER)). apply Z.div_mul. done. }
  rewrite Z.ltb_irrefl. unfold deref, u32. rewrite Z.mod_small by lia.
  unfold arr_get. rewrite decide_True by lia. rewrite lookup_ge_None_2 by lia. done.
Qed.

(** ** A concrete dispatcher *)
Module DispDemo.
Definition replica (k st : Z) : option PfReplica :=
  Some (mkReplica st (256 + k) (10 + k) (k =? 0) (k =? 0) k (if k =? 0 then 0 else -1) 0).

(** shard 0 with a healthy, a recovering and a healthy replica; this node
    holds replica 0 *)
Definition shard (primary : bool) (st : Z) : PfShard :=
  mkShard 256 0 [replica 0 st; replica 1 HS_RECOVERYING; replica 2 HS_OK; None; None] 0 0 primary 3 4 HS_OK.

Definition volume (primary : bool) (st ver : Z) : PfVolume :=
  mkVolume "vol" (2 ^ 24) SHARD_SIZE 3 1 [Some (shard primary st)] 4 HS_OK ver.

Definition cmd (op off : Z) : PfMessageHead := mkHead op 33 SNAP_SEQ_HEAD (2 ^ 24) 0 0 7 off 4096 99.

Definition block (op off : Z) : PfServerIocb := set_ref 1 (set_iconn (Some 9) (init_iocb 0 (cmd op off))).

Definition conn : PfConnection := mkConn CONN_OK TCP_TYPE 3 64 0 0 false [].

Definition disp (primary : bool) (st ver op off : Z) : PfDispatcher :=
  mkDisp {[2 ^ 24 := volume primary st ver]} 0 (mkStat 0 0 0 0 0 0) {[5 := block op off]}
    (mkPool empty_queue true 0) {[9 := conn]} [] false [].

Definition env : disp_env :=
  mkEnv (fun _ _ => 0) (fun _ _ => 0) (fun _ _ => 0) "10.0.0.1" (fun _ => "10.0.0.1"%string)
    (fun _ _ => NoAnswer) LaunchAsync 1.

Definition run {A} (m : outcome (A * PfDispatcher)) (d : PfDispatcher) : PfDispatcher :=
  match m with Done (_, d) => d | _ => d end.

Lemma env_sends : sends env 9.
Proof. by split. Qed.

Lemma block_fresh op off : fresh (block op off) 9 1.
Proof.
  split; [|done..]. split; [done|]. intros k Hk.
  assert (k = 0 \/ k = 1 \/ k = 2) as [->|[->| ->]] by lia; eexists; split; reflexivity.
Qed.

Lemma disp_routed primary st op :
  routed (disp primary st 7 op 4096) (cmd op 4096) (volume primary st 7) (shard primary st).
Proof. split; vm_compute; congruence. Qed.

Lemma shard_writable : writable (volume true HS_OK 7) (shard true HS_OK).
Proof.
  split; try done.
  - intros j Hj. cbn in Hj. assert (j = 0 \/ j = 1 \/ j = 2) as [->|[->| ->]] by lia; eexists; reflexivity.
  - eexists. split; reflexivity.
Qed.

Definition d0 : PfDispatcher := disp true HS_OK 7 S5_OP_WRITE 4096.
Definition d1 : PfDispatcher := run (dispatch_io env 5 d0) d0.

Definition step_answer (k sc mv : Z) (d : PfDispatcher) : PfDispatcher :=
  match server_complete_with_metaver 5 k sc mv d with Done d => d | _ => d end.
Definition step_turn (d : PfDispatcher) : PfDispatcher :=
  match turn env d with Done d => d | _ => d end.

(** replica 2 fails, then the others answer; the completions are taken in
    between *)
Definition d2 : PfDispatcher := step_answer 2 MSG_STATUS_CONN_LOST 8 d1.
Definition d3 : PfDispatcher := step_turn (step_answer 0 0 0 d2).
Definition d4 : PfDispatcher := step_turn (step_turn (step_answer 1 0 0 d3)).

Lemma demo_steps :
  rtc (flight_step env 5 9) (d1, [0; 1; 2], [])
      (d4, [], [mkAnswer 2 MSG_STATUS_CONN_LOST 8; mkAnswer 0 0 0; mkAnswer 1 0 0]).
Proof.
  eapply rtc_l; [apply (fs_answer env 5 9 d1 d2 [0; 1] [] 2 MSG_STATUS_CONN_LOST 8); vm_compute; reflexivity|].
  eapply rtc_l; [apply (fs_answer env 5 9 d2 (step_answer 0 0 0 d2) [] [1] 0 0 0); vm_compute; reflexivity|].
  eapply rtc_l; [apply (fs_turn env 5 9 (step_answer 0 0 0 d2) d3 _ _ 2 [EvIoComplete 5 0]); vm_compute; reflexivity|].
  eapply rtc_l; [apply (fs_answer env 5 9 d3 (step_answer 1 0 0 d3) [] [] 1 0 0); vm_compute; reflexivity|].
  eapply rtc_l; [apply (fs_turn env 5 9 (step_answer 1 0 0 d3) (step_turn (step_answer 1 0 0 d3)) _ _ 0
                          [EvIoComplete 5 1]); vm_compute; reflexivity|].
  eapply rtc_l; [apply (fs_turn env 5 9 (step_turn (step_answer 1 0 0 d3)) d4 _ _ 1 []); vm_compute; reflexivity|].
  apply rtc_refl.
Qed.
End DispDemo.


Lemma refused_at_once_witness :
  exists b', dispatch_io DispDemo.env 5 (DispDemo.disp true HS_OK 8 S5_OP_READ 0)
    = Done (0, add_out [AReply 9 5 (mkReply MSG_STATUS_REOPEN 8 33 99)]
                 (set_iocb 5 b' (DispDemo.disp true HS_OK 8 S5_OP_READ 0))).
Proof.
  apply (refused_at_once DispDemo.env 5 9 MSG_STATUS_REOPEN 8 (DispDemo.disp true HS_OK 8 S5_OP_READ 0)
           (DispDemo.block S5_OP_READ 0) DispDemo.env_sends).
  - reflexivity.
  - reflexivity.
  - eexists. split; reflexivity.
  - vm_compute. reflexivity.
Defined.

Lemma wide_version_refused_witness :
  refusal (DispDemo.disp true HS_OK 65543 S5_OP_READ 0) (DispDemo.cmd S5_OP_READ 0) = Some (MSG_STATUS_REOPEN, 7).
Proof.
  apply (wide_version_refused (DispDemo.disp true HS_OK 65543 S5_OP_READ 0) (DispDemo.cmd S5_OP_READ 0)
           (DispDemo.volume true HS_OK 65543)); [vm_compute; reflexivity|cbn; lia|vm_compute; congruence].
Defined.

Lemma secondary_write_blocks_witness :
  exists d', dispatch_io DispDemo.env 5 (DispDemo.disp false HS_OK 7 S5_OP_WRITE 4096) = Done (1, d')
    /\ forall n, turns DispDemo.env n d' = Done d'.
Proof.
  destruct (secondary_write_blocks DispDemo.env 5 (DispDemo.disp false HS_OK 7 S5_OP_WRITE 4096)
    (DispDemo.block S5_OP_WRITE 4096) (DispDemo.volume false HS_OK 7) (DispDemo.shard false HS_OK)
    ltac:(vm_compute; reflexivity) (DispDemo.disp_routed _ _ _) eq_refl eq_refl eq_refl) as (d' & E & _ & H).
  exists d'. split; [exact E|exact H].
Defined.

Lemma unhealthy_read_dropped_witness :
  exists d', dispatch_io DispDemo.env 5 (DispDemo.disp true HS_ERROR 7 S5_OP_READ 4096) = Done (0, d')
    /\ d_out d' = [] /\ d_events d' = [].
Proof.
  destruct (unhealthy_read_dropped DispDemo.env 5 (DispDemo.disp true HS_ERROR 7 S5_OP_READ 4096)
    (DispDemo.block S5_OP_READ 4096) (DispDemo.volume true HS_ERROR 7) (DispDemo.shard true HS_ERROR)
    (mkReplica HS_ERROR 256 10 true true 0 0 0)
    ltac:(vm_compute; reflexivity) (DispDemo.disp_routed _ _ _) eq_refl eq_refl ltac:(done))
    as (d' & b' & E & H1 & H2 & _).
  exists d'. splits; [exact E|exact H1|exact H2].
Defined.

Lemma shard_after_last_undefined_witness :
  dispatch_io DispDemo.env 5 (DispDemo.disp true HS_OK 7 S5_OP_READ SHARD_SIZE) = Undef.
Proof.
  apply (shard_after_last_undefined DispDemo.env 5 (DispDemo.disp true HS_OK 7 S5_OP_READ SHARD_SIZE)
    (DispDemo.block S5_OP_READ SHARD_SIZE) (DispDemo.volume true HS_OK 7));
    [reflexivity|vm_compute; reflexivity|reflexivity|cbn; lia|reflexivity|reflexivity].
Defined.
