(* ===== verification/Replicator.v ===== *)
(** * The replicator

    Model of src/pfs/src/pf_replicator.cpp and pf_replicator.h, with the pool
    of connections of src/common/src/pf_connection_pool.cpp: the event thread
    that sends writes to the other replicas of a shard and reads for a
    recovery, and the callbacks its connections make.

    A subtask is a cell of [rp_tasks]; what the replicator does with it is
    recorded in [rp_out].  Reply buffers are cells of [rp_replies].  Connecting,
    posting to a connection, the clock and the memory key of a buffer are
    arguments ([rep_env]).  The [cbk_data] of a buffer, which only log messages
    use, is left out. *)

From Stdlib Require Import ZArith Lia String.
From stdpp Require Import base tactics list numbers sets gmap strings.
From S2P Require Import Prelude FixedQueue MemPool Ids Volume Connection.

(** ** Data *)
Record PeerAddr : Type := mkPeer {
  p_store_id : Z;
  p_conn : option Z;
  p_curr_ip_idx : Z;
  p_ip : list string
}.

(** [IoSubTask] (a write; the parent's command and data) or
    [RecoverySubTask] (a read; its own fields) *)
Record rep_task : Type := mkRepTask {
  rt_store_id : Z;
  rt_opcode : Z;
  rt_data_bd : Z;
  rt_parent_cmd : PfMessageHead;
  rt_volume_id : Z;
  rt_offset : Z;
  rt_length : Z;
  rt_snap_seq : Z;
  rt_meta_ver : Z
}.

Record PfClientIocb : Type := mkClientIocb {
  ci_cmd : PfMessageHead;
  ci_data_bd : option Z;
  ci_reply_bd : option Z;
  ci_ulp_arg : Z;
  ci_conn : option Z
}.

Inductive rep_event : Type :=
| RvIoReq (t : Z)
| RvIoComplete (cid : Z)
| RvRecoveryReadIo (t : Z)
| RvConnClosed (c : Z).

Inductive rep_action : Type :=
| RSubmitError (t sc : Z)              (* error_handler->submit_error *)
| RComplete (t sc : Z)                 (* ops->complete *)
| RCompleteMetaVer (t sc mv : Z)       (* ops->complete_meta_ver *)
| RPostSend (c cid : Z) (h : PfMessageHead)
| RStartSend (c bd : Z)
| RStartRecv (c bd : Z).

Record PfReplicator : Type := mkRep {
  rp_peers : gmap Z PeerAddr;
  rp_ip_id_map : gmap string Z;
  rp_conns : conn_heap;
  rp_next_conn : Z;
  rp_conn_type : Z;
  rp_io_depth : Z;
  rp_iocb_pool : ObjectMemoryPool PfFixedSizeQueue;
  rp_iocbs : list PfClientIocb;
  rp_reply_pool : PfFixedSizeQueue Z;
  rp_replies : gmap Z PfMessageReply;
  rp_tasks : gmap Z rep_task;
  rp_events : list rep_event;
  (** the queue of the delay thread: subtask and deadline *)
  rp_delay : list (Z * Z);
  rp_out : list rep_action
}.

(** [re_connect] is the connection [connect_to_server] returns, or None when
    it throws. *)
Record rep_env : Type := mkRepEnv {
  re_connect : string -> option PfConnection;
  re_post_recv : Z -> Z -> Z;
  re_post_send : Z -> Z -> Z;
  re_rkey : Z -> Z -> Z;
  re_buf_addr : Z -> Z;
  re_now : Z
}.

(** ** Updates *)
Definition set_pool_conns (m : gmap string Z) (h : conn_heap) (n : Z) (rp : PfReplicator) : PfReplicator :=
  mkRep (rp_peers rp) m h n (rp_conn_type rp) (rp_io_depth rp) (rp_iocb_pool rp) (rp_iocbs rp)
    (rp_reply_pool rp) (rp_replies rp) (rp_tasks rp) (rp_events rp) (rp_delay rp) (rp_out rp).
Definition set_rconns (h : conn_heap) (rp : PfReplicator) : PfReplicator :=
  set_pool_conns (rp_ip_id_map rp) h (rp_next_conn rp) rp.
Definition set_peers (m : gmap Z PeerAddr) (rp : PfReplicator) : PfReplicator :=
  mkRep m (rp_ip_id_map rp) (rp_conns rp) (rp_next_conn rp) (rp_conn_type rp) (rp_io_depth rp) (rp_iocb_pool rp)
    (rp_iocbs rp) (rp_reply_pool rp) (rp_replies rp) (rp_tasks rp) (rp_events rp) (rp_delay rp) (rp_out rp).
Definition set_rpool (p : ObjectMemoryPool PfFixedSizeQueue) (rp : PfReplicator) : PfReplicator :=
  mkRep (rp_peers rp) (rp_ip_id_map rp) (rp_conns rp) (rp_next_conn rp) (rp_conn_type rp) (rp_io_depth rp) p
    (rp_iocbs rp) (rp_reply_pool rp) (rp_replies rp) (rp_tasks rp) (rp_events rp) (rp_delay rp) (rp_out rp).
Definition set_iocbs (l : list PfClientIocb) (rp : PfReplicator) : PfReplicator :=
  mkRep (rp_peers rp) (rp_ip_id_map rp) (rp_conns rp) (rp_next_conn rp) (rp_conn_type rp) (rp_io_depth rp)
    (rp_iocb_pool rp) l (rp_reply_pool rp) (rp_replies rp) (rp_tasks rp) (rp_events rp) (rp_delay rp) (rp_out rp).
Definition set_reply_pool (q : PfFixedSizeQueue Z) (rp : PfReplicator) : PfReplicator :=
  mkRep (rp_peers rp) (rp_ip_id_map rp) (rp_conns rp) (rp_next_conn rp) (rp_conn_type rp) (rp_io_depth rp)
    (rp_iocb_pool rp) (rp_iocbs rp) q (rp_replies rp) (rp_tasks rp) (rp_events rp) (rp_delay rp) (rp_out rp).
Definition set_replies (m : gmap Z PfMessageReply) (rp : PfReplicator) : PfReplicator :=
  mkRep (rp_peers rp) (rp_ip_id_map rp) (rp_conns rp) (rp_next_conn rp) (rp_conn_type rp) (rp_io_depth rp)
    (rp_iocb_pool rp) (rp_iocbs rp) (rp_reply_pool rp) m (rp_tasks rp) (rp_events rp) (rp_delay rp) (rp_out rp).
Definition set_tasks (m : gmap Z rep_task) (rp : PfReplicator) : PfReplicator :=
  mkRep (rp_peers rp) (rp_ip_id_map rp) (rp_conns rp) (rp_next_conn rp) (rp_conn_type rp) (rp_io_depth rp)
    (rp_iocb_pool rp) (rp_iocbs rp) (rp_reply_pool rp) (rp_replies rp) m (rp_events rp) (rp_delay rp) (rp_out rp).
Definition set_revents (l : list rep_event) (rp : PfReplicator) : PfReplicator :=
  mkRep (rp_peers rp) (rp_ip_id_map rp) (rp_conns rp) (rp_next_conn rp) (rp_conn_type rp) (rp_io_depth rp)
    (rp_iocb_pool rp) (rp_iocbs rp) (rp_reply_pool rp) (rp_replies rp) (rp_tasks rp) l (rp_delay rp) (rp_out rp).
Definition set_delay (l : list (Z * Z)) (rp : PfReplicator) : PfReplicator :=
  mkRep (rp_peers rp) (rp_ip_id_map rp) (rp_conns rp) (rp_next_conn rp) (rp_conn_type rp) (rp_io_depth rp)
    (rp_iocb_pool rp) (rp_iocbs rp) (rp_reply_pool rp) (rp_replies rp) (rp_tasks rp) (rp_events rp) l (rp_out rp).
Definition rout (a : rep_action) (rp : PfReplicator) : PfReplicator :=
  mkRep (rp_peers rp) (rp_ip_id_map rp) (rp_conns rp) (rp_next_conn rp) (rp_conn_type rp) (rp_io_depth rp)
    (rp_iocb_pool rp) (rp_iocbs rp) (rp_reply_pool rp) (rp_replies rp) (rp_tasks rp) (rp_events rp) (rp_delay rp)
    (rp_out rp ++ [a]).

Definition rpost (e : rep_event) (rp : PfReplicator) : PfReplicator := set_revents (rp_events rp ++ [e]) rp.

Definition ci_set_conn (c : option Z) (io : PfClientIocb) : PfClientIocb :=
  mkClientIocb (ci_cmd io) (ci_data_bd io) (ci_reply_bd io) (ci_ulp_arg io) c.
Definition ci_set_reply (r : option Z) (io : PfClientIocb) : PfClientIocb :=
  mkClientIocb (ci_cmd io) (ci_data_bd io) r (ci_ulp_arg io) (ci_conn io).
(** [reply_bd = data_bd = NULL; conn = NULL] *)
Definition ci_clear (io : PfClientIocb) : PfClientIocb :=
  mkClientIocb (ci_cmd io) None None (ci_ulp_arg io) None.

Definition get_io (cid : Z) (rp : PfReplicator) : outcome PfClientIocb := of_option (arr_get (rp_iocbs rp) cid).
Definition put_io (cid : Z) (io : PfClientIocb) (rp : PfReplicator) : outcome PfReplicator :=
  let* l := store_at (rp_iocbs rp) cid io in Done (set_iocbs l rp).
Definition get_task (t : Z) (rp : PfReplicator) : outcome rep_task := of_option (rp_tasks rp !! t).

(** ** Connections *)

(** [replicator_on_conn_close] *)
Definition on_conn_close (c : Z) (rp : PfReplicator) : outcome PfReplicator :=
  let* k := of_option (rp_conns rp !! c) in
  if c_unclean_closed k then
    let* h := conn_add_ref c (rp_conns rp) in
    Done (rpost (RvConnClosed c) (set_rconns h rp))
  else Done rp.

(** [close] of a connection *)
Definition rep_close (c : Z) (rp : PfReplicator) : outcome PfReplicator :=
  let* (closed, h) := conn_close c (rp_conns rp) in
  let rp := set_rconns h rp in
  if closed : bool then on_conn_close c rp else Done rp.

(** [dec_ref]: the last reference closes an open connection first *)
Definition rep_drop_conn (c : Z) (rp : PfReplicator) : outcome PfReplicator :=
  let* k := of_option (rp_conns rp !! c) in
  let k := set_c_ref (c_ref_count k - 1) k in
  let rp := set_rconns (<[c := k]> (rp_conns rp)) rp in
  if c_ref_count k =? 0 then
    let* rp := rep_close c rp in
    Done (set_rconns (delete c (rp_conns rp)) rp)
  else Done rp.

(** [PfConnectionPool::get_conn] *)
Definition pool_get_conn (env : rep_env) (ip : string) (rp : PfReplicator) : outcome (option Z * PfReplicator) :=
  let connect rp :=
    match re_connect env ip with
    | None => (None, rp)
    | Some k =>
        let c := rp_next_conn rp in
        let k := mkConn (c_state k) (rp_conn_type rp) (c_ref_count k + 1) (rp_io_depth rp) (c_inflying_io k)
                   (c_inflying_heartbeat k) (c_unclean_closed k) (c_used_iocb k) in
        (Some c, set_pool_conns (<[ip := c]> (rp_ip_id_map rp)) (<[c := k]> (rp_conns rp)) (c + 1) rp)
    end in
  match rp_ip_id_map rp !! ip with
  | Some c =>
      let* k := of_option (rp_conns rp !! c) in
      if c_state k =? CONN_OK then Done (Some c, rp)
      else
        let rp := set_pool_conns (delete ip (rp_ip_id_map rp)) (rp_conns rp) (rp_next_conn rp) rp in
        let* rp := rep_drop_conn c rp in
        Done (connect rp)
  | None => Done (connect rp)
  end.

Definition add_peer (store_id : Z) (ip1 ip2 : string) (rp : PfReplicator) : PfReplicator :=
  set_peers (<[store_id := mkPeer store_id None 0 [ip1; ip2]]> (rp_peers rp)) rp.

(** the loop of [PfRepConnectionPool::get_conn] over the addresses *)
Fixpoint try_peer (env : rep_env) (n : nat) (store_id : Z) (a : PeerAddr) (rp : PfReplicator)
    : outcome (option Z * PfReplicator) :=
  match n with
  | O => Done (None, rp)
  | S n =>
      let* ip := of_option (arr_get (p_ip a) (p_curr_ip_idx a)) in
      let* (c, rp) := (if String.eqb ip EmptyString then Done (None, rp)
                       else
                         let* (c, rp) := pool_get_conn env ip rp in
                         let a := mkPeer (p_store_id a) c (p_curr_ip_idx a) (p_ip a) in
                         Done (c, set_peers (<[store_id := a]> (rp_peers rp)) rp)) in
      match c with
      | Some c => Done (Some c, rp)
      | None =>
          let* a := of_option (rp_peers rp !! store_id) in
          let a := mkPeer (p_store_id a) (p_conn a)
                     (Z.rem (p_curr_ip_idx a + 1) (Z.of_nat (length (p_ip a)))) (p_ip a) in
          try_peer env n store_id a (set_peers (<[store_id := a]> (rp_peers rp)) rp)
      end
  end.

Definition get_conn (env : rep_env) (store_id : Z) (rp : PfReplicator) : outcome (option Z * PfReplicator) :=
  match rp_peers rp !! store_id with
  | None => Done (None, rp)
  | Some a =>
      let* ok := (match p_conn a with
                  | None => Done None
                  | Some c => let* k := of_option (rp_conns rp !! c) in
                              Done (if c_state k =? CONN_OK then Some c else None)
                  end) in
      match ok with
      | Some c => Done (Some c, rp)
      | None => try_peer env (length (p_ip a)) store_id a rp
      end
  end.

Definition connect_peer (env : rep_env) (store_id : Z) (rp : PfReplicator) : outcome PfReplicator :=
  let* (_, rp) := get_conn env store_id rp in Done rp.

(** ** Sending *)
Definition free_iocb (cid : Z) (rp : PfReplicator) : outcome PfReplicator :=
  let* p := pool_free cid (rp_iocb_pool rp) in Done (set_rpool p rp).

(** [BufferPool::alloc] throws when the pool is empty: the tests of the
    callers for NULL are never true, and nobody catches the exception *)
Definition alloc_reply (rp : PfReplicator) : outcome (Z * PfReplicator) :=
  let* (r, q) := dequeue (rp_reply_pool rp) in
  match r with
  | None => Fatal
  | Some r => Done (r, set_reply_pool q rp)
  end.

Definition free_reply (r : Z) (rp : PfReplicator) : outcome PfReplicator :=
  let* (_, q) := enqueue r (rp_reply_pool rp) in Done (set_reply_pool q rp).

(** the command of a replicated write *)
Definition replicate_cmd (env : rep_env) (c cid ty : Z) (t : rep_task) (old : PfMessageHead) : PfMessageHead :=
  let p := rt_parent_cmd t in
  mkHead S5_OP_REPLICATE_WRITE (h_command_id old) (h_snap_seq p) (h_vol_id p) (re_buf_addr env (rt_data_bd t))
    (if ty =? RDMA_TYPE then re_rkey env c (rt_data_bd t) else h_rkey p) (h_meta_ver p) (h_offset p)
    (h_length p) (h_command_seq p).

Definition set_rt_opcode (op : Z) (t : rep_task) : rep_task :=
  mkRepTask (rt_store_id t) op (rt_data_bd t) (rt_parent_cmd t) (rt_volume_id t) (rt_offset t) (rt_length t)
    (rt_snap_seq t) (rt_meta_ver t).

(** the posts at the end of both senders: a receive for the reply and the
    command; [retry] is what happens to the subtask when one of them fails *)
Definition post_both (env : rep_env) (c cid : Z) (io : PfClientIocb) (retry : PfReplicator -> PfReplicator)
    (rp : PfReplicator) : outcome (Z * PfReplicator) :=
  let* (rbd, rp) := alloc_reply rp in
  if negb (re_post_recv env c rbd =? 0) then
    let* rp := free_reply rbd (retry rp) in
    let* rp := put_io cid (ci_set_conn None io) rp in
    let* rp := free_iocb cid rp in
    Done (- EAGAIN, rp)
  else
    let io := ci_set_reply (Some rbd) io in
    if negb (re_post_send env c cid =? 0) then
      let* rp := put_io cid (ci_set_conn None io) (retry rp) in
      let* rp := free_iocb cid rp in
      Done (- EAGAIN, rp)
    else
      let* rp := put_io cid io rp in
      Done (0, rout (RPostSend c cid (ci_cmd io)) rp).

Definition begin_replicate_io (env : rep_env) (t : Z) (rp : PfReplicator) : outcome (Z * PfReplicator) :=
  let* tk := get_task t rp in
  let* (oc, rp) := get_conn env (rt_store_id tk) rp in
  match oc with
  | None => Done (MSG_STATUS_CONN_LOST, rout (RSubmitError t MSG_STATUS_CONN_LOST) rp)
  | Some c =>
      let* k := of_option (rp_conns rp !! c) in
      let (granted, k) := get_throttle k in
      let rp := set_rconns (<[c := k]> (rp_conns rp)) rp in
      if negb granted then Done (- EAGAIN, set_delay (rp_delay rp ++ [(t, re_now env + 100)]) rp)
      else
        let* (oid, p) := pool_alloc (rp_iocb_pool rp) in
        let rp := set_rpool p rp in
        match oid with
        | None => Done (- EAGAIN, set_delay (rp_delay rp ++ [(t, re_now env + 100)]) rp)
        | Some cid =>
            let* io := get_io cid rp in
            if negb (h_opcode (rt_parent_cmd tk) =? S5_OP_WRITE) then Fatal
            else if negb ((rt_opcode tk =? S5_OP_WRITE) || (rt_opcode tk =? S5_OP_REPLICATE_WRITE)) then Fatal
            else
              let rp := set_tasks (<[t := set_rt_opcode S5_OP_REPLICATE_WRITE tk]> (rp_tasks rp)) rp in
              let io := mkClientIocb (replicate_cmd env c cid (rp_conn_type rp) tk (ci_cmd io))
                          (Some (rt_data_bd tk)) (ci_reply_bd io) t (Some c) in
              post_both env c cid io (rpost (RvIoReq t)) rp
        end
  end.

Definition begin_recovery_read_io (env : rep_env) (t : Z) (rp : PfReplicator) : outcome (Z * PfReplicator) :=
  let* tk := get_task t rp in
  let* (oid, p) := pool_alloc (rp_iocb_pool rp) in
  let rp := set_rpool p rp in
  match oid with
  | None => Done (- EAGAIN, rout (RComplete t MSG_STATUS_NO_RESOURCE) rp)
  | Some cid =>
      let* io := get_io cid rp in
      let cmd key := mkHead (rt_opcode tk) (h_command_id (ci_cmd io)) (rt_snap_seq tk) (rt_volume_id tk)
                   (re_buf_addr env (rt_data_bd tk)) key (rt_meta_ver tk) (rt_offset tk) (u32 (rt_length tk))
                   (h_command_seq (ci_cmd io)) in
      let io1 := mkClientIocb (cmd 0) (Some (rt_data_bd tk)) (ci_reply_bd io) t (ci_conn io) in
      let* (oc, rp) := get_conn env (rt_store_id tk) rp in
      match oc with
      | None =>
          let* rp := put_io cid io1 (rout (RComplete t MSG_STATUS_CONN_LOST) rp) in
          let* rp := free_iocb cid rp in
          Done (- EINVAL, rp)
      | Some c =>
          let key := if rp_conn_type rp =? RDMA_TYPE then re_rkey env c (rt_data_bd tk) else 0 in
          let io2 := mkClientIocb (cmd key) (Some (rt_data_bd tk)) (ci_reply_bd io) t (Some c) in
          post_both env c cid io2 (rout (RComplete t MSG_STATUS_NO_RESOURCE)) rp
      end
  end.

(** ** Completion *)
Definition process_io_complete (cid : Z) (rp : PfReplicator) : outcome (Z * PfReplicator) :=
  let* io := get_io cid rp in
  let* rbd := of_option (ci_reply_bd io) in
  let* m := of_option (rp_replies rp !! rbd) in
  let* rp := (if h_opcode (ci_cmd io) =? S5_OP_HEARTBEAT then
                let* c := of_option (ci_conn io) in
                let* k := of_option (rp_conns rp !! c) in
                Done (set_rconns (<[c := set_c_heartbeat (c_inflying_heartbeat k - 1) k]> (rp_conns rp)) rp)
              else Done (rout (RCompleteMetaVer (ci_ulp_arg io) (rep_status m) (rep_meta_ver m)) rp)) in
  let* rp := free_reply rbd rp in
  let* rp := put_io cid (ci_clear io) rp in
  let* rp := free_iocb cid rp in
  Done (0, rp).

(** ** A closed connection *)

(** the body of the loop of [handle_conn_close] for one iocb *)
Definition resend (c cid : Z) (rp : PfReplicator) : outcome PfReplicator :=
  let* io := get_io cid rp in
  if decide (ci_conn io = Some c) then
    let op := h_opcode (ci_cmd io) in
    if negb ((op =? S5_OP_REPLICATE_WRITE) || (op =? S5_OP_RECOVERY_READ) || (op =? S5_OP_HEARTBEAT)) then Fatal
    else
      let* rp := put_io cid (ci_clear io) rp in
      let* rp := free_iocb cid rp in
      Done (if op =? S5_OP_REPLICATE_WRITE then rpost (RvIoReq (ci_ulp_arg io)) rp
            else if op =? S5_OP_RECOVERY_READ then rpost (RvRecoveryReadIo (ci_ulp_arg io)) rp
            else rp)
  else Done rp.

Fixpoint resend_loop (c : Z) (n : nat) (cid : Z) (rp : PfReplicator) : outcome PfReplicator :=
  match n with
  | O => Done rp
  | S n => let* rp := resend c cid rp in resend_loop c n (cid + 1) rp
  end.

Definition handle_conn_close (c : Z) (rp : PfReplicator) : outcome (Z * PfReplicator) :=
  let* k := of_option (rp_conns rp !! c) in
  if negb (c_unclean_closed k) then Fatal
  else
    let* rp := resend_loop c (Z.to_nat (obj_count (rp_iocb_pool rp))) 0 rp in
    let* rp := rep_drop_conn c rp in
    Done (0, rp).

Definition rep_process_event (env : rep_env) (e : rep_event) (rp : PfReplicator) : outcome (Z * PfReplicator) :=
  match e with
  | RvIoReq t => begin_replicate_io env t rp
  | RvIoComplete cid => process_io_complete cid rp
  | RvRecoveryReadIo t => begin_recovery_read_io env t rp
  | RvConnClosed c => handle_conn_close c rp
  end.

(** [PfDelayThread::process_event]: how long the thread sleeps before it
    posts the subtask back *)
Definition delay_sleep (now deadline : Z) : Z := if 0 <? now - deadline then now - deadline else 0.

Definition delay_process_event (rp : PfReplicator) : PfReplicator :=
  match rp_delay rp with
  | [] => rp
  | (t, _) :: l => rpost (RvIoReq t) (set_delay l rp)
  end.

(** ** Callbacks of the connections

    What completed, told apart by the length of the buffer: the command of
    iocb [cid], a reply in buffer [rbd], or data ([cid] is the iocb the
    data buffer belongs to). *)
Inductive net_done : Type :=
| NetHead (cid : Z)
| NetReply (rbd : Z) (m : PfMessageReply)
| NetData (cid : Z).

Definition with_conn (c : Z) (f : PfConnection -> PfConnection) (rp : PfReplicator) : outcome PfReplicator :=
  let* k := of_option (rp_conns rp !! c) in
  Done (set_rconns (<[c := f k]> (rp_conns rp)) rp).

Definition conn_ref (k : PfConnection) : PfConnection := set_c_ref (c_ref_count k + 1) k.

(** [pick_iocb]: the sequence number is not looked at *)
Definition pick_iocb (cid cmd_seq : Z) : Z := cid.

(** [replicator_on_tcp_network_done] with WC_SUCCESS *)
Definition tcp_network_done (c : Z) (e : net_done) (rp : PfReplicator) : outcome (Z * PfReplicator) :=
  match e with
  | NetHead cid =>
      let* io := get_io cid rp in
      if IS_WRITE_OP (h_opcode (ci_cmd io)) then
        let* rp := with_conn c conn_ref rp in
        let* tk := get_task (ci_ulp_arg io) rp in
        Done (1, rout (RStartSend c (rt_data_bd tk)) rp)
      else Done (0, rp)
  | NetReply rbd m =>
      let rp := set_replies (<[rbd := m]> (rp_replies rp)) rp in
      let cid := pick_iocb (rep_command_id m) (rep_command_seq m) in
      let* io := get_io cid rp in
      let* rp := put_io cid (ci_set_reply (Some rbd) io) rp in
      if IS_READ_OP (h_opcode (ci_cmd io)) then
        let* rp := with_conn c conn_ref rp in
        let* bd := of_option (ci_data_bd io) in
        Done (1, rout (RStartRecv c bd) rp)
      else
        let* rp := with_conn c put_throttle rp in
        Done (0, rpost (RvIoComplete cid) rp)
  | NetData cid =>
      let* io := get_io cid rp in
      if IS_READ_OP (h_opcode (ci_cmd io)) then
        let* rp := with_conn c put_throttle rp in
        Done (0, rpost (RvIoComplete cid) rp)
      else Done (0, rp)
  end.

(** the same with WC_FLUSH_ERR; the iocbs are resent by
    [handle_conn_close] *)
Definition tcp_network_flushed (c : Z) (e : net_done) (rp : PfReplicator) : outcome (Z * PfReplicator) :=
  let* rp := with_conn c (set_c_unclean true) rp in
  match e with
  | NetReply rbd _ => let* rp := free_reply rbd rp in Done (0, rp)
  | _ => Done (0, rp)
  end.

(** [replicator_on_rdma_network_done] with WC_SUCCESS: the reply stays in
    the buffer it arrived in *)
Definition rdma_network_done (c : Z) (e : net_done) (rp : PfReplicator) : outcome (Z * PfReplicator) :=
  match e with
  | NetReply rbd m =>
      let rp := set_replies (<[rbd := m]> (rp_replies rp)) rp in
      let cid := pick_iocb (rep_command_id m) (rep_command_seq m) in
      let* rp := with_conn c put_throttle rp in
      Done (0, rpost (RvIoComplete cid) rp)
  | _ => Done (0, rp)
  end.

Definition rdma_network_flushed (c : Z) (e : net_done) (rp : PfReplicator) : outcome (Z * PfReplicator) :=
  let* rp := with_conn c (set_c_unclean true) rp in
  match e with
  | NetReply rbd _ =>
      let* rp := free_reply rbd rp in
      let* rp := with_conn c put_throttle rp in
      Done (0, rp)
  | NetHead _ => Done (0, rp)
  | NetData _ => Fatal
  end.
