(* ===== verification/ReplicatorProps.v ===== *)
(** * What the replicator guarantees

    Every subtask handed to the replicator is at each time in exactly one
    place: waiting in its queue of events, waiting in the delay thread, in
    flight in a request block, or finished.  [all_tasks] lists these places;
    the theorem states that no event loses or duplicates a subtask, on the
    error paths and when a connection breaks as well, and that blocks and
    pool agree on what is in flight. *)

From Stdlib Require Import ZArith Lia String.
From stdpp Require Import base tactics list numbers sets gmap strings.
From S2P Require Import Prelude FixedQueue MemPool Ids Volume Connection Replicator.

(** ** Where the subtasks are *)
Definition event_task (e : rep_event) : option Z :=
  match e with RvIoReq t | RvRecoveryReadIo t => Some t | _ => None end.

Definition io_task (io : PfClientIocb) : option Z :=
  match ci_conn io with Some _ => Some (ci_ulp_arg io) | None => None end.

Definition action_task (a : rep_action) : option Z :=
  match a with
  | RSubmitError t _ | RComplete t _ | RCompleteMetaVer t _ _ => Some t
  | _ => None
  end.

Definition all_tasks (rp : PfReplicator) : list Z :=
  omap event_task (rp_events rp) ++ (fst <$> rp_delay rp) ++ omap io_task (rp_iocbs rp)
  ++ omap action_task (rp_out rp).

(** ** The invariant: blocks and pool *)
Definition data_op (io : PfClientIocb) : Prop :=
  h_opcode (ci_cmd io) = S5_OP_REPLICATE_WRITE \/ h_opcode (ci_cmd io) = S5_OP_RECOVERY_READ.

Record rep_inv (rp : PfReplicator) (held : list Z) : Prop := mkRepInv {
  ri_count : Z.of_nat (length (rp_iocbs rp)) = obj_count (rp_iocb_pool rp);
  ri_pool : pool_inv (rp_iocb_pool rp) held;
  ri_busy : forall (k : nat) io, rp_iocbs rp !! k = Some io -> Z.of_nat k ∈ held <-> is_Some (ci_conn io);
  ri_op : forall (k : nat) io, rp_iocbs rp !! k = Some io -> is_Some (ci_conn io) -> data_op io;
  ri_reply : queue_wf (rp_reply_pool rp)
}.

(** a change of one element moves one task in or out of a list *)
Lemma omap_insert_perm {A B} (f : A -> option B) (l : list A) (k : nat) x y :
  l !! k = Some x ->
  option_list (f x) ++ omap f (<[k := y]> l) ≡ₚ option_list (f y) ++ omap f l.
Proof.
  intros Hx. rewrite <- (take_drop_middle l k x Hx) at 2.
  rewrite (insert_take_drop l k y) by (by eapply lookup_lt_Some).
  rewrite !omap_app. cbn [omap list_omap].
  assert (forall z (r : list B), match f z with Some w => w :: r | None => r end = option_list (f z) ++ r) as E
    by (intros z r; by destruct (f z)).
  rewrite !E. rewrite !app_assoc. apply Permutation_app_tail.
  rewrite (Permutation_app_comm (option_list (f x))), <- app_assoc.
  rewrite (Permutation_app_comm (option_list (f x))), app_assoc. apply Permutation_app_tail.
  apply Permutation_app_comm.
Qed.

(** the fields the invariant and the list of tasks depend on *)
Record same_work (rp rp' : PfReplicator) : Prop := mkSameWork {
  sw_iocbs : rp_iocbs rp' = rp_iocbs rp;
  sw_pool : rp_iocb_pool rp' = rp_iocb_pool rp;
  sw_reply : rp_reply_pool rp' = rp_reply_pool rp;
  sw_replies : rp_replies rp' = rp_replies rp;
  sw_tasks : rp_tasks rp' = rp_tasks rp;
  sw_delay : rp_delay rp' = rp_delay rp;
  sw_out : rp_out rp' = rp_out rp;
  sw_events : omap event_task (rp_events rp') = omap event_task (rp_events rp)
}.

Lemma same_work_refl rp : same_work rp rp.
Proof. by split. Qed.

Lemma same_work_trans rp1 rp2 rp3 : same_work rp1 rp2 -> same_work rp2 rp3 -> same_work rp1 rp3.
Proof. intros [] []. split; congruence. Qed.

Lemma same_work_inv rp rp' held : same_work rp rp' -> rep_inv rp held -> rep_inv rp' held.
Proof. intros [E1 E2 E3 _ _ _ _ _] [? ? ? ? ?]. split; rewrite ?E1, ?E2, ?E3; done. Qed.

Lemma same_work_all rp rp' : same_work rp rp' -> all_tasks rp' = all_tasks rp.
Proof. intros [E1 _ _ _ _ E6 E7 E8]. unfold all_tasks. by rewrite E1, E6, E7, E8. Qed.

#[export] Hint Resolve same_work_refl : pf.

(** ** Finding a connection *)

(** every pointer to a connection leads to one, and two addresses never
    share a connection *)
Record conns_ok (rp : PfReplicator) : Prop := mkConnsOk {
  co_map : forall ip c, rp_ip_id_map rp !! ip = Some c -> is_Some (rp_conns rp !! c) /\ c < rp_next_conn rp;
  co_inj : forall ip1 ip2 c, rp_ip_id_map rp !! ip1 = Some c -> rp_ip_id_map rp !! ip2 = Some c -> ip1 = ip2;
  co_peer : forall sid a c, rp_peers rp !! sid = Some a -> p_conn a = Some c -> is_Some (rp_conns rp !! c);
  co_addr : forall sid a, rp_peers rp !! sid = Some a ->
            0 <= p_curr_ip_idx a < Z.of_nat (length (p_ip a))
}.

Lemma drop_closed c k rp :
  rp_conns rp !! c = Some k -> c_state k <> CONN_OK ->
  exists h, rep_drop_conn c rp = Done (set_rconns h rp)
    /\ forall c', c' <> c -> h !! c' = rp_conns rp !! c'.
Proof.
  intros Ek Hs. unfold rep_drop_conn. rewrite Ek. cbn [of_option obind].
  destruct (c_ref_count (set_c_ref _ _) =? 0).
  - unfold rep_close, conn_close. cbn [rp_conns set_rconns set_pool_conns]. rewrite lookup_insert_eq.
    cbn [of_option obind c_state set_c_ref]. rewrite (proj2 (Z.eqb_neq _ _) Hs). cbn [obind].
    exists (delete c (<[c := set_c_ref (c_ref_count k - 1) k]> (rp_conns rp))). split; [done|].
    intros c' Hc. rewrite lookup_delete_ne, lookup_insert_ne by done. done.
  - eexists. split; [done|]. intros c' Hc. by rewrite lookup_insert_ne.
Qed.

(** what the pool of connections still guarantees while [get_conn] tries the
    addresses of a peer *)
Record map_ok (rp : PfReplicator) : Prop := mkMapOk {
  mo_map : forall ip c, rp_ip_id_map rp !! ip = Some c -> is_Some (rp_conns rp !! c) /\ c < rp_next_conn rp;
  mo_inj : forall ip1 ip2 c, rp_ip_id_map rp !! ip1 = Some c -> rp_ip_id_map rp !! ip2 = Some c -> ip1 = ip2
}.

Lemma map_ok_connect rp ip k :
  map_ok rp -> let c := rp_next_conn rp in
  map_ok (set_pool_conns (<[ip := c]> (rp_ip_id_map rp)) (<[c := k]> (rp_conns rp)) (c + 1) rp).
Proof.
  intros [Hm Hi] c. split; cbn.
  - intros ip' c'. rewrite lookup_insert_Some. intros [[<- <-]|[Hne H]].
    + rewrite lookup_insert_eq. split; [by eexists|lia].
    + destruct (Hm _ _ H) as [Hs Hc]. rewrite lookup_insert_ne by (unfold c; lia). split; [done|]. unfold c. lia.
  - intros ip1 ip2 c'. rewrite !lookup_insert_Some.
    intros [[<- <-]|[Hn1 H1]] [[<- E]|[Hn2 H2]]; [done| | |by eapply Hi].
    + destruct (Hm _ _ H2). unfold c in *. lia.
    + destruct (Hm _ _ H1). unfold c in *. lia.
Qed.

Lemma map_ok_erase rp ip c h :
  map_ok rp -> rp_ip_id_map rp !! ip = Some c -> (forall c', c' <> c -> h !! c' = rp_conns rp !! c') ->
  map_ok (set_rconns h (set_pool_conns (delete ip (rp_ip_id_map rp)) (rp_conns rp) (rp_next_conn rp) rp)).
Proof.
  intros [Hm Hi] Hc Hh. split; cbn.
  - intros ip' c' [Hne H]%lookup_delete_Some. rewrite Hh; [by apply (Hm ip')|].
    intros ->. apply Hne. by eapply Hi.
  - intros ip1 ip2 c' [_ H1]%lookup_delete_Some [_ H2]%lookup_delete_Some. by eapply Hi.
Qed.

Lemma pool_get_conn_spec env ip rp :
  map_ok rp ->
  exists oc rp', pool_get_conn env ip rp = Done (oc, rp') /\ same_work rp rp' /\ map_ok rp'
    /\ rp_peers rp' = rp_peers rp /\ (forall c, oc = Some c -> is_Some (rp_conns rp' !! c)).
Proof.
  intros Hm.
  assert (forall rp1, same_work rp rp1 -> map_ok rp1 -> rp_peers rp1 = rp_peers rp ->
    exists oc rp', (match re_connect env ip with
      | None => (None, rp1)
      | Some k =>
          (Some (rp_next_conn rp1),
           set_pool_conns (<[ip := rp_next_conn rp1]> (rp_ip_id_map rp1))
             (<[rp_next_conn rp1 := mkConn (c_state k) (rp_conn_type rp1) (c_ref_count k + 1) (rp_io_depth rp1)
                  (c_inflying_io k) (c_inflying_heartbeat k) (c_unclean_closed k) (c_used_iocb k)]> (rp_conns rp1))
             (rp_next_conn rp1 + 1) rp1)
      end) = (oc, rp') /\ same_work rp rp' /\ map_ok rp'
    /\ rp_peers rp' = rp_peers rp /\ (forall c, oc = Some c -> is_Some (rp_conns rp' !! c))) as Hconn.
  { intros rp1 Hw Hm1 Hp. destruct (re_connect env ip) as [k|].
    - eexists _, _. split; [reflexivity|]. splits; [|by apply map_ok_connect|done|].
      + destruct Hw. by split.
      + intros c [= <-]. cbn. rewrite lookup_insert_eq. by eexists.
    - exists None, rp1. splits; [done..|]. intros c [=]. }
  unfold pool_get_conn. destruct (rp_ip_id_map rp !! ip) as [c|] eqn:E.
  - destruct (mo_map _ Hm _ _ E) as [[k Ek] _]. rewrite Ek. cbn [of_option obind].
    destruct (Z.eqb_spec (c_state k) CONN_OK) as [Hs|Hs].
    + exists (Some c), rp. splits; auto with pf. intros c' [= <-]. by eexists.
    + destruct (drop_closed c k (set_pool_conns (delete ip (rp_ip_id_map rp)) (rp_conns rp) (rp_next_conn rp) rp))
        as (h & Eh & Hh); [done|done|]. rewrite Eh. cbn [obind].
      destruct (Hconn (set_rconns h (set_pool_conns (delete ip (rp_ip_id_map rp)) (rp_conns rp) (rp_next_conn rp) rp)))
        as (oc & rp' & E' & H'); [by split|by eapply map_ok_erase|done|].
      exists oc, rp'. split; [by rewrite <- E'|done].
  - destruct (Hconn rp) as (oc & rp' & E' & H'); [by split|done|done|].
    exists oc, rp'. split; [by rewrite <- E'|done].
Qed.

Lemma same_work_peers rp m : same_work rp (set_peers m rp).
Proof. by split. Qed.

Lemma try_peer_spec env n sid a rp :
  map_ok rp -> rp_peers rp !! sid = Some a -> 0 <= p_curr_ip_idx a < Z.of_nat (length (p_ip a)) ->
  exists oc rp', try_peer env n sid a rp = Done (oc, rp') /\ same_work rp rp'
    /\ (forall c, oc = Some c -> is_Some (rp_conns rp' !! c)).
Proof.
  revert a rp. induction n as [|n IH]; intros a rp Hm Ha Hi.
  { exists None, rp. splits; auto with pf. intros c [=]. }
  cbn [try_peer]. destruct (arr_get_is_Some (p_ip a) (p_curr_ip_idx a) Hi) as [ip Eip]. rewrite Eip.
  cbn [of_option obind].
  assert (forall rp1 a1, same_work rp rp1 -> map_ok rp1 -> rp_peers rp1 !! sid = Some a1 ->
    p_ip a1 = p_ip a -> p_curr_ip_idx a1 = p_curr_ip_idx a ->
    exists oc rp', (let* a := of_option (rp_peers rp1 !! sid) in
          let a := mkPeer (p_store_id a) (p_conn a) (Z.rem (p_curr_ip_idx a + 1) (Z.of_nat (length (p_ip a)))) (p_ip a) in
          try_peer env n sid a (set_peers (<[sid := a]> (rp_peers rp1)) rp1)) = Done (oc, rp')
    /\ same_work rp rp' /\ (forall c, oc = Some c -> is_Some (rp_conns rp' !! c))) as Hnext.
  { intros rp1 a1 Hw Hm1 Ha1 Hip Hidx. rewrite Ha1. cbn [of_option obind]. rewrite Hip, Hidx.
    edestruct (IH (mkPeer (p_store_id a1) (p_conn a1)
       (Z.rem (p_curr_ip_idx a + 1) (Z.of_nat (length (p_ip a)))) (p_ip a))) as (oc & rp' & E & Hw' & Hc);
      [| | |exists oc, rp'; rewrite E; splits; [done| |done]].
    - destruct Hm1. by split.
    - cbn. by rewrite lookup_insert_eq.
    - cbn. pose proof (rem_step (Z.of_nat (length (p_ip a))) (p_curr_ip_idx a) Hi). tauto.
    - eapply same_work_trans; [done|]. eapply same_work_trans; [apply same_work_peers|done]. }
  destruct (String.eqb ip EmptyString); cbn [obind].
  { apply (Hnext rp a); auto with pf. }
  destruct (pool_get_conn_spec env ip rp Hm) as (oc & rp1 & E & Hw & Hm1 & Hp & Hc). rewrite E. cbn [obind].
  destruct oc as [c|].
  - eexists _, _. split; [reflexivity|]. split; [|done].
    eapply same_work_trans; [done|apply same_work_peers].
  - eapply Hnext; [eapply same_work_trans; [done|apply same_work_peers]|by destruct Hm1; split|
      cbn; by rewrite lookup_insert_eq|done|done].
Qed.

(** [get_conn] returns, with a connection of the heap or without one, and
    changes only peers and connections. *)
Lemma get_conn_spec env sid rp :
  conns_ok rp ->
  exists oc rp', get_conn env sid rp = Done (oc, rp') /\ same_work rp rp'
    /\ (forall c, oc = Some c -> is_Some (rp_conns rp' !! c)).
Proof.
  intros [Hm Hinj Hp Ha]. unfold get_conn. destruct (rp_peers rp !! sid) as [a|] eqn:E.
  2: { exists None, rp. splits; auto with pf. intros c [=]. }
  assert (map_ok rp) as Hmap by (by split).
  destruct (p_conn a) as [c|] eqn:Ec; cbn [obind].
  - destruct (Hp _ _ _ E Ec) as [k Ek]. rewrite Ek. cbn [of_option obind].
    destruct (c_state k =? CONN_OK).
    + exists (Some c), rp. splits; auto with pf. intros c' [= <-]. by eexists.
    + eapply try_peer_spec; eauto.
  - eapply try_peer_spec; eauto.
Qed.

(** ** Blocks *)

(** the invariant while block [cid] is taken from the pool and being filled
    in or emptied *)
Record open_inv (rp : PfReplicator) (held : list Z) (cid : Z) : Prop := mkOpenInv {
  oi_count : Z.of_nat (length (rp_iocbs rp)) = obj_count (rp_iocb_pool rp);
  oi_range : 0 <= cid < Z.of_nat (length (rp_iocbs rp));
  oi_pool : pool_inv (rp_iocb_pool rp) (cid :: held);
  oi_busy : forall (k : nat) io, rp_iocbs rp !! k = Some io -> Z.of_nat k <> cid ->
            Z.of_nat k ∈ held <-> is_Some (ci_conn io);
  oi_op : forall (k : nat) io, rp_iocbs rp !! k = Some io -> Z.of_nat k <> cid ->
          is_Some (ci_conn io) -> data_op io;
  oi_reply : queue_wf (rp_reply_pool rp)
}.

Lemma put_io_done cid io rp :
  0 <= cid < Z.of_nat (length (rp_iocbs rp)) ->
  put_io cid io rp = Done (set_iocbs (<[Z.to_nat cid := io]> (rp_iocbs rp)) rp).
Proof. intros Hc. unfold put_io, store_at. by rewrite arr_set_spec by done. Qed.

Lemma held_once p cid held : pool_inv p (cid :: held) -> cid ∉ held.
Proof.
  intros [_ _ Hp]. assert (NoDup (fifo_list (free_objs p) ++ cid :: held)) as Hn by (rewrite Hp; apply NoDup_seqZ).
  apply NoDup_app in Hn as (_ & _ & Hn). by apply NoDup_cons in Hn as [? _].
Qed.

(** the block is filled in and stays in flight *)
Lemma keep_block rp held cid io :
  open_inv rp held cid -> is_Some (ci_conn io) -> data_op io ->
  put_io cid io rp = Done (set_iocbs (<[Z.to_nat cid := io]> (rp_iocbs rp)) rp)
  /\ rep_inv (set_iocbs (<[Z.to_nat cid := io]> (rp_iocbs rp)) rp) (cid :: held).
Proof.
  intros [Hc Hr Hp Hb Ho Hq] Hconn Hop. split; [by apply put_io_done|].
  split; cbn [rp_iocbs rp_iocb_pool rp_reply_pool set_iocbs]; auto.
  - by rewrite length_insert.
  - intros k io' H. apply list_lookup_insert_Some in H as [(<- & -> & _)|[Hne H]].
    + rewrite Z2Nat.id by lia. split; [done|]. intros _. left.
    + assert (Z.of_nat k <> cid) by lia. rewrite elem_of_cons. rewrite <- (Hb k io' H) by done.
      split; [by intros [?|?]|by right].
  - intros k io' H. apply list_lookup_insert_Some in H as [(<- & -> & _)|[Hne H]]; [done|].
    apply (Ho k io' H). lia.
Qed.

(** the block goes back to the pool *)
Lemma return_block rp held cid io :
  open_inv rp held cid -> ci_conn io = None ->
  exists p, put_io cid io rp = Done (set_iocbs (<[Z.to_nat cid := io]> (rp_iocbs rp)) rp)
    /\ free_iocb cid (set_iocbs (<[Z.to_nat cid := io]> (rp_iocbs rp)) rp)
       = Done (set_rpool p (set_iocbs (<[Z.to_nat cid := io]> (rp_iocbs rp)) rp))
    /\ rep_inv (set_rpool p (set_iocbs (<[Z.to_nat cid := io]> (rp_iocbs rp)) rp)) held
    /\ obj_count p = obj_count (rp_iocb_pool rp).
Proof.
  intros [Hc Hr Hp Hb Ho Hq] Hconn. pose proof (held_once _ _ _ Hp) as Hn.
  destruct (pool_free_spec _ _ _ Hp) as (p & Ep & Hp' & Hcnt); [lia|].
  exists p. splits; [by apply put_io_done|unfold free_iocb; cbn; by rewrite Ep| |done].
  split; cbn [rp_iocbs rp_iocb_pool rp_reply_pool set_iocbs set_rpool]; auto.
  - rewrite length_insert. congruence.
  - intros k io' H. apply list_lookup_insert_Some in H as [(<- & -> & _)|[Hne H]].
    + rewrite Z2Nat.id, Hconn by lia. split; [done|]. by intros [? ?].
    + apply (Hb k io' H). lia.
  - intros k io' H. apply list_lookup_insert_Some in H as [(<- & -> & _)|[Hne H]].
    + rewrite Hconn. by intros [? ?].
    + apply (Ho k io' H). lia.
Qed.

Lemma open_inv_same rp rp' held cid :
  rp_iocbs rp' = rp_iocbs rp -> rp_iocb_pool rp' = rp_iocb_pool rp -> queue_wf (rp_reply_pool rp') ->
  open_inv rp held cid -> open_inv rp' held cid.
Proof. intros E1 E2 Hq [? ? ? ? ? _]. split; rewrite ?E1, ?E2; done. Qed.

(** [alloc] opens a block that was not in flight *)
Lemma alloc_block rp held :
  rep_inv rp held ->
  (exists cid io p, pool_alloc (rp_iocb_pool rp) = Done (Some cid, p) /\ open_inv (set_rpool p rp) held cid
     /\ arr_get (rp_iocbs rp) cid = Some io /\ ci_conn io = None)
  \/ pool_alloc (rp_iocb_pool rp) = Done (None, rp_iocb_pool rp).
Proof.
  intros [Hc Hp Hb Ho Hq].
  destruct (pool_alloc_spec _ _ Hp) as [(cid & p & E & Hn & Hr & Hp' & Hcnt)|[E _]]; [lia| |by right].
  left. destruct (arr_get_is_Some (rp_iocbs rp) cid) as [io Eio]; [lia|].
  exists cid, io, p. splits; [done| |done|].
  - split; cbn; [congruence|lia|done|intros k io' H _; by apply Hb|intros k io' H _; by apply (Ho k)|done].
  - rewrite arr_get_lookup in Eio by lia. apply Hb in Eio. rewrite Z2Nat.id in Eio by lia.
    destruct (ci_conn io); [|done]. exfalso. apply Hn, Eio. by eexists.
Qed.

(** a block in flight is opened to be emptied *)
Lemma open_block rp held cid io :
  rep_inv rp held -> arr_get (rp_iocbs rp) cid = Some io -> is_Some (ci_conn io) ->
  exists held', held ≡ₚ cid :: held' /\ open_inv rp held' cid.
Proof.
  intros [Hc Hp Hb Ho Hq] Eio Hconn. pose proof (arr_get_Some_lt _ _ _ Eio) as Hr.
  rewrite arr_get_lookup in Eio by lia.
  assert (cid ∈ held) as Hin by (apply Hb in Eio; rewrite Z2Nat.id in Eio by lia; by apply Eio).
  apply elem_of_Permutation in Hin as [held' Hh]. exists held'. split; [done|].
  pose proof (pool_inv_perm _ _ _ Hh Hp) as Hp'. split; auto.
  - intros k io' H Hne. rewrite <- (Hb k io' H), Hh, elem_of_cons. split; [by right|by intros [?|?]].
  - intros k io' H _. by apply (Ho k).
Qed.

(** ** The reply buffers *)
Lemma alloc_reply_spec rp :
  queue_wf (rp_reply_pool rp) ->
  (abs (rp_reply_pool rp) = [] /\ alloc_reply rp = Fatal)
  \/ exists r q, alloc_reply rp = Done (r, set_reply_pool q rp) /\ queue_wf q.
Proof.
  intros Hq. unfold alloc_reply. destruct (abs (rp_reply_pool rp)) as [|r l] eqn:E.
  - left. rewrite dequeue_nil by done. done.
  - right. destruct (dequeue_cons _ _ _ Hq E) as (q & Eq & Hwf & _). rewrite Eq. cbn. eauto.
Qed.

Lemma free_reply_spec r rp :
  queue_wf (rp_reply_pool rp) -> exists q, free_reply r rp = Done (set_reply_pool q rp) /\ queue_wf q.
Proof.
  intros Hq. unfold free_reply. pose proof (abs_bound _ Hq).
  destruct (decide (Z.of_nat (length (abs (rp_reply_pool rp))) = q_depth (rp_reply_pool rp) - 1)) as [Hf|Hn].
  - rewrite enqueue_full by done. cbn. eauto.
  - destruct (enqueue_fifo _ r Hq) as (q & Eq & Hwf & _); [lia|]. rewrite Eq. cbn. eauto.
Qed.

(** ** Sending *)

Lemma perm_inner {A} (x y a b d d' c : list A) :
  x ++ d' ≡ₚ y ++ d -> x ++ a ++ b ++ d' ++ c ≡ₚ y ++ a ++ b ++ d ++ c.
Proof.
  intros H. assert (forall z e, z ++ a ++ b ++ e ++ c ≡ₚ a ++ b ++ (z ++ e) ++ c) as E.
  { intros z e. rewrite (Permutation_app_swap_app z a), (Permutation_app_swap_app z b). by rewrite <- app_assoc. }
  by rewrite !E, H.
Qed.

(** what [all_tasks] becomes when the list of blocks changes *)
Lemma all_tasks_iocbs rp k x y :
  rp_iocbs rp !! k = Some x ->
  option_list (io_task x) ++ all_tasks (set_iocbs (<[k := y]> (rp_iocbs rp)) rp)
  ≡ₚ option_list (io_task y) ++ all_tasks rp.
Proof. intros Hx. by apply perm_inner, omap_insert_perm. Qed.

(** a function that puts subtask [t] somewhere and leaves the blocks alone *)
Record places (t : Z) (f : PfReplicator -> PfReplicator) : Prop := mkPlaces {
  pl_iocbs : forall rp, rp_iocbs (f rp) = rp_iocbs rp;
  pl_pool : forall rp, rp_iocb_pool (f rp) = rp_iocb_pool rp;
  pl_reply : forall rp, rp_reply_pool (f rp) = rp_reply_pool rp;
  pl_tasks : forall rp, all_tasks (f rp) ≡ₚ t :: all_tasks rp
}.

Lemma places_event t e : event_task e = Some t -> places t (rpost e).
Proof.
  intros E. split; try done. intros rp. unfold all_tasks. cbn. rewrite omap_app. cbn. rewrite E.
  rewrite <- app_assoc. cbn. by rewrite <- Permutation_middle.
Qed.

Lemma places_action t a : action_task a = Some t -> places t (rout a).
Proof.
  intros E. split; try done. intros rp. unfold all_tasks. cbn. rewrite omap_app. cbn. rewrite E.
  rewrite !app_assoc. by rewrite <- Permutation_cons_append.
Qed.

Lemma places_delay t dl : places t (fun rp => set_delay (rp_delay rp ++ [(t, dl)]) rp).
Proof.
  split; try done. intros rp. unfold all_tasks. cbn. rewrite fmap_app. cbn.
  rewrite <- (app_assoc (fst <$> _)). cbn. by rewrite <- !Permutation_middle.
Qed.

(** the outcome of an event that takes care of subtask [t]: either the pool
    of reply buffers is empty, which ends the process, or the subtask has its
    place and the invariant holds *)
Definition cared (t : Z) (rp : PfReplicator) (m : outcome (Z * PfReplicator)) : Prop :=
  (m = Fatal /\ abs (rp_reply_pool rp) = [])
  \/ exists rc rp' held', m = Done (rc, rp') /\ rep_inv rp' held' /\ all_tasks rp' ≡ₚ t :: all_tasks rp.

(** a block that was opened for nothing goes back, the subtask having its
    place already *)
Lemma give_back_cared rc cid io0 io1 t rp rp1 held :
  open_inv rp held cid -> rp_iocbs rp !! Z.to_nat cid = Some io0 -> ci_conn io0 = None -> ci_conn io1 = None ->
  rp_iocbs rp1 = rp_iocbs rp -> rp_iocb_pool rp1 = rp_iocb_pool rp -> queue_wf (rp_reply_pool rp1) ->
  all_tasks rp1 ≡ₚ t :: all_tasks rp ->
  cared t rp (let* rp := put_io cid io1 rp1 in let* rp := free_iocb cid rp in Done (rc, rp)).
Proof.
  intros Ho E0 H0 H1 Ei Ep Hq1 Ht1. right.
  destruct (return_block rp1 held cid io1) as (p & E1 & E2 & Hinv & _); [by apply (open_inv_same rp)|done|].
  rewrite E1. cbn [obind]. rewrite E2. cbn [obind]. eexists _, _, held. splits; [reflexivity|done|].
  rewrite <- Ht1. rewrite <- Ei in E0.
  pose proof (all_tasks_iocbs rp1 _ io0 io1 E0) as Hp. unfold io_task in Hp. rewrite H0, H1 in Hp. exact Hp.
Qed.

Lemma post_both_cared env c cid io0 io t retry rp held :
  open_inv rp held cid -> arr_get (rp_iocbs rp) cid = Some io0 -> ci_conn io0 = None ->
  is_Some (ci_conn io) -> data_op io -> ci_ulp_arg io = t -> places t retry ->
  cared t rp (post_both env c cid io retry rp).
Proof.
  intros Ho E0 H0 Hc Hop Ht Hpl. unfold post_both.
  pose proof (oi_range _ _ _ Ho) as Hr. rewrite arr_get_lookup in E0 by lia.
  destruct (alloc_reply_spec rp (oi_reply _ _ _ Ho)) as [[Ha Ef]|(rbd & q & Ea & Hq)].
  { left. by rewrite Ef. }
  rewrite Ea. cbn [obind]. pose proof (pl_tasks _ _ Hpl (set_reply_pool q rp)) as Hall.
  destruct (negb (re_post_recv env c rbd =? 0)).
  - destruct (free_reply_spec rbd (retry (set_reply_pool q rp))) as (q' & Eq & Hq'); [by rewrite (pl_reply _ _ Hpl)|].
    rewrite Eq. cbn [obind]. eapply give_back_cared; [exact Ho|exact E0|done|done| | |done|exact Hall].
    + cbn. by rewrite (pl_iocbs _ _ Hpl).
    + cbn. by rewrite (pl_pool _ _ Hpl).
  - destruct (negb (re_post_send env c cid =? 0)).
    + eapply give_back_cared; [exact Ho|exact E0|done|done|by rewrite (pl_iocbs _ _ Hpl)|
        by rewrite (pl_pool _ _ Hpl)|by rewrite (pl_reply _ _ Hpl)|exact Hall].
    + right. destruct (keep_block (set_reply_pool q rp) held cid (ci_set_reply (Some rbd) io)) as [E1 Hinv];
        [by apply (open_inv_same rp)|done|done|].
      rewrite E1. cbn [obind]. eexists _, _, (cid :: held). splits; [reflexivity| |].
      * by destruct Hinv.
      * pose proof (all_tasks_iocbs rp _ io0 (ci_set_reply (Some rbd) io) E0) as Hp.
        destruct Hc as [c' Hc]. unfold io_task in Hp. cbn in Hp. rewrite H0, Hc, Ht in Hp.
        cbn in Hp. rewrite <- Hp. unfold all_tasks. cbn. by rewrite omap_app, app_nil_r.
Qed.

Lemma cared_same t rp rp1 m :
  rp_reply_pool rp1 = rp_reply_pool rp -> all_tasks rp1 = all_tasks rp -> cared t rp1 m -> cared t rp m.
Proof. intros E1 E2. unfold cared. by rewrite E1, E2. Qed.

Lemma cared_placed t f rc rp rp1 held :
  places t f -> same_work rp rp1 -> rep_inv rp1 held -> cared t rp (Done (rc, f rp1)).
Proof.
  intros Hpl Hw [Hc Hp Hb Ho Hq]. right. exists rc, (f rp1), held. splits; [done| |].
  - split; rewrite ?(pl_iocbs _ _ Hpl), ?(pl_pool _ _ Hpl), ?(pl_reply _ _ Hpl); done.
  - by rewrite (pl_tasks _ _ Hpl), (same_work_all _ _ Hw).
Qed.

Lemma same_work_conns rp h : same_work rp (set_rconns h rp).
Proof. by split. Qed.

(** a subtask of a write, as [dispatch_write] submits it, and one of a
    recovery read *)
Definition write_task (tk : rep_task) : Prop :=
  h_opcode (rt_parent_cmd tk) = S5_OP_WRITE
  /\ (rt_opcode tk = S5_OP_WRITE \/ rt_opcode tk = S5_OP_REPLICATE_WRITE).

Definition recovery_task (tk : rep_task) : Prop := rt_opcode tk = S5_OP_RECOVERY_READ.

Lemma begin_replicate_cared env t tk rp held :
  rep_inv rp held -> conns_ok rp -> rp_tasks rp !! t = Some tk -> write_task tk ->
  cared t rp (begin_replicate_io env t rp).
Proof.
  intros Hinv Hco Et [Hw1 Hw2]. unfold begin_replicate_io, get_task. rewrite Et. cbn [of_option obind].
  destruct (get_conn_spec env (rt_store_id tk) rp Hco) as (oc & rp1 & E1 & Hw & Hc). rewrite E1. cbn [obind].
  pose proof (same_work_inv _ _ _ Hw Hinv) as Hinv1.
  destruct oc as [c|]; [|by apply (cared_placed t (rout (RSubmitError t MSG_STATUS_CONN_LOST)) _ _ rp1 held);
                           [apply places_action|..]].
  destruct (Hc c eq_refl) as [k Ek]. rewrite Ek. cbn [of_option obind].
  destruct (get_throttle k) as [granted k']. set (rp2 := set_rconns (<[c := k']> (rp_conns rp1)) rp1).
  assert (same_work rp rp2) as Hw2' by (eapply same_work_trans; [exact Hw|apply same_work_conns]).
  pose proof (same_work_inv _ _ _ Hw2' Hinv) as Hinv2.
  destruct granted; cbn [negb].
  2: { apply (cared_placed t (fun rp => set_delay (rp_delay rp ++ [(t, re_now env + 100)]) rp) _ _ rp2 held);
         [apply places_delay|done|done]. }
  destruct (alloc_block rp2 held Hinv2) as [(cid & io & p & Ea & Ho & Eio & Hio)|Ea]; rewrite Ea; cbn [obind].
  2: { apply (cared_placed t (fun rp => set_delay (rp_delay rp ++ [(t, re_now env + 100)]) rp) _ _
                (set_rpool (rp_iocb_pool rp2) rp2) held); [apply places_delay| |].
       - destruct Hw2'. by split.
       - by destruct Hinv2. }
  unfold get_io. cbn [rp_iocbs set_rpool]. rewrite Eio. cbn [of_option obind].
  rewrite Hw1. change (S5_OP_WRITE =? S5_OP_WRITE) with true. cbn [negb].
  assert ((rt_opcode tk =? S5_OP_WRITE) || (rt_opcode tk =? S5_OP_REPLICATE_WRITE) = true) as ->
    by (by destruct Hw2 as [-> | ->]).
  cbn [negb]. eapply cared_same; [| |eapply post_both_cared].
  - exact (sw_reply _ _ Hw2').
  - exact (same_work_all _ _ Hw2').
  - apply (open_inv_same (set_rpool p rp2)); [done|done|apply (oi_reply _ _ _ Ho)|exact Ho].
  - exact Eio.
  - exact Hio.
  - by eexists.
  - by left.
  - done.
  - by apply places_event.
Qed.

Lemma begin_recovery_cared env t tk rp held :
  rep_inv rp held -> conns_ok rp -> rp_tasks rp !! t = Some tk -> recovery_task tk ->
  cared t rp (begin_recovery_read_io env t rp).
Proof.
  intros Hinv Hco Et Hop. unfold begin_recovery_read_io, get_task. rewrite Et. cbn [of_option obind].
  destruct (alloc_block rp held Hinv) as [(cid & io & p & Ea & Ho & Eio & Hio)|Ea]; rewrite Ea; cbn [obind].
  2: { apply (cared_placed t (rout (RComplete t MSG_STATUS_NO_RESOURCE)) _ _ (set_rpool (rp_iocb_pool rp) rp) held);
         [by apply places_action|by split|by destruct Hinv]. }
  unfold get_io. cbn [rp_iocbs set_rpool]. rewrite Eio. cbn [of_option obind].
  destruct (get_conn_spec env (rt_store_id tk) (set_rpool p rp)) as (oc & rp1 & E1 & Hw & Hc);
    [by destruct Hco|]. rewrite E1. cbn [obind].
  assert (open_inv rp1 held cid) as Ho1.
  { apply (open_inv_same (set_rpool p rp)); [exact (sw_iocbs _ _ Hw)|exact (sw_pool _ _ Hw)| |exact Ho].
    rewrite (sw_reply _ _ Hw). apply (oi_reply _ _ _ Ho). }
  assert (all_tasks rp1 = all_tasks rp) as Hall by exact (same_work_all _ _ Hw).
  assert (arr_get (rp_iocbs rp1) cid = Some io) as Eio1 by (rewrite (sw_iocbs _ _ Hw); exact Eio).
  destruct oc as [c|].
  - eapply (cared_same t rp rp1); [exact (sw_reply _ _ Hw)|exact Hall|].
    eapply post_both_cared; [exact Ho1|exact Eio1|exact Hio|by eexists|by right|done|by apply places_action].
  - eapply (cared_same t rp rp1); [exact (sw_reply _ _ Hw)|exact Hall|].
    pose proof (arr_get_Some_lt _ _ _ Eio1). rewrite arr_get_lookup in Eio1 by lia.
    eapply give_back_cared; [exact Ho1|exact Eio1|exact Hio|exact Hio|done|done|apply (oi_reply _ _ _ Ho1)|].
    by apply places_action.
Qed.

(** ** Completion and closed connections *)
Lemma complete_conserves cid io rbd m rp held :
  rep_inv rp held -> arr_get (rp_iocbs rp) cid = Some io -> is_Some (ci_conn io) ->
  ci_reply_bd io = Some rbd -> rp_replies rp !! rbd = Some m ->
  exists rp' held', process_io_complete cid rp = Done (0, rp') /\ rep_inv rp' held'
    /\ all_tasks rp' ≡ₚ all_tasks rp
    /\ rp_out rp' = rp_out rp ++ [RCompleteMetaVer (ci_ulp_arg io) (rep_status m) (rep_meta_ver m)].
Proof.
  intros Hinv Eio Hc Er Em. destruct (open_block rp held cid io Hinv Eio Hc) as (held' & _ & Ho).
  unfold process_io_complete, get_io. rewrite Eio. cbn [of_option obind]. rewrite Er. cbn [of_option obind].
  rewrite Em. cbn [of_option obind]. pose proof (arr_get_Some_lt _ _ _ Eio) as Hr.
  rewrite arr_get_lookup in Eio by lia.
  assert ((h_opcode (ci_cmd io) =? S5_OP_HEARTBEAT) = false) as ->
    by (destruct (ri_op _ _ Hinv _ _ Eio Hc) as [-> | ->]; done).
  cbn [obind]. set (rp1 := rout _ rp).
  destruct (free_reply_spec rbd rp1) as (q & Eq & Hq); [apply (oi_reply _ _ _ Ho)|]. rewrite Eq. cbn [obind].
  destruct (return_block (set_reply_pool q rp1) held' cid (ci_clear io)) as (p & E1 & E2 & Hinv' & _);
    [by apply (open_inv_same rp)|done|].
  rewrite E1. cbn [obind]. rewrite E2. cbn [obind]. eexists _, held'. splits; [reflexivity|done| |done].
  pose proof (all_tasks_iocbs (set_reply_pool q rp1) _ io (ci_clear io) Eio) as Hp.
  destruct Hc as [c Hc]. unfold io_task in Hp. cbn in Hp. rewrite Hc in Hp. cbn in Hp.
  apply (Permutation_cons_inv (a := ci_ulp_arg io)). etransitivity; [exact Hp|].
  by apply (pl_tasks (ci_ulp_arg io) (rout (RCompleteMetaVer (ci_ulp_arg io) (rep_status m) (rep_meta_ver m)))),
    places_action.
Qed.

Lemma resend_conserves c cid rp held :
  rep_inv rp held -> 0 <= cid < obj_count (rp_iocb_pool rp) ->
  exists rp' held', resend c cid rp = Done rp' /\ rep_inv rp' held' /\ all_tasks rp' ≡ₚ all_tasks rp
    /\ rp_conns rp' = rp_conns rp /\ obj_count (rp_iocb_pool rp') = obj_count (rp_iocb_pool rp)
    /\ (exists io', arr_get (rp_iocbs rp') cid = Some io' /\ ci_conn io' <> Some c)
    /\ (forall k, k <> cid -> arr_get (rp_iocbs rp') k = arr_get (rp_iocbs rp) k).
Proof.
  intros Hinv Hr. rewrite <- (ri_count _ _ Hinv) in Hr.
  destruct (arr_get_is_Some (rp_iocbs rp) cid Hr) as [io Eio]. unfold resend, get_io. rewrite Eio.
  cbn [of_option obind]. case_decide as Hc.
  2: { exists rp, held. splits; [done..| |done]. by exists io. }
  destruct (open_block rp held cid io Hinv Eio) as (held' & _ & Ho); [by rewrite Hc|].
  pose proof Eio as El. rewrite arr_get_lookup in El by lia.
  assert (data_op io) as Hop by (apply (ri_op _ _ Hinv _ _ El); by rewrite Hc).
  assert ((h_opcode (ci_cmd io) =? S5_OP_REPLICATE_WRITE) || (h_opcode (ci_cmd io) =? S5_OP_RECOVERY_READ)
            || (h_opcode (ci_cmd io) =? S5_OP_HEARTBEAT) = true) as -> by (by destruct Hop as [-> | ->]).
  cbn [negb]. destruct (return_block rp held' cid (ci_clear io) Ho eq_refl) as (p & E1 & E2 & Hinv' & Hcnt).
  rewrite E1. cbn [obind]. rewrite E2. cbn [obind]. set (rp1 := set_rpool p _) in *.
  assert (exists e, event_task e = Some (ci_ulp_arg io) /\
    (if h_opcode (ci_cmd io) =? S5_OP_REPLICATE_WRITE then rpost (RvIoReq (ci_ulp_arg io)) rp1
     else if h_opcode (ci_cmd io) =? S5_OP_RECOVERY_READ then rpost (RvRecoveryReadIo (ci_ulp_arg io)) rp1
     else rp1) = rpost e rp1) as (e & Ee & ->).
  { destruct Hop as [-> | ->]; eexists; split; try reflexivity; done. }
  exists (rpost e rp1), held'. splits; [done|by destruct Hinv'| |done|done| |].
  - rewrite (pl_tasks _ _ (places_event _ _ Ee)).
    pose proof (all_tasks_iocbs rp _ io (ci_clear io) El) as Hp. unfold io_task in Hp. cbn in Hp.
    rewrite Hc in Hp. exact Hp.
  - exists (ci_clear io). split; [|done]. cbn. rewrite arr_get_lookup by lia. rewrite list_lookup_insert_eq by lia. done.
  - intros k Hk. cbn. unfold arr_get. case_decide; [|done]. rewrite list_lookup_insert_ne by lia. done.
Qed.

(** the loop takes every block off the connection *)
Lemma resend_loop_conserves c n cid rp held :
  rep_inv rp held -> 0 <= cid -> cid + Z.of_nat n = obj_count (rp_iocb_pool rp) ->
  exists rp' held', resend_loop c n cid rp = Done rp' /\ rep_inv rp' held' /\ all_tasks rp' ≡ₚ all_tasks rp
    /\ rp_conns rp' = rp_conns rp
    /\ (forall k, 0 <= k < cid -> arr_get (rp_iocbs rp') k = arr_get (rp_iocbs rp) k)
    /\ (forall k io, cid <= k -> arr_get (rp_iocbs rp') k = Some io -> ci_conn io <> Some c).
Proof.
  revert cid rp held. induction n as [|n IH]; intros cid rp held Hinv Hc Hn.
  { exists rp, held. splits; [done..|]. intros k io Hk E%arr_get_Some_lt. rewrite (ri_count _ _ Hinv) in E. lia. }
  cbn [resend_loop].
  destruct (resend_conserves c cid rp held Hinv) as (rp1 & h1 & E1 & Hi1 & Ht1 & Hc1 & Hn1 & (io1 & Hio1 & Hne) & Hk1);
    [lia|]. rewrite E1. cbn [obind].
  destruct (IH (cid + 1) rp1 h1 Hi1) as (rp2 & h2 & E2 & Hi2 & Ht2 & Hc2 & Hb2 & Ha2); [lia|lia|].
  exists rp2, h2. splits; [done|done|by rewrite Ht2|congruence| |].
  - intros k Hk. rewrite Hb2 by lia. apply Hk1. lia.
  - intros k io Hk E. destruct (decide (k = cid)) as [->|Hkc].
    + rewrite Hb2 in E by lia. rewrite Hio1 in E. by injection E as <-.
    + apply (Ha2 k io); [lia|done].
Qed.

Lemma drop_any c rp :
  is_Some (rp_conns rp !! c) -> exists rp', rep_drop_conn c rp = Done rp' /\ same_work rp rp'.
Proof.
  intros [k Ek]. unfold rep_drop_conn. rewrite Ek. cbn [of_option obind].
  destruct (c_ref_count (set_c_ref _ _) =? 0); [|eexists; split; [done|apply same_work_conns]].
  unfold rep_close, conn_close. cbn [rp_conns set_rconns set_pool_conns]. rewrite lookup_insert_eq.
  cbn [of_option obind]. destruct (c_state _ =? CONN_OK); cbn [obind].
  - unfold on_conn_close. cbn [rp_conns set_rconns set_pool_conns]. rewrite lookup_insert_eq.
    cbn [of_option obind]. destruct (c_unclean_closed _); cbn [obind].
    + unfold conn_add_ref. cbn [rp_conns set_rconns set_pool_conns]. rewrite lookup_insert_eq. cbn [of_option obind].
      eexists. split; [reflexivity|]. split; try done. cbn. rewrite omap_app. cbn. by rewrite app_nil_r.
    + eexists. split; [reflexivity|]. by split.
  - eexists. split; [reflexivity|]. by split.
Qed.

Lemma conn_close_conserves c k rp held :
  rep_inv rp held -> rp_conns rp !! c = Some k -> c_unclean_closed k = true ->
  exists rp' held', handle_conn_close c rp = Done (0, rp') /\ rep_inv rp' held' /\ all_tasks rp' ≡ₚ all_tasks rp
    /\ (forall cid io, arr_get (rp_iocbs rp') cid = Some io -> ci_conn io <> Some c).
Proof.
  intros Hinv Ek Hu. unfold handle_conn_close. rewrite Ek. cbn [of_option obind]. rewrite Hu. cbn [negb].
  pose proof (ri_count _ _ Hinv) as Hcnt.
  destruct (resend_loop_conserves c (Z.to_nat (obj_count (rp_iocb_pool rp))) 0 rp held Hinv)
    as (rp1 & h1 & E1 & Hi1 & Ht1 & Hc1 & _ & Ha1); [lia|lia|]. rewrite E1. cbn [obind].
  destruct (drop_any c rp1) as (rp2 & E2 & Hw); [rewrite Hc1; by eexists|]. rewrite E2. cbn [obind].
  exists rp2, h1. splits; [done|by eapply same_work_inv|by rewrite (same_work_all _ _ Hw)|].
  intros cid io E. rewrite (sw_iocbs _ _ Hw) in E. pose proof (arr_get_Some_lt _ _ _ E).
  apply (Ha1 cid io); [lia|done].
Qed.

(** ** Properties *)

(** what an event relies on: the subtask exists and is of the right kind;
    the block of a completion is in flight and has its reply; a closed
    connection still exists *)
Definition event_ok (e : rep_event) (rp : PfReplicator) : Prop :=
  match e with
  | RvIoReq t => exists tk, rp_tasks rp !! t = Some tk /\ write_task tk
  | RvRecoveryReadIo t => exists tk, rp_tasks rp !! t = Some tk /\ recovery_task tk
  | RvIoComplete cid => exists io rbd m, arr_get (rp_iocbs rp) cid = Some io /\ is_Some (ci_conn io)
                          /\ ci_reply_bd io = Some rbd /\ rp_replies rp !! rbd = Some m
  | RvConnClosed c => exists k, rp_conns rp !! c = Some k /\ c_unclean_closed k = true
  end.

Lemma all_tasks_pop rp e l :
  rp_events rp = e :: l -> all_tasks rp ≡ₚ option_list (event_task e) ++ all_tasks (set_revents l rp).
Proof. intros E. unfold all_tasks. rewrite E. cbn. by destruct (event_task e). Qed.


(** Replies over RDMA: the reply is looked up in the buffer posted with
    the request, not in the one it arrived in: when replies come in another
    order than the requests, a subtask completes with the status found in a
    buffer that holds no reply to it. *)
Theorem rdma_reply_other_buffer (c cid : Z) (k : PfConnection) (r1 r2 : Z) (m1 m : PfMessageReply)
    (io : PfClientIocb) (rp : PfReplicator) (held : list Z) :
  rep_inv rp held -> rp_conns rp !! c = Some k -> arr_get (rp_iocbs rp) cid = Some io -> is_Some (ci_conn io) ->
  ci_reply_bd io = Some r1 -> rp_replies rp !! r1 = Some m1 -> r2 <> r1 -> rep_command_id m = cid ->
  exists rp1 rp2, rdma_network_done c (NetReply r2 m) rp = Done (0, rp1)
    /\ rp_events rp1 = rp_events rp ++ [RvIoComplete cid]
    /\ process_io_complete cid rp1 = Done (0, rp2)
    /\ rp_out rp2 = rp_out rp ++ [RCompleteMetaVer (ci_ulp_arg io) (rep_status m1) (rep_meta_ver m1)].
Proof.
  intros Hinv Ek Eio Hc Er Em Hne Hid. unfold rdma_network_done, with_conn.
  cbn [rp_conns set_replies]. rewrite Ek. cbn [of_option obind]. unfold pick_iocb. rewrite Hid.
  set (rp1 := rpost _ _).
  destruct (complete_conserves cid io r1 m1 rp1 held) as (rp2 & h2 & E2 & _ & _ & Ho);
    [by destruct Hinv|done|done|done|cbn; by rewrite lookup_insert_ne|].
  exists rp1, rp2. splits; done.
Qed.

(** The throttle of a request that finds no block: [begin_replicate_io]
    puts the subtask off without giving the throttle back, so each retry takes
    one more of the connection's [io_depth]. *)
Theorem no_block_keeps_throttle (env : rep_env) (t c : Z) (tk : rep_task) (k : PfConnection) (rp rp1 : PfReplicator) :
  rp_tasks rp !! t = Some tk -> get_conn env (rt_store_id tk) rp = Done (Some c, rp1) ->
  rp_conns rp1 !! c = Some k -> c_inflying_io k < c_io_depth k ->
  pool_alloc (rp_iocb_pool rp1) = Done (None, rp_iocb_pool rp1) ->
  exists rp2 k2, begin_replicate_io env t rp = Done (- EAGAIN, rp2)
    /\ rp_delay rp2 = rp_delay rp1 ++ [(t, re_now env + 100)]
    /\ rp_conns rp2 !! c = Some k2 /\ c_inflying_io k2 = c_inflying_io k + 1 /\ rp_iocbs rp2 = rp_iocbs rp1.
Proof.
  intros Et Ec Ek Hlt Ea. unfold begin_replicate_io, get_task. rewrite Et. cbn [of_option obind]. rewrite Ec.
  cbn [obind]. rewrite Ek. cbn [of_option obind]. unfold get_throttle.
  cbn [c_io_depth set_c_inflying]. rewrite (proj2 (Z.ltb_lt _ _) Hlt). cbn [negb rp_iocb_pool set_rconns set_pool_conns].
  rewrite Ea. cbn [obind]. eexists _, _. split; [reflexivity|]. cbn. rewrite lookup_insert_eq. done.
Qed.

(** ** A concrete replicator *)
Module RepDemo.
Definition head : PfMessageHead := mkHead S5_OP_WRITE 33 4 (2 ^ 24) 0 0 7 4096 4096 99.
Definition task : rep_task := mkRepTask 11 S5_OP_WRITE 500 head 0 0 0 0 0.
Definition idle (cid : Z) : PfClientIocb :=
  mkClientIocb (mkHead 0 cid 0 0 0 0 0 0 0 0) None None 0 None.
Definition busy (cid rbd : Z) : PfClientIocb :=
  mkClientIocb (mkHead S5_OP_REPLICATE_WRITE cid 4 (2 ^ 24) 0 0 7 4096 4096 99) (Some 500) (Some rbd) 70 (Some 1).
Definition conn : PfConnection := mkConn CONN_OK RDMA_TYPE 2 64 1 0 false [].

(** two blocks, two reply buffers, one peer that is not connected yet *)
Definition rep : PfReplicator :=
  mkRep {[11 := mkPeer 11 None 0 ["10.0.0.2"; EmptyString]%string]} ∅ ∅ 1 TCP_TYPE 64
    (mkPool (mkQueue 2 0 3 [0; 1; 0]) true 2) [idle 0; idle 1]
    (mkQueue 2 0 3 [200; 201; 0]) ∅ {[70 := task]} [RvIoReq 70] [] [].

Definition env : rep_env :=
  mkRepEnv (fun _ => Some (mkConn CONN_OK TCP_TYPE 1 0 0 0 false [])) (fun _ _ => 0) (fun _ _ => 0)
    (fun _ _ => 0) (fun bd => bd) 1000.

Lemma rep_ok : rep_inv rep [].
Proof.
  split; [reflexivity| | | |].
  - split; [split; cbn; lia|reflexivity|]. vm_compute. reflexivity.
  - intros [|[|k]] io; cbn; [intros [= <-]|intros [= <-]|done]; (split; [by intros ?%not_elem_of_nil|by intros [? ?]]).
  - intros [|[|k]] io; cbn; [intros [= <-]|intros [= <-]|done]; by intros [? ?].
  - split; cbn; lia.
Qed.

Lemma rep_conns_ok : conns_ok rep.
Proof.
  split; cbn.
  - intros ip c. by rewrite lookup_empty.
  - intros ip1 ip2 c. by rewrite lookup_empty.
  - intros sid a c [_ <-]%lookup_singleton_Some. done.
  - intros sid a [_ <-]%lookup_singleton_Some. cbn. lia.
Qed.

(** two requests in flight: block 0 with buffer 200, block 1 with 201 *)
Definition rep2 : PfReplicator :=
  mkRep ∅ ∅ {[1 := conn]} 2 RDMA_TYPE 64 (mkPool (mkQueue 2 2 3 [0; 1; 0]) true 2) [busy 0 200; busy 1 201]
    (mkQueue 2 2 3 [200; 201; 0]) {[200 := mkReply 0 0 0 0; 201 := mkReply 0 0 0 0]} {[70 := task]} [] [] [].

Lemma rep2_ok : rep_inv rep2 [1; 0].
Proof.
  split; [reflexivity| | | |].
  - split; [split; cbn; lia|reflexivity|]. vm_compute. apply Permutation_swap.
  - intros [|[|k]] io; cbn; [intros [= <-]|intros [= <-]|done]; (split; [by eexists|intros _]); [right; left|left].
  - intros [|[|k]] io; cbn; [intros [= <-]|intros [= <-]|done]; by left.
  - split; cbn; lia.
Qed.

(** no block left *)
Definition rep3 : PfReplicator :=
  mkRep {[11 := mkPeer 11 (Some 1) 0 ["10.0.0.2"; EmptyString]%string]} ∅ {[1 := conn]} 2 RDMA_TYPE 64
    (mkPool (mkQueue 2 2 3 [0; 1; 0]) true 2) [busy 0 200; busy 1 201]
    (mkQueue 2 2 3 [200; 201; 0]) ∅ {[71 := task]} [] [] [].
End RepDemo.


(** the reply to block 1, a failure, arrives first and lands in buffer 200 *)
Lemma rdma_reply_other_buffer_witness :
  exists rp1 rp2, rdma_network_done 1 (NetReply 200 (mkReply MSG_STATUS_NOSPACE 7 1 99)) RepDemo.rep2 = Done (0, rp1)
    /\ process_io_complete 1 rp1 = Done (0, rp2) /\ rp_out rp2 = [RCompleteMetaVer 70 0 0].
Proof.
  destruct (rdma_reply_other_buffer 1 1 RepDemo.conn 201 200 (mkReply 0 0 0 0) (mkReply MSG_STATUS_NOSPACE 7 1 99)
    (RepDemo.busy 1 201) RepDemo.rep2 [1; 0] RepDemo.rep2_ok ltac:(vm_compute; reflexivity) eq_refl
    ltac:(by eexists) eq_refl ltac:(vm_compute; reflexivity) ltac:(done) eq_refl) as (rp1 & rp2 & E1 & _ & E2 & E3).
  exists rp1, rp2. splits; [exact E1|exact E2|exact E3].
Defined.

Lemma no_block_keeps_throttle_witness :
  exists rp2 k2, begin_replicate_io RepDemo.env 71 RepDemo.rep3 = Done (- EAGAIN, rp2)
    /\ rp_conns rp2 !! 1 = Some k2 /\ c_inflying_io k2 = 2.
Proof.
  destruct (no_block_keeps_throttle RepDemo.env 71 1 RepDemo.task RepDemo.conn RepDemo.rep3 RepDemo.rep3
    ltac:(vm_compute; reflexivity) ltac:(vm_compute; reflexivity) ltac:(vm_compute; reflexivity)
    ltac:(cbn; lia) ltac:(vm_compute; reflexivity)) as (rp2 & k2 & E & _ & Ek & Hk & _).
  exists rp2, k2. splits; [exact E|exact Ek|exact Hk].
Defined.
