(* ===== verification/Utils.v ===== *)
(** * String utilities

    Model of [split_string] (src/common/src/pf_utils.cpp), the index-based
    loop that parses lists of addresses, and its equivalence with the
    specification: the non-empty pieces between delimiters. *)

From Stdlib Require Import ZArith Lia String Ascii.
From stdpp Require Import base tactics list numbers strings.
From S2P Require Import Prelude.

Abbreviation chars := (list ascii).

(** [str.find(delim, prev)]: the index, or None for [npos] *)
Fixpoint index_of (d : ascii) (s : chars) : option nat :=
  match s with
  | [] => None
  | a :: s => if decide (a = d) then Some O else option_map S (index_of d s)
  end.

Definition find_from (s : chars) (d : ascii) (prev : nat) : option nat :=
  option_map (fun k => (prev + k)%nat) (index_of d (drop prev s)).

(** the loop; [fuel] bounds its turns, None is a loop that has not ended *)
Fixpoint split_loop (fuel : nat) (s : chars) (d : ascii) (prev : nat) : option (list chars) :=
  match fuel with
  | O => None
  | S fuel =>
      let pos := default (length s) (find_from s d prev) in
      let token := take (pos - prev) (drop prev s) in
      let tokens := match token with [] => [] | _ => [token] end in
      let prev := (pos + 1)%nat in
      if (pos <? length s)%nat && (prev <? length s)%nat
      then option_map (app tokens) (split_loop fuel s d prev)
      else Some tokens
  end.

(** every turn but the last one moves [prev] forward: [length s + 1] turns
    are enough *)
Definition split_string (str : string) (d : ascii) : list string :=
  let s := list_ascii_of_string str in
  string_of_list_ascii <$> default [] (split_loop (S (length s)) s d 0).

(** ** The specification *)
Fixpoint pieces (d : ascii) (s : chars) : list chars :=
  match s with
  | [] => [[]]
  | a :: s =>
      if decide (a = d) then [] :: pieces d s
      else match pieces d s with
           | [] => [[a]]
           | p :: ps => (a :: p) :: ps
           end
  end.

Definition non_empty (l : list chars) : list chars := List.filter (fun p => negb (bool_decide (p = []))) l.

Lemma index_of_None d s : index_of d s = None -> pieces d s = [s].
Proof.
  induction s as [|a s IH]; [done|]. cbn. case_decide; [done|].
  destruct (index_of d s); [done|]. intros _. by rewrite IH.
Qed.

Lemma index_of_Some d s k :
  index_of d s = Some k -> (k < length s)%nat /\ pieces d s = take k s :: pieces d (drop (S k) s).
Proof.
  revert k. induction s as [|a s IH]; intros k; [done|]. cbn. case_decide as E.
  - intros [= <-]. split; [lia|done].
  - destruct (index_of d s) as [j|]; [|done]. intros [= <-].
    destruct (IH j eq_refl) as [Hl Hp]. rewrite Hp. split; [lia|done].
Qed.

Lemma non_empty_token t ps :
  non_empty (t :: ps) = match t with [] => [] | _ => [t] end ++ non_empty ps.
Proof. by destruct t. Qed.

Lemma split_loop_pieces fuel s d prev :
  (length s - prev < fuel)%nat -> (prev <= length s)%nat ->
  split_loop fuel s d prev = Some (non_empty (pieces d (drop prev s))).
Proof.
  revert prev. induction fuel as [|fuel IH]; intros prev Hf Hp; [lia|]. cbn [split_loop]. unfold find_from.
  destruct (index_of d (drop prev s)) as [k|] eqn:E; cbn [option_map default].
  - destruct (index_of_Some _ _ _ E) as [Hk Hps]. rewrite length_drop in Hk. unfold id.
    replace (prev + k - prev)%nat with k by lia. rewrite (proj2 (Nat.ltb_lt _ _)) by lia. cbn [andb].
    rewrite Hps, non_empty_token, drop_drop.
    destruct (Nat.ltb_spec (prev + k + 1) (length s)) as [Hlt|Hge].
    + rewrite IH by lia. cbn [option_map]. do 5 f_equal. lia.
    + rewrite (drop_ge s (prev + S k)) by lia. cbn. by rewrite app_nil_r.
  - rewrite Nat.ltb_irrefl. cbn [andb]. rewrite (index_of_None _ _ E), non_empty_token.
    rewrite take_ge by (rewrite length_drop; lia). cbn. by rewrite app_nil_r.
Qed.

(** Splitting: on every string the loop of [split_string] ends, and it
    returns exactly the non-empty pieces of the string between delimiters,
    in order. *)
Theorem split_string_pieces (str : string) (d : ascii) :
  split_loop (S (length (list_ascii_of_string str))) (list_ascii_of_string str) d 0
    = Some (non_empty (pieces d (list_ascii_of_string str)))
  /\ split_string str d = string_of_list_ascii <$> non_empty (pieces d (list_ascii_of_string str)).
Proof.
  assert (forall s, split_loop (S (length s)) s d 0 = Some (non_empty (pieces d s))) as H.
  { intros s. rewrite split_loop_pieces by lia. by rewrite drop_0. }
  split; [apply H|]. unfold split_string. by rewrite H.
Qed.
