(* ===== verification/AppVolumes.v ===== *)
(** * The management of volumes on a store node

    Model of the handlers of src/pfs/src/pf_restful_api.cpp that change the
    tables of opened volumes: they convert the description of a volume that
    the conductor sends ([PrepareVolumeArg]) and run a call on every
    dispatcher in turn; the application keeps a table of its own for the
    handshake of new connections.

    A handler returns the code of its reply.  An exception thrown while a
    description is converted is the left side of a sum.  HTTP and JSON are
    not modelled: the arguments are the decoded ones. *)

From Stdlib Require Import ZArith Lia String Ascii.
From stdpp Require Import base tactics list numbers sets gmap strings.
From S2P Require Import Prelude FixedQueue MemPool Ids Volume Connection Dispatcher Replicator Utils.

(** ** Arguments *)
Record ReplicaArg : Type := mkReplicaArg {
  ra_id : Z;
  ra_index : Z;
  ra_store_id : Z;
  ra_tray_uuid : string;
  ra_status : string;
  ra_rep_ports : string
}.

Record ShardArg : Type := mkShardArg {
  sa_index : Z;
  sa_replicas : list ReplicaArg;
  sa_primary_rep_index : Z;
  sa_status : string
}.

Record PrepareVolumeArg : Type := mkVolumeArg {
  va_status : string;
  va_volume_name : string;
  va_volume_size : Z;
  va_volume_id : Z;
  va_meta_ver : Z;
  va_snap_seq : Z;
  va_shard_count : Z;
  va_rep_count : Z;
  va_shards : list ShardArg
}.

Definition RestfulReply_OK : Z := 0.
Definition INVALID_ARG : Z := 2.
Definition INVALID_STATE : Z := 7.
Definition INTERNAL_ERROR : Z := 100.

(** ** The application *)
Record PfAfsAppContext : Type := mkApp {
  ac_store_id : Z;
  ac_trays : list string;   (* the uuid of each disk *)
  ac_disps : list PfDispatcher;
  ac_replicators : list PfReplicator;
  ac_opened : gmap Z PfVolume;
  ac_next_shard_replicator_id : Z;
  ac_shard_to_replicator : bool
}.

Definition set_disps (l : list PfDispatcher) (a : PfAfsAppContext) : PfAfsAppContext :=
  mkApp (ac_store_id a) (ac_trays a) l (ac_replicators a) (ac_opened a) (ac_next_shard_replicator_id a)
    (ac_shard_to_replicator a).
Definition set_replicators (l : list PfReplicator) (a : PfAfsAppContext) : PfAfsAppContext :=
  mkApp (ac_store_id a) (ac_trays a) (ac_disps a) l (ac_opened a) (ac_next_shard_replicator_id a)
    (ac_shard_to_replicator a).
Definition set_ac_opened (m : gmap Z PfVolume) (a : PfAfsAppContext) : PfAfsAppContext :=
  mkApp (ac_store_id a) (ac_trays a) (ac_disps a) (ac_replicators a) m (ac_next_shard_replicator_id a)
    (ac_shard_to_replicator a).
Definition set_next_replicator (n : Z) (a : PfAfsAppContext) : PfAfsAppContext :=
  mkApp (ac_store_id a) (ac_trays a) (ac_disps a) (ac_replicators a) (ac_opened a) n (ac_shard_to_replicator a).

(** [get_ssd_index] *)
Fixpoint ssd_index_from (l : list string) (uuid : string) (i : Z) : Z :=
  match l with
  | [] => -1
  | u :: l => if String.eqb uuid u then i else ssd_index_from l uuid (i + 1)
  end.

Definition get_ssd_index (uuid : string) (a : PfAfsAppContext) : Z := ssd_index_from (ac_trays a) uuid 0.

(** [get_opened_volume] *)
Definition get_opened_volume (vol_id : Z) (a : PfAfsAppContext) : option PfVolume := ac_opened a !! vol_id.

(** [get_replicator]: the next one in turn *)
Definition get_replicator (a : PfAfsAppContext) : outcome (Z * PfAfsAppContext) :=
  let n := Z.of_nat (length (ac_replicators a)) in
  if n =? 0 then Undef
  else
    let i := Z.rem (ac_next_shard_replicator_id a + 1) n in
    if decide (0 <= i < n) then Done (i, set_next_replicator i a) else Undef.

(** ** Conversion *)
Section Convert.
Variable renv : rep_env.

(** the call on the replicator's thread for a remote replica *)
Definition introduce_peer (r : PfReplica) (ra : ReplicaArg) (rp : PfReplicator) : outcome PfReplicator :=
  let ips := split_string (ra_rep_ports ra) ","%char in
  let ips := ips ++ replicate (2 - length ips) EmptyString in
  let known := match rp_peers rp !! ra_store_id ra with
               | Some p => bool_decide (is_Some (p_conn p))
               | None => false
               end in
  if known then Done rp
  else
    let rp := add_peer (ra_store_id ra) (nth 0 ips EmptyString) (nth 1 ips EmptyString) rp in
    if (r_status r =? HS_OK) || (r_status r =? HS_RECOVERYING) then connect_peer renv (ra_store_id ra) rp
    else Done rp.

(** which replicator a remote replica uses *)
Definition pick_replicator (vol_id : Z) (a : PfAfsAppContext) : outcome (Z * PfAfsAppContext) :=
  if ac_shard_to_replicator a then get_replicator a
  else
    let n := Z.of_nat (length (ac_replicators a)) in
    if n =? 0 then Undef else Done (Z.modulo (Z.shiftr vol_id 24) n, a).

Definition set_duty (j : Z) (primary : bool) (s : PfShard) : PfShard :=
  mkShard (s_id s) (s_shard_index s) (s_replicas s) (s_primary_replica_index s) j
    (if primary then true else s_is_primary_node s) (s_rep_count s) (s_snap_seq s) (s_status s).

(** the body of the inner loop for replica [j]; [inl tt] is the exception for
    an unknown disk *)
Definition convert_replica (vol_id : Z) (sa : ShardArg) (j : Z) (ra : ReplicaArg) (s : PfShard)
    (a : PfAfsAppContext) : outcome ((unit + PfShard) * PfAfsAppContext) :=
  let* skip := (if ac_shard_to_replicator a then
                  let* p := of_option (arr_get (sa_replicas sa) (s_primary_replica_index s)) in
                  Done (negb (ac_store_id a =? ra_store_id p) && negb (ac_store_id a =? ra_store_id ra))
                else Done false) in
  if skip : bool then Done (inr s, a)
  else
    let is_local := ra_store_id ra =? ac_store_id a in
    let is_primary := ra_index ra =? s_primary_replica_index s in
    if ra_id ra =? 0 then Fatal
    else
      let status := health_status_from_str (ra_status ra) in
      if is_local then
        let ssd := get_ssd_index (ra_tray_uuid ra) a in
        let r := mkReplica status (ra_id ra) (ra_store_id ra) true is_primary (ra_index ra) ssd 0 in
        let* l := store_at (s_replicas s) j (Some r) in
        if ssd =? -1 then Done (inl tt, a)
        else Done (inr (set_duty j is_primary (set_replicas l s)), a)
      else
        let* (i, a) := pick_replicator vol_id a in
        let r := mkReplica status (ra_id ra) (ra_store_id ra) false is_primary (ra_index ra) (-1) i in
        let* l := store_at (s_replicas s) j (Some r) in
        let* rp := of_option (arr_get (ac_replicators a) i) in
        let* rp := introduce_peer r ra rp in
        let* rps := store_at (ac_replicators a) i rp in
        Done (inr (set_replicas l s), set_replicators rps a).

Fixpoint convert_replicas (vol_id : Z) (sa : ShardArg) (j : Z) (ras : list ReplicaArg) (s : PfShard)
    (a : PfAfsAppContext) : outcome ((unit + PfShard) * PfAfsAppContext) :=
  match ras with
  | [] => Done (inr s, a)
  | ra :: ras =>
      let* (r, a) := convert_replica vol_id sa j ra s a in
      match r with
      | inl _ => Done (inl tt, a)
      | inr s => convert_replicas vol_id sa (j + 1) ras s a
      end
  end.

(** the outer loop over the shards [i], [i+1], ... *)
Fixpoint convert_shards (arg : PrepareVolumeArg) (n : nat) (i : Z) (a : PfAfsAppContext)
    : outcome ((unit + list PfShard) * PfAfsAppContext) :=
  match n with
  | O => Done (inr [], a)
  | S n =>
      let* sa := of_option (arr_get (va_shards arg) i) in
      if negb (sa_index sa =? i) then Fatal
      else
        let s := mkShard (u64 (Z.lor (va_volume_id arg) (Z.shiftl (sa_index sa) 4))) (sa_index sa)
                   (replicate (Z.to_nat MAX_REP_COUNT) None) (sa_primary_rep_index sa) 0 false
                   (va_rep_count arg) (va_snap_seq arg) (health_status_from_str (sa_status sa)) in
        let* (r, a) := convert_replicas (va_volume_id arg) sa 0 (sa_replicas sa) s a in
        match r with
        | inl _ => Done (inl tt, a)
        | inr s =>
            let* (r, a) := convert_shards arg n (i + 1) a in
            match r with
            | inl _ => Done (inl tt, a)
            | inr l => Done (inr (s :: l), a)
            end
        end
  end.

Definition convert_argument_to_volume (arg : PrepareVolumeArg) (a : PfAfsAppContext)
    : outcome ((unit + PfVolume) * PfAfsAppContext) :=
  let* (r, a) := convert_shards arg (Z.to_nat (va_shard_count arg)) 0 a in
  match r with
  | inl _ => Done (inl tt, a)
  | inr l =>
      Done (inr (mkVolume (va_volume_name arg) (va_volume_id arg) (va_volume_size arg) (va_rep_count arg)
                   (va_shard_count arg) (Some <$> l) (va_snap_seq arg) (health_status_from_str (va_status arg))
                   (va_meta_ver arg)), a)
  end.

(** ** Handlers *)

(** the loop of [handle_prepare_volume] and [handle_prepare_shards] over the
    dispatchers: each gets a volume of its own, passed to [f] on its thread;
    [done] are those already handled *)
Fixpoint convert_on (f : PfVolume -> PfDispatcher -> outcome (Z * PfDispatcher)) (arg : PrepareVolumeArg)
    (ds done : list PfDispatcher) (a : PfAfsAppContext) : outcome (bool * PfAfsAppContext) :=
  match ds with
  | [] => Done (true, set_disps done a)
  | d :: ds =>
      let* (r, a) := convert_argument_to_volume arg a in
      match r with
      | inl _ => Done (false, set_disps (done ++ d :: ds) a)
      | inr vol =>
          let* (rc, d) := f vol d in
          if negb (rc =? 0) then Fatal else convert_on f arg ds (done ++ [d]) a
      end
  end.

Definition prepare_on : PrepareVolumeArg -> list PfDispatcher -> list PfDispatcher -> PfAfsAppContext ->
    outcome (bool * PfAfsAppContext) :=
  convert_on (fun vol d => let* (rc, _, d) := prepare_volume vol d in Done (rc, d)).

Definition handle_prepare_volume (arg : PrepareVolumeArg) (a : PfAfsAppContext) : outcome (Z * PfAfsAppContext) :=
  let* (ok, a) := prepare_on arg (ac_disps a) [] a in
  if negb ok then Done (INVALID_ARG, a)
  else
    let* (r, a) := convert_argument_to_volume arg a in
    match r with
    | inl _ => Done (INVALID_ARG, a)
    | inr vol =>
        match ac_opened a !! v_id vol with
        | None => Done (RestfulReply_OK, set_ac_opened (<[v_id vol := vol]> (ac_opened a)) a)
        | Some old =>
            let* (v, _) := move_assign old vol in
            Done (RestfulReply_OK, set_ac_opened (<[v_id vol := v]> (ac_opened a)) a)
        end
    end.

(** a call on every dispatcher in turn, with the last code that is not 0 *)
Fixpoint on_disps (f : PfDispatcher -> outcome (Z * PfDispatcher)) (ds : list PfDispatcher) (rc : Z)
    : outcome (Z * list PfDispatcher) :=
  match ds with
  | [] => Done (rc, [])
  | d :: ds =>
      let* (r, d) := f d in
      let* (rc, ds) := on_disps f ds (if r =? 0 then rc else r) in
      Done (rc, d :: ds)
  end.

Definition handle_delete_volume (vol_id : Z) (a : PfAfsAppContext) : outcome (Z * PfAfsAppContext) :=
  let* (_, ds) := on_disps (fun d => let* (rc, d) := delete_volume vol_id d in
                                    if negb (rc =? 0) then Fatal else Done (rc, d)) (ac_disps a) 0 in
  Done (RestfulReply_OK, set_disps ds a).

Definition handle_set_snap_seq (vol_id snap_seq : Z) (a : PfAfsAppContext) : outcome (Z * PfAfsAppContext) :=
  let* (_, ds) := on_disps (fun d => Done (0, set_snap_seq vol_id snap_seq d)) (ac_disps a) 0 in
  Done (RestfulReply_OK, set_disps ds a).

Definition handle_set_meta_ver (vol_id meta_ver : Z) (a : PfAfsAppContext) : outcome (Z * PfAfsAppContext) :=
  let* (failed, ds) := on_disps (fun d => Done (set_meta_ver vol_id meta_ver d)) (ac_disps a) 0 in
  Done (failed, set_disps ds a).

(** [v->shards[si]->replicas[k]->status = st] *)
Definition set_replica_status (si k st : Z) (v : PfVolume) : outcome PfVolume :=
  let* s := deref (v_shards v) si in
  let* r := deref (s_replicas s) k in
  let* l := store_at (s_replicas s) k (Some (set_r_status st r)) in
  let* shards := store_at (v_shards v) si (Some (set_replicas l s)) in
  Done (set_shards shards v).

(** the lambda of [handle_begin_recovery] and [handle_end_recovery]: set the
    status of a replica; [rep_index] < 0 means the index in the id *)
Definition mark_replica (rep_id rep_index st : Z) (d : PfDispatcher) : outcome (Z * PfDispatcher) :=
  match d_opened d !! VOLUME_ID rep_id with
  | None => Done (INVALID_STATE, d)
  | Some v =>
      let si := SHARD_INDEX rep_id in
      let set k :=
        let* v := set_replica_status si k st v in
        Done (0, set_opened (<[VOLUME_ID rep_id := v]> (d_opened d)) d) in
      if 0 <=? rep_index then
        if MAX_REP_COUNT <=? rep_index then Done (INTERNAL_ERROR, d)
        else
          let* s := deref (v_shards v) si in
          let* r := of_option (arr_get (s_replicas s) rep_index) in
          match r with
          | None => Done (INTERNAL_ERROR, d)
          | Some _ => set (i32 rep_index)
          end
      else set (REPLICA_INDEX rep_id)
  end.

Definition handle_begin_recovery (rep_id rep_index : Z) (a : PfAfsAppContext) : outcome (Z * PfAfsAppContext) :=
  let* (rc, ds) := on_disps (mark_replica rep_id rep_index HS_RECOVERYING) (ac_disps a) 0 in
  Done (rc, set_disps ds a).

(** only a volume that is not open is reported *)
Definition handle_end_recovery (rep_id rep_index : Z) (ok : bool) (a : PfAfsAppContext)
    : outcome (Z * PfAfsAppContext) :=
  let* (rc, ds) := on_disps (fun d => let* (rc, d) := mark_replica rep_id rep_index (if ok then HS_OK else HS_ERROR) d in
                                      Done (if rc =? INVALID_STATE then rc else 0, d)) (ac_disps a) 0 in
  Done (rc, set_disps ds a).

Definition prepare_shards_on : PrepareVolumeArg -> list PfDispatcher -> list PfDispatcher -> PfAfsAppContext ->
    outcome (bool * PfAfsAppContext) := convert_on prepare_shards.

Definition handle_prepare_shards (arg : PrepareVolumeArg) (a : PfAfsAppContext) : outcome (Z * PfAfsAppContext) :=
  let* (r, a) := convert_argument_to_volume arg a in
  match r with
  | inl _ => Done (INVALID_ARG, a)
  | inr vol =>
      match ac_opened a !! v_id vol with
      | None => Done (INVALID_STATE, a)
      | Some old_v =>
          if negb (v_meta_ver old_v =? v_meta_ver vol) && negb (v_meta_ver old_v =? u64 (v_meta_ver vol - 1))
          then Done (INVALID_STATE, a)
          else
            let* l := replace_shards (v_shards vol) (v_shards old_v) in
            let a := set_ac_opened (<[v_id vol := set_shards l (set_v_meta_ver (v_meta_ver vol) old_v)]> (ac_opened a)) a in
            let* (ok, a) := prepare_shards_on arg (ac_disps a) [] a in
            Done (if ok : bool then RestfulReply_OK else INVALID_ARG, a)
      end
  end.
End Convert.
