(* ===== verification/AppProps.v ===== *)
(** * The tables of volumes stay consistent

    Whatever sequence of management requests a node handles, all its
    dispatchers have the same table of opened volumes, and every volume in a
    table is well formed ([vol_wf]): a request routed by any of them finds a
    shard at the index its offset computes.

    The conversion of a description is compared with [pure_volume], which
    computes the same volume from the configuration alone: the connections of
    the replicators, which the conversion changes, do not influence it. *)

From Stdlib Require Import ZArith Lia String Ascii.
From stdpp Require Import base tactics list numbers sets gmap strings relations.
From S2P Require Import Prelude FixedQueue MemPool Ids Volume Connection Dispatcher Replicator Utils AppVolumes.

(** ** The conversion *)
Record config : Type := mkConfig {
  cf_store_id : Z;
  cf_trays : list string;
  cf_replicators : nat
}.

Definition config_of (a : PfAfsAppContext) : config :=
  mkConfig (ac_store_id a) (ac_trays a) (length (ac_replicators a)).

Definition pure_replica (cf : config) (vol_id j : Z) (ra : ReplicaArg) (s : PfShard) : unit + PfShard :=
  let is_primary := ra_index ra =? s_primary_replica_index s in
  let status := health_status_from_str (ra_status ra) in
  let put r := <[Z.to_nat j := Some r]> (s_replicas s) in
  if ra_store_id ra =? cf_store_id cf then
    let ssd := ssd_index_from (cf_trays cf) (ra_tray_uuid ra) 0 in
    if ssd =? -1 then inl tt
    else inr (set_duty j is_primary
      (set_replicas (put (mkReplica status (ra_id ra) (ra_store_id ra) true is_primary (ra_index ra) ssd 0)) s))
  else inr (set_replicas (put (mkReplica status (ra_id ra) (ra_store_id ra) false is_primary (ra_index ra) (-1)
                                 (Z.modulo (Z.shiftr vol_id 24) (Z.of_nat (cf_replicators cf))))) s).

Fixpoint pure_replicas (cf : config) (vol_id j : Z) (ras : list ReplicaArg) (s : PfShard) : unit + PfShard :=
  match ras with
  | [] => inr s
  | ra :: ras => match pure_replica cf vol_id j ra s with
                 | inl _ => inl tt
                 | inr s => pure_replicas cf vol_id (j + 1) ras s
                 end
  end.

Definition new_shard (arg : PrepareVolumeArg) (sa : ShardArg) : PfShard :=
  mkShard (u64 (Z.lor (va_volume_id arg) (Z.shiftl (sa_index sa) 4))) (sa_index sa)
    (replicate (Z.to_nat MAX_REP_COUNT) None) (sa_primary_rep_index sa) 0 false
    (va_rep_count arg) (va_snap_seq arg) (health_status_from_str (sa_status sa)).

Fixpoint pure_shards (cf : config) (arg : PrepareVolumeArg) (sas : list ShardArg) : unit + list PfShard :=
  match sas with
  | [] => inr []
  | sa :: sas =>
      match pure_replicas cf (va_volume_id arg) 0 (sa_replicas sa) (new_shard arg sa) with
      | inl _ => inl tt
      | inr s => match pure_shards cf arg sas with inl _ => inl tt | inr l => inr (s :: l) end
      end
  end.

Definition volume_with (arg : PrepareVolumeArg) (l : list PfShard) : PfVolume :=
  mkVolume (va_volume_name arg) (va_volume_id arg) (va_volume_size arg) (va_rep_count arg)
    (va_shard_count arg) (Some <$> l) (va_snap_seq arg) (health_status_from_str (va_status arg)) (va_meta_ver arg).

Definition pure_volume (cf : config) (arg : PrepareVolumeArg) : unit + PfVolume :=
  match pure_shards cf arg (take (Z.to_nat (va_shard_count arg)) (va_shards arg)) with
  | inl _ => inl tt
  | inr l => inr (volume_with arg l)
  end.

Lemma store_at_Done {A} (l : list A) i x l' :
  store_at l i x = Done l' -> 0 <= i /\ (Z.to_nat i < length l)%nat /\ l' = <[Z.to_nat i := x]> l.
Proof. unfold store_at, arr_set. case_decide; [|done]. intros [= <-]. splits; [lia|lia|done]. Qed.

Lemma deref_Done {A} (l : list (option A)) i x :
  deref l i = Done x -> 0 <= i /\ l !! Z.to_nat i = Some (Some x).
Proof.
  unfold deref, arr_get. case_decide; [|done]. destruct (l !! Z.to_nat i) as [[y|]|]; try done.
  intros [= ->]. split; [lia|done].
Qed.

(** the conversion changes replicators only *)
Record same_tables (a a' : PfAfsAppContext) : Prop := mkSameTables {
  st_config : config_of a' = config_of a;
  st_disps : ac_disps a' = ac_disps a;
  st_opened : ac_opened a' = ac_opened a;
  st_mode : ac_shard_to_replicator a' = ac_shard_to_replicator a
}.

Lemma same_tables_refl a : same_tables a a.
Proof. by split. Qed.

Lemma same_tables_trans a b c : same_tables a b -> same_tables b c -> same_tables a c.
Proof. intros [] []. split; congruence. Qed.

Section Convert.
Variable renv : rep_env.

Lemma convert_replica_pure vol_id sa j ra s a r a' :
  ac_shard_to_replicator a = false ->
  convert_replica renv vol_id sa j ra s a = Done (r, a') ->
  same_tables a a' /\ r = pure_replica (config_of a) vol_id j ra s /\ 0 <= j.
Proof.
  intros Hm. unfold convert_replica, pure_replica, get_ssd_index. rewrite Hm. cbn [obind].
  destruct (ra_id ra =? 0); [done|]. cbn [cf_store_id cf_trays cf_replicators config_of].
  destruct (ra_store_id ra =? ac_store_id a).
  - intros H. inv_done. apply store_at_Done in E as (Hj & _ & ->).
    destruct (ssd_index_from _ _ _ =? -1); injection H as <- <-; (splits; [apply same_tables_refl|done|lia]).
  - unfold pick_replicator. rewrite Hm. destruct (Z.of_nat (length (ac_replicators a)) =? 0); [done|]. cbn [obind].
    intros H. inv_done. apply store_at_Done in E as (Hj & _ & ->). apply store_at_Done in E2 as (_ & _ & ->).
    splits; [|done|lia]. split; try done. unfold config_of. cbn. by rewrite length_insert.
Qed.

Lemma convert_replicas_pure vol_id sa j ras s a r a' :
  ac_shard_to_replicator a = false ->
  convert_replicas renv vol_id sa j ras s a = Done (r, a') ->
  same_tables a a' /\ r = pure_replicas (config_of a) vol_id j ras s.
Proof.
  revert j s a. induction ras as [|ra ras IH]; intros j s a Hm; cbn [convert_replicas pure_replicas].
  { intros [= <- <-]. split; [apply same_tables_refl|done]. }
  destruct (convert_replica renv vol_id sa j ra s a) as [[r1 a1]| |] eqn:E; [|done..]. cbn [obind].
  destruct (convert_replica_pure _ _ _ _ _ _ _ _ Hm E) as (Hs & -> & _).
  destruct (pure_replica _ _ _ _ _) as [|s1]; [intros [= <- <-]; done|].
  intros H. apply IH in H as [Hs2 ->]; [|rewrite (st_mode _ _ Hs); done].
  split; [by eapply same_tables_trans|]. by rewrite (st_config _ _ Hs).
Qed.

Lemma convert_shards_pure arg n i a r a' :
  ac_shard_to_replicator a = false -> 0 <= i ->
  convert_shards renv arg n i a = Done (r, a') ->
  same_tables a a' /\ r = pure_shards (config_of a) arg (take n (drop (Z.to_nat i) (va_shards arg))).
Proof.
  revert i a r a'. induction n as [|n IH]; intros i a r a' Hm Hi; cbn [convert_shards].
  { rewrite take_0. intros [= <- <-]. split; [apply same_tables_refl|done]. }
  destruct (arr_get (va_shards arg) i) as [sa|] eqn:Ea; [|done]. cbn [of_option obind].
  destruct (negb (sa_index sa =? i)); [done|]. fold (new_shard arg sa).
  destruct (convert_replicas _ _ _ _ _ _ _) as [[r1 a1]| |] eqn:E; [|done..]. cbn [obind].
  destruct (convert_replicas_pure _ _ _ _ _ _ _ _ Hm E) as (Hs & ->).
  rewrite arr_get_lookup in Ea by lia. rewrite (drop_S _ _ _ Ea). cbn [take pure_shards].
  destruct (pure_replicas _ _ _ _ _) as [|s1]; [intros [= <- <-]; done|].
  destruct (convert_shards renv arg n (i + 1) a1) as [[r2 a2]| |] eqn:E2; [|done..]. cbn [obind].
  apply IH in E2 as [Hs2 ->]; [|rewrite (st_mode _ _ Hs); done|lia].
  rewrite (st_config _ _ Hs). replace (Z.to_nat (i + 1)) with (S (Z.to_nat i)) by lia.
  destruct (pure_shards _ _ _); intros [= <- <-]; (split; [by eapply same_tables_trans|done]).
Qed.

Lemma convert_pure arg a r a' :
  ac_shard_to_replicator a = false ->
  convert_argument_to_volume renv arg a = Done (r, a') ->
  same_tables a a' /\ r = pure_volume (config_of a) arg.
Proof.
  intros Hm. unfold convert_argument_to_volume, pure_volume.
  destruct (convert_shards _ _ _ _ _) as [[r1 a1]| |] eqn:E; [|done..]. cbn [obind].
  apply convert_shards_pure in E as [Hs ->]; [|done|lia]. rewrite drop_0.
  destruct (pure_shards _ _ _); intros [= <- <-]; done.
Qed.

(** every shard of the result has the index of its place *)
Lemma convert_shards_index arg n i a l a' :
  0 <= i -> convert_shards renv arg n i a = Done (inr l, a') ->
  length l = n /\ forall k, (k < n)%nat -> exists sa, va_shards arg !! (Z.to_nat i + k)%nat = Some sa
                                              /\ sa_index sa = i + Z.of_nat k.
Proof.
  revert i a l a'. induction n as [|n IH]; intros i a l a' Hi; cbn [convert_shards].
  { intros [= <- <-]. split; [done|]. lia. }
  destruct (arr_get (va_shards arg) i) as [sa|] eqn:Ea; [|done]. cbn [of_option obind].
  destruct (Z.eqb_spec (sa_index sa) i) as [Hx|]; [|done]. cbn [negb].
  destruct (convert_replicas _ _ _ _ _ _ _) as [[[|s1] a1]| |]; [done| |done..]. cbn [obind].
  destruct (convert_shards renv arg n (i + 1) a1) as [[[|l2] a2]| |] eqn:E2; [done| |done..]. cbn [obind].
  intros [= <- <-]. apply IH in E2 as [Hl Hk]; [|lia]. split; [by cbn; rewrite Hl|].
  rewrite arr_get_lookup in Ea by lia. intros [|k] Hkn.
  - exists sa. rewrite Nat.add_0_r. split; [done|lia].
  - destruct (Hk k) as (sb & Hsb & Hib); [lia|]. exists sb. split; [|lia]. rewrite <- Hsb. f_equal. lia.
Qed.
End Convert.

(** ** Well-formed volumes *)
Definition shard_wf (i : Z) (s : PfShard) : Prop :=
  s_shard_index s = i /\ Z.of_nat (length (s_replicas s)) = MAX_REP_COUNT.

Definition shards_wf (l : list (option PfShard)) : Prop :=
  forall (k : nat) o, l !! k = Some o -> exists s, o = Some s /\ shard_wf (Z.of_nat k) s.

Record vol_wf (key : Z) (v : PfVolume) : Prop := mkVolWf {
  vw_id : v_id v = key;
  vw_count : v_shard_count v <= Z.of_nat (length (v_shards v));
  vw_shards : shards_wf (v_shards v)
}.

Definition table_wf (m : gmap Z PfVolume) : Prop := forall k v, m !! k = Some v -> vol_wf k v.

Lemma pure_replicas_wf cf vol_id j ras s s' :
  pure_replicas cf vol_id j ras s = inr s' ->
  s_shard_index s' = s_shard_index s /\ length (s_replicas s') = length (s_replicas s).
Proof.
  revert j s. induction ras as [|ra ras IH]; intros j s; cbn [pure_replicas]; [by intros [= <-]|].
  destruct (pure_replica cf vol_id j ra s) as [|s1] eqn:E; [done|]. intros H. apply IH in H as [-> ->].
  unfold pure_replica in E.
  destruct (_ =? _); [destruct (_ =? -1); [done|]|]; injection E as <-; cbn; by rewrite length_insert.
Qed.

Lemma pure_shards_wf cf arg sas l :
  pure_shards cf arg sas = inr l ->
  length l = length sas /\ forall k s sa, l !! k = Some s -> sas !! k = Some sa -> shard_wf (sa_index sa) s.
Proof.
  revert l. induction sas as [|sa sas IH]; intros l; cbn [pure_shards]; [by intros [= <-]|].
  destruct (pure_replicas _ _ _ _ _) as [|s] eqn:E; [done|]. destruct (pure_shards cf arg sas) as [|l'] eqn:E'; [done|].
  intros [= <-]. destruct (IH l' eq_refl) as [Hl Hk]. split; [by cbn; rewrite Hl|].
  apply pure_replicas_wf in E as [E1 E2]. intros [|k] s0 sa0; cbn; [|by apply Hk].
  intros [= <-] [= <-]. split; [done|]. rewrite E2. done.
Qed.

(** the volume a successful conversion returns *)
Lemma convert_wf renv arg a vol a' :
  ac_shard_to_replicator a = false ->
  convert_argument_to_volume renv arg a = Done (inr vol, a') ->
  vol_wf (va_volume_id arg) vol /\ length (v_shards vol) = Z.to_nat (v_shard_count vol) /\ v_id vol = va_volume_id arg.
Proof.
  intros Hm. unfold convert_argument_to_volume.
  destruct (convert_shards _ _ _ _ _) as [[[|l] a1]| |] eqn:E; [done| |done..]. cbn [obind]. intros [= <- <-].
  destruct (convert_shards_index _ _ _ _ _ _ _ (Z.le_refl 0) E) as [Hl Hk].
  apply convert_shards_pure in E as [_ E]; [|done|lia]. symmetry in E. rewrite drop_0 in E.
  apply pure_shards_wf in E as [Hl2 Hs]. cbn. rewrite length_fmap. splits; [|done|done].
  split; cbn; [done|rewrite length_fmap; lia|].
  intros k o Ho. rewrite list_lookup_fmap in Ho. destruct (l !! k) as [s|] eqn:Ek; [|done]. injection Ho as <-.
  exists s. split; [done|]. pose proof (lookup_lt_Some _ _ _ Ek).
  destruct (Hk k) as (sa & Hsa & Hx); [lia|]. rewrite <- (Z.add_0_l (Z.of_nat k)), <- Hx. apply (Hs k s sa Ek).
  rewrite lookup_take_lt by lia. exact Hsa.
Qed.

(** ** The operations on a table *)
Lemma shards_wf_insert l (i : nat) s :
  shards_wf l -> shard_wf (Z.of_nat i) s -> shards_wf (<[i := Some s]> l).
Proof.
  intros Hl Hs k o. rewrite list_lookup_insert_Some. intros [(<- & <- & _)|[_ Hk]]; [by exists s|by apply Hl].
Qed.

Lemma table_wf_insert m k v : table_wf m -> vol_wf k v -> table_wf (<[k := v]> m).
Proof. intros Hm Hv k' v'. rewrite lookup_insert_Some. intros [[<- <-]|[_ H]]; [done|by apply Hm]. Qed.

Lemma keep_recovering_wf n j s ns i t :
  keep_recovering n j s (Some ns) = Done t -> shard_wf i ns -> exists t', t = Some t' /\ shard_wf i t'.
Proof.
  revert j ns. induction n as [|n IH]; intros j ns; cbn [keep_recovering]; [intros [= <-]; by exists ns|].
  destruct (arr_get (s_replicas s) j) as [[r|]|]; cbn [of_option obind]; [|apply IH|done].
  destruct (r_status r =? HS_RECOVERYING); [|apply IH]. cbn [of_option obind].
  destruct (deref _ _) as [nr| |]; cbn [obind]; [|done..]. destruct (r_status nr =? HS_ERROR); [|apply IH].
  destruct (store_at _ _ _) as [l| |] eqn:El; cbn [obind]; [|done..]. apply store_at_Done in El as (_ & _ & ->).
  intros H [H1 H2]. apply (IH _ _ H). split; cbn; [done|by rewrite length_insert].
Qed.

Lemma move_shards_wf n (i : nat) old nw old' nw' :
  move_shards n (Z.of_nat i) old nw = Done (old', nw') -> shards_wf old ->
  (forall k o, (i <= k)%nat -> nw !! k = Some o -> exists s, o = Some s /\ shard_wf (Z.of_nat k) s) ->
  shards_wf old' /\ length old' = length old /\ length nw' = length nw /\ (n = 0 \/ i + n <= length old)%nat.
Proof.
  revert i old nw. induction n as [|n IH]; intros i old nw; cbn [move_shards].
  { intros [= <- <-] ? _. splits; auto. }
  intros H Ho Hn. inv_done. destruct (arr_get nw (Z.of_nat i)) as [ns|] eqn:En; [|done]. inv_done.
  rewrite arr_get_nat in En. injection E0 as <-. destruct (Hn i ns ltac:(lia) En) as (ns' & -> & Hns).
  destruct (keep_recovering_wf _ _ _ _ _ _ E1 Hns) as (t & -> & Ht).
  apply store_at_Done in E2 as (_ & Hlt & ->). apply store_at_Done in E3 as (_ & _ & ->).
  rewrite Nat2Z.id in *. replace (Z.of_nat i + 1) with (Z.of_nat (S i)) in H by lia.
  apply IH in H as (H1 & H2 & H3 & H4).
  - rewrite length_insert in *. splits; [done|done|done|lia].
  - by apply shards_wf_insert.
  - intros k o Hk. rewrite list_lookup_insert_ne by lia. apply Hn. lia.
Qed.

Definition exact_shards (v : PfVolume) : Prop := length (v_shards v) = Z.to_nat (v_shard_count v).

Lemma move_assign_wf key this vol v rest :
  move_assign this vol = Done (v, rest) -> vol_wf key this -> vol_wf key vol -> exact_shards vol -> vol_wf key v.
Proof.
  unfold move_assign. intros H [H1 H2 H3] [H4 H5 H6] He. unfold exact_shards in He.
  destruct (move_shards _ _ _ _) as [[o n]| |] eqn:E; [|done..]. cbn [obind] in H. injection H as <- <-.
  apply (move_shards_wf _ 0) in E as (E1 & E2 & E3 & E4); [|done|intros k o' _; apply H6].
  rewrite drop_ge by lia. rewrite app_nil_r. split; cbn; [done|lia|done].
Qed.

(** [prepare_volume] as an operation on the table *)
Definition prepare_table (vol : PfVolume) (m : gmap Z PfVolume) : outcome (gmap Z PfVolume) :=
  match m !! v_id vol with
  | Some old => if v_meta_ver vol <=? v_meta_ver old then Done m
                else let* (v, _) := move_assign old vol in Done (<[v_id vol := v]> m)
  | None => Done (<[v_id vol := vol]> m)
  end.

Lemma set_opened_same d : set_opened (d_opened d) d = d.
Proof. by destruct d. Qed.

Lemma prepare_volume_table vol d rc rest d' :
  prepare_volume vol d = Done (rc, rest, d') ->
  exists m', prepare_table vol (d_opened d) = Done m' /\ d' = set_opened m' d.
Proof.
  unfold prepare_volume, prepare_table. destruct (d_opened d !! v_id vol) as [old|].
  - destruct (_ <=? _); [intros [= <- <- <-]; exists (d_opened d); by rewrite set_opened_same|].
    destruct (move_assign old vol) as [[v r]| |]; cbn [obind]; [|done..]. intros [= <- <- <-]. eauto.
  - intros [= <- <- <-]. eauto.
Qed.

Lemma prepare_table_wf vol m m' :
  prepare_table vol m = Done m' -> table_wf m -> vol_wf (v_id vol) vol -> exact_shards vol -> table_wf m'.
Proof.
  unfold prepare_table. intros H Hm Hv He. destruct (m !! v_id vol) as [old|] eqn:Eo.
  - destruct (_ <=? _); [by injection H as <-|]. destruct (move_assign old vol) as [[v r]| |] eqn:E; [|done..].
    cbn [obind] in H. injection H as <-. apply table_wf_insert; [done|].
    by apply (move_assign_wf _ _ _ _ _ E); [apply Hm|..].
  - injection H as <-. by apply table_wf_insert.
Qed.

Lemma replace_shards_wf nw old l :
  replace_shards nw old = Done l ->
  Forall (fun o => exists s i, o = Some s /\ shard_wf i s) nw -> shards_wf old ->
  shards_wf l /\ length l = length old.
Proof.
  revert old. induction nw as [|o nw IH]; intros old; cbn [replace_shards]; [by intros [= <-]|].
  intros H [(s & i & -> & Hs) Hn]%Forall_cons Ho. cbn [of_option obind] in H.
  destruct (store_at _ _ _) as [l1| |] eqn:E; [|done..]. cbn [obind] in H.
  apply store_at_Done in E as (H0 & _ & ->). apply IH in H as [H1 H2]; [by rewrite length_insert in H2|done|].
  apply shards_wf_insert; [done|]. destruct Hs as [Hi Hl]. split; [lia|done].
Qed.

Lemma shards_wf_Forall l : shards_wf l -> Forall (fun o => exists s i, o = Some s /\ shard_wf i s) l.
Proof. intros H. apply Forall_lookup. intros k o Hk. destruct (H k o Hk) as (s & -> & Hs). eauto. Qed.

(** the update [prepare_shards] and [handle_prepare_shards] make *)
Lemma replaced_wf key vol old l :
  replace_shards (v_shards vol) (v_shards old) = Done l -> vol_wf key vol -> vol_wf key old ->
  vol_wf key (set_shards l (set_v_meta_ver (v_meta_ver vol) old)).
Proof.
  intros E [_ _ Hv] [H1 H2 H3]. apply replace_shards_wf in E as [E1 E2]; [|by apply shards_wf_Forall|done].
  split; cbn; [done|by rewrite E2|done].
Qed.

(** ** The handlers *)
Definition agreed (ds : list PfDispatcher) : Prop :=
  exists m, Forall (fun d => d_opened d = m) ds /\ table_wf m.

Record app_ok (a : PfAfsAppContext) : Prop := mkAppOk {
  ao_mode : ac_shard_to_replicator a = false;
  ao_disps : agreed (ac_disps a);
  ao_opened : table_wf (ac_opened a)
}.

(** [f] looks at the table only and changes nothing else *)
Definition table_op (f : PfDispatcher -> outcome (Z * PfDispatcher))
    (g : gmap Z PfVolume -> outcome (Z * gmap Z PfVolume)) : Prop :=
  forall d, f d = let* (rc, m) := g (d_opened d) in Done (rc, set_opened m d).

Lemma on_disps_same f g ds m rc rc' ds' :
  table_op f g -> Forall (fun d => d_opened d = m) ds -> on_disps f ds rc = Done (rc', ds') ->
  ds' = [] \/ exists r m', g m = Done (r, m') /\ Forall (fun d => d_opened d = m') ds'.
Proof.
  intros Hf. revert rc ds'. induction ds as [|d ds IH]; intros rc ds' Hd; cbn [on_disps].
  { intros [= <- <-]. by left. }
  apply Forall_cons in Hd as [Hd Hds]. rewrite Hf, Hd. destruct (g m) as [[r m']| |] eqn:Eg; [|done..]. cbn [obind].
  destruct (on_disps f ds _) as [[rc2 ds2]| |] eqn:E; [|done..]. cbn [obind]. intros [= <- <-]. right.
  exists r, m'. split; [done|]. constructor; [done|]. destruct (IH _ _ Hds E) as [->|(r2 & m2 & Hg & H2)]; [done|].
  by injection Hg as _ <-.
Qed.

Lemma on_disps_ok f g ds rc rc' ds' :
  table_op f g -> (forall m r m', table_wf m -> g m = Done (r, m') -> table_wf m') ->
  on_disps f ds rc = Done (rc', ds') -> agreed ds -> agreed ds'.
Proof.
  intros Hf Hg E (m & Hm & Hw). destruct (on_disps_same _ _ _ _ _ _ _ Hf Hm E) as [->|(r & m' & Hr & H)].
  - by exists m.
  - exists m'. split; [done|by eapply Hg].
Qed.

Lemma vol_wf_meta key n v : vol_wf key v -> vol_wf key (set_v_meta_ver n v).
Proof. intros []. by split. Qed.

Lemma vol_wf_snap key n v : vol_wf key v -> vol_wf key (set_v_snap_seq n v).
Proof. intros []. by split. Qed.

(** what the handlers do to a table *)
Definition update_vol (key : Z) (f : PfVolume -> outcome (Z * PfVolume)) (none : Z)
    (m : gmap Z PfVolume) : outcome (Z * gmap Z PfVolume) :=
  match m !! key with
  | None => Done (none, m)
  | Some v => let* (rc, v) := f v in Done (rc, <[key := v]> m)
  end.

Lemma update_vol_wf key f none m r m' :
  (forall v rc v', vol_wf key v -> f v = Done (rc, v') -> vol_wf key v') ->
  table_wf m -> update_vol key f none m = Done (r, m') -> table_wf m'.
Proof.
  unfold update_vol. intros Hf Hm. destruct (m !! key) as [v|] eqn:E; [|by intros [= <- <-]].
  destruct (f v) as [[rc v']| |] eqn:Ef; [|done..]. cbn [obind]. intros [= <- <-].
  apply table_wf_insert; [done|]. by eapply Hf; [apply Hm|].
Qed.

Definition mark_vol (rep_id rep_index st : Z) (v : PfVolume) : outcome (Z * PfVolume) :=
  let si := SHARD_INDEX rep_id in
  let set k := let* v := set_replica_status si k st v in Done (0, v) in
  if 0 <=? rep_index then
    if MAX_REP_COUNT <=? rep_index then Done (INTERNAL_ERROR, v)
    else let* s := deref (v_shards v) si in
         let* r := of_option (arr_get (s_replicas s) rep_index) in
         match r with None => Done (INTERNAL_ERROR, v) | Some _ => set (i32 rep_index) end
  else set (REPLICA_INDEX rep_id).

Lemma set_opened_id d key v : d_opened d !! key = Some v -> set_opened (<[key := v]> (d_opened d)) d = d.
Proof. intros H. by rewrite insert_id, set_opened_same. Qed.

Lemma mark_replica_table rep_id rep_index st :
  table_op (mark_replica rep_id rep_index st)
    (update_vol (VOLUME_ID rep_id) (mark_vol rep_id rep_index st) INVALID_STATE).
Proof.
  intros d. unfold mark_replica, update_vol, mark_vol.
  destruct (d_opened d !! VOLUME_ID rep_id) as [v|] eqn:E; cbn [obind]; [|by rewrite set_opened_same].
  destruct (0 <=? rep_index); [|by destruct (set_replica_status _ _ _ _)].
  destruct (MAX_REP_COUNT <=? rep_index); [cbn [obind]; by rewrite set_opened_id|].
  destruct (deref (v_shards v) _) as [s| |]; cbn [obind]; [|done..].
  destruct (arr_get _ rep_index) as [[r|]|]; cbn [of_option obind]; [|by rewrite set_opened_id|done].
  by destruct (set_replica_status _ _ _ _).
Qed.

Lemma set_replica_status_wf si k st key v v' :
  vol_wf key v -> set_replica_status si k st v = Done v' -> vol_wf key v'.
Proof.
  unfold set_replica_status. intros [H1 H2 H3] H. inv_done. apply deref_Done in E as (H0 & E).
  apply store_at_Done in E1 as (_ & _ & ->). apply store_at_Done in E2 as (_ & _ & ->).
  destruct (H3 _ _ E) as (s & [= ->] & Hi & Hl). split; cbn; [done|by rewrite length_insert|].
  apply shards_wf_insert; [done|]. split; cbn; [done|by rewrite length_insert].
Qed.

Lemma mark_vol_wf rep_id rep_index st key v rc v' :
  vol_wf key v -> mark_vol rep_id rep_index st v = Done (rc, v') -> vol_wf key v'.
Proof.
  intros Hv. unfold mark_vol.
  assert (forall k, (let* v := set_replica_status (SHARD_INDEX rep_id) k st v in Done (0, v)) = Done (rc, v') ->
            vol_wf key v') as Hset.
  { intros k H. inv_done. by eapply set_replica_status_wf. }
  destruct (0 <=? rep_index); [|apply Hset]. destruct (MAX_REP_COUNT <=? rep_index); [by intros [= <- <-]|].
  destruct (deref (v_shards v) _) as [s| |]; cbn [obind]; [|done..].
  destruct (arr_get _ rep_index) as [[r|]|]; cbn [of_option obind]; [apply Hset|by intros [= <- <-]|done].
Qed.

(** the loop with a volume converted for every dispatcher *)
Section Loop.
Variable renv : rep_env.
Variable f : PfVolume -> PfDispatcher -> outcome (Z * PfDispatcher).
Variable g : PfVolume -> gmap Z PfVolume -> outcome (Z * gmap Z PfVolume).
Hypothesis f_table : forall vol, table_op (f vol) (g vol).
Hypothesis g_wf : forall vol m r m', vol_wf (v_id vol) vol -> exact_shards vol -> table_wf m ->
  g vol m = Done (r, m') -> table_wf m'.

Lemma convert_on_same arg m ds : forall done a ok a',
  ac_shard_to_replicator a = false -> Forall (fun d => d_opened d = m) ds ->
  convert_on renv f arg ds done a = Done (ok, a') ->
  ac_opened a' = ac_opened a /\ ac_shard_to_replicator a' = false /\
  exists ds', ac_disps a' = done ++ ds' /\
    (ds' = [] \/ (ds' = ds /\ pure_volume (config_of a) arg = inl tt) \/
     exists vol r m', pure_volume (config_of a) arg = inr vol /\ vol_wf (v_id vol) vol /\ exact_shards vol /\
       g vol m = Done (r, m') /\ Forall (fun d => d_opened d = m') ds').
Proof.
  induction ds as [|d ds IH]; intros done a ok a' Hm Hd; cbn [convert_on].
  { intros [= <- <-]. splits; [done|done|]. exists []. split; [cbn; by rewrite app_nil_r|by left]. }
  apply Forall_cons in Hd as [Hd Hds].
  destruct (convert_argument_to_volume renv arg a) as [[r a1]| |] eqn:Ec; [|done..]. cbn [obind].
  destruct (convert_pure _ _ _ _ _ Hm Ec) as [[S1 S2 S3 S4] Hr].
  destruct r as [[]|vol].
  { intros [= <- <-]. cbn. splits; [done|congruence|]. eexists. split; [done|]. right. by left. }
  destruct (convert_wf _ _ _ _ _ Hm Ec) as (Hw & He & Hid). rewrite <- Hid in Hw.
  rewrite (f_table vol d), Hd. destruct (g vol m) as [[rc m']| |] eqn:Eg; [|done..]. cbn [obind].
  destruct (negb (rc =? 0)); [done|]. intros H. apply IH in H as (H1 & H2 & ds' & H3 & H4); [|congruence|done].
  rewrite S1, <- Hr in H4. splits; [congruence|done|]. exists (set_opened m' d :: ds').
  split; [by rewrite H3, <- app_assoc|]. right. right.
  exists vol, rc, m'. splits; [done|done|done|done|]. constructor; [done|].
  destruct H4 as [->|[[_ ?]|(vol2 & r2 & m2 & [= <-] & _ & _ & Hg & HF)]]; [done|done|].
  rewrite Eg in Hg. by injection Hg as _ <-.
Qed.

Lemma convert_on_ok arg a ok a' :
  convert_on renv f arg (ac_disps a) [] a = Done (ok, a') -> app_ok a ->
  app_ok a' /\ ac_opened a' = ac_opened a.
Proof.
  intros H [Hm (m & Hd & Hw) Ho].
  destruct (convert_on_same _ _ _ _ _ _ _ Hm Hd H) as (H1 & H2 & ds' & H3 & H4). cbn [app] in H3.
  split; [|done]. split; [done| |by rewrite H1]. rewrite H3.
  destruct H4 as [->|[[-> _]|(vol & r & m' & _ & Hv & He & Hg & HF)]]; [by exists m|by exists m|].
  exists m'. split; [done|exact (g_wf vol m r m' Hv He Hw Hg)].
Qed.
End Loop.

Lemma prepare_volume_op vol :
  table_op (fun d => let* (rc, _, d) := prepare_volume vol d in Done (rc, d))
    (fun m => let* m' := prepare_table vol m in Done (0, m')).
Proof.
  intros d. unfold prepare_volume, prepare_table. destruct (d_opened d !! v_id vol) as [old|]; [|done].
  destruct (_ <=? _); [cbn [obind]; by rewrite set_opened_same|]. by destruct (move_assign old vol) as [[v r]| |].
Qed.

Lemma prepare_shards_op vol :
  table_op (prepare_shards vol)
    (update_vol (v_id vol) (fun old => let* l := replace_shards (v_shards vol) (v_shards old) in
                                Done (0, set_shards l (set_v_meta_ver (v_meta_ver vol) old))) (- ENOENT)).
Proof.
  intros d. unfold prepare_shards, update_vol. destruct (d_opened d !! v_id vol) as [old|]; cbn [obind];
    [|by rewrite set_opened_same]. by destruct (replace_shards _ _).
Qed.

Section Handlers.
Variable renv : rep_env.

Lemma handle_prepare_volume_ok arg a rc a' :
  handle_prepare_volume renv arg a = Done (rc, a') -> app_ok a -> app_ok a'.
Proof.
  unfold handle_prepare_volume. intros H Ha. destruct (prepare_on _ _ _ _ _) as [[ok a1]| |] eqn:E; [|done..].
  cbn [obind] in H. apply (convert_on_ok renv _ _ prepare_volume_op) in E as [Ha1 _]; [|clear; intros vol m r m' Hv He Hm E; inv_done; by eapply prepare_table_wf|done].
  destruct (negb ok); [by injection H as <- <-|]. destruct Ha1 as [Hm Hd Ho].
  destruct (convert_argument_to_volume renv arg a1) as [[r a2]| |] eqn:Ec; [|done..]. cbn [obind] in H.
  destruct (convert_pure _ _ _ _ _ Hm Ec) as [[S1 S2 S3 S4] _].
  assert (app_ok a2) as Ha2 by (split; [congruence|by rewrite S2|by rewrite S3]).
  destruct r as [u|vol]; [by injection H as <- <-|].
  destruct (convert_wf _ _ _ _ _ Hm Ec) as (Hw & He & Hid). rewrite <- Hid in Hw. destruct Ha2 as [Hm2 Hd2 Ho2].
  destruct (ac_opened a2 !! v_id vol) as [old|] eqn:El.
  - destruct (move_assign old vol) as [[v rest]| |] eqn:Em; [|done..]. cbn [obind] in H. injection H as <- <-.
    split; [done|done|]. apply table_wf_insert; [done|]. by apply (move_assign_wf _ _ _ _ _ Em); [apply Ho2|..].
  - injection H as <- <-. split; [done|done|]. by apply table_wf_insert.
Qed.

Lemma handle_prepare_shards_ok arg a rc a' :
  handle_prepare_shards renv arg a = Done (rc, a') -> app_ok a -> app_ok a'.
Proof.
  unfold handle_prepare_shards. intros H [Hm Hd Ho].
  destruct (convert_argument_to_volume renv arg a) as [[r a1]| |] eqn:Ec; [|done..]. cbn [obind] in H.
  destruct (convert_pure _ _ _ _ _ Hm Ec) as [[S1 S2 S3 S4] _].
  assert (app_ok a1) as Ha1 by (split; [congruence|by rewrite S2|by rewrite S3]).
  destruct r as [u|vol]; [by injection H as <- <-|].
  destruct (convert_wf _ _ _ _ _ Hm Ec) as (Hw & He & Hid). rewrite <- Hid in Hw.
  destruct (ac_opened a1 !! v_id vol) as [old|] eqn:El; [|by injection H as <- <-].
  destruct (_ && _); [by injection H as <- <-|].
  destruct (replace_shards _ _) as [l| |] eqn:Er; [|done..]. cbn [obind] in H.
  destruct (prepare_shards_on _ _ _ _ _) as [[ok a2]| |] eqn:E; [|done..]. cbn [obind] in H. injection H as <- <-.
  apply (convert_on_ok renv _ _ prepare_shards_op) in E as [Ha2 _]; [done| |].
  - clear. intros vol m r m' Hv He. apply update_vol_wf. clear m r m'. intros v rc v' Hwv E. inv_done.
    by eapply replaced_wf.
  - destruct Ha1 as [? ? Ho1]. split; [done|done|]. apply table_wf_insert; [done|].
    by eapply replaced_wf; [|apply Hw|apply Ho1].
Qed.

Lemma on_disps_app_ok f g a rc rc' ds' :
  table_op f g -> (forall m r m', table_wf m -> g m = Done (r, m') -> table_wf m') ->
  on_disps f (ac_disps a) rc = Done (rc', ds') -> app_ok a -> app_ok (set_disps ds' a).
Proof. intros Hf Hg E [H1 H2 H3]. split; [done|by eapply on_disps_ok|done]. Qed.

(** a handler that runs [f] on every dispatcher and answers with [c] *)
Lemma on_disps_handler (c : Z -> Z) f g a rc a' :
  table_op f g -> (forall m r m', table_wf m -> g m = Done (r, m') -> table_wf m') ->
  (let* (r, ds) := on_disps f (ac_disps a) 0 in Done (c r, set_disps ds a)) = Done (rc, a') -> app_ok a -> app_ok a'.
Proof.
  intros Hf Hg H Ha. destruct (on_disps _ _ _) as [[r ds]| |] eqn:E; [|done..]. cbn [obind] in H. injection H as <- <-.
  by eapply on_disps_app_ok.
Qed.
End Handlers.

(** ** Histories of management requests *)
Section History.
Variable renv : rep_env.

Inductive mgmt_step : PfAfsAppContext -> PfAfsAppContext -> Prop :=
| ms_prepare arg rc a a' : handle_prepare_volume renv arg a = Done (rc, a') -> mgmt_step a a'
| ms_delete vid rc a a' : handle_delete_volume vid a = Done (rc, a') -> mgmt_step a a'
| ms_snap vid n rc a a' : handle_set_snap_seq vid n a = Done (rc, a') -> mgmt_step a a'
| ms_meta vid n rc a a' : handle_set_meta_ver vid n a = Done (rc, a') -> mgmt_step a a'
| ms_begin rid k rc a a' : handle_begin_recovery rid k a = Done (rc, a') -> mgmt_step a a'
| ms_end rid k ok rc a a' : handle_end_recovery rid k ok a = Done (rc, a') -> mgmt_step a a'
| ms_shards arg rc a a' : handle_prepare_shards renv arg a = Done (rc, a') -> mgmt_step a a'.

(** a node that has just started, not in the mode where shards choose
    replicators in turn *)
Definition just_started (a : PfAfsAppContext) : Prop :=
  ac_shard_to_replicator a = false /\ Forall (fun d => d_opened d = ∅) (ac_disps a) /\ ac_opened a = ∅.

Lemma just_started_ok a : just_started a -> app_ok a.
Proof.
  intros (H1 & H2 & H3). assert (table_wf ∅) by (intros k v; by rewrite lookup_empty).
  split; [done|by exists ∅|by rewrite H3].
Qed.

Lemma delete_table vid :
  table_op (fun d => let* (rc, d) := delete_volume vid d in if negb (rc =? 0) then Fatal else Done (rc, d))
    (fun m => if vid =? 0 then Fatal else Done (0, delete vid m)).
Proof. intros d. unfold delete_volume. by destruct (vid =? 0). Qed.

Lemma snap_table vid n :
  table_op (fun d => Done (0, set_snap_seq vid n d)) (update_vol vid (fun v => Done (0, set_v_snap_seq n v)) 0).
Proof.
  intros d. unfold set_snap_seq, update_vol. destruct (d_opened d !! vid); cbn [obind]; [done|by rewrite set_opened_same].
Qed.

Lemma meta_table vid n :
  table_op (fun d => Done (set_meta_ver vid n d))
    (update_vol vid (fun v => if u64 n <? v_meta_ver v then Done (- EINVAL, v) else Done (0, set_v_meta_ver (u64 n) v))
       (- ENOENT)).
Proof.
  intros d. unfold set_meta_ver, update_vol. destruct (d_opened d !! vid) as [v|] eqn:E; cbn [obind];
    [|by rewrite set_opened_same]. destruct (_ <? _); cbn [obind]; [by rewrite set_opened_id|done].
Qed.

Lemma end_table rid k st :
  table_op (fun d => let* (rc, d) := mark_replica rid k st d in Done (if rc =? INVALID_STATE then rc else 0, d))
    (fun m => let* (rc, m) := update_vol (VOLUME_ID rid) (mark_vol rid k st) INVALID_STATE m in
              Done (if rc =? INVALID_STATE then rc else 0, m)).
Proof. intros d. rewrite (mark_replica_table rid k st d). by destruct (update_vol _ _ _ _) as [[rc m]| |]. Qed.

Lemma mgmt_step_ok a a' : mgmt_step a a' -> app_ok a -> app_ok a'.
Proof.
  intros [arg rc b b' H|vid rc b b' H|vid n rc b b' H|vid n rc b b' H|rid k rc b b' H|rid k ok rc b b' H|arg rc b b' H] Hb.
  - by eapply handle_prepare_volume_ok.
  - apply (on_disps_handler (fun _ => RestfulReply_OK) _ _ _ _ _ (delete_table vid)) in H; [done| |done].
    intros m r' m' Hm. destruct (vid =? 0); [done|]. intros [= <- <-] k v [_ Hk]%lookup_delete_Some. by apply Hm.
  - apply (on_disps_handler (fun _ => RestfulReply_OK) _ _ _ _ _ (snap_table vid n)) in H; [done| |done].
    intros m r' m'. apply update_vol_wf. intros v rc' v' Hv [= <- <-]. by apply vol_wf_snap.
  - apply (on_disps_handler id _ _ _ _ _ (meta_table vid n)) in H; [done| |done].
    intros m r' m'. apply update_vol_wf. intros v rc' v' Hv. destruct (_ <? _); intros [= <- <-]; [done|by apply vol_wf_meta].
  - apply (on_disps_handler id _ _ _ _ _ (mark_replica_table rid k _)) in H; [done| |done].
    intros m r' m'. apply update_vol_wf. intros v rc' v'. apply mark_vol_wf.
  - apply (on_disps_handler id _ _ _ _ _ (end_table rid k _)) in H; [done| |done].
    clear H. intros m r' m' Hm H. destruct (update_vol _ _ _ m) as [[x m2]| |] eqn:Eu; [|done..]. injection H as <- <-.
    revert Hm Eu. apply update_vol_wf. intros v rc' v'. apply mark_vol_wf.
  - by eapply handle_prepare_shards_ok.
Qed.

Lemma mgmt_steps_ok a a' : rtc mgmt_step a a' -> app_ok a -> app_ok a'.
Proof. induction 1 as [|a b c H _ IH]; [done|]. intros Ha. apply IH. by eapply mgmt_step_ok. Qed.
End History.

Lemma vol_wf_shard key v i :
  vol_wf key v -> 0 <= i < v_shard_count v ->
  exists s, deref (v_shards v) i = Done s /\ s_shard_index s = i /\ Z.of_nat (length (s_replicas s)) = MAX_REP_COUNT.
Proof.
  intros [_ Hc Hs] Hi. destruct (lookup_lt_is_Some_2 (v_shards v) (Z.to_nat i)) as [o Ho]; [lia|].
  destruct (Hs _ _ Ho) as (s & -> & Hx & Hl). exists s. splits; [|lia|done].
  rewrite <- (Z2Nat.id i) by lia. by apply deref_lookup.
Qed.


Lemma merge_shard_lookup o n j x y :
  replaces o n -> (j < Z.to_nat (s_rep_count o))%nat ->
  s_replicas o !! j = Some x -> s_replicas n !! j = Some y ->
  s_replicas (merge_shard o n) !! j = Some (merge_replica x y).
Proof.
  intros [Hl Hc _] Hj Hx Hy. cbn. rewrite lookup_app_l.
  - apply lookup_zip_with_Some. exists x, y. splits; [done| |done]. by rewrite lookup_take_lt.
  - rewrite length_zip_with, length_take. apply lookup_lt_Some in Hy. lia.
Qed.


(** ** A node with two dispatchers *)
Module MgmtDemo.
Definition disp : PfDispatcher :=
  mkDisp ∅ 0 (mkStat 0 0 0 0 0 0) ∅ (mkPool (mkQueue 0 0 1 [0]) true 0) ∅ [] false [].
Definition replicator : PfReplicator :=
  mkRep ∅ ∅ ∅ 1 TCP_TYPE 64 (mkPool (mkQueue 0 0 1 [0]) true 0) [] (mkQueue 0 0 1 [0]) ∅ ∅ [] [] [].
Definition renv : rep_env :=
  mkRepEnv (fun _ => Some (mkConn CONN_OK TCP_TYPE 1 0 0 0 false [])) (fun _ _ => 0) (fun _ _ => 0)
    (fun _ _ => 0) (fun bd => bd) 1000.

Definition replica_arg (k store : Z) (status : string) : ReplicaArg :=
  mkReplicaArg (2 ^ 24 + k) k store "tray-a" status "10.0.0.2,10.0.0.3".
Definition volume_arg (ver : Z) (status : string) : PrepareVolumeArg :=
  mkVolumeArg "OK" "vol" SHARD_SIZE (2 ^ 24) ver 4 1 2
    [mkShardArg 0 [replica_arg 0 10 "OK"; replica_arg 1 11 status] 0 "OK"].

Definition a0 : PfAfsAppContext := mkApp 10 ["tray-a"%string] [disp; disp] [replicator] ∅ 0 false.
Definition run (m : outcome (Z * PfAfsAppContext)) (a : PfAfsAppContext) : PfAfsAppContext :=
  match m with Done (_, a) => a | _ => a end.
Definition a1 : PfAfsAppContext := run (handle_prepare_volume renv (volume_arg 7 "ERROR") a0) a0.
Definition a2 : PfAfsAppContext := run (handle_begin_recovery (2 ^ 24 + 1) (-1) a1) a1.
Definition a3 : PfAfsAppContext := run (handle_prepare_volume renv (volume_arg 8 "ERROR") a2) a2.

Definition vol_of (r : outcome ((unit + PfVolume) * PfAfsAppContext)) : PfVolume :=
  match r with Done (inr v, _) => v | _ => mkVolume EmptyString 0 0 0 0 [] 0 0 0 end.
(** the volume of the second dispatcher while replica 1 is being recovered,
    and the newer description of it *)
Definition d2 : PfDispatcher := nth 1 (ac_disps a2) disp.
Definition old_volume : PfVolume := default (vol_of Undef) (d_opened d2 !! (2 ^ 24)).
Definition new_volume : PfVolume := vol_of (convert_argument_to_volume renv (volume_arg 8 "ERROR") a2).
Definition shards_of (v : PfVolume) : list PfShard := omap id (v_shards v).

Lemma mgmt_demo_steps : rtc (mgmt_step renv) a0 a3.
Proof.
  eapply rtc_l; [apply (ms_prepare renv (volume_arg 7 "ERROR") 0 a0 a1); vm_compute; reflexivity|].
  eapply rtc_l; [apply (ms_begin renv (2 ^ 24 + 1) (-1) 0 a1 a2); vm_compute; reflexivity|].
  apply rtc_once. apply (ms_prepare renv (volume_arg 8 "ERROR") 0 a2 a3). vm_compute. reflexivity.
Qed.

Lemma demo_replaces : Forall2 replaces (shards_of old_volume) (shards_of new_volume).
Proof.
  vm_compute shards_of. constructor; [|constructor]. split; cbn; [done|lia|].
  intros [|[|[|[|[|j]]]]] r; cbn; try done; intros _ _; eexists; reflexivity.
Qed.
End MgmtDemo.


