(* ===== verification/TcpServer.v ===== *)
(** * A TCP connection of a client

    Model of PfTcpConnection (src/common/src/pf_tcp_connection.cpp) together
    with the callbacks of the server (src/pfs/src/pf_server.cpp): the bytes
    of a client become request blocks of a dispatcher, and its replies become
    bytes.  All of it runs on the thread of a poller.

    A buffer descriptor is named by the request block it belongs to.  The
    socket is what has arrived in pieces ([t_sock_in]) and what the kernel
    will accept ([t_room]); an empty list is EAGAIN.  [t_wire] are the bytes
    sent.  A piece may be any size, so a call of recv can return any part of
    what is asked for.

    The loops of [do_receive] and [do_send] call the callback, which starts
    the next transfer and so runs the loop again inside: they are functions
    of a number of rounds, and [None] means that the rounds are used up.  The
    queues of the connection are PfEventQueues with one consumer that takes
    single events: bounded lists (FixedQueue.v). *)

From Stdlib Require Import ZArith Lia String.
From stdpp Require Import base tactics list numbers sets gmap countable.
From S2P Require Import Prelude Bytes Runs FixedQueue MemPool Ids Volume Connection Dispatcher.

(** ** Messages as bytes *)
Definition PF_MSG_HEAD_SIZE : Z := 64.
Definition PF_MSG_REPLY_SIZE : Z := 32.
Definition PF_MAX_IO_DEPTH : Z := 255.
Definition PF_MAX_IO_SIZE : Z := Z.shiftl 128 10.

Definition decode_head (l : list Z) : PfMessageHead :=
  mkHead (field 0 1 l) (field 2 2 l) (field 4 4 l) (field 8 8 l) (field 16 8 l) (field 24 4 l)
    (field 28 2 l) (field 32 8 l) (field 40 4 l) (field 44 4 l).

(** the bytes of a head, the reserved fields are zero *)
Definition encode_head (h : PfMessageHead) : list Z :=
  le 1 (h_opcode h) ++ le 1 0 ++ le 2 (h_command_id h) ++ le 4 (h_snap_seq h) ++ le 8 (h_vol_id h)
  ++ le 8 (h_buf_addr h) ++ le 4 (h_rkey h) ++ le 2 (h_meta_ver h) ++ le 2 0 ++ le 8 (h_offset h)
  ++ le 4 (h_length h) ++ le 4 (h_command_seq h) ++ le 16 0.

(** [PfHandshakeMessage] *)
Definition hs_hsqsize (l : list Z) : Z := sext 2 (field 2 2 l).
Definition hs_vol_id (l : list Z) : Z := field 8 8 l.
Definition set_hsqsize (n : Z) (l : list Z) : list Z := take 2 l ++ le 2 n ++ drop 4 l.
Definition set_hs_result (n : Z) (l : list Z) : list Z := take 20 l ++ le 2 n ++ drop 22 l.

(** ** State *)
Inductive bd : Type :=
| BdCmd (i : Z)
| BdData (i : Z)
| BdReply (i : Z)
| BdHand.

#[global] Instance bd_eq_dec : EqDecision bd.
Proof. solve_decision. Defined.

#[global] Program Instance bd_countable : Countable bd :=
  inj_countable' (fun b => match b with BdCmd i => (0, i) | BdData i => (1, i) | BdReply i => (2, i) | BdHand => (3, 0) end)
    (fun p => if fst p =? 0 then BdCmd (snd p) else if fst p =? 1 then BdData (snd p)
              else if fst p =? 2 then BdReply (snd p) else BdHand) _.
Next Obligation. by intros []. Qed.

(** [on_work_complete] *)
Inductive wc_handler : Type := HsRecved | HsSent | NetDone.

Inductive arrival : Type :=
| Piece (l : list Z)
| Eof
| RecvErr (e : Z).

Inductive send_room : Type :=
| Accepts (n : Z)
| SendErr (e : Z).

Record tcp : Type := mkTcp {
  t_id : Z;
  t_recv_bd : option bd;
  t_recved_len : Z;
  t_wanted_recv_len : Z;
  t_send_bd : option bd;
  t_sent_len : Z;
  t_wanted_send_len : Z;
  t_readable : bool;
  t_writeable : bool;
  t_recv_q : list bd;
  t_send_q : list bd;
  t_recv_depth : Z;
  t_send_depth : Z;
  t_handler : wc_handler;
  t_sock_in : list arrival;
  t_room : list send_room;
  t_wire : list Z;
  (** the buffers, and [data_len] of the data buffers *)
  t_mem : gmap bd (list Z);
  t_data_len : gmap Z Z
}.

Record srv : Type := mkSrv { s_disp : PfDispatcher; s_tcp : tcp }.

(** the descriptor of the handshake is deleted: it has no buffer *)
Definition buf_of_bd (b : bd) (s : srv) : outcome (list Z) := of_option (t_mem (s_tcp s) !! b).

Definition data_len (b : bd) (t : tcp) : Z :=
  match b with
  | BdCmd _ => PF_MSG_HEAD_SIZE
  | BdData i => default 0 (t_data_len t !! i)
  | BdReply _ => PF_MSG_REPLY_SIZE
  | BdHand => 32
  end.

(** ** Updates *)
Definition on_tcp (f : tcp -> tcp) (s : srv) : srv := mkSrv (s_disp s) (f (s_tcp s)).

Definition set_recv (b : option bd) (got wanted : Z) (t : tcp) : tcp :=
  mkTcp (t_id t) b got wanted (t_send_bd t) (t_sent_len t) (t_wanted_send_len t) (t_readable t) (t_writeable t)
    (t_recv_q t) (t_send_q t) (t_recv_depth t) (t_send_depth t) (t_handler t) (t_sock_in t) (t_room t) (t_wire t)
    (t_mem t) (t_data_len t).
Definition set_send (b : option bd) (sent wanted : Z) (t : tcp) : tcp :=
  mkTcp (t_id t) (t_recv_bd t) (t_recved_len t) (t_wanted_recv_len t) b sent wanted (t_readable t) (t_writeable t)
    (t_recv_q t) (t_send_q t) (t_recv_depth t) (t_send_depth t) (t_handler t) (t_sock_in t) (t_room t) (t_wire t)
    (t_mem t) (t_data_len t).
Definition set_ready (r w : bool) (t : tcp) : tcp :=
  mkTcp (t_id t) (t_recv_bd t) (t_recved_len t) (t_wanted_recv_len t) (t_send_bd t) (t_sent_len t)
    (t_wanted_send_len t) r w (t_recv_q t) (t_send_q t) (t_recv_depth t) (t_send_depth t) (t_handler t)
    (t_sock_in t) (t_room t) (t_wire t) (t_mem t) (t_data_len t).
Definition set_queues (r q : list bd) (t : tcp) : tcp :=
  mkTcp (t_id t) (t_recv_bd t) (t_recved_len t) (t_wanted_recv_len t) (t_send_bd t) (t_sent_len t)
    (t_wanted_send_len t) (t_readable t) (t_writeable t) r q (t_recv_depth t) (t_send_depth t) (t_handler t)
    (t_sock_in t) (t_room t) (t_wire t) (t_mem t) (t_data_len t).
Definition set_handler (h : wc_handler) (t : tcp) : tcp :=
  mkTcp (t_id t) (t_recv_bd t) (t_recved_len t) (t_wanted_recv_len t) (t_send_bd t) (t_sent_len t)
    (t_wanted_send_len t) (t_readable t) (t_writeable t) (t_recv_q t) (t_send_q t) (t_recv_depth t) (t_send_depth t) h
    (t_sock_in t) (t_room t) (t_wire t) (t_mem t) (t_data_len t).
Definition set_sock_in (l : list arrival) (t : tcp) : tcp :=
  mkTcp (t_id t) (t_recv_bd t) (t_recved_len t) (t_wanted_recv_len t) (t_send_bd t) (t_sent_len t)
    (t_wanted_send_len t) (t_readable t) (t_writeable t) (t_recv_q t) (t_send_q t) (t_recv_depth t) (t_send_depth t)
    (t_handler t) l (t_room t) (t_wire t) (t_mem t) (t_data_len t).
Definition set_out (room : list send_room) (w : list Z) (t : tcp) : tcp :=
  mkTcp (t_id t) (t_recv_bd t) (t_recved_len t) (t_wanted_recv_len t) (t_send_bd t) (t_sent_len t)
    (t_wanted_send_len t) (t_readable t) (t_writeable t) (t_recv_q t) (t_send_q t) (t_recv_depth t) (t_send_depth t)
    (t_handler t) (t_sock_in t) room w (t_mem t) (t_data_len t).
Definition set_mem (m : gmap bd (list Z)) (n : gmap Z Z) (t : tcp) : tcp :=
  mkTcp (t_id t) (t_recv_bd t) (t_recved_len t) (t_wanted_recv_len t) (t_send_bd t) (t_sent_len t)
    (t_wanted_send_len t) (t_readable t) (t_writeable t) (t_recv_q t) (t_send_q t) (t_recv_depth t) (t_send_depth t)
    (t_handler t) (t_sock_in t) (t_room t) (t_wire t) m n.

Definition on_disp (f : PfDispatcher -> outcome PfDispatcher) (s : srv) : outcome srv :=
  let* d := f (s_disp s) in Done (mkSrv d (s_tcp s)).

Definition set_vol_id (v : Z) (b : PfServerIocb) : PfServerIocb :=
  mkIocb (i_cmd b) (i_task_mask b) (i_subtasks b) (i_conn b) v (i_complete_status b)
    (i_complete_meta_ver b) (i_ref_count b) (i_disp_index b) (i_is_timeout b).

Definition set_c_io_depth (n : Z) (c : PfConnection) : PfConnection :=
  mkConn (c_state c) (c_conn_type c) (c_ref_count c) n (c_inflying_io c)
    (c_inflying_heartbeat c) (c_unclean_closed c) (c_used_iocb c).

Definition on_conn (f : PfConnection -> PfConnection) (s : srv) : outcome srv :=
  let c := t_id (s_tcp s) in
  on_disp (fun d => let* k := of_option (d_conns d !! c) in Done (set_conns (<[c := f k]> (d_conns d)) d)) s.

Definition the_conn (s : srv) : outcome PfConnection := of_option (d_conns (s_disp s) !! t_id (s_tcp s)).

(** ** References and queues *)
Definition EINTR : Z := 4.
Definition EFAULT : Z := 14.
Definition ECONNABORTED : Z := 103.

Definition conn_ref (s : srv) : outcome srv := on_conn (fun k => set_c_ref (c_ref_count k + 1) k) s.

(** [dec_ref]; the next access to the connection is an error when it was the
    last reference *)
Definition conn_unref (s : srv) : outcome srv := on_disp (drop_conn (t_id (s_tcp s))) s.

Definition post_recv (b : bd) (s : srv) : outcome (Z * srv) :=
  let* s := conn_ref s in
  let t := s_tcp s in
  if Z.of_nat (length (t_recv_q t)) <? t_recv_depth t then
    Done (0, on_tcp (set_queues (t_recv_q t ++ [b]) (t_send_q t)) s)
  else let* s := conn_unref s in Done (- EAGAIN, s).

Definition post_send (b : bd) (s : srv) : outcome (Z * srv) :=
  let* s := conn_ref s in
  let t := s_tcp s in
  if Z.of_nat (length (t_send_q t)) <? t_send_depth t then
    Done (0, on_tcp (set_queues (t_recv_q t) (t_send_q t ++ [b])) s)
  else let* s := conn_unref s in Done (- EAGAIN, s).

(** ** The callbacks of the server *)
Section Server.
Variable disps : Z.                 (* the number of dispatchers *)
Variable is_open : Z -> bool.       (* the volumes the application has opened *)

Definition re_init (b : PfServerIocb) : PfServerIocb :=
  mkIocb (i_cmd b) 0 (i_subtasks b) (i_conn b) 0 MSG_STATUS_SUCCESS 0 (i_ref_count b) (i_disp_index b) false.

Definition post_io_req (i : Z) (s : srv) : srv :=
  mkSrv (set_events (d_events (s_disp s) ++ [EvIoReq i]) (s_disp s)) (s_tcp s).

Definition block_of (b : bd) : outcome Z :=
  match b with BdCmd i | BdData i | BdReply i => Done i | BdHand => Undef end.

(** [server_on_tcp_network_done], success, TCP_WR_RECV.  The request block
    of the dispatcher has the head decoded from the buffer. *)
Definition server_recv_done (start_recv : bd -> srv -> run (Z * srv)) (b : bd) (s : srv) : run (Z * srv) :=
  let? i := lift (block_of b) in
  let? l := lift (buf_of_bd b s) in
  let? io := lift (get_iocb i (s_disp s)) in
  if data_len b (s_tcp s) =? PF_MSG_HEAD_SIZE then
    let head := decode_head l in
    let io := match b with BdCmd _ => set_cmd head io | _ => io end in
    let s := mkSrv (set_iocb i (set_vol_id (h_vol_id head) io) (s_disp s))
               (set_mem (t_mem (s_tcp s)) (<[i := i32 (h_length head)]> (t_data_len (s_tcp s))) (s_tcp s)) in
    if IS_WRITE_OP (h_opcode head) then
      let? s := lift (conn_ref s) in
      let? (_, s) := start_recv (BdData i) s in
      ret (1, s)
    else ret (0, post_io_req i s)
  else ret (0, post_io_req i s).

(** success, TCP_WR_SEND *)
Definition server_send_done (start_send : bd -> srv -> run (Z * srv)) (b : bd) (s : srv) : run (Z * srv) :=
  let? i := lift (block_of b) in
  let? io := lift (get_iocb i (s_disp s)) in
  if (data_len b (s_tcp s) =? PF_MSG_REPLY_SIZE) && IS_READ_OP (h_opcode (i_cmd io))
     && (i_complete_status io =? MSG_STATUS_SUCCESS) then
    let? s := lift (conn_ref s) in
    let? (_, s) := start_send (BdData i) s in
    ret (1, s)
  else
    let s := mkSrv (set_iocb i (re_init io) (s_disp s)) (s_tcp s) in
    let? (_, s) := lift (post_recv (BdCmd i) s) in
    ret (0, s).

(** WC_FLUSH_ERR *)
Definition server_flushed (b : bd) (s : srv) : outcome srv :=
  let* i := block_of b in
  on_disp (iocb_dec_ref disps i) s.

Definition write_mem (b : bd) (l : list Z) (s : srv) : srv :=
  on_tcp (fun t => set_mem (<[b := l]> (t_mem t)) (t_data_len t) t) s.

(** [on_tcp_handshake_recved], which does not look at the status *)
Definition on_tcp_handshake_recved (b : bd) (s : srv) : outcome (Z * srv) :=
  let* l := buf_of_bd b s in
  let* s := on_conn (set_c_state CONN_OK) s in
  let l := set_hs_result 0 l in
  let vol := hs_vol_id l in
  let* (rc, s) :=
    (if negb (vol =? 0) && ((PF_MAX_IO_DEPTH <? hs_hsqsize l) || (hs_hsqsize l <=? 0)) then
       let s := write_mem b (set_hs_result EINVAL (set_hsqsize PF_MAX_IO_DEPTH l)) s in
       let* s := on_conn (set_c_state CONN_CLOSING) s in
       Done (- EINVAL, s)
     else
       let* s := on_conn (set_c_io_depth (hs_hsqsize l)) s in
       if negb (vol =? 0) && negb (is_open vol) then
         let s := write_mem b (set_hs_result EINVAL l) s in
         let* s := on_conn (set_c_state CONN_CLOSING) s in
         Done (- EINVAL, s)
       else Done (0, write_mem b l s)) in
  let s := on_tcp (set_handler HsSent) s in
  let* (_, s) := post_send b s in
  Done (rc, s).

(** the loop of [on_tcp_handshake_sent] that hands request blocks to the
    connection *)
Fixpoint attach_blocks (n : nat) (s : srv) : outcome (Z * srv) :=
  match n with
  | O => Done (0, s)
  | S n =>
      let* (x, p) := pool_alloc (d_iocb_pool (s_disp s)) in
      let s := mkSrv (set_iocb_pool p (s_disp s)) (s_tcp s) in
      match x with
      | None => Done (- ENOMEM, s)
      | Some i =>
          let* io := get_iocb i (s_disp s) in
          let* s := conn_ref s in
          let s := mkSrv (set_iocb i (set_iconn (Some (t_id (s_tcp s))) (iocb_add_ref io)) (s_disp s)) (s_tcp s) in
          let* (rc, s) := post_recv (BdCmd i) s in
          if negb (rc =? 0) then
            let* s := on_disp (iocb_dec_ref disps i) s in Done (rc, s)
          else attach_blocks n s
      end
  end.

(** [on_tcp_handshake_sent]; [close] is the connection's *)
Definition on_tcp_handshake_sent (close : srv -> run srv) (b : bd) (ok : bool) (s : srv) : run (Z * srv) :=
  match b with
  | BdHand =>
      let? _ := lift (buf_of_bd BdHand s) in
      let s := on_tcp (fun t => set_mem (delete BdHand (t_mem t)) (t_data_len t) t) s in
      if ok then
        let? k := lift (the_conn s) in
        if c_state k =? CONN_CLOSING then
          let? s := lift (on_conn (set_c_state CONN_OK) s) in ret (- EINVAL, s)
        else
          let s := on_tcp (set_handler NetDone) s in
          let? s := lift (on_conn (set_c_state CONN_OK) s) in
          lift (attach_blocks (Z.to_nat (2 * c_io_depth k)) s)
      else
        let? s := lift (on_conn (set_c_state CONN_OK) s) in
        let? s := close s in ret (0, s)
  | _ => Undef   (* it would delete the buffer of a pool *)
  end.

(** ** Closing *)

(** one descriptor of [flush_wr]: the callback and [dec_ref]; the loop then
    looks at the connection again *)
Definition flush_one (callback : bd -> srv -> run srv) (b : bd) (s : srv) : run srv :=
  let? s := callback b s in
  let? s := lift (conn_unref s) in
  let? _ := lift (the_conn s) in
  ret s.

Fixpoint flush_all (callback : bd -> srv -> run srv) (l : list bd) (s : srv) : run srv :=
  match l with
  | [] => ret s
  | b :: l => let? s := flush_one callback b s in flush_all callback l s
  end.

Definition flush_wr (callback : bd -> srv -> run srv) (s : srv) : run srv :=
  let? s := match t_recv_bd (s_tcp s) with
            | Some b =>
                let? s := flush_one callback b s in
                ret (on_tcp (fun t => set_recv None (t_recved_len t) (t_wanted_recv_len t) t) s)
            | None => ret s
            end in
  let? s := match t_send_bd (s_tcp s) with
            | Some b =>
                let? s := flush_one callback b s in
                ret (on_tcp (fun t => set_send None (t_sent_len t) (t_wanted_send_len t) t) s)
            | None => ret s
            end in
  let? s := flush_all callback (t_recv_q (s_tcp s)) (on_tcp (fun t => set_queues [] (t_send_q t) t) s) in
  flush_all callback (t_send_q (s_tcp s)) (on_tcp (fun t => set_queues (t_recv_q t) [] t) s).

Definition server_on_conn_close (s : srv) : outcome srv := conn_unref s.

(** [close] with [do_close] and [server_on_conn_close]; the last access is
    the one to [close_time] *)
Fixpoint close (n : nat) (s : srv) : run srv :=
  match n with
  | O => Done None
  | S n =>
      let? (closing, h) := lift (conn_close (t_id (s_tcp s)) (d_conns (s_disp s))) in
      if closing : bool then
        let s := mkSrv (set_conns h (s_disp s)) (s_tcp s) in
        let? s := flush_wr (fun b s =>
          match t_handler (s_tcp s) with
          | NetDone => lift (server_flushed b s)
          | HsRecved => let? (_, s) := lift (on_tcp_handshake_recved b s) in ret s
          | HsSent => let? (_, s) := on_tcp_handshake_sent (close n) b false s in ret s
          end) s in
        let? s := lift (server_on_conn_close s) in
        let? _ := lift (the_conn s) in
        ret s
      else ret s
  end.

(** ** Receiving *)

(** [rcv_with_error_handle]: the code, what is left on the socket, the
    length received, the buffer and [readable] *)
Fixpoint rcv (arr : list arrival) (got wanted : Z) (buf : list Z) (rd : bool)
    : outcome (Z * list arrival * Z * list Z * bool) :=
  if wanted <=? got then Done (0, arr, got, buf, rd)
  else
    match arr with
    | [] => Done (- EAGAIN, [], got, buf, false)
    | Piece l :: rest =>
        let n := Z.min (Z.of_nat (length l)) (wanted - got) in
        if n =? 0 then Done (- ECONNABORTED, arr, got, buf, rd)
        else
          let* buf := write_at got (take (Z.to_nat n) l) buf in
          if n <? Z.of_nat (length l) then Done (0, Piece (drop (Z.to_nat n) l) :: rest, got + n, buf, rd)
          else rcv rest (got + n) wanted buf rd
    | Eof :: _ => Done (- ECONNABORTED, arr, got, buf, rd)
    | RecvErr e :: rest =>
        if e =? EAGAIN then Done (- EAGAIN, rest, got, buf, false)
        else if e =? EINTR then Done (- e, rest, got, buf, rd)
        else if e =? EFAULT then Fatal
        else Done (- e, rest, got, buf, false)
    end.

Definition rcv_with_error_handle (b : bd) (s : srv) : outcome (Z * srv) :=
  let t := s_tcp s in
  let* buf := buf_of_bd b s in
  let* (rc, arr, got, buf, rd) := rcv (t_sock_in t) (t_recved_len t) (t_wanted_recv_len t) buf (t_readable t) in
  Done (rc, write_mem b buf (on_tcp (fun t => set_sock_in arr (set_ready rd (t_writeable t)
                                     (set_recv (t_recv_bd t) got (t_wanted_recv_len t) t))) s)).

Definition begin_recv (b : bd) (s : srv) : srv :=
  on_tcp (fun t => set_recv (Some b) 0 (data_len b t) t) s.

(** [do_receive] *)
Fixpoint do_receive (n : nat) (s : srv) : run (Z * srv) :=
  match n with
  | O => Done None
  | S n =>
      let again s := let? _ := lift (the_conn s) in
                     if t_readable (s_tcp s) then do_receive n s else ret (0, s) in
      match t_recv_bd (s_tcp s) with
      | None =>
          match t_recv_q (s_tcp s) with
          | [] => ret (0, s)
          | b :: q => again (begin_recv b (on_tcp (fun t => set_queues q (t_send_q t) t) s))
          end
      | Some b =>
          let? (rc, s) := lift (rcv_with_error_handle b s) in
          if negb (rc =? 0) && negb (rc =? - EAGAIN) then
            let? s := close n s in ret (- ECONNABORTED, s)
          else if t_wanted_recv_len (s_tcp s) =? t_recved_len (s_tcp s) then
            let s := on_tcp (fun t => set_recv None (t_recved_len t) (t_wanted_recv_len t) t) s in
            let? (rc, s) :=
              match t_handler (s_tcp s) with
              | NetDone => server_recv_done (fun b s => do_receive n (begin_recv b s)) b s
              | HsRecved => lift (on_tcp_handshake_recved b s)
              | HsSent => on_tcp_handshake_sent (close n) b true s
              end in
            let? s := lift (conn_unref s) in
            if rc =? - ECONNABORTED then
              let? s := close n s in ret (- ECONNABORTED, s)
            else again s
          else again s
      end
  end.

(** ** Sending *)

(** [send_with_error_handle]: one call of send *)
Definition send_with_error_handle (b : bd) (s : srv) : outcome (Z * srv) :=
  let t := s_tcp s in
  if t_sent_len t <? t_wanted_send_len t then
    match t_room t with
    | [] => Done (- EAGAIN, on_tcp (set_ready (t_readable t) false) s)
    | Accepts n :: room =>
        let n := Z.min n (t_wanted_send_len t - t_sent_len t) in
        if n <=? 0 then Done (- ECONNABORTED, on_tcp (set_out room (t_wire t)) s)
        else
          let* buf := buf_of_bd b s in
          if t_sent_len t + n <=? Z.of_nat (length buf) then
            Done (0, on_tcp (fun t => set_out room (t_wire t ++ take (Z.to_nat n) (drop (Z.to_nat (t_sent_len t)) buf))
                                       (set_send (t_send_bd t) (t_sent_len t + n) (t_wanted_send_len t) t)) s)
          else Undef
    | SendErr e :: room =>
        let s := on_tcp (set_out room (t_wire t)) s in
        if e =? EAGAIN then Done (- e, on_tcp (set_ready (t_readable t) false) s)
        else if e =? EINTR then Done (- e, s)
        else if e =? EFAULT then Fatal
        else Done (- e, on_tcp (set_ready (t_readable t) false) s)
    end
  else Done (0, s).

Definition begin_send (b : bd) (s : srv) : srv :=
  on_tcp (fun t => set_send (Some b) 0 (data_len b t) t) s.

(** [do_send]; [start_send] is [do_send] after [begin_send] *)
Fixpoint do_send (n : nat) (s : srv) : run (Z * srv) :=
  match n with
  | O => Done None
  | S n =>
      let again s := let? _ := lift (the_conn s) in
                     if t_writeable (s_tcp s) then do_send n s else ret (0, s) in
      match t_send_bd (s_tcp s) with
      | None =>
          match t_send_q (s_tcp s) with
          | [] => ret (0, s)
          | b :: q =>
              let? (rc, s) := do_send n (begin_send b (on_tcp (fun t => set_queues (t_recv_q t) q t) s)) in
              if negb (rc =? 0) then ret (rc, s) else again s
          end
      | Some b =>
          let? (rc, s) := lift (send_with_error_handle b s) in
          if negb (rc =? 0) && negb (rc =? - EAGAIN) then
            let? s := close n s in ret (- ECONNABORTED, s)
          else if t_wanted_send_len (s_tcp s) =? t_sent_len (s_tcp s) then
            let s := on_tcp (fun t => set_send None (t_sent_len t) (t_wanted_send_len t) t) s in
            let? (rc, s) :=
              match t_handler (s_tcp s) with
              | NetDone => server_send_done (fun b s => do_send n (begin_send b s)) b s
              | HsRecved => lift (on_tcp_handshake_recved b s)
              | HsSent => on_tcp_handshake_sent (close n) b true s
              end in
            let? s := lift (conn_unref s) in
            if rc <? 0 then
              let? s := close n s in ret (rc, s)
            else again s
          else again s
      end
  end.

(** ** Events of the poller *)
Definition on_recv_q_event (n : nat) (s : srv) : run srv :=
  match t_recv_bd (s_tcp s), t_recv_q (s_tcp s) with
  | None, b :: q =>
      let? (_, s) := do_receive n (begin_recv b (on_tcp (fun t => set_queues q (t_send_q t) t) s)) in ret s
  | _, _ => ret s
  end.

Definition on_send_q_event (n : nat) (s : srv) : run srv :=
  match t_send_bd (s_tcp s), t_send_q (s_tcp s) with
  | None, b :: q =>
      let? (_, s) := do_send n (begin_send b (on_tcp (fun t => set_queues (t_recv_q t) q t) s)) in ret s
  | _, _ => ret s
  end.

(** [err]: EPOLLERR, EPOLLHUP or EPOLLRDHUP; [inp]: EPOLLIN or EPOLLPRI *)
Definition on_socket_event (n : nat) (err inp outp : bool) (s : srv) : run srv :=
  if err then close n s
  else
    let s := on_tcp (fun t => set_ready (t_readable t || inp) (t_writeable t || outp) t) s in
    let? s := (if t_readable (s_tcp s) then let? (_, s) := do_receive n s in ret s else ret s) in
    let? _ := lift (the_conn s) in
    if t_writeable (s_tcp s) then let? (_, s) := do_send n s in ret s else ret s.

(** the connection [accept_connection] hands to the poller: one reference for
    its closing, one for the descriptor of the handshake *)
Definition accepted (c : Z) (d : PfDispatcher) (mem : gmap bd (list Z)) : srv :=
  mkSrv (set_conns (<[c := mkConn CONN_INIT TCP_TYPE 2 0 0 0 false []]> (d_conns d)) d)
    (mkTcp c None 0 0 None 0 0 false false [BdHand] [] (PF_MAX_IO_DEPTH * 2) PF_MAX_IO_DEPTH HsRecved [] [] []
       (<[BdHand := replicate 32 0]> mem) ∅).
End Server.
