(* ===== verification/TcpProps.v ===== *)
(** * What a TCP connection guarantees

    Receiving: however the network cuts the bytes of a client into pieces,
    the dispatcher gets the same requests.  [rx] is a receiver that takes one
    byte at a time; [do_receive] does with any pieces what [rx] does with
    their bytes.  Sending: the bytes of a reply leave in order, whatever the
    kernel accepts at a time, and the block is ready for the next request. *)

From Stdlib Require Import ZArith Lia String.
From stdpp Require Import base tactics list numbers sets gmap.
From S2P Require Import Prelude Bytes Runs FixedQueue MemPool Ids Volume Connection Dispatcher TcpServer.

(** ** Messages *)
Record head_ok (h : PfMessageHead) : Prop := mkHeadOk {
  ho_opcode : in_width 1 (h_opcode h);
  ho_command_id : in_width 2 (h_command_id h);
  ho_snap_seq : in_width 4 (h_snap_seq h);
  ho_vol_id : in_width 8 (h_vol_id h);
  ho_buf_addr : in_width 8 (h_buf_addr h);
  ho_rkey : in_width 4 (h_rkey h);
  ho_meta_ver : in_width 2 (h_meta_ver h);
  ho_offset : in_width 8 (h_offset h);
  ho_length : in_width 4 (h_length h);
  ho_command_seq : in_width 4 (h_command_seq h)
}.

Lemma encode_head_length h : length (encode_head h) = 64%nat.
Proof. unfold encode_head. rewrite !length_app, !le_length. done. Qed.

Lemma decode_encode_head h : head_ok h -> decode_head (encode_head h) = h.
Proof.
  destruct h as [a1 a2 a3 a4 a5 a6 a7 a8 a9 a10]. intros []. unfold decode_head, encode_head.
  cbn [h_opcode h_command_id h_snap_seq h_vol_id h_buf_addr h_rkey h_meta_ver h_offset h_length h_command_seq] in *.
  f_equal; repeat (rewrite field_skip by lia; cbn [Nat.sub]); by apply field_here.
Qed.

(** ** A receiver of single bytes *)
Inductive cur : Type :=
| Idle
| Head (i : Z) (g : list Z)
| Data (i : Z) (hb g : list Z)
| Bad.

Record rx : Type := mkRx {
  rx_done : list (Z * (list Z * list Z));
  rx_cur : cur;
  rx_q : list Z
}.

Definition hlen (hb : list Z) : Z := h_length (decode_head hb).
Definition is_write (hb : list Z) : bool := IS_WRITE_OP (h_opcode (decode_head hb)).

(** data that fit the buffer and are not taken for a head *)
Definition good_write (hb : list Z) : bool :=
  (0 <=? hlen hb) && (hlen hb <=? PF_MAX_IO_SIZE) && negb (hlen hb =? PF_MSG_HEAD_SIZE).

Definition next (done : list (Z * (list Z * list Z))) (q : list Z) : rx :=
  match q with [] => mkRx done Idle [] | j :: q => mkRx done (Head j []) q end.

Definition finish (i : Z) (hb data : list Z) (done : list (Z * (list Z * list Z))) (q : list Z) : rx :=
  next (done ++ [(i, (hb, data))]) q.

Definition start_data (i : Z) (hb : list Z) (done : list (Z * (list Z * list Z))) (q : list Z) : rx :=
  if is_write hb then
    if good_write hb then (if hlen hb =? 0 then finish i hb [] done q else mkRx done (Data i hb []) q)
    else mkRx done Bad q
  else finish i hb [] done q.

Definition feed (x : rx) (b : Z) : rx :=
  match rx_cur x with
  | Idle | Bad => x
  | Head i g => if Z.of_nat (length g) + 1 =? PF_MSG_HEAD_SIZE then start_data i (g ++ [b]) (rx_done x) (rx_q x)
                else mkRx (rx_done x) (Head i (g ++ [b])) (rx_q x)
  | Data i hb g => if Z.of_nat (length g) + 1 =? hlen hb then finish i hb (g ++ [b]) (rx_done x) (rx_q x)
                   else mkRx (rx_done x) (Data i hb (g ++ [b])) (rx_q x)
  end.

(** the bytes it takes, and what is left when no block is free *)
Fixpoint absorb (x : rx) (l : list Z) : rx * list Z :=
  match l with
  | [] => (x, [])
  | b :: l' => match rx_cur x with
               | Idle | Bad => (x, l)
               | _ => absorb (feed x b) l'
               end
  end.

Definition settle (x : rx) : rx :=
  match rx_cur x with
  | Idle => next (rx_done x) (rx_q x)
  | Data i hb g => if Z.of_nat (length g) =? hlen hb then finish i hb g (rx_done x) (rx_q x) else x
  | _ => x
  end.

Lemma absorb_stop x l : rx_cur x = Idle \/ rx_cur x = Bad -> absorb x l = (x, l).
Proof. intros H. destruct l as [|b l]; [done|]. cbn. by destruct H as [-> | ->]. Qed.

Lemma absorb_app x l1 l2 :
  absorb x (l1 ++ l2) = let (x', r) := absorb x l1 in
    match rx_cur x' with Idle | Bad => (x', r ++ l2) | _ => absorb x' l2 end.
Proof.
  revert x. induction l1 as [|b l1 IH]; intros x; cbn [absorb app].
  - destruct (rx_cur x) eqn:E; [|done|done|]; rewrite absorb_stop; auto.
  - destruct (rx_cur x) eqn:E; [by rewrite E|apply IH|apply IH|by rewrite E].
Qed.

(** a chunk that does not complete the head *)
Lemma absorb_head_part done i q g l :
  Z.of_nat (length g + length l) < PF_MSG_HEAD_SIZE ->
  absorb (mkRx done (Head i g) q) l = (mkRx done (Head i (g ++ l)) q, []).
Proof.
  revert g. induction l as [|b l IH]; intros g Hl; cbn [absorb]; [by rewrite app_nil_r|]. cbn [rx_cur].
  unfold feed. cbn [rx_cur rx_done rx_q]. cbn [length] in Hl. rewrite (proj2 (Z.eqb_neq _ _)) by lia.
  rewrite IH by (rewrite length_app; cbn [length]; lia). by rewrite <- app_assoc.
Qed.

Lemma absorb_head_done done i q g l l2 :
  Z.of_nat (length g + length l) = PF_MSG_HEAD_SIZE -> l <> [] ->
  absorb (mkRx done (Head i g) q) (l ++ l2) = absorb (start_data i (g ++ l) done q) l2.
Proof.
  intros Hl Hn. destruct (exists_last Hn) as (l' & b & ->). rewrite length_app in Hl. cbn [length] in Hl.
  rewrite <- app_assoc, absorb_app, absorb_head_part by lia. cbn [rx_cur]. cbn [absorb app rx_cur]. unfold feed.
  cbn [rx_cur rx_done rx_q]. rewrite (proj2 (Z.eqb_eq _ _)) by (rewrite length_app; lia). by rewrite <- app_assoc.
Qed.

Lemma absorb_data_part done i q hb g l :
  Z.of_nat (length g + length l) < hlen hb ->
  absorb (mkRx done (Data i hb g) q) l = (mkRx done (Data i hb (g ++ l)) q, []).
Proof.
  revert g. induction l as [|b l IH]; intros g Hl; cbn [absorb]; [by rewrite app_nil_r|]. cbn [rx_cur].
  unfold feed. cbn [rx_cur rx_done rx_q]. cbn [length] in Hl. rewrite (proj2 (Z.eqb_neq _ _)) by lia.
  rewrite IH by (rewrite length_app; cbn [length]; lia). by rewrite <- app_assoc.
Qed.

Lemma absorb_data_done done i q hb g l l2 :
  Z.of_nat (length g + length l) = hlen hb -> l <> [] ->
  absorb (mkRx done (Data i hb g) q) (l ++ l2) = absorb (finish i hb (g ++ l) done q) l2.
Proof.
  intros Hl Hn. destruct (exists_last Hn) as (l' & b & ->). rewrite length_app in Hl. cbn [length] in Hl.
  rewrite <- app_assoc, absorb_app, absorb_data_part by lia. cbn [rx_cur]. cbn [absorb app rx_cur]. unfold feed.
  cbn [rx_cur rx_done rx_q]. rewrite (proj2 (Z.eqb_eq _ _)) by (rewrite length_app; lia). by rewrite <- app_assoc.
Qed.

(** ** One call of recv after the other *)
Definition nonempty (ps : list (list Z)) : Prop := Forall (fun p => p <> []) ps.

Lemma rcv_pieces ps got wanted buf rd :
  nonempty ps -> 0 <= got <= wanted -> wanted <= Z.of_nat (length buf) ->
  let avail := concat ps in
  let k := Z.to_nat got in
  (got + Z.of_nat (length avail) < wanted
   /\ rcv (Piece <$> ps) got wanted buf rd
      = Done (- EAGAIN, [], got + Z.of_nat (length avail),
              take k buf ++ avail ++ drop (k + length avail) buf, false))
  \/ (wanted <= got + Z.of_nat (length avail)
      /\ exists ps', rcv (Piece <$> ps) got wanted buf rd
         = Done (0, Piece <$> ps', wanted,
                 take k buf ++ take (Z.to_nat (wanted - got)) avail ++ drop (Z.to_nat wanted) buf, rd)
         /\ concat ps' = drop (Z.to_nat (wanted - got)) avail /\ nonempty ps').
Proof.
  revert got buf. induction ps as [|p ps IH]; intros got buf Hne Hg Hw avail k.
  - subst avail k. cbn [concat fmap list_fmap rcv length]. rewrite Z.add_0_r, Nat.add_0_r, take_nil, drop_nil.
    cbn [app]. rewrite !take_drop. destruct (Z.eq_dec got wanted) as [->|Hgw].
    + right. split; [lia|]. exists []. rewrite Z.leb_refl, take_drop. done.
    + left. split; [lia|]. by rewrite (proj2 (Z.leb_gt _ _)) by lia.
  - apply Forall_cons in Hne as [Hp Hne]. cbn [fmap list_fmap]. subst avail. cbn [concat].
    destruct (Z.leb_spec wanted got) as [Hle|Hlt].
    { right. split; [lia|]. exists (p :: ps). assert (got = wanted) as -> by lia. rewrite Z.sub_diag. cbn [rcv].
      rewrite Z.leb_refl. subst k. change (Z.to_nat 0) with O. rewrite take_0, drop_0. cbn [app]. rewrite take_drop.
      splits; [done|done|by constructor]. }
    cbn [rcv]. rewrite (proj2 (Z.leb_gt _ _)) by lia.
    assert (0 < length p)%nat as Hlp by (destruct p; [done|cbn; lia]).
    destruct (Z.le_gt_cases (Z.of_nat (length p)) (wanted - got)) as [Hs|Hs].
    + rewrite Z.min_l, (proj2 (Z.eqb_neq _ _)), Nat2Z.id, take_ge by lia. unfold write_at.
      rewrite (proj2 (Z.leb_le _ _)) by lia. cbn [obind]. rewrite Z.ltb_irrefl.
      set (buf1 := take (Z.to_nat got) buf ++ p ++ drop (Z.to_nat got + length p) buf).
      assert (length buf1 = length buf) as Hb1 by (subst buf1; rewrite !length_app, length_take, length_drop; lia).
      assert (take (Z.to_nat (got + Z.of_nat (length p))) buf1 = take k buf ++ p) as Ht.
      { subst buf1 k. rewrite app_assoc, take_app_le by (rewrite length_app, length_take; lia). apply take_ge.
        rewrite length_app, length_take. lia. }
      assert (forall m, (Z.to_nat (got + Z.of_nat (length p)) <= m)%nat -> drop m buf1 = drop m buf) as Hd.
      { intros m Hm. subst buf1. rewrite app_assoc, drop_app_ge by (rewrite length_app, length_take; lia).
        rewrite drop_drop. f_equal. rewrite length_app, length_take. lia. }
      destruct (IH (got + Z.of_nat (length p)) buf1 Hne) as [(Hsm & E)|(Hbig & ps' & E & Hc & Hn)]; [lia|lia| |].
      * left. rewrite length_app. split; [lia|]. rewrite E, Ht, Hd by lia. rewrite <- !app_assoc.
        replace (Z.to_nat (got + Z.of_nat (length p)) + length (concat ps))%nat
          with (k + (length p + length (concat ps)))%nat by lia.
        by replace (got + Z.of_nat (length p) + Z.of_nat (length (concat ps)))
          with (got + Z.of_nat (length p + length (concat ps))) by lia.
      * right. rewrite length_app. split; [lia|]. exists ps'. rewrite E, Ht, Hd by lia. splits; [|rewrite Hc|done].
        -- rewrite <- !app_assoc, take_app_ge by lia. rewrite <- app_assoc.
           by replace (Z.to_nat (wanted - (got + Z.of_nat (length p))))
             with (Z.to_nat (wanted - got) - length p)%nat by lia.
        -- rewrite drop_app_ge by lia. f_equal. lia.
    + right. rewrite length_app. split; [lia|]. rewrite Z.min_r, (proj2 (Z.eqb_neq _ _)) by lia. unfold write_at.
      rewrite length_take, (proj2 (Z.leb_le _ _)) by lia. cbn [obind]. rewrite (proj2 (Z.ltb_lt _ _)) by lia.
      exists (drop (Z.to_nat (wanted - got)) p :: ps). rewrite take_app_le, drop_app_le by lia. splits.
      * replace (got + (wanted - got)) with wanted by lia.
        by replace (Z.to_nat got + Init.Nat.min (Z.to_nat (wanted - got)) (length p))%nat
          with (Z.to_nat wanted) by lia.
      * done.
      * constructor; [|done]. intros E. apply (f_equal length) in E. rewrite length_drop in E. cbn in E. lia.
Qed.

(** ** What the state says of a receiver *)
Definition iocbs (s : srv) : gmap Z PfServerIocb := d_iocbs (s_disp s).
Definition mem (s : srv) : gmap bd (list Z) := t_mem (s_tcp s).

Record block (s : srv) (i : Z) : Prop := mkBlock {
  bk_iocb : is_Some (iocbs s !! i);
  bk_cmd : exists l, mem s !! BdCmd i = Some l /\ Z.of_nat (length l) = PF_MSG_HEAD_SIZE;
  bk_data : exists l, mem s !! BdData i = Some l /\ Z.of_nat (length l) = PF_MAX_IO_SIZE
}.

Definition received (s : srv) (i : Z) (hb data : list Z) : Prop :=
  (exists io, iocbs s !! i = Some io /\ i_cmd io = decode_head hb)
  /\ (exists l, mem s !! BdData i = Some l /\ take (length data) l = data).

Definition cur_block (x : cur) : list Z :=
  match x with Head i _ | Data i _ _ => [i] | _ => [] end.

Definition transfer (s : srv) (b : bd) (g : list Z) (wanted : Z) : Prop :=
  t_recv_bd (s_tcp s) = Some b /\ t_recved_len (s_tcp s) = Z.of_nat (length g)
  /\ t_wanted_recv_len (s_tcp s) = wanted /\ Z.of_nat (length g) <= wanted
  /\ exists l, mem s !! b = Some l /\ take (length g) l = g.

Definition receiving (s : srv) (x : cur) : Prop :=
  match x with
  | Idle => t_recv_bd (s_tcp s) = None
  | Head i g => transfer s (BdCmd i) g PF_MSG_HEAD_SIZE /\ Z.of_nat (length g) < PF_MSG_HEAD_SIZE
  | Data i hb g =>
      transfer s (BdData i) g (hlen hb) /\ is_write hb = true /\ good_write hb = true
      /\ (exists io, iocbs s !! i = Some io /\ i_cmd io = decode_head hb)
      /\ t_data_len (s_tcp s) !! i = Some (hlen hb)
  | Bad => False
  end.

Definition blocks_of (x : rx) : list Z := (fst <$> rx_done x) ++ cur_block (rx_cur x) ++ rx_q x.

Record recv_state (c : Z) (ev : list disp_event) (x : rx) (r : Z) (s : srv) : Prop := mkRecvState {
  rs_id : t_id (s_tcp s) = c;
  rs_handler : t_handler (s_tcp s) = NetDone;
  rs_conn : exists k, d_conns (s_disp s) !! c = Some k /\ c_ref_count k = r;
  rs_queue : t_recv_q (s_tcp s) = BdCmd <$> rx_q x;
  rs_events : d_events (s_disp s) = ev ++ (EvIoReq <$> (fst <$> rx_done x));
  rs_nodup : NoDup (blocks_of x);
  rs_done : forall i hb data, (i, (hb, data)) ∈ rx_done x -> received s i hb data;
  rs_blocks : forall i, i ∈ cur_block (rx_cur x) ++ rx_q x -> block s i;
  rs_cur : receiving s (rx_cur x);
  rs_send : t_send_bd (s_tcp s) = None /\ t_send_q (s_tcp s) = []
}.

(** everything but one block is as before *)
Record frame (i : Z) (s s' : srv) : Prop := mkFrame {
  fr_id : t_id (s_tcp s') = t_id (s_tcp s);
  fr_handler : t_handler (s_tcp s') = t_handler (s_tcp s);
  fr_send : t_send_bd (s_tcp s') = t_send_bd (s_tcp s) /\ t_send_q (s_tcp s') = t_send_q (s_tcp s);
  fr_iocbs : forall j, j <> i -> iocbs s' !! j = iocbs s !! j;
  fr_mem : forall j, j <> i -> mem s' !! BdCmd j = mem s !! BdCmd j /\ mem s' !! BdData j = mem s !! BdData j
}.

Lemma received_frame i s s' j hb data : frame i s s' -> j <> i -> received s j hb data -> received s' j hb data.
Proof.
  intros F Hj [H1 H2]. unfold received. rewrite (fr_iocbs _ _ _ F j Hj). destruct (fr_mem _ _ _ F j Hj) as [_ ->]. done.
Qed.

Lemma block_frame i s s' j : frame i s s' -> j <> i -> block s j -> block s' j.
Proof.
  intros F Hj [H1 H2 H3]. destruct (fr_mem _ _ _ F j Hj) as [E1 E2].
  split; [by rewrite (fr_iocbs _ _ _ F j Hj)|by rewrite E1|by rewrite E2].
Qed.

(** the receiver moves on, with one block *)
Lemma move_on c ev x r s i x' r' s' :
  recv_state c ev x r s -> frame i s s' ->
  (exists k, d_conns (s_disp s') !! c = Some k /\ c_ref_count k = r') ->
  t_recv_q (s_tcp s') = BdCmd <$> rx_q x' ->
  d_events (s_disp s') = ev ++ (EvIoReq <$> (fst <$> rx_done x')) ->
  NoDup (blocks_of x') ->
  (forall j hb data, (j, (hb, data)) ∈ rx_done x' ->
     j <> i /\ (j, (hb, data)) ∈ rx_done x \/ received s' j hb data) ->
  (forall j, j ∈ cur_block (rx_cur x') ++ rx_q x' ->
     j <> i /\ j ∈ cur_block (rx_cur x) ++ rx_q x \/ block s' j) ->
  receiving s' (rx_cur x') -> recv_state c ev x' r' s'.
Proof.
  intros [] F Hc Hq He Hn Hd Hb Hcur. split; try done.
  - by rewrite (fr_id _ _ _ F).
  - by rewrite (fr_handler _ _ _ F).
  - intros j hb data Hj. destruct (Hd _ _ _ Hj) as [[Hne Hin]|]; [|done].
    by eapply received_frame; [exact F|exact Hne|apply rs_done0].
  - intros j Hj. destruct (Hb _ Hj) as [[Hne Hin]|]; [|done].
    by eapply block_frame; [exact F|exact Hne|apply rs_blocks0].
  - destruct (fr_send _ _ _ F) as [-> ->]. done.
Qed.

Lemma fst_elem (l : list (Z * (list Z * list Z))) i m : (i, m) ∈ l -> i ∈ fst <$> l.
Proof. intros H. apply (list_elem_of_fmap_2 fst _ _ H). Qed.

(** a block that is free is not a finished one *)
Lemma not_done x i j m : NoDup (blocks_of x) -> i ∈ cur_block (rx_cur x) ++ rx_q x -> (j, m) ∈ rx_done x -> j <> i.
Proof.
  unfold blocks_of. intros (_ & Hd & _)%NoDup_app Hi Hj ->. apply fst_elem in Hj. by apply (Hd _ Hj).
Qed.

(** ** The pieces of one transfer *)
Record changed (b : bd) (s s' : srv) : Prop := mkChanged {
  ch_disp : s_disp s' = s_disp s;
  ch_id : t_id (s_tcp s') = t_id (s_tcp s);
  ch_handler : t_handler (s_tcp s') = t_handler (s_tcp s);
  ch_send : t_send_bd (s_tcp s') = t_send_bd (s_tcp s) /\ t_send_q (s_tcp s') = t_send_q (s_tcp s);
  ch_recv_q : t_recv_q (s_tcp s') = t_recv_q (s_tcp s);
  ch_data_len : t_data_len (s_tcp s') = t_data_len (s_tcp s);
  ch_mem : exists l l', mem s !! b = Some l /\ length l' = length l /\ mem s' = <[b := l']> (mem s)
}.

Lemma take_pad (l g p : list Z) (n : nat) :
  take (length g) l = g -> (length g + length p <= length l)%nat -> n = (length g + length p)%nat ->
  take n (take (length g) l ++ p ++ drop n l) = g ++ p
  /\ length (take (length g) l ++ p ++ drop n l) = length l.
Proof.
  intros Hg Hl ->. rewrite Hg. split.
  - rewrite app_assoc, take_app_le by (rewrite length_app; lia). apply take_ge. rewrite length_app. lia.
  - rewrite !length_app, length_drop. lia.
Qed.

Lemma recv_pieces s b g wanted ps l :
  transfer s b g wanted -> mem s !! b = Some l -> wanted <= Z.of_nat (length l) ->
  t_sock_in (s_tcp s) = Piece <$> ps -> nonempty ps ->
  let avail := concat ps in
  let k := Z.to_nat (wanted - Z.of_nat (length g)) in
  (Z.of_nat (length g + length avail) < wanted
   /\ exists s', rcv_with_error_handle b s = Done (- EAGAIN, s') /\ transfer s' b (g ++ avail) wanted
        /\ t_sock_in (s_tcp s') = [] /\ t_readable (s_tcp s') = false /\ changed b s s')
  \/ (wanted <= Z.of_nat (length g + length avail)
   /\ exists s' ps', rcv_with_error_handle b s = Done (0, s') /\ transfer s' b (g ++ take k avail) wanted
        /\ Z.of_nat (length (g ++ take k avail)) = wanted
        /\ t_sock_in (s_tcp s') = Piece <$> ps' /\ concat ps' = drop k avail /\ nonempty ps'
        /\ t_readable (s_tcp s') = t_readable (s_tcp s) /\ changed b s s').
Proof.
  intros (Hb & Hgot & Hw & Hle & l0 & El0 & Hpre) El Hwl Hs Hne avail k. rewrite El in El0. injection El0 as <-.
  assert (avail = concat ps) as Hav by done. assert (k = Z.to_nat (wanted - Z.of_nat (length g))) as Hkk by done.
  clearbody avail k.
  unfold rcv_with_error_handle, buf_of_bd. fold (mem s). rewrite El. cbn [of_option obind]. rewrite Hs, Hgot, Hw.
  destruct (rcv_pieces ps (Z.of_nat (length g)) wanted l (t_readable (s_tcp s)) Hne) as [(Hsm & E)|(Hbig & ps' & E & Hc & Hn)];
    [lia|done| |]; rewrite E; cbn [obind]; rewrite ?Nat2Z.id, <- ?Hkk in *; rewrite <- ?Hav in *.
  - left. split; [lia|]. eexists. split; [reflexivity|].
    destruct (take_pad l g avail (length g + length avail)) as [T1 T2]; [done|lia|done|].
    splits; [|done|done|].
    + split; [done|]. cbn. rewrite length_app. splits; [lia|done|lia|].
      eexists. split; [apply lookup_insert_eq|]. exact T1.
    + split; try done. eexists _, _. split; [exact El|]. split; [exact T2|done].
  - right. split; [lia|]. eexists _, ps'. split; [reflexivity|].
    assert (length (take k avail) = k) as Hk by (rewrite length_take; lia).
    destruct (take_pad l g (take k avail) (Z.to_nat wanted)) as [T1 T2]; [done|lia|lia|].
    assert (Z.of_nat (length (g ++ take k avail)) = wanted) as Hfull by (rewrite length_app; lia).
    splits; [|done|done|done|done|done|].
    + split; [done|]. cbn. rewrite Hfull. splits; [done|done|lia|]. eexists. split; [apply lookup_insert_eq|].
      by replace (length (g ++ take k avail)) with (Z.to_nat wanted) by lia.
    + split; try done. eexists _, _. split; [exact El|]. split; [exact T2|done].
Qed.

Definition bd_block (b : bd) : option Z :=
  match b with BdCmd i | BdData i => Some i | _ => None end.

Lemma changed_frame b i s s' : changed b s s' -> bd_block b = Some i -> frame i s s'.
Proof.
  intros [] Hb. destruct ch_mem0 as (l & l' & _ & _ & E). split; try done.
  - intros j _. unfold iocbs. by rewrite ch_disp0.
  - intros j Hj. rewrite E. by split; rewrite lookup_insert_ne by (intros ->; injection Hb; congruence).
Qed.

Lemma changed_block b i s s' : changed b s s' -> bd_block b = Some i -> block s i -> block s' i.
Proof.
  intros [] Hb [H1 (l1 & E1 & L1) (l2 & E2 & L2)]. destruct ch_mem0 as (l & l' & El & Hl & E).
  split; [unfold iocbs; by rewrite ch_disp0|..]; rewrite E.
  - destruct (decide (b = BdCmd i)) as [->|Hn]; [|rewrite lookup_insert_ne by done; eauto].
    rewrite lookup_insert_eq. rewrite El in E1. injection E1 as ->. exists l'. split; [done|lia].
  - destruct (decide (b = BdData i)) as [->|Hn]; [|rewrite lookup_insert_ne by done; eauto].
    rewrite lookup_insert_eq. rewrite El in E2. injection E2 as ->. exists l'. split; [done|lia].
Qed.

(** ** References *)
Definition with_ref (c r : Z) (k : PfConnection) (s : srv) : srv :=
  mkSrv (set_conns (<[c := set_c_ref r k]> (d_conns (s_disp s))) (s_disp s)) (s_tcp s).

Lemma conn_ref_done c k s :
  t_id (s_tcp s) = c -> d_conns (s_disp s) !! c = Some k -> conn_ref s = Done (with_ref c (c_ref_count k + 1) k s).
Proof. intros <- E. unfold conn_ref, on_conn, on_disp. by rewrite E. Qed.

Lemma conn_unref_done c k s :
  t_id (s_tcp s) = c -> d_conns (s_disp s) !! c = Some k -> c_ref_count k <> 1 ->
  conn_unref s = Done (with_ref c (c_ref_count k - 1) k s).
Proof.
  intros <- E Hr. unfold conn_unref, on_disp, drop_conn, conn_dec_ref. rewrite E. cbn [of_option obind c_ref_count set_c_ref].
  by rewrite (proj2 (Z.eqb_neq _ _)) by lia.
Qed.

Lemma with_ref_conn c r k s : d_conns (s_disp (with_ref c r k s)) !! c = Some (set_c_ref r k).
Proof. apply lookup_insert_eq. Qed.

Lemma the_conn_done c k s : t_id (s_tcp s) = c -> d_conns (s_disp s) !! c = Some k -> the_conn s = Done k.
Proof. intros <- E. unfold the_conn. by rewrite E. Qed.

(** a change of the connection alone *)
Lemma recv_state_ref c ev x r r' k s : recv_state c ev x r s -> recv_state c ev x r' (with_ref c r' k s).
Proof.
  intros [H1 H2 H3 H4 H5 H6 H7 H8 H9 H10]. split.
  - exact H1.
  - exact H2.
  - eexists. split; [apply with_ref_conn|done].
  - exact H4.
  - exact H5.
  - exact H6.
  - exact H7.
  - intros i Hi. destruct (H8 i Hi). by split.
  - destruct (rx_cur x); exact H9.
  - exact H10.
Qed.

(** ** Steps of the receiver *)
Section Steps.
Variables (c : Z) (ev : list disp_event).

Lemma take_block x r s i q :
  recv_state c ev x r s -> rx_cur x = Idle -> rx_q x = i :: q ->
  recv_state c ev (mkRx (rx_done x) (Head i []) q) r
    (begin_recv (BdCmd i) (on_tcp (fun t => set_queues (BdCmd <$> q) (t_send_q t) t) s)).
Proof.
  intros Hs Hc Hq. pose proof Hs as []. rewrite Hc, Hq in *. unfold blocks_of in *. rewrite Hc, Hq in *.
  apply (move_on c ev x r s i); try done.
  - intros j hb data Hj. left. split; [|done]. apply (not_done x i j (hb, data)); [|rewrite Hc, Hq; by left|done].
    unfold blocks_of. by rewrite Hc, Hq.
  - intros j Hj. right. destruct (rs_blocks0 j Hj). by split.
  - split; [|done]. split; [done|]. splits; [done|done|done|].
    destruct (bk_cmd _ _ (rs_blocks0 i ltac:(by left))) as (l & El & _). exists l. split; [done|]. by rewrite take_0.
Qed.

(** a transfer that goes on *)
Lemma head_goes_on x r s s' i g p :
  recv_state c ev x r s -> rx_cur x = Head i g -> changed (BdCmd i) s s' ->
  transfer s' (BdCmd i) (g ++ p) PF_MSG_HEAD_SIZE -> Z.of_nat (length (g ++ p)) < PF_MSG_HEAD_SIZE ->
  recv_state c ev (mkRx (rx_done x) (Head i (g ++ p)) (rx_q x)) r s'.
Proof.
  intros Hs Hc Hch Ht Hl. pose proof Hs as []. pose proof Hch as [Hd _ _ _ Hrq _ _].
  unfold blocks_of in *. rewrite Hc in *. apply (move_on c ev x r s i); try done.
  - by eapply changed_frame.
  - by rewrite Hd.
  - by rewrite Hrq.
  - by rewrite Hd.
  - intros j hb data Hj. left. split; [|done]. apply (not_done x i j (hb, data)); [|rewrite Hc; by left|done].
    unfold blocks_of. by rewrite Hc.
  - cbn [rx_cur cur_block rx_q]. intros j Hj. destruct (decide (j = i)) as [->|Hne]; [|left; by rewrite Hc].
    right. eapply changed_block; [done|done|]. apply rs_blocks0. by left.
Qed.

Lemma data_goes_on x r s s' i hb g p :
  recv_state c ev x r s -> rx_cur x = Data i hb g -> changed (BdData i) s s' ->
  transfer s' (BdData i) (g ++ p) (hlen hb) ->
  recv_state c ev (mkRx (rx_done x) (Data i hb (g ++ p)) (rx_q x)) r s'.
Proof.
  intros Hs Hc Hch Ht. pose proof Hs as []. pose proof Hch as [Hd _ _ _ Hrq Hdl _].
  unfold blocks_of in *. rewrite Hc in *. destruct rs_cur0 as (_ & Hw & Hg & Hio & Hl).
  apply (move_on c ev x r s i); try done.
  - by eapply changed_frame.
  - by rewrite Hd.
  - by rewrite Hrq.
  - by rewrite Hd.
  - intros j hb0 data Hj. left. split; [|done]. apply (not_done x i j (hb0, data)); [|rewrite Hc; by left|done].
    unfold blocks_of. by rewrite Hc.
  - cbn [rx_cur cur_block rx_q]. intros j Hj. destruct (decide (j = i)) as [->|Hne]; [|left; by rewrite Hc].
    right. eapply changed_block; [done|done|]. apply rs_blocks0. by left.
  - cbn. splits; [done|done|done|unfold iocbs; by rewrite Hd|by rewrite Hdl].
Qed.

Definition quiet (s : srv) : srv :=
  on_tcp (fun t => set_recv None (t_recved_len t) (t_wanted_recv_len t) t) s.

Definition same_net (s s' : srv) : Prop :=
  t_sock_in (s_tcp s') = t_sock_in (s_tcp s) /\ t_readable (s_tcp s') = t_readable (s_tcp s).

Lemma finish_nodup x i hb data :
  NoDup (blocks_of x) -> cur_block (rx_cur x) = [i] ->
  NoDup (blocks_of (mkRx (rx_done x ++ [(i, (hb, data))]) Idle (rx_q x))).
Proof.
  unfold blocks_of. intros H E. rewrite E in H. cbn [rx_done rx_cur rx_q cur_block app]. rewrite fmap_app.
  by rewrite <- app_assoc.
Qed.

(** the facts about a state right after the last byte of a transfer *)
Lemma completed_state x r s s' b i :
  recv_state c ev x r s -> changed b s s' -> bd_block b = Some i -> cur_block (rx_cur x) = [i] ->
  frame i s (quiet s') /\ block (quiet s') i /\ d_conns (s_disp (quiet s')) = d_conns (s_disp s)
  /\ t_recv_q (s_tcp (quiet s')) = BdCmd <$> rx_q x.
Proof.
  intros [] Hch Hb Hi. pose proof (changed_frame _ _ _ _ Hch Hb) as F.
  pose proof (changed_block _ _ _ _ Hch Hb (rs_blocks0 i ltac:(rewrite Hi; by left))) as B.
  destruct Hch as [Hd _ _ _ Hq _ _]. splits; [by destruct F|by destruct B|cbn; by rewrite Hd|cbn; by rewrite Hq].
Qed.

(** the blocks that are still free *)
Lemma free_rest x i s' :
  cur_block (rx_cur x) = [i] -> NoDup (blocks_of x) ->
  forall j, j ∈ rx_q x -> j <> i /\ j ∈ cur_block (rx_cur x) ++ rx_q x \/ block s' j.
Proof.
  intros Hi Hn j Hj. left. rewrite Hi. split; [|by right]. intros ->.
  unfold blocks_of in Hn. rewrite Hi in Hn. apply NoDup_app in Hn as (_ & _ & Hn).
  by apply NoDup_cons in Hn as [Hn _].
Qed.

Lemma done_rest x i hb data s :
  cur_block (rx_cur x) = [i] -> NoDup (blocks_of x) -> received s i hb data ->
  forall j hb' data', (j, (hb', data')) ∈ rx_done x ++ [(i, (hb, data))] ->
    j <> i /\ (j, (hb', data')) ∈ rx_done x \/ received s j hb' data'.
Proof.
  intros Hi Hn Hr j hb' data' [Hj|Hj]%elem_of_app.
  - left. split; [|done]. apply (not_done x i j (hb', data') Hn); [rewrite Hi; by left|done].
  - right. apply list_elem_of_singleton in Hj. by injection Hj as -> -> ->.
Qed.

Lemma head_complete start x r s s' i g hb :
  recv_state c ev x r s -> rx_cur x = Head i g -> changed (BdCmd i) s s' ->
  transfer s' (BdCmd i) hb PF_MSG_HEAD_SIZE -> Z.of_nat (length hb) = PF_MSG_HEAD_SIZE -> is_write hb = false ->
  exists s3, server_recv_done start (BdCmd i) (quiet s') = ret (0, s3)
    /\ recv_state c ev (mkRx (rx_done x ++ [(i, (hb, []))]) Idle (rx_q x)) r s3 /\ same_net s' s3.
Proof.
  intros Hs Hc Hch (_ & _ & _ & _ & l & El & Hl) Hlen Hw. assert (cur_block (rx_cur x) = [i]) as Hi by by rewrite Hc.
  destruct (completed_state _ _ _ _ _ i Hs Hch eq_refl Hi) as (F & B & Hd & Hq). pose proof (rs_nodup _ _ _ _ _ Hs) as Hnd.
  destruct (bk_iocb _ _ B) as [io Eio]. destruct (bk_cmd _ _ B) as (l' & El' & Hl').
  assert (l' = l) as -> by (unfold quiet, mem in El'; cbn in El'; unfold mem in El; congruence).
  assert (l = hb) as -> by (rewrite take_ge in Hl by lia; done).
  unfold mem in El'. unfold iocbs in Eio. unfold server_recv_done, block_of, buf_of_bd, get_iocb.
  cbn [lift obind rbind ret]. rewrite El', Eio. cbn [lift obind of_option rbind ret]. unfold data_len. rewrite Z.eqb_refl. fold (is_write hb).
  rewrite Hw. eexists. split; [reflexivity|]. split; [|done].
  apply (move_on c ev x r s i).
  - exact Hs.
  - destruct F as [F1 F2 F3 F4 F5]. split; [done|done|done| |done].
    intros j Hj. rewrite <- F4 by done. unfold iocbs. cbn. by rewrite lookup_insert_ne by done.
  - cbn. destruct Hch as [-> _ _ _ _ _ _]. apply Hs.
  - exact Hq.
  - cbn. destruct Hch as [-> _ _ _ _ _ _]. rewrite (rs_events _ _ _ _ _ Hs), !fmap_app. by rewrite app_assoc.
  - by apply finish_nodup.
  - cbn [rx_done]. apply done_rest; [done|done|]. split.
    + eexists. split; [apply lookup_insert_eq|done].
    + destruct (bk_data _ _ B) as (ld & Ed & _). exists ld. split; [exact Ed|done].
  - cbn [rx_cur cur_block rx_q app]. by apply (free_rest x i).
  - done.
Qed.

Lemma good_write_range hb :
  good_write hb = true -> 0 <= hlen hb <= PF_MAX_IO_SIZE /\ hlen hb <> PF_MSG_HEAD_SIZE.
Proof.
  unfold good_write. rewrite !andb_true_iff, negb_true_iff, Z.eqb_neq, !Z.leb_le. tauto.
Qed.

Lemma write_begins x r s s' i g hb :
  recv_state c ev x r s -> rx_cur x = Head i g -> changed (BdCmd i) s s' ->
  transfer s' (BdCmd i) hb PF_MSG_HEAD_SIZE -> Z.of_nat (length hb) = PF_MSG_HEAD_SIZE ->
  is_write hb = true -> good_write hb = true ->
  exists s3, (forall start, server_recv_done start (BdCmd i) (quiet s')
               = let? (_, s) := start (BdData i) s3 in ret (1, s))
    /\ recv_state c ev (mkRx (rx_done x) (Data i hb []) (rx_q x)) (r + 1) (begin_recv (BdData i) s3)
    /\ same_net s' (begin_recv (BdData i) s3).
Proof.
  intros Hs Hc Hch (_ & _ & _ & _ & l & El & Hl) Hlen Hw Hg. assert (cur_block (rx_cur x) = [i]) as Hi by by rewrite Hc.
  destruct (completed_state _ _ _ _ _ i Hs Hch eq_refl Hi) as (F & B & Hd & Hq). pose proof (rs_nodup _ _ _ _ _ Hs) as Hnd.
  destruct (bk_iocb _ _ B) as [io Eio]. destruct (bk_cmd _ _ B) as (l' & El' & Hl').
  assert (l' = l) as -> by (unfold quiet, mem in El'; cbn in El'; unfold mem in El; congruence).
  assert (l = hb) as -> by (rewrite take_ge in Hl by lia; done).
  destruct (good_write_range _ Hg) as [Hr _]. destruct (rs_conn _ _ _ _ _ Hs) as (k & Ek & Hk).
  unfold mem in El'. unfold iocbs in Eio.
  set (s2 := mkSrv (set_iocb i (set_vol_id (h_vol_id (decode_head hb)) (set_cmd (decode_head hb) io)) (s_disp (quiet s')))
               (set_mem (t_mem (s_tcp (quiet s'))) (<[i := i32 (h_length (decode_head hb))]> (t_data_len (s_tcp (quiet s'))))
                  (s_tcp (quiet s')))).
  assert (t_id (s_tcp s2) = c) as Eid by (destruct Hch as [_ E _ _ _ _ _]; cbn; rewrite E; apply Hs).
  assert (d_conns (s_disp s2) !! c = Some k) as Ek2 by (cbn; destruct Hch as [-> _ _ _ _ _ _]; done).
  exists (with_ref c (r + 1) k s2). splits; [| |done].
  { intros start. unfold server_recv_done, block_of, buf_of_bd, get_iocb. cbn [lift obind rbind ret].
    rewrite El', Eio. cbn [lift obind of_option rbind ret]. unfold data_len at 1. rewrite Z.eqb_refl. fold (is_write hb).
    rewrite Hw. fold s2. rewrite (conn_ref_done c k s2 Eid Ek2), Hk. done. }
  apply (move_on c ev x r s i).
  - exact Hs.
  - destruct F as [F1 F2 F3 F4 F5]. split; [done|done|done| |done].
    intros j Hj. rewrite <- F4 by done. unfold iocbs. cbn. by rewrite lookup_insert_ne by done.
  - eexists. split; [apply lookup_insert_eq|done].
  - exact Hq.
  - cbn. destruct Hch as [-> _ _ _ _ _ _]. apply Hs.
  - unfold blocks_of. cbn [rx_done rx_cur rx_q cur_block]. unfold blocks_of in Hnd. by rewrite Hi in Hnd.
  - cbn [rx_done]. intros j hb' data' Hj. left. split; [|done].
    apply (not_done x i j (hb', data') Hnd); [rewrite Hi; by left|done].
  - cbn [rx_cur cur_block rx_q app]. intros j [->|Hj]%elem_of_cons; [|by apply (free_rest x i)].
    right. destruct B as [_ B2 B3]. split; [|done|done]. eexists. apply lookup_insert_eq.
  - assert (i32 (h_length (decode_head hb)) = hlen hb) as Hi32 by (apply i32_small; unfold hlen in *; change PF_MAX_IO_SIZE with 131072 in Hr; lia).
    cbn [rx_cur receiving]. splits; [|done|done| |].
    + split; [done|]. cbn. rewrite lookup_insert_eq. cbn. splits; [done|exact Hi32|exact (proj1 Hr)|].
      destruct (bk_data _ _ B) as (ld & Ed & _). exists ld. split; [exact Ed|done].
    + eexists. split; [apply lookup_insert_eq|done].
    + rewrite <- Hi32. apply lookup_insert_eq.
Qed.

Lemma data_complete start x r s s' i hb g data :
  recv_state c ev x r s -> rx_cur x = Data i hb g -> changed (BdData i) s s' ->
  transfer s' (BdData i) data (hlen hb) ->
  exists s3, server_recv_done start (BdData i) (quiet s') = ret (0, s3)
    /\ recv_state c ev (mkRx (rx_done x ++ [(i, (hb, data))]) Idle (rx_q x)) r s3 /\ same_net s' s3.
Proof.
  intros Hs Hc Hch (_ & _ & _ & _ & l & El & Hl). assert (cur_block (rx_cur x) = [i]) as Hi by by rewrite Hc.
  destruct (completed_state _ _ _ _ _ i Hs Hch eq_refl Hi) as (F & B & Hd & Hq). pose proof (rs_nodup _ _ _ _ _ Hs) as Hnd.
  pose proof (rs_cur _ _ _ _ _ Hs) as Hcur. rewrite Hc in Hcur. destruct Hcur as (_ & Hw & Hg & (io & Eio & Hcmd) & Hdl).
  destruct (good_write_range _ Hg) as [_ Hr]. unfold mem in El. unfold iocbs in Eio.
  unfold server_recv_done, block_of, buf_of_bd, get_iocb. cbn [lift obind rbind ret].
  assert (t_mem (s_tcp (quiet s')) !! BdData i = Some l) as -> by done.
  assert (d_iocbs (s_disp (quiet s')) !! i = Some io) as Eio' by (cbn; destruct Hch as [-> _ _ _ _ _ _]; done).
  rewrite Eio'. cbn [lift obind of_option rbind ret]. unfold data_len.
  assert (t_data_len (s_tcp (quiet s')) !! i = Some (hlen hb)) as -> by (cbn; destruct Hch as [_ _ _ _ _ -> _]; done).
  change (default 0 (Some (hlen hb))) with (hlen hb). rewrite (proj2 (Z.eqb_neq _ _) Hr). eexists. split; [reflexivity|]. split; [|done].
  apply (move_on c ev x r s i).
  - exact Hs.
  - by destruct F.
  - cbn. destruct Hch as [-> _ _ _ _ _ _]. apply Hs.
  - exact Hq.
  - cbn. destruct Hch as [-> _ _ _ _ _ _]. rewrite (rs_events _ _ _ _ _ Hs), !fmap_app. by rewrite app_assoc.
  - by apply finish_nodup.
  - cbn [rx_done]. apply done_rest; [done|done|]. split; [by exists io|]. exists l. by split.
  - cbn [rx_cur cur_block rx_q app]. by apply (free_rest x i).
  - done.
Qed.
End Steps.

(** ** The loop *)
Definition not_bad (x : rx) : Prop := rx_cur x <> Bad.

Lemma next_blocks done q : blocks_of (next done q) = (fst <$> done) ++ q.
Proof. destruct q; cbn; unfold blocks_of; cbn; by rewrite ?app_nil_r. Qed.

Lemma finish_blocks i hb data done q : blocks_of (finish i hb data done q) = (fst <$> done) ++ i :: q.
Proof. unfold finish. by rewrite next_blocks, fmap_app, <- app_assoc. Qed.

Lemma feed_blocks x b : not_bad (feed x b) -> blocks_of (feed x b) = blocks_of x.
Proof.
  unfold feed, not_bad. destruct x as [done cu q]. cbn [rx_cur rx_done rx_q]. destruct cu as [|i g|i hb g|]; try done.
  - destruct (_ =? _); [|done]. unfold start_data. destruct (is_write _); [|by rewrite finish_blocks].
    destruct (good_write _); [|done]. destruct (_ =? 0); [by rewrite finish_blocks|done].
  - destruct (_ =? _); [by rewrite finish_blocks|done].
Qed.

Lemma absorb_blocks x l : not_bad (fst (absorb x l)) -> blocks_of (fst (absorb x l)) = blocks_of x.
Proof.
  revert x. induction l as [|b l IH]; intros x; cbn [absorb]; [done|].
  destruct (rx_cur x) eqn:E; [done|..|done]; intros H; rewrite IH by done; apply feed_blocks;
    intros Hb; apply H; rewrite absorb_stop by auto; done.
Qed.

Lemma settle_blocks x : not_bad x -> blocks_of (settle x) = blocks_of x.
Proof.
  unfold settle, not_bad. destruct x as [done cu q]. cbn [rx_cur rx_done rx_q]. destruct cu; try done.
  - intros _. by rewrite next_blocks.
  - intros _. destruct (_ =? _); [by rewrite finish_blocks|done].
Qed.

(** without a free block nothing is being received *)
Definition settled (x : rx) : Prop := rx_cur x = Idle -> rx_q x = [].

Lemma next_settled done q : settled (next done q).
Proof. by destruct q. Qed.

Lemma feed_settled x b : settled x -> settled (feed x b).
Proof.
  unfold feed. destruct x as [done cu q]. cbn [rx_cur rx_done rx_q]. destruct cu as [|i g|i hb g|]; try done; intros _.
  - destruct (_ =? _); [|done]. unfold start_data. destruct (is_write _); [|apply next_settled].
    destruct (good_write _); [|done]. destruct (_ =? 0); [apply next_settled|done].
  - destruct (_ =? _); [apply next_settled|done].
Qed.

Lemma absorb_settled x l : settled x -> settled (fst (absorb x l)).
Proof.
  revert x. induction l as [|b l IH]; intros x Hx; cbn [absorb]; [done|].
  destruct (rx_cur x) eqn:E; [done|..|done]; by apply IH, feed_settled.
Qed.

Lemma settle_settled x : settled (settle x).
Proof.
  unfold settle, settled. destruct x as [done cu q]. cbn [rx_cur rx_done rx_q]. destruct cu; try done.
  - apply next_settled.
  - destruct (_ =? _); [apply next_settled|done].
Qed.

Section Receive.
Variables (disps : Z) (is_open : Z -> bool) (c : Z) (ev : list disp_event).

Definition weight (x : rx) : nat :=
  (3 * length (rx_q x) + match rx_cur x with Idle => 1 | Head _ _ => 3 | Data _ _ _ => 2 | Bad => 0 end)%nat.

(** the number of blocks that are not finished yet *)
Definition open_blocks (x : rx) : Z := Z.of_nat (length (cur_block (rx_cur x) ++ rx_q x)).

Record ends (x x' : rx) (rest : list Z) (r : Z) (s' : srv) : Prop := mkEnds {
  en_state : recv_state c ev x' (r - (open_blocks x - open_blocks x')) s';
  en_rest : exists ps', t_sock_in (s_tcp s') = Piece <$> ps' /\ concat ps' = rest /\ nonempty ps';
  en_ready : t_readable (s_tcp s') = match rx_cur x' with Idle => true | _ => false end
}.

Definition waits (x : rx) (r : Z) (s : srv) (ps : list (list Z)) : Prop :=
  recv_state c ev x r s /\ t_sock_in (s_tcp s) = Piece <$> ps /\ nonempty ps /\ t_readable (s_tcp s) = true.

Definition receives (n : nat) (x : rx) (r : Z) (s : srv) (ps : list (list Z)) : Prop :=
  exists s', do_receive disps is_open n s = ret (0, s')
    /\ ends x (fst (absorb (settle x) (concat ps))) (snd (absorb (settle x) (concat ps))) r s'.

Lemma the_conn_alive x r s : recv_state c ev x r s -> exists k, the_conn s = Done k.
Proof.
  intros H. destruct (rs_conn _ _ _ _ _ H) as (k & Ek & _). exists k. eapply the_conn_done; [apply H|done].
Qed.

(** nothing to receive into *)
Lemma idle_returns n x r s ps :
  waits x r s ps -> rx_cur x = Idle -> rx_q x = [] -> do_receive disps is_open (S n) s = ret (0, s).
Proof.
  intros (Hs & _) Hc Hq. cbn [do_receive]. pose proof (rs_cur _ _ _ _ _ Hs) as Hcur. rewrite Hc in Hcur.
  unfold receiving in Hcur. rewrite Hcur, (rs_queue _ _ _ _ _ Hs), Hq. done.
Qed.

(** one round of the loop, when the next rounds do as they should *)
Section Round.
Variable n : nat.
Hypothesis IH : forall x r s ps, (weight x <= n)%nat -> waits x r s ps -> open_blocks x < r ->
  not_bad (fst (absorb (settle x) (concat ps))) -> receives n x r s ps.

Lemma round_take x r s ps i q :
  waits x r s ps -> rx_cur x = Idle -> rx_q x = i :: q -> (weight x <= S n)%nat -> open_blocks x < r ->
  not_bad (fst (absorb (settle x) (concat ps))) -> receives (S n) x r s ps.
Proof.
  intros (Hs & Hin & Hne & Hrd) Hc Hq Hw Hr Hb. pose proof (take_block c ev _ _ _ _ _ Hs Hc Hq) as Hs1.
  set (x1 := mkRx (rx_done x) (Head i []) q) in *.
  assert (settle x = x1) as Ex by (unfold settle; by rewrite Hc, Hq).
  assert (open_blocks x1 = open_blocks x) as Eo by (unfold open_blocks; by rewrite Hc, Hq).
  set (s1 := begin_recv _ _) in *. assert (waits x1 r s1 ps) as Hw1 by done.
  destruct (IH x1 r s1 ps) as (s' & E & [E1 E2 E3]); [|done|lia|by rewrite Ex in Hb|].
  - unfold weight in *. rewrite Hc, Hq in Hw. cbn in *. lia.
  - exists s'. rewrite Ex. split; [|split; [by rewrite <- Eo|done|done]]. rewrite <- E. cbn [do_receive].
    pose proof (rs_cur _ _ _ _ _ Hs) as Hcur. rewrite Hc in Hcur. unfold receiving in Hcur.
    rewrite Hcur, (rs_queue _ _ _ _ _ Hs), Hq. change (BdCmd <$> i :: q) with (BdCmd i :: (BdCmd <$> q)). cbn iota. fold s1.
    destruct (the_conn_alive _ _ _ Hs1) as [k ->]. cbn [lift obind rbind ret].
    destruct Hw1 as (_ & _ & _ & Hrd1). by rewrite Hrd1.
Qed.

(** after a message: drop the reference and go round again *)
Definition go_on (m : run (Z * srv)) : run (Z * srv) :=
  let? (rc, s) := m in
  let? s := lift (conn_unref s) in
  if rc =? - ECONNABORTED then let? s := close disps is_open n s in ret (- ECONNABORTED, s)
  else let? _ := lift (the_conn s) in
       if t_readable (s_tcp s) then do_receive disps is_open n s else ret (0, s).

Lemma go_on_idle x x1 r s ps :
  waits x1 r s ps -> rx_cur x1 = Idle -> (weight x1 <= n)%nat -> open_blocks x1 + 1 < r ->
  open_blocks x = open_blocks x1 + 1 -> not_bad (fst (absorb (settle x1) (concat ps))) ->
  exists s', go_on (ret (0, s)) = ret (0, s')
    /\ ends x (fst (absorb (settle x1) (concat ps))) (snd (absorb (settle x1) (concat ps))) r s'.
Proof.
  intros (Hs & Hin & Hne & Hrd) Hc Hw Hr Ho Hb. destruct (rs_conn _ _ _ _ _ Hs) as (k & Ek & Hk).
  unfold go_on. cbn [rbind ret]. rewrite (conn_unref_done c k) by (try apply Hs; unfold open_blocks in *; try lia; done).
  cbn [lift obind rbind ret]. change (0 =? - ECONNABORTED) with false. cbn iota. rewrite Hk.
  pose proof (recv_state_ref _ _ _ _ (r - 1) k _ Hs) as Hs1.
  destruct (the_conn_alive _ _ _ Hs1) as [k' ->]. cbn [lift obind rbind ret].
  change (t_readable (s_tcp (with_ref c (r - 1) k s))) with (t_readable (s_tcp s)). rewrite Hrd.
  destruct (IH x1 (r - 1) (with_ref c (r - 1) k s) ps) as (s' & E & [E1 E2 E3]); [done|done|lia|done|].
  exists s'. split; [done|]. split; [|done|done].
  replace (r - (open_blocks x - open_blocks _)) with (r - 1 - (open_blocks x1 - open_blocks (fst (absorb (settle x1) (concat ps))))) by lia.
  done.
Qed.

(** after a nested call, which received what there was *)
Lemma go_on_nested x x1 x' rest r s :
  ends x1 x' rest (r + 1) s -> settled x' -> (1 <= n)%nat -> open_blocks x1 = open_blocks x -> open_blocks x < r ->
  exists s', go_on (ret (1, s)) = ret (0, s') /\ ends x x' rest r s'.
Proof.
  intros [Hs (ps' & Hin & Hc & Hne) Hrd] Hst Hn Ho Hr. destruct (rs_conn _ _ _ _ _ Hs) as (k & Ek & Hk).
  assert (0 <= open_blocks x') as H0 by (unfold open_blocks; lia).
  unfold go_on. cbn [rbind ret]. rewrite (conn_unref_done c k) by (try apply Hs; try done; lia).
  cbn [lift obind rbind ret]. change (1 =? - ECONNABORTED) with false. cbn iota. rewrite Hk.
  set (r' := r + 1 - (open_blocks x1 - open_blocks x') - 1).
  pose proof (recv_state_ref _ _ _ _ r' k _ Hs) as Hs1. set (s1 := with_ref c r' k s) in *.
  assert (ends x x' rest r s1) as He.
  { split; [|by exists ps'|done]. replace (r - (open_blocks x - open_blocks x')) with r' by lia. done. }
  exists s1. split; [|done]. destruct (the_conn_alive _ _ _ Hs1) as [k' ->]. cbn [lift obind rbind ret].
  change (t_readable (s_tcp s1)) with (t_readable (s_tcp s)). rewrite Hrd. destruct (rx_cur x') eqn:Ecur; try done.
  destruct n as [|m]; [lia|]. eapply (idle_returns m x' r' s1 ps'); [|done|by apply Hst]. exact (conj Hs1 (conj Hin (conj Hne Hrd))).
Qed.

(** the rest of a round once recv has returned *)
Lemma round_part b s s1 k :
  t_recv_bd (s_tcp s) = Some b -> rcv_with_error_handle b s = Done (- EAGAIN, s1) ->
  t_wanted_recv_len (s_tcp s1) <> t_recved_len (s_tcp s1) -> the_conn s1 = Done k -> t_readable (s_tcp s1) = false ->
  do_receive disps is_open (S n) s = ret (0, s1).
Proof.
  intros Hb E Hw Hk Hrd. cbn [do_receive]. rewrite Hb, E. cbn [lift obind rbind ret].
  change (negb (- EAGAIN =? 0) && negb (- EAGAIN =? - EAGAIN)) with false. cbn iota.
  rewrite (proj2 (Z.eqb_neq _ _) Hw), Hk. cbn [lift obind rbind ret]. by rewrite Hrd.
Qed.

Lemma round_full b s s1 :
  t_recv_bd (s_tcp s) = Some b -> rcv_with_error_handle b s = Done (0, s1) ->
  t_wanted_recv_len (s_tcp s1) = t_recved_len (s_tcp s1) -> t_handler (s_tcp s1) = NetDone ->
  do_receive disps is_open (S n) s
  = go_on (server_recv_done (fun b s => do_receive disps is_open n (begin_recv b s)) b (quiet s1)).
Proof.
  intros Hb E Hw Hh. cbn [do_receive]. rewrite Hb, E. cbn [lift obind rbind ret].
  change (negb (0 =? 0) && negb (0 =? - EAGAIN)) with false. cbn iota.
  rewrite Hw, Z.eqb_refl. fold (quiet s1). change (t_handler (s_tcp (quiet s1))) with (t_handler (s_tcp s1)).
  rewrite Hh. done.
Qed.

Lemma round_head x r s ps i g :
  waits x r s ps -> rx_cur x = Head i g -> (weight x <= S n)%nat -> open_blocks x < r ->
  not_bad (fst (absorb (settle x) (concat ps))) -> receives (S n) x r s ps.
Proof.
  intros (Hs & Hin & Hne & Hrd) Hc Hw Hr Hb. pose proof (rs_cur _ _ _ _ _ Hs) as Hcur. rewrite Hc in Hcur.
  destruct Hcur as [Ht Hg]. assert (settle x = x) as Ex by (unfold settle; by rewrite Hc). unfold receives. rewrite Ex in *.
  destruct (bk_cmd _ _ (rs_blocks _ _ _ _ _ Hs i ltac:(rewrite Hc; by left))) as (l & El & Hl).
  assert (x = mkRx (rx_done x) (Head i g) (rx_q x)) as Exx by (destruct x; cbn in *; by subst).
  destruct (recv_pieces s (BdCmd i) g PF_MSG_HEAD_SIZE ps l Ht El ltac:(lia) Hin Hne)
    as [(Hlt & s1 & E & Ht1 & Hin1 & Hrd1 & Hch)|(Hge & s1 & ps1 & E & Ht1 & Hfull & Hin1 & Hc1 & Hn1 & Hrd1 & Hch)].
  - assert (Z.of_nat (length (g ++ concat ps)) < PF_MSG_HEAD_SIZE) as Hlt' by (rewrite length_app; lia).
    pose proof (head_goes_on c ev _ _ _ _ _ _ _ Hs Hc Hch Ht1 Hlt') as Hs1. destruct (the_conn_alive _ _ _ Hs1) as [k Hk].
    exists s1. split.
    + destruct Ht1 as (_ & G & W & _). eapply round_part; [apply Ht|exact E| |exact Hk|exact Hrd1]. lia.
    + assert (absorb x (concat ps) = (mkRx (rx_done x) (Head i (g ++ concat ps)) (rx_q x), [])) as ->
        by (rewrite Exx at 1; apply absorb_head_part; lia).
      split; cbn [fst snd]; [|exists []; splits; [done|done|constructor]|done].
      unfold open_blocks. rewrite Hc. cbn [rx_cur rx_q cur_block]. by rewrite Z.sub_diag, Z.sub_0_r.
  - set (kk := Z.to_nat _) in *. set (hb := g ++ take kk (concat ps)) in *.
    assert (absorb x (concat ps) = absorb (start_data i hb (rx_done x) (rx_q x)) (concat ps1)) as Eab.
    { rewrite Exx at 1. rewrite <- (take_drop kk (concat ps)) at 1. rewrite Hc1. apply absorb_head_done.
      - by rewrite <- length_app.
      - intros E0. subst hb. rewrite E0, app_nil_r in Hfull. lia. }
    rewrite Eab in *. rewrite (round_full _ _ _ (proj1 Ht) E); cycle 1.
    { destruct Ht1 as (_ & -> & -> & _). lia. } { destruct Hch as [_ _ -> _ _ _ _]. apply Hs. }
    assert (cur_block (rx_cur x) = [i]) as Hi by by rewrite Hc. unfold start_data in *.
    assert (open_blocks x = 1 + Z.of_nat (length (rx_q x))) as Eo by (unfold open_blocks; rewrite Hi, length_app; cbn; lia).
    destruct (is_write hb) eqn:Hwr.
    + destruct (good_write hb) eqn:Hgd; [|by rewrite absorb_stop in Hb by auto].
      destruct (write_begins c ev _ _ _ _ _ _ _ Hs Hc Hch Ht1 Hfull Hwr Hgd) as (s3 & Hst & Hs3 & Hnet1 & Hnet2).
      set (x1 := mkRx (rx_done x) (Data i hb []) (rx_q x)) in *.
      assert (settle x1 = (if hlen hb =? 0 then finish i hb [] (rx_done x) (rx_q x) else x1)) as Ex1
        by (unfold settle; cbn; by rewrite Z.eqb_sym).
      destruct (IH x1 (r + 1) (begin_recv (BdData i) s3) ps1) as (s4 & E4 & He).
      * unfold weight in *. rewrite Hc in Hw. cbn in *. lia.
      * split; [done|]. split; [by rewrite Hnet1|]. split; [done|]. by rewrite Hnet2, Hrd1.
      * unfold open_blocks in *. cbn. lia.
      * by rewrite Ex1.
      * rewrite Hst, E4. cbn [rbind ret]. rewrite Ex1 in He. eapply go_on_nested; [exact He| | | |done].
        -- apply absorb_settled. destruct (hlen hb =? 0); [apply next_settled|done].
        -- unfold weight in Hw. rewrite Hc in Hw. lia.
        -- unfold open_blocks. cbn. by rewrite Hc.
    + destruct (head_complete c ev (fun b s => do_receive disps is_open n (begin_recv b s)) _ _ _ _ _ _ _
                  Hs Hc Hch Ht1 Hfull Hwr) as (s3 & E3 & Hs3 & Hnet1 & Hnet2).
      rewrite E3. set (x1 := mkRx (rx_done x ++ [(i, (hb, []))]) Idle (rx_q x)) in *.
      change (finish i hb [] (rx_done x) (rx_q x)) with (settle x1) in *. apply go_on_idle.
      * split; [done|]. split; [by rewrite Hnet1|]. split; [done|]. by rewrite Hnet2, Hrd1.
      * done.
      * unfold weight in *. rewrite Hc in Hw. cbn in *. lia.
      * unfold open_blocks in *. cbn. lia.
      * unfold open_blocks in *. cbn. lia.
      * done.
Qed.

Lemma round_data x r s ps i hb g :
  waits x r s ps -> rx_cur x = Data i hb g -> (weight x <= S n)%nat -> open_blocks x < r ->
  not_bad (fst (absorb (settle x) (concat ps))) -> receives (S n) x r s ps.
Proof.
  intros (Hs & Hin & Hne & Hrd) Hc Hw Hr Hb. pose proof (rs_cur _ _ _ _ _ Hs) as Hcur. rewrite Hc in Hcur.
  destruct Hcur as (Ht & Hwr & Hgd & _). destruct (good_write_range _ Hgd) as [Hrg _]. unfold receives.
  destruct (bk_data _ _ (rs_blocks _ _ _ _ _ Hs i ltac:(rewrite Hc; by left))) as (l & El & Hl).
  assert (x = mkRx (rx_done x) (Data i hb g) (rx_q x)) as Exx by (destruct x; cbn in *; by subst).
  assert (Z.of_nat (length g) <= hlen hb) as Hgl by apply Ht.
  assert (settle x = if Z.of_nat (length g) =? hlen hb then finish i hb g (rx_done x) (rx_q x) else x) as Ex
    by (unfold settle; by rewrite Hc).
  destruct (recv_pieces s (BdData i) g (hlen hb) ps l Ht El ltac:(lia) Hin Hne)
    as [(Hlt & s1 & E & Ht1 & Hin1 & Hrd1 & Hch)|(Hge & s1 & ps1 & E & Ht1 & Hfull & Hin1 & Hc1 & Hn1 & Hrd1 & Hch)].
  - pose proof (data_goes_on c ev _ _ _ _ _ _ _ _ Hs Hc Hch Ht1) as Hs1. destruct (the_conn_alive _ _ _ Hs1) as [k Hk].
    exists s1. split.
    + destruct Ht1 as (_ & G & W & _). eapply round_part; [apply Ht|exact E| |exact Hk|exact Hrd1].
      rewrite G, W, length_app. lia.
    + rewrite Ex, (proj2 (Z.eqb_neq _ _)) by lia.
      assert (absorb x (concat ps) = (mkRx (rx_done x) (Data i hb (g ++ concat ps)) (rx_q x), [])) as ->
        by (rewrite Exx at 1; apply absorb_data_part; lia).
      split; cbn [fst snd]; [|exists []; splits; [done|done|constructor]|done].
      unfold open_blocks. rewrite Hc. cbn [rx_cur rx_q cur_block]. by rewrite Z.sub_diag, Z.sub_0_r.
  - set (kk := Z.to_nat _) in *. set (data := g ++ take kk (concat ps)) in *.
    assert (absorb (settle x) (concat ps) = absorb (finish i hb data (rx_done x) (rx_q x)) (concat ps1)) as Eab.
    { rewrite Ex. destruct (Z.eqb_spec (Z.of_nat (length g)) (hlen hb)) as [Heq|Hneq].
      - assert (kk = O) as Hk0 by lia. subst data. rewrite Hk0, take_0, app_nil_r. by rewrite Hc1, Hk0, drop_0.
      - rewrite Exx at 1. rewrite <- (take_drop kk (concat ps)) at 1. rewrite Hc1. apply absorb_data_done.
        + by rewrite <- length_app.
        + intros E0. subst data. rewrite E0, app_nil_r in Hfull. lia. }
    rewrite Eab in *. rewrite (round_full _ _ _ (proj1 Ht) E); cycle 1.
    { destruct Ht1 as (_ & -> & -> & _). lia. } { destruct Hch as [_ _ -> _ _ _ _]. apply Hs. }
    assert (open_blocks x = 1 + Z.of_nat (length (rx_q x))) as Eo by (unfold open_blocks; rewrite Hc, length_app; cbn; lia).
    destruct (data_complete c ev (fun b s => do_receive disps is_open n (begin_recv b s)) _ _ _ _ _ _ _ _
                Hs Hc Hch Ht1) as (s3 & E3 & Hs3 & Hnet1 & Hnet2).
    rewrite E3. set (x1 := mkRx (rx_done x ++ [(i, (hb, data))]) Idle (rx_q x)) in *.
    change (finish i hb data (rx_done x) (rx_q x)) with (settle x1) in *. apply go_on_idle.
    + split; [done|]. split; [by rewrite Hnet1|]. split; [done|]. by rewrite Hnet2, Hrd1.
    + done.
    + unfold weight in *. rewrite Hc in Hw. cbn in *. lia.
    + unfold open_blocks in *. cbn. lia.
    + unfold open_blocks in *. cbn. lia.
    + done.
Qed.
End Round.

(** Enough rounds for every block of the queue: the loop ends, and has done
    with the pieces what the receiver does with their bytes. *)
Lemma do_receive_absorbs n : forall x r s ps,
  (weight x <= n)%nat -> waits x r s ps -> open_blocks x < r ->
  not_bad (fst (absorb (settle x) (concat ps))) -> receives n x r s ps.
Proof.
  induction n as [|n IH]; intros x r s ps Hw Hs Hr Hb; pose proof (rs_cur _ _ _ _ _ (proj1 Hs)) as Hcur;
    (destruct (rx_cur x) as [|i g|i hb g|] eqn:Hc; [| | |done]).
  1-3: unfold weight in Hw; rewrite Hc in Hw; lia.
  - destruct (rx_q x) as [|i q] eqn:Hq; [|by eapply round_take].
    exists s. split; [by eapply idle_returns|].
    assert (settle x = x) as -> by (unfold settle; rewrite Hc, Hq; destruct x; cbn in *; by subst).
    rewrite absorb_stop by auto. destruct Hs as (Hs & Hin & Hne & Hrd). split; cbn [fst snd]; [|by exists ps|by rewrite Hc].
    by rewrite Z.sub_diag, Z.sub_0_r.
  - by eapply round_head.
  - by eapply round_data.
Qed.
End Receive.

(** ** Pieces that arrive one after the other *)
Definition stable (x : rx) : Prop := settle x = x.

Lemma next_stable done q : stable (next done q).
Proof. by destruct q. Qed.

Lemma feed_stable x b : stable x -> stable (feed x b).
Proof.
  unfold feed. destruct x as [done cu q]. cbn [rx_cur rx_done rx_q]. destruct cu as [|i g|i hb g|]; try done; intros _.
  - destruct (_ =? _); [|done]. unfold start_data. destruct (is_write _); [|apply next_stable].
    destruct (good_write _); [|done]. destruct (Z.eqb_spec (hlen (g ++ [b])) 0) as [E|E]; [apply next_stable|].
    unfold stable, settle. cbn [rx_cur]. change (Z.of_nat (length [])) with 0. by rewrite (proj2 (Z.eqb_neq _ _)) by lia.
  - destruct (Z.eqb_spec (Z.of_nat (length g) + 1) (hlen hb)) as [E|E]; [apply next_stable|].
    unfold stable, settle. cbn [rx_cur]. rewrite length_app. cbn [length].
    by rewrite (proj2 (Z.eqb_neq _ _)) by lia.
Qed.

Lemma absorb_stable x l : stable x -> stable (fst (absorb x l)).
Proof.
  revert x. induction l as [|b l IH]; intros x Hx; cbn [absorb]; [done|].
  destruct (rx_cur x) eqn:E; [done|..|done]; by apply IH, feed_stable.
Qed.

Lemma next_q done q : (length (rx_q (next done q)) <= length q)%nat.
Proof. destruct q; cbn; lia. Qed.

Lemma feed_q x b : (length (rx_q (feed x b)) <= length (rx_q x))%nat.
Proof.
  unfold feed. destruct x as [done cu q]. cbn [rx_cur rx_done rx_q]. destruct cu as [|i g|i hb g|]; cbn [rx_q]; try lia.
  - destruct (_ =? _); [|done]. unfold start_data. destruct (is_write _); [|apply next_q].
    destruct (good_write _); [|done]. destruct (_ =? 0); [apply next_q|done].
  - destruct (_ =? _); [apply next_q|done].
Qed.

Lemma absorb_q x l : (length (rx_q (fst (absorb x l))) <= length (rx_q x))%nat.
Proof.
  revert x. induction l as [|b l IH]; intros x; cbn [absorb]; [done|].
  destruct (rx_cur x); [done|..|done]; (etransitivity; [apply IH|apply feed_q]).
Qed.

(** what is left is left for want of a block *)
Lemma absorb_rest x l : not_bad (fst (absorb x l)) -> snd (absorb x l) <> [] -> rx_cur (fst (absorb x l)) = Idle.
Proof.
  revert x. induction l as [|b l IH]; intros x; cbn [absorb]; [done|].
  destruct (rx_cur x) eqn:E; cbn [fst snd]; [by rewrite E|apply IH|apply IH|]. intros H. by destruct H.
Qed.

Section Deliver.
Variables (disps : Z) (is_open : Z -> bool) (c : Z) (ev : list disp_event).

Definition arrive (p : list Z) (s : srv) : srv :=
  on_tcp (fun t => set_sock_in (t_sock_in t ++ [Piece p]) t) s.

(** each piece arrives and makes the socket readable *)
Fixpoint deliver (n : nat) (ps : list (list Z)) (s : srv) : run srv :=
  match ps with
  | [] => ret s
  | p :: ps => let? s := on_socket_event disps is_open n false true false (arrive p s) in deliver n ps s
  end.

Lemma send_idle n s :
  t_send_bd (s_tcp s) = None -> t_send_q (s_tcp s) = [] -> do_send disps is_open (S n) s = ret (0, s).
Proof. intros H1 H2. cbn [do_send]. by rewrite H1, H2. Qed.

Lemma socket_event_absorbs n x r s ps0 p :
  (3 * length (rx_q x) + 3 <= n)%nat -> recv_state c ev x r s -> open_blocks x < r ->
  t_sock_in (s_tcp s) = Piece <$> ps0 -> nonempty ps0 -> p <> [] ->
  not_bad (fst (absorb (settle x) (concat ps0 ++ p))) ->
  exists s', on_socket_event disps is_open n false true false (arrive p s) = ret s'
    /\ ends c ev x (fst (absorb (settle x) (concat ps0 ++ p))) (snd (absorb (settle x) (concat ps0 ++ p))) r s'.
Proof.
  intros Hn Hs Hr Hin Hne Hp Hb. unfold on_socket_event.
  set (s1 := on_tcp _ (arrive p s)).
  assert (recv_state c ev x r s1) as Hs1.
  { destruct Hs as [H1 H2 H3 H4 H5 H6 H7 H8 H9 H10]. split; [done|done|done|done|done|done|done| | |done].
    - intros i Hi. destruct (H8 i Hi). by split.
    - destruct (rx_cur x); exact H9. }
  assert (waits c ev x r s1 (ps0 ++ [p])) as Hw.
  { split; [done|]. split; [cbn; by rewrite Hin, fmap_app|]. split; [|cbn; by rewrite orb_true_r].
    apply Forall_app. split; [done|by constructor]. }
  rewrite (proj2 (proj2 (proj2 Hw))). assert (concat (ps0 ++ [p]) = concat ps0 ++ p) as Ec
    by (rewrite concat_app; cbn; by rewrite app_nil_r).
  destruct (do_receive_absorbs disps is_open c ev n x r s1 (ps0 ++ [p])) as (s' & E & He); [|done|done|by rewrite Ec|].
  { unfold weight. destruct (rx_cur x); lia. }
  rewrite E. cbn [rbind ret]. rewrite Ec in He. destruct (the_conn_alive _ _ _ _ _ (en_state _ _ _ _ _ _ _ He)) as [k ->].
  cbn [lift obind rbind ret]. exists s'. split; [|done]. destruct (rs_send _ _ _ _ _ (en_state _ _ _ _ _ _ _ He)) as [S1 S2].
  destruct (t_writeable (s_tcp s')); [|done]. destruct n as [|m]; [lia|]. by rewrite send_idle.
Qed.

Lemma absorb_twice x l1 l2 :
  not_bad (fst (absorb x l1)) ->
  absorb (fst (absorb x l1)) (snd (absorb x l1) ++ l2) = absorb x (l1 ++ l2).
Proof.
  intros Hb. rewrite (absorb_app x). pose proof (absorb_rest x l1 Hb) as Hr. destruct (absorb x l1) as [x1 r1].
  cbn [fst snd] in *. destruct (rx_cur x1) eqn:E; [apply absorb_stop; auto| | |by destruct Hb];
    (destruct r1 as [|b r1]; [done|by specialize (Hr ltac:(done))]).
Qed.

Lemma deliver_absorbs n ps : forall p x r s ps0,
  (3 * length (rx_q x) + 3 <= n)%nat -> recv_state c ev x r s -> open_blocks x < r ->
  t_sock_in (s_tcp s) = Piece <$> ps0 -> nonempty ps0 -> nonempty (p :: ps) ->
  let res := absorb (settle x) (concat ps0 ++ concat (p :: ps)) in
  not_bad (fst res) ->
  exists s' ps', deliver n (p :: ps) s = ret s'
    /\ recv_state c ev (fst res) (r - (open_blocks x - open_blocks (fst res))) s'
    /\ t_sock_in (s_tcp s') = Piece <$> ps' /\ nonempty ps' /\ concat ps' = snd res.
Proof.
  induction ps as [|p2 ps IH]; intros p x r s ps0 Hn Hs Hr Hin Hne Hps res Hb; apply Forall_cons in Hps as [Hp Hps];
    set (l1 := concat ps0 ++ p); set (l2 := concat ps0 ++ concat (p :: _)) in res;
    cbn [deliver].
  - assert (l2 = l1) as El by (subst l1 l2; cbn [concat]; by rewrite app_nil_r). subst res. rewrite El in *.
    destruct (socket_event_absorbs n x r s ps0 p Hn Hs Hr Hin Hne Hp Hb) as (s1 & E1 & [Hs1 (ps1 & Hin1 & Hc1 & Hn1) _]).
    rewrite E1. exists s1, ps1. done.
  - assert (l2 = l1 ++ concat (p2 :: ps)) as El by (subst l1 l2; cbn [concat]; by rewrite app_assoc).
    assert (not_bad (fst (absorb (settle x) l1))) as Hb1.
    { intros E. apply Hb. subst res. rewrite El, absorb_app. destruct (absorb (settle x) l1) as [x1 r1].
      cbn [fst] in E. by rewrite E. }
    destruct (socket_event_absorbs n x r s ps0 p Hn Hs Hr Hin Hne Hp Hb1) as (s1 & E1 & [Hs1 (ps1 & Hin1 & Hc1 & Hn1) _]).
    fold l1 in Hs1, Hc1. rewrite E1. cbn [rbind ret]. set (x1 := fst (absorb (settle x) l1)) in *.
    assert (settle x1 = x1) as Hst by (apply absorb_stable; unfold stable, settle; destruct x as [dn [|i g|i hb g|] q]; try done; cbn;
      [by destruct q|destruct (_ =? _) eqn:E; [by destruct q|cbn; by rewrite E]]).
    assert (length (rx_q x1) <= length (rx_q x))%nat as Hq1.
    { etransitivity; [apply absorb_q|]. unfold settle. destruct x as [dn [|i g|i hb g|] q]; cbn; try lia; [apply next_q|].
      destruct (_ =? _); [apply next_q|done]. }
    assert (absorb (settle x1) (concat ps1 ++ concat (p2 :: ps)) = res) as Er.
    { rewrite Hst, Hc1. subst res. rewrite El. by apply absorb_twice. }
    destruct (IH p2 x1 (r - (open_blocks x - open_blocks x1)) s1 ps1) as (s' & ps' & E & Hs' & Hi' & Hn' & Hc');
      [lia|done|lia|done|done|done|by rewrite Er|].
    rewrite Er in *. exists s', ps'. splits; [exact E| |done|done|done].
    by replace (r - (open_blocks x - open_blocks (fst res))) with
      (r - (open_blocks x - open_blocks x1) - (open_blocks x1 - open_blocks (fst res))) by lia.
Qed.
End Deliver.

(** ** Requests *)
Abbreviation msg := (list Z * list Z)%type.

(** a head, and for a write the data it announces: they fit the buffer and
    are not as long as a head *)
Definition msg_ok (m : msg) : Prop :=
  Z.of_nat (length (fst m)) = PF_MSG_HEAD_SIZE /\
  if is_write (fst m) then good_write (fst m) = true /\ Z.of_nat (length (snd m)) = hlen (fst m) else snd m = [].

Definition wire (m : msg) : list Z := fst m ++ snd m.

Lemma absorb_message done i q m l :
  msg_ok m -> absorb (mkRx done (Head i []) q) (wire m ++ l) = absorb (finish i (fst m) (snd m) done q) l.
Proof.
  destruct m as [hb data]. unfold msg_ok, wire. cbn [fst snd]. intros [Hh Hd]. rewrite <- app_assoc.
  rewrite absorb_head_done; [|exact Hh|by intros ->]. cbn [app]. unfold start_data.
  destruct (is_write hb); [|by subst]. destruct Hd as [-> Hd]. destruct (Z.eqb_spec (hlen hb) 0) as [E|E].
  - destruct data; [done|]. rewrite E in Hd. done.
  - rewrite absorb_data_done; [done|exact Hd|]. intros ->. by apply E.
Qed.

Lemma absorb_messages ms : forall done q,
  Forall msg_ok ms -> (length ms <= length q)%nat ->
  absorb (next done q) (concat (wire <$> ms)) = (next (done ++ zip q ms) (drop (length ms) q), []).
Proof.
  induction ms as [|m ms IH]; intros done q Hok Hl.
  - cbn. rewrite drop_0. by destruct q; cbn; rewrite app_nil_r.
  - apply Forall_cons in Hok as [Hm Hok]. destruct q as [|i q]; [cbn in Hl; lia|]. cbn [next fmap list_fmap concat].
    rewrite absorb_message by done. unfold finish. destruct m as [hb data]. cbn [fst snd].
    change (list_fmap _ _ wire ms) with (wire <$> ms). rewrite IH by (try done; cbn in Hl; lia).
    cbn [zip length drop]. by rewrite <- app_assoc.
Qed.

(** a connection after its handshake, with blocks [ids] waiting for requests *)
Record listening (c : Z) (ids : list Z) (r : Z) (s : srv) : Prop := mkListening {
  ls_id : t_id (s_tcp s) = c;
  ls_handler : t_handler (s_tcp s) = NetDone;
  ls_conn : exists k, d_conns (s_disp s) !! c = Some k /\ c_ref_count k = r;
  ls_idle : t_recv_bd (s_tcp s) = None;
  ls_queue : t_recv_q (s_tcp s) = BdCmd <$> ids;
  ls_nodup : NoDup ids;
  ls_blocks : forall i, i ∈ ids -> block s i;
  ls_socket : t_sock_in (s_tcp s) = [];
  ls_send : t_send_bd (s_tcp s) = None /\ t_send_q (s_tcp s) = []
}.

Lemma listening_state c ids r s :
  listening c ids r s -> recv_state c (d_events (s_disp s)) (mkRx [] Idle ids) r s.
Proof.
  intros []. split; try done.
  - cbn. by rewrite app_nil_r.
  - intros i hb data H. by apply not_elem_of_nil in H.
Qed.

Lemma zip_elem (q : list Z) (ms : list msg) j i m :
  q !! j = Some i -> ms !! j = Some m -> (i, m) ∈ zip q ms.
Proof. intros Hi Hm. apply (list_elem_of_lookup_2 _ j). apply lookup_zip_with_Some. by exists i, m. Qed.

Lemma zip_fst (q : list Z) (ms : list msg) :
  (length ms <= length q)%nat -> fst <$> zip q ms = take (length ms) q.
Proof.
  revert ms. induction q as [|i q IH]; intros [|m ms] Hl; cbn in *; try done; try lia. f_equal. apply IH. lia.
Qed.

Section Requests.
Variables (disps : Z) (is_open : Z -> bool).

Lemma deliver_messages (n : nat) (c r : Z) (ids : list Z) (ms : list msg) (ps : list (list Z)) (s : srv) :
  listening c ids r s -> Z.of_nat (length ids) < r -> Forall msg_ok ms -> (length ms <= length ids)%nat ->
  nonempty ps -> concat ps = concat (wire <$> ms) -> (3 * length ids + 3 <= n)%nat ->
  exists s', deliver disps is_open n ps s = ret s'
    /\ d_events (s_disp s') = d_events (s_disp s) ++ (EvIoReq <$> take (length ms) ids)
    /\ (forall j i m, ids !! j = Some i -> ms !! j = Some m ->
          (exists io, d_iocbs (s_disp s') !! i = Some io /\ i_cmd io = decode_head (fst m))
          /\ exists buf, t_mem (s_tcp s') !! BdData i = Some buf /\ take (length (snd m)) buf = snd m)
    /\ t_sock_in (s_tcp s') = []
    /\ exists k, d_conns (s_disp s') !! c = Some k /\ c_ref_count k = r - Z.of_nat (length ms).
Proof.
  intros Hl Hr Hok Hlen Hne Hc Hn. pose proof (listening_state _ _ _ _ Hl) as Hs.
  destruct ps as [|p ps].
  { exists s. split; [done|]. cbn in Hc. destruct ms as [|m ms].
    - cbn. rewrite app_nil_r, Z.sub_0_r. splits; [done|done|apply Hl|apply Hl].
    - exfalso. apply Forall_cons in Hok as [[Hm _] _]. cbn in Hc. symmetry in Hc. apply app_nil in Hc as [Hc _].
      unfold wire in Hc. apply app_nil in Hc as [Hc _]. by rewrite Hc in Hm. }
  destruct (deliver_absorbs disps is_open c _ n ps p (mkRx [] Idle ids) r s [] ltac:(cbn; lia) Hs ltac:(unfold open_blocks; cbn; lia)
              (ls_socket _ _ _ _ Hl) ltac:(constructor) Hne) as (s' & ps' & E & Hs' & Hi' & Hn' & Hc').
  { change (concat [] ++ concat (p :: ps)) with (concat (p :: ps)). rewrite Hc.
    change (settle _) with (next [] ids). rewrite absorb_messages by done. by destruct (drop _ ids). }
  change (concat [] ++ concat (p :: ps)) with (concat (p :: ps)) in *. rewrite Hc in *.
  change (settle _) with (next [] ids) in *. rewrite absorb_messages in * by done. cbn [fst snd app] in *.
  set (x' := next (zip ids ms) (drop (length ms) ids)) in *.
  assert (rx_done x' = zip ids ms) as Hd by (unfold x'; by destruct (drop _ ids)).
  exists s'. split; [exact E|]. splits.
  - rewrite (rs_events _ _ _ _ _ Hs'), Hd. by rewrite zip_fst.
  - intros j i m Hj Hm. apply (rs_done _ _ _ _ _ Hs' i (fst m) (snd m)). rewrite Hd. destruct m. by eapply zip_elem.
  - rewrite Hi'. destruct ps' as [|q ps']; [done|]. apply Forall_cons in Hn' as [Hq _]. cbn in Hc'. by apply app_nil in Hc' as [-> _].
  - destruct (rs_conn _ _ _ _ _ Hs') as (k & Ek & Hk). exists k. split; [done|]. rewrite Hk.
    assert (open_blocks x' = Z.of_nat (length ids) - Z.of_nat (length ms)) as ->; [|unfold open_blocks; cbn; lia].
    unfold open_blocks, x'. assert (length (drop (length ms) ids) = length ids - length ms)%nat as Hdl by apply length_drop.
    destruct (drop (length ms) ids); cbn in *; lia.
Qed.
(** C17 (requests in any pieces): a client sends requests, heads with the data
    of writes, over a TCP connection that has at least as many blocks
    waiting.  However the bytes are cut into pieces, all are received without
    an error; the dispatcher gets one event per request, in the order of the
    requests, and each block holds the head that was sent and the data; one
    reference to the connection is dropped per request, and no byte is left.
    The loop of [do_receive] and the calls nested in it end. *)
Theorem requests_in_any_pieces (n : nat) (c r : Z) (ids : list Z) (ms : list msg) (ps : list (list Z)) (s : srv) :
  listening c ids r s -> Z.of_nat (length ids) < r -> Forall msg_ok ms -> (length ms <= length ids)%nat ->
  nonempty ps -> concat ps = concat (wire <$> ms) -> (3 * length ids + 3 <= n)%nat ->
  exists s', deliver disps is_open n ps s = ret s'
    /\ d_events (s_disp s') = d_events (s_disp s) ++ (EvIoReq <$> take (length ms) ids)
    /\ (forall j i m, ids !! j = Some i -> ms !! j = Some m ->
          (exists io, d_iocbs (s_disp s') !! i = Some io /\ i_cmd io = decode_head (fst m))
          /\ exists buf, t_mem (s_tcp s') !! BdData i = Some buf /\ take (length (snd m)) buf = snd m)
    /\ t_sock_in (s_tcp s') = []
    /\ exists k, d_conns (s_disp s') !! c = Some k /\ c_ref_count k = r - Z.of_nat (length ms).
Proof. apply deliver_messages. Qed.
End Requests.

(** ** A connection with two blocks *)
Module TcpDemo.
Definition head (op len : Z) : PfMessageHead := mkHead op 7 0 16 0 0 1 4096 len 3.
Definition iocb : PfServerIocb := mkIocb (head 0 0) 0 [] (Some 9) 0 MSG_STATUS_SUCCESS 0 1 0 false.
Definition conn (refs : Z) : PfConnection := mkConn CONN_OK TCP_TYPE refs 1 0 0 false [].
Definition pool : ObjectMemoryPool PfFixedSizeQueue := mkPool (mkQueue 0 0 3 [0; 1; 0]) true 2.
Definition disp (refs : Z) : PfDispatcher :=
  mkDisp ∅ 0 (mkStat 0 0 0 0 0 0) {[0 := iocb; 1 := iocb]} pool {[9 := conn refs]} [] false [].
Definition bufs : gmap bd (list Z) :=
  {[BdCmd 0 := replicate 64 0; BdCmd 1 := replicate 64 0;
    BdData 0 := replicate (Z.to_nat PF_MAX_IO_SIZE) 0; BdData 1 := replicate (Z.to_nat PF_MAX_IO_SIZE) 0;
    BdReply 0 := replicate 32 0; BdReply 1 := replicate 32 0]}.
(** two references of the blocks, two of their descriptors and the one for
    closing *)
Definition idle : srv :=
  mkSrv (disp 5) (mkTcp 9 None 0 0 None 0 0 false true [BdCmd 0; BdCmd 1] [] 510 255 NetDone [] [] [] bufs ∅).

Lemma idle_block i : i ∈ [0; 1] -> block idle i.
Proof.
  intros Hi. apply list_elem_of_In in Hi as [<-|[<-|[]]];
    (split; [by eexists|eexists; split; reflexivity|eexists; split; [reflexivity|]; rewrite length_replicate; by apply Z2Nat.id]).
Qed.

Lemma idle_listening : listening 9 [0; 1] 5 idle.
Proof.
  split; [done|done|by exists (conn 5)|done|done| |apply idle_block|done|done].
  apply (bool_decide_unpack _). by vm_compute.
Qed.

Definition write3 : msg := (encode_head (head S5_OP_WRITE 3), [10; 11; 12]).
Definition read8 : msg := (encode_head (head S5_OP_READ 4096), []).
End TcpDemo.

Lemma requests_in_any_pieces_witness :
  exists s', deliver 1 (fun _ => true) 9
      [take 10 (wire TcpDemo.write3); drop 10 (wire TcpDemo.write3) ++ take 1 (wire TcpDemo.read8);
       drop 1 (wire TcpDemo.read8)] TcpDemo.idle = ret s'
    /\ d_events (s_disp s') = [EvIoReq 0; EvIoReq 1].
Proof.
  destruct (requests_in_any_pieces 1 (fun _ => true) 9 9 5 [0; 1] [TcpDemo.write3; TcpDemo.read8]
    [take 10 (wire TcpDemo.write3); drop 10 (wire TcpDemo.write3) ++ take 1 (wire TcpDemo.read8);
     drop 1 (wire TcpDemo.read8)] TcpDemo.idle TcpDemo.idle_listening) as (s' & E & Ev & _).
  - done.
  - repeat constructor.
  - cbn. lia.
  - repeat constructor; done.
  - by vm_compute.
  - cbn. lia.
  - exists s'. split; [exact E|exact Ev].
Defined.
