(* ===== verification/TcpSend.v ===== *)
(** * Replies of a TCP connection

    What [do_send] of a connection (TcpServer.v) puts on the wire.  The bytes
    still to be sent are a function of the state: the rest of the transfer in
    progress, the data of a successful read after its reply, and the replies
    in the queue.  Sending moves bytes from there to the wire and changes
    nothing else of their sequence, however little the socket accepts. *)

From Stdlib Require Import ZArith Lia.
From stdpp Require Import base tactics list numbers sets gmap.
From S2P Require Import Prelude Bytes Runs Ids Volume Connection Dispatcher TcpServer TcpProps.

(** ** The bytes to be sent *)
Definition read_reply (s : srv) (i : Z) : bool :=
  match iocbs s !! i with
  | Some io => IS_READ_OP (h_opcode (i_cmd io)) && (i_complete_status io =? MSG_STATUS_SUCCESS)
  | None => false
  end.

Definition content (s : srv) (b : bd) : list Z :=
  take (Z.to_nat (data_len b (s_tcp s))) (default [] (mem s !! b)).

Definition follow (s : srv) (b : bd) : list Z :=
  match b with
  | BdReply i => if read_reply s i then content s (BdData i) else []
  | _ => []
  end.

Definition whole (s : srv) (b : bd) : list Z := content s b ++ follow s b.

Definition in_progress (s : srv) : list Z :=
  match t_send_bd (s_tcp s) with
  | Some b => drop (Z.to_nat (t_sent_len (s_tcp s))) (content s b) ++ follow s b
  | None => []
  end.

Definition pending (s : srv) : list Z := in_progress s ++ concat (whole s <$> t_send_q (s_tcp s)).

(** the descriptors being sent, and their blocks *)
Definition sending (s : srv) : list bd := option_list (t_send_bd (s_tcp s)) ++ t_send_q (s_tcp s).
Definition blk (b : bd) : Z := match b with BdCmd i | BdData i | BdReply i => i | BdHand => 0 end.

(** ** Connections that can send *)
Definition fits (s : srv) (b : bd) : Prop :=
  exists l, mem s !! b = Some l /\ 0 <= data_len b (s_tcp s) <= Z.of_nat (length l).

(** data as long as a reply would be taken for one *)
Definition good_data (s : srv) (i : Z) : Prop := fits s (BdData i) /\ data_len (BdData i) (s_tcp s) <> PF_MSG_REPLY_SIZE.

Definition sendable (s : srv) (b : bd) : Prop :=
  is_Some (iocbs s !! blk b) /\
  match b with
  | BdReply i => fits s b /\ (read_reply s i = true -> good_data s i)
  | BdData i => good_data s i
  | _ => False
  end.

Definition accepting (x : send_room) : Prop := match x with Accepts n => 0 < n | SendErr _ => False end.

Definition is_reply (b : bd) : bool := match b with BdReply _ => true | _ => false end.

Record outbox (s : srv) : Prop := mkOutbox {
  ob_queue : Forall is_reply (t_send_q (s_tcp s));
  ob_ok : Forall (sendable s) (sending s);
  ob_nodup : NoDup (blk <$> sending s);
  ob_depth : Z.of_nat (length (t_recv_q (s_tcp s)) + length (sending s)) <= t_recv_depth (s_tcp s);
  ob_cur : match t_send_bd (s_tcp s) with
           | Some b => t_wanted_send_len (s_tcp s) = data_len b (s_tcp s)
                       /\ 0 <= t_sent_len (s_tcp s) <= data_len b (s_tcp s)
           | None => True
           end;
  ob_room : Forall accepting (t_room (s_tcp s))
}.

Definition alive (c r : Z) (s : srv) : Prop :=
  t_id (s_tcp s) = c /\ t_handler (s_tcp s) = NetDone
  /\ exists k, d_conns (s_disp s) !! c = Some k /\ c_ref_count k = r.

Definition send_weight (s : srv) : nat :=
  S (length (t_room (s_tcp s))
     + match t_send_bd (s_tcp s) with Some (BdReply _) => 2 | Some _ => 1 | None => 0 end
     + 3 * length (t_send_q (s_tcp s))).

(** what sending leaves alone *)
Definition inward (s : srv) : option bd * bool * list arrival * list disp_event * gmap bd (list Z) :=
  (t_recv_bd (s_tcp s), t_readable (s_tcp s), t_sock_in (s_tcp s), d_events (s_disp s), mem s).

(** bytes only move from [pending] to the wire, blocks only from [sending] to
    the queue of receives, and each accepted call of send moves a byte *)
Record moved (s s' : srv) : Prop := mkMoved {
  mv_bytes : t_wire (s_tcp s') ++ pending s' = t_wire (s_tcp s) ++ pending s;
  mv_blocks : t_recv_q (s_tcp s') ++ (BdCmd ∘ blk <$> sending s') = t_recv_q (s_tcp s) ++ (BdCmd ∘ blk <$> sending s);
  mv_calls : (length (t_wire (s_tcp s)) + length (t_room (s_tcp s))
              <= length (t_wire (s_tcp s')) + length (t_room (s_tcp s')))%nat;
  mv_weight : (send_weight s' <= send_weight s)%nat;
  mv_inward : inward s' = inward s
}.

#[global] Instance moved_preorder : PreOrder moved.
Proof.
  split; [intros s; by split|]. intros s1 s2 s3 [B1 L1 C1 W1 I1] [B2 L2 C2 W2 I2]. split; [congruence|congruence|lia|lia|congruence].
Qed.

(** all is sent, or the socket accepts nothing more *)
Definition settled_out (s : srv) : Prop :=
  (sending s = [] /\ t_writeable (s_tcp s) = true)
  \/ (t_room (s_tcp s) = [] /\ pending s <> [] /\ t_writeable (s_tcp s) = false).

(** ** Changes that keep the outbox *)
Lemma whole_frame s s' (q : list bd) :
  t_mem (s_tcp s') = t_mem (s_tcp s) -> t_data_len (s_tcp s') = t_data_len (s_tcp s) ->
  (forall b, b ∈ q -> iocbs s' !! blk b = iocbs s !! blk b) -> whole s' <$> q = whole s <$> q.
Proof.
  intros Hm Hd Hi. apply list_fmap_ext. intros j b Hb. apply list_elem_of_lookup_2, Hi in Hb.
  unfold whole, follow, content, read_reply, data_len, mem. rewrite Hm, Hd. destruct b; try done. cbn [blk] in Hb. by rewrite Hb.
Qed.

Lemma sendable_frame s s' b :
  t_mem (s_tcp s') = t_mem (s_tcp s) -> t_data_len (s_tcp s') = t_data_len (s_tcp s) ->
  iocbs s' !! blk b = iocbs s !! blk b -> sendable s b -> sendable s' b.
Proof.
  intros Hm Hd Hi. unfold sendable, good_data, fits, read_reply, data_len, mem. rewrite Hm, Hd, Hi.
  destruct b; cbn [blk] in Hi; [done|done|by rewrite Hi|done].
Qed.

Section Send.
Variables (disps : Z) (is_open : Z -> bool) (c : Z).

Definition sends (n : nat) (r : Z) (s : srv) : Prop :=
  exists s', do_send disps is_open n s = ret (0, s') /\ alive c r s' /\ outbox s' /\ moved s s' /\ settled_out s'.

Definition ready (r : Z) (s : srv) : Prop := alive c r s /\ 0 < r /\ outbox s /\ t_writeable (s_tcp s) = true.

Definition on_again (n : nat) (s : srv) : run (Z * srv) :=
  let? _ := lift (the_conn s) in if t_writeable (s_tcp s) then do_send disps is_open n s else ret (0, s).

Lemma alive_conn r s : alive c r s -> exists k, the_conn s = Done k.
Proof. intros (Hid & _ & k & Ek & _). exists k. by eapply the_conn_done. Qed.

(** a call that has settled the outbox ends the loop *)
Lemma again_ends n r s : alive c r s -> settled_out s -> on_again (S n) s = ret (0, s).
Proof.
  intros Ha [[Hs Hw]|(_ & _ & Hw)]; unfold on_again; destruct (alive_conn _ _ Ha) as [k ->]; cbn [lift obind rbind ret]; rewrite Hw; [|done].
  unfold sending in Hs. apply app_nil in Hs as [H1 H2]. apply send_idle; [|done]. by destruct (t_send_bd (s_tcp s)).
Qed.

Lemma again_goes_on n r s :
  ready r s -> sends n r s ->
  exists s', on_again n s = ret (0, s') /\ alive c r s' /\ outbox s' /\ moved s s' /\ settled_out s'.
Proof.
  intros (Ha & _ & _ & Hw) Hs. unfold on_again. destruct (alive_conn _ _ Ha) as [k ->]. cbn [lift obind rbind ret]. by rewrite Hw.
Qed.

Lemma alive_ref r k s : alive c r s -> alive c (c_ref_count k) (with_ref c (c_ref_count k) k s).
Proof. intros (H1 & H2 & _). split; [done|]. split; [done|]. eexists. split; [apply with_ref_conn|done]. Qed.

Lemma alive_unref r s :
  alive c (r + 1) s -> 0 < r -> exists k, conn_unref s = Done (with_ref c r k s) /\ alive c r (with_ref c r k s).
Proof.
  intros (H1 & H2 & k & Ek & Hk) Hr. exists k. rewrite (conn_unref_done c k s H1 Ek) by lia.
  replace (c_ref_count k - 1) with r by lia. split; [done|]. split; [done|]. split; [done|]. eexists. split; [apply with_ref_conn|done].
Qed.

Lemma alive_addref r s :
  alive c r s -> exists k, conn_ref s = Done (with_ref c (r + 1) k s) /\ alive c (r + 1) (with_ref c (r + 1) k s).
Proof.
  intros (H1 & H2 & k & Ek & Hk). exists k. rewrite (conn_ref_done c k s H1 Ek), Hk.
  split; [done|]. split; [done|]. split; [done|]. eexists. split; [apply with_ref_conn|done].
Qed.

(** the next reply of the queue *)
Lemma next_reply r s b q :
  ready r s -> t_send_bd (s_tcp s) = None -> t_send_q (s_tcp s) = b :: q ->
  let s1 := begin_send b (on_tcp (fun t => set_queues (t_recv_q t) q t) s) in
  ready r s1 /\ moved s s1 /\ (send_weight s1 < send_weight s)%nat.
Proof.
  intros (Ha & Hr & [O1 O2 O3 O4 O5 O6] & Hw) Hc Hq s1. unfold sending in *. rewrite Hc, Hq in *. cbn [option_list app] in *.
  apply Forall_cons in O1 as [Hb O1]. assert (sending s1 = b :: q) as Es by done.
  assert (0 <= data_len b (s_tcp s)) as Hl.
  { apply Forall_cons in O2 as [[_ H] _]. destruct b; try done. }
  assert (send_weight s1 < send_weight s)%nat as Hlt.
  { unfold send_weight. rewrite Hc, Hq. cbn. destruct b; try done. lia. }
  splits.
  - split; [exact Ha|]. split; [done|]. split; [|exact Hw]. split; [exact O1| | | | |exact O6]; rewrite ?Es; [|exact O3|exact O4|].
    + eapply Forall_impl; [exact O2|]. intros b'. by apply sendable_frame.
    + cbn. split; [by destruct b|]. change (0 <= 0 <= data_len b (s_tcp s)). lia.
  - split; [| |done|lia|done].
    + change (t_wire (s_tcp s1)) with (t_wire (s_tcp s)). f_equal.
      change (pending s1) with (whole s b ++ concat (whole s <$> q)). unfold pending, in_progress. by rewrite Hc, Hq.
    + rewrite Es. unfold sending. by rewrite Hc, Hq.
  - done.
Qed.

Lemma slide (l : list Z) n m k :
  (m + k <= n)%nat -> take k (drop m l) ++ drop (m + k) (take n l) = drop m (take n l).
Proof.
  intros H. rewrite <- (take_drop k (drop m (take n l))), drop_drop. f_equal.
  rewrite skipn_firstn_comm, take_take. f_equal. lia.
Qed.

(** one call of send that is accepted *)
Lemma send_accepted r s b m room :
  ready r s -> t_send_bd (s_tcp s) = Some b -> t_sent_len (s_tcp s) < t_wanted_send_len (s_tcp s) ->
  t_room (s_tcp s) = Accepts m :: room ->
  exists s1, send_with_error_handle b s = Done (0, s1) /\ ready r s1 /\ moved s s1 /\ t_send_bd (s_tcp s1) = Some b
    /\ (send_weight s1 < send_weight s)%nat.
Proof.
  intros (Ha & Hr & [O1 O2 O3 O4 O5 O6] & Hw) Hc Hlt Hrm. unfold send_with_error_handle.
  rewrite (proj2 (Z.ltb_lt _ _) Hlt), Hrm. rewrite Hc in O5. destruct O5 as [Hwl Hsl]. rewrite Hrm in O6.
  apply Forall_cons in O6 as [Hm O6]. cbn [accepting] in Hm.
  set (k := Z.min m _). assert (0 < k <= t_wanted_send_len (s_tcp s) - t_sent_len (s_tcp s)) as Hk by lia.
  rewrite (proj2 (Z.leb_gt _ _)) by lia.
  assert (fits s b) as (l & El & Hl).
  { unfold sending in O2. rewrite Hc in O2. apply Forall_cons in O2 as [[_ H] _]. destruct b; try done; apply H. }
  unfold buf_of_bd. unfold mem in El. rewrite El. cbn [of_option obind]. rewrite (proj2 (Z.leb_le _ _)) by lia.
  eexists. split; [reflexivity|]. set (s1 := on_tcp _ s).
  assert (sending s1 = sending s) as Es by done.
  assert (send_weight s1 < send_weight s)%nat as Hlw by (unfold send_weight; rewrite Hrm; cbn; lia).
  splits; [| |done|done].
  - split; [exact Ha|]. split; [done|]. split; [|exact Hw]. split; [exact O1|exact O2|exact O3|exact O4| |exact O6].
    change (t_send_bd (s_tcp s1)) with (t_send_bd (s_tcp s)). rewrite Hc.
    change (t_wanted_send_len (s_tcp s) = data_len b (s_tcp s) /\ 0 <= t_sent_len (s_tcp s) + k <= data_len b (s_tcp s)). lia.
  - split; [|done| |lia|done].
    + unfold pending, in_progress. change (t_send_bd (s_tcp s1)) with (t_send_bd (s_tcp s)). rewrite Hc.
      change (t_wire (s_tcp s1)) with (t_wire (s_tcp s) ++ take (Z.to_nat k) (drop (Z.to_nat (t_sent_len (s_tcp s))) l)).
      change (t_sent_len (s_tcp s1)) with (t_sent_len (s_tcp s) + k). change (content s1 b) with (content s b).
      change (follow s1 b) with (follow s b). change (whole s1 <$> t_send_q (s_tcp s1)) with (whole s <$> t_send_q (s_tcp s)).
      unfold content, mem. rewrite El. change (default [] (Some l)) with l. rewrite Z2Nat.inj_add by lia.
      rewrite <- (slide l _ (Z.to_nat (t_sent_len (s_tcp s))) (Z.to_nat k)) by lia. by rewrite <- !app_assoc.
    + change (t_room (s_tcp s1)) with room. rewrite Hrm.
      change (t_wire (s_tcp s1)) with (t_wire (s_tcp s) ++ take (Z.to_nat k) (drop (Z.to_nat (t_sent_len (s_tcp s))) l)).
      rewrite length_app, length_take, length_drop. cbn [length]. lia.
Qed.

(** the socket accepts nothing *)
Lemma send_again r s b :
  ready r s -> t_send_bd (s_tcp s) = Some b -> t_sent_len (s_tcp s) < t_wanted_send_len (s_tcp s) ->
  t_room (s_tcp s) = [] ->
  let s1 := on_tcp (set_ready (t_readable (s_tcp s)) false) s in
  send_with_error_handle b s = Done (- EAGAIN, s1) /\ alive c r s1 /\ outbox s1 /\ moved s s1 /\ settled_out s1.
Proof.
  intros (Ha & Hr & Ho & Hw) Hc Hlt Hrm s1. unfold send_with_error_handle. rewrite (proj2 (Z.ltb_lt _ _) Hlt), Hrm.
  pose proof Ho as [O1 O2 O3 O4 O5 O6]. splits.
  - done.
  - exact Ha.
  - by split.
  - by split.
  - right. split; [exact Hrm|]. split; [|done]. intros E. change (pending s = []) in E. unfold pending, in_progress in E.
    rewrite Hc in E, O5. apply app_nil in E as [E _]. apply app_nil in E as [E _]. apply (f_equal length) in E.
    unfold sending in O2. rewrite Hc in O2. apply Forall_cons in O2 as [[_ H] _].
    assert (fits s b) as (l & El & Hl) by (destruct b; try done; apply H).
    unfold content in E. rewrite El in E. change (default [] (Some l)) with l in E.
    rewrite length_drop, length_take in E. cbn [length] in E. lia.
Qed.

Definition off_bd (s : srv) : srv := on_tcp (fun t => set_send None (t_sent_len t) (t_wanted_send_len t) t) s.

(** the reply of a successful read is sent: its data come next *)
Lemma data_follow r s i :
  ready r s -> t_send_bd (s_tcp s) = Some (BdReply i) -> t_wanted_send_len (s_tcp s) = t_sent_len (s_tcp s) ->
  read_reply s i = true ->
  exists s2, ready (r + 1) (begin_send (BdData i) s2) /\ moved s (begin_send (BdData i) s2)
    /\ (send_weight (begin_send (BdData i) s2) < send_weight s)%nat
    /\ forall start, server_send_done start (BdReply i) (off_bd s) = let? (_, s) := start (BdData i) s2 in ret (1, s).
Proof.
  intros (Ha & Hr & [O1 O2 O3 O4 O5 O6] & Hw) Hc Hfull Hread.
  destruct (alive_addref r (off_bd s) Ha) as (k & Ek & Ha2). set (s2 := with_ref c (r + 1) k (off_bd s)) in *.
  exists s2. set (s3 := begin_send (BdData i) s2). unfold sending in O2, O3, O4. rewrite Hc in *. cbn [option_list app] in *.
  assert (sending s3 = BdData i :: t_send_q (s_tcp s)) as Es by done.
  apply Forall_cons in O2 as [[Hio [_ Hg]] O2]. specialize (Hg Hread) as Hgd. destruct Hgd as [(l & El & Hl) Hne].
  assert (send_weight s3 < send_weight s)%nat as Hlw by (unfold send_weight; rewrite Hc; cbn; lia).
  splits; [| |done|].
  - split; [exact Ha2|]. split; [lia|]. split; [|exact Hw]. split; [exact O1| | | | |exact O6]; rewrite ?Es; [|exact O3|exact O4|].
    + constructor; [|exact O2]. split; [exact Hio|]. split; [by exists l|done].
    + split; [done|]. change (0 <= 0 <= data_len (BdData i) (s_tcp s)). lia.
  - split; [| |done|lia|done].
    + change (t_wire (s_tcp s3)) with (t_wire (s_tcp s)). f_equal.
      change (pending s3) with ((content s (BdData i) ++ []) ++ concat (whole s <$> t_send_q (s_tcp s))).
      unfold pending, in_progress. rewrite Hc. unfold follow. rewrite Hread, app_nil_r.
      rewrite drop_ge; [done|]. unfold content. rewrite length_take. destruct O5. lia.
    + rewrite Es. unfold sending. rewrite Hc. done.
  - intros start. unfold server_send_done. cbn [block_of lift obind rbind ret]. unfold get_iocb.
    unfold read_reply, iocbs in Hread. change (d_iocbs (s_disp (off_bd s))) with (d_iocbs (s_disp s)).
    destruct (d_iocbs (s_disp s) !! i) as [io|]; [|done]. cbn [of_option lift obind rbind ret].
    change (data_len (BdReply i) _ =? PF_MSG_REPLY_SIZE) with true. rewrite andb_true_l, Hread, Ek. done.
Qed.

Lemma outbox_cons s b :
  outbox s -> t_send_bd (s_tcp s) = Some b ->
  sendable s b /\ Forall (sendable s) (t_send_q (s_tcp s)) /\ (blk b ∉ (blk <$> t_send_q (s_tcp s)))
  /\ NoDup (blk <$> t_send_q (s_tcp s))
  /\ Z.of_nat (length (t_recv_q (s_tcp s)) + S (length (t_send_q (s_tcp s)))) <= t_recv_depth (s_tcp s).
Proof.
  intros [O1 O2 O3 O4 O5 O6] Hc. unfold sending in *. rewrite Hc in *.
  change (option_list (Some b) ++ t_send_q (s_tcp s)) with (b :: t_send_q (s_tcp s)) in *.
  apply Forall_cons in O2 as [Hs O2]. rewrite fmap_cons in O3. by apply NoDup_cons in O3 as [Hnin O3].
Qed.

(** the last descriptor of a block is sent: the block is re-initialised, and
    its head waits for a request *)
Definition returned (r : Z) (k : PfConnection) (b : bd) (io : PfServerIocb) (s : srv) : srv :=
  on_tcp (set_queues (t_recv_q (s_tcp s) ++ [BdCmd (blk b)]) (t_send_q (s_tcp s)))
    (with_ref c (r + 1) k (mkSrv (set_iocb (blk b) (re_init io) (s_disp (off_bd s))) (s_tcp (off_bd s)))).

Lemma last_sent r s b io k :
  outbox s -> t_send_bd (s_tcp s) = Some b -> iocbs s !! blk b = Some io ->
  (forall i, b = BdReply i -> read_reply s i = false) ->
  conn_ref (mkSrv (set_iocb (blk b) (re_init io) (s_disp (off_bd s))) (s_tcp (off_bd s)))
    = Done (with_ref c (r + 1) k (mkSrv (set_iocb (blk b) (re_init io) (s_disp (off_bd s))) (s_tcp (off_bd s)))) ->
  forall start, server_send_done start b (off_bd s) = ret (0, returned r k b io s).
Proof.
  intros Ho Hc Hio Hread Ek start. destruct (outbox_cons s b Ho Hc) as ([_ Hs] & _ & _ & _ & Hd).
  unfold server_send_done, get_iocb. change (d_iocbs (s_disp (off_bd s))) with (iocbs s).
  assert (block_of b = Done (blk b)) as -> by (destruct b; done). cbn [lift obind rbind ret]. rewrite Hio.
  cbn [of_option lift obind rbind ret].
  assert ((data_len b (s_tcp (off_bd s)) =? PF_MSG_REPLY_SIZE) && IS_READ_OP (h_opcode (i_cmd io))
          && (i_complete_status io =? MSG_STATUS_SUCCESS) = false) as ->.
  { destruct b as [|j|j|]; try done.
    - change (data_len (BdData j) (s_tcp (off_bd s))) with (data_len (BdData j) (s_tcp s)).
      by rewrite (proj2 (Z.eqb_neq _ _) (proj2 Hs)).
    - specialize (Hread j eq_refl). unfold read_reply in Hread. cbn [blk] in Hio. rewrite Hio in Hread. by rewrite <- andb_assoc, Hread. }
  unfold post_recv. rewrite Ek. cbn [lift obind rbind ret].
  match goal with |- context [Z.of_nat ?n <? ?d] => change n with (length (t_recv_q (s_tcp s))); change d with (t_recv_depth (s_tcp s)) end.
  rewrite (proj2 (Z.ltb_lt _ _)) by lia. done.
Qed.

Lemma block_returns r s b :
  ready r s -> t_send_bd (s_tcp s) = Some b -> t_wanted_send_len (s_tcp s) = t_sent_len (s_tcp s) ->
  (forall i, b = BdReply i -> read_reply s i = false) ->
  exists s3, alive c (r + 1) s3 /\ outbox s3 /\ t_writeable (s_tcp s3) = true /\ moved s s3
    /\ (send_weight s3 < send_weight s)%nat
    /\ forall start, server_send_done start b (off_bd s) = ret (0, s3).
Proof.
  intros (Ha & Hr & Ho & Hw) Hc Hfull Hread. destruct (outbox_cons s b Ho Hc) as ([[io Hio] Hs] & O2 & Hnin & O3 & O4).
  destruct (alive_addref r (mkSrv (set_iocb (blk b) (re_init io) (s_disp (off_bd s))) (s_tcp (off_bd s))) Ha) as (k & Ek & Ha2).
  pose proof (last_sent r s b io k Ho Hc Hio Hread Ek) as Hdone. exists (returned r k b io s). set (s3 := returned r k b io s) in *.
  destruct Ho as [O1 _ _ _ O5 O6]. rewrite Hc in O5. assert (sending s3 = t_send_q (s_tcp s)) as Es by done.
  assert (forall b', b' ∈ t_send_q (s_tcp s) -> iocbs s3 !! blk b' = iocbs s !! blk b') as Hio3.
  { intros b' Hb'. apply lookup_insert_ne. intros E. apply Hnin. rewrite E. by apply list_elem_of_fmap_2. }
  assert (send_weight s3 < send_weight s)%nat as Hlw by (unfold send_weight; rewrite Hc; cbn; destruct b; lia).
  splits; [exact Ha2| |exact Hw| |done|done].
  - split; [exact O1| | | |done|exact O6]; rewrite ?Es; [|exact O3|].
    + apply Forall_forall. intros b' Hb'. rewrite Forall_forall in O2. apply (sendable_frame s); [done|done|by apply Hio3|by apply O2].
    + change (t_recv_q (s_tcp s3)) with (t_recv_q (s_tcp s) ++ [BdCmd (blk b)]). rewrite length_app.
      change (t_recv_depth (s_tcp s3)) with (t_recv_depth (s_tcp s)). cbn [length]. lia.
  - split; [| |done|lia|done].
    + change (t_wire (s_tcp s3)) with (t_wire (s_tcp s)). f_equal.
      change (pending s3) with (concat (whole s3 <$> t_send_q (s_tcp s))). rewrite (whole_frame s s3) by done.
      unfold pending, in_progress. rewrite Hc.
      assert (follow s b = []) as -> by (destruct b; try done; cbn; by rewrite Hread).
      rewrite app_nil_r, drop_ge; [done|]. unfold content. rewrite length_take. lia.
    + rewrite Es. unfold sending. rewrite Hc. change (t_recv_q (s_tcp s3)) with (t_recv_q (s_tcp s) ++ [BdCmd (blk b)]).
      by rewrite <- app_assoc.
Qed.

(** ** The loop *)

(** what [do_send] does with a finished descriptor *)
Definition on_sent (n : nat) (b : bd) (s : srv) : run (Z * srv) :=
  let? (rc, s) := server_send_done (fun b s => do_send disps is_open n (begin_send b s)) b (off_bd s) in
  let? s := lift (conn_unref s) in
  if rc <? 0 then let? s := close disps is_open n s in ret (rc, s) else on_again n s.

Lemma sent_goes_on n r s b :
  (forall r s, (send_weight s <= n)%nat -> ready r s -> sends n r s) ->
  (send_weight s <= S n)%nat -> ready r s -> t_send_bd (s_tcp s) = Some b ->
  t_wanted_send_len (s_tcp s) = t_sent_len (s_tcp s) ->
  exists s', on_sent n b s = ret (0, s') /\ alive c r s' /\ outbox s' /\ moved s s' /\ settled_out s'.
Proof.
  intros IH Hn Hs Hc Hfull. unfold on_sent.
  assert ((exists i, b = BdReply i /\ read_reply s i = true) \/ forall i, b = BdReply i -> read_reply s i = false) as [(i & -> & Hread)|Hread].
  { destruct b as [| |i|]; try (right; by intros). destruct (read_reply s i) eqn:E; [left; by exists i|right]. intros j [= <-]. done. }
  - destruct (data_follow r s i Hs Hc Hfull Hread) as (s2 & Hs2 & Hm2 & Hlt & E). rewrite E.
    destruct (IH (r + 1) (begin_send (BdData i) s2)) as (s3 & E3 & Ha3 & Ho3 & Hm3 & Hd3); [lia|done|].
    rewrite E3. cbn [rbind ret]. destruct (alive_unref r s3 Ha3) as (k & Ek & Ha4); [apply Hs|]. rewrite Ek. cbn [lift obind rbind ret].
    change (1 <? 0) with false. cbn iota. destruct n as [|n]; [unfold send_weight in Hlt; unfold send_weight in Hn; lia|].
    rewrite (again_ends n r); [|done|exact Hd3]. eexists. split; [reflexivity|]. split; [done|]. split; [by destruct Ho3|].
    split; [|exact Hd3]. transitivity (begin_send (BdData i) s2); [done|]. by destruct Hm3.
  - destruct (block_returns r s b Hs Hc Hfull Hread) as (s3 & Ha3 & Ho3 & Hw3 & Hm3 & Hlt & E). rewrite E.
    cbn [rbind ret]. destruct (alive_unref r s3 Ha3) as (k & Ek & Ha4); [apply Hs|]. rewrite Ek. cbn [lift obind rbind ret].
    change (0 <? 0) with false. cbn iota.
    assert (ready r (with_ref c r k s3)) as Hs4 by (split; [done|]; split; [apply Hs|]; split; [by destruct Ho3|done]).
    destruct (again_goes_on n r _ Hs4) as (s' & E' & Ha' & Ho' & Hm' & Hd').
    { apply IH; [|done]. change (send_weight s3 <= n)%nat. lia. }
    exists s'. splits; [done|done|done| |done]. transitivity (with_ref c r k s3); [by destruct Hm3|done].
Qed.

Lemma round_sends n r s s1 b :
  (forall r s, (send_weight s <= n)%nat -> ready r s -> sends n r s) ->
  t_send_bd (s_tcp s) = Some b -> (send_weight s1 <= S n)%nat -> ready r s1 -> moved s s1 -> t_send_bd (s_tcp s1) = Some b ->
  (send_weight s1 <= n)%nat \/ t_wanted_send_len (s_tcp s1) = t_sent_len (s_tcp s1) ->
  send_with_error_handle b s = Done (0, s1) -> sends (S n) r s.
Proof.
  intros IH Hc Hn1 Hs1 Hm1 Hc1 Hor E. unfold sends. cbn [do_send]. rewrite Hc, E. cbn [lift obind rbind ret].
  change (negb (0 =? 0) && negb (0 =? - EAGAIN)) with false. cbn iota. fold (off_bd s1).
  change (t_handler (s_tcp (off_bd s1))) with (t_handler (s_tcp s1)). rewrite (proj1 (proj2 (proj1 Hs1))).
  destruct (Z.eqb_spec (t_wanted_send_len (s_tcp s1)) (t_sent_len (s_tcp s1))) as [Hf|Hf].
  - destruct (sent_goes_on n r s1 b IH Hn1 Hs1 Hc1 Hf) as (s' & E' & Ha' & Ho' & Hm' & Hd').
    exists s'. splits; [exact E'|done|done|by transitivity s1|done].
  - destruct Hor as [Hor|]; [|done].
    destruct (again_goes_on n r s1 Hs1 (IH r s1 Hor Hs1)) as (s' & E' & Ha' & Ho' & Hm' & Hd').
    exists s'. splits; [exact E'|done|done|by transitivity s1|done].
Qed.

(** Enough rounds: the loop ends, with all sent or the socket full. *)
Lemma do_send_settles n : forall r s, (send_weight s <= n)%nat -> ready r s -> sends n r s.
Proof.
  induction n as [|n IH]; intros r s Hn Hs; [unfold send_weight in Hn; lia|].
  destruct (t_send_bd (s_tcp s)) as [b|] eqn:Hc.
  - assert (t_sent_len (s_tcp s) <= t_wanted_send_len (s_tcp s)) as Hle.
    { destruct Hs as (_ & _ & [_ _ _ _ O5 _] & _). rewrite Hc in O5. lia. }
    destruct (Z.eq_dec (t_sent_len (s_tcp s)) (t_wanted_send_len (s_tcp s))) as [Heq|Hneq].
    + apply (round_sends n r s s b IH); [done|done|done|done|done|by right|]. unfold send_with_error_handle.
      rewrite (proj2 (Z.ltb_ge _ _)) by lia. done.
    + destruct (t_room (s_tcp s)) as [|[m|e] room] eqn:Hrm.
      * destruct (send_again r s b Hs Hc ltac:(lia) Hrm) as (E & Ha' & Ho' & Hm' & Hd').
        unfold sends. cbn [do_send]. rewrite Hc, E. cbn [lift obind rbind ret].
        change (negb (- EAGAIN =? 0) && negb (- EAGAIN =? - EAGAIN)) with false. cbn iota.
        set (s1 := on_tcp _ s) in *. rewrite (proj2 (Z.eqb_neq _ _)) by (cbn; lia). eexists. split; [|done].
        destruct (alive_conn _ _ Ha') as [k ->]. done.
      * destruct (send_accepted r s b m room Hs Hc ltac:(lia) Hrm) as (s1 & E & Hs1 & Hm1 & Hc1 & Hlt).
        apply (round_sends n r s s1 b IH); [done|lia|done|done|done|left; lia|done].
      * destruct Hs as (_ & _ & [_ _ _ _ _ O6] & _). rewrite Hrm in O6. by apply Forall_cons in O6 as [? _].
  - unfold sends. cbn [do_send]. rewrite Hc. destruct (t_send_q (s_tcp s)) as [|b q] eqn:Hq.
    + exists s. destruct Hs as (Ha & _ & Ho & Hw). splits; [done|done|done|done|]. left. unfold sending. by rewrite Hc, Hq.
    + destruct (next_reply r s b q Hs Hc Hq) as (Hs1 & Hm1 & Hlt).
      set (s1 := begin_send b _) in *. destruct (IH r s1) as (s' & E & Ha' & Ho' & Hm' & Hd'); [lia|done|]. rewrite E. cbn [rbind ret].
      change (negb (0 =? 0)) with false. cbn iota. exists s'. splits; [|done|done|by etransitivity|done].
      destruct n as [|n]; [unfold send_weight in Hlt, Hn; lia|]. by apply (again_ends n r).
Qed.

(** ** The socket becomes writeable again and again *)
Definition offer (room : list send_room) (s : srv) : srv :=
  on_tcp (fun t => set_out (t_room t ++ room) (t_wire t) t) s.

(** each event comes with the calls of send the socket will accept *)
Fixpoint drain (n : nat) (batches : list (list send_room)) (s : srv) : run srv :=
  match batches with
  | [] => ret s
  | room :: batches => let? s := on_socket_event disps is_open n false false true (offer room s) in drain n batches s
  end.

Lemma offer_weight room s : send_weight (offer room s) = (send_weight s + length room)%nat.
Proof. unfold send_weight. cbn. rewrite length_app. lia. Qed.

Lemma offer_moved room s s' : moved s s' -> moved (offer room s) (offer room s').
Proof.
  intros [B L C W I]. split; [exact B|exact L| |rewrite !offer_weight; lia|exact I]. cbn. rewrite !length_app. lia.
Qed.

Lemma offer_offer l1 l2 s : offer l2 (offer l1 s) = offer (l1 ++ l2) s.
Proof. unfold offer, on_tcp, set_out. cbn. by rewrite app_assoc. Qed.

Lemma socket_event_sends n r s room :
  alive c r s -> 0 < r -> outbox s -> t_readable (s_tcp s) = false -> Forall accepting room ->
  (send_weight s + length room <= n)%nat ->
  exists s', on_socket_event disps is_open n false false true (offer room s) = ret s'
    /\ alive c r s' /\ outbox s' /\ t_readable (s_tcp s') = false /\ moved (offer room s) s' /\ settled_out s'.
Proof.
  intros Ha Hr [O1 O2 O3 O4 O5 O6] Hrd Hroom Hn. unfold on_socket_event. set (s1 := on_tcp _ (offer room s)).
  assert (t_readable (s_tcp s1) = false) as Hrd1 by (cbn; by rewrite Hrd).
  assert (moved (offer room s) s1) as Hm1.
  { split; try done. unfold inward. by rewrite Hrd1, <- Hrd. }
  assert (ready r s1) as Hs1.
  { split; [exact Ha|]. split; [done|]. split; [|cbn; apply orb_true_r].
    split; [exact O1|exact O2|exact O3|exact O4|exact O5|]. cbn. by apply Forall_app. }
  rewrite Hrd1. cbn [rbind ret]. destruct (alive_conn _ _ (proj1 Hs1)) as [k ->]. cbn [lift obind rbind ret].
  rewrite (proj2 (proj2 (proj2 Hs1))).
  destruct (do_send_settles n r s1) as (s' & E & Ha' & Ho' & Hm' & Hd'); [|done|].
  { change (send_weight s1) with (send_weight (offer room s)). rewrite offer_weight. lia. }
  rewrite E. cbn [rbind ret]. exists s'. splits; [done|done|done| |by transitivity s1|done].
  pose proof (mv_inward _ _ Hm') as Hi. unfold inward in Hi. congruence.
Qed.

Lemma drain_moves n batches : forall r s,
  alive c r s -> 0 < r -> outbox s -> t_readable (s_tcp s) = false -> Forall (Forall accepting) batches ->
  (send_weight s + length (concat batches) <= n)%nat ->
  exists s', drain n batches s = ret s' /\ alive c r s' /\ moved (offer (concat batches) s) s'
    /\ (batches <> [] -> settled_out s').
Proof.
  induction batches as [|room bs IH]; intros r s Ha Hr Ho Hrd Hb Hn; cbn [drain concat].
  - exists s. splits; [done|done| |done]. split; [done|done|cbn; by rewrite app_nil_r|rewrite offer_weight; lia|done].
  - apply Forall_cons in Hb as [Hroom Hb]. cbn [concat] in Hn. rewrite length_app in Hn.
    destruct (socket_event_sends n r s room Ha Hr Ho Hrd Hroom) as (s1 & E & Ha1 & Ho1 & Hrd1 & Hm1 & Hd1); [lia|].
    rewrite E. cbn [rbind ret]. pose proof (mv_weight _ _ Hm1) as Hw1. rewrite offer_weight in Hw1.
    destruct (IH r s1 Ha1 Hr Ho1 Hrd1 Hb) as (s' & E' & Ha' & Hm' & Hd'); [lia|].
    exists s'. splits; [done|done| |].
    + transitivity (offer (concat bs) s1); [|done]. rewrite <- offer_offer. by apply offer_moved.
    + intros _. destruct bs as [|b2 bs]; [|by apply Hd']. cbn in E'. injection E' as <-. done.
Qed.

(** C18 (replies in any pieces): a connection has replies to send, the data of
    a successful read behind its reply.  However few bytes the socket accepts
    per call of send and however often it says to wait, the sequence of bytes
    sent and still to be sent does not change, every block is being sent or,
    once sent, waits for the next request in the order of the replies, and
    the number of references is the same.  When the socket has accepted as
    many calls as there are bytes, all of them are sent.  The loop of
    [do_send] and the calls nested in it end. *)
Theorem replies_in_any_pieces (n : nat) (r : Z) (batches : list (list send_room)) (s : srv) :
  alive c r s -> 0 < r -> outbox s -> t_readable (s_tcp s) = false -> Forall (Forall accepting) batches ->
  (send_weight s + length (concat batches) <= n)%nat ->
  exists s', drain n batches s = ret s' /\ alive c r s'
    /\ t_wire (s_tcp s') ++ pending s' = t_wire (s_tcp s) ++ pending s
    /\ t_recv_q (s_tcp s') ++ (BdCmd ∘ blk <$> sending s') = t_recv_q (s_tcp s) ++ (BdCmd ∘ blk <$> sending s)
    /\ (batches <> [] -> (length (pending s) <= length (concat batches))%nat ->
         t_wire (s_tcp s') = t_wire (s_tcp s) ++ pending s
         /\ t_recv_q (s_tcp s') = t_recv_q (s_tcp s) ++ (BdCmd ∘ blk <$> sending s) /\ sending s' = []).
Proof.
  intros Ha Hr Ho Hrd Hb Hn. destruct (drain_moves n batches r s Ha Hr Ho Hrd Hb Hn) as (s' & E & Ha' & [B L C W I] & Hd).
  change (t_wire (s_tcp (offer _ s))) with (t_wire (s_tcp s)) in *. change (pending (offer _ s)) with (pending s) in *.
  exists s'. splits; [done|done|done|done|]. intros Hne Hlen. destruct (Hd Hne) as [[Hs _]|(Hrm & Hp & _)].
  - change (sending (offer _ s)) with (sending s) in L. change (t_recv_q (s_tcp (offer _ s))) with (t_recv_q (s_tcp s)) in L.
    rewrite Hs in L. rewrite app_nil_r in L. assert (pending s' = []) as Ep.
    { unfold pending, in_progress. unfold sending in Hs. apply app_nil in Hs as [H1 ->]. by destruct (t_send_bd (s_tcp s')). }
    rewrite Ep, app_nil_r in B. by splits.
  - exfalso. apply Hp, length_zero_iff_nil. apply (f_equal length) in B. rewrite !length_app in B. rewrite Hrm in C.
    cbn in C. rewrite length_app in C. lia.
Qed.
End Send.

(** ** Two replies, the first of a read of five bytes *)
Module SendDemo.
Import TcpDemo.
Definition served (op : Z) : PfServerIocb := mkIocb (head op 5) 0 [] (Some 9) 0 MSG_STATUS_SUCCESS 0 1 0 false.
Definition disp : PfDispatcher :=
  mkDisp ∅ 0 (mkStat 0 0 0 0 0 0) {[0 := served S5_OP_READ; 1 := served S5_OP_WRITE]} pool {[9 := conn 5]} [] false [].
Definition replying : srv :=
  mkSrv disp (mkTcp 9 None 0 0 None 0 0 false true [] [BdReply 0; BdReply 1] 510 255 NetDone [] [] []
    {[BdReply 0 := replicate 32 1; BdData 0 := replicate 4096 2; BdReply 1 := replicate 32 3]} {[0 := 5; 1 := 5]}).

Lemma replying_outbox : outbox replying.
Proof.
  split; try done.
  - by repeat constructor.
  - constructor; [|constructor; [|constructor]]; (split; [by eexists|]); (split; [by eexists|]); [|done].
    intros _. split; [|done]. by eexists.
  - apply (bool_decide_unpack _). by vm_compute.
Qed.
End SendDemo.

Lemma replies_in_any_pieces_witness :
  exists s', drain 1 (fun _ => true) 200 [[Accepts 7]; replicate 80 (Accepts 30)] SendDemo.replying = ret s'
    /\ t_wire (s_tcp s') = replicate 32 1 ++ replicate 5 2 ++ replicate 32 3
    /\ t_recv_q (s_tcp s') = [BdCmd 0; BdCmd 1].
Proof.
  destruct (replies_in_any_pieces 1 (fun _ => true) 9 200 5 [[Accepts 7]; replicate 80 (Accepts 30)] SendDemo.replying)
    as (s' & E & _ & _ & _ & H).
  - split; [done|]. split; [done|]. by eexists.
  - done.
  - apply SendDemo.replying_outbox.
  - done.
  - repeat constructor.
  - vm_compute. lia.
  - exists s'. split; [exact E|]. destruct H as (Hw & Hq & _); [done|vm_compute; lia|].
    split; [exact Hw|exact Hq].
Defined.
