(* ===== verification/TcpLimits.v ===== *)
(** * What a TCP connection does not guard against

    Consequences of the code of TcpServer.v for lengths the callbacks do not
    check, and for data as long as a head or a reply. *)

From Stdlib Require Import ZArith Lia.
From stdpp Require Import base tactics list numbers sets gmap.
From S2P Require Import Prelude Bytes Runs Ids Volume Connection Dispatcher TcpServer TcpProps TcpSend.

Section Limits.
Variables (disps : Z) (is_open : Z -> bool).

(** ** The head of a write *)

(** the transfer of the data of block [i] is about to begin *)
Record begun (i len : Z) (rest : list Z) (s : srv) : Prop := mkBegun {
  bg_bd : t_recv_bd (s_tcp s) = Some (BdData i);
  bg_got : t_recved_len (s_tcp s) = 0;
  bg_wanted : t_wanted_recv_len (s_tcp s) = i32 len;
  bg_readable : t_readable (s_tcp s) = true;
  bg_socket : exists ps, t_sock_in (s_tcp s) = Piece <$> ps /\ concat ps = rest /\ nonempty ps;
  bg_buf : exists l, mem s !! BdData i = Some l /\ Z.of_nat (length l) = PF_MAX_IO_SIZE
}.

Definition input (p : list Z) (s : srv) : srv :=
  on_tcp (fun t => set_ready (t_readable t || true) (t_writeable t || false) t) (arrive p s).

Lemma input_waits c ids r p s :
  listening c ids r s -> p <> [] -> waits c (d_events (s_disp s)) (mkRx [] Idle ids) r (input p s) [p].
Proof.
  intros Hl Hp. pose proof (listening_state _ _ _ _ Hl) as [H1 H2 H3 H4 H5 H6 H7 H8 H9 H10]. split.
  - split; [exact H1|exact H2|exact H3|exact H4|exact H5|exact H6|exact H7| |exact H9|exact H10].
    intros i Hi. destruct (H8 i Hi). by split.
  - split; [cbn; by rewrite (ls_socket _ _ _ _ Hl)|]. split; [by constructor|]. cbn. apply orb_true_r.
Qed.

Lemma event_receives c ids r n p s :
  listening c ids r s -> p <> [] ->
  do_receive disps is_open n (input p s) = Done None ->
  on_socket_event disps is_open n false true false (arrive p s) = Done None.
Proof.
  intros Hl Hp E. unfold on_socket_event. fold (input p s).
  assert (t_readable (s_tcp (input p s)) = true) as -> by (cbn; apply orb_true_r). by rewrite E.
Qed.

Lemma begins c k b l io start (s : srv) i :
  t_id (s_tcp s) = c -> d_conns (s_disp s) !! c = Some k -> b = BdCmd i \/ b = BdData i ->
  t_mem (s_tcp s) !! b = Some l -> d_iocbs (s_disp s) !! i = Some io ->
  data_len b (s_tcp s) = PF_MSG_HEAD_SIZE -> is_write l = true ->
  exists s3, server_recv_done start b s = (let? (_, s) := start (BdData i) s3 in ret (1, s))
    /\ data_len (BdData i) (s_tcp s3) = i32 (hlen l) /\ mem s3 = mem s /\ same_net s s3
    /\ t_id (s_tcp s3) = c /\ d_conns (s_disp s3) !! c = Some (set_c_ref (c_ref_count k + 1) k)
    /\ d_events (s_disp s3) = d_events (s_disp s) /\ is_Some (iocbs s3 !! i) /\ t_handler (s_tcp s3) = t_handler (s_tcp s).
Proof.
  intros Hid Hk Hb Hl Hio Hd Hw. unfold server_recv_done, buf_of_bd, get_iocb.
  assert (block_of b = Done i) as -> by by destruct Hb as [-> | ->]. cbn [lift obind rbind ret]. rewrite Hl, Hio.
  cbn [lift obind of_option rbind ret]. rewrite Hd, Z.eqb_refl. fold (is_write l). rewrite Hw.
  match goal with |- context [conn_ref ?s0] => set (s2 := s0) end.
  rewrite (conn_ref_done c k s2 Hid Hk). cbn [lift obind rbind ret]. eexists. split; [reflexivity|].
  splits; [|done|done|exact Hid|apply with_ref_conn|done| |done].
  - unfold data_len. cbn. by rewrite lookup_insert_eq.
  - eexists. apply lookup_insert_eq.
Qed.

(** two rounds take a block and its head, and start on the data *)
Lemma write_head_taken n c i ids r p s :
  listening c (i :: ids) r s -> PF_MSG_HEAD_SIZE <= Z.of_nat (length p) -> is_write (take 64 p) = true ->
  exists s3, do_receive disps is_open (S (S n)) (input p s)
      = go_on disps is_open n (let? (_, s) := do_receive disps is_open n s3 in ret (1, s))
    /\ begun i (hlen (take 64 p)) (drop 64 p) s3 /\ t_id (s_tcp s3) = c /\ t_handler (s_tcp s3) = NetDone
    /\ (exists k, d_conns (s_disp s3) !! c = Some k /\ c_ref_count k = r + 1)
    /\ d_events (s_disp s3) = d_events (s_disp s) /\ is_Some (iocbs s3 !! i)
    /\ data_len (BdData i) (s_tcp s3) = i32 (hlen (take 64 p)).
Proof.
  intros Hl Hlen Hw. assert (p <> []) as Hp by by intros ->.
  destruct (input_waits c _ r p s Hl Hp) as (Hs0 & Hin & Hne & Hrd).
  pose proof (take_block _ _ _ _ _ _ _ Hs0 eq_refl eq_refl) as Hs1. set (s1 := begin_recv _ _) in Hs1.
  pose proof (rs_cur _ _ _ _ _ Hs1) as [Ht _]. destruct (rs_blocks _ _ _ _ _ Hs1 i ltac:(by left)) as [[io Eio] (l & El & Hll) Hbuf].
  destruct (recv_pieces s1 (BdCmd i) [] PF_MSG_HEAD_SIZE [p] l Ht El ltac:(lia) Hin Hne)
    as [(Hlt & _)|(_ & s2 & ps & E & Ht2 & _ & Hin2 & Hc2 & Hn2 & Hrd2 & Hch)]; [cbn in Hlt; rewrite app_nil_r in Hlt; lia|].
  change (Z.to_nat (PF_MSG_HEAD_SIZE - Z.of_nat (length []))) with 64%nat in *. cbn [concat app] in *. rewrite app_nil_r in *.
  destruct Ht2 as (Hb2 & Hg2 & Hw2 & _ & l2 & El2 & Hl2). destruct (ch_mem _ _ _ Hch) as (l0 & l' & El0 & Hl' & Em).
  assert (l2 = take 64 p) as ->.
  { rewrite Em, lookup_insert_eq in El2. injection El2 as <-. rewrite <- Hl2. symmetry. apply take_ge.
    rewrite El in El0. injection El0 as <-. rewrite length_take. change PF_MSG_HEAD_SIZE with 64 in *. lia. }
  destruct (rs_conn _ _ _ _ _ Hs1) as (k & Ek & Hk). pose proof Hch as [Cd Ci Ch _ Cq Cl _].
  destruct (begins c k (BdCmd i) (take 64 p) io (fun b s => do_receive disps is_open n (begin_recv b s)) (quiet s2) i)
    as (s3 & E3 & D3 & M3 & [N1 N2] & I3 & K3 & V3 & J3 & H3); [| |by left|exact El2| |done|exact Hw|].
  { cbn. rewrite Ci. apply Hs1. } { cbn. by rewrite Cd. } { cbn. by rewrite Cd. }
  exists (begin_recv (BdData i) s3). splits; [| |exact I3| |eexists; split; [exact K3|cbn; lia]| |exact J3|exact D3].
  - transitivity (do_receive disps is_open (S n) s1).
    + cbn [do_receive]. change (t_recv_bd (s_tcp (input p s))) with (t_recv_bd (s_tcp s)). rewrite (ls_idle _ _ _ _ Hl).
      change (t_recv_q (s_tcp (input p s))) with (t_recv_q (s_tcp s)). rewrite (ls_queue _ _ _ _ Hl).
      change (BdCmd <$> i :: ids) with (BdCmd i :: (BdCmd <$> ids)). cbn iota.
      fold s1. destruct (the_conn_alive _ _ _ _ _ Hs1) as [k1 ->]. cbn [lift obind rbind ret].
      change (t_readable (s_tcp s1)) with (t_readable (s_tcp (input p s))). by rewrite Hrd.
    + rewrite (round_full disps is_open n (BdCmd i) s1 s2); [by rewrite E3|done|done|cbn in Hg2; rewrite Hg2, Hw2, length_take; change PF_MSG_HEAD_SIZE with 64 in *; lia|].
      rewrite Ch. apply Hs1.
  - split; [done|done|exact D3| | |].
    + change (t_readable (s_tcp s3) = true). rewrite N2. change (t_readable (s_tcp s2) = true). by rewrite Hrd2.
    + exists ps. change (t_sock_in (s_tcp (begin_recv (BdData i) s3))) with (t_sock_in (s_tcp s3)). by rewrite N1.
    + destruct Hbuf as (ld & Ed & Hld). exists ld. split; [|done]. change (mem s3 !! BdData i = Some ld). rewrite M3.
      change (mem s2 !! BdData i = Some ld). by rewrite Em, lookup_insert_ne.
  - change (t_handler (s_tcp s3) = NetDone). rewrite H3. change (t_handler (s_tcp s2) = NetDone). rewrite Ch. apply Hs1.
  - change (d_events (s_disp s3) = d_events (s_disp s)). rewrite V3. change (d_events (s_disp s2) = d_events (s_disp s)). by rewrite Cd.
Qed.

(** ** Lengths of 2 GiB and more: the int is negative *)
Lemma negative_spins n : forall b s k,
  t_recv_bd (s_tcp s) = Some b -> t_wanted_recv_len (s_tcp s) < t_recved_len (s_tcp s) -> t_readable (s_tcp s) = true ->
  is_Some (mem s !! b) -> the_conn s = Done k -> do_receive disps is_open n s = Done None.
Proof.
  induction n as [|n IH]; intros b s k Hb Hw Hrd [l El] Hk; [done|]. cbn [do_receive]. rewrite Hb.
  unfold rcv_with_error_handle, buf_of_bd. fold (mem s). rewrite El. cbn [of_option obind].
  assert (rcv (t_sock_in (s_tcp s)) (t_recved_len (s_tcp s)) (t_wanted_recv_len (s_tcp s)) l (t_readable (s_tcp s))
          = Done (0, t_sock_in (s_tcp s), t_recved_len (s_tcp s), l, t_readable (s_tcp s))) as ->.
  { destruct (t_sock_in (s_tcp s)); cbn [rcv]; by rewrite (proj2 (Z.leb_le _ _)) by lia. }
  cbn [lift obind rbind ret]. change (negb (0 =? 0) && negb (0 =? - EAGAIN)) with false. cbn iota.
  set (s1 := write_mem _ _ _).
  change (t_wanted_recv_len (s_tcp s1)) with (t_wanted_recv_len (s_tcp s)).
  change (t_recved_len (s_tcp s1)) with (t_recved_len (s_tcp s)). rewrite (proj2 (Z.eqb_neq _ _)) by lia.
  change (the_conn s1) with (the_conn s). rewrite Hk. cbn [lift obind rbind ret].
  change (t_readable (s_tcp s1)) with (t_readable (s_tcp s)). rewrite Hrd.
  apply (IH b s1 k); [exact Hb|exact Hw|exact Hrd| |exact Hk]. eexists. apply lookup_insert_eq.
Qed.

(** A length of 2 GiB: the head of a write announces a length of 2^31 or
    more, which the int of the descriptor holds as a negative number.  The
    event of the socket is never over: after any number of rounds the loop of
    [do_receive] goes on, and the poller and its other connections with it. *)
Theorem negative_length_never_returns (n : nat) (c r i : Z) (ids p : list Z) (s : srv) :
  listening c (i :: ids) r s -> PF_MSG_HEAD_SIZE <= Z.of_nat (length p) -> is_write (take 64 p) = true ->
  2 ^ 31 <= hlen (take 64 p) < 2 ^ 32 ->
  on_socket_event disps is_open n false true false (arrive p s) = Done None.
Proof.
  intros Hl Hp Hw Hn. assert (p <> []) as Hne by by intros ->. apply (event_receives c (i :: ids) r); [done|done|].
  destruct n as [|[|n]]; [done| |].
  - cbn [do_receive]. change (t_recv_bd (s_tcp (input p s))) with (t_recv_bd (s_tcp s)). rewrite (ls_idle _ _ _ _ Hl).
    change (t_recv_q (s_tcp (input p s))) with (t_recv_q (s_tcp s)). rewrite (ls_queue _ _ _ _ Hl).
    change (BdCmd <$> i :: ids) with (BdCmd i :: (BdCmd <$> ids)). cbn iota. set (s1 := begin_recv _ _).
    destruct (ls_conn _ _ _ _ Hl) as (k & Ek & _). rewrite (the_conn_done c k s1); [|apply Hl|exact Ek]. cbn [lift obind rbind ret].
    assert (t_readable (s_tcp s1) = true) as -> by (cbn; apply orb_true_r). done.
  - destruct (write_head_taken n c i ids r p s Hl Hp Hw) as (s3 & E & [B1 B2 B3 B4 _ (l & B6 & _)] & Hid & _ & (k & Ek & _) & _).
    rewrite E, (negative_spins n (BdData i) s3 k); [done|done| |done|by eexists|by apply (the_conn_done c)].
    rewrite B2, B3. unfold i32. replace (hlen (take 64 p) + 2 ^ 31) with (hlen (take 64 p) - 2 ^ 31 + 1 * 2 ^ 32) by lia.
    rewrite Z.mod_add, Z.mod_small by lia. lia.
Qed.

(** ** Lengths beyond the buffer *)
Lemma rcv_overflow ps : forall got wanted buf rd,
  nonempty ps -> 0 <= got <= Z.of_nat (length buf) -> Z.of_nat (length buf) < wanted ->
  Z.of_nat (length buf) < got + Z.of_nat (length (concat ps)) ->
  rcv (Piece <$> ps) got wanted buf rd = Undef.
Proof.
  induction ps as [|p ps IH]; intros got wanted buf rd Hne Hg Hw Hlong; [cbn in Hlong; lia|].
  apply Forall_cons in Hne as [Hp Hne]. cbn [fmap list_fmap rcv]. rewrite (proj2 (Z.leb_gt _ _)) by lia.
  assert (0 < length p)%nat as Hlp by (destruct p; [done|cbn; lia]). cbn [concat] in Hlong. rewrite length_app in Hlong.
  set (m := Z.min _ _). rewrite (proj2 (Z.eqb_neq m 0)) by lia. unfold write_at. rewrite length_take.
  destruct (Z.leb_spec (Z.of_nat (Init.Nat.min (Z.to_nat m) (length p)) + got) (Z.of_nat (length buf))) as [Hfit|Hfit]; [|done].
  cbn [obind]. assert (m = Z.of_nat (length p)) as Hm by lia. rewrite Hm, Z.ltb_irrefl. apply IH; [done| | |].
  all: rewrite !length_app, length_take, length_drop, Nat2Z.id, firstn_all; lia.
Qed.

(** A write longer than its buffer: the head of a write announces more
    than the 128 KiB of a data buffer and the data are there.  The server
    receives them and writes behind the end of the buffer. *)
Theorem long_write_overflows (n : nat) (c r i : Z) (ids p : list Z) (s : srv) :
  listening c (i :: ids) r s -> is_write (take 64 p) = true ->
  PF_MAX_IO_SIZE < hlen (take 64 p) < 2 ^ 31 -> PF_MSG_HEAD_SIZE + PF_MAX_IO_SIZE < Z.of_nat (length p) ->
  on_socket_event disps is_open (S (S (S n))) false true false (arrive p s) = Undef.
Proof.
  intros Hl Hw Hn Hp. change PF_MAX_IO_SIZE with 131072 in *. change PF_MSG_HEAD_SIZE with 64 in *.
  unfold on_socket_event. fold (input p s).
  assert (t_readable (s_tcp (input p s)) = true) as -> by (cbn; apply orb_true_r).
  destruct (write_head_taken (S n) c i ids r p s Hl ltac:(change PF_MSG_HEAD_SIZE with 64; lia) Hw)
    as (s3 & -> & [B1 B2 B3 B4 (ps & Es & Ec & Hne) (l & B6 & Hll)] & _).
  cbn [do_receive]. rewrite B1. unfold rcv_with_error_handle, buf_of_bd. fold (mem s3). rewrite B6. cbn [of_option obind].
  change PF_MAX_IO_SIZE with 131072 in Hll. rewrite Es, rcv_overflow; [done|done| | |].
  - rewrite B2. lia.
  - rewrite B3, i32_small; lia.
  - rewrite B2, Ec, length_drop. lia.
Qed.

(** ** Data as long as a head *)
Lemma go_on_waits n c k s :
  t_id (s_tcp s) = c -> d_conns (s_disp s) !! c = Some k -> c_ref_count k <> 1 -> t_readable (s_tcp s) = false ->
  go_on disps is_open n (ret (1, s)) = ret (0, with_ref c (c_ref_count k - 1) k s).
Proof.
  intros Hid Hk Hr Hrd. unfold go_on. cbn [rbind ret]. rewrite (conn_unref_done c k s Hid Hk Hr). cbn [lift obind rbind ret].
  change (1 =? - ECONNABORTED) with false. cbn iota.
  rewrite (the_conn_done c (set_c_ref (c_ref_count k - 1) k)); [|exact Hid|apply with_ref_conn]. cbn [lift obind rbind ret].
  change (t_readable (s_tcp (with_ref c (c_ref_count k - 1) k s))) with (t_readable (s_tcp s)). by rewrite Hrd.
Qed.

Definition awaits (i wanted : Z) (s : srv) : Prop :=
  t_recv_bd (s_tcp s) = Some (BdData i) /\ t_recved_len (s_tcp s) = 0 /\ t_wanted_recv_len (s_tcp s) = wanted.

(** a head is in the first 64 bytes *)
Lemma decode_head_prefix (l data : list Z) : take 64 l = data -> length data = 64%nat -> decode_head l = decode_head data.
Proof.
  intros H Hd. rewrite <- (take_drop 64 l), H. unfold decode_head. by rewrite !field_app by lia.
Qed.

(** nothing more arrives *)
Lemma receive_awaits n c k i s l :
  t_recv_bd (s_tcp s) = Some (BdData i) -> t_recved_len (s_tcp s) = 0 -> t_sock_in (s_tcp s) = [] ->
  0 < t_wanted_recv_len (s_tcp s) <= Z.of_nat (length l) -> mem s !! BdData i = Some l ->
  t_id (s_tcp s) = c -> d_conns (s_disp s) !! c = Some k ->
  exists s', do_receive disps is_open (S n) s = ret (0, s') /\ s_disp s' = s_disp s /\ t_id (s_tcp s') = c
    /\ t_readable (s_tcp s') = false /\ awaits i (t_wanted_recv_len (s_tcp s)) s'.
Proof.
  intros Hb Hg Hin Hw El Hid Hk.
  assert (transfer s (BdData i) [] (t_wanted_recv_len (s_tcp s))) as Ht.
  { split; [done|]. split; [done|]. split; [done|]. split; [cbn; lia|]. by exists l. }
  destruct (recv_pieces s (BdData i) [] _ [] l Ht El ltac:(lia) Hin ltac:(constructor))
    as [(_ & s' & E & Ht' & _ & Hrd & Hch)|(Hge & _)]; [|cbn in Hge; lia].
  destruct Ht' as (Hb' & Hg' & Hw' & _). exists s'. destruct Hch as [Cd Ci _ _ _ _ _]. splits; [|done|congruence|done|by repeat split].
  eapply (round_part disps is_open n (BdData i) s s' k); [done|done| | |done].
  - rewrite Hw', Hg'. cbn. lia.
  - apply (the_conn_done c); [congruence|by rewrite Cd].
Qed.

Lemma head_sized_data n c i r k data s :
  begun i PF_MSG_HEAD_SIZE data s -> t_id (s_tcp s) = c -> t_handler (s_tcp s) = NetDone ->
  d_conns (s_disp s) !! c = Some k -> c_ref_count k = r + 1 -> 0 < r -> is_Some (iocbs s !! i) ->
  data_len (BdData i) (s_tcp s) = PF_MSG_HEAD_SIZE ->
  Z.of_nat (length data) = PF_MSG_HEAD_SIZE -> is_write data = true -> 0 < hlen data <= PF_MAX_IO_SIZE ->
  exists s' k', do_receive disps is_open (S (S n)) s = ret (0, s') /\ d_events (s_disp s') = d_events (s_disp s)
    /\ t_id (s_tcp s') = c /\ t_readable (s_tcp s') = false /\ d_conns (s_disp s') !! c = Some k' /\ c_ref_count k' = r + 1
    /\ awaits i (hlen data) s'.
Proof.
  intros [B1 B2 B3 B4 (ps & Es & Ec & Hne) (l & El & Hll)] Hid Hh Ek Hk Hr [io Hio] Hdl Hld Hwd Hnd.
  change PF_MSG_HEAD_SIZE with 64 in *. change (i32 64) with 64 in *. change PF_MAX_IO_SIZE with 131072 in *.
  assert (transfer s (BdData i) [] 64) as Ht by (split; [done|]; split; [done|]; split; [done|]; split; [done|]; by exists l).
  destruct (recv_pieces s (BdData i) [] 64 ps l Ht El ltac:(lia) Es Hne)
    as [(Hlt & _)|(_ & s4 & ps4 & E4 & (T1 & T2 & T3 & _ & l4 & El4 & Hl4) & Hf & Es4 & Ec4 & Hn4 & Hrd4 & Hch)];
    [rewrite Ec in Hlt; cbn [length] in Hlt; lia|].
  rewrite Ec in *. cbn [app] in *. rewrite (take_ge data), (drop_ge data) in * by (cbn; lia). rewrite Hld in T2.
  pose proof Hch as [Cd Ci Ch _ _ Cl (l0 & l' & El0 & Hl' & Em)]. rewrite Em, lookup_insert_eq in El4. injection El4 as <-.
  rewrite El in El0. injection El0 as <-. replace (length data) with 64%nat in Hl4 by lia.
  rewrite (round_full disps is_open (S n) (BdData i) s s4); [|done|done|congruence|congruence].
  pose proof (decode_head_prefix l' data Hl4 ltac:(lia)) as Edec.
  destruct (begins c k (BdData i) l' io (fun b s => do_receive disps is_open (S n) (begin_recv b s)) (quiet s4) i)
    as (s5 & -> & D5 & M5 & [N1 _] & I5 & K5 & V5 & _); [cbn; congruence|cbn; by rewrite Cd|by right| |cbn; by rewrite Cd| | |].
  { cbn. unfold mem in Em. by rewrite Em, lookup_insert_eq. } { unfold data_len in *. cbn. by rewrite Cl. }
  { unfold is_write. by rewrite Edec. }
  assert (ps4 = []) as -> by (destruct ps4 as [|x ps4]; [done|]; apply Forall_cons in Hn4 as [Hx _]; cbn in Ec4; by apply app_nil in Ec4 as [-> _]).
  assert (hlen l' = hlen data) as Eh by (unfold hlen; by rewrite Edec). rewrite Eh, i32_small in D5 by lia.
  destruct (receive_awaits n c (set_c_ref (c_ref_count k + 1) k) i (begin_recv (BdData i) s5) l') as (s6 & -> & Cd6 & Hid6 & Hrd6 & Haw).
  { done. } { done. } { change (t_sock_in (s_tcp s5) = []). rewrite N1. exact Es4. }
  { change (0 < data_len (BdData i) (s_tcp s5) <= Z.of_nat (length l')). rewrite D5. lia. }
  { change (mem s5 !! BdData i = Some l'). rewrite M5. change (mem s4 !! BdData i = Some l'). by rewrite Em, lookup_insert_eq. }
  { exact I5. } { exact K5. }
  cbn [rbind ret]. rewrite (go_on_waits (S n) c (set_c_ref (c_ref_count k + 1) k) s6); [|done|by rewrite Cd6|cbn; lia|done].
  eexists _, _. split; [reflexivity|]. splits; [|exact Hid6|exact Hrd6|apply with_ref_conn|cbn; lia|].
  - change (d_events (s_disp s6) = d_events (s_disp s)). rewrite Cd6. change (d_events (s_disp s5) = d_events (s_disp s)).
    rewrite V5. cbn. by rewrite Cd.
  - rewrite <- D5. exact Haw.
Qed.

(** A write of 64 bytes: the descriptor of the data of a 64 byte write
    has the length by which the server recognises heads.  The data are parsed
    as a head; when they look like one of a write, the request is not handed
    to the dispatcher, and the connection waits for as many bytes of data as
    the client's own data say. *)
Theorem head_sized_write_lost (n : nat) (c r i : Z) (ids hb data : list Z) (s : srv) :
  listening c (i :: ids) r s -> 0 < r ->
  Z.of_nat (length hb) = PF_MSG_HEAD_SIZE -> is_write hb = true -> hlen hb = PF_MSG_HEAD_SIZE ->
  Z.of_nat (length data) = PF_MSG_HEAD_SIZE -> is_write data = true -> 0 < hlen data <= PF_MAX_IO_SIZE ->
  exists s', do_receive disps is_open (S (S (S (S n)))) (input (hb ++ data) s) = ret (0, s')
    /\ d_events (s_disp s') = d_events (s_disp s) /\ awaits i (hlen data) s'.
Proof.
  intros Hl Hr Hlh Hwh Hnh Hld Hwd Hnd. assert (take 64 (hb ++ data) = hb /\ drop 64 (hb ++ data) = data) as [Et Ed].
  { change PF_MSG_HEAD_SIZE with 64 in *. rewrite take_app_le, drop_app_ge by lia. rewrite take_ge by lia.
    replace (64 - length hb)%nat with O by lia. done. }
  destruct (write_head_taken (S (S n)) c i ids r (hb ++ data) s Hl) as (s3 & E & B & Hid & Hh & (k & Ek & Hk) & Ev & Hio & Hdl);
    [rewrite length_app; lia|by rewrite Et|].
  rewrite Et, Ed, Hnh in *. rewrite E. change (i32 PF_MSG_HEAD_SIZE) with PF_MSG_HEAD_SIZE in Hdl.
  destruct (head_sized_data n c i r k data s3 B Hid Hh Ek Hk Hr Hio Hdl Hld Hwd Hnd)
    as (s' & k' & -> & Ev' & Hid' & Hrd' & Ek' & Hk' & Haw).
  cbn [rbind ret]. rewrite (go_on_waits _ c k' s' Hid' Ek') by (done || lia). eexists. split; [reflexivity|].
  split; [by rewrite <- Ev, <- Ev'|exact Haw].
Qed.

(** ** Data as long as a reply *)
Record resending (i : Z) (l : list Z) (k : nat) (s : srv) : Prop := mkResending {
  re_bd : t_send_bd (s_tcp s) = Some (BdData i);
  re_sent : t_sent_len (s_tcp s) = 0;
  re_wanted : t_wanted_send_len (s_tcp s) = PF_MSG_REPLY_SIZE;
  re_len : data_len (BdData i) (s_tcp s) = PF_MSG_REPLY_SIZE;
  re_buf : mem s !! BdData i = Some l /\ PF_MSG_REPLY_SIZE <= Z.of_nat (length l);
  re_read : read_reply s i = true;
  re_writeable : t_writeable (s_tcp s) = true;
  re_room : t_room (s_tcp s) = replicate k (Accepts PF_MSG_REPLY_SIZE)
}.

(** the data are sent, and are to be sent again *)
Lemma resend_round n c r i l k s :
  alive c r s -> resending i l (S k) s ->
  exists s2, do_send disps is_open (S n) s
      = (let? (rc, s) := (let? (_, s) := do_send disps is_open n s2 in ret (1, s)) in
         let? s := lift (conn_unref s) in
         if rc <? 0 then let? s := close disps is_open n s in ret (rc, s) else on_again disps is_open n s)
    /\ alive c (r + 1) s2 /\ resending i l k s2 /\ t_wire (s_tcp s2) = t_wire (s_tcp s) ++ take 32 l
    /\ t_recv_q (s_tcp s2) = t_recv_q (s_tcp s) /\ t_send_q (s_tcp s2) = t_send_q (s_tcp s).
Proof.
  intros Ha [R1 R2 R3 R4 [R5 R6] R7 R8 R9]. change PF_MSG_REPLY_SIZE with 32 in *. cbn [do_send]. rewrite R1.
  unfold send_with_error_handle. rewrite R2, R3, R9. change (0 <? 32) with true. cbn [replicate]. cbn iota.
  change (Z.min 32 (32 - 0)) with 32. change (32 <=? 0) with false. cbn iota. unfold buf_of_bd. fold (mem s). rewrite R5.
  cbn [of_option obind]. rewrite (proj2 (Z.leb_le _ _)) by lia. cbn [lift obind rbind ret].
  change (negb (0 =? 0) && negb (0 =? - EAGAIN)) with false. cbn iota. set (s1 := on_tcp _ s).
  change (t_wanted_send_len (s_tcp s1)) with (t_wanted_send_len (s_tcp s)).
  change (t_sent_len (s_tcp s1)) with (t_sent_len (s_tcp s) + 32). rewrite R2, R3, Z.eqb_refl. fold (off_bd s1).
  change (t_handler (s_tcp (off_bd s1))) with (t_handler (s_tcp s)). rewrite (proj1 (proj2 Ha)).
  destruct (alive_addref c r (off_bd s1) Ha) as (q & Eq & Ha2). set (s2 := with_ref c (r + 1) q (off_bd s1)) in *.
  unfold server_send_done. cbn [block_of lift obind rbind ret]. unfold get_iocb. unfold read_reply, iocbs in R7.
  change (d_iocbs (s_disp (off_bd s1))) with (d_iocbs (s_disp s)). destruct (d_iocbs (s_disp s) !! i) as [io|] eqn:Eio; [|done].
  cbn [of_option lift obind rbind ret]. change (data_len (BdData i) (s_tcp (off_bd s1))) with (data_len (BdData i) (s_tcp s)).
  rewrite R4. change (32 =? PF_MSG_REPLY_SIZE) with true. rewrite andb_true_l, R7, Eq. cbn [lift obind rbind ret].
  exists (begin_send (BdData i) s2). splits; [done|exact Ha2| | |done|done]; [|].
  2: { change (t_wire (s_tcp s) ++ take (Z.to_nat 32) (drop (Z.to_nat (t_sent_len (s_tcp s))) l) = t_wire (s_tcp s) ++ take 32 l).
       by rewrite R2. }
  split; [done|done|exact R4|exact R4|by split| |exact R8|done]. unfold read_reply, iocbs. change (d_iocbs (s_disp _)) with (d_iocbs (s_disp s)).
  by rewrite Eio.
Qed.

(** A read of 32 bytes: the descriptor of the data of a 32 byte read has
    the length by which the server recognises replies.  As long as the socket
    accepts them the data are sent again and again, the block never returns
    to the queue of receives, and the replies behind it never leave. *)
Theorem reply_sized_read_repeats (k n : nat) (c r i : Z) (l : list Z) (s : srv) :
  alive c r s -> 0 < r -> resending i l k s -> (k < n)%nat ->
  exists s', do_send disps is_open n s = ret (0, s') /\ t_wire (s_tcp s') = t_wire (s_tcp s) ++ concat (replicate k (take 32 l))
    /\ t_recv_q (s_tcp s') = t_recv_q (s_tcp s) /\ t_send_q (s_tcp s') = t_send_q (s_tcp s)
    /\ t_send_bd (s_tcp s') = Some (BdData i).
Proof.
  intros Ha Hr Hs Hn.
  enough (exists s', do_send disps is_open n s = ret (0, s') /\ alive c r s' /\ t_writeable (s_tcp s') = false
    /\ t_wire (s_tcp s') = t_wire (s_tcp s) ++ concat (replicate k (take 32 l))
    /\ t_recv_q (s_tcp s') = t_recv_q (s_tcp s) /\ t_send_q (s_tcp s') = t_send_q (s_tcp s)
    /\ t_send_bd (s_tcp s') = Some (BdData i)) as (s' & E & _ & _ & H) by (exists s'; by split).
  revert n r s Ha Hr Hs Hn. induction k as [|k IH]; intros [|n] r s Ha Hr Hs Hn; try lia.
  - destruct Hs as [R1 R2 R3 R4 R5 R7 R8 R9]. cbn [do_send]. rewrite R1. unfold send_with_error_handle. rewrite R2, R3, R9.
    change (0 <? PF_MSG_REPLY_SIZE) with true. cbn [replicate]. cbn iota. cbn [lift obind rbind ret].
    change (negb (- EAGAIN =? 0) && negb (- EAGAIN =? - EAGAIN)) with false. cbn iota. set (s1 := on_tcp _ s).
    change (t_wanted_send_len (s_tcp s1)) with (t_wanted_send_len (s_tcp s)).
    change (t_sent_len (s_tcp s1)) with (t_sent_len (s_tcp s)). rewrite R2, R3. change (PF_MSG_REPLY_SIZE =? 0) with false.
    destruct (alive_conn c r s1 Ha) as [q ->]. exists s1. splits; [done|exact Ha|done| |done|done|exact R1].
    cbn [replicate concat]. by rewrite app_nil_r.
  - destruct (resend_round n c r i l k s Ha Hs) as (s2 & -> & Ha2 & Hs2 & Ew & Eq & Es).
    destruct (IH n (r + 1) s2 Ha2) as (s3 & -> & Ha3 & Hw3 & Ew3 & Eq3 & Es3 & Eb3); [lia|done|lia|]. cbn [rbind ret].
    destruct (alive_unref c r s3 Ha3 Hr) as (q & -> & Ha4). cbn [lift obind rbind ret]. change (1 <? 0) with false. cbn iota.
    unfold on_again. destruct (alive_conn _ _ _ Ha4) as [q' ->]. cbn [lift obind rbind ret].
    change (t_writeable (s_tcp (with_ref c r q s3))) with (t_writeable (s_tcp s3)). rewrite Hw3.
    eexists. split; [reflexivity|]. splits; [done|exact Hw3| |exact (eq_trans Eq3 Eq)|exact (eq_trans Es3 Es)|exact Eb3].
    change (t_wire (s_tcp s3) = t_wire (s_tcp s) ++ concat (replicate (S k) (take 32 l))). cbn [replicate concat].
    by rewrite Ew3, Ew, app_assoc.
Qed.
End Limits.

Module LimitsDemo.
Import TcpDemo.
Definition huge : list Z := encode_head (head S5_OP_WRITE (2 ^ 31 + 5)).
Definition long : list Z := encode_head (head S5_OP_WRITE (PF_MAX_IO_SIZE + 1)) ++ replicate (Z.to_nat (PF_MAX_IO_SIZE + 1)) 7.

Lemma long_head : take 64 long = encode_head (head S5_OP_WRITE (PF_MAX_IO_SIZE + 1)).
Proof. unfold long. rewrite take_app_le, take_ge by (by rewrite encode_head_length). done. Qed.

Lemma long_length : Z.of_nat (length long) = PF_MSG_HEAD_SIZE + PF_MAX_IO_SIZE + 1.
Proof. unfold long. rewrite length_app, encode_head_length, length_replicate, Nat2Z.inj_add, Z2Nat.id by done. done. Qed.
End LimitsDemo.

Lemma negative_length_never_returns_witness :
  on_socket_event 1 (fun _ => true) 50 false true false (arrive LimitsDemo.huge TcpDemo.idle) = Done None.
Proof.
  apply (negative_length_never_returns 1 (fun _ => true) 50 9 5 0 [1] LimitsDemo.huge TcpDemo.idle TcpDemo.idle_listening);
    [done|by vm_compute|split; by vm_compute].
Defined.

Lemma long_write_overflows_witness :
  on_socket_event 1 (fun _ => true) 50 false true false (arrive LimitsDemo.long TcpDemo.idle) = Undef.
Proof.
  apply (long_write_overflows 1 (fun _ => true) 47 9 5 0 [1] LimitsDemo.long TcpDemo.idle TcpDemo.idle_listening).
  - rewrite LimitsDemo.long_head. by vm_compute.
  - rewrite LimitsDemo.long_head. split; by vm_compute.
  - rewrite LimitsDemo.long_length. lia.
Defined.

Lemma head_sized_write_lost_witness :
  exists s', do_receive 1 (fun _ => true) 4
      (input (encode_head (TcpDemo.head S5_OP_WRITE 64) ++ encode_head (TcpDemo.head S5_OP_WRITE 4096)) TcpDemo.idle) = ret (0, s')
    /\ d_events (s_disp s') = [] /\ awaits 0 4096 s'.
Proof.
  apply (head_sized_write_lost 1 (fun _ => true) 0 9 5 0 [1] (encode_head (TcpDemo.head S5_OP_WRITE 64))
    (encode_head (TcpDemo.head S5_OP_WRITE 4096)) TcpDemo.idle TcpDemo.idle_listening);
    [done|done|by vm_compute|by vm_compute|done|by vm_compute|split; by vm_compute].
Defined.

Lemma reply_sized_read_repeats_witness :
  exists s', do_send 1 (fun _ => true) 4
      (mkSrv SendDemo.disp (mkTcp 9 None 0 0 (Some (BdData 0)) 0 32 false true [] [BdReply 1] 510 255 NetDone []
         (replicate 3 (Accepts 32)) [] {[BdData 0 := replicate 4096 2]} {[0 := 32]})) = ret (0, s')
    /\ t_wire (s_tcp s') = replicate 96 2.
Proof.
  destruct (reply_sized_read_repeats 1 (fun _ => true) 3 4 9 5 0 (replicate 4096 2)
    (mkSrv SendDemo.disp (mkTcp 9 None 0 0 (Some (BdData 0)) 0 32 false true [] [BdReply 1] 510 255 NetDone []
         (replicate 3 (Accepts 32)) [] {[BdData 0 := replicate 4096 2]} {[0 := 32]}))) as (s' & E & Hw & _).
  - split; [done|]. split; [done|]. by eexists.
  - done.
  - by split.
  - lia.
  - exists s'. split; [exact E|exact Hw].
Defined.
