(* ===== verification/TcpLife.v ===== *)
(** * The life of a TCP connection

    The handshake of a client and the closing of the connection, from
    [accept_connection] on (TcpServer.v): the blocks a handshake attaches are
    the ones closing flushes. *)

From Stdlib Require Import ZArith Lia.
From stdpp Require Import base tactics list numbers sets gmap.
From S2P Require Import Prelude Bytes Runs FixedQueue MemPool Ids Volume Connection Dispatcher TcpServer TcpProps TcpSend.

Section Life.
Variables (disps : Z) (is_open : Z -> bool).

(** ** Closing *)

(** a block that waits for a request *)
Definition waiting (c : Z) (s : srv) (i : Z) : Prop :=
  exists io, iocbs s !! i = Some io /\ i_ref_count io = 1 /\ i_conn io = Some c /\ 0 <= i_disp_index io < disps.

Record flushing (c st r : Z) (ids held : list Z) (s : srv) : Prop := mkFlushing {
  fl_id : t_id (s_tcp s) = c;
  fl_handler : t_handler (s_tcp s) = NetDone;
  fl_conn : exists k, d_conns (s_disp s) !! c = Some k /\ c_state k = st /\ c_ref_count k = r;
  fl_blocks : Forall (waiting c s) ids;
  fl_nodup : NoDup ids;
  fl_pool : pool_inv (d_iocb_pool (s_disp s)) (ids ++ held) /\ 0 <= obj_count (d_iocb_pool (s_disp s))
}.

Lemma drop_conn_done c k d :
  d_conns d !! c = Some k -> c_ref_count k <> 1 ->
  drop_conn c d = Done (set_conns (<[c := set_c_ref (c_ref_count k - 1) k]> (d_conns d)) d).
Proof.
  intros E Hr. unfold drop_conn, conn_dec_ref. rewrite E. cbn [of_option obind c_ref_count set_c_ref].
  by rewrite (proj2 (Z.eqb_neq _ _)) by lia.
Qed.

(** one block: it goes back to the pool, and two references go *)
Lemma flush_block c st r i ids held s cb :
  flushing c st (r + 2) (i :: ids) held s -> 0 < r ->
  (forall s, t_handler (s_tcp s) = NetDone -> cb (BdCmd i) s = lift (server_flushed disps (BdCmd i) s)) ->
  exists s', flush_one cb (BdCmd i) s = ret s' /\ flushing c st r ids held s' /\ s_tcp s' = s_tcp s.
Proof.
  intros [F1 F2 (k & Ek & Hst & Hk) F4 F5 [F6 F7]] Hr Hcb. apply Forall_cons in F4 as [(io & Eio & Hrc & Hc & Hdi) F4].
  apply NoDup_cons in F5 as [Hnin F5]. cbn [app] in F6.
  destruct (pool_free_spec _ i (ids ++ held) F6 F7) as (p' & Ep & Hp' & Hn').
  unfold flush_one. rewrite Hcb by done. unfold server_flushed. cbn [block_of obind]. unfold on_disp, iocb_dec_ref, get_iocb.
  unfold iocbs in Eio. rewrite Eio. cbn [of_option obind i_ref_count set_ref]. rewrite Hrc. change (u32 (1 - 1) =? 0) with true. cbn iota.
  unfold free_to_pool, get_iocb. cbn [d_iocbs set_iocb]. rewrite lookup_insert_eq. cbn [of_option obind i_conn set_ref i_disp_index].
  rewrite Hc. rewrite (drop_conn_done c k) by (try exact Ek; lia). cbn [obind].
  rewrite (proj2 (Z.leb_le _ _)), (proj2 (Z.ltb_lt _ _)) by lia. cbn [negb andb].
  change (d_iocb_pool (set_conns _ _)) with (d_iocb_pool (s_disp s)). rewrite Ep. cbn [obind lift rbind ret].
  match goal with |- context [conn_unref ?s0] => set (s1 := s0) end.
  assert (d_conns (s_disp s1) !! c = Some (set_c_ref (c_ref_count k - 1) k)) as Ek1 by apply lookup_insert_eq.
  rewrite (conn_unref_done c _ s1 F1 Ek1) by (cbn; lia). cbn [lift obind rbind ret].
  rewrite (the_conn_done c (set_c_ref (c_ref_count k - 1 - 1) (set_c_ref (c_ref_count k - 1) k))); [|exact F1|apply with_ref_conn].
  cbn [lift obind rbind ret]. eexists. split; [reflexivity|]. split; [|done]. split; [exact F1|exact F2| | |exact F5|].
  - eexists. split; [apply with_ref_conn|]. split; [exact Hst|cbn; lia].
  - rewrite Forall_forall in F4 |- *. intros j Hj. destruct (F4 j Hj) as (io' & E' & H'). exists io'. split; [|exact H'].
    assert (j <> i) as Hji by by intros ->. unfold iocbs. cbn. by rewrite !lookup_insert_ne by done.
  - cbn. by rewrite Hn'.
Qed.

Lemma flush_blocks c st ids : forall r held s cb,
  flushing c st (r + 2 * Z.of_nat (length ids)) ids held s -> 0 < r ->
  (forall i s, t_handler (s_tcp s) = NetDone -> cb (BdCmd i) s = lift (server_flushed disps (BdCmd i) s)) ->
  exists s', flush_all cb (BdCmd <$> ids) s = ret s' /\ flushing c st r [] held s' /\ s_tcp s' = s_tcp s.
Proof.
  induction ids as [|i ids IH]; intros r held s cb Hs Hr Hcb; cbn [fmap list_fmap flush_all].
  - exists s. splits; [done| |done]. cbn [length] in Hs. by rewrite Z.add_0_r in Hs.
  - destruct (flush_block c st (r + 2 * Z.of_nat (length ids)) i ids held s cb) as (s1 & -> & Hs1 & Et1); [|lia|by intros; apply Hcb|].
    { replace (r + 2 * Z.of_nat (length ids) + 2) with (r + 2 * Z.of_nat (length (i :: ids))) by (cbn [length]; lia). done. }
    cbn [rbind ret]. destruct (IH r held s1 cb Hs1 Hr Hcb) as (s' & E & Hs' & Et). exists s'. splits; [exact E|done|congruence].
Qed.

(** Closing an idle connection: every block of the connection waits for
    a request, so the references are two per block and the one that closing
    drops.  [close] flushes the blocks and calls [on_close], which drops the
    last reference and deletes the connection; then it stores the time of
    closing in the deleted object. *)
Theorem idle_close_uses_freed (n : nat) (c : Z) (ids held : list Z) (s : srv) :
  flushing c CONN_OK (1 + 2 * Z.of_nat (length ids)) ids held s ->
  t_recv_bd (s_tcp s) = None -> t_send_bd (s_tcp s) = None ->
  t_recv_q (s_tcp s) = BdCmd <$> ids -> t_send_q (s_tcp s) = [] ->
  on_socket_event disps is_open (S n) true false false s = Undef.
Proof.
  intros Hs Hrb Hsb Hrq Hsq. unfold on_socket_event. cbn [close].
  pose proof Hs as [F1 F2 (k & Ek & Hst & Hk) F4 F5 F6]. unfold conn_close. rewrite F1, Ek. cbn [of_option obind].
  rewrite Hst. change (CONN_OK =? CONN_OK) with true. cbn [lift obind rbind ret].
  set (s1 := mkSrv (set_conns _ _) _). unfold flush_wr.
  change (t_recv_bd (s_tcp s1)) with (t_recv_bd (s_tcp s)). rewrite Hrb. cbn [rbind ret].
  change (t_send_bd (s_tcp s1)) with (t_send_bd (s_tcp s)). rewrite Hsb. cbn [rbind ret].
  set (s2 := on_tcp _ s1). change (t_recv_q (s_tcp s1)) with (t_recv_q (s_tcp s)). rewrite Hrq.
  assert (flushing c CONN_CLOSED (1 + 2 * Z.of_nat (length ids)) ids held s2) as Hs2.
  { split; [exact F1|exact F2| |exact F4|exact F5|exact F6]. eexists. split; [apply lookup_insert_eq|done]. }
  match goal with |- context [flush_all ?f _ s2] => destruct (flush_blocks c CONN_CLOSED ids 1 held s2 f Hs2 ltac:(lia)) as (s3 & E & Hs3 & Et) end.
  { intros i s0 Hh. by rewrite Hh. }
  rewrite E. cbn [rbind ret]. rewrite Et. change (t_send_q (s_tcp s2)) with (t_send_q (s_tcp s)). rewrite Hsq. cbn [flush_all rbind ret].
  set (s4 := on_tcp _ s3). destruct Hs3 as [G1 _ (k3 & Ek3 & Hst3 & Hk3) _ _ _].
  unfold server_on_conn_close, conn_unref, on_disp, drop_conn, conn_dec_ref. change (t_id (s_tcp s4)) with (t_id (s_tcp s3)). rewrite G1.
  change (d_conns (s_disp s4)) with (d_conns (s_disp s3)). rewrite Ek3. cbn [of_option obind c_ref_count set_c_ref].
  rewrite Hk3. change (1 - 1 =? 0) with true. cbn [obind c_state set_c_ref]. rewrite Hst3.
  change (CONN_CLOSED =? CONN_OK) with false. cbn [lift obind rbind ret]. unfold the_conn. cbn [s_tcp s_disp set_conns d_conns].
  change (t_id (s_tcp s4)) with (t_id (s_tcp s3)). rewrite G1, lookup_delete_eq. done.
Qed.

(** ** The blocks of a handshake *)
Definition fresh (s : srv) (i : Z) : Prop :=
  exists io, iocbs s !! i = Some io /\ i_ref_count io = 0 /\ 0 <= i_disp_index io < disps.

(** the blocks nobody holds are fresh *)
Definition stocked (held : list Z) (s : srv) : Prop :=
  forall i, 0 <= i < obj_count (d_iocb_pool (s_disp s)) -> i ∉ held -> fresh s i.

(** one turn of the loop *)
Lemma attach_one n c st r ids held s :
  flushing c st r ids held s -> stocked (ids ++ held) s -> t_recv_q (s_tcp s) = BdCmd <$> ids ->
  Z.of_nat (length ids) < t_recv_depth (s_tcp s) ->
  Z.of_nat (length (ids ++ held)) < obj_count (d_iocb_pool (s_disp s)) ->
  exists i s1, attach_blocks disps (S n) s = attach_blocks disps n s1
    /\ flushing c st (r + 2) (ids ++ [i]) held s1 /\ stocked ((ids ++ [i]) ++ held) s1
    /\ s_tcp s1 = set_queues (BdCmd <$> (ids ++ [i])) (t_send_q (s_tcp s)) (s_tcp s)
    /\ obj_count (d_iocb_pool (s_disp s1)) = obj_count (d_iocb_pool (s_disp s)).
Proof.
  intros [F1 F2 (k & Ek & Hst & Hk) F4 F5 [F6 F7]] Hstk Hq Hdep Hcnt. cbn [attach_blocks].
  destruct (pool_alloc_spec _ _ F6 F7) as [(i & p' & -> & Hnin & Hi & Hp' & Hn')|[_ Hfull]]; [|lia].
  cbn [obind]. destruct (Hstk i Hi Hnin) as (io & Eio & Hrc & Hdi). unfold get_iocb. cbn [s_disp set_iocb_pool d_iocbs].
  unfold iocbs in Eio. rewrite Eio. cbn [of_option obind]. set (s0 := mkSrv (set_iocb_pool p' (s_disp s)) (s_tcp s)).
  rewrite (conn_ref_done c k s0 F1 Ek). cbn [obind]. set (s1 := with_ref c _ k s0).
  change (t_id (s_tcp s1)) with (t_id (s_tcp s)). rewrite F1.
  set (s2 := mkSrv (set_iocb i _ (s_disp s1)) (s_tcp s1)). unfold post_recv.
  rewrite (conn_ref_done c (set_c_ref (c_ref_count k + 1) k) s2 F1 (lookup_insert_eq _ _ _)). cbn [obind].
  set (s3 := with_ref c _ _ s2). change (t_recv_q (s_tcp s3)) with (t_recv_q (s_tcp s)).
  change (t_recv_depth (s_tcp s3)) with (t_recv_depth (s_tcp s)). rewrite Hq, length_fmap, (proj2 (Z.ltb_lt _ _)) by lia.
  cbn [obind]. change (negb (0 =? 0)) with false. cbn iota. exists i. eexists. split; [reflexivity|].
  assert (forall j, j <> i -> iocbs s3 !! j = iocbs s !! j) as Hother by (intros j Hj; by apply lookup_insert_ne).
  rewrite not_elem_of_app in Hnin. destruct Hnin as [Hnin1 Hnin2].
  assert (x : (i :: ids ++ held) ≡ₚ ((ids ++ [i]) ++ held)) by (rewrite <- app_assoc; apply Permutation_middle).
  splits.
  - split; [exact F1|exact F2| | | |].
    + eexists. split; [apply with_ref_conn|]. split; [exact Hst|cbn; lia].
    + apply Forall_app. split; [|constructor; [|constructor]].
      * rewrite Forall_forall in F4 |- *. intros j Hj. destruct (F4 j Hj) as (io' & E' & H'). exists io'. split; [|exact H']. rewrite <- E'. apply Hother. by intros ->.
      * eexists. split; [apply lookup_insert_eq|]. cbn. rewrite Hrc. split; [done|]. split; [done|exact Hdi].
    + apply NoDup_app. splits; [done| |apply NoDup_singleton]. intros j Hj ->%list_elem_of_singleton. done.
    + split; [exact (pool_inv_perm _ _ _ x Hp')|]. change (0 <= obj_count p'). by rewrite Hn'.
  - intros j Hj Hnj. destruct (Hstk j) as (io' & E' & H').
    + rewrite <- Hn'. exact Hj.
    + intros Hin. apply Hnj. rewrite <- x. by right.
    + exists io'. split; [|done]. rewrite <- E'. apply Hother. intros ->. apply Hnj. rewrite <- x. by left.
  - cbn. by rewrite fmap_app.
  - exact Hn'.
Qed.

Lemma attach_all n c st held : forall ids r s,
  flushing c st r ids held s -> stocked (ids ++ held) s -> t_recv_q (s_tcp s) = BdCmd <$> ids ->
  Z.of_nat (length ids + n) <= t_recv_depth (s_tcp s) ->
  Z.of_nat (length (ids ++ held) + n) <= obj_count (d_iocb_pool (s_disp s)) ->
  exists ids' s', attach_blocks disps n s = Done (0, s') /\ flushing c st (r + 2 * Z.of_nat n) ids' held s'
    /\ length ids' = (length ids + n)%nat
    /\ s_tcp s' = set_queues (BdCmd <$> ids') (t_send_q (s_tcp s)) (s_tcp s)
    /\ obj_count (d_iocb_pool (s_disp s')) = obj_count (d_iocb_pool (s_disp s)).
Proof.
  induction n as [|n IH]; intros ids r s Hs Hstk Hq Hdep Hcnt.
  - exists ids, s. splits; [done|by rewrite Z.add_0_r|lia| |done]. rewrite <- Hq. by destruct (s_tcp s).
  - destruct (attach_one n c st r ids held s Hs Hstk Hq) as (i & s1 & -> & Hs1 & Hstk1 & Et & Ec); [lia|lia|].
    destruct (IH (ids ++ [i]) (r + 2) s1 Hs1 Hstk1) as (ids' & s' & E & Hs' & Hl & Et' & Ec').
    + by rewrite Et.
    + rewrite Et, length_app. cbn. lia.
    + rewrite Ec, !length_app in *. cbn [length]. lia.
    + exists ids', s'. splits; [done| | | |by rewrite Ec', Ec].
      * by replace (r + 2 * Z.of_nat (S n)) with (r + 2 + 2 * Z.of_nat n) by lia.
      * rewrite Hl, length_app. cbn. lia.
      * by rewrite Et', Et.
Qed.

(** ** The handshake *)
Definition hs_ok (l : list Z) : Prop :=
  length l = 32%nat /\ (hs_vol_id l = 0 \/ is_open (hs_vol_id l) = true) /\ 0 < hs_hsqsize l <= PF_MAX_IO_DEPTH.

Lemma set_hs_result_length n l : length l = 32%nat -> length (set_hs_result n l) = 32%nat.
Proof. intros H. unfold set_hs_result. rewrite !length_app, length_take, length_drop, le_length. lia. Qed.

Lemma set_hs_result_field off n m l :
  length l = 32%nat -> (off + n <= 20)%nat -> field off n (set_hs_result m l) = field off n l.
Proof.
  intros H Hoff. unfold set_hs_result. rewrite field_app by (rewrite length_take; lia).
  rewrite <- (field_app off n (take 20 l) (drop 20 l)) by (rewrite length_take; lia). by rewrite take_drop.
Qed.

Lemma set_hs_result_fields m l :
  length l = 32%nat -> hs_vol_id (set_hs_result m l) = hs_vol_id l /\ hs_hsqsize (set_hs_result m l) = hs_hsqsize l.
Proof. intros H. unfold hs_vol_id, hs_hsqsize. by rewrite !set_hs_result_field by (done || lia). Qed.

(** a connection that has sent nothing yet *)
Record greeting (c r depth : Z) (h : wc_handler) (s : srv) : Prop := mkGreeting {
  gr_id : t_id (s_tcp s) = c;
  gr_handler : t_handler (s_tcp s) = h;
  gr_conn : exists k, d_conns (s_disp s) !! c = Some k /\ c_ref_count k = r /\ c_state k = CONN_OK /\ c_io_depth k = depth;
  gr_send : t_send_bd (s_tcp s) = None
}.

(** what the handshake does not touch *)
Definition outward (s : srv) : list send_room * list Z * bool * Z * Z * gmap Z PfServerIocb * ObjectMemoryPool PfFixedSizeQueue :=
  (t_room (s_tcp s), t_wire (s_tcp s), t_writeable (s_tcp s), t_recv_depth (s_tcp s), t_send_depth (s_tcp s),
   iocbs s, d_iocb_pool (s_disp s)).
Definition inbound (s : srv) : option bd * list bd * list arrival * bool :=
  (t_recv_bd (s_tcp s), t_recv_q (s_tcp s), t_sock_in (s_tcp s), t_readable (s_tcp s)).

Lemma handshake_received c k l s :
  t_id (s_tcp s) = c -> d_conns (s_disp s) !! c = Some k -> t_send_bd (s_tcp s) = None -> t_send_q (s_tcp s) = [] ->
  0 < t_send_depth (s_tcp s) -> mem s !! BdHand = Some l -> hs_ok l ->
  exists s', on_tcp_handshake_recved is_open BdHand s = Done (0, s')
    /\ greeting c (c_ref_count k + 1) (hs_hsqsize l) HsSent s' /\ t_send_q (s_tcp s') = [BdHand]
    /\ mem s' = <[BdHand := set_hs_result 0 l]> (mem s) /\ outward s' = outward s /\ inbound s' = inbound s.
Proof.
  intros Hid Ek Hsb Hsq Hdep El (Hlen & Hvol & Hq). destruct (set_hs_result_fields 0 l Hlen) as [Ev Eq].
  unfold on_tcp_handshake_recved, buf_of_bd. fold (mem s). rewrite El. cbn [of_option obind].
  unfold on_conn, on_disp. rewrite Hid, Ek. cbn [of_option obind]. rewrite Ev, Eq.
  rewrite (proj2 (Z.ltb_ge _ _)), (proj2 (Z.leb_gt _ _)) by lia. cbn [orb]. rewrite andb_false_r.
  cbn [s_tcp s_disp d_conns set_conns]. rewrite Hid, lookup_insert_eq. cbn [of_option obind].
  assert (negb (hs_vol_id l =? 0) && negb (is_open (hs_vol_id l)) = false) as ->.
  { destruct Hvol as [-> | ->]; [done|apply andb_false_r]. }
  cbn [obind]. unfold post_send.
  match goal with |- context [conn_ref ?s0] => set (s1 := s0) end.
  rewrite (conn_ref_done c (set_c_io_depth (hs_hsqsize l) (set_c_state CONN_OK k)) s1 Hid); [|apply lookup_insert_eq].
  cbn [obind]. set (s2 := with_ref c _ _ s1). change (t_send_q (s_tcp s2)) with (t_send_q (s_tcp s)).
  change (t_send_depth (s_tcp s2)) with (t_send_depth (s_tcp s)). rewrite Hsq. cbn [length app].
  rewrite (proj2 (Z.ltb_lt _ _)) by (cbn; lia). cbn [obind]. eexists. split; [reflexivity|]. splits; [|done|done|done|done].
  split; [exact Hid|done| |exact Hsb]. eexists. split; [apply with_ref_conn|done].
Qed.

Lemma rcv_outward b s rc s' : rcv_with_error_handle b s = Done (rc, s') -> outward s' = outward s.
Proof.
  unfold rcv_with_error_handle. destruct (buf_of_bd b s) as [buf| |]; try done. cbn [obind].
  destruct (rcv _ _ _ _ _) as [[[[[rc' arr] got] buf'] rd]| |]; try done. cbn [obind]. by intros [= <- <-].
Qed.

(** the request of the client is in, the answer is queued *)
Lemma greeting_received n c k l ps s :
  t_id (s_tcp s) = c -> t_handler (s_tcp s) = HsRecved -> d_conns (s_disp s) !! c = Some k -> c_ref_count k = 2 ->
  t_send_bd (s_tcp s) = None -> t_send_q (s_tcp s) = [] -> 0 < t_send_depth (s_tcp s) ->
  t_recv_bd (s_tcp s) = None -> t_recv_q (s_tcp s) = [BdHand] -> t_readable (s_tcp s) = true ->
  t_sock_in (s_tcp s) = Piece <$> ps -> nonempty ps -> concat ps = l -> hs_ok l ->
  (exists l0, mem s !! BdHand = Some l0 /\ length l0 = 32%nat) ->
  exists s', do_receive disps is_open (S (S (S n))) s = ret (0, s')
    /\ greeting c 2 (hs_hsqsize l) HsSent s' /\ t_send_q (s_tcp s') = [BdHand] /\ outward s' = outward s
    /\ inbound s' = (None, [], [], true) /\ mem s' = <[BdHand := set_hs_result 0 l]> (mem s).
Proof.
  intros Hid Hh Ek Hk Hsb Hsq Hdep Hrb Hrq Hrd Hin Hne Hc Hok (l0 & El0 & Hl0). pose proof Hok as (Hlen & _).
  cbn [do_receive]. rewrite Hrb, Hrq. set (s1 := begin_recv BdHand _). rewrite (the_conn_done c k s1 Hid Ek). cbn [lift obind rbind ret].
  change (t_readable (s_tcp s1)) with (t_readable (s_tcp s)). rewrite Hrd. change (t_recv_bd (s_tcp s1)) with (Some BdHand). cbn iota.
  assert (transfer s1 BdHand [] 32) as Ht by (split; [done|]; split; [done|]; split; [done|]; split; [done|]; by exists l0).
  destruct (recv_pieces s1 BdHand [] 32 ps l0 Ht El0 ltac:(lia) Hin Hne)
    as [(Hlt & _)|(_ & s2 & ps2 & E & (T1 & T2 & T3 & _ & l2 & El2 & Hl2) & Hf & Es2 & Ec2 & Hn2 & Hrd2 & Hch)];
    [rewrite Hc in Hlt; cbn in Hlt; lia|].
  rewrite Hc in *. cbn [app] in *. rewrite (take_ge l), (drop_ge l) in * by (cbn; lia).
  pose proof (rcv_outward _ _ _ _ E) as Eout. rewrite E. cbn [lift obind rbind ret].
  change (negb (0 =? 0) && negb (0 =? - EAGAIN)) with false. cbn iota. rewrite T2, T3, Hf, Z.eqb_refl. fold (quiet s2).
  destruct Hch as [Cd Ci Ch [Cs Csq] Cq _ (l1 & l' & El1 & Hl' & Em)].
  assert (t_handler (s_tcp (quiet s2)) = HsRecved) as -> by (change (t_handler (s_tcp s2) = HsRecved); by rewrite Ch).
  assert (l' = l) as ->.
  { change (mem s !! BdHand = Some l1) in El1. rewrite El0 in El1. injection El1 as <-.
    rewrite Em, lookup_insert_eq in El2. injection El2 as <-. rewrite <- Hl2. symmetry. apply take_ge. lia. }
  assert (t_send_depth (s_tcp s2) = t_send_depth (s_tcp s)) as Edep by (unfold outward in Eout; by injection Eout).
  destruct (handshake_received c k l (quiet s2)) as (s3 & -> & [G1 G2 (k3 & Ek3 & Hk3 & Hst3 & Hdp3) G4] & Hq3 & Hm3 & Ho3 & Hi3).
  { cbn. by rewrite Ci. } { cbn. by rewrite Cd. } { cbn. by rewrite Cs. } { cbn. by rewrite Csq. } { cbn. by rewrite Edep. }
  { change (mem s2 !! BdHand = Some l). by rewrite Em, lookup_insert_eq. } { done. }
  cbn [lift obind rbind ret]. rewrite (conn_unref_done c k3 s3 G1 Ek3) by lia. cbn [lift obind rbind ret].
  change (0 =? - ECONNABORTED) with false. cbn iota. set (s4 := with_ref c _ k3 s3).
  rewrite (the_conn_done c (set_c_ref (c_ref_count k3 - 1) k3) s4 G1 (lookup_insert_eq _ _ _)). cbn [lift obind rbind ret].
  assert (ps2 = []) as -> by (destruct ps2 as [|y ps2]; [done|]; apply Forall_cons in Hn2 as [Hx _]; cbn in Ec2; by apply app_nil in Ec2 as [-> _]).
  assert (inbound s4 = (None, [], [], true)) as Hi4.
  { change (inbound s3 = (None, [], [], true)). rewrite Hi3. unfold inbound.
    change (t_recv_q (s_tcp (quiet s2))) with (t_recv_q (s_tcp s2)). rewrite Cq.
    change (t_sock_in (s_tcp (quiet s2))) with (t_sock_in (s_tcp s2)). rewrite Es2.
    change (t_readable (s_tcp (quiet s2))) with (t_readable (s_tcp s2)). rewrite Hrd2. cbn. by rewrite Hrd. }
  pose proof Hi4 as Hi4'. unfold inbound in Hi4'. injection Hi4' as I1 I2 I3 I4.
  change (s_tcp s4) with (s_tcp s3). rewrite I4, I1, I2. exists s4. splits.
  - done.
  - split; [exact G1|exact G2| |exact G4]. eexists. split; [apply with_ref_conn|]. cbn. rewrite Hk3, Hk. by splits.
  - exact Hq3.
  - change (outward s3 = outward s). rewrite Ho3. exact Eout.
  - exact Hi4.
  - change (mem s3 = <[BdHand := set_hs_result 0 l]> (mem s)). rewrite Hm3. change (mem (quiet s2)) with (mem s2).
    rewrite Em. change (mem s1) with (mem s). by rewrite insert_insert_eq.
Qed.

(** one call of send takes the whole answer *)
Lemma hand_sent l m room s :
  t_sent_len (s_tcp s) = 0 -> t_wanted_send_len (s_tcp s) = 32 -> t_room (s_tcp s) = Accepts m :: room -> 32 <= m ->
  mem s !! BdHand = Some l -> length l = 32%nat ->
  send_with_error_handle BdHand s
  = Done (0, on_tcp (fun t => set_out room (t_wire t ++ l) (set_send (t_send_bd t) 32 (t_wanted_send_len t) t)) s).
Proof.
  intros Hsl Hwl Hrm Hm El Hlen. unfold send_with_error_handle. rewrite Hsl, Hwl, Hrm. change (0 <? 32) with true. cbn iota.
  replace (Z.min m (32 - 0)) with 32 by lia. change (32 <=? 0) with false. cbn iota. unfold buf_of_bd. unfold mem in El. rewrite El.
  cbn [of_option obind]. rewrite (proj2 (Z.leb_le _ _)) by lia. change (Z.to_nat 32) with 32%nat. unfold on_tcp.
  rewrite Hsl. change (drop (Z.to_nat 0) l) with l. by rewrite take_ge by lia.
Qed.

Lemma round_sent_hand n b s s1 :
  t_send_bd (s_tcp s) = Some b -> send_with_error_handle b s = Done (0, s1) ->
  t_wanted_send_len (s_tcp s1) = t_sent_len (s_tcp s1) -> t_handler (s_tcp s1) = HsSent ->
  do_send disps is_open (S n) s
  = (let? (rc, s) := on_tcp_handshake_sent disps (close disps is_open n) b true (off_bd s1) in
     let? s := lift (conn_unref s) in
     if rc <? 0 then let? s := close disps is_open n s in ret (rc, s) else on_again disps is_open n s).
Proof.
  intros Hb E Hw Hh. cbn [do_send]. rewrite Hb, E. cbn [lift obind rbind ret].
  change (negb (0 =? 0) && negb (0 =? - EAGAIN)) with false. cbn iota. rewrite Hw, Z.eqb_refl. fold (off_bd s1).
  change (t_handler (s_tcp (off_bd s1))) with (t_handler (s_tcp s1)). by rewrite Hh.
Qed.

(** the callback up to the loop that attaches blocks *)
Definition answered (c : Z) (k : PfConnection) (s : srv) : srv :=
  mkSrv (set_conns (<[c := set_c_state CONN_OK k]> (d_conns (s_disp s))) (s_disp s))
    (set_handler NetDone (set_mem (delete BdHand (t_mem (s_tcp s))) (t_data_len (s_tcp s)) (s_tcp s))).

Lemma hand_answered close_it c k l s :
  t_id (s_tcp s) = c -> d_conns (s_disp s) !! c = Some k -> c_state k = CONN_OK -> mem s !! BdHand = Some l ->
  on_tcp_handshake_sent disps close_it BdHand true s
  = lift (attach_blocks disps (Z.to_nat (2 * c_io_depth k)) (answered c k s)).
Proof.
  intros Hid Ek Hst El. unfold on_tcp_handshake_sent, buf_of_bd. unfold mem in El. rewrite El. cbn [of_option lift obind rbind ret].
  rewrite (the_conn_done c k) by done. cbn [lift obind rbind ret]. rewrite Hst. change (CONN_OK =? CONN_CLOSING) with false. cbn iota.
  unfold on_conn, on_disp, on_tcp. cbn [s_tcp s_disp t_id set_handler set_mem]. rewrite Hid, Ek. done.
Qed.

Lemma flushing_ref c st r r' k ids held s :
  flushing c st r ids held s -> c_state k = st -> flushing c st r' ids held (with_ref c r' k s).
Proof.
  intros [F1 F2 _ F4 F5 F6] Hk. split; [exact F1|exact F2| |exact F4|exact F5|exact F6].
  eexists. split; [apply with_ref_conn|]. by split.
Qed.

Lemma round_next n s b q :
  t_send_bd (s_tcp s) = None -> t_send_q (s_tcp s) = b :: q ->
  do_send disps is_open (S n) s
  = (let? (rc, s) := do_send disps is_open n (begin_send b (on_tcp (fun t => set_queues (t_recv_q t) q t) s)) in
     if negb (rc =? 0) then ret (rc, s) else on_again disps is_open n s).
Proof. intros Hb Hq. cbn [do_send]. by rewrite Hb, Hq. Qed.

(** the answer leaves and the blocks are attached *)
Lemma greeting_answered n c depth l m room held s :
  greeting c 2 depth HsSent s -> t_send_q (s_tcp s) = [BdHand] -> mem s !! BdHand = Some l -> length l = 32%nat ->
  t_room (s_tcp s) = Accepts m :: room -> 32 <= m -> t_writeable (s_tcp s) = true ->
  inbound s = (None, [], [], true) -> 0 < depth <= PF_MAX_IO_DEPTH -> t_recv_depth (s_tcp s) = PF_MAX_IO_DEPTH * 2 ->
  pool_inv (d_iocb_pool (s_disp s)) held -> stocked held s ->
  Z.of_nat (length held) + 2 * depth <= obj_count (d_iocb_pool (s_disp s)) ->
  exists ids s', do_send disps is_open (S (S (S n))) s = ret (0, s') /\ Z.of_nat (length ids) = 2 * depth
    /\ flushing c CONN_OK (1 + 2 * Z.of_nat (length ids)) ids held s' /\ t_wire (s_tcp s') = t_wire (s_tcp s) ++ l
    /\ inbound s' = (None, BdCmd <$> ids, [], true) /\ mem s' = delete BdHand (mem s)
    /\ t_send_bd (s_tcp s') = None /\ t_send_q (s_tcp s') = []
    /\ obj_count (d_iocb_pool (s_disp s')) = obj_count (d_iocb_pool (s_disp s)).
Proof.
  intros [G1 G2 (k & Ek & Hk & Hst & Hdp) G4] Hq El Hlen Hrm Hm Hwr Hin Hd Hdep Hp Hstk Hcnt.
  pose proof Hin as Hin'. unfold inbound in Hin'. injection Hin' as I1 I2 I3 I4.
  set (sb := begin_send BdHand (on_tcp (fun t => set_queues (t_recv_q t) [] t) s)).
  pose proof (hand_sent l m room sb eq_refl eq_refl Hrm Hm El Hlen) as Esend. set (sc := on_tcp _ sb) in Esend.
  set (sd := answered c k (off_bd sc)).
  destruct (attach_all (Z.to_nat (2 * depth)) c CONN_OK held [] 2 sd) as (ids & se & Eat & Hfl & Hl & Et & Ec).
  { split; [exact G1|done| |by apply Forall_nil|apply NoDup_nil_2|split; [exact Hp|]; change (d_iocb_pool (s_disp sd)) with (d_iocb_pool (s_disp s)); lia]. eexists. split; [apply lookup_insert_eq|done]. }
  { exact Hstk. } { exact I2. } { change (t_recv_depth (s_tcp sd)) with (t_recv_depth (s_tcp s)). cbn [length]. lia. }
  { change (d_iocb_pool (s_disp sd)) with (d_iocb_pool (s_disp s)). cbn [app]. lia. }
  destruct (fl_conn _ _ _ _ _ _ Hfl) as (ke & Eke & Hste & Hke). cbn [length] in Hl.
  assert (2 + 2 * Z.of_nat (Z.to_nat (2 * depth)) - 1 = 1 + 2 * Z.of_nat (length ids)) as Er by lia.
  set (sf := with_ref c (1 + 2 * Z.of_nat (length ids)) ke se).
  assert (the_conn sf = Done (set_c_ref (1 + 2 * Z.of_nat (length ids)) ke)) as Hthe
    by (apply (the_conn_done c); [apply Hfl|apply with_ref_conn]).
  assert (forall n0, on_again disps is_open (S n0) sf = ret (0, sf)) as Hend.
  { intros n0. unfold on_again. rewrite Hthe. cbn [lift obind rbind ret]. destruct (t_writeable (s_tcp sf)); [|done].
    apply send_idle; change (s_tcp sf) with (s_tcp se); by rewrite Et. }
  assert (do_send disps is_open (S (S n)) sb = ret (0, sf)) as Einner.
  { rewrite (round_sent_hand (S n) BdHand sb sc eq_refl Esend eq_refl G2).
    rewrite (hand_answered _ c k l (off_bd sc) G1 Ek Hst El), Hdp. fold sd. rewrite Eat. cbn [lift obind rbind ret].
    rewrite (conn_unref_done c ke se (fl_id _ _ _ _ _ _ Hfl) Eke) by lia. cbn [lift obind rbind ret].
    change (0 <? 0) with false. cbn iota. rewrite Hke, Er. apply Hend. }
  exists ids, sf. splits.
  - rewrite (round_next _ s BdHand [] G4 Hq). fold sb. rewrite Einner. cbn [rbind ret]. change (negb (0 =? 0)) with false. apply (Hend (S n)).
  - lia.
  - eapply flushing_ref; [exact Hfl|done].
  - change (t_wire (s_tcp se) = t_wire (s_tcp s) ++ l). by rewrite Et.
  - change (inbound se = (None, BdCmd <$> ids, [], true)). unfold inbound. rewrite Et. cbn. by rewrite I1, I3, I4.
  - change (t_mem (s_tcp se) = delete BdHand (mem s)). by rewrite Et.
  - change (t_send_bd (s_tcp se) = None). by rewrite Et.
  - change (t_send_q (s_tcp se) = []). by rewrite Et.
  - exact Ec.
Qed.

Lemma attached_range c st r ids held s i :
  flushing c st r ids held s -> i ∈ ids -> 0 <= i < obj_count (d_iocb_pool (s_disp s)).
Proof.
  intros [_ _ _ _ _ [[_ _ Hp] _]] Hi. apply (elem_of_seqZ 0 (obj_count (d_iocb_pool (s_disp s))) i).
  rewrite <- Hp. set_solver.
Qed.

End Life.

(** ** A client that connects and leaves *)
Module LifeDemo.
Import TcpDemo.
Definition unused : PfServerIocb := mkIocb (head 0 0) 0 [] None 0 MSG_STATUS_SUCCESS 0 0 0 false.
Definition server : PfDispatcher :=
  mkDisp ∅ 0 (mkStat 0 0 0 0 0 0) {[0 := unused; 1 := unused]} (ring_pool 2) ∅ [] false [].
(** a queue of one request on volume 0 *)
Definition hello : list Z := [0; 0; 1; 0; 0; 0; 0; 0] ++ replicate 12 0 ++ [9; 9] ++ replicate 10 0.

Lemma server_pool : pool_inv (ring_pool 2) [].
Proof. destruct (pool_init_inv 2 empty_queue ltac:(lia)) as (p & E & H & _). vm_compute in E. injection E as <-. exact H. Qed.

Lemma server_block i : 0 <= i < 2 -> block (accepted 9 server bufs) i.
Proof.
  intros Hi. assert (i = 0 \/ i = 1) as [-> | ->] by lia;
    (split; [by eexists|eexists; split; reflexivity|eexists; split; [reflexivity|]; rewrite length_replicate; by apply Z2Nat.id]).
Qed.

Lemma server_stocked : stocked 1 [] (accepted 9 server bufs).
Proof. intros i Hi _. change (0 <= i < 2) in Hi. assert (i = 0 \/ i = 1) as [-> | ->] by lia; exists unused; done. Qed.

Lemma idle_pool : pool_inv pool [0; 1].
Proof. split; [|done|done]. split; cbn; lia. Qed.
End LifeDemo.


Lemma idle_close_uses_freed_witness :
  on_socket_event 1 (fun _ => true) 1 true false false TcpDemo.idle = Undef.
Proof.
  apply (idle_close_uses_freed 1 (fun _ => true) 0 9 [0; 1] [] TcpDemo.idle); [|done|done|done|done].
  split; [done|done|by eexists| | |split; [apply LifeDemo.idle_pool|done]].
  - repeat constructor; by exists TcpDemo.iocb.
  - apply (bool_decide_unpack _). by vm_compute.
Defined.
