(* ===== verification/Aof.v ===== *)
(** * Append-only files

    Model of src/common/src/pf_aof.cpp and src/common/include/pf_aof.h: a
    file on a volume, with a head page of 4096 bytes in front of its data and
    a buffer of the bytes appended last.  The volume is a map from offsets to
    bytes.  What becomes of each request to the volume, in the order of the
    requests, is an argument: the result of submitting it and the status it
    completes with.  A request that fails leaves volume and buffer as they
    are.  [None] is a call that waits for a semaphore nobody posts. *)

From Stdlib Require Import ZArith Lia.
From stdpp Require Import base tactics list numbers.
From S2P Require Import Prelude Bytes Runs.

Definition AOF_MAGIC : Z := 0x466F4150.
Definition AOF_VER : Z := 0x00010000.
Definition SEG_SIZE : Z := Z.shiftl 128 10.   (* PF_MAX_IO_SIZE *)

Definition UP_ALIGN_4K (x : Z) : Z := Z.land (x + 4095) (Z.lnot 4095).
Definition DOWN_ALIGN_4K (x : Z) : Z := Z.land x (Z.lnot 4095).

(** ** The volume *)
Record io_result : Type := mkIo { io_submit : Z; io_status : Z }.

Record disk : Type := mkDisk {
  dk_bytes : Z -> Z;
  dk_throttle : Z;      (* tokens of [io_throttle] when no request is in flight *)
  dk_next : nat         (* the number of requests so far *)
}.

Definition range (v : Z -> Z) (off n : Z) : list Z := (fun i => v (off + i)) <$> seqZ 0 n.

Definition vol_write (off : Z) (l : list Z) (v : Z -> Z) : Z -> Z :=
  fun x => if (off <=? x) && (x <? off + Z.of_nat (length l)) then byte_at l (x - off) else v x.

Definition set_bytes (v : Z -> Z) (d : disk) : disk := mkDisk v (dk_throttle d) (dk_next d).

(** [io_cbk]: the code of the waiter after a completion *)
Definition io_cbk (rc complete_status : Z) : Z := if negb (rc =? 0) then complete_status else rc.

(** ** The file *)
Record PfAof : Type := mkAof {
  append_buf : list Z;
  append_tail : Z;
  file_len : Z;
  head_buf : list Z;
  append_buf_size : Z
}.

Definition head_magic (l : list Z) : Z := field 0 4 l.
Definition head_version (l : list Z) : Z := field 4 4 l.
Definition head_length (l : list Z) : Z := sext 8 (field 8 8 l).
Definition set_head_length (n : Z) (l : list Z) : list Z := take 8 l ++ le 8 n ++ drop 16 l.

Definition PfAof_new (size : Z) : PfAof :=
  mkAof (replicate (Z.to_nat size) 0) 0 0 (replicate 4096 0) size.

Definition zeros (n : Z) : list Z := replicate (Z.to_nat n) 0.

Section Io.
Variable env : nat -> io_result.

(** [sem_wait] on the throttle and [pf_io_submit]: the token of a request that
    is not accepted is not given back *)
Definition submit (d : disk) : run (io_result * disk) :=
  if dk_throttle d <=? 0 then Done None
  else
    let r := env (dk_next d) in
    ret (r, mkDisk (dk_bytes d) (if io_submit r =? 0 then dk_throttle d else dk_throttle d - 1) (S (dk_next d))).

Definition written (r : io_result) (off : Z) (l : list Z) (v : Z -> Z) : Z -> Z :=
  if io_status r =? 0 then vol_write off l v else v.

Definition read_into (r : io_result) (at_ : Z) (off n : Z) (v : Z -> Z) (buf : list Z) : outcome (list Z) :=
  if io_status r =? 0 then put_at at_ (range v off n) buf else Done buf.

Definition sync_write (l : list Z) (off : Z) (d : disk) : run (Z * disk) :=
  let? (r, d) := submit d in
  if negb (io_submit r =? 0) then ret (io_submit r, d)
  else
    let d := set_bytes (written r off l (dk_bytes d)) d in
    let rc := io_cbk 0 (io_status r) in
    if negb (rc =? 0) then ret (rc, d) else ret (Z.of_nat (length l), d).

Definition sync_read (buf : list Z) (count off : Z) (d : disk) : run (Z * list Z * disk) :=
  let? (r, d) := submit d in
  if negb (io_submit r =? 0) then ret (io_submit r, buf, d)
  else
    let? buf := lift (read_into r 0 off count (dk_bytes d) buf) in
    let rc := io_cbk 0 (io_status r) in
    if negb (rc =? 0) then ret (rc, buf, d) else ret (count, buf, d).

(** ** Creating and opening *)
Definition head_page : list Z := le 4 AOF_MAGIC ++ le 4 AOF_VER ++ replicate 4088 0.

(** the part of [pf_create_aof] on the volume *)
Definition create_aof (d : disk) : run (Z * disk) :=
  let? (rc, d) := sync_write head_page 0 d in
  if rc <=? 0 then ret (rc, d) else ret (0, d).

Definition aof_open (a : PfAof) (d : disk) : run (Z * PfAof * disk) :=
  let? (rc, head, d) := sync_read (head_buf a) 4096 0 d in
  let a := mkAof (append_buf a) (append_tail a) (file_len a) head (append_buf_size a) in
  if (rc <=? 0) || negb (head_magic head =? AOF_MAGIC) then ret (- EINVAL, a, d)
  else if negb (head_version head =? AOF_VER) then ret (- EINVAL, a, d)
  else
    let len := head_length head in
    let a := mkAof (append_buf a) (append_tail a) len head (append_buf_size a) in
    if negb (Z.rem len 4096 =? 0) then
      let? (rc, buf, d) := sync_read (append_buf a) 4096 (Z.land len (Z.lnot 4095) + 4096) d in
      let a := mkAof buf (append_tail a) len head (append_buf_size a) in
      if rc <? 0 then ret (- EIO, a, d)
      else ret (0, mkAof buf (Z.rem len 4096) len head (append_buf_size a), d)
    else ret (0, a, d).

(** ** Writing the buffer to the volume *)

(** the loop of [sync]: the code of the waiter, the buffer, the writes in the
    order in which they are submitted, with their results *)
Fixpoint sync_loop (n : nat) (a : PfAof) (cur_file_tail cur_vol_tail buf_off rc : Z) (buf : list Z) (d : disk)
    : run (Z * list Z * list (io_result * Z * list Z) * disk) :=
  if file_len a <=? cur_file_tail then ret (rc, buf, [], d)
  else
    match n with
    | O => Done None
    | S n =>
        let next_end_in_vol := Z.land (cur_vol_tail + SEG_SIZE) (Z.lnot (SEG_SIZE - 1)) in
        let next_seg_end_in_file := next_end_in_vol - 4096 in
        let io_size := Z.min next_seg_end_in_file (file_len a) - cur_file_tail in
        let aligned := Z.land io_size 4095 =? 0 in
        let aligned_io_size := if aligned then io_size else Z.land (io_size + 4095) (Z.lnot 4095) in
        let? buf := lift (if aligned then Done buf
                          else put_at (append_tail a) (zeros (aligned_io_size - io_size)) buf) in
        let? (r, d) := submit d in
        if negb (rc =? 0) then Fatal
        else
          let? l := lift (get_at buf_off aligned_io_size buf) in
          if negb (io_submit r =? 0) then Fatal
          else
            let? (rc, buf, ws, d) := sync_loop n a (cur_file_tail + io_size) (cur_vol_tail + io_size)
                                       (buf_off + io_size) (io_cbk rc (io_status r)) buf d in
            ret (rc, buf, (r, cur_vol_tail, l) :: ws, d)
    end.

Definition apply_writes (ws : list (io_result * Z * list Z)) (v : Z -> Z) : Z -> Z :=
  foldl (fun v w => written (fst (fst w)) (snd (fst w)) (snd w) v) v ws.

(** the buffer after [sync]: the unaligned part moves to its head *)
Definition rebase (tail : Z) (buf : list Z) : outcome (list Z) :=
  if negb (Z.rem tail 4096 =? 0) && (4096 <? tail) then
    let* l := get_at (Z.land tail (Z.lnot 4095)) (Z.land tail 4095) buf in
    put_at 0 l buf
  else Done buf.

Definition aof_sync (a : PfAof) (d : disk) : run (PfAof * disk) :=
  let cur_file_tail := file_len a - append_tail a in
  let? (rc, buf, ws, d) := sync_loop (S (Z.to_nat (append_tail a))) a cur_file_tail (cur_file_tail + 4096) 0 0
                             (append_buf a) d in
  let d := set_bytes (apply_writes ws (dk_bytes d)) d in
  if negb (rc =? 0) then Fatal
  else
    let head := set_head_length (file_len a) (head_buf a) in
    let? (r, d) := submit d in
    if negb (io_submit r =? 0) then Done None
    else
      let d := set_bytes (written r 0 head (dk_bytes d)) d in
      if negb (io_cbk rc (io_status r) =? 0) then Fatal
      else
        let? buf := lift (rebase (append_tail a) buf) in
        ret (mkAof buf (Z.land (append_tail a) 4095) (file_len a) head (append_buf_size a), d).

(** ** Appending *)
Fixpoint append_loop (n : nat) (l : list Z) (a : PfAof) (d : disk) : run (PfAof * disk) :=
  match l with
  | [] => ret (a, d)
  | _ :: _ =>
      match n with
      | O => Done None
      | S n =>
          let seg_size := Z.min (Z.of_nat (length l)) (append_buf_size a - append_tail a) in
          if seg_size <? 0 then Undef
          else
            let? buf := lift (put_at (append_tail a) (take (Z.to_nat seg_size) l) (append_buf a)) in
            let a := mkAof buf (append_tail a + seg_size) (file_len a + seg_size) (head_buf a) (append_buf_size a) in
            let? (a, d) := (if append_tail a =? append_buf_size a then aof_sync a d else ret (a, d)) in
            append_loop n (drop (Z.to_nat seg_size) l) a d
      end
  end.

Definition aof_append (l : list Z) (a : PfAof) (d : disk) : run (Z * PfAof * disk) :=
  let? (a, d) := append_loop (length l) l a d in
  ret (Z.of_nat (length l), a, d).

(** ** Reading *)

(** the part that is still in the buffer, if any *)
Definition read_buffered (a : PfAof) (len offset : Z) (buf : list Z) : outcome (option Z * list Z) :=
  let base := file_len a - append_tail a in
  if base <? offset + len then
    let in_buf_len := Z.min len (offset + len - base) in
    let in_buf_off := if len =? in_buf_len then offset + len - base - in_buf_len else 0 in
    let* l := get_at in_buf_off in_buf_len (append_buf a) in
    let* buf := put_at (len - in_buf_len) l buf in
    Done (Some in_buf_len, buf)
  else Done (None, buf).

(** a page of an unaligned end, into [read_buf]; [None] on an error *)
Definition read_page (at_ off : Z) (read_buf : list Z) (d : disk) : run (option Z * list Z * disk) :=
  let? (r, d) := submit d in
  if negb (io_submit r =? 0) then ret (None, read_buf, d)
  else
    let? read_buf := lift (read_into r at_ off 4096 (dk_bytes d) read_buf) in
    ret (Some (io_status r), read_buf, d).

(** a part of [read_buf], if it was read, into the caller's buffer *)
Definition copy_page (copy : bool) (from n : Z) (read_buf : list Z) (to : Z) (buf : list Z) : outcome (list Z) :=
  if copy then let* l := get_at from n read_buf in put_at to l buf else Done buf.

(** the aligned part, into the caller's buffer *)
Fixpoint read_loop (n : nat) (aligned_off aligned_end buf_off rc : Z) (buf : list Z) (d : disk)
    : run (option Z * list Z * disk) :=
  if aligned_end <=? aligned_off then ret (Some rc, buf, d)
  else
    match n with
    | O => Done None
    | S n =>
        let next_end_in_vol := Z.land (aligned_off + SEG_SIZE) (Z.lnot (SEG_SIZE - 1)) in
        let aligned_io_size := Z.min aligned_end next_end_in_vol - aligned_off in
        let? (r, d) := submit d in
        if negb (rc =? 0) then ret (None, buf, d)
        else if negb (io_submit r =? 0) then ret (None, buf, d)
        else
          let? buf := lift (read_into r buf_off aligned_off aligned_io_size (dk_bytes d) buf) in
          read_loop n (aligned_off + aligned_io_size) aligned_end (buf_off + aligned_io_size)
            (io_cbk rc (io_status r)) buf d
    end.

(** the part of [read] that is on the volume, up to [vol_end].  [read_buf] is
    the memory of the two unaligned pages. *)
Definition read_volume (buf read_buf : list Z) (len offset vol_end : Z) (d : disk) : run (Z * list Z * disk) :=
  let vol_off := offset + 4096 in
  let aligned_off := DOWN_ALIGN_4K vol_off in
  let aligned_end := UP_ALIGN_4K vol_end in
  let copy_head := negb (Z.rem vol_off 4096 =? 0) in
  let? (x, read_buf, d) := (if copy_head then read_page 0 aligned_off read_buf d else ret (Some 0, read_buf, d)) in
  match x with
  | None => ret (- EIO, buf, d)
  | Some st =>
      let rc := io_cbk 0 st in
      let aligned_off := if copy_head then aligned_off + 4096 else aligned_off in
      let copy_tail := negb (Z.rem vol_end 4096 =? 0)
                       && (negb (DOWN_ALIGN_4K vol_end =? DOWN_ALIGN_4K vol_off) || (Z.rem vol_off 4096 =? 0)) in
      let? (x, read_buf, d) := (if copy_tail then read_page 4096 (DOWN_ALIGN_4K vol_end) read_buf d
                                else ret (Some 0, read_buf, d)) in
      match x with
      | None => ret (- EIO, buf, d)
      | Some st =>
          let rc := io_cbk rc st in
          let aligned_end := if copy_tail then aligned_end - 4096 else aligned_end in
          let buf_off := if copy_head then 4096 - Z.land offset 4095 else 0 in
          let? (x, buf, d) := read_loop (Z.to_nat (aligned_end - aligned_off)) aligned_off aligned_end buf_off rc buf d in
          match x with
          | None => ret (- EIO, buf, d)
          | Some rc =>
              if negb (rc =? 0) then ret (- EIO, buf, d)
              else
                let? buf := lift (copy_page copy_head (Z.land vol_off 4095) (Z.min (4096 - Z.land vol_off 4095) len)
                                    read_buf 0 buf) in
                let? buf := lift (copy_page copy_tail 4096 (Z.land vol_end 4095) read_buf (len - Z.land vol_end 4095) buf) in
                ret (len, buf, d)
          end
      end
  end.

(** [read]: the result, the caller's buffer *)
Definition aof_read (a : PfAof) (buf read_buf : list Z) (len offset : Z) (d : disk) : run (Z * list Z * disk) :=
  if file_len a <=? offset then ret (0, buf, d)
  else
    let len := if file_len a <? offset + len then file_len a - offset else len in
    let? (in_buf, buf) := lift (read_buffered a len offset buf) in
    if bool_decide (in_buf = Some len) then ret (len, buf, d)
    else
      let vol_end := offset + 4096 + (len - default 0 in_buf) in
      if bool_decide (is_Some in_buf) && negb (Z.rem vol_end 4096 =? 0) then Fatal
      else read_volume buf read_buf len offset vol_end d.
End Io.
