(* ===== verification/AofProps.v ===== *)
(** * What an append-only file keeps

    The buffer, the head page and the volume of Aof.v together stand for a
    list of bytes ([holds]); what a restart finds on the volume is another
    one ([persisted]). *)

From Stdlib Require Import ZArith Lia.
From stdpp Require Import base tactics list numbers.
From S2P Require Import Prelude Bytes Runs Aof.

(** ** Alignment *)
Lemma land_lnot_ones x k : 0 <= k -> Z.land x (Z.lnot (2 ^ k - 1)) = x - x mod 2 ^ k.
Proof.
  intros Hk. rewrite <- Z.ldiff_land. replace (2 ^ k - 1) with (Z.ones k) by (rewrite Z.ones_equiv; lia).
  rewrite Z.ldiff_ones_r, Z.shiftl_mul_pow2, Z.shiftr_div_pow2 by lia.
  pose proof (Z.div_mod x (2 ^ k) ltac:(lia)). lia.
Qed.

Lemma land_page x : Z.land x (Z.lnot 4095) = x - x mod 4096.
Proof. apply (land_lnot_ones x 12). lia. Qed.

Lemma land_seg x : Z.land x (Z.lnot (SEG_SIZE - 1)) = x - x mod 131072.
Proof. apply (land_lnot_ones x 17). lia. Qed.

Lemma land_rest x : Z.land x 4095 = x mod 4096.
Proof. apply (Z.land_ones x 12). lia. Qed.

Lemma range_length v off n : 0 <= n -> Z.of_nat (length (range v off n)) = n.
Proof. intros Hn. unfold range. rewrite length_fmap, length_seqZ. lia. Qed.

Lemma range_byte v off n i : 0 <= i < n -> byte_at (range v off n) i = v (off + i).
Proof.
  intros Hi. unfold byte_at, range. rewrite (proj2 (Z.leb_le _ _)) by lia. apply nth_lookup_Some.
  rewrite list_lookup_fmap, lookup_seqZ_lt by lia. cbn. f_equal. f_equal. lia.
Qed.

Lemma zeros_length n : 0 <= n -> Z.of_nat (length (zeros n)) = n.
Proof. intros Hn. unfold zeros. rewrite length_replicate. lia. Qed.

(** ** The head page *)
Definition head_good (l : list Z) : Prop :=
  length l = 4096%nat /\ head_magic l = AOF_MAGIC /\ head_version l = AOF_VER.

Lemma head_page_good : head_good head_page /\ head_length head_page = 0.
Proof. by vm_compute. Qed.

Lemma set_head_length_good n l :
  head_good l -> 0 <= n < 2 ^ 62 -> head_good (set_head_length n l) /\ head_length (set_head_length n l) = n.
Proof.
  intros (Hl & Hm & Hv) Hn. unfold set_head_length, head_good, head_magic, head_version, head_length in *.
  assert (length (take 8 l) = 8%nat) as H8 by (rewrite length_take; lia).
  assert (forall off k, (off + k <= 8)%nat -> field off k (take 8 l ++ le 8 n ++ drop 16 l) = field off k l) as Hf.
  { intros off k Hk. rewrite field_app by lia. rewrite <- (field_app off k (take 8 l) (drop 8 l)) by lia. by rewrite take_drop. }
  rewrite !Hf by lia. split; [split; [|done]|].
  - rewrite !length_app, le_length, length_drop. lia.
  - unfold field. rewrite drop_app_ge, H8, drop_0 by lia. rewrite take_le, unle_le. apply sext_mod; [lia|].
    change (8 * Z.of_nat 8 - 1) with 63. lia.
Qed.

(** ** What a file stands for *)
Record holds (f : list Z) (a : PfAof) (v : Z -> Z) : Prop := mkHolds {
  ho_len : file_len a = Z.of_nat (length f);
  ho_bound : file_len a < 2 ^ 62;
  ho_size : 0 < append_buf_size a /\ append_buf_size a mod 4096 = 0;
  ho_buf_len : Z.of_nat (length (append_buf a)) = append_buf_size a;
  ho_tail : 0 <= append_tail a <= append_buf_size a /\ append_tail a <= file_len a;
  ho_aligned : (file_len a - append_tail a) mod 4096 = 0;
  ho_head : head_good (head_buf a);
  ho_buf : forall i, 0 <= i < append_tail a -> byte_at (append_buf a) i = byte_at f (file_len a - append_tail a + i);
  ho_vol : forall i, 0 <= i < file_len a - append_tail a -> v (4096 + i) = byte_at f i
}.

Record persisted (f : list Z) (v : Z -> Z) : Prop := mkPersisted {
  pe_head : exists l, head_good l /\ head_length l = Z.of_nat (length f) /\ forall i, 0 <= i < 4096 -> v i = byte_at l i;
  pe_data : forall i, 0 <= i < Z.of_nat (length f) -> v (4096 + i) = byte_at f i
}.

Lemma holds_vol f a v v' :
  holds f a v -> (forall i, 0 <= i < file_len a - append_tail a -> v' (4096 + i) = v (4096 + i)) -> holds f a v'.
Proof. intros [H1 H2 H3 H4 H5 H6 H7 H8 H9] E. split; try done. intros i Hi. rewrite E by done. by apply H9. Qed.

Lemma vol_write_in off l v x : off <= x < off + Z.of_nat (length l) -> vol_write off l v x = byte_at l (x - off).
Proof. intros H. unfold vol_write. by rewrite (proj2 (Z.leb_le _ _)), (proj2 (Z.ltb_lt _ _)) by lia. Qed.

Lemma vol_write_out off l v x : ~ off <= x < off + Z.of_nat (length l) -> vol_write off l v x = v x.
Proof. intros H. unfold vol_write. destruct (Z.leb_spec off x), (Z.ltb_spec x (off + Z.of_nat (length l))); try done. lia. Qed.

(** the next call of a run is done *)
Ltac rstep := cbn [lift obind rbind ret].

Ltac mlia := Z.div_mod_to_equations; lia.

(** ** The writes of [sync] *)
Definition w_result (w : io_result * Z * list Z) : io_result := fst (fst w).
Definition w_off (w : io_result * Z * list Z) : Z := snd (fst w).
Definition w_data (w : io_result * Z * list Z) : list Z := snd w.

Definition covers (x : Z) (w : io_result * Z * list Z) : Prop :=
  w_off w <= x < w_off w + Z.of_nat (length (w_data w)).

(** a write carries bytes of the buffer to their place in the file; behind
    the end of the file it may carry anything *)
Definition faithful (base len : Z) (buf : list Z) (w : io_result * Z * list Z) : Prop :=
  forall x, covers x w -> 4096 + base <= x /\ (x < 4096 + len -> byte_at (w_data w) (x - w_off w) = byte_at buf (x - 4096 - base)).

Lemma apply_one base len buf ws : forall v x,
  Forall (faithful base len buf) ws -> x < 4096 + len ->
  apply_writes ws v x = v x \/ (4096 + base <= x /\ apply_writes ws v x = byte_at buf (x - 4096 - base)).
Proof.
  induction ws as [|w ws IH]; intros v x Hf Hx; [by left|]. apply Forall_cons_iff in Hf as [Hw Hf]. cbn [apply_writes foldl].
  destruct (IH (written (fst (fst w)) (snd (fst w)) (snd w) v) x Hf Hx) as [E|E]; [|by right].
  change (foldl _ _ ws) with (apply_writes ws (written (fst (fst w)) (snd (fst w)) (snd w) v)). rewrite E. unfold written.
  destruct (io_status _ =? 0); [|by left]. fold (w_off w). fold (w_data w).
  destruct (Z.le_gt_cases (w_off w) x), (Z.lt_ge_cases x (w_off w + Z.of_nat (length (w_data w))));
    try (left; apply vol_write_out; lia).
  right. rewrite vol_write_in by lia. destruct (Hw x) as [H1 H2]; [done|]. split; [done|by apply H2].
Qed.

Lemma apply_all base len buf ws : forall v x,
  Forall (faithful base len buf) ws -> Forall (fun w => io_status (w_result w) = 0) ws -> x < 4096 + len ->
  Exists (covers x) ws -> apply_writes ws v x = byte_at buf (x - 4096 - base).
Proof.
  induction ws as [|w ws IH]; intros v x Hf Hs Hx He; [by apply Exists_nil in He|].
  apply Forall_cons_iff in Hf as [Hw Hf], Hs as [Hst Hs]. cbn [apply_writes foldl].
  change (foldl _ _ ws) with (apply_writes ws (written (w_result w) (w_off w) (w_data w) v)).
  apply Exists_cons in He as [Hc|He]; [|by apply IH].
  destruct (apply_one base len buf ws (written (w_result w) (w_off w) (w_data w) v) x Hf Hx) as [E|[_ E]]; [|done].
  rewrite E. unfold written. rewrite Hst. cbn [Z.eqb]. unfold covers in Hc; rewrite vol_write_in by lia. by apply Hw.
Qed.

Section Sync.
Variable env : nat -> io_result.
Hypothesis accepted : forall n, io_submit (env n) = 0.

Lemma submit_accepted d :
  0 < dk_throttle d -> submit env d = ret (env (dk_next d), mkDisk (dk_bytes d) (dk_throttle d) (S (dk_next d))).
Proof. intros H. unfold submit. rewrite (proj2 (Z.leb_gt _ _)) by lia. by rewrite accepted. Qed.

Lemma io_cbk_0 st : io_cbk 0 st = 0.
Proof. done. Qed.

(** what the loop does from a position on *)
Definition loop_done (a : PfAof) (cft : Z) (buf : list Z) (d : disk)
    (res : run (Z * list Z * list (io_result * Z * list Z) * disk)) : Prop :=
  exists buf' ws d', res = ret (0, buf', ws, d') /\ dk_bytes d' = dk_bytes d /\ dk_throttle d' = dk_throttle d
    /\ length buf' = length buf /\ (forall i, 0 <= i < append_tail a -> byte_at buf' i = byte_at buf i)
    /\ Forall (fun w => exists n, w_result w = env n) ws
    /\ Forall (faithful (file_len a - append_tail a) (file_len a) buf) ws
    /\ forall x, cft <= x < file_len a -> Exists (covers (4096 + x)) ws.

Record at_page (a : PfAof) (cft boff : Z) (buf : list Z) : Prop := mkAtPage {
  ap_base : 0 <= file_len a - append_tail a <= cft /\ (file_len a - append_tail a) mod 4096 = 0;
  ap_cft : cft mod 4096 = 0 \/ file_len a <= cft;
  ap_boff : boff = cft - (file_len a - append_tail a);
  ap_size : Z.of_nat (length buf) = append_buf_size a /\ append_buf_size a mod 4096 = 0 /\ append_tail a <= append_buf_size a
}.

(** the size of the next write and of its padding *)
Lemma next_io a cft boff buf io al :
  at_page a cft boff buf -> cft < file_len a ->
  io = Z.min (Z.land (cft + 4096 + SEG_SIZE) (Z.lnot (SEG_SIZE - 1)) - 4096) (file_len a) - cft ->
  al = (if Z.land io 4095 =? 0 then io else Z.land (io + 4095) (Z.lnot 4095)) ->
  0 < io /\ io <= al /\ boff + al <= Z.of_nat (length buf) /\ cft + io <= file_len a
  /\ (cft + io < file_len a -> io mod 4096 = 0) /\ ((Z.land io 4095 =? 0) = false -> cft + io = file_len a).
Proof.
  intros [[B1 B2] [C|C] Hb (S1 & S2 & S3)] Hlt Hio Hal; [|lia]. rewrite land_rest, land_page in *. rewrite land_seg in Hio.
  change SEG_SIZE with 131072 in Hio.
  set (next := cft + 4096 + 131072 - (cft + 4096 + 131072) mod 131072) in *.
  assert (cft + 4096 < next /\ next mod 4096 = 0) as [Hn1 Hn2] by (unfold next; mlia). clearbody next.
  assert (io mod 4096 = 0 \/ cft + io = file_len a) as Hor by mlia.
  subst boff. destruct (Z.eqb_spec (io mod 4096) 0) as [E|E]; subst al; splits; try mlia; intros; try mlia.
Qed.

Lemma at_page_next a cft boff buf buf' io :
  at_page a cft boff buf -> 0 < io -> cft + io <= file_len a -> (cft + io < file_len a -> io mod 4096 = 0) ->
  length buf' = length buf -> at_page a (cft + io) (boff + io) buf'.
Proof.
  intros [[B1 B2] C Hb Hs] Hi He Hm Hl. split; [lia| |lia|by rewrite Hl].
  destruct (Z.eq_dec (cft + io) (file_len a)); [right; lia|]. destruct C as [C|C]; [|lia]. left. specialize (Hm ltac:(lia)). mlia.
Qed.

(** the bytes behind the file, up to the end of its last page *)
Lemma padded a io al (b : bool) buf :
  0 <= append_tail a -> io <= al -> (b = false -> append_tail a + (al - io) <= Z.of_nat (length buf)) ->
  exists buf', (if b then Done buf else put_at (append_tail a) (zeros (al - io)) buf) = Done buf'
    /\ length buf' = length buf /\ forall i, 0 <= i < append_tail a -> byte_at buf' i = byte_at buf i.
Proof.
  intros Ht Hi Hb. destruct b; [by exists buf|]. specialize (Hb eq_refl).
  destruct (put_at_done (append_tail a) (zeros (al - io)) buf) as (buf' & E & Hl & Hy); [lia|rewrite zeros_length; lia|].
  exists buf'. splits; [done|done|]. intros i Hi'. rewrite Hy by lia. by rewrite (proj2 (Z.leb_gt _ _)) by lia.
Qed.

Lemma sync_loop_done n : forall a cft boff buf d,
  0 <= append_tail a -> 0 < dk_throttle d -> at_page a cft boff buf -> file_len a - cft <= Z.of_nat n ->
  loop_done a cft buf d (sync_loop env n a cft (cft + 4096) boff 0 buf d).
Proof.
  induction n as [|n IH]; intros a cft boff buf d Ht Hd Hp Hn; cbn [sync_loop];
    destruct (Z.leb_spec (file_len a) cft) as [Hle|Hlt]; try lia.
  1,2: exists buf, [], d; splits; [done|done|done|done|done|by apply Forall_nil|by apply Forall_nil|intros; lia].
  set (io := Z.min _ _ - cft). set (al := if Z.land io 4095 =? 0 then io else Z.land (io + 4095) (Z.lnot 4095)).
  destruct (next_io a cft boff buf io al) as (I1 & I2 & I3 & I4 & I5 & I6); [done|lia|done|done|].
  destruct (padded a io al (Z.land io 4095 =? 0) buf) as (buf1 & E1 & L1 & Y1); [done|done| |].
  { intros E. specialize (I6 E). rewrite (ap_boff _ _ _ _ Hp) in I3. lia. }
  rewrite E1. rstep. rewrite submit_accepted by done. rstep. rewrite accepted. cbn [Z.eqb negb].
  pose proof (ap_boff _ _ _ _ Hp) as Hb. pose proof (ap_base _ _ _ _ Hp) as [Hbase _].
  destruct (get_at_done boff al buf1) as (l & E2 & L2 & Y2); [lia|lia|lia|].
  rewrite E2. rstep. rewrite io_cbk_0.
  set (d1 := mkDisk _ _ _).
  destruct (IH a (cft + io) (boff + io) buf1 d1) as (buf2 & ws & d2 & E3 & R1 & R2 & R3 & R4 & R5 & R6 & R7);
    [done|done|by apply (at_page_next _ _ _ buf)|lia|].
  replace (cft + 4096 + io) with (cft + io + 4096) by lia. rewrite E3. rstep.
  eexists buf2, (_ :: ws), d2. splits; try done; [lia| | | |].
  - intros i Hi. by rewrite R4, Y1.
  - apply Forall_cons_iff. split; [by eexists|done].
  - apply Forall_cons_iff. split.
    + intros x. unfold covers, w_off, w_data. cbn [fst snd]. intros Hx. split; [lia|]. intros Hx2.
      rewrite Y2 by lia. rewrite Y1 by lia. f_equal. lia.
    + revert R6. apply Forall_impl. intros w Hw x Hx. destruct (Hw x Hx) as [H1 H2]. split; [done|]. intros H3.
      rewrite H2 by done. apply Y1. lia.
  - intros x Hx. apply Exists_cons. destruct (Z.lt_ge_cases x (cft + io)) as [H|H]; [left|right; apply R7; lia].
    unfold covers, w_off, w_data. cbn [fst snd]. lia.
Qed.

Lemma holds_at_page f a v : holds f a v -> at_page a (file_len a - append_tail a) 0 (append_buf a).
Proof. intros H. destruct H. split; [lia|left; lia|lia|lia]. Qed.

Lemma rebase_done tail buf :
  0 <= tail <= Z.of_nat (length buf) ->
  exists buf', rebase tail buf = Done buf' /\ length buf' = length buf
    /\ forall i, 0 <= i < tail mod 4096 -> byte_at buf' i = byte_at buf (tail - tail mod 4096 + i).
Proof.
  intros Ht. unfold rebase. rewrite Z.rem_mod_nonneg by lia. rewrite land_page, land_rest.
  destruct (Z.eqb_spec (tail mod 4096) 0) as [E|E]; cbn [negb andb]; [exists buf; splits; [done|done|lia]|].
  destruct (Z.ltb_spec 4096 tail) as [Hl|Hl].
  - destruct (get_at_done (tail - tail mod 4096) (tail mod 4096) buf) as (l & E1 & L1 & Y1); [mlia|mlia|lia|].
    destruct (put_at_done 0 l buf) as (buf' & E2 & L2 & Y2); [lia|mlia|]. rewrite E1. cbn [obind]. exists buf'. splits; [done|done|].
    intros i Hi. rewrite Y2 by lia. rewrite (proj2 (Z.leb_le _ _)), (proj2 (Z.ltb_lt _ _)) by lia. cbn [andb].
    rewrite Y1 by lia. f_equal. lia.
  - exists buf. splits; [done|done|]. intros i Hi. f_equal. mlia.
Qed.

(** [sync] whatever becomes of the writes the volume has accepted: it
    returns, and its writes are those of the buffer and then the head *)
Lemma sync_runs f a d :
  holds f a (dk_bytes d) -> 0 < dk_throttle d ->
  exists buf ws k d',
    aof_sync env a d = ret (mkAof buf (append_tail a mod 4096) (file_len a) (set_head_length (file_len a) (head_buf a)) (append_buf_size a), d')
    /\ dk_bytes d' = written (env k) 0 (set_head_length (file_len a) (head_buf a)) (apply_writes ws (dk_bytes d))
    /\ dk_throttle d' = dk_throttle d
    /\ Z.of_nat (length buf) = append_buf_size a
    /\ (forall i, 0 <= i < append_tail a mod 4096 ->
          byte_at buf i = byte_at (append_buf a) (append_tail a - append_tail a mod 4096 + i))
    /\ Forall (fun w => exists n, w_result w = env n) ws
    /\ Forall (faithful (file_len a - append_tail a) (file_len a) (append_buf a)) ws
    /\ forall x, file_len a - append_tail a <= x < file_len a -> Exists (covers (4096 + x)) ws.
Proof.
  intros H Hd. pose proof (ho_tail _ _ _ H) as Ht. pose proof (ho_buf_len _ _ _ H) as Hl. unfold aof_sync.
  destruct (sync_loop_done (S (Z.to_nat (append_tail a))) a (file_len a - append_tail a) 0 (append_buf a) d)
    as (buf1 & ws & d1 & E1 & R1 & R2 & R3 & R4 & R5 & R6 & R7); [lia|done|by eapply holds_at_page|lia|].
  rewrite E1. rstep. cbn [negb Z.eqb]. rewrite submit_accepted by (cbn [set_bytes dk_throttle]; lia). rstep. rewrite accepted.
  cbn [negb Z.eqb]. rewrite io_cbk_0. cbn [negb Z.eqb].
  destruct (rebase_done (append_tail a) buf1) as (buf2 & E2 & L2 & Y2); [lia|]. rewrite E2. rstep. rewrite land_rest.
  eexists buf2, ws, _, _. splits; [reflexivity| | |lia| |done|done|done].
  - cbn [set_bytes dk_bytes]. by rewrite R1.
  - cbn [set_bytes dk_throttle]. done.
  - intros i Hi. rewrite Y2 by done. apply R4. mlia.
Qed.
End Sync.

(** ** A volume whose writes and reads succeed *)
Section Good.
Variable env : nat -> io_result.
Hypothesis good : forall n, env n = mkIo 0 0.

Lemma good_accepted n : io_submit (env n) = 0.
Proof. by rewrite good. Qed.

Lemma good_status (ws : list (io_result * Z * list Z)) :
  Forall (fun w => exists n, w_result w = env n) ws -> Forall (fun w => io_status (w_result w) = 0) ws.
Proof. apply Forall_impl. intros w [n E]. by rewrite E, good. Qed.

Lemma sync_good f a d :
  holds f a (dk_bytes d) -> 0 < dk_throttle d ->
  exists a' d', aof_sync env a d = ret (a', d') /\ holds f a' (dk_bytes d') /\ persisted f (dk_bytes d')
    /\ dk_throttle d' = dk_throttle d /\ append_tail a' = append_tail a mod 4096 /\ append_buf_size a' = append_buf_size a.
Proof.
  intros H Hd. destruct (sync_runs env good_accepted f a d H Hd) as (buf & ws & k & d' & E & B & T & L & Y & W1 & W2 & W3).
  destruct H as [H1 H2 H3 H4 H5 H6 H7 H8 H9]. destruct (set_head_length_good (file_len a) (head_buf a)) as [G1 G2]; [done|lia|].
  set (head := set_head_length _ _) in *. rewrite good in B. unfold written in B. cbn [io_status Z.eqb] in B.
  assert (length head = 4096%nat) as Hhl by apply G1.
  assert (forall i, 0 <= i < file_len a -> dk_bytes d' (4096 + i) = byte_at f i) as Hall.
  { intros i Hi. rewrite B, vol_write_out by lia. destruct (Z.lt_ge_cases i (file_len a - append_tail a)).
    - destruct (apply_one _ _ _ ws (dk_bytes d) (4096 + i) W2) as [E1|E1]; [lia|rewrite E1; apply H9; lia|lia].
    - rewrite (apply_all _ _ _ ws _ _ W2 (good_status _ W1)) by (lia || (apply W3; lia)). rewrite H8 by lia. f_equal. lia. }
  eexists _, d'. splits; [exact E| | |done|done|done].
  - split; cbn [file_len append_tail append_buf append_buf_size head_buf]; try done; [mlia|mlia| |].
    + intros i Hi. rewrite Y by lia. rewrite H8 by mlia. f_equal. mlia.
    + intros i Hi. apply Hall. mlia.
  - split; [exists head; splits; [done|lia|]|intros i Hi; apply Hall; lia].
    intros i Hi. rewrite B, vol_write_in by lia. f_equal. lia.
Qed.

(** ** Opening *)
Lemma read_good at_ off n v buf :
  0 <= at_ -> 0 <= n -> at_ + n <= Z.of_nat (length buf) ->
  exists buf', read_into (mkIo 0 0) at_ off n v buf = Done buf' /\ length buf' = length buf
    /\ forall i, 0 <= i -> byte_at buf' i = if (at_ <=? i) && (i <? at_ + n) then v (off + (i - at_)) else byte_at buf i.
Proof.
  intros Ha Hn Hl. unfold read_into. cbn [io_status Z.eqb].
  destruct (put_at_done at_ (range v off n) buf) as (buf' & E & L & Y); [lia|rewrite range_length; lia|].
  exists buf'. splits; [done|done|]. intros i Hi. rewrite Y, range_length by lia.
  destruct (Z.leb_spec at_ i), (Z.ltb_spec i (at_ + n)); cbn [andb]; try done. apply range_byte. lia.
Qed.

Lemma sync_read_good buf n off d :
  0 <= n <= Z.of_nat (length buf) -> 0 < dk_throttle d ->
  exists buf' d', sync_read env buf n off d = ret (n, buf', d') /\ length buf' = length buf
    /\ dk_bytes d' = dk_bytes d /\ dk_throttle d' = dk_throttle d
    /\ (forall i, 0 <= i < n -> byte_at buf' i = dk_bytes d (off + i)).
Proof.
  intros Hn Hd. unfold sync_read. rewrite submit_accepted by (try apply good_accepted; done). rstep. rewrite good. cbn [io_submit io_status negb Z.eqb].
  destruct (read_good 0 off n (dk_bytes d) buf) as (buf' & E & L & Y); [lia|lia|lia|].
  cbn [dk_bytes]. rewrite E. rstep. rewrite io_cbk_0. cbn [negb Z.eqb]. eexists _, _. splits; [reflexivity|done|done|done|].
  intros i Hi. rewrite Y by lia. rewrite (proj2 (Z.leb_le _ _)), (proj2 (Z.ltb_lt _ _)) by lia. cbn [andb]. f_equal. lia.
Qed.

Lemma open_good f size d :
  persisted f (dk_bytes d) -> 0 < dk_throttle d -> 0 < size -> size mod 4096 = 0 -> Z.of_nat (length f) < 2 ^ 62 ->
  exists a d', aof_open env (PfAof_new size) d = ret (0, a, d') /\ holds f a (dk_bytes d')
    /\ dk_bytes d' = dk_bytes d /\ dk_throttle d' = dk_throttle d /\ append_buf_size a = size
    /\ append_tail a = Z.of_nat (length f) mod 4096.
Proof.
  intros [(l & Hl1 & Hl2 & Hl3) Hp] Hd Hs Hm Hb. unfold aof_open.
  assert (Z.of_nat (length (head_buf (PfAof_new size))) = 4096) as Hhb by done.
  assert (Z.of_nat (length (append_buf (PfAof_new size))) = size) as Hab by (apply zeros_length; lia).
  destruct (sync_read_good (head_buf (PfAof_new size)) 4096 0 d) as (h & d1 & E1 & L1 & B1 & T1 & Y1); [lia|done|].
  assert (h = l) as -> by (apply byte_at_ext; [destruct Hl1; lia|intros i Hi; rewrite Y1, Z.add_0_l by lia; apply Hl3; lia]).
  rewrite E1. rstep. destruct Hl1 as (Hl4 & Hmg & Hvr). rewrite Hmg, Hvr, !Z.eqb_refl, Hl2. cbn [Z.leb Z.compare negb orb].
  rewrite Z.rem_mod_nonneg, land_page by lia. cbn [append_buf append_tail append_buf_size file_len].
  destruct (Z.eqb_spec (Z.of_nat (length f) mod 4096) 0) as [E|E]; cbn [negb].
  - eexists _, d1. splits; [reflexivity| |done|done|done|cbn [append_tail PfAof_new]; lia].
    split; cbn [file_len append_tail append_buf append_buf_size head_buf PfAof_new]; try done; try lia; [mlia|].
    intros i Hi. rewrite B1. apply Hp. lia.
  - destruct (sync_read_good (append_buf (PfAof_new size)) 4096 (Z.of_nat (length f) - Z.of_nat (length f) mod 4096 + 4096) d1)
      as (b & d2 & E2 & L2 & B2 & T2 & Y2); [mlia|lia|].
    rewrite E2. rstep. cbn [Z.ltb Z.compare]. eexists _, d2. splits; [reflexivity| |by rewrite B2|lia|done|done].
    split; cbn [file_len append_tail append_buf append_buf_size head_buf PfAof_new]; try done; try lia; try mlia.
    + intros i Hi. rewrite Y2 by mlia. rewrite B1, <- Hp by mlia. f_equal. lia.
    + intros i Hi. rewrite B2, B1. apply Hp. mlia.
Qed.

(** ** Reading *)
Lemma read_page_good (b : bool) at_ off read_buf d :
  0 <= at_ -> at_ + 4096 <= Z.of_nat (length read_buf) -> 0 < dk_throttle d ->
  exists read_buf' d',
    (if b then read_page env at_ off read_buf d else ret (Some 0, read_buf, d)) = ret (Some 0, read_buf', d')
    /\ dk_bytes d' = dk_bytes d /\ dk_throttle d' = dk_throttle d /\ length read_buf' = length read_buf
    /\ forall i, 0 <= i -> byte_at read_buf' i = if b && (at_ <=? i) && (i <? at_ + 4096) then dk_bytes d (off + (i - at_)) else byte_at read_buf i.
Proof.
  intros Ha Hl Hd. destruct b; [|by exists read_buf, d]. unfold read_page.
  rewrite submit_accepted by (try apply good_accepted; done). rstep. rewrite good. cbn [io_submit io_status negb Z.eqb].
  destruct (read_good at_ off 4096 (dk_bytes d) read_buf) as (buf' & E & L & Y); [lia|lia|lia|].
  cbn [dk_bytes]. rewrite E. rstep. eexists _, _. splits; [reflexivity|done|done|done|exact Y].
Qed.

Lemma copy_page_done (b : bool) from n read_buf to buf :
  0 <= from -> 0 <= n -> from + n <= Z.of_nat (length read_buf) -> (b = true -> 0 <= to /\ to + n <= Z.of_nat (length buf)) ->
  exists buf', copy_page b from n read_buf to buf = Done buf' /\ length buf' = length buf
    /\ forall i, 0 <= i -> byte_at buf' i = if b && (to <=? i) && (i <? to + n) then byte_at read_buf (from + (i - to)) else byte_at buf i.
Proof.
  intros Hf Hn Hl Hb. destruct b; [|by exists buf]. specialize (Hb eq_refl). unfold copy_page.
  destruct (get_at_done from n read_buf) as (l & E1 & L1 & Y1); [lia|lia|lia|]. rewrite E1. cbn [obind].
  destruct (put_at_done to l buf) as (buf' & E2 & L2 & Y2); [lia|lia|]. exists buf'. splits; [done|done|].
  intros i Hi. rewrite Y2, L1 by done. cbn [andb]. destruct (Z.leb_spec to i), (Z.ltb_spec i (to + n)); cbn [andb]; try done.
  apply Y1. lia.
Qed.

Lemma read_loop_good n : forall aoff aend boff buf d,
  aoff mod 4096 = 0 -> aend mod 4096 = 0 -> 0 <= boff -> aoff <= aend ->
  (aoff < aend -> boff + (aend - aoff) <= Z.of_nat (length buf)) ->
  aend - aoff <= Z.of_nat n -> 0 < dk_throttle d ->
  exists buf' d', read_loop env n aoff aend boff 0 buf d = ret (Some 0, buf', d')
    /\ dk_bytes d' = dk_bytes d /\ dk_throttle d' = dk_throttle d /\ length buf' = length buf
    /\ forall i, 0 <= i -> byte_at buf' i = if (boff <=? i) && (i <? boff + (aend - aoff)) then dk_bytes d (aoff + (i - boff)) else byte_at buf i.
Proof.
  induction n as [|n IH]; intros aoff aend boff buf d Ho He Hb Hle Hl Hn Hd; cbn [read_loop];
    destruct (Z.leb_spec aend aoff); try lia.
  1,2: exists buf, d; splits; try done; intros i Hi; destruct (Z.leb_spec boff i), (Z.ltb_spec i (boff + (aend - aoff))); by try lia.
  rewrite land_seg. change SEG_SIZE with 131072. set (next := aoff + 131072 - (aoff + 131072) mod 131072).
  assert (aoff < next /\ next mod 4096 = 0) as [Hn1 Hn2] by (unfold next; mlia). clearbody next. set (io := Z.min aend next - aoff).
  assert (0 < io /\ aoff + io <= aend /\ io mod 4096 = 0) as (I1 & I2 & I3) by (unfold io; mlia). clearbody io.
  rewrite submit_accepted by (try apply good_accepted; done). rstep. rewrite good. cbn [io_submit io_status negb Z.eqb dk_bytes].
  destruct (read_good boff aoff io (dk_bytes d) buf) as (buf1 & E & L & Y); [lia|lia|lia|]. rewrite E. rstep. rewrite io_cbk_0.
  set (d1 := mkDisk _ _ _).
  destruct (IH (aoff + io) aend (boff + io) buf1 d1) as (buf2 & d2 & E2 & B2 & T2 & L2 & Y2); [mlia|done|lia|lia|lia|lia|done|].
  exists buf2, d2. splits; [done|done|done|lia|]. intros i Hi. rewrite Y2, Y by done. cbn [d1 dk_bytes].
  destruct (Z.leb_spec (boff + io) i), (Z.ltb_spec i (boff + io + (aend - (aoff + io)))), (Z.leb_spec boff i),
    (Z.ltb_spec i (boff + (aend - aoff))), (Z.ltb_spec i (boff + io)); try lia; cbn [andb]; try done; f_equal; lia.
Qed.

(** where the pages of the part from [A] to [B] are *)
Lemma pages A B len (h t : bool) aoff aend boff :
  0 <= A <= B -> B - A <= len -> (B mod 4096 <> 0 -> B - A = len) ->
  h = negb (A mod 4096 =? 0) -> t = negb (B mod 4096 =? 0) && (negb (B - B mod 4096 =? A - A mod 4096) || (A mod 4096 =? 0)) ->
  aoff = (if h then A - A mod 4096 + 4096 else A - A mod 4096) ->
  aend = (if t then B + 4095 - (B + 4095) mod 4096 - 4096 else B + 4095 - (B + 4095) mod 4096) ->
  boff = (if h then 4096 - A mod 4096 else 0) ->
  aoff mod 4096 = 0 /\ aend mod 4096 = 0 /\ 0 <= boff /\ aoff <= aend /\ (h = false -> aoff = A /\ boff = 0)
  /\ (aoff < aend -> boff = aoff - A /\ aend <= B)
  /\ (t = true -> aend = B - B mod 4096 /\ B - A = len /\ A <= aend)
  /\ (t = false -> aend = B \/ (h = true /\ aend = aoff /\ B < aoff))
  /\ (h = true -> aoff - A = 4096 - A mod 4096 /\ (B < aoff -> B - A = len)).
Proof.
  intros HA HB Hu -> -> -> -> ->. destruct (Z.eqb_spec (A mod 4096) 0), (Z.eqb_spec (B mod 4096) 0),
    (Z.eqb_spec (B - B mod 4096) (A - A mod 4096)); cbn [negb andb orb]; splits; intros; try split_and!; try discriminate; mlia.
Qed.

(** the bytes of a read, by the page they come from *)
Lemma pieces (v : Z -> Z) rb buf A B am bm len (h t : bool) aoff aend boff i :
  0 <= am < 4096 -> 0 <= bm < 4096 -> 0 <= i -> B - A <= len -> aoff <= aend ->
  (h = false -> aoff = A /\ boff = 0) -> (aoff < aend -> boff = aoff - A /\ aend <= B) ->
  (t = true -> aend = B - bm /\ B - A = len /\ A <= aend) ->
  (t = false -> aend = B \/ (h = true /\ aend = aoff /\ B < aoff)) ->
  (h = true -> aoff - A = 4096 - am /\ (B < aoff -> B - A = len)) ->
  (h = true -> forall k, 0 <= k < 4096 -> byte_at rb k = v (A - am + k)) ->
  (t = true -> forall k, 0 <= k < 4096 -> byte_at rb (4096 + k) = v (B - bm + k)) ->
  (if t && (len - bm <=? i) && (i <? len - bm + bm) then byte_at rb (4096 + (i - (len - bm)))
   else if h && (0 <=? i) && (i <? 0 + Z.min (4096 - am) len) then byte_at rb (am + (i - 0))
   else if (boff <=? i) && (i <? boff + (aend - aoff)) then v (aoff + (i - boff)) else byte_at buf i)
  = if i <? B - A then v (A + i) else byte_at buf i.
Proof.
  intros Ham Hbm Hi Hl Hle H1 H2 H3 H4 H5 Hh Ht. destruct h, t; cbn [andb].
  all: repeat match goal with
    | |- context [?x <=? ?y] => destruct (Z.leb_spec x y)
    | |- context [?x <? ?y] => destruct (Z.ltb_spec x y)
    end; cbn [andb]; try lia; try (rewrite ?Hh, ?Ht by lia; f_equal; lia).
Qed.

Lemma read_volume_good buf read_buf len offset B d :
  0 <= offset -> offset + 4096 <= B -> B - (offset + 4096) <= len <= Z.of_nat (length buf) ->
  (B mod 4096 <> 0 -> B - (offset + 4096) = len) -> Z.of_nat (length read_buf) = 8192 -> 0 < dk_throttle d ->
  exists buf' d', read_volume env buf read_buf len offset B d = ret (len, buf', d')
    /\ dk_bytes d' = dk_bytes d /\ dk_throttle d' = dk_throttle d /\ length buf' = length buf
    /\ forall i, 0 <= i -> byte_at buf' i = if i <? B - (offset + 4096) then dk_bytes d (offset + 4096 + i) else byte_at buf i.
Proof.
  intros Ho HB Hlen Hu Hr Hd. unfold read_volume. set (A := offset + 4096) in *. unfold UP_ALIGN_4K, DOWN_ALIGN_4K.
  rewrite !Z.rem_mod_nonneg, !land_page, !land_rest by lia. replace (offset mod 4096) with (A mod 4096) by (unfold A; mlia).
  set (h := negb (A mod 4096 =? 0)). set (t := negb (B mod 4096 =? 0) && _).
  destruct (read_page_good h 0 (A - A mod 4096) read_buf d) as (rb1 & d1 & E1 & B1 & T1 & L1 & Y1); [lia|lia|done|].
  rewrite E1. rstep. rewrite io_cbk_0. set (aoff := if h then _ else _).
  destruct (read_page_good t 4096 (B - B mod 4096) rb1 d1) as (rb2 & d2 & E2 & B2 & T2 & L2 & Y2); [lia|lia|lia|].
  rewrite E2. rstep. rewrite io_cbk_0. set (aend := if t then _ else _). set (boff := if h then _ else _).
  destruct (pages A B len h t aoff aend boff) as (P1 & P2 & P3 & P4 & P5 & P6 & P7 & P8 & P9); [lia|lia|done|done|done|done|done|done|].
  clearbody aoff aend boff.
  destruct (read_loop_good (Z.to_nat (aend - aoff)) aoff aend boff buf d2) as (buf1 & d3 & E3 & B3 & T3 & L3 & Y3);
    [done|done|done|done|lia|lia|lia|].
  rewrite E3. rstep. cbn [negb Z.eqb].
  destruct (copy_page_done h (A mod 4096) (Z.min (4096 - A mod 4096) len) rb2 0 buf1) as (buf2 & E4 & L4 & Y4); [mlia|mlia|mlia|lia|].
  rewrite E4. rstep.
  destruct (copy_page_done t 4096 (B mod 4096) rb2 (len - B mod 4096) buf2) as (buf3 & E5 & L5 & Y5); [mlia|mlia|mlia| |].
  { intros E. specialize (P7 E). mlia. }
  rewrite E5. rstep. exists buf3, d3. splits; [done|congruence|lia|lia|]. intros i Hi. clear E1 E2 E3 E4 E5.
  assert (h = true -> forall k, 0 <= k < 4096 -> byte_at rb2 k = dk_bytes d (A - A mod 4096 + k)) as Hh.
  { intros E k Hk. rewrite Y2, Y1 by lia. rewrite E, (proj2 (Z.leb_gt 4096 k)), (proj2 (Z.leb_le 0 k)), (proj2 (Z.ltb_lt k (0 + 4096))) by lia.
    rewrite andb_false_r. cbn [andb]. f_equal. lia. }
  assert (t = true -> forall k, 0 <= k < 4096 -> byte_at rb2 (4096 + k) = dk_bytes d (B - B mod 4096 + k)) as Htl.
  { intros E k Hk. rewrite Y2 by lia. rewrite E, (proj2 (Z.leb_le _ _)), (proj2 (Z.ltb_lt _ _)) by lia. cbn [andb]. rewrite B1. f_equal. lia. }
  rewrite Y5, Y4, Y3 by done. rewrite B2, B1. by apply pieces; try done; mlia.
Qed.
End Good.
