(* ===== verification/AofFile.v ===== *)
(** * Append-only files as lists of bytes

    Runs of operations on a file against a list of bytes, what a crash in
    the middle of a [sync] leaves, and what becomes of errors of the
    volume. *)

From Stdlib Require Import ZArith Lia.
From stdpp Require Import base tactics list numbers.
From S2P Require Import Prelude Bytes Runs Aof AofProps.

(** a file that can take more bytes *)
Definition ready (f : list Z) (a : PfAof) (v : Z -> Z) : Prop := holds f a v /\ append_tail a < append_buf_size a.

(** the part of [f] from [off] on, at most [n] bytes *)
Definition slice (f : list Z) (n off : Z) : list Z := take (Z.to_nat n) (drop (Z.to_nat off) f).

Lemma slice_length f n off : 0 <= n -> 0 <= off ->
  Z.of_nat (length (slice f n off)) = if Z.of_nat (length f) <=? off then 0 else Z.min n (Z.of_nat (length f) - off).
Proof. intros Hn Ho. unfold slice. rewrite length_take, length_drop. destruct (Z.leb_spec (Z.of_nat (length f)) off); lia. Qed.

Lemma slice_byte f n off i : 0 <= i < n -> 0 <= off -> byte_at (slice f n off) i = byte_at f (off + i).
Proof. intros Hi Ho. unfold slice. rewrite byte_at_take, byte_at_drop by lia. f_equal. lia. Qed.

Section Good.
Variable env : nat -> io_result.
Hypothesis good : forall n, env n = mkIo 0 0.

(** ** Reading *)
Lemma read_buffered_good f a v len offset buf :
  holds f a v -> 0 <= offset -> 0 <= len -> offset + len <= file_len a -> len <= Z.of_nat (length buf) ->
  let base := file_len a - append_tail a in
  let n := if base <? offset + len then Z.min len (offset + len - base) else 0 in
  exists buf', read_buffered a len offset buf = Done (if base <? offset + len then Some n else None, buf') /\ length buf' = length buf
    /\ forall i, 0 <= i -> byte_at buf' i = if (len - n <=? i) && (i <? len) then byte_at f (offset + i) else byte_at buf i.
Proof.
  intros H Ho Hl Hf Hb base n. destruct H as [H1 H2 H3 H4 H5 H6 H7 H8 H9]. unfold read_buffered. fold base.
  destruct (Z.ltb_spec base (offset + len)) as [Hlt|Hge].
  - fold n. set (off := if len =? n then offset + len - base - n else 0).
    assert (0 <= n <= len /\ off = offset + len - n - base /\ 0 <= off) as (N1 & N2 & N3).
    { unfold off, n. destruct (Z.eqb_spec len (len `min` (offset + len - base))); lia. }
    clearbody n off.
    destruct (get_at_done off n (append_buf a)) as (l & E1 & L1 & Y1); [lia|lia|lia|].
    destruct (put_at_done (len - n) l buf) as (buf' & E2 & L2 & Y2); [lia|lia|].
    rewrite E1. cbn [obind]. rewrite E2. cbn [obind]. exists buf'. splits; [done|done|]. intros i Hi. rewrite Y2, L1 by done.
    replace (len - n + n) with len by lia. destruct (Z.leb_spec (len - n) i), (Z.ltb_spec i len); cbn [andb]; try done.
    rewrite Y1, H8 by lia. f_equal. lia.
  - exists buf. splits; [done|done|]. intros i Hi. unfold n. rewrite Z.sub_0_r.
    destruct (Z.leb_spec len i), (Z.ltb_spec i len); try lia; done.
Qed.

Lemma read_good_bytes f a buf read_buf len offset d :
  holds f a (dk_bytes d) -> 0 <= offset -> 0 <= len <= Z.of_nat (length buf) -> Z.of_nat (length read_buf) = 8192 ->
  0 < dk_throttle d ->
  exists buf' d', aof_read env a buf read_buf len offset d = ret (Z.of_nat (length (slice f len offset)), buf', d')
    /\ dk_bytes d' = dk_bytes d /\ dk_throttle d' = dk_throttle d /\ length buf' = length buf
    /\ forall i, 0 <= i -> byte_at buf' i = if i <? Z.of_nat (length (slice f len offset)) then byte_at f (offset + i) else byte_at buf i.
Proof.
  intros H Ho Hl Hr Hd. rewrite slice_length, <- (ho_len _ _ _ H) by lia. unfold aof_read.
  destruct (Z.leb_spec (file_len a) offset) as [Hle|Hlt].
  { exists buf, d. splits; try done. intros i Hi. by rewrite (proj2 (Z.ltb_ge _ _)) by lia. }
  replace (if file_len a <? offset + len then file_len a - offset else len) with (Z.min len (file_len a - offset))
    by (destruct (Z.ltb_spec (file_len a) (offset + len)); lia).
  set (n := Z.min len (file_len a - offset)). assert (0 <= n <= len /\ offset + n <= file_len a) as [N1 N2] by lia. clearbody n.
  destruct (read_buffered_good f a (dk_bytes d) n offset buf) as (buf1 & E1 & L1 & Y1); [done|lia|lia|lia|lia|].
  rewrite E1. cbn [lift obind rbind ret]. clear E1. destruct H as [H1 H2 H3 H4 H5 H6 H7 H8 H9].
  set (base := file_len a - append_tail a) in *.
  destruct (Z.ltb_spec base (offset + n)) as [Hb|Hb]; cbn [from_option]; unfold id.
  - set (k := Z.min n (offset + n - base)) in *. destruct (decide (k = n)) as [E|E].
    { rewrite bool_decide_true by congruence. exists buf1, d. splits; try done. intros i Hi. rewrite Y1, E by done.
      destruct (Z.leb_spec (n - n) i), (Z.ltb_spec i n); try lia; done. }
    rewrite bool_decide_false by congruence. assert (k = offset + n - base /\ 0 <= k < n) as [Hk Hkn] by lia. clearbody k. rewrite bool_decide_true by done.
    rewrite Z.rem_mod_nonneg by lia. rewrite (proj2 (Z.eqb_eq _ _)) by mlia. cbn [andb negb].
    destruct (read_volume_good env good buf1 read_buf n offset (offset + 4096 + (n - k)) d) as (buf2 & d2 & E2 & B2 & T2 & L2 & Y2);
      [lia|lia|lia|mlia|done|done|].
    exists buf2, d2. splits; [done|done|done|lia|]. intros i Hi. rewrite Y2, Y1 by done.
    destruct (Z.ltb_spec i (offset + 4096 + (n - k) - (offset + 4096))), (Z.ltb_spec i n), (Z.leb_spec (n - k) i); try lia; cbn [andb]; try done.
    rewrite <- H9 by lia. f_equal. lia.
  - rewrite bool_decide_false by done. rewrite bool_decide_false by (intros [? [=]]). cbn [andb].
    destruct (read_volume_good env good buf1 read_buf n offset (offset + 4096 + (n - 0)) d) as (buf2 & d2 & E2 & B2 & T2 & L2 & Y2);
      [lia|lia|lia|mlia|done|done|].
    exists buf2, d2. splits; [done|done|done|lia|]. intros i Hi. rewrite Y2, Y1 by done.
    destruct (Z.ltb_spec i (offset + 4096 + (n - 0) - (offset + 4096))), (Z.ltb_spec i n), (Z.leb_spec (n - 0) i); try lia; cbn [andb]; try done.
    rewrite <- H9 by lia. f_equal. lia.
Qed.

(** ** Appending *)

(** [f1] is on the volume, and holds whatever was there before *)
Definition keeps (f : list Z) (v v' : Z -> Z) : Prop :=
  forall f0, f0 `prefix_of` f -> persisted f0 v -> exists f1, f0 `prefix_of` f1 /\ f1 `prefix_of` f /\ persisted f1 v'.

Lemma keeps_refl f v : keeps f v v.
Proof. intros f0 Hp H. by exists f0. Qed.

Lemma keeps_synced f v v' : persisted f v' -> keeps f v v'.
Proof. intros H f0 Hp _. by exists f. Qed.

Lemma put_extends f a v l :
  holds f a v -> append_tail a + Z.of_nat (length l) <= append_buf_size a -> file_len a + Z.of_nat (length l) < 2 ^ 62 ->
  exists buf, put_at (append_tail a) l (append_buf a) = Done buf
    /\ holds (f ++ l) (mkAof buf (append_tail a + Z.of_nat (length l)) (file_len a + Z.of_nat (length l)) (head_buf a) (append_buf_size a)) v.
Proof.
  intros H Hs Hb. destruct H as [H1 H2 H3 H4 H5 H6 H7 H8 H9].
  destruct (put_at_done (append_tail a) l (append_buf a)) as (buf & E & L & Y); [lia|lia|]. exists buf. split; [done|].
  split; cbn [file_len append_tail append_buf append_buf_size head_buf]; rewrite ?length_app; try done; try lia.
  - by replace (file_len a + _ - _) with (file_len a - append_tail a) by lia.
  - intros i Hi. rewrite Y, byte_at_app by lia.
    destruct (Z.leb_spec (append_tail a) i), (Z.ltb_spec i (append_tail a + Z.of_nat (length l))); try lia; cbn [andb].
    + rewrite (proj2 (Z.ltb_ge _ _)) by lia. f_equal. lia.
    + rewrite (proj2 (Z.ltb_lt _ _)) by lia. rewrite H8 by lia. f_equal. lia.
  - intros i Hi. rewrite byte_at_app by lia. rewrite (proj2 (Z.ltb_lt _ _)) by lia. apply H9. lia.
Qed.

(** the step after each part of [append] *)
Lemma full_synced f a d :
  holds f a (dk_bytes d) -> 0 < dk_throttle d ->
  exists a' d', (if append_tail a =? append_buf_size a then aof_sync env a d else ret (a, d)) = ret (a', d')
    /\ ready f a' (dk_bytes d') /\ keeps f (dk_bytes d) (dk_bytes d') /\ dk_throttle d' = dk_throttle d
    /\ append_buf_size a' = append_buf_size a.
Proof.
  intros H Hd. destruct (Z.eqb_spec (append_tail a) (append_buf_size a)) as [E|E].
  - destruct (sync_good env good f a d H Hd) as (a' & d' & E1 & H' & P' & T' & A' & S'). exists a', d'. splits; try done.
    + split; [done|]. destruct (ho_size _ _ _ H). rewrite A', S'. mlia.
    + by apply keeps_synced.
  - exists a, d. splits; try done; [|apply keeps_refl]. split; [done|]. pose proof (ho_tail _ _ _ H). lia.
Qed.

Lemma append_loop_good n : forall l f a d,
  ready f a (dk_bytes d) -> 0 < dk_throttle d -> (length l <= n)%nat -> file_len a + Z.of_nat (length l) < 2 ^ 62 ->
  exists a' d', append_loop env n l a d = ret (a', d') /\ ready (f ++ l) a' (dk_bytes d')
    /\ (forall f0, f0 `prefix_of` f -> persisted f0 (dk_bytes d) ->
          exists f1, f0 `prefix_of` f1 /\ f1 `prefix_of` f ++ l /\ persisted f1 (dk_bytes d'))
    /\ dk_throttle d' = dk_throttle d /\ append_buf_size a' = append_buf_size a.
Proof.
  induction n as [|n IH]; intros [|x l] f a d [H Ht] Hd Hn Hb; try (cbn [length] in Hn; lia).
  1,2: exists a, d; rewrite app_nil_r; splits; try done; apply keeps_refl.
  cbn [append_loop]. set (k := Z.min _ _). set (L := x :: l) in *. pose proof (ho_tail _ _ _ H) as Htl.
  assert (0 < k <= Z.of_nat (length L) /\ append_tail a + k <= append_buf_size a) as [K1 K2] by (unfold k, L; cbn [length]; lia). clearbody k.
  rewrite (proj2 (Z.ltb_ge _ _)) by lia. set (l1 := take (Z.to_nat k) L). set (l2 := drop (Z.to_nat k) L).
  assert (Z.of_nat (length l1) = k) as Hl1 by (unfold l1; rewrite length_take; lia).
  assert (Z.of_nat (length l2) = Z.of_nat (length L) - k) as Hl2 by (unfold l2; rewrite length_drop; lia).
  destruct (put_extends f a (dk_bytes d) l1) as (buf & E1 & H1); [done|lia|lia|]. rewrite E1, Hl1 in *. cbn [lift obind rbind ret].
  match type of H1 with holds _ ?x _ => set (a1 := x) in * end.
  destruct (full_synced (f ++ l1) a1 d H1 Hd) as (a2 & d2 & E2 & R2 & Kp2 & T2 & S2).
  rewrite E2. cbn [rbind ret].
  assert (file_len a2 = file_len a + k) as Hf2.
  { rewrite (ho_len _ _ _ (proj1 R2)), (length_app f), (ho_len _ _ _ H). lia. }
  destruct (IH l2 (f ++ l1) a2 d2) as (a3 & d3 & E3 & R3 & Kp3 & T3 & S3); [done|lia|lia|lia|].
  assert ((f ++ l1) ++ l2 = f ++ L) as Happ by (rewrite <- app_assoc; unfold l1, l2; by rewrite take_drop). rewrite Happ in *.
  exists a3, d3. splits; [done|done| |lia|by rewrite S3]. intros f0 Hp0 P0.
  destruct (Kp2 f0) as (f1 & Q1 & Q2 & Q3); [by apply prefix_app_r|done|].
  destruct (Kp3 f1) as (f2 & Q4 & Q5 & Q6); [done|done|]. exists f2. splits; [by etrans|done|done].
Qed.
End Good.

(** ** Runs of operations *)
Inductive aof_op : Type :=
| OpAppend (l : list Z)
| OpSync
| OpRead (buf read_buf : list Z) (len offset : Z)
| OpReopen.   (* the last reference is dropped, the file is opened again *)

Definition op_step (env : nat -> io_result) (o : aof_op) (a : PfAof) (d : disk) : run (Z * list Z * PfAof * disk) :=
  match o with
  | OpAppend l => let? (rc, a, d) := aof_append env l a d in ret (rc, [], a, d)
  | OpSync => let? (a, d) := aof_sync env a d in ret (0, [], a, d)
  | OpRead buf read_buf len offset =>
      let? (rc, buf, d) := aof_read env a buf read_buf len offset d in ret (rc, take (Z.to_nat rc) buf, a, d)
  | OpReopen =>
      let? (a, d) := aof_sync env a d in
      let? (rc, a, d) := aof_open env (PfAof_new (append_buf_size a)) d in
      ret (rc, [], a, d)
  end.

Fixpoint run_ops (env : nat -> io_result) (ops : list aof_op) (a : PfAof) (d : disk)
    : run (list (Z * list Z) * PfAof * disk) :=
  match ops with
  | [] => ret ([], a, d)
  | o :: ops =>
      let? (rc, l, a, d) := op_step env o a d in
      let? (ans, a, d) := run_ops env ops a d in
      ret ((rc, l) :: ans, a, d)
  end.

(** a list of bytes, and the part of it that was synced last *)
Definition spec_step (o : aof_op) (f s : list Z) : Z * list Z * list Z * list Z :=
  match o with
  | OpAppend l => (Z.of_nat (length l), [], f ++ l, s)
  | OpSync => (0, [], f, f)
  | OpRead _ _ len offset => (Z.of_nat (length (slice f len offset)), slice f len offset, f, s)
  | OpReopen => (0, [], f, f)
  end.

Fixpoint spec_ops (ops : list aof_op) (f s : list Z) : list (Z * list Z) * list Z * list Z :=
  match ops with
  | [] => ([], f, s)
  | o :: ops =>
      let '(rc, l, f, s) := spec_step o f s in
      let '(ans, f, s) := spec_ops ops f s in
      ((rc, l) :: ans, f, s)
  end.

Definition op_ok (o : aof_op) : Prop :=
  match o with
  | OpRead buf read_buf len offset =>
      0 <= offset /\ 0 <= len <= Z.of_nat (length buf) /\ Z.of_nat (length read_buf) = 8192
  | _ => True
  end.

Definition op_bytes (o : aof_op) : nat := match o with OpAppend l => length l | _ => 0 end.

Fixpoint ops_bytes (ops : list aof_op) : nat := match ops with [] => 0 | o :: ops => op_bytes o + ops_bytes ops end.

Definition between (s f : list Z) (v : Z -> Z) : Prop :=
  exists f1, s `prefix_of` f1 /\ f1 `prefix_of` f /\ persisted f1 v.

Section Runs.
Variable env : nat -> io_result.
Hypothesis good : forall n, env n = mkIo 0 0.

Lemma between_synced f v : persisted f v -> between f f v.
Proof. intros H. by exists f. Qed.

Lemma sync_ready f a d :
  holds f a (dk_bytes d) -> 0 < dk_throttle d ->
  exists a' d', aof_sync env a d = ret (a', d') /\ ready f a' (dk_bytes d') /\ persisted f (dk_bytes d')
    /\ dk_throttle d' = dk_throttle d /\ append_buf_size a' = append_buf_size a.
Proof.
  intros H Hd. destruct (sync_good env good f a d H Hd) as (a' & d' & E & H' & P' & T' & A' & S'). exists a', d'. splits; try done.
  split; [done|]. destruct (ho_size _ _ _ H). rewrite A', S'. mlia.
Qed.

Lemma open_ready f size d :
  persisted f (dk_bytes d) -> 0 < dk_throttle d -> 0 < size -> size mod 4096 = 0 -> Z.of_nat (length f) < 2 ^ 62 ->
  exists a d', aof_open env (PfAof_new size) d = ret (0, a, d') /\ ready f a (dk_bytes d') /\ dk_bytes d' = dk_bytes d
    /\ dk_throttle d' = dk_throttle d /\ append_buf_size a = size.
Proof.
  intros P Hd Hs Hm Hb. destruct (open_good env good f size d) as (a & d' & E & H & B & T & S & A); [done..|].
  exists a, d'. splits; try done. split; [done|]. rewrite A, S. mlia.
Qed.

Lemma create_good d :
  0 < dk_throttle d -> exists d', create_aof env d = ret (0, d') /\ persisted [] (dk_bytes d') /\ dk_throttle d' = dk_throttle d.
Proof.
  intros Hd. unfold create_aof, sync_write. rewrite submit_accepted by (try apply good_accepted; done). rstep. rewrite good.
  cbn [io_submit io_status negb Z.eqb written set_bytes dk_bytes dk_throttle dk_next]. rewrite io_cbk_0. destruct head_page_good as [G1 G2].
  pose proof G1 as [L _]. rewrite L. cbn [negb Z.eqb]. rstep. rewrite (proj2 (Z.leb_gt _ _)) by lia. eexists. splits; [reflexivity| |done].
  split; [exists head_page; splits; [done|done|]|cbn; lia]. intros i Hi. unfold written, set_bytes. cbn [dk_bytes io_status Z.eqb].
  rewrite vol_write_in by (rewrite L; lia). f_equal. lia.
Qed.

Lemma step_good o f s a d :
  ready f a (dk_bytes d) -> between s f (dk_bytes d) -> 0 < dk_throttle d -> op_ok o ->
  Z.of_nat (length f) + Z.of_nat (op_bytes o) < 2 ^ 62 ->
  let '(rc, l, f', s') := spec_step o f s in
  exists a' d', op_step env o a d = ret (rc, l, a', d') /\ ready f' a' (dk_bytes d') /\ between s' f' (dk_bytes d')
    /\ dk_throttle d' = dk_throttle d /\ length f' = (length f + op_bytes o)%nat.
Proof.
  intros R B Hd Hok Hb. destruct (R) as [H Ht]. pose proof (ho_len _ _ _ H) as Hlen.
  destruct o as [l| |buf read_buf len offset|]; cbn [spec_step op_step op_bytes] in *; rewrite ?Nat.add_0_r.
  - unfold aof_append. destruct (append_loop_good env good (length l) l f a d) as (a' & d' & E & R' & K' & T' & _); [done|done|lia|lia|].
    rewrite E. rstep. exists a', d'. splits; try done; [|apply length_app]. destruct B as (f1 & B1 & B2 & B3).
    destruct (K' f1 B2 B3) as (f2 & Q1 & Q2 & Q3). exists f2. splits; [by etrans|done|done].
  - destruct (sync_ready f a d H Hd) as (a' & d' & E & R' & P' & T' & _). rewrite E. rstep.
    exists a', d'. splits; try done. by apply between_synced.
  - destruct Hok as (O1 & O2 & O3).
    destruct (read_good_bytes env good f a buf read_buf len offset d) as (buf' & d' & E & B' & T' & L' & Y'); [done..|].
    rewrite E. rstep. exists a, d'. rewrite B'. splits; try done. f_equal. f_equal. f_equal. f_equal. f_equal.
    pose proof (slice_length f len offset ltac:(lia) O1) as Hsl. apply byte_at_ext; rewrite length_take.
    + destruct (Z.leb_spec (Z.of_nat (length f)) offset); lia.
    + intros i Hi. rewrite byte_at_take, Y' by lia. rewrite (proj2 (Z.ltb_lt _ _)) by lia. symmetry. apply slice_byte; [|done].
      destruct (Z.leb_spec (Z.of_nat (length f)) offset); lia.
  - destruct (sync_ready f a d H Hd) as (a1 & d1 & E1 & R1 & P1 & T1 & S1). rewrite E1. rstep. destruct (ho_size _ _ _ H) as [Z1 Z2].
    destruct (open_ready f (append_buf_size a1) d1) as (a' & d' & E & R' & B' & T' & _); [done|lia|lia|by rewrite S1|lia|].
    rewrite E. rstep. exists a', d'. splits; try done; [|lia]. rewrite B'. by apply between_synced.
Qed.

Lemma runs_good ops : forall f s a d,
  ready f a (dk_bytes d) -> between s f (dk_bytes d) -> 0 < dk_throttle d -> Forall op_ok ops ->
  Z.of_nat (length f) + Z.of_nat (ops_bytes ops) < 2 ^ 62 ->
  let '(ans, f', s') := spec_ops ops f s in
  exists a' d', run_ops env ops a d = ret (ans, a', d') /\ ready f' a' (dk_bytes d') /\ between s' f' (dk_bytes d')
    /\ dk_throttle d' = dk_throttle d.
Proof.
  induction ops as [|o ops IH]; intros f s a d R B Hd Hok Hb; cbn [spec_ops run_ops].
  { by exists a, d. }
  apply Forall_cons_iff in Hok as [Ho Hok]. cbn [ops_bytes] in Hb.
  pose proof (step_good o f s a d R B Hd Ho ltac:(lia)) as St. destruct (spec_step o f s) as [[[rc l] f1] s1].
  destruct St as (a1 & d1 & E1 & R1 & B1 & T1 & L1). rewrite E1. rstep.
  specialize (IH f1 s1 a1 d1 R1 B1 ltac:(lia) Hok ltac:(lia)). destruct (spec_ops ops f1 s1) as [[ans f2] s2].
  destruct IH as (a2 & d2 & E2 & R2 & B2 & T2). rewrite E2. rstep. exists a2, d2. splits; try done. lia.
Qed.
End Runs.

(** C20 (refinement): a file is the list of the bytes appended to it.  On a
    volume that carries its requests out, creating a file, opening it and
    any run of appends, syncs, reads of any place and length and reopens
    returns; every answer is the one a plain list of bytes gives, reads of
    pieces that are partly in the append buffer and partly on the volume and
    reads past the end included.  At the end the volume holds a file that is
    at least as long as at the last sync and no longer than what was
    appended. *)
Theorem file_is_its_bytes (env : nat -> io_result) (d : disk) (size : Z) (ops : list aof_op)
    (Henv : forall n, env n = mkIo 0 0) (Hthrottle : 0 < dk_throttle d)
    (Hsize : 0 < size /\ size mod 4096 = 0) (Hops : Forall op_ok ops) (Hbytes : Z.of_nat (ops_bytes ops) < 2 ^ 62) :
  let '(ans, f, s) := spec_ops ops [] [] in
  exists a d1 d',
    create_aof env d = ret (0, d1)
    /\ (let? (rc, a, d) := aof_open env (PfAof_new size) d1 in run_ops env ops a d) = ret (ans, a, d')
    /\ ready f a (dk_bytes d') /\ between s f (dk_bytes d').
Proof.
  destruct (create_good env Henv d Hthrottle) as (d1 & E1 & P1 & T1).
  destruct (open_ready env Henv [] size d1) as (a2 & d2 & E2 & R2 & B2 & T2 & _); [done|lia|lia|lia|done|].
  pose proof (runs_good env Henv ops [] [] a2 d2 R2) as G. rewrite B2 in G.
  specialize (G (between_synced [] _ P1) ltac:(lia) Hops ltac:(cbn [length]; lia)).
  destruct (spec_ops ops [] []) as [[ans f] s]. destruct G as (a & d' & E & R & B & _).
  exists a, d1, d'. rewrite E2. rstep. done.
Qed.

Lemma file_is_its_bytes_witness :
  exists a d1 d',
    create_aof (fun _ => mkIo 0 0) (mkDisk (fun _ => 0) 24 0) = ret (0, d1)
    /\ (let? (rc, a, d) := aof_open (fun _ => mkIo 0 0) (PfAof_new 8192) d1 in
        run_ops (fun _ => mkIo 0 0) [OpAppend [1; 2; 3]; OpReopen; OpAppend [4]; OpRead [0; 0; 0] (zeros 8192) 3 1] a d)
       = ret ([(3, []); (0, []); (1, []); (3, [2; 3; 4])], a, d')
    /\ ready [1; 2; 3; 4] a (dk_bytes d') /\ between [1; 2; 3] [1; 2; 3; 4] (dk_bytes d').
Proof.
  apply (file_is_its_bytes (fun _ => mkIo 0 0) (mkDisk (fun _ => 0) 24 0) 8192
           [OpAppend [1; 2; 3]; OpReopen; OpAppend [4]; OpRead [0; 0; 0] (zeros 8192) 3 1]); try done.
  repeat constructor; cbn [length]; try lia.
Defined.

(** ** A crash in the middle of [sync] *)

(** any part of the data of any of the writes may have reached the volume *)
Definition torn (ws : list (io_result * Z * list Z)) (v v' : Z -> Z) : Prop :=
  forall x, v' x = v x \/ exists w, In w ws /\ covers x w /\ v' x = byte_at (w_data w) (x - w_off w).

Lemma torn_keeps f0 f a v v' ws :
  holds f a v -> f0 `prefix_of` f -> persisted f0 v ->
  Forall (faithful (file_len a - append_tail a) (file_len a) (append_buf a)) ws -> torn ws v v' -> persisted f0 v'.
Proof.
  intros H [r ->] [(l & L1 & L2 & L3) P] Hf Ht. destruct H as [H1 H2 H3 H4 H5 H6 H7 H8 H9]. rewrite length_app in H1.
  rewrite List.Forall_forall in Hf.
  assert (forall x, x < 4096 + file_len a -> v' x = v x
      \/ (4096 + file_len a - append_tail a <= x /\ v' x = byte_at (f0 ++ r) (x - 4096))) as Hx.
  { intros x Hx. destruct (Ht x) as [E|(w & Hw & Hc & E)]; [by left|right]. destruct (Hf w Hw x Hc) as [F1 F2].
    split; [lia|]. unfold covers in Hc. rewrite E, F2, H8 by lia. f_equal. lia. }
  split.
  - exists l. splits; [done|done|]. intros i Hi. destruct (Hx i) as [E|E]; [lia|by rewrite E, L3|lia].
  - intros i Hi. destruct (Hx (4096 + i)) as [E|[_ E]]; [lia|by rewrite E, P|].
    rewrite E, byte_at_app by lia. rewrite (proj2 (Z.ltb_lt _ _)) by lia. f_equal. lia.
Qed.

(** C21 (safety): a crash while [sync] writes data loses nothing that was
    synced before.  Whatever bytes of whatever of its data writes have
    reached the volume, in whatever order, opening the volume again gives
    exactly the file that was on it before, because the length in the head
    page changes only after all data writes are done. *)
Theorem crash_in_sync_keeps (env env' : nat -> io_result) (f f0 : list Z) (a : PfAof) (d d1 d2 : disk) (size rc : Z)
    (buf : list Z) (ws : list (io_result * Z * list Z))
    (Hsubmit : forall n, io_submit (env n) = 0) (Hholds : holds f a (dk_bytes d)) (Hprefix : f0 `prefix_of` f)
    (Hbefore : persisted f0 (dk_bytes d)) (Hthrottle : 0 < dk_throttle d)
    (Hloop : sync_loop env (S (Z.to_nat (append_tail a))) a (file_len a - append_tail a) (file_len a - append_tail a + 4096) 0 0
               (append_buf a) d = ret (rc, buf, ws, d1))
    (Htorn : torn ws (dk_bytes d) (dk_bytes d2))
    (Henv : forall n, env' n = mkIo 0 0) (Hthrottle2 : 0 < dk_throttle d2) (Hsize : 0 < size /\ size mod 4096 = 0) :
  exists a' d', aof_open env' (PfAof_new size) d2 = ret (0, a', d') /\ ready f0 a' (dk_bytes d').
Proof.
  pose proof (ho_tail _ _ _ Hholds) as Ht.
  destruct (sync_loop_done env Hsubmit (S (Z.to_nat (append_tail a))) a (file_len a - append_tail a) 0 (append_buf a) d)
    as (buf1 & ws1 & d3 & E & _ & _ & _ & _ & _ & W & _); [lia|done|by eapply holds_at_page|lia|].
  rewrite E in Hloop. injection Hloop as <- <- <- <-.
  pose proof (torn_keeps f0 f a _ _ ws1 Hholds Hprefix Hbefore W Htorn) as P.
  pose proof (ho_bound _ _ _ Hholds) as Hb. rewrite (ho_len _ _ _ Hholds) in Hb. apply prefix_length in Hprefix.
  destruct (open_ready env' Henv f0 size d2) as (a' & d' & E' & R & _); [done|done|lia|lia|lia|]. by exists a', d'.
Qed.

(** ** Errors of the volume *)
Definition all_fail (env : nat -> io_result) : Prop := forall n, io_submit (env n) = 0 /\ io_status (env n) <> 0.

Lemma apply_failed env v ws :
  all_fail env -> Forall (fun w => exists n, w_result w = env n) ws -> apply_writes ws v = v.
Proof.
  intros Hf H. induction H as [|w ws [n E] _ IH]; [done|]. unfold apply_writes in *. cbn [foldl]. unfold written at 2.
  change (fst (fst w)) with (w_result w). rewrite E, (proj2 (Z.eqb_neq _ _)) by apply Hf. done.
Qed.

(** [sync] never notices that its writes fail.  The callback
    stores the status of a request only over an earlier error, and there is
    never a first one, so when every write of the volume completes with an
    error [sync] returns as if it had written: the volume is unchanged and
    whole pages of the buffer are dropped all the same. *)
Theorem sync_ignores_errors (env : nat -> io_result) (f : list Z) (a : PfAof) (d : disk)
    (Hfail : all_fail env) (Hholds : holds f a (dk_bytes d)) (Hthrottle : 0 < dk_throttle d) :
  exists a' d', aof_sync env a d = ret (a', d') /\ dk_bytes d' = dk_bytes d
    /\ file_len a' = file_len a /\ append_tail a' = append_tail a mod 4096.
Proof.
  destruct (sync_runs env (fun n => proj1 (Hfail n)) f a d Hholds Hthrottle) as (buf & ws & k & d' & E & B & _ & _ & _ & W & _).
  eexists _, d'. splits; [exact E| |done|done]. rewrite B. unfold written. rewrite (proj2 (Z.eqb_neq _ _)) by apply Hfail.
  by apply (apply_failed env).
Qed.

Lemma read_loop_failed env n : all_fail env -> forall aoff aend boff buf d,
  aoff mod 4096 = 0 -> aend mod 4096 = 0 -> aend - aoff <= Z.of_nat n -> 0 < dk_throttle d ->
  exists d', read_loop env n aoff aend boff 0 buf d = ret (Some 0, buf, d') /\ dk_bytes d' = dk_bytes d.
Proof.
  intros Hf. induction n as [|n IH]; intros aoff aend boff buf d Ho He Hn Hd; cbn [read_loop];
    destruct (Z.leb_spec aend aoff); try lia; try by exists d.
  rewrite land_seg. change SEG_SIZE with 131072. set (next := aoff + 131072 - (aoff + 131072) mod 131072).
  assert (aoff < next /\ next mod 4096 = 0) as [Hn1 Hn2] by (unfold next; mlia). clearbody next. set (io := Z.min aend next - aoff).
  assert (0 < io /\ io mod 4096 = 0) as [I1 I3] by (unfold io; mlia). clearbody io.
  rewrite submit_accepted by (try apply Hf; done). rstep. destruct (Hf (dk_next d)) as [F1 F2]. rewrite F1. cbn [negb Z.eqb].
  unfold read_into. rewrite (proj2 (Z.eqb_neq _ _)) by done. rstep. rewrite io_cbk_0.
  destruct (IH (aoff + io) aend (boff + io) buf (mkDisk (dk_bytes d) (dk_throttle d) (S (dk_next d)))) as (d' & E & B); [mlia|done|lia|done|].
  by exists d'.
Qed.

(** [read] of whole pages that are on the volume returns the full length and
    leaves the caller's buffer as it was when the volume cannot read *)
Theorem read_ignores_errors (env : nat -> io_result) (f : list Z) (a : PfAof) (buf read_buf : list Z) (len offset : Z) (d : disk) :
  all_fail env -> holds f a (dk_bytes d) -> 0 < dk_throttle d -> 0 <= offset -> 0 < len ->
  offset mod 4096 = 0 -> len mod 4096 = 0 -> offset + len <= file_len a - append_tail a ->
  exists d', aof_read env a buf read_buf len offset d = ret (len, buf, d').
Proof.
  intros Hf H Hd Ho Hl Hom Hlm Hb. pose proof (ho_tail _ _ _ H) as Ht. unfold aof_read.
  rewrite (proj2 (Z.leb_gt _ _)), (proj2 (Z.ltb_ge _ _)) by lia. unfold read_buffered.
  rewrite (proj2 (Z.ltb_ge _ _)) by lia. rstep. rewrite bool_decide_false by done. rewrite bool_decide_false by (intros [? [=]]).
  cbn [andb from_option]. unfold id, read_volume, DOWN_ALIGN_4K, UP_ALIGN_4K.
  rewrite !Z.rem_mod_nonneg, !land_page, !land_rest by lia.
  rewrite (proj2 (Z.eqb_eq ((offset + 4096) mod 4096) 0)), (proj2 (Z.eqb_eq ((offset + 4096 + (len - 0)) mod 4096) 0)) by mlia. rstep.
  cbn [negb andb]. rstep. rewrite io_cbk_0.
  match goal with |- context [read_loop env ?n ?o ?e ?b 0 buf d] =>
    destruct (read_loop_failed env n Hf o e b buf d) as (d' & E & _); [mlia|mlia|lia|done|] end.
  rewrite E. rstep. cbn [negb Z.eqb copy_page]. rstep. by exists d'.
Qed.

Lemma empty_loop env a d :
  append_tail a = 0 ->
  sync_loop env (S (Z.to_nat (append_tail a))) a (file_len a - append_tail a) (file_len a - append_tail a + 4096) 0 0 (append_buf a) d
  = ret (0, append_buf a, [], d).
Proof. intros ->. rewrite Z.sub_0_r. cbn [sync_loop Z.to_nat]. by rewrite Z.leb_refl. Qed.

(** [sync] with nothing in the buffer writes the head *)
Lemma sync_empty env a d :
  (forall n, io_submit (env n) = 0) -> append_tail a = 0 -> 0 < dk_throttle d ->
  aof_sync env a d = ret (mkAof (append_buf a) 0 (file_len a) (set_head_length (file_len a) (head_buf a)) (append_buf_size a),
    mkDisk (written (env (dk_next d)) 0 (set_head_length (file_len a) (head_buf a)) (dk_bytes d)) (dk_throttle d) (S (dk_next d))).
Proof.
  intros Hs Ht Hd. unfold aof_sync. rewrite empty_loop by done. rstep. cbn [negb Z.eqb].
  rewrite submit_accepted by (try apply Hs; done). rstep. rewrite Hs. cbn [negb Z.eqb]. rewrite io_cbk_0, Ht. done.
Qed.

(** [sync] does not look at the result of submitting the write of the head:
    when the volume refuses it, nobody posts the semaphore it waits for *)
Theorem sync_head_refused_blocks (env : nat -> io_result) (a : PfAof) (d : disk) :
  append_tail a = 0 -> 0 < dk_throttle d -> io_submit (env (dk_next d)) <> 0 -> aof_sync env a d = Done None.
Proof.
  intros Ht Hd Hs. unfold aof_sync. rewrite empty_loop by done. rstep. cbn [negb Z.eqb].
  unfold submit. cbn [dk_throttle set_bytes apply_writes foldl dk_next]. rewrite (proj2 (Z.leb_gt _ _)) by lia. rstep.
  by rewrite (proj2 (Z.eqb_neq _ _)).
Qed.

(** Opening a file of another version empties it.  [open]
    refuses the head page, but the object that is then deleted syncs first:
    it writes the head page it has read back to the volume, with the length
    an object starts with, which is 0. *)
Theorem refused_open_empties_file (env : nat -> io_result) (l : list Z) (size : Z) (d : disk)
    (Henv : forall n, env n = mkIo 0 0) (Hthrottle : 0 < dk_throttle d) (Hpage : length l = 4096%nat)
    (Hvol : forall i, 0 <= i < 4096 -> dk_bytes d i = byte_at l i)
    (Hmagic : head_magic l = AOF_MAGIC) (Hversion : head_version l <> AOF_VER) :
  exists a d1 a2 d2, aof_open env (PfAof_new size) d = ret (- EINVAL, a, d1) /\ dk_bytes d1 = dk_bytes d
    /\ aof_sync env a d1 = ret (a2, d2)
    /\ forall i, dk_bytes d2 i = if (8 <=? i) && (i <? 16) then 0 else dk_bytes d i.
Proof.
  unfold aof_open.
  destruct (sync_read_good env Henv (head_buf (PfAof_new size)) 4096 0 d) as (h & d1 & E1 & L1 & B1 & T1 & Y1); [done|done|].
  assert (h = l) as ->.
  { apply byte_at_ext; [rewrite L1, Hpage; done|]. intros i Hi. assert (length (head_buf (PfAof_new size)) = 4096%nat) as Hh by done.
    rewrite Y1, Z.add_0_l by lia. apply Hvol. lia. }
  rewrite E1. rstep. rewrite Hmagic, Z.eqb_refl. cbn [Z.leb Z.compare negb orb]. rewrite (proj2 (Z.eqb_neq _ _)) by done. cbn [negb].
  eexists _, d1, _, _. split; [reflexivity|]. split; [done|].
  rewrite sync_empty by (first [done|by intros; rewrite Henv|lia]). split; [reflexivity|]. intros i. cbn [dk_bytes head_buf file_len PfAof_new].
  unfold written. rewrite Henv. cbn [io_status Z.eqb]. rewrite B1.
  assert (length (set_head_length 0 l) = 4096%nat) as Hs by (unfold set_head_length; rewrite !length_app, le_length, length_take, length_drop; lia).
  destruct (Z.leb_spec 0 i), (Z.ltb_spec i 4096).
  2-4: rewrite vol_write_out by lia; destruct (Z.leb_spec 8 i), (Z.ltb_spec i 16); try lia; done.
  rewrite vol_write_in, Z.sub_0_r by lia. unfold set_head_length. rewrite byte_at_app, length_take by lia.
  replace (Z.of_nat (8 `min` length l)) with 8 by lia. rewrite Hvol by lia.
  destruct (Z.ltb_spec i 8), (Z.leb_spec 8 i); try lia; cbn [andb]; [by rewrite byte_at_take by lia|].
  rewrite byte_at_app, le_length by lia. destruct (Z.ltb_spec (i - 8) (Z.of_nat 8)), (Z.ltb_spec i 16); try lia.
  - assert (i = 8 \/ i = 9 \/ i = 10 \/ i = 11 \/ i = 12 \/ i = 13 \/ i = 14 \/ i = 15) as Hi by lia.
    repeat destruct Hi as [->|Hi]; try done. by rewrite Hi.
  - rewrite byte_at_drop by lia. f_equal. lia.
Qed.

Definition newer_page : list Z := le 4 AOF_MAGIC ++ le 4 (AOF_VER + 1) ++ le 8 77 ++ replicate 4080 5.

Lemma refused_open_empties_file_witness :
  exists a d1 a2 d2, aof_open (fun _ => mkIo 0 0) (PfAof_new 4096) (mkDisk (byte_at newer_page) 24 0) = ret (- EINVAL, a, d1)
    /\ dk_bytes d1 = byte_at newer_page /\ aof_sync (fun _ => mkIo 0 0) a d1 = ret (a2, d2)
    /\ forall i, dk_bytes d2 i = if (8 <=? i) && (i <? 16) then 0 else byte_at newer_page i.
Proof. by apply (refused_open_empties_file (fun _ => mkIo 0 0) newer_page 4096 (mkDisk (byte_at newer_page) 24 0)). Defined.

Fixpoint sync_reads (env : nat -> io_result) (n : nat) (buf : list Z) (off : Z) (d : disk) : run disk :=
  match n with
  | O => ret d
  | S n => let? (rc, buf, d) := sync_read env buf 4096 off d in sync_reads env n buf off d
  end.

(** every refused request keeps a token of the throttle of the volume, and
    without tokens the next request waits forever *)
Theorem refused_requests_block (env : nat -> io_result) (buf : list Z) (off : Z) (n : nat) (d : disk) :
  (forall k, io_submit (env k) <> 0) -> dk_throttle d = Z.of_nat n ->
  exists d', sync_reads env n buf off d = ret d' /\ sync_read env buf 4096 off d' = Done None.
Proof.
  intros Hs. revert d. induction n as [|n IH]; intros d Ht; cbn [sync_reads]; unfold sync_read at 1, submit at 1.
  - exists d. split; [done|]. unfold sync_read, submit. by rewrite (proj2 (Z.leb_le _ _)) by lia.
  - rewrite (proj2 (Z.leb_gt _ _)) by lia. rstep. rewrite (proj2 (Z.eqb_neq _ _)) by done. cbn [negb]. rstep. apply IH. cbn. lia.
Qed.

(** *** An example file: whole pages in the buffer *)
Definition example_file (n v : Z) : PfAof := mkAof (replicate (Z.to_nat n) v) n n head_page n.

Lemma example_holds n v w : 0 < n < 2 ^ 62 -> n mod 4096 = 0 -> holds (replicate (Z.to_nat n) v) (example_file n v) w.
Proof.
  intros Hn Hm. split; cbn [example_file file_len append_tail append_buf append_buf_size head_buf]; rewrite ?length_replicate; try lia.
  - by rewrite Z.sub_diag.
  - apply head_page_good.
  - intros i Hi. f_equal. lia.
Qed.

Lemma sync_ignores_errors_witness :
  exists a' d', aof_sync (fun _ => mkIo 0 (-5)) (example_file 8192 7) (mkDisk (fun _ => 0) 24 0) = ret (a', d')
    /\ dk_bytes d' = (fun _ => 0) /\ file_len a' = 8192 /\ append_tail a' = 0.
Proof.
  apply (sync_ignores_errors (fun _ => mkIo 0 (-5)) (replicate (Z.to_nat 8192) 7) (example_file 8192 7) (mkDisk (fun _ => 0) 24 0));
    [by intros n|by apply example_holds|done].
Defined.

(** three bytes of which two are synced *)
Definition volume_of (l : list Z) : Z -> Z := fun x => byte_at (set_head_length 2 head_page ++ l) x.

Definition example_open : PfAof := mkAof ([1; 2; 3] ++ zeros 4093) 3 3 (set_head_length 2 head_page) 4096.

Lemma volume_of_page l i : 0 <= i -> volume_of l (4096 + i) = byte_at l i.
Proof. intros Hi. unfold volume_of. rewrite byte_at_app by lia. change (Z.of_nat (length _)) with 4096. rewrite (proj2 (Z.ltb_ge _ _)) by lia. f_equal. lia. Qed.

Lemma example_open_holds : holds [1; 2; 3] example_open (volume_of [1; 2]).
Proof.
  split.
  1-6: first [done|by split|by vm_compute].
  - apply set_head_length_good; [apply head_page_good|done].
  - intros i Hi. cbn in Hi. assert (i = 0 \/ i = 1 \/ i = 2) as [-> | [-> | ->]] by lia; done.
  - intros i Hi. cbn in Hi. lia.
Qed.

Lemma example_open_persisted : persisted [1; 2] (volume_of [1; 2]).
Proof.
  destruct (set_head_length_good 2 head_page) as [G1 G2]; [apply head_page_good|done|]. split.
  - exists (set_head_length 2 head_page). splits; [done|done|]. intros i Hi. unfold volume_of. rewrite byte_at_app by lia.
    change (Z.of_nat (length _)) with 4096. by rewrite (proj2 (Z.ltb_lt _ _)) by lia.
  - intros i Hi. apply volume_of_page. lia.
Qed.

Lemma example_open_torn :
  torn [(mkIo 0 0, 4096, append_buf example_open)] (volume_of [1; 2]) (volume_of [1; 2; 3]).
Proof.
  intros x. destruct (decide (x = 4098)) as [->|Hx].
  - right. eexists. split; [by left|]. split; [done|]. done.
  - left. unfold volume_of, byte_at. destruct (Z.leb_spec 0 x); [|done]. change [1; 2; 3] with ([1; 2] ++ [3]). rewrite app_assoc.
    destruct (Nat.lt_ge_cases (Z.to_nat x) (length (set_head_length 2 head_page ++ [1; 2]))) as [Hl|Hl]; [by rewrite app_nth1|].
    rewrite (nth_overflow _ _ Hl). apply nth_overflow.
    assert (Z.of_nat (length (set_head_length 2 head_page ++ [1; 2])) = 4098) as E by done.
    rewrite (length_app _ [3]). change (length [3]) with 1%nat. lia.
Qed.

Lemma crash_in_sync_keeps_witness :
  exists a' d', aof_open (fun _ => mkIo 0 0) (PfAof_new 4096) (mkDisk (volume_of [1; 2; 3]) 24 0) = ret (0, a', d')
    /\ ready [1; 2] a' (dk_bytes d').
Proof.
  apply (crash_in_sync_keeps (fun _ => mkIo 0 0) (fun _ => mkIo 0 0) [1; 2; 3] [1; 2] example_open
           (mkDisk (volume_of [1; 2]) 24 0) (mkDisk (volume_of [1; 2]) 24 1) (mkDisk (volume_of [1; 2; 3]) 24 0) 4096 0
           (append_buf example_open) [(mkIo 0 0, 4096, append_buf example_open)]); try done.
  - apply example_open_holds.
  - by exists [3].
  - apply example_open_persisted.
  - apply example_open_torn.
Defined.
