(* ===== verification/AofCache.v ===== *)
(** * The read cache of append-only files

    Model of src/common/src/pf_aof_cache.cpp and
    src/common/include/pf_aof_cache.h: eight slots of 64K in front of
    [PfAof::read].  The lock of a slot is the number of its shared owners;
    [None] is a call that waits for it forever.  Sizes that the code adds up
    in [size_t] are integers here: a negative one stands for the number it
    wraps around to, which as an offset into a buffer leads in front of it.
    The statistics of hits are not kept, apart from the counter of a slot
    that indexes them. *)

From Stdlib Require Import ZArith Lia.
From stdpp Require Import base tactics list numbers.
From S2P Require Import Prelude Bytes Runs Aof AofProps AofFile.

Definition SLOT_CNT : Z := 8.
Definition SLOT_SIZE : Z := Z.shiftl 64 10.
Definition SLOT_SIZE_MASK : Z := SLOT_SIZE - 1.
Definition OFF2SLOT (x : Z) : Z := Z.rem (Z.quot x SLOT_SIZE) SLOT_CNT.
Definition ALIGN_ON_SLOT (offset : Z) : Z := Z.land offset (Z.lnot SLOT_SIZE_MASK).

Record CacheLine : Type := mkLine {
  off_in_file : Z;
  cl_buf : list Z;
  hit_cnt : Z;
  cl_readers : Z
}.

Record AofWindowCache : Type := mkCache { slots : list CacheLine; prefetch : bool }.

(** [CacheLine::init], on memory that holds [m] *)
Definition line_init (m : list Z) : CacheLine := mkLine (-1) m 0 0.

Definition cache_init (ms : list (list Z)) (_prefetch : bool) : AofWindowCache := mkCache (line_init <$> ms) _prefetch.

Definition lock_shared (c : CacheLine) : CacheLine := mkLine (off_in_file c) (cl_buf c) (hit_cnt c) (cl_readers c + 1).
Definition unlock_shared (c : CacheLine) : CacheLine := mkLine (off_in_file c) (cl_buf c) (hit_cnt c) (cl_readers c - 1).

Section Cache.
Variable env : nat -> io_result.
Variable read_buf : list Z.   (* the memory [read] allocates *)

Definition fetch_data (a : PfAof) (c : CacheLine) (offset : Z) (d : disk) : run (Z * CacheLine * disk) :=
  if negb (cl_readers c =? 0) then Done None
  else if off_in_file c =? offset then ret (0, c, d)
  else
    let? (rc, buf, d) := aof_read env a (cl_buf c) read_buf SLOT_SIZE offset d in
    if 0 <=? rc then ret (0, mkLine offset buf 0 (cl_readers c), d)
    else ret (rc, mkLine (-1) buf (hit_cnt c) (cl_readers c), d).

(** the future [std::async] returns is dropped at once, which waits for the
    thread that runs [fetch_data] *)
Definition bg_fetch_data (a : PfAof) (c : CacheLine) (offset : Z) (d : disk) : run (CacheLine * disk) :=
  let c := lock_shared c in
  let? (c, d) :=
    (if negb (Z.land offset (Z.lnot SLOT_SIZE_MASK) =? off_in_file c) then
       let? (rc, c, d) := fetch_data a c (Z.land offset (Z.lnot SLOT_SIZE_MASK)) d in ret (c, d)
     else ret (c, d)) in
  ret (unlock_shared c, d).

(** [CacheLine::pread] into the caller's buffer at [at_] *)
Fixpoint line_pread (n : nat) (a : PfAof) (c : CacheLine) (buf : list Z) (at_ len offset : Z) (d : disk)
    : run (Z * CacheLine * list Z * disk) :=
  let c := lock_shared c in
  if negb (ALIGN_ON_SLOT offset =? off_in_file c) then
    match n with
    | O => Done None
    | S n =>
        let c := unlock_shared c in
        if hit_cnt c <? 0 then Undef
        else
          let? (rc, c, d) := fetch_data a c (ALIGN_ON_SLOT offset) d in
          if negb (rc =? 0) then ret (rc, c, buf, d) else line_pread n a c buf at_ len offset d
    end
  else if hit_cnt c =? 2 ^ 31 - 1 then Undef
  else
    let c := mkLine (off_in_file c) (cl_buf c) (hit_cnt c + 1) (cl_readers c) in
    let l := Z.min len (SLOT_SIZE - (offset - off_in_file c)) in
    let? x := lift (get_at (offset - off_in_file c) l (cl_buf c)) in
    let? buf := lift (put_at at_ x buf) in
    ret (l, unlock_shared c, buf, d).

(** the loop of [AofWindowCache::pread] *)
Fixpoint window_loop (n : nat) (a : PfAof) (ss : list CacheLine) (buf : list Z) (readed remain offset : Z) (d : disk)
    : run (list CacheLine * list Z * Z * disk) :=
  if remain =? 0 then ret (ss, buf, offset, d)
  else
    match n with
    | O => Done None
    | S n =>
        match ss !! Z.to_nat (OFF2SLOT offset) with
        | None => Undef
        | Some c =>
            let? (sz, c, buf, d) := line_pread 1 a c buf readed remain offset d in
            window_loop n a (<[Z.to_nat (OFF2SLOT offset) := c]> ss) buf (readed + sz) (remain - sz) (offset + sz) d
        end
    end.

Definition window_pread (a : PfAof) (w : AofWindowCache) (buf : list Z) (len offset : Z) (d : disk)
    : run (Z * AofWindowCache * list Z * disk) :=
  if file_len a <=? offset then ret (0, w, buf, d)
  else
    let len := if file_len a <? offset + len then file_len a - offset else len in
    let? (ss, buf, offset, d) := window_loop (Z.to_nat len) a (slots w) buf 0 len offset d in
    if prefetch w && (ALIGN_ON_SLOT (offset + SLOT_SIZE) <=? offset + Z.quot SLOT_SIZE 2) then
      match ss !! Z.to_nat (OFF2SLOT (offset + SLOT_SIZE)) with
      | None => Undef
      | Some c =>
          let? (c, d) := bg_fetch_data a c (ALIGN_ON_SLOT (offset + SLOT_SIZE)) d in
          ret (len, mkCache (<[Z.to_nat (OFF2SLOT (offset + SLOT_SIZE)) := c]> ss) (prefetch w), buf, d)
      end
    else ret (len, mkCache ss (prefetch w), buf, d).
End Cache.

(** ** Slots *)
Lemma align_slot x : ALIGN_ON_SLOT x = x - x mod 65536.
Proof. apply (land_lnot_ones x 16). lia. Qed.

Lemma off2slot x : 0 <= x -> OFF2SLOT x = (x / 65536) mod 8.
Proof. intros Hx. unfold OFF2SLOT. change SLOT_SIZE with 65536. change SLOT_CNT with 8. rewrite Z.quot_div_nonneg, Z.rem_mod_nonneg; mlia. Qed.

(** a slot holds the bytes of the file at its place *)
Record line_ok (f : list Z) (c : CacheLine) : Prop := mkLineOk {
  li_len : Z.of_nat (length (cl_buf c)) = 65536;
  li_readers : cl_readers c = 0;
  li_hits : 0 <= hit_cnt c;
  li_off : off_in_file c = -1 \/ (0 <= off_in_file c /\ off_in_file c mod 65536 = 0);
  li_bytes : 0 <= off_in_file c -> forall i, 0 <= i < 65536 -> off_in_file c + i < Z.of_nat (length f) ->
             byte_at (cl_buf c) i = byte_at f (off_in_file c + i)
}.

(** a miss fetches and reads again, or fails *)
Lemma line_miss env read_buf n a c c1 buf at_ len off rc d d1 :
  off_in_file c <> ALIGN_ON_SLOT off -> 0 <= hit_cnt c -> fetch_data env read_buf a c (ALIGN_ON_SLOT off) d = ret (rc, c1, d1) ->
  line_pread env read_buf (S n) a c buf at_ len off d
  = if negb (rc =? 0) then ret (rc, c1, buf, d1) else line_pread env read_buf n a c1 buf at_ len off d1.
Proof.
  intros Ho Hh E. cbn [line_pread]. cbn [lock_shared off_in_file]. rewrite (proj2 (Z.eqb_neq _ _)) by done. cbn [negb].
  replace (unlock_shared _) with c by (destruct c; unfold unlock_shared, lock_shared; cbn; f_equal; lia).
  rewrite (proj2 (Z.ltb_ge _ _)) by done. rewrite E. done.
Qed.

Section Good.
Variable env : nat -> io_result.
Variable read_buf : list Z.
Hypothesis good : forall n, env n = mkIo 0 0.
Hypothesis read_buf_len : Z.of_nat (length read_buf) = 8192.

Lemma fetch_good f a c off d :
  holds f a (dk_bytes d) -> line_ok f c -> 0 < dk_throttle d -> 0 <= off -> off mod 65536 = 0 ->
  exists c' d', fetch_data env read_buf a c off d = ret (0, c', d') /\ line_ok f c' /\ off_in_file c' = off
    /\ hit_cnt c' <= hit_cnt c /\ dk_bytes d' = dk_bytes d /\ dk_throttle d' = dk_throttle d.
Proof.
  intros H [L1 L2 L3 L4 L5] Hd Ho Hm. unfold fetch_data. rewrite L2. cbn [negb Z.eqb].
  destruct (Z.eqb_spec (off_in_file c) off) as [E|E]; [exists c, d; splits; try done; lia|].
  destruct (read_good_bytes env good f a (cl_buf c) read_buf SLOT_SIZE off d) as (buf & d' & E1 & B1 & T1 & N1 & Y1);
    [done|done|change SLOT_SIZE with 65536; lia|done|done|].
  rewrite E1. rstep. rewrite (proj2 (Z.leb_le _ _)) by lia. eexists _, d'. splits; [reflexivity| |done|done|done|done].
  split; cbn [off_in_file cl_buf hit_cnt cl_readers]; [lia|done|lia|by right|]. intros _ i Hi Hf. rewrite Y1 by lia.
  rewrite slice_length by (change SLOT_SIZE with 65536; lia). change SLOT_SIZE with 65536. rewrite (proj2 (Z.leb_gt _ _)) by lia.
  by rewrite (proj2 (Z.ltb_lt _ _)) by lia.
Qed.

(** a hit copies from the slot, whatever the file is *)
Lemma line_hit n a c buf at_ len off d :
  off_in_file c = ALIGN_ON_SLOT off -> Z.of_nat (length (cl_buf c)) = 65536 -> 0 <= hit_cnt c < 2 ^ 31 - 1 -> 0 <= off ->
  0 <= len -> 0 <= at_ -> at_ + len <= Z.of_nat (length buf) ->
  let k := Z.min len (65536 - off mod 65536) in
  exists buf', line_pread env read_buf n a c buf at_ len off d
      = ret (k, mkLine (off_in_file c) (cl_buf c) (hit_cnt c + 1) (cl_readers c), buf', d)
    /\ length buf' = length buf
    /\ forall i, 0 <= i -> byte_at buf' i = if (at_ <=? i) && (i <? at_ + k) then byte_at (cl_buf c) (off mod 65536 + (i - at_)) else byte_at buf i.
Proof.
  intros E L Hh Ho Hl Ha Hb k. assert (off - off_in_file c = off mod 65536) as Hoff by (rewrite E, align_slot; lia).
  assert (0 <= k <= len /\ off mod 65536 + k <= 65536) as [K1 K2] by (unfold k; mlia).
  destruct (get_at_done (off mod 65536) k (cl_buf c)) as (x & E1 & L1 & Y1); [mlia|lia|lia|].
  destruct (put_at_done at_ x buf) as (buf' & E2 & L2 & Y2); [lia|lia|]. exists buf'. split; [|split; [done|]].
  - destruct n; cbn [line_pread lock_shared off_in_file hit_cnt cl_buf cl_readers]; rewrite <- E, Z.eqb_refl; cbn [negb];
      rewrite (proj2 (Z.eqb_neq _ _)) by lia; rewrite Hoff; change (Z.min len (SLOT_SIZE - off mod 65536)) with k;
      rewrite E1; rstep; rewrite E2; rstep; unfold unlock_shared; cbn [off_in_file hit_cnt cl_buf cl_readers];
      by replace (cl_readers c + 1 - 1) with (cl_readers c) by lia.
  - intros i Hi. rewrite Y2, L1 by done. destruct (Z.leb_spec at_ i), (Z.ltb_spec i (at_ + k)); cbn [andb]; try done. apply Y1. lia.
Qed.

Lemma line_pread_good f a c buf at_ len off d :
  holds f a (dk_bytes d) -> line_ok f c -> 0 < dk_throttle d -> hit_cnt c < 2 ^ 31 - 1 -> 0 <= off -> 0 <= len -> 0 <= at_ ->
  at_ + len <= Z.of_nat (length buf) -> off + len <= Z.of_nat (length f) ->
  let k := Z.min len (65536 - off mod 65536) in
  exists c' buf' d', line_pread env read_buf 1 a c buf at_ len off d = ret (k, c', buf', d')
    /\ line_ok f c' /\ off_in_file c' = ALIGN_ON_SLOT off /\ hit_cnt c' <= hit_cnt c + 1 /\ dk_bytes d' = dk_bytes d /\ dk_throttle d' = dk_throttle d
    /\ length buf' = length buf
    /\ forall i, 0 <= i -> byte_at buf' i = if (at_ <=? i) && (i <? at_ + k) then byte_at f (off + (i - at_)) else byte_at buf i.
Proof.
  intros H L Hd Hh Ho Hl Ha Hb Hf k.
  assert (forall n c d, line_ok f c -> off_in_file c = ALIGN_ON_SLOT off -> hit_cnt c < 2 ^ 31 - 1 ->
    exists c' buf', line_pread env read_buf n a c buf at_ len off d = ret (k, c', buf', d) /\ line_ok f c' /\ off_in_file c' = ALIGN_ON_SLOT off /\ hit_cnt c' = hit_cnt c + 1
      /\ length buf' = length buf
      /\ forall i, 0 <= i -> byte_at buf' i = if (at_ <=? i) && (i <? at_ + k) then byte_at f (off + (i - at_)) else byte_at buf i) as Hit.
  { intros n c1 d1 [L1 L2 L3 L4 L5] E Hh1. destruct (line_hit n a c1 buf at_ len off d1) as (buf' & E1 & N1 & Y1); try done.
    eexists _, buf'. splits; [exact E1| |done|done|done|].
    - split; cbn [off_in_file cl_buf hit_cnt cl_readers]; try done. lia.
    - intros i Hi. rewrite Y1 by done. unfold k.
      destruct (Z.leb_spec at_ i), (Z.ltb_spec i (at_ + Z.min len (65536 - off mod 65536))); cbn [andb]; try done. rewrite align_slot in E. clear k.
      assert (0 <= off mod 65536 < 65536 /\ off mod 65536 <= off) as Hm by mlia. rewrite L5 by (rewrite ?E; lia). f_equal. lia. }
  destruct (Z.eq_dec (off_in_file c) (ALIGN_ON_SLOT off)) as [E|E].
  - destruct (Hit 1%nat c d L E Hh) as (c' & buf' & E1 & P1 & P0 & P2 & P3 & P4). exists c', buf', d. splits; try done. lia.
  - destruct (fetch_good f a c (ALIGN_ON_SLOT off) d H L Hd) as (c1 & d1 & E1 & F1 & F2 & F3 & F4 & F5); [rewrite align_slot; mlia..|].
    destruct (Hit O c1 d1 F1 F2 ltac:(lia)) as (c' & buf' & E2 & P1 & P0 & P2 & P3 & P4).
    exists c', buf', d1. splits; try done; [|lia]. rewrite (line_miss env read_buf O a c c1 buf at_ len off 0 d d1); [done|done|apply L|done].
Qed.

(** the slots of a cache, with hit counters that [n] more reads fit *)
Record slots_ok (f : list Z) (n : Z) (ss : list CacheLine) : Prop := mkSlotsOk {
  sl_len : length ss = 8%nat;
  sl_lines : Forall (line_ok f) ss;
  sl_hits : Forall (fun c => hit_cnt c + n < 2 ^ 31) ss
}.

Lemma window_loop_good f a n : forall ss buf readed remain off d,
  holds f a (dk_bytes d) -> slots_ok f remain ss -> 0 < dk_throttle d -> 0 <= off -> 0 <= readed -> 0 <= remain <= Z.of_nat n ->
  readed + remain <= Z.of_nat (length buf) -> off + remain <= Z.of_nat (length f) ->
  exists ss' buf' d', window_loop env read_buf n a ss buf readed remain off d = ret (ss', buf', off + remain, d')
    /\ slots_ok f 0 ss' /\ dk_bytes d' = dk_bytes d /\ dk_throttle d' = dk_throttle d /\ length buf' = length buf
    /\ (forall j c, ss' !! j = Some c -> off_in_file c < off + remain
          \/ exists c0, ss !! j = Some c0 /\ off_in_file c = off_in_file c0)
    /\ forall i, 0 <= i -> byte_at buf' i = if (readed <=? i) && (i <? readed + remain) then byte_at f (off + (i - readed)) else byte_at buf i.
Proof.
  induction n as [|n IH]; intros ss buf readed remain off d H [S1 S2 S3] Hd Ho Hr Hn Hb Hf; cbn [window_loop];
    destruct (Z.eqb_spec remain 0) as [->|Hne]; try lia.
  1,2: exists ss, buf, d; rewrite Z.add_0_r; splits; try done; [by intros j c; eauto|]; intros i Hi;
    destruct (Z.leb_spec readed i), (Z.ltb_spec i (readed + 0)); try lia; done.
  destruct (lookup_lt_is_Some_2 ss (Z.to_nat (OFF2SLOT off))) as [c Hc]; [rewrite S1, off2slot by done; mlia|]. rewrite Hc.
  pose proof (Forall_lookup_1 _ _ _ _ S2 Hc) as Lc. pose proof (Forall_lookup_1 _ _ _ _ S3 Hc) as Hcc. cbn beta in Hcc.
  destruct (line_pread_good f a c buf readed remain off d) as (c1 & buf1 & d1 & E1 & P1 & P0 & P2 & P3 & P4 & P5 & P6); [done|done|done|lia..|].
  rewrite E1. rstep. set (k := Z.min remain (65536 - off mod 65536)) in *.
  assert (0 < k <= remain) as Hk by (unfold k; mlia). clearbody k.
  destruct (IH (<[Z.to_nat (OFF2SLOT off) := c1]> ss) buf1 (readed + k) (remain - k) (off + k) d1) as (ss' & buf' & d' & E2 & Q1 & Q2 & Q3 & Q4 & Q6 & Q5);
    [by rewrite P3| |lia..|].
  { split; [by rewrite length_insert|by apply Forall_insert|]. apply Forall_insert; [|lia].
    eapply Forall_impl; [|exact S3]. intros x. cbn beta. lia. }
  replace (off + k + (remain - k)) with (off + remain) in E2 by lia.
  exists ss', buf', d'. splits; [done|done|by rewrite Q2|lia|lia| |].
  { intros j c2 Hj. destruct (Q6 j c2 Hj) as [Q|(c0 & Hc0 & Q)]; [left; lia|].
    apply list_lookup_insert_Some in Hc0 as [(_ & <- & _)|[_ Hc0]]; [|right; by exists c0].
    left. rewrite Q, P0, align_slot. mlia. }
  intros i Hi. rewrite Q5, P6 by done.
  destruct (Z.leb_spec (readed + k) i), (Z.ltb_spec i (readed + k + (remain - k))), (Z.leb_spec readed i), (Z.ltb_spec i (readed + remain)),
    (Z.ltb_spec i (readed + k)); try lia; cbn [andb]; try done; f_equal; lia.
Qed.
End Good.


(** Reading ahead never returns.  [bg_fetch_data] holds the lock
    of the slot shared when it starts the thread that fetches the data and
    drops the future at once, which waits for that thread; the thread waits
    for the lock.  So with [prefetch] any read that ends in the second half
    of a slot waits forever when the slot after it is not cached yet. *)
Theorem prefetch_never_returns (env : nat -> io_result) (read_buf : list Z) (f : list Z) (a : PfAof) (w : AofWindowCache)
    (buf : list Z) (len offset : Z) (d : disk)
    (Henv : forall n, env n = mkIo 0 0) (Hread_buf : Z.of_nat (length read_buf) = 8192)
    (Hholds : holds f a (dk_bytes d)) (Hslots : slots_ok f len (slots w)) (Hprefetch : prefetch w = true)
    (Hthrottle : 0 < dk_throttle d) (Hoff : 0 <= offset) (Hlen : 0 <= len <= Z.of_nat (length buf))
    (Hend : offset < offset + len <= file_len a) (Hhalf : 32768 <= (offset + len) mod 65536)
    (Hmiss : forall c, c ∈ slots w -> off_in_file c <> offset + len + 65536 - (offset + len) mod 65536) :
  window_pread env read_buf a w buf len offset d = Done None.
Proof.
  unfold window_pread. rewrite (proj2 (Z.leb_gt _ _)), (proj2 (Z.ltb_ge _ _)) by lia.
  destruct (window_loop_good env read_buf Henv Hread_buf f a (Z.to_nat len) (slots w) buf 0 len offset d)
    as (ss & buf1 & d1 & E1 & Q1 & _ & _ & _ & Q5 & _); [done|done|lia..| |].
  { rewrite <- (ho_len _ _ _ Hholds). lia. }
  rewrite E1. rstep. rewrite Hprefetch, align_slot, off2slot by (change SLOT_SIZE with 65536; lia). change SLOT_SIZE with 65536.
  change (Z.quot 65536 2) with 32768. rewrite (proj2 (Z.leb_le _ _)) by mlia. cbn [andb].
  set (e := offset + len) in *. assert (e + 65536 - (e + 65536) mod 65536 = e + 65536 - e mod 65536) as -> by mlia.
  destruct (lookup_lt_is_Some_2 ss (Z.to_nat ((e + 65536) / 65536 mod 8))) as [c Hc]; [rewrite (sl_len _ _ _ Q1); mlia|].
  rewrite Hc. unfold bg_fetch_data. change (Z.land ?x (Z.lnot SLOT_SIZE_MASK)) with (ALIGN_ON_SLOT x).
  pose proof (Forall_lookup_1 _ _ _ _ (sl_lines _ _ _ Q1) Hc) as Lc.
  assert (off_in_file c <> e + 65536 - e mod 65536) as Hne.
  { destruct (Q5 _ c Hc) as [Q|(c0 & Hc0 & Q)]; [mlia|]. rewrite Q. apply Hmiss. by eapply list_elem_of_lookup_2. }
  cbn [lock_shared off_in_file]. rewrite align_slot.
  rewrite (proj2 (Z.eqb_neq _ _)) by (intros E; apply Hne; rewrite <- E; mlia). cbn [negb]. unfold fetch_data.
  cbn [cl_readers lock_shared]. rewrite (li_readers _ _ Lc). done.
Qed.

(** ** Appends behind the cache *)

(** a read that fits the first slot, when that slot is cached *)
Lemma first_slot_hit env read_buf a w c buf len offset d :
  slots w !! O = Some c -> off_in_file c = 0 -> Z.of_nat (length (cl_buf c)) = 65536 -> 0 <= hit_cnt c < 2 ^ 31 - 1 ->
  prefetch w = false -> 0 <= offset -> 0 < len <= Z.of_nat (length buf) -> offset + len <= file_len a -> offset + len <= 65536 ->
  exists w' buf', window_pread env read_buf a w buf len offset d = ret (len, w', buf', d)
    /\ forall i, 0 <= i < len -> byte_at buf' i = byte_at (cl_buf c) (offset + i).
Proof.
  intros Hc Ho Hl Hh Hp Hoff Hlen Hf Hs. unfold window_pread. rewrite (proj2 (Z.leb_gt _ _)), (proj2 (Z.ltb_ge _ _)) by lia.
  destruct (Z.to_nat len) as [|n] eqn:En; [lia|]. cbn [window_loop]. rewrite (proj2 (Z.eqb_neq _ _)) by lia.
  assert (offset mod 65536 = offset) as Hm by (apply Z.mod_small; lia).
  rewrite off2slot by done. replace (Z.to_nat (offset / 65536 mod 8)) with O by (rewrite Z.div_small by lia; done). rewrite Hc.
  destruct (line_hit env read_buf 1 a c buf 0 len offset d) as (buf' & E & L & Y); try done; try lia.
  { rewrite Ho, align_slot. lia. }
  rewrite Hm in *. replace (Z.min len (65536 - offset)) with len in * by lia. rewrite E. rstep. rewrite Z.sub_diag. destruct n; cbn [window_loop Z.eqb]; rstep;
    rewrite Hp; cbn [andb]; eexists _, buf'; (split; [reflexivity|]); intros i Hi; rewrite Y by lia;
    rewrite (proj2 (Z.leb_le _ _)), (proj2 (Z.ltb_lt _ _)) by lia; cbn [andb]; f_equal; lia.
Qed.

Section Stale.
Variable env : nat -> io_result.
Variable read_buf : list Z.
Hypothesis good : forall n, env n = mkIo 0 0.
Hypothesis read_buf_len : Z.of_nat (length read_buf) = 8192.

(** the first read of a short file: behind its end the slot keeps the bytes
    its memory had *)
Lemma first_slot_fetch f a m ms buf d :
  holds f a (dk_bytes d) -> 0 < dk_throttle d -> 0 < Z.of_nat (length f) <= 65536 -> Z.of_nat (length m) = 65536 ->
  Z.of_nat (length f) <= Z.of_nat (length buf) ->
  exists w c buf' d', window_pread env read_buf a (cache_init (m :: ms) false) buf (Z.of_nat (length f)) 0 d
      = ret (Z.of_nat (length f), w, buf', d')
    /\ dk_bytes d' = dk_bytes d /\ dk_throttle d' = dk_throttle d /\ prefetch w = false
    /\ slots w !! O = Some c /\ off_in_file c = 0 /\ Z.of_nat (length (cl_buf c)) = 65536 /\ hit_cnt c = 1
    /\ forall i, Z.of_nat (length f) <= i -> byte_at (cl_buf c) i = byte_at m i.
Proof.
  intros H Hd Hf Hm Hb. pose proof (ho_len _ _ _ H) as Hlen. set (n := Z.of_nat (length f)) in *.
  destruct (read_good_bytes env good f a m read_buf SLOT_SIZE 0 d) as (b1 & d1 & E1 & B1 & T1 & L1 & Y1);
    [done|lia|change SLOT_SIZE with 65536; lia|done|done|].
  rewrite slice_length in * by (try change SLOT_SIZE with 65536; lia). change SLOT_SIZE with 65536 in E1 at 2, Y1.
  fold n in E1, Y1. rewrite (proj2 (Z.leb_gt n 0)) in * by lia. replace (Z.min 65536 (n - 0)) with n in * by lia.
  assert (fetch_data env read_buf a (line_init m) (ALIGN_ON_SLOT 0) d = ret (0, mkLine 0 b1 0 0, d1)) as Ef.
  { unfold fetch_data, line_init. cbn [cl_readers off_in_file cl_buf Z.eqb negb]. change (ALIGN_ON_SLOT 0) with 0. cbn [Z.eqb]. rewrite E1. rstep.
    by rewrite (proj2 (Z.leb_le _ _)) by lia. }
  destruct (line_hit env read_buf 0 a (mkLine 0 b1 0 0) buf 0 n 0 d1) as (buf' & E2 & L2 & Y2); try done; try (cbn [cl_buf]; lia).
  assert (line_pread env read_buf 1 a (line_init m) buf 0 n 0 d = ret (n, mkLine 0 b1 1 0, buf', d1)) as E3.
  { rewrite (line_miss env read_buf 0 a (line_init m) (mkLine 0 b1 0 0) buf 0 n 0 0 d d1) by done. cbn [Z.eqb negb]. rewrite E2.
    cbn [off_in_file cl_buf hit_cnt cl_readers]. change (0 mod 65536) with 0. by replace (Z.min n (65536 - 0)) with n by lia. }
  unfold window_pread. rewrite (proj2 (Z.leb_gt _ _)), (proj2 (Z.ltb_ge _ _)) by lia. destruct (Z.to_nat n) as [|k] eqn:En; [lia|].
  cbn [window_loop]. rewrite (proj2 (Z.eqb_neq _ _)) by lia. change (Z.to_nat (OFF2SLOT 0)) with O.
  change (slots (cache_init (m :: ms) false)) with (line_init m :: (line_init <$> ms)). cbn [lookup list_lookup]. rewrite E3. rstep.
  rewrite Z.sub_diag. destruct k; cbn [window_loop Z.eqb]; rstep; cbn [cache_init prefetch andb];
    (eexists _, (mkLine 0 b1 1 0), buf', d1; splits; [reflexivity|done|done|done|done|done|cbn [cl_buf]; lia|done|];
     intros i Hi; cbn [cl_buf]; rewrite Y1 by lia; by rewrite (proj2 (Z.ltb_ge _ _)) by lia).
Qed.
End Stale.

(** The cache does not see appends.  When a file of less than a
    slot has been read through the cache and bytes are then appended to it,
    a read of the new bytes through the cache reports all of them read but
    gives what the memory of the slot held before it was ever filled. *)
Theorem cache_misses_appends (env : nat -> io_result) (read_buf : list Z) (f l m : list Z) (ms : list (list Z)) (a : PfAof)
    (buf1 buf2 : list Z) (d : disk)
    (Henv : forall n, env n = mkIo 0 0) (Hread_buf : Z.of_nat (length read_buf) = 8192)
    (Hready : ready f a (dk_bytes d)) (Hthrottle : 0 < dk_throttle d) (Hm : Z.of_nat (length m) = 65536)
    (Hf : (0 < length f)%nat) (Hl : (0 < length l)%nat) (Hfl : Z.of_nat (length f + length l) <= 65536)
    (Hbuf1 : (length f <= length buf1)%nat) (Hbuf2 : (length l <= length buf2)%nat) :
  exists w1 b1 d1 a2 d2 w3 b3 d3,
    window_pread env read_buf a (cache_init (m :: ms) false) buf1 (Z.of_nat (length f)) 0 d = ret (Z.of_nat (length f), w1, b1, d1)
    /\ aof_append env l a d1 = ret (Z.of_nat (length l), a2, d2) /\ ready (f ++ l) a2 (dk_bytes d2)
    /\ window_pread env read_buf a2 w1 buf2 (Z.of_nat (length l)) (Z.of_nat (length f)) d2 = ret (Z.of_nat (length l), w3, b3, d3)
    /\ forall i, 0 <= i < Z.of_nat (length l) -> byte_at b3 i = byte_at m (Z.of_nat (length f) + i).
Proof.
  destruct (first_slot_fetch env read_buf Henv Hread_buf f a m ms buf1 d) as (w1 & c & b1 & d1 & E1 & B1 & T1 & P1 & C1 & C2 & C3 & C4 & C5);
    [apply Hready|done|lia..|].
  rewrite <- B1 in Hready. pose proof (ho_len _ _ _ (proj1 Hready)) as Hlen.
  destruct (append_loop_good env Henv (length l) l f a d1) as (a2 & d2 & E2 & R2 & _ & T2 & _); [done|lia|lia|lia|].
  pose proof (ho_len _ _ _ (proj1 R2)) as Hlen2. rewrite length_app in Hlen2.
  destruct (first_slot_hit env read_buf a2 w1 c buf2 (Z.of_nat (length l)) (Z.of_nat (length f)) d2) as (w3 & b3 & E3 & Y3);
    [done|done|done|lia|done|lia..|].
  exists w1, b1, d1, a2, d2, w3, b3, d2. unfold aof_append. rewrite E2. splits; try done. intros i Hi. rewrite Y3 by done. apply C5. lia.
Qed.

(** a slot that cannot be filled: the negative result counts as a number of
    bytes, and with the slot in front of it cached the next copy goes in
    front of the caller's buffer *)
Theorem failed_fetch_writes_before_buffer (env : nat -> io_result) (read_buf : list Z) (a : PfAof) (w : AofWindowCache)
    (c p : CacheLine) (buf b : list Z) (len offset rc : Z) (d d' : disk) :
  slots w !! Z.to_nat (OFF2SLOT offset) = Some c -> slots w !! Z.to_nat (OFF2SLOT (offset - 1)) = Some p ->
  0 < offset -> offset mod 65536 = 0 -> 1 < len -> offset + len <= file_len a -> off_in_file c <> offset -> cl_readers c = 0 -> 0 <= hit_cnt c ->
  off_in_file p = offset - 65536 -> Z.of_nat (length (cl_buf p)) = 65536 -> 0 <= hit_cnt p < 2 ^ 31 - 1 ->
  aof_read env a (cl_buf c) read_buf SLOT_SIZE offset d = ret (rc, b, d') -> -65536 <= rc < 0 ->
  window_pread env read_buf a w buf len offset d = Undef.
Proof.
  intros Hc Hp Ho Hm Hlen Hf C1 C2 C3 P1 P2 P3 E Hrc. unfold window_pread. rewrite (proj2 (Z.leb_gt _ _)), (proj2 (Z.ltb_ge _ _)) by lia.
  destruct (Z.to_nat len) as [|[|n]] eqn:En; [lia|lia|]. cbn [window_loop]. rewrite (proj2 (Z.eqb_neq _ _)) by lia. rewrite Hc.
  rewrite (line_miss env read_buf 0 a c (mkLine (-1) b (hit_cnt c) 0) buf 0 len offset rc d d'); [|rewrite align_slot; lia|done|].
  2:{ unfold fetch_data. rewrite C2. cbn [Z.eqb negb]. rewrite align_slot, Hm, Z.sub_0_r. rewrite (proj2 (Z.eqb_neq _ _)) by done. rewrite E. rstep.
      by rewrite (proj2 (Z.leb_gt _ _)) by lia. }
  rewrite (proj2 (Z.eqb_neq rc 0)) by lia. cbn [negb]. rstep. cbn [window_loop]. rewrite (proj2 (Z.eqb_neq _ _)) by lia.
  assert (65536 <= offset) as H65 by mlia.
  assert (OFF2SLOT (offset + rc) = OFF2SLOT (offset - 1)) as Es by (rewrite !off2slot by lia; f_equal; mlia). rewrite Es.
  rewrite list_lookup_insert_ne by (intros Ei; rewrite !off2slot in Ei by lia; apply Z2Nat.inj in Ei; mlia). rewrite Hp.
  assert (ALIGN_ON_SLOT (offset + rc) = off_in_file p) as Ea by (rewrite align_slot; mlia).
  cbn [line_pread lock_shared off_in_file hit_cnt cl_buf cl_readers]. rewrite Ea, Z.eqb_refl. cbn [negb].
  rewrite (proj2 (Z.eqb_neq _ _)) by lia. rewrite P1. change SLOT_SIZE with 65536.
  destruct (get_at_done (offset + rc - (offset - 65536)) (Z.min (len - rc) (65536 - (offset + rc - (offset - 65536)))) (cl_buf p))
    as (x & Ex & _ & _); [lia|lia|lia|].
  rewrite Ex. rstep. unfold put_at. rewrite (proj2 (Z.leb_gt _ _)) by lia. done.
Qed.

(** *** Example caches *)
Lemma fresh_slots_ok f n m k :
  Z.of_nat (length m) = 65536 -> n < 2 ^ 31 -> slots_ok f n (slots (cache_init (replicate 8 m) k)).
Proof.
  intros Hm Hn. assert (line_ok f (line_init m)) as L by (split; cbn [line_init off_in_file cl_buf hit_cnt cl_readers]; try done; by left).
  cbn [cache_init slots]. rewrite fmap_replicate. split; [by rewrite length_replicate|by apply Forall_replicate|apply Forall_replicate; cbn; lia].
Qed.


Lemma prefetch_never_returns_witness :
  window_pread (fun _ => mkIo 0 0) (zeros 8192) (example_file 40960 7) (cache_init (replicate 8 (zeros 65536)) true) [9; 9] 2 40000
    (mkDisk (fun _ => 0) 24 0) = Done None.
Proof.
  apply (prefetch_never_returns (fun _ => mkIo 0 0) (zeros 8192) (replicate (Z.to_nat 40960) 7) (example_file 40960 7)
           (cache_init (replicate 8 (zeros 65536)) true) [9; 9] 2 40000 (mkDisk (fun _ => 0) 24 0)).
  - done.
  - by apply zeros_length.
  - by apply example_holds.
  - apply fresh_slots_ok; [by apply zeros_length|lia].
  - done.
  - done.
  - done.
  - done.
  - cbn [example_file file_len]. lia.
  - done.
  - intros c Hc. cbn [cache_init slots] in Hc. rewrite fmap_replicate in Hc. apply elem_of_replicate in Hc as [-> _]. done.
Defined.

Lemma cache_misses_appends_witness :
  exists w1 b1 d1 a2 d2 w3 b3 d3,
    window_pread (fun _ => mkIo 0 0) (zeros 8192) example_open (cache_init [zeros 65536] false) [9; 9; 9] 3 0
      (mkDisk (volume_of [1; 2]) 24 0) = ret (3, w1, b1, d1)
    /\ aof_append (fun _ => mkIo 0 0) [4] example_open d1 = ret (1, a2, d2) /\ ready [1; 2; 3; 4] a2 (dk_bytes d2)
    /\ window_pread (fun _ => mkIo 0 0) (zeros 8192) a2 w1 [9] 1 3 d2 = ret (1, w3, b3, d3)
    /\ forall i, 0 <= i < 1 -> byte_at b3 i = byte_at (zeros 65536) (3 + i).
Proof.
  apply (cache_misses_appends (fun _ => mkIo 0 0) (zeros 8192) [1; 2; 3] [4] (zeros 65536) [] example_open [9; 9; 9] [9]
           (mkDisk (volume_of [1; 2]) 24 0)).
  - done.
  - by apply zeros_length.
  - split; [apply example_open_holds|done].
  - done.
  - by apply zeros_length.
  - cbn. lia.
  - cbn. lia.
  - cbn. lia.
  - cbn. lia.
  - cbn. lia.
Defined.
