(* ===== verification/AofTable.v ===== *)
(** * The table of opened append-only files

    Model of [opened_aof] and of the functions of src/common/src/pf_aof.cpp
    that use it: [pf_open_aof], [pf_rename_aof], [pf_delete_aof], the
    destructor of [PfAof] and its reference count.  A file object is a
    number; what is on its volume is in Aof.v.  The answers of the conductor
    and of the volume are arguments.  [None] is a call that waits forever for
    [aof_lock], which it holds itself. *)

From Stdlib Require Import ZArith Lia.
From stdpp Require Import base tactics gmap strings.
From S2P Require Import Prelude Runs.

Definition S5_LIB_VER : Z := 0x00010000.

Record handle : Type := mkHandle { h_name : string; h_refs : Z }.

Record table : Type := mkTable {
  opened_aof : gmap string nat;
  handles : gmap nat handle;   (* the objects that are not deleted *)
  h_next : nat
}.

(** what the conductor and the volume answer while a file is opened *)
Record answers : Type := mkAnswers {
  an_access : Z;    (* [pf_aof_access] *)
  an_create : Z;    (* [pf_create_aof] *)
  an_do_open : Z;   (* [PfClientVolume::do_open] *)
  an_open : Z       (* [PfAof::open] *)
}.

Definition empty_table : table := mkTable ∅ ∅ 0.

Definition add_ref (i : nat) (t : table) : outcome table :=
  match handles t !! i with
  | None => Undef
  | Some h => Done (mkTable (opened_aof t) (<[i := mkHandle (h_name h) (h_refs h + 1)]> (handles t)) (h_next t))
  end.

(** the destructor, for an object of name [n], after its last [sync] *)
Definition PfAof_delete (i : nat) (n : string) (t : table) : table :=
  mkTable (delete n (opened_aof t)) (delete i (handles t)) (h_next t).

Definition dec_ref (i : nat) (t : table) : outcome table :=
  match handles t !! i with
  | None => Undef
  | Some h =>
      if h_refs h - 1 =? 0 then Done (PfAof_delete i (h_name h) t)
      else Done (mkTable (opened_aof t) (<[i := mkHandle (h_name h) (h_refs h - 1)]> (handles t)) (h_next t))
  end.

Definition pf_open_aof (lib_ver : Z) (name : string) (creat : bool) (an : answers) (t : table) : run (option nat * table) :=
  if negb (lib_ver =? S5_LIB_VER) then ret (None, t)
  else
    match opened_aof t !! name with
    | Some i => let? t := lift (add_ref i t) in ret (Some i, t)
    | None =>
        if negb (an_access an =? 0) && negb (creat && (an_create an =? 0)) then ret (None, t)
        else if negb (an_do_open an =? 0) then Undef   (* the destructor uses the context the volume did not get *)
        else if negb (an_open an =? 0) then Done None  (* the destructor takes [aof_lock] *)
        else
          let i := h_next t in
          ret (Some i, mkTable (<[name := i]> (opened_aof t)) (<[i := mkHandle name 1]> (handles t)) (S i))
    end.

(** [rc] is the answer of the conductor *)
Definition pf_rename_aof (name new_name : string) (rc : Z) (t : table) : outcome (Z * table) :=
  match opened_aof t !! name with
  | None => Done (rc, t)
  | Some i =>
      match handles t !! i with
      | None => Undef
      | Some h =>
          Done (rc, mkTable (<[new_name := i]> (delete name (opened_aof t)))
                      (<[i := mkHandle new_name (h_refs h)]> (handles t)) (h_next t))
      end
  end.

Definition pf_delete_aof (name : string) (rc : Z) (t : table) : Z * table :=
  (rc, mkTable (delete name (opened_aof t)) (handles t) (h_next t)).

(** ** One object for each name *)
Record table_ok (t : table) : Prop := mkTableOk {
  tb_opened : forall n i, opened_aof t !! n = Some i <-> exists h, handles t !! i = Some h /\ h_name h = n;
  tb_refs : forall i h, handles t !! i = Some h -> 0 < h_refs h;
  tb_next : forall i h, handles t !! i = Some h -> (i < h_next t)%nat
}.

Lemma empty_table_ok : table_ok empty_table.
Proof.
  split; cbn [empty_table opened_aof handles]; [|by intros i h [=]..]. intros n i. rewrite lookup_empty.
  split; [done|]. intros (h & Hi & _). by rewrite lookup_empty in Hi.
Qed.

Lemma set_refs_ok i h r t :
  table_ok t -> handles t !! i = Some h -> 0 < r ->
  table_ok (mkTable (opened_aof t) (<[i := mkHandle (h_name h) r]> (handles t)) (h_next t)).
Proof.
  intros [T1 T2 T3] Hi Hr. split; cbn [opened_aof handles h_next].
  - intros n j. rewrite T1. split; intros (h' & Hj & Hn).
    + destruct (decide (i = j)) as [<-|Hne]; [exists (mkHandle (h_name h) r)|exists h']; simplify_map_eq; done.
    + destruct (decide (i = j)) as [<-|Hne]; simplify_map_eq; [by exists h|by exists h'].
  - intros j h' Hj. destruct (decide (i = j)) as [<-|Hne]; simplify_map_eq; [done|by eapply T2].
  - intros j h' Hj. destruct (decide (i = j)) as [<-|Hne]; simplify_map_eq; [by eapply T3|by eapply T3].
Qed.

Lemma delete_ok i h t : table_ok t -> handles t !! i = Some h -> table_ok (PfAof_delete i (h_name h) t).
Proof.
  intros [T1 T2 T3] Hi. split; cbn [PfAof_delete opened_aof handles h_next].
  - intros n j. destruct (decide (h_name h = n)) as [<-|Hne]; [|rewrite lookup_delete_ne by done; rewrite T1].
    + rewrite lookup_delete_eq. split; [done|]. intros (h' & Hj & Hn). destruct (decide (i = j)) as [<-|Hij]; simplify_map_eq.
      assert (opened_aof t !! h_name h = Some i) by (apply T1; eauto). assert (opened_aof t !! h_name h = Some j) by (apply T1; eauto). congruence.
    + split; intros (h' & Hj & Hn); exists h'; (split; [|done]).
      * rewrite lookup_delete_ne; [done|]. intros <-. congruence.
      * by apply lookup_delete_Some in Hj as [_ Hj].
  - intros j h' Hj. apply lookup_delete_Some in Hj as [_ Hj]. by eapply T2.
  - intros j h' Hj. apply lookup_delete_Some in Hj as [_ Hj]. by eapply T3.
Qed.

Lemma new_ok name t :
  table_ok t -> opened_aof t !! name = None ->
  table_ok (mkTable (<[name := h_next t]> (opened_aof t)) (<[h_next t := mkHandle name 1]> (handles t)) (S (h_next t))).
Proof.
  intros [T1 T2 T3] Hn. assert (handles t !! h_next t = None) as Hf.
  { destruct (handles t !! h_next t) as [h|] eqn:E; [|done]. apply T3 in E. lia. }
  split; cbn [opened_aof handles h_next].
  - intros n i. destruct (decide (name = n)) as [<-|Hne].
    + rewrite lookup_insert_eq. split; [intros [= <-]; eexists; by rewrite lookup_insert_eq|]. intros (h & Hi & Hh).
      destruct (decide (h_next t = i)) as [<-|Hij]; [done|]. rewrite lookup_insert_ne in Hi by done.
      assert (opened_aof t !! name = Some i) by (apply T1; eauto). congruence.
    + rewrite lookup_insert_ne by done. rewrite T1. split; intros (h & Hi & Hh); exists h.
      * split; [|done]. rewrite lookup_insert_ne; [done|]. intros <-. congruence.
      * destruct (decide (h_next t = i)) as [<-|Hij]; simplify_map_eq; done.
  - intros i h Hi. apply lookup_insert_Some in Hi as [[_ <-]|[_ Hi]]; [done|by eapply T2].
  - intros i h Hi. apply lookup_insert_Some in Hi as [[<- _]|[_ Hi]]; [lia|apply T3 in Hi; lia].
Qed.

Lemma rename_ok name new_name rc t :
  table_ok t -> opened_aof t !! new_name = None -> exists t', pf_rename_aof name new_name rc t = Done (rc, t') /\ table_ok t'.
Proof.
  intros T Hnew. unfold pf_rename_aof. destruct (opened_aof t !! name) as [i|] eqn:Ei; [|by exists t].
  destruct (proj1 (tb_opened _ T name i) Ei) as (h & Hi & Hh). rewrite Hi. eexists. split; [done|].
  pose proof (delete_ok i h t T Hi) as D. destruct T as [T1 T2 T3]. destruct D as [D1 D2 D3]. rewrite Hh in D1.
  cbn [PfAof_delete opened_aof handles h_next] in D1, D2, D3. split; cbn [opened_aof handles h_next].
  - intros n j. destruct (decide (new_name = n)) as [<-|Hne].
    + rewrite lookup_insert_eq. split; [intros [= <-]; eexists; by rewrite lookup_insert_eq|]. intros (h' & Hj & Hn).
      destruct (decide (i = j)) as [<-|Hij]; [done|]. rewrite lookup_insert_ne in Hj by done.
      assert (opened_aof t !! new_name = Some j) by (apply T1; eauto). congruence.
    + rewrite lookup_insert_ne by done. rewrite D1. split; intros (h' & Hj & Hn); exists h'; (split; [|done]).
      * apply lookup_delete_Some in Hj as [Hij Hj]. by rewrite lookup_insert_ne.
      * apply lookup_insert_Some in Hj as [[<- <-]|[Hij Hj]]; [done|by rewrite lookup_delete_ne].
  - intros j h' Hj. apply lookup_insert_Some in Hj as [[<- <-]|[_ Hj]]; [exact (T2 i h Hi)|by eapply T2].
  - intros j h' Hj. apply lookup_insert_Some in Hj as [[<- <-]|[_ Hj]]; by eapply T3.
Qed.

(** ** Runs of calls *)
Inductive table_op : Type :=
| TOpen (name : string) (creat : bool) (an : answers)
| TClose (i : nat)
| TRename (name new_name : string) (rc : Z)
| TDelete (name : string) (rc : Z).

Definition table_step (o : table_op) (t : table) : run table :=
  match o with
  | TOpen n c an => let? (i, t) := pf_open_aof S5_LIB_VER n c an t in ret t
  | TClose i => lift (dec_ref i t)
  | TRename n m rc => let? (rc, t) := lift (pf_rename_aof n m rc t) in ret t
  | TDelete n rc => ret (snd (pf_delete_aof n rc t))
  end.

(** the calls an application may make: it closes what it has open, the
    volume of a file can be opened, and files are renamed to and deleted by
    names that are not open *)
Definition op_allowed (o : table_op) (t : table) : Prop :=
  match o with
  | TOpen n c an => an_do_open an = 0 /\ an_open an = 0
  | TClose i => is_Some (handles t !! i)
  | TRename n m rc => opened_aof t !! m = None
  | TDelete n rc => opened_aof t !! n = None
  end.

(** As long as files are only renamed to and deleted by names
    that are not open, every call on the table of opened files returns and
    keeps it exact: a name is in the table if and only if there is an object
    of that name that is not deleted, and it leads to this object, so one
    volume never has two objects. *)
Theorem table_keeps_names (o : table_op) (t : table) (Hok : table_ok t) (Hop : op_allowed o t) :
  exists t', table_step o t = ret t' /\ table_ok t'.
Proof.
  destruct o as [n c an|i|n m rc|n rc]; cbn [table_step op_allowed] in *.
  - unfold pf_open_aof. rewrite Z.eqb_refl. cbn [negb]. destruct (opened_aof t !! n) as [i|] eqn:Ei.
    + destruct (proj1 (tb_opened _ Hok n i) Ei) as (h & Hi & _). unfold add_ref. rewrite Hi. cbn. eexists. split; [done|].
      apply set_refs_ok; [done|done|]. pose proof (tb_refs _ Hok i h Hi). lia.
    + destruct Hop as [-> ->]. destruct (negb (an_access an =? 0) && _); cbn; [by exists t|]. eexists. split; [done|]. by apply new_ok.
  - destruct Hop as [h Hi]. unfold dec_ref. rewrite Hi. pose proof (tb_refs _ Hok i h Hi).
    destruct (Z.eqb_spec (h_refs h - 1) 0); cbn; eexists; (split; [done|]); [by apply delete_ok|apply set_refs_ok; [done|done|lia]].
  - destruct (rename_ok n m rc t Hok Hop) as (t' & E & T'). rewrite E. cbn. by exists t'.
  - cbn. rewrite (delete_id (opened_aof t)) by done. exists t. by destruct t.
Qed.

Lemma table_keeps_names_witness :
  exists t', table_step (TOpen "a" true (mkAnswers (-1) 0 0 0)) empty_table = ret t' /\ table_ok t'.
Proof. apply (table_keeps_names (TOpen "a" true (mkAnswers (-1) 0 0 0)) empty_table); [apply empty_table_ok|done]. Defined.

(** Renaming over a name that is open: when the object of that name is closed
    it takes the entry of the renamed file with it, and opening the name
    again makes a second object for the same volume. *)
Theorem rename_over_open_splits (t : table) (x y : string) (i j : nat) (h g : handle) (rc : Z) (an : answers) :
  table_ok t -> x <> y -> opened_aof t !! x = Some i -> opened_aof t !! y = Some j ->
  handles t !! i = Some h -> handles t !! j = Some g -> h_refs g = 1 -> an_access an = 0 -> an_do_open an = 0 -> an_open an = 0 ->
  exists t1 t2 t3, pf_rename_aof x y rc t = Done (rc, t1) /\ dec_ref j t1 = Done t2
    /\ pf_open_aof S5_LIB_VER y false an t2 = ret (Some (h_next t), t3)
    /\ handles t3 !! i = Some (mkHandle y (h_refs h)) /\ handles t3 !! h_next t = Some (mkHandle y 1) /\ i <> h_next t.
Proof.
  intros T Hxy Hx Hy Hi Hj Hg A1 A2 A3.
  destruct (proj1 (tb_opened _ T y j) Hy) as (g' & Hj' & Hgn). replace g' with g in Hgn by congruence.
  assert (i <> j) as Hij. { intros ->. destruct (proj1 (tb_opened _ T x j) Hx) as (h' & Hh' & Hn). congruence. }
  pose proof (tb_next _ T i h Hi) as Hin. pose proof (tb_next _ T j g Hj) as Hjn.
  eexists _, _, _. unfold pf_rename_aof. rewrite Hx, Hi. split; [reflexivity|].
  unfold dec_ref. cbn [handles opened_aof h_next]. rewrite lookup_insert_ne by done. rewrite Hj, Hg. cbn [Z.sub Z.eqb Z.add Z.opp Z.pos_sub].
  split; [reflexivity|]. unfold PfAof_delete, pf_open_aof. cbn [opened_aof handles h_next]. rewrite Z.eqb_refl, Hgn, lookup_delete_eq. cbn [negb].
  rewrite A1, A2, A3. cbn [Z.eqb negb andb]. split; [reflexivity|]. cbn [handles]. splits; [|by rewrite lookup_insert_eq|lia].
  rewrite lookup_insert_ne by lia. rewrite lookup_delete_ne by done. by rewrite lookup_insert_eq.
Qed.

(** opening a volume that is no file of this version waits forever *)
Theorem open_of_wrong_volume_blocks (t : table) (n : string) (c : bool) (an : answers) :
  opened_aof t !! n = None -> an_access an = 0 -> an_do_open an = 0 -> an_open an <> 0 ->
  pf_open_aof S5_LIB_VER n c an t = Done None.
Proof.
  intros Hn A1 A2 A3. unfold pf_open_aof. rewrite Z.eqb_refl, Hn, A1, A2. cbn [negb Z.eqb andb].
  by rewrite (proj2 (Z.eqb_neq _ _)).
Qed.
