(* ===== verification/Iov.v ===== *)
(** * Scatter and gather

    Model of [iov_to_buf] and [iov_from_buf] of src/common/src/pf_client_api.cpp.
    A vector of buffers is the list of their contents. *)

From Stdlib Require Import ZArith Lia.
From stdpp Require Import base tactics list numbers.
From S2P Require Import Prelude Runs.

(** the loop of [iov_to_buf]: [done], [offset], the buffer *)
Fixpoint to_buf_loop (iov : list (list Z)) (bytes done offset : Z) (buf : list Z) : outcome (Z * Z * list Z) :=
  match iov with
  | [] => Done (done, offset, buf)
  | v :: iov =>
      if negb (offset =? 0) || (done <? bytes) then
        if offset <? Z.of_nat (length v) then
          let len := Z.min (Z.of_nat (length v) - offset) (bytes - done) in
          let* l := get_at offset len v in
          let* buf := put_at done l buf in
          to_buf_loop iov bytes (done + len) 0 buf
        else to_buf_loop iov bytes done (offset - Z.of_nat (length v)) buf
      else Done (done, offset, buf)
  end.

Definition iov_to_buf (iov : list (list Z)) (buf : list Z) (bytes : Z) : outcome (Z * list Z) :=
  let* (done, offset, buf) := to_buf_loop iov bytes 0 0 buf in
  if offset =? 0 then Done (done, buf) else Fatal.

Fixpoint from_buf_loop (iov : list (list Z)) (bytes done offset : Z) (buf : list Z) : outcome (Z * Z * list (list Z)) :=
  match iov with
  | [] => Done (done, offset, [])
  | v :: iov =>
      if negb (offset =? 0) || (done <? bytes) then
        if offset <? Z.of_nat (length v) then
          let len := Z.min (Z.of_nat (length v) - offset) (bytes - done) in
          let* l := get_at done len buf in
          let* v := put_at offset l v in
          let* (done, offset, iov) := from_buf_loop iov bytes (done + len) 0 buf in
          Done (done, offset, v :: iov)
        else
          let* (done, offset, iov) := from_buf_loop iov bytes done (offset - Z.of_nat (length v)) buf in
          Done (done, offset, v :: iov)
      else Done (done, offset, v :: iov)
  end.

Definition iov_from_buf (iov : list (list Z)) (buf : list Z) (bytes : Z) : outcome (Z * list (list Z)) :=
  let* (done, offset, iov) := from_buf_loop iov bytes 0 0 buf in
  if offset =? 0 then Done (done, iov) else Fatal.

(** ** What they copy *)
Lemma put_front off l buf :
  Z.of_nat (length l) + off <= Z.of_nat (length buf) -> 0 <= off ->
  put_at off l buf = Done (take (Z.to_nat off) buf ++ l ++ drop (Z.to_nat off + length l) buf).
Proof. intros Hl Ho. unfold put_at, write_at. by rewrite !(proj2 (Z.leb_le _ _)) by lia. Qed.

Lemma get_front off n buf :
  0 <= off -> 0 <= n -> off + n <= Z.of_nat (length buf) -> get_at off n buf = Done (take (Z.to_nat n) (drop (Z.to_nat off) buf)).
Proof. intros Ho Hn Hl. unfold get_at. by rewrite !(proj2 (Z.leb_le _ _)) by lia. Qed.

Lemma to_buf_loop_spec iov : forall p n rest,
  (n <= length rest)%nat ->
  to_buf_loop iov (Z.of_nat (length p + n)) (Z.of_nat (length p)) 0 (p ++ rest)
  = Done (Z.of_nat (length p + length (take n (concat iov))), 0, p ++ take n (concat iov) ++ drop (length (take n (concat iov))) rest).
Proof.
  induction iov as [|v iov IH]; intros p n rest Hn; cbn [to_buf_loop concat].
  { rewrite take_nil. cbn [length]. by rewrite Nat.add_0_r, drop_0. }
  cbn [Z.eqb negb orb]. destruct (Z.ltb_spec (Z.of_nat (length p)) (Z.of_nat (length p + n))) as [Hlt|Hge].
  2:{ replace n with O by lia. rewrite take_0. cbn [length]. by rewrite Nat.add_0_r, drop_0. }
  destruct (Z.ltb_spec 0 (Z.of_nat (length v))) as [Hv|Hv].
  2:{ destruct v; [|cbn [length] in Hv; lia]. change (0 - Z.of_nat (length [])) with 0. cbn [app]. apply IH. lia. }
  set (k := Nat.min (length v) n). replace (Z.min _ _) with (Z.of_nat k) by lia.
  rewrite get_front by lia. cbn [obind]. rewrite Nat2Z.id, drop_0.
  assert (length (take k v) = k) as Hk by (rewrite length_take; lia).
  rewrite put_front by (rewrite ?length_app; lia). cbn [obind]. rewrite Nat2Z.id, take_app_length, drop_app_ge by lia. rewrite Hk.
  replace (length p + k - length p)%nat with k by lia. rewrite app_assoc.
  specialize (IH (p ++ take k v) (n - k)%nat (drop k rest)). rewrite length_app, Hk, length_drop in IH.
  replace (Z.of_nat (length p) + Z.of_nat k) with (Z.of_nat (length p + k)) by lia.
  replace (length p + k + (n - k))%nat with (length p + n)%nat in IH by lia. rewrite IH by lia.
  assert (take n (v ++ concat iov) = take k v ++ take (n - k) (concat iov)) as ->.
  { rewrite take_app. f_equal; [|f_equal; lia]. destruct (Nat.le_gt_cases n (length v)); [f_equal; lia|]. rewrite !take_ge by lia. done. }
  rewrite length_app, Hk, drop_drop, <- !app_assoc. do 3 f_equal. lia.
Qed.

Lemma from_buf_loop_spec iov : forall d n buf,
  (d + n <= length buf)%nat ->
  exists iov', from_buf_loop iov (Z.of_nat (d + n)) (Z.of_nat d) 0 buf
      = Done (Z.of_nat (d + Nat.min n (length (concat iov))), 0, iov')
    /\ length <$> iov' = length <$> iov
    /\ concat iov' = take (Nat.min n (length (concat iov))) (drop d buf) ++ drop n (concat iov).
Proof.
  induction iov as [|v iov IH]; intros d n buf Hn; cbn [from_buf_loop concat].
  { exists []. cbn [length]. rewrite Nat.min_0_r, Nat.add_0_r, take_0, drop_nil. done. }
  cbn [Z.eqb negb orb]. destruct (Z.ltb_spec (Z.of_nat d) (Z.of_nat (d + n))) as [Hlt|Hge].
  2:{ exists (v :: iov). replace n with O by lia. rewrite Nat.min_0_l, take_0, drop_0, Nat.add_0_r. done. }
  destruct (Z.ltb_spec 0 (Z.of_nat (length v))) as [Hv|Hv].
  2:{ destruct v; [|cbn [length] in Hv; lia]. change (0 - Z.of_nat (length [])) with 0. cbn [app]. destruct (IH d n buf Hn) as (iov' & E & L & C).
      rewrite E. cbn [obind]. exists ([] :: iov'). cbn [fmap list_fmap length concat app]. by rewrite <- L. }
  set (k := Nat.min (length v) n). replace (Z.min _ _) with (Z.of_nat k) by lia.
  rewrite get_front by lia. cbn [obind]. rewrite !Nat2Z.id.
  assert (length (take k (drop d buf)) = k) as Hk by (rewrite length_take, length_drop; lia).
  rewrite put_front by lia. cbn [obind Z.to_nat]. rewrite take_0, Hk. cbn [app Nat.add].
  destruct (IH (d + k)%nat (n - k)%nat buf) as (iov' & E & L & C); [lia|].
  replace (d + k + (n - k))%nat with (d + n)%nat in E by lia. replace (Z.of_nat d + Z.of_nat k) with (Z.of_nat (d + k)) by lia.
  rewrite E. cbn [obind]. exists ((take k (drop d buf) ++ drop k v) :: iov'). rewrite (length_app v). split; [f_equal; f_equal; f_equal; lia|].
  split; [cbn [fmap list_fmap]; rewrite <- L; f_equal; rewrite length_app, Hk, length_drop; lia|].
  cbn [concat]. rewrite C. replace (drop (d + k) buf) with (drop k (drop d buf)) by (rewrite drop_drop; f_equal; lia). destruct (Nat.le_gt_cases n (length v)) as [Hc|Hc].
  - replace k with n by lia. replace (n - n)%nat with O by lia. rewrite Nat.min_0_l, take_0, drop_0. cbn [app].
    replace (Nat.min n (length v + length (concat iov))) with n by lia. rewrite <- app_assoc. f_equal.
    rewrite drop_app. f_equal. by replace (n - length v)%nat with O by lia.
  - replace k with (length v) by lia. rewrite (drop_ge v), app_nil_r by lia. rewrite (drop_app_ge v) by lia. rewrite app_assoc. f_equal.
    replace (Nat.min n (length v + length (concat iov))) with (length v + Nat.min (n - length v) (length (concat iov)))%nat by lia.
    by rewrite <- take_take_drop.
Qed.

(** gathering copies the first bytes of the buffers, one after the other *)
Theorem iov_to_buf_gathers (iov : list (list Z)) (buf : list Z) (n : nat) :
  (n <= length buf)%nat ->
  iov_to_buf iov buf (Z.of_nat n)
  = Done (Z.of_nat (length (take n (concat iov))), take n (concat iov) ++ drop (length (take n (concat iov))) buf).
Proof. intros Hn. unfold iov_to_buf. pose proof (to_buf_loop_spec iov [] n buf Hn) as E. cbn [app length Nat.add] in E. change (Z.of_nat 0) with 0 in E. by rewrite E. Qed.

Theorem iov_from_buf_scatters (iov : list (list Z)) (buf : list Z) (n : nat) :
  (n <= length buf)%nat ->
  exists iov', iov_from_buf iov buf (Z.of_nat n) = Done (Z.of_nat (Nat.min n (length (concat iov))), iov')
    /\ length <$> iov' = length <$> iov
    /\ concat iov' = take (Nat.min n (length (concat iov))) buf ++ drop n (concat iov).
Proof.
  intros Hn. unfold iov_from_buf. destruct (from_buf_loop_spec iov 0 n buf Hn) as (iov' & E & L & C). cbn [Nat.add] in E. change (Z.of_nat 0) with 0 in E.
  rewrite E. exists iov'. rewrite drop_0 in C. done.
Qed.

Lemma concat_inj (l1 l2 : list (list Z)) : length <$> l1 = length <$> l2 -> concat l1 = concat l2 -> l1 = l2.
Proof.
  revert l2. induction l1 as [|x l1 IH]; intros [|y l2] Hl Hc; try done. cbn in Hl, Hc. injection Hl as Hx Hl.
  apply app_inj_1 in Hc as [-> Hc]; [|done]. f_equal. by apply IH.
Qed.

(** scattering what was gathered changes nothing *)
Theorem iov_roundtrip (iov : list (list Z)) (buf buf' : list Z) (n : nat) (done : Z) :
  (n <= length buf)%nat -> iov_to_buf iov buf (Z.of_nat n) = Done (done, buf') -> iov_from_buf iov buf' (Z.of_nat n) = Done (done, iov).
Proof.
  intros Hn E. rewrite iov_to_buf_gathers in E by done. injection E as <- <-. set (t := take n (concat iov)).
  assert (length t = Nat.min n (length (concat iov))) as Ht by (unfold t; by rewrite length_take).
  destruct (iov_from_buf_scatters iov (t ++ drop (length t) buf) n) as (iov' & E & L & C); [rewrite length_app, length_drop; lia|].
  rewrite E, Ht. do 2 f_equal. apply concat_inj; [done|]. rewrite C, <- Ht, take_app_length. apply take_drop.
Qed.
