(* ===== verification/Client.v ===== *)
(** * The client library: requests of a volume

    Model of src/common/src/pf_client_api.cpp, src/common/include/pf_client_priv.h
    and src/common/src/pf_connection_pool.cpp for a volume on TCP with a
    context of its own: submitting requests, the events of the volume
    thread, the callbacks of the network and the timeout thread.

    Blocks ([PfClientIocb]) are numbers, as are connections, which are kept
    when they are closed; their reference counts are left out.  A connection
    sends a command, and behind it the data of a write, in one step.  The
    clock, the conductor, and the results of connecting and posting are
    arguments.  [None] is data the connection has to wait for. *)

From Stdlib Require Import ZArith Lia String.
From stdpp Require Import base tactics list numbers gmap strings.
From S2P Require Import Prelude Bytes Runs Ids Connection TcpServer Iov.

(** ** State *)
Definition VOLUME_CLOSED : Z := 0.
Definition VOLUME_OPENED : Z := 1.
Definition VOLUME_WAIT_REOPEN : Z := 2.
Definition VOLUME_REOPEN_FAIL : Z := 3.
Definition VOLUME_DISCONNECTED : Z := 4.

(** descriptors of the reply pool and of the data of a block *)
Inductive cbd : Type :=
| RBd (k : nat)
| DBd (i : nat).

(** [user_buf] or [user_iov], with what is in the memory *)
Inductive user_mem : Type :=
| UserBuf (l : list Z)
| UserIov (v : list (list Z)).

Record PfClientIocb : Type := mkClientIo {
  q_cmd : PfMessageHead;
  q_data : list Z;
  q_data_len : Z;
  q_data_bound : bool;      (* [data_bd->client_iocb] is the block, not NULL *)
  q_user : user_mem;
  q_arg : Z;                (* [ulp_handler] and [ulp_arg] *)
  q_is_timeout : bool;
  q_sent_time : Z;
  q_submit_time : Z;
  q_conn : option nat;
  q_reply : option (cbd * PfMessageReply)
}.

Record PfClientShardInfo : Type := mkCShard {
  sh_ips : list string;
  sh_current_ip : Z;
  sh_is_local : bool
}.

Record PfClientVolume : Type := mkCVol {
  v_state : Z;
  v_open_time : Z;
  v_meta_ver : Z;
  v_snap_seq : Z;
  v_volume_id : Z;
  v_shards : list PfClientShardInfo;
  v_reopen_waiting : list nat
}.

Record cconn : Type := mkCConn {
  cn_ok : bool;
  cn_recv_q : list cbd;                      (* the one being received first *)
  cn_data : option nat;                      (* the block whose data come next *)
  cn_wire : list (PfMessageHead * list Z)
}.

Record cnet : Type := mkCNet {
  n_conns : list cconn;
  n_ip_id_map : gmap string nat;
  n_calls : nat                              (* calls of the network so far *)
}.

Inductive cevent : Type :=
| CvIoReq (i : nat)
| CvIoComplete (b : cbd) (i : nat)
| CvIoTimeout (i : nat)
| CvReopenVolume (t : Z)
| CvVolumeReconnect.

(** a call of [ulp_handler], and what is in the memory of the user then *)
Record answer : Type := mkAnswer { a_arg : Z; a_status : Z; a_mem : user_mem }.

Record client : Type := mkClient {
  k_ios : list PfClientIocb;
  k_pool : list nat;
  k_replies : list cbd;
  k_vol : PfClientVolume;
  k_net : cnet;
  k_events : list cevent;
  k_answers : list answer
}.

Inductive reopen_result : Type :=
| RoOk (volume_id meta_ver snap_seq : Z) (shards : list PfClientShardInfo)
| RoErr (rc : Z)
| RoThrow.

Record cenv : Type := mkCEnv {
  ce_connect : nat -> string -> bool;
  ce_post_recv : nat -> Z;
  ce_post_send : nat -> Z;
  ce_reopen : nat -> reopen_result;
  ce_buf_addr : nat -> Z;
  ce_io_timeout : Z;
  ce_queue_size : Z
}.

(** ** Updates *)
Definition set_kios (l : list PfClientIocb) (k : client) : client :=
  mkClient l (k_pool k) (k_replies k) (k_vol k) (k_net k) (k_events k) (k_answers k).
Definition set_kpool (l : list nat) (k : client) : client :=
  mkClient (k_ios k) l (k_replies k) (k_vol k) (k_net k) (k_events k) (k_answers k).
Definition set_kreplies (l : list cbd) (k : client) : client :=
  mkClient (k_ios k) (k_pool k) l (k_vol k) (k_net k) (k_events k) (k_answers k).
Definition set_kvol (v : PfClientVolume) (k : client) : client :=
  mkClient (k_ios k) (k_pool k) (k_replies k) v (k_net k) (k_events k) (k_answers k).
Definition set_knet (n : cnet) (k : client) : client :=
  mkClient (k_ios k) (k_pool k) (k_replies k) (k_vol k) n (k_events k) (k_answers k).
Definition set_kevents (l : list cevent) (k : client) : client :=
  mkClient (k_ios k) (k_pool k) (k_replies k) (k_vol k) (k_net k) l (k_answers k).
Definition set_kanswers (l : list answer) (k : client) : client :=
  mkClient (k_ios k) (k_pool k) (k_replies k) (k_vol k) (k_net k) (k_events k) l.

Definition set_vstate (s : Z) (v : PfClientVolume) : PfClientVolume :=
  mkCVol s (v_open_time v) (v_meta_ver v) (v_snap_seq v) (v_volume_id v) (v_shards v) (v_reopen_waiting v).
Definition set_vwaiting (l : list nat) (v : PfClientVolume) : PfClientVolume :=
  mkCVol (v_state v) (v_open_time v) (v_meta_ver v) (v_snap_seq v) (v_volume_id v) (v_shards v) l.
Definition set_vshards (l : list PfClientShardInfo) (v : PfClientVolume) : PfClientVolume :=
  mkCVol (v_state v) (v_open_time v) (v_meta_ver v) (v_snap_seq v) (v_volume_id v) l (v_reopen_waiting v).

Definition get_io (i : nat) (k : client) : outcome PfClientIocb := of_option (k_ios k !! i).
Definition put_io (i : nat) (q : PfClientIocb) (k : client) : client := set_kios (<[i := q]> (k_ios k)) k.
Definition get_cn (c : nat) (k : client) : outcome cconn := of_option (n_conns (k_net k) !! c).
Definition put_cn (c : nat) (x : cconn) (k : client) : client :=
  set_knet (mkCNet (<[c := x]> (n_conns (k_net k))) (n_ip_id_map (k_net k)) (n_calls (k_net k))) k.
Definition count_call (k : client) : client :=
  set_knet (mkCNet (n_conns (k_net k)) (n_ip_id_map (k_net k)) (S (n_calls (k_net k)))) k.

Definition set_seq (n : Z) (h : PfMessageHead) : PfMessageHead :=
  mkHead (h_opcode h) (h_command_id h) (h_snap_seq h) (h_vol_id h) (h_buf_addr h) (h_rkey h) (h_meta_ver h)
    (h_offset h) (h_length h) n.
Definition set_hmeta (n : Z) (h : PfMessageHead) : PfMessageHead :=
  mkHead (h_opcode h) (h_command_id h) (h_snap_seq h) (h_vol_id h) (h_buf_addr h) (h_rkey h) n
    (h_offset h) (h_length h) (h_command_seq h).

Definition set_qcmd (h : PfMessageHead) (q : PfClientIocb) : PfClientIocb :=
  mkClientIo h (q_data q) (q_data_len q) (q_data_bound q) (q_user q) (q_arg q) (q_is_timeout q) (q_sent_time q)
    (q_submit_time q) (q_conn q) (q_reply q).
Definition set_qdata (l : list Z) (q : PfClientIocb) : PfClientIocb :=
  mkClientIo (q_cmd q) l (q_data_len q) (q_data_bound q) (q_user q) (q_arg q) (q_is_timeout q) (q_sent_time q)
    (q_submit_time q) (q_conn q) (q_reply q).
Definition set_qbound (b : bool) (q : PfClientIocb) : PfClientIocb :=
  mkClientIo (q_cmd q) (q_data q) (q_data_len q) b (q_user q) (q_arg q) (q_is_timeout q) (q_sent_time q)
    (q_submit_time q) (q_conn q) (q_reply q).
Definition set_quser (m : user_mem) (q : PfClientIocb) : PfClientIocb :=
  mkClientIo (q_cmd q) (q_data q) (q_data_len q) (q_data_bound q) m (q_arg q) (q_is_timeout q) (q_sent_time q)
    (q_submit_time q) (q_conn q) (q_reply q).
Definition set_qtimeout (b : bool) (q : PfClientIocb) : PfClientIocb :=
  mkClientIo (q_cmd q) (q_data q) (q_data_len q) (q_data_bound q) (q_user q) (q_arg q) b (q_sent_time q)
    (q_submit_time q) (q_conn q) (q_reply q).
Definition set_qsent (t : Z) (c : option nat) (q : PfClientIocb) : PfClientIocb :=
  mkClientIo (q_cmd q) (q_data q) (q_data_len q) (q_data_bound q) (q_user q) (q_arg q) (q_is_timeout q) t
    (q_submit_time q) c (q_reply q).
Definition set_qreply (r : option (cbd * PfMessageReply)) (q : PfClientIocb) : PfClientIocb :=
  mkClientIo (q_cmd q) (q_data q) (q_data_len q) (q_data_bound q) (q_user q) (q_arg q) (q_is_timeout q) (q_sent_time q)
    (q_submit_time q) (q_conn q) r.

(** ** Pools and the queue *)

(** [PfDoublyList]: both ends of the code's list work at its head *)
Definition dl_append (i : nat) (l : list nat) : list nat := i :: l.
Definition dl_pop (l : list nat) : option (nat * list nat) := match l with [] => None | i :: l => Some (i, l) end.

Section Client.
Variable env : cenv.

Definition post_event (e : cevent) (k : client) : Z * client :=
  if Z.of_nat (length (k_events k)) <? ce_queue_size env then (0, set_kevents (k_events k ++ [e]) k) else (- EAGAIN, k).

(** [iocb_pool.free] throws when the pool is full *)
Definition free_iocb (i : nat) (k : client) : outcome client :=
  if bool_decide (length (k_pool k) < length (k_ios k))%nat then Done (set_kpool (k_pool k ++ [i]) k) else Fatal.

(** [reply_pool.free]: the descriptor forgets its block; a full pool does not
    take it and nobody notices *)
Definition free_reply (b : cbd) (k : client) : outcome client :=
  let* k := (match b with
             | RBd _ => Done k
             | DBd i => let* q := get_io i k in Done (put_io i (set_qbound false q) k)
             end) in
  if bool_decide (length (k_replies k) < length (k_ios k))%nat then Done (set_kreplies (k_replies k ++ [b]) k) else Done k.

Fixpoint free_replies (l : list cbd) (k : client) : outcome client :=
  match l with
  | [] => Done k
  | b :: l => let* k := free_reply b k in free_replies l k
  end.

Definition callback (i : nat) (status : Z) (k : client) : outcome client :=
  let* q := get_io i k in
  Done (set_kanswers (k_answers k ++ [mkAnswer (q_arg q) status (q_user q)]) k).

(** ** Submitting *)
Definition SECT_SIZE_MASK : Z := 511.

Definition fill_cmd (i : nat) (is_write : bool) (length offset : Z) (k : client) (h : PfMessageHead) : PfMessageHead :=
  mkHead (if is_write then S5_OP_WRITE else S5_OP_READ) (h_command_id h) (u32 (v_snap_seq (k_vol k))) (v_volume_id (k_vol k))
    (ce_buf_addr env i) 0 (h_meta_ver h) (u64 offset) (u32 length) (h_command_seq h).

Definition pf_io_submit (now : Z) (buf : list Z) (length offset arg : Z) (is_write : bool) (k : client) : outcome (Z * client) :=
  if negb (Z.land offset SECT_SIZE_MASK =? 0) || negb (Z.land length SECT_SIZE_MASK =? 0) then Done (- EINVAL, k)
  else
    match k_pool k with
    | [] => Done (- EAGAIN, k)
    | i :: pool =>
        let* q := get_io i k in
        let* l := get_at 0 length buf in
        let* data := put_at 0 l (q_data q) in
        let q := mkClientIo (fill_cmd i is_write length offset k (q_cmd q)) data (i32 length) (q_data_bound q) (UserBuf buf)
                   arg (q_is_timeout q) (q_sent_time q) now (q_conn q) (q_reply q) in
        Done (post_event (CvIoReq i) (set_kpool pool (put_io i q k)))
    end.

Definition pf_iov_submit (now : Z) (iov : list (list Z)) (length offset arg : Z) (is_write : bool) (k : client)
    : outcome (Z * client) :=
  if negb (Z.land offset SECT_SIZE_MASK =? 0) || negb (Z.land length SECT_SIZE_MASK =? 0) then Done (- EINVAL, k)
  else if PF_MAX_IO_SIZE <? length then Done (- EINVAL, k)
  else
    match k_pool k with
    | [] => Done (- EAGAIN, k)
    | i :: pool =>
        let* q := get_io i k in
        let* data := (if is_write then let* (_, data) := iov_to_buf iov (q_data q) length in Done data else Done (q_data q)) in
        let q := mkClientIo (fill_cmd i is_write length offset k (q_cmd q)) data (i32 length) (q_data_bound q) (UserIov iov)
                   arg (q_is_timeout q) (q_sent_time q) now (q_conn q) (q_reply q) in
        Done (post_event (CvIoReq i) (set_kpool pool (put_io i q k)))
    end.

(** ** Connections *)

(** [PfConnectionPool::get_conn] *)
Definition pool_get_conn (ip : string) (k : client) : outcome (option nat * client) :=
  let n := k_net k in
  let* (x, m) :=
    (match n_ip_id_map n !! ip with
     | Some c => let* cn := get_cn c k in
                 if cn_ok cn then Done (Some c, n_ip_id_map n) else Done (None, delete ip (n_ip_id_map n))
     | None => Done (None, n_ip_id_map n)
     end) in
  match x with
  | Some c => Done (Some c, k)
  | None =>
      if ce_connect env (n_calls n) ip then
        let c := length (n_conns n) in
        Done (Some c, set_knet (mkCNet (n_conns n ++ [mkCConn true [] None []]) (<[ip := c]> m) (S (n_calls n))) k)
      else Done (None, set_knet (mkCNet (n_conns n) m (S (n_calls n))) k)
  end.

(** the loop of [get_shard_conn], [n] rounds of it left *)
Fixpoint shard_conn_loop (n : nat) (ips : list string) (cur : Z) (k : client) : outcome (option nat * Z * client) :=
  match n with
  | O => Done (None, cur, k)
  | S n =>
      let* ip := (if cur <? 0 then Undef else of_option (ips !! Z.to_nat cur)) in
      let* (x, k) := pool_get_conn ip k in
      match x with
      | Some c => Done (Some c, cur, k)
      | None => shard_conn_loop n ips (Z.rem (cur + 1) (Z.of_nat (length ips))) k
      end
  end.

Definition get_shard_conn (idx : nat) (k : client) : outcome (option nat * client) :=
  if negb (v_state (k_vol k) =? VOLUME_OPENED) then Done (None, k)
  else
    let* sh := of_option (v_shards (k_vol k) !! idx) in
    let* (x, cur, k) := shard_conn_loop (length (sh_ips sh)) (sh_ips sh) (sh_current_ip sh) k in
    let sh := mkCShard (sh_ips sh) cur (sh_is_local sh) in
    Done (x, set_kvol (set_vshards (<[idx := sh]> (v_shards (k_vol k))) (k_vol k)) k).

(** [PfConnection::close] with the flush of the receive side *)
Definition conn_close (c : nat) (k : client) : outcome client :=
  let* cn := get_cn c k in
  if negb (cn_ok cn) then Done k
  else
    let k := put_cn c (mkCConn false [] None (cn_wire cn)) k in
    let* k := (match cn_data cn with Some i => free_reply (DBd i) k | None => Done k end) in
    free_replies (cn_recv_q cn) k.

(** ** Events of the volume thread *)

(** the index of a shard is an int; a vector is not checked *)
Definition shard_at (offset : Z) (k : client) : outcome nat :=
  let idx := i32 (Z.shiftr offset SHARD_SIZE_ORDER) in
  if (0 <=? idx) && (idx <? Z.of_nat (length (v_shards (k_vol k)))) then Done (Z.to_nat idx) else Undef.

(** no connection: the request fails or waits, and the volume is reopened *)
Definition no_conn (now : Z) (i : nat) (k : client) : outcome client :=
  let* q := get_io i k in
  let* k := (if q_submit_time q + ce_io_timeout env <? now then
               let* k := callback i (- EIO) k in free_iocb i k
             else Done (set_kvol (set_vwaiting (dl_append i (v_reopen_waiting (k_vol k))) (k_vol k)) k)) in
  if v_state (k_vol k) =? VOLUME_OPENED then
    let k := set_kvol (set_vstate VOLUME_WAIT_REOPEN (k_vol k)) k in
    Done (snd (post_event (CvReopenVolume (now + 5000000)) k))
  else Done k.

(** a connection: the buffer for the reply and the command are posted *)
Definition send_req (now : Z) (c i : nat) (k : client) : outcome client :=
  let* q := get_io i k in
  let q := set_qcmd (set_hmeta (u16 (v_meta_ver (k_vol k))) (q_cmd q)) q in
  match k_replies k with
  | [] => Fatal   (* [reply_pool.alloc] throws *)
  | rbd :: rest =>
      let k := set_kreplies rest (put_io i (set_qtimeout false (set_qsent now (Some c) q)) k) in
      let rc := ce_post_recv env (n_calls (k_net k)) in
      let k := count_call k in
      if negb (rc =? 0) then
        let* k := free_reply rbd k in
        let* k := callback i (- EAGAIN) k in free_iocb i k
      else
        let* cn := get_cn c k in
        let k := put_cn c (mkCConn (cn_ok cn) (cn_recv_q cn ++ [rbd]) (cn_data cn) (cn_wire cn)) k in
        let rc := ce_post_send env (n_calls (k_net k)) in
        let k := count_call k in
        if negb (rc =? 0) then let* k := callback i (- EAGAIN) k in free_iocb i k
        else
          let* cn := get_cn c k in
          let data := if h_opcode (q_cmd q) =? S5_OP_WRITE then take (Z.to_nat (q_data_len q)) (q_data q) else [] in
          Done (put_cn c (mkCConn (cn_ok cn) (cn_recv_q cn) (cn_data cn) (cn_wire cn ++ [(q_cmd q, data)])) k)
  end.

(** EVT_IO_REQ.  A shard of a local store has none yet: [get_local_store]
    calls [init] through the null pointer. *)
Definition on_io_req (now : Z) (i : nat) (k : client) : outcome client :=
  let* q := get_io i k in
  let* idx := shard_at (h_offset (q_cmd q)) k in
  let* sh := of_option (v_shards (k_vol k) !! idx) in
  if sh_is_local sh then Undef
  else
    let* (x, k) := get_shard_conn idx k in
    match x with
    | None => no_conn now i k
    | Some c => send_req now c i k
    end.

(** EVT_IO_COMPLETE: [client_do_complete], for the descriptor [b] of block
    [i] *)
Definition fill_user (q : PfClientIocb) : outcome user_mem :=
  if h_opcode (q_cmd q) =? S5_OP_READ then
    match q_user q with
    | UserIov v =>
        if bool_decide (v = []) then Undef   (* the pointer to the vector is taken for a buffer *)
        else let* (_, v) := iov_from_buf v (q_data q) (q_data_len q) in Done (UserIov v)
    | UserBuf l =>
        let* x := get_at 0 (q_data_len q) (q_data q) in
        let* l := put_at 0 x l in Done (UserBuf l)
    end
  else Done (q_user q).

Definition client_do_complete (now : Z) (b : cbd) (i : nat) (k : client) : outcome client :=
  let* q := get_io i k in
  let* (rb, rep) := of_option (q_reply q) in
  let s := rep_status rep in
  if negb (Z.land s MSG_STATUS_REOPEN =? 0) then
    let k := (if v_meta_ver (k_vol k) <? rep_meta_ver rep then snd (post_event (CvReopenVolume now) k) else k) in
    let* _ := of_option (q_conn q) in
    let k := put_io i (set_qsent (q_sent_time q) None q) k in
    let k := snd (post_event (CvIoReq i) k) in
    free_reply b k
  else if h_opcode (q_cmd q) =? S5_OP_HEARTBEAT then
    let* _ := of_option (q_conn q) in
    let* k := free_iocb i (put_io i (set_qsent 0 None q) k) in
    free_reply b k
  else
    let* k := free_reply rb k in
    let* q := get_io i k in
    let* _ := of_option (q_conn q) in
    let q := set_qreply None (set_qsent 0 None q) in
    let* m := fill_user q in
    let q := set_quser m q in
    let* k := free_iocb i (put_io i q k) in
    Done (set_kanswers (k_answers k ++ [mkAnswer (q_arg q) s (q_user q)]) k).

Definition resend_io (i : nat) (k : client) : outcome (Z * client) :=
  let* q := get_io i k in
  let k := put_io i (set_qcmd (set_seq (u32 (h_command_seq (q_cmd q) + 1)) (q_cmd q)) q) k in
  Done (post_event (CvIoReq i) k).

(** EVT_IO_TIMEOUT *)
Definition on_io_timeout (now : Z) (i : nat) (k : client) : outcome client :=
  if negb (v_state (k_vol k) =? VOLUME_OPENED) then Done k
  else
    let* q := get_io i k in
    if negb (q_sent_time q =? 0) && (q_sent_time q + ce_io_timeout env <? now) then
      let* c := of_option (q_conn q) in
      if h_opcode (q_cmd q) =? S5_OP_HEARTBEAT then free_iocb i k
      else
        let k := put_io i (set_qsent 0 (q_conn q) q) k in
        let* k := conn_close c k in
        let* q := get_io i k in
        let k := put_io i (set_qsent (q_sent_time q) None q) k in
        let* (rc, k) := resend_io i k in
        if negb (rc =? 0) then free_iocb i k else Done k
    else Done k.

(** [while((io = reopen_waiting.pop()) != NULL) resend_io(io)] *)
Fixpoint resend_all (l : list nat) (k : client) : outcome client :=
  match l with
  | [] => Done k
  | i :: l => let* (_, k) := resend_io i (set_kvol (set_vwaiting l (k_vol k)) k) in resend_all l k
  end.

Definition reopen_volume (now : Z) (k : client) : outcome client :=
  let r := ce_reopen env (n_calls (k_net k)) in
  let k := count_call k in
  match r with
  | RoThrow => Fatal
  | RoErr _ => Done (set_kvol (set_vstate VOLUME_REOPEN_FAIL (k_vol k)) k)
  | RoOk id m seq shards =>
      let v := k_vol k in
      let k := set_kvol (mkCVol VOLUME_OPENED now m seq id shards (v_reopen_waiting v)) k in
      resend_all (v_reopen_waiting v) k
  end.

Definition process_event (now : Z) (e : cevent) (k : client) : outcome client :=
  match e with
  | CvIoReq i => on_io_req now i k
  | CvIoComplete b i => client_do_complete now b i k
  | CvIoTimeout i => on_io_timeout now i k
  | CvReopenVolume t => if v_open_time (k_vol k) <? t then reopen_volume now k else Done k
  | CvVolumeReconnect =>
      if bool_decide (length (k_pool k) = length (k_ios k))
         && ((v_state (k_vol k) =? VOLUME_OPENED) || (v_state (k_vol k) =? VOLUME_REOPEN_FAIL)
             || (v_state (k_vol k) =? VOLUME_DISCONNECTED))
      then Done (snd (post_event (CvReopenVolume now) k))
      else Done k
  end.

(** the thread takes the next event *)
Definition volume_thread (now : Z) (k : client) : outcome client :=
  match k_events k with
  | [] => Done k
  | e :: l => process_event now e (set_kevents l k)
  end.

(** ** The network *)

(** [client_on_tcp_network_done] for a reply *)
Definition on_reply (c : nat) (rep : PfMessageReply) (k : client) : run client :=
  let? cn := lift (get_cn c k) in
  match cn_ok cn, cn_data cn, cn_recv_q cn with
  | true, None, RBd b :: rest =>
      let? q := lift (get_io (Z.to_nat (rep_command_id rep)) k) in
      if negb (h_command_seq (q_cmd q) =? rep_command_seq rep) then Fatal
      else
        let i := Z.to_nat (rep_command_id rep) in
        let q := set_qreply (Some (RBd b, rep)) q in
        let k := put_io i q k in
        if h_opcode (q_cmd q) =? S5_OP_READ then
          ret (put_cn c (mkCConn true rest (Some i) (cn_wire cn)) k)
        else
          ret (snd (post_event (CvIoComplete (RBd b) i) (put_cn c (mkCConn true rest None (cn_wire cn)) k)))
  | true, None, DBd _ :: _ => Undef   (* a data buffer waits for the reply *)
  | _, _, _ => Done None
  end.

(** the data of a read are complete; no data never are, [recv] takes them for
    the end of the stream *)
Definition on_data (c : nat) (l : list Z) (k : client) : run client :=
  let? cn := lift (get_cn c k) in
  match cn_ok cn, cn_data cn with
  | true, Some i =>
      let? q := lift (get_io i k) in
      if negb (Z.of_nat (length l) =? q_data_len q) || bool_decide (l = []) then Done None
      else
        let? data := lift (put_at 0 l (q_data q)) in
        if negb (q_data_bound q) then Undef
        else
          let k := put_cn c (mkCConn true (cn_recv_q cn) None (cn_wire cn)) (put_io i (set_qdata data q) k) in
          ret (snd (post_event (CvIoComplete (DBd i) i) k))
  | _, _ => Done None
  end.

(** ** The timeout thread *)
Definition timed_out (now : Z) (q : PfClientIocb) : bool :=
  negb (q_sent_time q =? 0) && (q_sent_time q + ce_io_timeout env <? now) && negb (q_is_timeout q).

Fixpoint timeout_scan (now : Z) (n i : nat) (k : client) : client :=
  match n with
  | O => k
  | S n =>
      let k := match k_ios k !! i with
               | Some q => if timed_out now q then
                             let k := snd (post_event (CvIoTimeout i) k) in
                             put_io i (set_qtimeout true q) k
                           else k
               | None => k
               end in
      timeout_scan now n (S i) k
  end.

Definition timeout_check (now : Z) (k : client) : client := timeout_scan now (length (k_ios k)) 0 k.
End Client.
