(* ===== verification/ClientProps.v ===== *)
(** * Every request of a client is answered once

    The blocks of a client are in the pool, in an event, waiting for the
    volume to be opened again, or in flight; a step moves a block from one
    place to another, and a request is answered exactly when its block goes
    back to the pool. *)

From Stdlib Require Import ZArith Lia String Permutation.
From stdpp Require Import base tactics list numbers gmap strings.
From S2P Require Import Prelude Bytes Runs Ids Connection TcpServer TcpProps Iov Client.

(** ** Places *)
Definition event_io (e : cevent) : option nat :=
  match e with CvIoReq i | CvIoComplete _ i => Some i | _ => None end.

(** [h] are the blocks the running handler has in hand *)
Definition places (h : list nat) (k : client) : list nat :=
  h ++ k_pool k ++ omap event_io (k_events k) ++ v_reopen_waiting (k_vol k).

Definition is_rbd (b : cbd) : Prop := match b with RBd _ => True | DBd _ => False end.

Record io_ok (q : PfClientIocb) : Prop := mkIoOk {
  io_data : Z.of_nat (length (q_data q)) = PF_MAX_IO_SIZE;
  io_bound : q_data_bound q = true;
  io_widths : in_width 2 (h_command_id (q_cmd q)) /\ in_width 2 (h_meta_ver (q_cmd q)) /\ in_width 4 (h_command_seq (q_cmd q))
}.

(** the data that follow a command *)
Definition payload (q : PfClientIocb) : list Z :=
  if h_opcode (q_cmd q) =? S5_OP_WRITE then take (Z.to_nat (q_data_len q)) (q_data q) else [].

(** [asked op offset length data] are the requests of the users *)
Section Inv.
Variable asked : Z -> Z -> Z -> list Z -> Prop.
Variable shards : nat.

(** a request the handlers can carry out *)
Record req_ok (n : nat) (q : PfClientIocb) : Prop := mkReqOk {
  rq_len : 0 <= q_data_len q <= PF_MAX_IO_SIZE;
  rq_user : match q_user q with UserBuf l => q_data_len q <= Z.of_nat (length l) | UserIov v => v <> [] end;
  rq_op : h_opcode (q_cmd q) = S5_OP_READ \/ h_opcode (q_cmd q) = S5_OP_WRITE;
  rq_shard : 0 <= Z.shiftr (h_offset (q_cmd q)) SHARD_SIZE_ORDER < Z.of_nat n;
  rq_head : head_ok (q_cmd q) /\ h_length (q_cmd q) = q_data_len q /\ q_data_len q mod 512 = 0;
  rq_asked : asked (h_opcode (q_cmd q)) (h_offset (q_cmd q)) (h_length (q_cmd q)) (payload q)
}.

(** a command on the wire *)
Definition sent_ok (m : PfMessageHead * list Z) : Prop :=
  head_ok (fst m) /\ h_length (fst m) <= PF_MAX_IO_SIZE /\ h_length (fst m) mod 512 = 0
  /\ asked (h_opcode (fst m)) (h_offset (fst m)) (h_length (fst m)) (snd m)
  /\ ((h_opcode (fst m) = S5_OP_READ /\ snd m = [])
      \/ (h_opcode (fst m) = S5_OP_WRITE /\ Z.of_nat (length (snd m)) = h_length (fst m))).

Definition conn_ok (cn : cconn) : Prop := Forall is_rbd (cn_recv_q cn) /\ Forall sent_ok (cn_wire cn).

Definition same_vol (v v' : PfClientVolume) : Prop :=
  length (v_shards v') = length (v_shards v) /\ (in_width 8 (v_volume_id v) -> in_width 8 (v_volume_id v')).

Definition replied (b : cbd) (i : nat) (q : PfClientIocb) : Prop :=
  (exists r rep, q_reply q = Some (RBd r, rep)) /\ is_Some (q_conn q) /\ (is_rbd b \/ b = DBd i).

Record shard_ok (sh : PfClientShardInfo) : Prop := mkCShardOk {
  so_local : sh_is_local sh = false;
  so_current : sh_ips sh = [] \/ 0 <= sh_current_ip sh < Z.of_nat (length (sh_ips sh))
}.

(** the arguments of the requests that are not answered yet *)
Definition pend_of (ios : list PfClientIocb) (pool : list nat) (i : nat) : option Z :=
  if decide (i ∈ pool) then None else q_arg <$> ios !! i.

Definition pending (k : client) : list Z := omap (pend_of (k_ios k) (k_pool k)) (seq 0 (length (k_ios k))).

Record inv (h : list nat) (k : client) (acc : list Z) : Prop := mkInv {
  iv_nodup : NoDup (places h k);
  iv_range : forall i, i ∈ places h k -> (i < length (k_ios k))%nat;
  iv_io : forall i q, k_ios k !! i = Some q -> io_ok q;
  iv_req : forall i q, k_ios k !! i = Some q -> i ∉ k_pool k -> req_ok (length (v_shards (k_vol k))) q;
  iv_fly : forall i q, k_ios k !! i = Some q -> i ∉ places h k ->
           exists c, q_conn q = Some c /\ (c < length (n_conns (k_net k)))%nat;
  iv_done : forall b i, CvIoComplete b i ∈ k_events k -> exists q, k_ios k !! i = Some q /\ replied b i q;
  iv_data : forall c cn i, n_conns (k_net k) !! c = Some cn -> cn_data cn = Some i ->
            (i ∉ places h k) /\ exists q, k_ios k !! i = Some q /\ q_conn q = Some c
              /\ (exists r rep, q_reply q = Some (RBd r, rep)) /\ h_opcode (q_cmd q) = S5_OP_READ;
  iv_bds : forall c cn, n_conns (k_net k) !! c = Some cn -> conn_ok cn;
  iv_replies : Forall is_rbd (k_replies k);
  iv_map : forall ip c, n_ip_id_map (k_net k) !! ip = Some c -> (c < length (n_conns (k_net k)))%nat;
  iv_shards : Forall shard_ok (v_shards (k_vol k));
  iv_acc : acc ≡ₚ pending k ++ (a_arg <$> k_answers k);
  iv_count : length (v_shards (k_vol k)) = shards /\ in_width 8 (v_volume_id (k_vol k));
  iv_timeout : forall i, CvIoTimeout i ∈ k_events k -> (i < length (k_ios k))%nat
}.

(** ** Blocks and arguments *)
Lemma omap_seq_out (g g' : nat -> option Z) a n i x :
  (a <= i < a + n)%nat -> g i = Some x -> g' i = None -> (forall j, j <> i -> g' j = g j) ->
  omap g (seq a n) ≡ₚ x :: omap g' (seq a n).
Proof.
  intros Hi Hx Hn Hj. revert a Hi. induction n as [|n IH]; intros a Hi; [lia|]. cbn [seq].
  assert (forall m b, (i < b)%nat -> omap g' (seq b m) = omap g (seq b m)) as Hsame.
  { induction m as [|m IHm]; intros b Hb; [done|]. cbn. rewrite Hj by lia. destruct (g b); by rewrite IHm by lia. }
  destruct (decide (a = i)) as [->|Hne].
  - cbn. rewrite Hx, Hn, Hsame by lia. done.
  - cbn. rewrite (Hj a) by done. specialize (IH (S a) ltac:(lia)). destruct (g a); [|done]. rewrite IH. apply Permutation_swap.
Qed.

Lemma pending_ext k k' :
  length (k_ios k') = length (k_ios k) ->
  (forall i, pend_of (k_ios k') (k_pool k') i = pend_of (k_ios k) (k_pool k) i) -> pending k' = pending k.
Proof.
  intros Hl He. unfold pending. rewrite Hl. generalize (seq 0 (length (k_ios k))). intros l.
  induction l as [|i l IH]; [done|]. cbn. rewrite He, IH. done.
Qed.

Lemma pending_out k k' i q :
  length (k_ios k') = length (k_ios k) -> k_ios k !! i = Some q -> i ∉ k_pool k -> i ∈ k_pool k' ->
  (forall j, j <> i -> pend_of (k_ios k') (k_pool k') j = pend_of (k_ios k) (k_pool k) j) ->
  pending k ≡ₚ q_arg q :: pending k'.
Proof.
  intros Hl Hq Hp Hp' Hj. unfold pending. rewrite Hl. apply (omap_seq_out _ _ 0 _ i).
  - apply lookup_lt_Some in Hq. lia.
  - unfold pend_of. by rewrite decide_False, Hq.
  - unfold pend_of. by rewrite decide_True.
  - done.
Qed.

(** ** Moves *)
Lemma inv_move h h' k k' acc :
  inv h k acc -> k_ios k' = k_ios k -> k_pool k' = k_pool k -> k_net k' = k_net k -> k_replies k' = k_replies k ->
  same_vol (k_vol k) (k_vol k') -> Forall shard_ok (v_shards (k_vol k')) ->
  k_answers k' = k_answers k -> places h' k' ≡ₚ places h k ->
  (forall b i, CvIoComplete b i ∈ k_events k' ->
     CvIoComplete b i ∈ k_events k \/ exists q, k_ios k !! i = Some q /\ replied b i q) ->
  (forall i, CvIoTimeout i ∈ k_events k' -> CvIoTimeout i ∈ k_events k \/ (i < length (k_ios k))%nat) ->
  inv h' k' acc.
Proof.
  intros [] E1 E2 E3 E4 (E5 & E8) E6 E7 P D T. split; rewrite ?E1, ?E2, ?E3, ?E4, ?E5, ?E7; try done.
  - by rewrite P.
  - intros i. rewrite P. apply iv_range0.
  - intros i q Hq. rewrite P. by apply iv_fly0.
  - intros b i Hb. destruct (D b i Hb) as [Hb'|Hq]; [by apply iv_done0|done].
  - intros c cn i Hc Hi. rewrite P. by eapply iv_data0.
  - unfold pending in *. by rewrite E1, E2.
  - tauto.
  - intros i Hi. destruct (T i Hi) as [Hi'|Hl]; [by apply iv_timeout0|done].
Qed.

Lemma inv_acc h k acc acc' : inv h k acc -> acc' ≡ₚ acc -> inv h k acc'.
Proof. intros [] P. split; try done. by rewrite P. Qed.

Lemma inv_pop h k e l acc :
  inv h k acc -> k_events k = e :: l ->
  inv (match event_io e with Some i => i :: h | None => h end) (set_kevents l k) acc.
Proof.
  intros H E. eapply inv_move; [exact H|done..|apply H|done| | |].
  - unfold places. cbn [k_pool k_events k_vol set_kevents]. rewrite E. destruct e; cbn [event_io omap list_omap]; try done;
      rewrite <- !app_comm_cons; rewrite !app_assoc; rewrite <- Permutation_middle; by rewrite <- ?app_assoc.
  - intros b i Hb. left. rewrite E. by right.
  - intros i Hi. left. rewrite E. by right.
Qed.

Lemma inv_posted h k e acc :
  inv h k acc -> event_io e = None -> (forall i, e = CvIoTimeout i -> (i < length (k_ios k))%nat) ->
  inv h (set_kevents (k_events k ++ [e]) k) acc.
Proof.
  intros H E T. eapply inv_move; [exact H|done..|apply H|done| | |].
  - unfold places. cbn [k_pool k_events k_vol set_kevents]. rewrite omap_app. cbn. rewrite E, app_nil_r. done.
  - intros b i. cbn [k_events set_kevents]. rewrite elem_of_app, list_elem_of_singleton. intros [Hb|<-]; [by left|done].
  - intros i. cbn [k_events set_kevents]. rewrite elem_of_app, list_elem_of_singleton. intros [Hb|<-]; [by left|right; by apply T].
Qed.

Lemma inv_post_io h k e i acc :
  inv (i :: h) k acc -> event_io e = Some i ->
  (forall b, e = CvIoComplete b i -> exists q, k_ios k !! i = Some q /\ replied b i q) ->
  inv h (set_kevents (k_events k ++ [e]) k) acc.
Proof.
  intros H E D. eapply inv_move; [exact H|done..|apply H|done| | |].
  - unfold places. cbn [k_pool k_events k_vol set_kevents]. rewrite omap_app. cbn. rewrite E. solve_Permutation.
  - intros b j. cbn [k_events set_kevents]. rewrite elem_of_app, list_elem_of_singleton. intros [Hb|<-]; [by left|].
    cbn [event_io] in E. injection E as ->. right. by apply D.
  - intros j. cbn [k_events set_kevents]. rewrite elem_of_app, list_elem_of_singleton. intros [Hb|<-]; [by left|done].
Qed.

Lemma inv_vol h h' k v acc :
  inv h k acc -> same_vol (k_vol k) v -> Forall shard_ok (v_shards v) ->
  h' ++ v_reopen_waiting v ≡ₚ h ++ v_reopen_waiting (k_vol k) -> inv h' (set_kvol v k) acc.
Proof.
  intros H E1 E2 P. eapply inv_move; [exact H|done..| | |].
  - unfold places. cbn [k_pool k_events k_vol set_kvol].
    transitivity (k_pool k ++ omap event_io (k_events k) ++ h' ++ v_reopen_waiting v); [solve_Permutation|]. rewrite P. solve_Permutation.
  - intros b i Hb. by left.
  - intros i Hi. by left.
Qed.

(** a block in hand is rewritten *)
Lemma inv_put h k i q q' acc :
  inv h k acc -> i ∈ h -> k_ios k !! i = Some q -> io_ok q' -> req_ok (length (v_shards (k_vol k))) q' -> q_arg q' = q_arg q ->
  inv h (put_io i q' k) acc.
Proof.
  intros H Hi Hq Ho Hr Ha. destruct H as [H1 H2 H3 H4 H5 H6 H7 H8 H9 H10 H11 H12].
  assert (i ∈ places h k) as Hip by (unfold places; rewrite elem_of_app; by left).
  assert ((i ∉ k_pool k) /\ (i ∉ omap event_io (k_events k))) as [Hnp Hne].
  { unfold places in H1. apply NoDup_app in H1 as (_ & H1 & _). specialize (H1 i Hi). rewrite !elem_of_app in H1. tauto. }
  assert (forall j, k_ios (put_io i q' k) !! j = if decide (j = i) then Some q' else k_ios k !! j) as Hl.
  { intros j. cbn [put_io set_kios k_ios]. destruct (decide (j = i)) as [->|]; [|by rewrite list_lookup_insert_ne].
    rewrite list_lookup_insert_eq; [done|]. by eapply lookup_lt_Some. }
  split; try done.
  - intros j Hj. cbn [put_io set_kios k_ios]. rewrite length_insert. by apply H2.
  - intros j p. rewrite Hl. destruct (decide (j = i)); [intros [= <-]; done|apply H3].
  - intros j p. rewrite Hl. destruct (decide (j = i)); [intros [= <-]; done|apply H4].
  - intros j p. rewrite Hl. destruct (decide (j = i)) as [->|]; [intros _ Hn; done|apply H5].
  - intros b j Hb. rewrite Hl. destruct (decide (j = i)) as [->|]; [|by apply H6]. exfalso. apply Hne.
    apply list_elem_of_omap. by exists (CvIoComplete b i).
  - intros c cn j Hc Hj. rewrite Hl. destruct (H7 c cn j Hc Hj) as [Hn Hx]. destruct (decide (j = i)) as [->|]; [done|]. done.
  - rewrite (pending_ext k); [done| |].
    { apply length_insert. }
    intros j. unfold pend_of.
    rewrite Hl. cbn [put_io set_kios k_pool]. destruct (decide (j ∈ k_pool k)); [done|]. destruct (decide (j = i)) as [->|]; [|done].
    rewrite Hq. cbn. by rewrite Ha.
  - intros j Hj. cbn [put_io set_kios k_ios]. rewrite length_insert. by apply iv_timeout0.
Qed.

(** a block in hand that has a connection is in flight *)
Lemma inv_fly h k i q c acc :
  inv (i :: h) k acc -> k_ios k !! i = Some q -> q_conn q = Some c -> (c < length (n_conns (k_net k)))%nat -> inv h k acc.
Proof.
  intros [H1 H2 H3 H4 H5 H6 H7 H8 H9 H10 H11 H12] Hq Hc Hl.
  assert (places (i :: h) k = i :: places h k) as E by done. rewrite E in *. apply NoDup_cons in H1 as [Hi H1]. split; try done.
  - intros j Hj. apply H2. by right.
  - intros j p Hp Hj. destruct (decide (j = i)) as [->|]; [|apply (H5 j p Hp); rewrite elem_of_cons; tauto].
    assert (p = q) as -> by congruence. by exists c.
  - intros c' cn j Hc' Hj. destruct (H7 c' cn j Hc' Hj) as [Hn Hx]. rewrite elem_of_cons in Hn. split; [tauto|done].
Qed.

(** a block in flight that no connection receives data for is taken in hand *)
Lemma inv_catch h k i q acc :
  inv h k acc -> k_ios k !! i = Some q -> i ∉ places h k ->
  (forall c cn, n_conns (k_net k) !! c = Some cn -> cn_data cn <> Some i) -> inv (i :: h) k acc.
Proof.
  intros [H1 H2 H3 H4 H5 H6 H7 H8 H9 H10 H11 H12] Hq Hi Hd.
  assert (places (i :: h) k = i :: places h k) as E by done. split; rewrite ?E; try done.
  - by apply NoDup_cons.
  - intros j. rewrite elem_of_cons. intros [->|Hj]; [by eapply lookup_lt_Some|by apply H2].
  - intros j p Hp Hj. apply (H5 j p Hp). intros Hx. apply Hj. by right.
  - intros c cn j Hc Hj. destruct (H7 c cn j Hc Hj) as [Hn Hx]. split; [|done]. rewrite elem_of_cons. intros [->|Hx']; [|done].
    by eapply Hd.
Qed.

Lemma hand_not_pool h k i acc : inv (i :: h) k acc -> i ∉ k_pool k.
Proof.
  intros H. pose proof (iv_nodup _ _ _ H) as Hn. cbn in Hn. apply NoDup_cons in Hn as [Hi _]. rewrite !elem_of_app in Hi. tauto.
Qed.

Lemma pool_short h k i acc : inv (i :: h) k acc -> (length (k_pool k) < length (k_ios k))%nat.
Proof.
  intros H. pose proof (iv_nodup _ _ _ H) as Hn. pose proof (iv_range _ _ _ H) as Hr.
  assert (length (i :: k_pool k) <= length (seq 0 (length (k_ios k))))%nat as Hl.
  { apply submseteq_length, NoDup_submseteq.
    - apply NoDup_cons. split; [by eapply hand_not_pool|]. cbn in Hn. apply NoDup_cons in Hn as [_ Hn].
      apply NoDup_app in Hn as (_ & _ & Hn). by apply NoDup_app in Hn as (? & _ & _).
    - intros j Hj. apply elem_of_seq. split; [lia|]. apply Hr. unfold places. cbn. rewrite elem_of_cons in *.
      destruct Hj as [->|Hj]; [by left|right]. rewrite !elem_of_app. tauto. }
  rewrite length_seq in Hl. cbn [length] in Hl. lia.
Qed.

Lemma waiting_length h k acc : inv h k acc -> (length (v_reopen_waiting (k_vol k)) <= length (k_ios k))%nat.
Proof.
  intros H. rewrite <- (length_seq (length (k_ios k)) 0). apply submseteq_length, NoDup_submseteq.
  - pose proof (iv_nodup _ _ _ H) as Hn. unfold places in Hn. apply NoDup_app in Hn as (_ & _ & Hn).
    apply NoDup_app in Hn as (_ & _ & Hn). by apply NoDup_app in Hn as (_ & _ & Hn).
  - intros j Hj. apply elem_of_seq. split; [lia|]. apply (iv_range _ _ _ H). unfold places. rewrite !elem_of_app. tauto.
Qed.

Lemma pending_none h k acc : inv h k acc -> length (k_pool k) = length (k_ios k) -> pending k = [].
Proof.
  intros H Hl. unfold pending.
  assert (seq 0 (length (k_ios k)) ⊆+ k_pool k) as Hsub.
  { assert (k_pool k ≡ₚ seq 0 (length (k_ios k))) as ->; [|done]. apply submseteq_length_Permutation; [|rewrite length_seq; lia].
    apply NoDup_submseteq.
    - pose proof (iv_nodup _ _ _ H) as Hn. unfold places in Hn. apply NoDup_app in Hn as (_ & _ & Hn). by apply NoDup_app in Hn as (? & _ & _).
    - intros j Hj. apply elem_of_seq. split; [lia|]. apply (iv_range _ _ _ H). unfold places. rewrite !elem_of_app. tauto. }
  assert (forall l, (forall i, i ∈ l -> i ∈ k_pool k) -> omap (pend_of (k_ios k) (k_pool k)) l = []) as Hnil.
  { induction l as [|i l IH]; intros Hi; [done|]. cbn. unfold pend_of at 1. rewrite decide_True by (apply Hi; by left). apply IH.
    intros j Hj. apply Hi. by right. }
  apply Hnil. intros i Hi. by eapply elem_of_submseteq.
Qed.

(** a block goes back to the pool and its request is answered *)
Lemma inv_free h k i q st m acc :
  inv (i :: h) k acc -> k_ios k !! i = Some q ->
  inv h (set_kanswers (k_answers k ++ [mkAnswer (q_arg q) st m]) (set_kpool (k_pool k ++ [i]) k)) acc.
Proof.
  intros H Hq. pose proof (hand_not_pool _ _ _ _ H) as Hnp. destruct H as [H1 H2 H3 H4 H5 H6 H7 H8 H9 H10 H11 H12].
  set (k' := set_kanswers _ _).
  assert (places h k' ≡ₚ places (i :: h) k) as P by (unfold places, k'; cbn [set_kanswers set_kpool k_pool k_events k_vol]; solve_Permutation).
  split; try done.
  - by rewrite P.
  - intros j. rewrite P. apply H2.
  - intros j p Hp Hj. apply (H4 j p Hp). intros Hx. apply Hj. cbn [k' set_kanswers set_kpool k_pool]. rewrite elem_of_app. by left.
  - intros j p Hp. rewrite P. by apply H5.
  - intros c cn j Hc Hj. rewrite P. by eapply H7.
  - rewrite H12. cbn [k' set_kanswers k_answers]. rewrite fmap_app. cbn [fmap list_fmap a_arg].
    rewrite (pending_out k k' i q) by
      (first [done|cbn [k' set_kanswers set_kpool k_pool]; rewrite elem_of_app, list_elem_of_singleton; by right
             |intros j Hj; unfold pend_of; cbn [k' set_kanswers set_kpool k_pool k_ios]; apply decide_ext;
              rewrite elem_of_app, list_elem_of_singleton; tauto]).
    solve_Permutation.
Qed.

(** a block leaves the pool with a new request *)
Lemma inv_alloc h k i p q q' acc :
  inv h k acc -> k_pool k = i :: p -> k_ios k !! i = Some q -> io_ok q' -> req_ok (length (v_shards (k_vol k))) q' ->
  inv (i :: h) (set_kpool p (put_io i q' k)) (q_arg q' :: acc).
Proof.
  intros H Hp Hq Ho Hr. destruct H as [H1 H2 H3 H4 H5 H6 H7 H8 H9 H10 H11 H12]. set (k' := set_kpool _ _).
  assert (places (i :: h) k' ≡ₚ places h k) as P
    by (unfold places, k'; cbn [set_kpool put_io set_kios k_pool k_events k_vol]; rewrite Hp; solve_Permutation).
  assert (i ∈ places h k) as Hip by (unfold places; rewrite Hp, elem_of_app; right; by left).
  assert ((i ∉ p) /\ (i ∉ omap event_io (k_events k))) as [Hnp Hne].
  { unfold places in H1. rewrite Hp in H1. apply NoDup_app in H1 as (_ & _ & H1). cbn in H1.
    apply NoDup_cons in H1 as [H1 _]. rewrite !elem_of_app in H1. tauto. }
  assert (forall j, k_ios k' !! j = if decide (j = i) then Some q' else k_ios k !! j) as Hl.
  { intros j. cbn [k' set_kpool put_io set_kios k_ios]. destruct (decide (j = i)) as [->|]; [|by rewrite list_lookup_insert_ne].
    rewrite list_lookup_insert_eq; [done|]. by eapply lookup_lt_Some. }
  split; try done.
  - by rewrite P.
  - intros j. rewrite P. cbn [k' set_kpool put_io set_kios k_ios]. rewrite length_insert. apply H2.
  - intros j x. rewrite Hl. destruct (decide (j = i)); [intros [= <-]; done|apply H3].
  - intros j x. rewrite Hl. destruct (decide (j = i)); [intros [= <-]; done|]. intros Hx Hj. apply (H4 j x Hx). rewrite Hp, elem_of_cons. tauto.
  - intros j x. rewrite Hl, P. destruct (decide (j = i)) as [->|]; [intros _ Hn; done|apply H5].
  - intros b j Hb. rewrite Hl. destruct (decide (j = i)) as [->|]; [|by apply H6]. exfalso. apply Hne.
    apply list_elem_of_omap. by exists (CvIoComplete b i).
  - intros c cn j Hc Hj. rewrite Hl, P. destruct (H7 c cn j Hc Hj) as [Hn Hx]. destruct (decide (j = i)) as [->|]; done.
  - rewrite H12. rewrite (pending_out k' k i q').
    { done. }
    { symmetry. apply length_insert. }
    { by rewrite Hl, decide_True. }
    { done. }
    { rewrite Hp. by left. }
    intros j Hj. unfold pend_of. rewrite Hl, Hp, (decide_False (P := j = i)) by done. cbn [k' set_kpool k_pool].
    apply decide_ext. rewrite elem_of_cons. tauto.
  - intros j Hj. cbn [k' set_kpool put_io set_kios k_ios]. rewrite length_insert. by apply iv_timeout0.
Qed.

(** ** The network *)
Definition net_ok (n n' : cnet) : Prop :=
  (length (n_conns n) <= length (n_conns n'))%nat
  /\ (forall ip c, n_ip_id_map n' !! ip = Some c -> (c < length (n_conns n'))%nat)
  /\ forall c cn, n_conns n' !! c = Some cn -> conn_ok cn
       /\ (cn_data cn = None \/ exists cn0, n_conns n !! c = Some cn0 /\ cn_data cn = cn_data cn0).

Lemma inv_net h k n acc : inv h k acc -> net_ok (k_net k) n -> inv h (set_knet n k) acc.
Proof.
  intros [H1 H2 H3 H4 H5 H6 H7 H8 H9 H10 H11 H12] (N1 & N2 & N3). split; cbn [set_knet k_net k_ios k_pool k_vol k_events k_replies k_answers]; try done.
  - intros i q Hq Hi. destruct (H5 i q Hq Hi) as (c & Hc & Hl). exists c. split; [done|lia].
  - intros c cn i Hc Hi. destruct (N3 c cn Hc) as [_ [Hn|(cn0 & Hc0 & Hd)]]; [congruence|]. apply (H7 c cn0 i Hc0). congruence.
  - intros c cn Hc. by destruct (N3 c cn Hc).
Qed.

Lemma net_ok_conn h k c cn cn' calls acc :
  inv h k acc -> n_conns (k_net k) !! c = Some cn -> conn_ok cn' -> cn_data cn' = None \/ cn_data cn' = cn_data cn ->
  net_ok (k_net k) (mkCNet (<[c := cn']> (n_conns (k_net k))) (n_ip_id_map (k_net k)) calls).
Proof.
  intros H Hc Hb Hd. split; [|split]; cbn [n_conns n_ip_id_map]; rewrite ?length_insert; [lia|apply H|].
  intros c' x Hx. apply list_lookup_insert_Some in Hx as [(-> & <- & _)|[Hne Hx]].
  - split; [done|]. destruct Hd as [Hd|Hd]; [by left|right; by exists cn].
  - split; [by eapply (iv_bds _ _ _ H)|right; by exists x].
Qed.

Lemma inv_put_cn h k c cn cn' acc :
  inv h k acc -> n_conns (k_net k) !! c = Some cn -> conn_ok cn' -> cn_data cn' = None \/ cn_data cn' = cn_data cn ->
  inv h (put_cn c cn' k) acc.
Proof. intros H Hc Hb Hd. apply inv_net; [done|]. by eapply net_ok_conn. Qed.

Lemma net_ok_same h k calls acc : inv h k acc -> net_ok (k_net k) (mkCNet (n_conns (k_net k)) (n_ip_id_map (k_net k)) calls).
Proof.
  intros H. split; [|split]; cbn [n_conns n_ip_id_map]; [lia|apply H|]. intros c cn Hc.
  split; [by eapply (iv_bds _ _ _ H)|right; by exists cn].
Qed.

Lemma inv_count h k acc : inv h k acc -> inv h (count_call k) acc.
Proof. intros H. apply inv_net; [done|]. by eapply net_ok_same. Qed.

Lemma inv_replies h k l acc : inv h k acc -> Forall is_rbd l -> inv h (set_kreplies l k) acc.
Proof. intros [] Hl. by split. Qed.

Lemma free_reply_rbd b k :
  is_rbd b -> Forall is_rbd (k_replies k) -> exists l, free_reply b k = Done (set_kreplies l k) /\ Forall is_rbd l.
Proof.
  intros Hb Hl. unfold free_reply. destruct b; [|done]. cbn [obind]. case_bool_decide.
  - eexists. split; [done|]. apply Forall_app. split; [done|]. by apply Forall_singleton.
  - exists (k_replies k). by destruct k.
Qed.

Lemma free_replies_rbd l : forall k,
  Forall is_rbd l -> Forall is_rbd (k_replies k) -> exists r, free_replies l k = Done (set_kreplies r k) /\ Forall is_rbd r.
Proof.
  induction l as [|b l IH]; intros k Hb Hl; cbn [free_replies].
  - exists (k_replies k). by destruct k.
  - apply Forall_cons in Hb as [Hb Hbl]. destruct (free_reply_rbd b k Hb Hl) as (r & E & Hr). rewrite E. cbn [obind].
    destruct (IH (set_kreplies r k) Hbl Hr) as (r' & E' & Hr'). rewrite E'. by exists r'.
Qed.

Section Handlers.
Variable env : cenv.

Lemma pool_get_conn_inv h k ip acc :
  inv h k acc ->
  exists x n, pool_get_conn env ip k = Done (x, set_knet n k) /\ inv h (set_knet n k) acc
    /\ forall c, x = Some c -> (c < length (n_conns n))%nat.
Proof.
  intros H. unfold pool_get_conn, get_cn.
  assert (forall m, (forall j c, m !! j = Some c -> (c < length (n_conns (k_net k)))%nat) ->
    exists x n, (if ce_connect env (n_calls (k_net k)) ip
                 then Done (Some (length (n_conns (k_net k))),
                        set_knet (mkCNet (n_conns (k_net k) ++ [mkCConn true [] None []]) (<[ip := length (n_conns (k_net k))]> m)
                                    (S (n_calls (k_net k)))) k)
                 else Done (None, set_knet (mkCNet (n_conns (k_net k)) m (S (n_calls (k_net k)))) k))
                = Done (x, set_knet n k) /\ inv h (set_knet n k) acc /\ forall c, x = Some c -> (c < length (n_conns n))%nat) as Hnew.
  { intros m Hm. destruct (ce_connect env _ ip).
    - eexists (Some _), _. split; [reflexivity|]. split; [|intros c [= <-]; cbn; rewrite length_app; cbn; lia].
      apply inv_net; [done|]. split; [|split]; cbn [n_conns n_ip_id_map]; rewrite ?length_app; cbn [length]; [lia| |].
      + intros j c Hj. apply lookup_insert_Some in Hj as [[_ <-]|[_ Hj]]; [lia|]. apply Hm in Hj. lia.
      + intros c cn Hc. apply lookup_app_Some in Hc as [Hc|[_ Hc]]; [split; [by eapply (iv_bds _ _ _ H)|right; by exists cn]|].
        apply list_lookup_singleton_Some in Hc as [_ <-]. split; [by split; apply Forall_nil|by left].
    - eexists None, _. split; [reflexivity|]. split; [|done]. apply inv_net; [done|].
      split; [|split]; cbn [n_conns n_ip_id_map]; [lia|done|]. intros c cn Hc. split; [by eapply (iv_bds _ _ _ H)|right; by exists cn]. }
  destruct (n_ip_id_map (k_net k) !! ip) as [c|] eqn:Ec.
  - destruct (lookup_lt_is_Some_2 _ _ (iv_map _ _ _ H ip c Ec)) as [cn Hcn]. rewrite Hcn. cbn [of_option obind].
    destruct (cn_ok cn); cbn [obind].
    + exists (Some c), (k_net k). destruct k. split; [done|]. split; [done|]. intros c' [= <-]. by eapply (iv_map _ _ _ H).
    + apply Hnew. intros j c' Hj. apply lookup_delete_Some in Hj as [_ Hj]. by eapply (iv_map _ _ _ H).
  - cbn [obind]. apply Hnew. apply (iv_map _ _ _ H).
Qed.

Lemma shard_conn_loop_inv n : forall h k ips cur acc,
  inv h k acc -> ips = [] \/ 0 <= cur < Z.of_nat (length ips) -> (n <= length ips)%nat ->
  exists x cur' net, shard_conn_loop env n ips cur k = Done (x, cur', set_knet net k) /\ inv h (set_knet net k) acc
    /\ (ips = [] \/ 0 <= cur' < Z.of_nat (length ips)) /\ forall c, x = Some c -> (c < length (n_conns net))%nat.
Proof.
  induction n as [|n IH]; intros h k ips cur acc H Hcur Hn; cbn [shard_conn_loop].
  - exists None, cur, (k_net k). by destruct k.
  - destruct Hcur as [->|Hcur]; [cbn in Hn; lia|]. rewrite (proj2 (Z.ltb_ge _ _)) by lia.
    destruct (lookup_lt_is_Some_2 ips (Z.to_nat cur)) as [ip Hip]; [lia|]. rewrite Hip. cbn [of_option obind].
    destruct (pool_get_conn_inv h k ip acc H) as (x & net & E & Hk & Hx). rewrite E. cbn [obind]. destruct x as [c|].
    + exists (Some c), cur, net. splits; try done. by right.
    + destruct (IH h (set_knet net k) ips (Z.rem (cur + 1) (Z.of_nat (length ips))) acc) as (x' & cur' & net' & E' & Hk' & Hc' & Hx').
      * done.
      * right. rewrite Z.rem_mod_nonneg by lia. apply Z.mod_pos_bound. lia.
      * lia.
      * exists x', cur', net'. done.
Qed.

Lemma get_shard_conn_inv h k idx sh acc :
  inv h k acc -> v_shards (k_vol k) !! idx = Some sh ->
  exists x k', get_shard_conn env idx k = Done (x, k') /\ inv h k' acc
    /\ k_ios k' = k_ios k /\ k_events k' = k_events k /\ k_replies k' = k_replies k /\ k_pool k' = k_pool k
    /\ length (v_shards (k_vol k')) = length (v_shards (k_vol k))
    /\ forall c, x = Some c -> (c < length (n_conns (k_net k')))%nat.
Proof.
  intros H Hs. unfold get_shard_conn. destruct (negb _); [by exists None, k|]. rewrite Hs. cbn [of_option obind].
  pose proof (Forall_lookup_1 _ _ _ _ (iv_shards _ _ _ H) Hs) as [S1 S2].
  destruct (shard_conn_loop_inv (length (sh_ips sh)) h k (sh_ips sh) (sh_current_ip sh) acc) as (x & cur & net & E & Hk & Hc & Hx); [done|done|lia|].
  rewrite E. cbn [obind]. eexists x, _. split; [reflexivity|]. splits; try done; [|cbn; by rewrite length_insert].
  apply (inv_vol h); [done|split; [cbn; by rewrite length_insert|done]| |done]. cbn [set_vshards v_shards set_knet k_vol].
  apply Forall_insert; [apply H|by split].
Qed.

(** ** Requests *)
Definition room (n : nat) (k : client) : Prop := Z.of_nat (length (k_events k) + n) <= ce_queue_size env.

Lemma post_event_room e k : room 1 k -> post_event env e k = (0, set_kevents (k_events k ++ [e]) k).
Proof. intros H. unfold room in H. unfold post_event. by rewrite (proj2 (Z.ltb_lt _ _)) by lia. Qed.

Lemma free_iocb_done h k i acc : inv (i :: h) k acc -> free_iocb i k = Done (set_kpool (k_pool k ++ [i]) k).
Proof. intros H. unfold free_iocb. rewrite bool_decide_true; [done|]. by eapply pool_short. Qed.

Lemma fail_request h k i q st acc :
  inv (i :: h) k acc -> k_ios k !! i = Some q ->
  exists k', (let* k := callback i st k in free_iocb i k) = Done k' /\ inv h k' acc
    /\ k_vol k' = k_vol k /\ k_events k' = k_events k.
Proof.
  intros H Hq. unfold callback, get_io. rewrite Hq. cbn [of_option obind]. unfold free_iocb. cbn [set_kanswers k_pool k_ios].
  rewrite bool_decide_true by (by eapply pool_short). eexists. split; [reflexivity|]. split; [|done].
  exact (inv_free h k i q st (q_user q) acc H Hq).
Qed.

Lemma no_conn_inv h k i q now acc :
  inv (i :: h) k acc -> k_ios k !! i = Some q -> room 1 k -> exists k', no_conn env now i k = Done k' /\ inv h k' acc.
Proof.
  intros H Hq Hr. unfold no_conn, get_io. rewrite Hq. cbn [of_option obind].
  assert (exists k1, (if q_submit_time q + ce_io_timeout env <? now then let* k := callback i (- EIO) k in free_iocb i k
      else Done (set_kvol (set_vwaiting (dl_append i (v_reopen_waiting (k_vol k))) (k_vol k)) k)) = Done k1
      /\ inv h k1 acc /\ k_events k1 = k_events k) as (k1 & E1 & H1 & Ev).
  { destruct (_ <? now).
    - destruct (fail_request h k i q (- EIO) acc H Hq) as (k1 & E1 & H1 & _ & Ev). by exists k1.
    - eexists. split; [reflexivity|]. split; [|done]. apply (inv_vol (i :: h)); [done|done|apply H|].
      cbn [set_vwaiting v_reopen_waiting dl_append]. solve_Permutation. }
  rewrite E1. cbn [obind]. destruct (v_state (k_vol k1) =? VOLUME_OPENED); [|by exists k1].
  eexists. split; [reflexivity|]. rewrite post_event_room by (unfold room in *; cbn; by rewrite Ev). cbn [snd]. apply inv_posted; [|done|done].
  by apply (inv_vol h); [|done|apply H1|].
Qed.

Hypothesis posts : forall n, ce_post_recv env n = 0 /\ ce_post_send env n = 0.

Lemma hand_io h k i q acc : inv (i :: h) k acc -> k_ios k !! i = Some q -> io_ok q /\ req_ok (length (v_shards (k_vol k))) q.
Proof. intros H Hq. split; [by eapply (iv_io _ _ _ H)|eapply (iv_req _ _ _ H); [done|by eapply hand_not_pool]]. Qed.

Lemma get_put_io i q k : (i < length (k_ios k))%nat -> k_ios (put_io i q k) !! i = Some q.
Proof. intros Hl. cbn [put_io set_kios k_ios]. by rewrite list_lookup_insert_eq. Qed.

Lemma u16_width m : in_width 2 (u16 m).
Proof. apply Z.mod_pos_bound. done. Qed.

Lemma u32_width m : in_width 4 (u32 m).
Proof. apply Z.mod_pos_bound. done. Qed.

Lemma new_meta n q m t c b :
  io_ok q -> req_ok n q ->
  let q' := set_qtimeout b (set_qsent t c (set_qcmd (set_hmeta (u16 m) (q_cmd q)) q)) in io_ok q' /\ req_ok n q'.
Proof.
  intros [I1 I2 (I3 & I4 & I5)] [R1 R2 R3 R4 (R5 & R6 & R7)]. pose proof (u16_width m). split; split; try done.
  destruct R5. splits; [by split|done|done].
Qed.

Lemma new_seq n q m :
  io_ok q -> req_ok n q ->
  let q' := set_qcmd (set_seq (u32 m) (q_cmd q)) q in io_ok q' /\ req_ok n q'.
Proof.
  intros [I1 I2 (I3 & I4 & I5)] [R1 R2 R3 R4 (R5 & R6 & R7)]. pose proof (u32_width m). split; split; try done.
  destruct R5. splits; [by split|done|done].
Qed.

Lemma wire_sent n q :
  io_ok q -> req_ok n q -> sent_ok (q_cmd q, payload q).
Proof.
  intros [I1 I2 I3] [R1 R2 R3 R4 (R5 & R6 & R7) R8]. unfold sent_ok. cbn [fst snd]. rewrite R6 in *. splits; [done|lia|done|done|].
  clear R8. unfold payload. destruct R3 as [-> | ->]; [left; done|right]. split; [done|]. rewrite Z.eqb_refl, length_take. lia.
Qed.

Lemma send_req_inv h k i q c now acc :
  inv (i :: h) k acc -> k_ios k !! i = Some q -> (c < length (n_conns (k_net k)))%nat -> k_replies k <> [] ->
  exists k', send_req env now c i k = Done k' /\ inv h k' acc.
Proof.
  intros H Hq Hc Hr. unfold send_req, get_io, get_cn. rewrite Hq. cbn [of_option obind]. pose proof (iv_replies _ _ _ H) as Hb.
  destruct (k_replies k) as [|rbd rest]; [done|]. apply Forall_cons in Hb as [Hb Hrest].
  destruct (hand_io h k i q acc H Hq) as [Hio Hreq].
  destruct (new_meta _ q (v_meta_ver (k_vol k)) now (Some c) false Hio Hreq) as [Hio2 Hreq2].
  set (q1 := set_qcmd _ q) in *. set (q2 := set_qtimeout false _) in *. set (k1 := set_kreplies rest (put_io i q2 k)).
  assert (inv (i :: h) k1 acc) as H1.
  { apply inv_replies; [|done]. by eapply (inv_put _ k i q); [|by left| | | |]. }
  assert (k_ios k1 !! i = Some q2) as Hq1 by (apply get_put_io; by eapply lookup_lt_Some).
  rewrite (proj1 (posts _)). cbn [negb Z.eqb]. destruct (lookup_lt_is_Some_2 _ _ Hc) as [cn Hcn].
  destruct (iv_bds _ _ _ H c cn Hcn) as [Hbds Hwire]. change (n_conns (k_net (count_call k1)) !! c) with (n_conns (k_net k) !! c). rewrite Hcn. cbn [of_option obind].
  set (k2 := put_cn c _ (count_call k1)).
  assert (inv (i :: h) k2 acc) as H2.
  { eapply inv_put_cn; [by apply inv_count|exact Hcn| |by right]. split; [|done]. cbn [cn_recv_q]. apply Forall_app. split; [done|].
    by apply Forall_singleton. }
  rewrite (proj2 (posts _)). cbn [negb Z.eqb].
  assert (n_conns (k_net (count_call k2)) !! c = Some (mkCConn (cn_ok cn) (cn_recv_q cn ++ [rbd]) (cn_data cn) (cn_wire cn))) as Hc2
    by (cbn; by apply list_lookup_insert_eq).
  rewrite Hc2. cbn [of_option obind cn_ok cn_recv_q cn_data cn_wire]. eexists. split; [reflexivity|].
  eapply (inv_fly _ _ i q2 c); [|exact Hq1|done|].
  - eapply inv_put_cn; [by apply inv_count|exact Hc2| |by right]. split; cbn [cn_recv_q cn_wire]; apply Forall_app; split; try done;
      apply Forall_singleton; [done|]. exact (wire_sent _ _ Hio2 Hreq2).
  - cbn [put_cn set_knet k_net n_conns]. rewrite length_insert. apply lookup_lt_Some in Hc2. done.
Qed.

Lemma shard_at_done k q :
  req_ok (length (v_shards (k_vol k))) q -> Z.of_nat (length (v_shards (k_vol k))) < 2 ^ 31 ->
  exists idx sh, shard_at (h_offset (q_cmd q)) k = Done idx /\ v_shards (k_vol k) !! idx = Some sh.
Proof.
  intros [R1 R2 R3 R4 R5] Hs. unfold shard_at. rewrite i32_small by lia. rewrite (proj2 (Z.leb_le _ _)), (proj2 (Z.ltb_lt _ _)) by lia. cbn [andb].
  destruct (lookup_lt_is_Some_2 (v_shards (k_vol k)) (Z.to_nat (Z.shiftr (h_offset (q_cmd q)) SHARD_SIZE_ORDER))) as [sh Hsh]; [lia|].
  by eexists _, sh.
Qed.

Lemma on_io_req_inv h k i now acc :
  inv (i :: h) k acc -> room 1 k -> k_replies k <> [] -> Z.of_nat (length (v_shards (k_vol k))) < 2 ^ 31 ->
  exists k', on_io_req env now i k = Done k' /\ inv h k' acc.
Proof.
  intros H Hr Hrep Hs. destruct (lookup_lt_is_Some_2 (k_ios k) i) as [q Hq]; [apply (iv_range _ _ _ H); by left|].
  destruct (hand_io h k i q acc H Hq) as [_ Hreq]. unfold on_io_req, get_io. rewrite Hq. cbn [of_option obind].
  destruct (shard_at_done k q Hreq Hs) as (idx & sh & E & Hsh). rewrite E. cbn [obind]. rewrite Hsh. cbn [of_option obind].
  pose proof (Forall_lookup_1 _ _ _ _ (iv_shards _ _ _ H) Hsh) as [S1 _]. rewrite S1.
  destruct (get_shard_conn_inv (i :: h) k idx sh acc H Hsh) as (x & k1 & E1 & H1 & X1 & X2 & X3 & X4 & X5 & X6). rewrite E1. cbn [obind].
  destruct x as [c|].
  - eapply send_req_inv; [done|by rewrite X1|by apply X6|by rewrite X3].
  - eapply no_conn_inv; [done|by rewrite X1|unfold room; by rewrite X2].
Qed.

(** ** Completions *)
Lemma fill_user_done n q : io_ok q -> req_ok n q -> exists m, fill_user q = Done m /\ req_ok n (set_quser m q).
Proof.
  intros [I1 I2 I3] R. pose proof R as [R1 R2 R3 R4 R5]. unfold fill_user. destruct (_ =? S5_OP_READ); [|by exists (q_user q); destruct q].
  destruct (q_user q) as [l|v].
  - destruct (get_at_done 0 (q_data_len q) (q_data q)) as (x & E & Hl & _); [lia|lia|lia|]. rewrite E. cbn [obind].
    destruct (put_at_done 0 x l) as (l' & E' & L' & _); [lia|lia|]. rewrite E'. exists (UserBuf l'). split; [done|].
    split; try done. cbn [set_quser q_user q_data_len]. lia.
  - rewrite bool_decide_false by done. destruct (iov_from_buf_scatters v (q_data q) (Z.to_nat (q_data_len q))) as (v' & E & L & _); [lia|].
    rewrite Z2Nat.id in E by lia. rewrite E. exists (UserIov v'). split; [done|]. split; try done. cbn [set_quser q_user].
    intros ->. by destruct v.
Qed.

Lemma finish_inv h k b i q rep r acc :
  inv (i :: h) k acc -> k_ios k !! i = Some q -> q_reply q = Some (RBd r, rep) -> is_Some (q_conn q) ->
  Z.land (rep_status rep) MSG_STATUS_REOPEN = 0 -> forall now,
  exists k', client_do_complete env now b i k = Done k' /\ inv h k' acc.
Proof.
  intros H Hq Hrep [c Hc] E now. unfold client_do_complete, get_io. rewrite Hq. cbn [of_option obind]. rewrite Hrep. cbn [of_option obind].
  destruct (hand_io h k i q acc H Hq) as [Hio Hreq]. rewrite Hc, E. cbn [of_option obind negb Z.eqb].
  rewrite (proj2 (Z.eqb_neq (h_opcode (q_cmd q)) S5_OP_HEARTBEAT)) by (destruct (rq_op _ _ Hreq) as [-> | ->]; done).
  destruct (free_reply_rbd (RBd r) k I (iv_replies _ _ _ H)) as (l & El & Hl). rewrite El. cbn [obind].
  change (k_ios (set_kreplies l k)) with (k_ios k). rewrite Hq. cbn [of_option obind]. rewrite Hc. cbn [of_option obind].
  set (q1 := set_qreply None _). assert (io_ok q1) as Hio1 by (destruct Hio; by split).
  destruct (fill_user_done (length (v_shards (k_vol k))) q1) as (m & Em & Hm); [done|destruct Hreq; by split|].
  rewrite Em. cbn [obind]. set (q2 := set_quser m q1) in *. set (k1 := put_io i q2 (set_kreplies l k)).
  assert (inv (i :: h) k1 acc) as H1.
  { by eapply (inv_put _ (set_kreplies l k) i q); [apply inv_replies|by left| |destruct Hio1; by split| |]. }
  assert (k_ios k1 !! i = Some q2) as Hq2 by (apply get_put_io; by eapply lookup_lt_Some).
  rewrite (free_iocb_done h k1 i acc H1). cbn [obind]. eexists. split; [reflexivity|].
  exact (inv_free h k1 i q2 (rep_status rep) (q_user q2) acc H1 Hq2).
Qed.

Lemma reopen_reply_inv h k b i q rep r now acc :
  inv (i :: h) k acc -> k_ios k !! i = Some q -> q_reply q = Some (RBd r, rep) -> is_Some (q_conn q) ->
  Z.land (rep_status rep) MSG_STATUS_REOPEN <> 0 -> is_rbd b -> room 2 k ->
  exists k', client_do_complete env now b i k = Done k' /\ inv h k' acc.
Proof.
  intros H Hq Hrep [c Hc] E Hb Hr. unfold client_do_complete, get_io. rewrite Hq. cbn [of_option obind]. rewrite Hrep. cbn [of_option obind].
  destruct (hand_io h k i q acc H Hq) as [[I1 I2 I3] [R1 R2 R3 R4 R5]]. rewrite Hc. cbn [of_option obind].
  rewrite (proj2 (Z.eqb_neq _ _)) by done. cbn [negb]. set (k1 := if _ <? _ then _ else k).
  assert (inv (i :: h) k1 acc /\ room 1 k1 /\ k_ios k1 = k_ios k /\ v_shards (k_vol k1) = v_shards (k_vol k)) as (H1 & Hr1 & Ei & Es).
  { unfold k1, room in *. destruct (_ <? _); [|split; [done|split; [lia|done]]]. rewrite post_event_room by (unfold room; lia). cbn [snd].
    split; [by apply inv_posted|]. cbn [set_kevents k_events]. rewrite length_app. cbn. split; [lia|done]. }
  set (k2 := put_io i _ k1).
  assert (inv (i :: h) k2 acc) as H2.
  { by eapply (inv_put _ k1 i q); [|by left|by rewrite Ei| |rewrite Es|]. }
  rewrite post_event_room by done. cbn [snd].
  assert (inv h (set_kevents (k_events k2 ++ [CvIoReq i]) k2) acc) as H3 by (by eapply inv_post_io).
  destruct (free_reply_rbd b _ Hb (iv_replies _ _ _ H3)) as (l & El & Hl). rewrite El. eexists. split; [done|]. by apply inv_replies.
Qed.

(** ** Timeouts and reopening *)
Lemma conn_close_inv h k c cn acc :
  inv h k acc -> n_conns (k_net k) !! c = Some cn -> cn_data cn = None ->
  exists k', conn_close c k = Done k' /\ inv h k' acc /\ k_ios k' = k_ios k /\ k_vol k' = k_vol k /\ k_events k' = k_events k.
Proof.
  intros H Hc Hd. unfold conn_close, get_cn. rewrite Hc. cbn [of_option obind]. destruct (cn_ok cn); cbn [negb]; [|by exists k].
  rewrite Hd. cbn [obind]. set (k1 := put_cn c _ k).
  destruct (iv_bds _ _ _ H c cn Hc) as [Hbds Hwire].
  assert (inv h k1 acc) as H1 by (eapply inv_put_cn; [done|done|split; [by apply Forall_nil|exact Hwire]|by left]).
  destruct (free_replies_rbd (cn_recv_q cn) k1) as (l & E & Hl); [done|apply H1|].
  rewrite E. eexists. split; [reflexivity|]. split; [by apply inv_replies|done].
Qed.

Lemma resend_inv h k i acc :
  inv (i :: h) k acc -> room 1 k ->
  exists k', resend_io env i k = Done (0, k') /\ inv h k' acc /\ length (k_events k') = S (length (k_events k)) /\ k_vol k' = k_vol k.
Proof.
  intros H Hr. destruct (lookup_lt_is_Some_2 (k_ios k) i) as [q Hq]; [apply (iv_range _ _ _ H); by left|].
  unfold resend_io, get_io. rewrite Hq. cbn [of_option obind]. destruct (hand_io h k i q acc H Hq) as [Hio Hreq].
  destruct (new_seq _ q (h_command_seq (q_cmd q) + 1) Hio Hreq). set (k1 := put_io i _ k). rewrite post_event_room by done. eexists. split; [reflexivity|]. split; [|split; [|done]].
  - apply (inv_post_io h k1 (CvIoReq i) i); [|done|done]. by eapply (inv_put _ k i q); [|by left| | | |].
  - cbn. rewrite length_app. cbn. lia.
Qed.

Definition quiet_conn (c : nat) (k : client) : Prop := forall cn, n_conns (k_net k) !! c = Some cn -> cn_data cn = None.

Lemma catch_quiet h k i q c acc :
  inv h k acc -> k_ios k !! i = Some q -> i ∉ places h k -> q_conn q = Some c -> quiet_conn c k -> inv (i :: h) k acc.
Proof.
  intros H Hq Hi Hc Hn. eapply inv_catch; [done..|]. intros c' cn Hc' Hd.
  destruct (iv_data _ _ _ H c' cn i Hc' Hd) as (_ & q' & Hq' & Hcc & _). assert (c' = c) as -> by congruence.
  rewrite (Hn cn Hc') in Hd. done.
Qed.

Lemma on_io_timeout_inv h k i now acc :
  inv h k acc -> (i < length (k_ios k))%nat -> room 1 k ->
  (forall q, k_ios k !! i = Some q -> q_sent_time q <> 0 -> q_sent_time q + ce_io_timeout env < now ->
     (i ∉ places h k) /\ forall c, q_conn q = Some c -> quiet_conn c k) ->
  exists k', on_io_timeout env now i k = Done k' /\ inv h k' acc.
Proof.
  intros H Hi Hr Hg. unfold on_io_timeout. destruct (negb (_ =? VOLUME_OPENED)); [by exists k|].
  destruct (lookup_lt_is_Some_2 _ _ Hi) as [q Hq]. unfold get_io. rewrite Hq. cbn [of_option obind].
  destruct (Z.eqb_spec (q_sent_time q) 0); cbn [negb andb]; [by exists k|].
  destruct (Z.ltb_spec (q_sent_time q + ce_io_timeout env) now); [|by exists k].
  destruct (Hg q Hq) as [Hf Hqc]; [done|done|]. destruct (iv_fly _ _ _ H i q Hq Hf) as (c & Hc & Hcl). rewrite Hc. cbn [of_option obind].
  pose proof (catch_quiet h k i q c acc H Hq Hf Hc (Hqc c Hc)) as H1. destruct (hand_io h k i q acc H1 Hq) as [[I1 I2 I3] [R1 R2 R3 R4 R5]].
  rewrite (proj2 (Z.eqb_neq (h_opcode (q_cmd q)) S5_OP_HEARTBEAT)) by (destruct R3 as [-> | ->]; done).
  set (q1 := set_qsent 0 (Some c) q). set (k1 := put_io i q1 k).
  assert (inv (i :: h) k1 acc) as H2 by (by eapply (inv_put _ k i q); [|by left| | | |]).
  destruct (lookup_lt_is_Some_2 _ _ Hcl) as [cn Hcn].
  destruct (conn_close_inv (i :: h) k1 c cn acc H2 Hcn (Hqc c Hc cn Hcn)) as (k2 & E2 & H3 & Ei & Ev & Ee). rewrite E2. cbn [obind]. rewrite Ei.
  assert (k_ios k1 !! i = Some q1) as Hq1 by (by apply get_put_io). rewrite Hq1. cbn [of_option obind].
  set (k3 := put_io i _ k2).
  assert (inv (i :: h) k3 acc) as H4 by (by eapply (inv_put _ k2 i q1); [|by left|by rewrite Ei| |rewrite Ev|]).
  destruct (resend_inv h k3 i acc H4) as (k4 & E4 & H5 & _); [unfold room in *; cbn; by rewrite Ee|].
  rewrite E4. cbn [obind negb Z.eqb]. by exists k4.
Qed.

Lemma resend_all_inv l : forall h k acc,
  inv h k acc -> v_reopen_waiting (k_vol k) = l -> room (length l) k -> exists k', resend_all env l k = Done k' /\ inv h k' acc.
Proof.
  induction l as [|i l IH]; intros h k acc H Hw Hr; cbn [resend_all]; [by exists k|].
  set (k1 := set_kvol _ k).
  assert (inv (i :: h) k1 acc) as H1.
  { apply (inv_vol h); [done|done|apply H|]. rewrite Hw. cbn [set_vwaiting v_reopen_waiting]. solve_Permutation. }
  cbn [length] in Hr. unfold room in *.
  destruct (resend_inv h k1 i acc H1) as (k2 & E2 & H2 & L2 & V2); [unfold room; cbn; lia|]. rewrite E2. cbn [obind].
  apply IH; [done|by rewrite V2|]. rewrite L2. cbn. lia.
Qed.

Lemma reopen_volume_inv h k now acc :
  inv h k acc -> room (length (v_reopen_waiting (k_vol k))) k ->
  (forall n, match ce_reopen env n with
             | RoOk id _ _ ss => length ss = length (v_shards (k_vol k)) /\ Forall shard_ok ss /\ in_width 8 id | RoErr _ => True | RoThrow => False end) ->
  exists k', reopen_volume env now k = Done k' /\ inv h k' acc.
Proof.
  intros H Hr Hg. unfold reopen_volume. specialize (Hg (n_calls (k_net k))). destruct (ce_reopen env _) as [id m seq ss|rc|]; [|  |done].
  - destruct Hg as (Hl & Hs & Hid). apply resend_all_inv; [|done|done]. apply (inv_vol h); [by apply inv_count|done|done|done].
  - eexists. split; [reflexivity|]. apply (inv_vol h); [by apply inv_count|done|apply H|done].
Qed.

(** ** The network *)
(** a read whose reply has come waits for its data *)
Lemma inv_receive h k i q c cn cn' r rep acc :
  inv (i :: h) k acc -> k_ios k !! i = Some q -> q_conn q = Some c -> q_reply q = Some (RBd r, rep) ->
  h_opcode (q_cmd q) = S5_OP_READ -> conn_ok cn' -> cn_data cn' = Some i ->
  n_conns (k_net k) !! c = Some cn -> cn_data cn = None -> inv h (put_cn c cn' k) acc.
Proof.
  intros H Hq Hc Hrep Ho Hb Hd Hcn Hn. assert (c < length (n_conns (k_net k)))%nat as Hl by (by eapply lookup_lt_Some).
  assert (places (i :: h) k = i :: places h k) as E by done. destruct H as [H1 H2 H3 H4 H5 H6 H7 H8 H9 H10 H11 H12].
  rewrite E in *. apply NoDup_cons in H1 as [Hi H1].
  split; cbn [put_cn set_knet k_net k_ios k_pool k_vol k_events k_replies k_answers n_conns n_ip_id_map]; rewrite ?length_insert; try done.
  - intros j Hj. apply H2. by right.
  - intros j p Hp Hj. destruct (decide (j = i)) as [->|]; [exists c; split; [congruence|done]|].
    apply (H5 j p Hp). change (places h (put_cn c cn' k)) with (places h k) in Hj. rewrite elem_of_cons. tauto.
  - intros c' x j Hx Hj. apply list_lookup_insert_Some in Hx as [(-> & <- & _)|[Hne Hx]].
    + assert (j = i) as -> by congruence. split; [done|]. exists q. splits; try done. by exists r, rep.
    + destruct (H7 c' x j Hx Hj) as [Hn' Hx']. rewrite elem_of_cons in Hn'. split; [tauto|done].
  - intros c' x Hx. apply list_lookup_insert_Some in Hx as [(-> & <- & _)|[Hne Hx]]; [done|by eapply H8].
Qed.

Lemma on_reply_inv h k c rep i q acc :
  inv h k acc -> i = Z.to_nat (rep_command_id rep) -> k_ios k !! i = Some q -> i ∉ places h k -> q_conn q = Some c ->
  h_command_seq (q_cmd q) = rep_command_seq rep -> room 1 k ->
  on_reply env c rep k = Done None \/ exists k', on_reply env c rep k = ret k' /\ inv h k' acc.
Proof.
  intros H Hi Hq Hf Hc Hseq Hr. destruct (iv_fly _ _ _ H i q Hq Hf) as (c' & Hc' & Hcl). assert (c' = c) as -> by congruence.
  destruct (lookup_lt_is_Some_2 _ _ Hcl) as [cn Hcn]. unfold on_reply, get_cn, get_io. rewrite Hcn. cbn [lift of_option obind rbind ret].
  destruct (cn_ok cn); [|by left]. destruct (cn_data cn) as [j|] eqn:Ed; [by left|]. pose proof (iv_bds _ _ _ H c cn Hcn) as [Hb Hw].
  destruct (cn_recv_q cn) as [|[b|j] rest]; [by left| |by apply Forall_cons in Hb as [[] _]]. right. apply Forall_cons in Hb as [_ Hb].
  rewrite <- Hi, Hq. cbn [lift of_option obind rbind ret]. rewrite Hseq, Z.eqb_refl. cbn [negb].
  assert (quiet_conn c k) as Hqc by (intros x Hx; congruence).
  pose proof (catch_quiet h k i q c acc H Hq Hf Hc Hqc) as H1. destruct (hand_io h k i q acc H1 Hq) as [[I1 I2 I3] [R1 R2 R3 R4 R5]].
  set (q1 := set_qreply (Some (RBd b, rep)) q). set (k1 := put_io i q1 k).
  assert (inv (i :: h) k1 acc) as H2 by (by eapply (inv_put _ k i q); [|by left| | | |]).
  assert (k_ios k1 !! i = Some q1) as Hq1 by (apply get_put_io; by eapply lookup_lt_Some).
  change (q_cmd q1) with (q_cmd q). destruct (Z.eqb_spec (h_opcode (q_cmd q)) S5_OP_READ) as [Ho|Ho].
  - eexists. split; [reflexivity|]. by eapply inv_receive; [exact H2|exact Hq1|..|exact Hcn|].
  - set (k2 := put_cn c _ k1).
    assert (inv (i :: h) k2 acc) as H3 by (eapply inv_put_cn; [done|exact Hcn|done|by left]).
    rewrite post_event_room by done. eexists. split; [reflexivity|]. eapply inv_post_io; [exact H3|done|].
    intros b' [= <-]. exists q1. split; [done|]. split; [by exists b, rep|]. split; [by exists c|by left].
Qed.

Lemma on_data_inv h k c cn i l acc :
  inv h k acc -> n_conns (k_net k) !! c = Some cn -> cn_data cn = Some i -> room 1 k ->
  on_data env c l k = Done None \/ exists k', on_data env c l k = ret k' /\ inv h k' acc.
Proof.
  intros H Hcn Hd Hr. destruct (iv_data _ _ _ H c cn i Hcn Hd) as (Hf & q & Hq & Hc & (r & rep & Hrep) & Ho).
  unfold on_data, get_cn, get_io. rewrite Hcn. cbn [lift of_option obind rbind ret]. destruct (cn_ok cn); [|by left]. rewrite Hd, Hq.
  cbn [lift of_option obind rbind ret]. destruct (Z.eqb_spec (Z.of_nat (length l)) (q_data_len q)) as [Hl|]; cbn [negb orb]; [|by left].
  destruct (bool_decide (l = [])); [by left|]. right.
  set (cn' := mkCConn _ _ _ _).
  assert (inv h (put_cn c cn' k) acc) as H1 by (eapply inv_put_cn; [done|done|exact (iv_bds _ _ _ H c cn Hcn)|by left]).
  assert (inv (i :: h) (put_cn c cn' k) acc) as H2.
  { eapply (catch_quiet h _ i q c); [done|done|done|done|]. intros x. cbn.
    rewrite list_lookup_insert_eq by (by apply lookup_lt_Some in Hcn). by intros [= <-]. }
  destruct (hand_io h _ i q acc H2 Hq) as [[I1 I2 I3] [R1 R2 R3 R4 R5 R6]].
  destruct (put_at_done 0 l (q_data q)) as (data & E & Ld & _); [lia|lia|]. rewrite E. cbn [lift obind rbind ret]. rewrite I2. cbn [negb].
  change (put_cn c cn' (put_io i (set_qdata data q) k)) with (put_io i (set_qdata data q) (put_cn c cn' k)).
  set (k2 := put_io i _ _).
  assert (inv (i :: h) k2 acc) as H3.
  { eapply (inv_put _ (put_cn c cn' k) i q); [done|by left|done|split; [cbn; lia|done|done]| |done]. split; try done.
    revert R6. unfold payload. cbn [set_qdata q_cmd]. by rewrite Ho. }
  rewrite post_event_room by done. eexists. split; [reflexivity|]. apply (inv_post_io h k2 _ i); [done|done|]. intros b [= <-].
  exists (set_qdata data q). split; [apply get_put_io; by eapply lookup_lt_Some|]. split; [by exists r, rep|]. split; [by exists c|by right].
Qed.

(** ** The timeout thread *)
Lemma inv_same_io h k i q q' acc :
  inv h k acc -> k_ios k !! i = Some q -> io_ok q' -> (i ∉ k_pool k -> req_ok (length (v_shards (k_vol k))) q') -> q_arg q' = q_arg q ->
  q_conn q' = q_conn q -> q_reply q' = q_reply q -> q_cmd q' = q_cmd q -> inv h (put_io i q' k) acc.
Proof.
  intros H Hq Ho Hr Ha Hc Hrep Hcmd. destruct H as [H1 H2 H3 H4 H5 H6 H7 H8 H9 H10 H11 H12].
  assert (forall j, k_ios (put_io i q' k) !! j = if decide (j = i) then Some q' else k_ios k !! j) as Hl.
  { intros j. destruct (decide (j = i)) as [->|]; [apply get_put_io; by eapply lookup_lt_Some|]. cbn. by rewrite list_lookup_insert_ne. }
  split; try done.
  - intros j Hj. cbn [put_io set_kios k_ios]. rewrite length_insert. by apply H2.
  - intros j p. rewrite Hl. destruct (decide (j = i)); [intros [= <-]; done|apply H3].
  - intros j p. rewrite Hl. destruct (decide (j = i)) as [->|]; [intros [= <-]; done|apply H4].
  - intros j p. rewrite Hl. destruct (decide (j = i)) as [->|]; [|apply H5]. intros [= <-] Hn. rewrite Hc. by apply (H5 i q).
  - intros b j Hb. rewrite Hl. destruct (decide (j = i)) as [->|]; [|by apply H6]. exists q'. split; [done|].
    destruct (H6 b i Hb) as (q0 & Hq0 & Hx). assert (q0 = q) as -> by congruence. unfold replied in *. by rewrite Hrep, Hc.
  - intros c cn j Hcc Hj. rewrite Hl. destruct (H7 c cn j Hcc Hj) as [Hn Hx]. split; [done|]. destruct (decide (j = i)) as [->|]; [|done].
    exists q'. split; [done|]. destruct Hx as (q0 & Hq0 & Hx). assert (q0 = q) as -> by congruence. by rewrite Hc, Hrep, Hcmd.
  - rewrite (pending_ext k); [done|apply length_insert|]. intros j. unfold pend_of. rewrite Hl. cbn [put_io set_kios k_pool].
    destruct (decide (j ∈ k_pool k)); [done|]. destruct (decide (j = i)) as [->|]; [|done]. rewrite Hq. cbn. by rewrite Ha.
  - intros j Hj. cbn [put_io set_kios k_ios]. rewrite length_insert. by apply iv_timeout0.
Qed.

Lemma timeout_scan_inv now n : forall h k i acc,
  inv h k acc -> room n k -> inv h (timeout_scan env now n i k) acc.
Proof.
  induction n as [|n IH]; intros h k i acc H Hr; cbn [timeout_scan]; [done|]. unfold room in Hr.
  destruct (k_ios k !! i) as [q|] eqn:Hq; [|apply IH; [done|unfold room; lia]].
  destruct (timed_out env now q); [|apply IH; [done|unfold room; lia]].
  rewrite post_event_room by (unfold room; lia). cbn [snd]. apply IH.
  - eapply (inv_same_io h _ i q); [apply inv_posted; [done|done|]|done| | |done|done|done|done].
    + intros j [= <-]. by eapply lookup_lt_Some.
    + destruct (iv_io _ _ _ H i q Hq). by split.
    + intros Hp. destruct (iv_req _ _ _ H i q Hq Hp). by split.
  - unfold room. cbn. rewrite length_app. cbn. lia.
Qed.
End Handlers.
End Inv.
