(* ===== verification/ClientRuns.v ===== *)
(** * Runs of a client

    Calls of the user, events of the volume thread, what the network brings
    and the timeout thread, in any order: every request that was accepted is
    answered once.  The last part has the orders in which it is not. *)

From Stdlib Require Import ZArith Lia String Permutation.
From stdpp Require Import base tactics list numbers gmap strings.
From S2P Require Import Prelude Bytes Runs Ids Connection TcpServer TcpProps Iov Client ClientProps.

Inductive act : Type :=
| ASubmit (now : Z) (buf : list Z) (len offset arg : Z) (is_write : bool)
| AIov (now : Z) (iov : list (list Z)) (len offset arg : Z) (is_write : bool)
| AEvent (now : Z)
| AReply (c : nat) (rep : PfMessageReply)
| AData (c : nat) (l : list Z)
| AClose (c : nat)
| ATimer (now : Z).

(** what has to wait leaves the client as it is *)
Definition or_wait (m : run client) (k : client) : outcome (list Z * client) :=
  let* x := m in Done ([], default k x).

(** a step, with the arguments of the requests it accepts *)
Definition act_step (env : cenv) (a : act) (k : client) : outcome (list Z * client) :=
  match a with
  | ASubmit now buf len off arg w =>
      let* (rc, k) := pf_io_submit env now buf len off arg w k in Done (if rc =? 0 then [arg] else [], k)
  | AIov now iov len off arg w =>
      let* (rc, k) := pf_iov_submit env now iov len off arg w k in Done (if rc =? 0 then [arg] else [], k)
  | AEvent now => let* k := volume_thread env now k in Done ([], k)
  | AReply c rep => or_wait (on_reply env c rep k) k
  | AData c l => or_wait (on_data env c l k) k
  | AClose c => let* k := conn_close c k in Done ([], k)
  | ATimer now => Done ([], timeout_check env now k)
  end.

Fixpoint run_acts (env : cenv) (acts : list act) (k : client) : outcome (list Z * client) :=
  match acts with
  | [] => Done ([], k)
  | a :: acts =>
      let* (l1, k) := act_step env a k in
      let* (l2, k) := run_acts env acts k in
      Done (l1 ++ l2, k)
  end.

(** what a call asks for: the operation, where, how much, and the data of a
    write *)
Definition op_of (is_write : bool) : Z := if is_write then S5_OP_WRITE else S5_OP_READ.

Definition request_of (a : act) : option (Z * Z * Z * list Z) :=
  match a with
  | ASubmit _ buf len off _ w => Some (op_of w, u64 off, u32 len, if w then take (Z.to_nat len) buf else [])
  | AIov _ iov len off _ w => Some (op_of w, u64 off, u32 len, if w then take (Z.to_nat len) (concat iov) else [])
  | _ => None
  end.

(** ** Conditions *)
Definition in_volume (k : client) (len offset : Z) : Prop :=
  0 < len <= PF_MAX_IO_SIZE /\ 0 <= Z.shiftr (u64 offset) SHARD_SIZE_ORDER < Z.of_nat (length (v_shards (k_vol k))).

Definition event_allowed (env : cenv) (now : Z) (e : cevent) (k : client) : Prop :=
  match e with
  | CvIoReq _ => k_replies k <> []
  | CvIoComplete b i =>
      (* a read is not answered with REOPEN *)
      is_rbd b \/ forall q rb rep, k_ios k !! i = Some q -> q_reply q = Some (rb, rep) -> Z.land (rep_status rep) MSG_STATUS_REOPEN = 0
  | CvIoTimeout i =>
      (* the reply of a request that times out is not in the queue, nor on its way *)
      forall q, k_ios k !! i = Some q -> q_sent_time q <> 0 -> q_sent_time q + ce_io_timeout env < now ->
        (i ∉ places [] k) /\ forall c, q_conn q = Some c -> quiet_conn c k
  | _ => True
  end.

Definition allowed (env : cenv) (a : act) (k : client) : Prop :=
  room env (length (k_ios k) + 2) k /\
  match a with
  | ASubmit _ buf len off _ _ => in_volume k len off /\ len <= Z.of_nat (length buf)
  | AIov _ iov len off _ _ => in_volume k len off /\ len <= Z.of_nat (length (concat iov))
  | AEvent now => match k_events k with [] => True | e :: _ => event_allowed env now e k end
  | AReply c rep =>
      (* the server answers a command it got on this connection *)
      exists q, k_ios k !! Z.to_nat (rep_command_id rep) = Some q /\ (Z.to_nat (rep_command_id rep) ∉ places [] k)
        /\ q_conn q = Some c /\ h_command_seq (q_cmd q) = rep_command_seq rep
  | AData c _ => exists cn i, n_conns (k_net k) !! c = Some cn /\ cn_data cn = Some i
  | AClose c => exists cn, n_conns (k_net k) !! c = Some cn /\ cn_data cn = None
  | ATimer _ => True
  end.

Fixpoint allowed_run (env : cenv) (acts : list act) (k : client) : Prop :=
  match acts with
  | [] => True
  | a :: acts => allowed env a k /\ forall l k', act_step env a k = Done (l, k') -> allowed_run env acts k'
  end.

Record env_ok (env : cenv) (shards : nat) : Prop := mkEnvOk {
  eo_posts : forall n, ce_post_recv env n = 0 /\ ce_post_send env n = 0;
  eo_reopen : forall n, match ce_reopen env n with
                        | RoOk id _ _ ss => length ss = shards /\ Forall shard_ok ss /\ in_width 8 id
                        | RoErr _ => True
                        | RoThrow => False
                        end;
  eo_shards : Z.of_nat shards < 2 ^ 31;
  eo_addr : forall i, in_width 8 (ce_buf_addr env i)
}.

Section Runs.
Variable env : cenv.
Variable asked : Z -> Z -> Z -> list Z -> Prop.
Variable shards : nat.
Hypothesis Henv : env_ok env shards.

Definition asks (a : act) : Prop :=
  match request_of a with Some (op, off, len, data) => asked op off len data | None => True end.

Lemma filled h k i p q q' acc :
  inv asked shards h k acc -> k_pool k = i :: p -> k_ios k !! i = Some q -> io_ok q' -> req_ok asked (length (v_shards (k_vol k))) q' -> room env 1 k ->
  exists k', post_event env (CvIoReq i) (set_kpool p (put_io i q' k)) = (0, k') /\ inv asked shards h k' (q_arg q' :: acc).
Proof.
  intros H Hp Hq Ho Hr Hroom. rewrite post_event_room by done. eexists. split; [reflexivity|].
  eapply inv_post_io; [by eapply inv_alloc|done|done].
Qed.

Lemma sector_multiple len : Z.land len SECT_SIZE_MASK = 0 -> len mod 512 = 0.
Proof. change SECT_SIZE_MASK with (Z.ones 9). by rewrite Z.land_ones. Qed.

Lemma checks_passed off len :
  negb (Z.land off SECT_SIZE_MASK =? 0) || negb (Z.land len SECT_SIZE_MASK =? 0) = false -> len mod 512 = 0.
Proof. intros [_ H]%orb_false_iff. apply sector_multiple. by apply negb_false_iff, Z.eqb_eq in H. Qed.

Lemma fill_head_ok h k acc i w len off c :
  inv asked shards h k acc -> 0 < len <= PF_MAX_IO_SIZE ->
  in_width 2 (h_command_id c) /\ in_width 2 (h_meta_ver c) /\ in_width 4 (h_command_seq c) ->
  head_ok (fill_cmd env i w len off k c).
Proof.
  intros H Hl (W1 & W2 & W3). destruct (iv_count _ _ _ _ _ H) as [_ N1].
  split; cbn [fill_cmd h_opcode h_command_id h_snap_seq h_vol_id h_buf_addr h_rkey h_meta_ver h_offset h_length h_command_seq]; try done.
  - by destruct w.
  - apply u32_width.
  - apply (eo_addr _ _ Henv).
  - apply Z.mod_pos_bound. done.
  - apply u32_width.
Qed.

Lemma fill_ok h k acc i w len off q l m :
  inv asked shards h k acc -> in_volume k len off -> len mod 512 = 0 -> io_ok q -> Z.of_nat (length l) = PF_MAX_IO_SIZE ->
  asked (op_of w) (u64 off) (u32 len) (if w then take (Z.to_nat len) l else []) ->
  match m with UserBuf b => len <= Z.of_nat (length b) | UserIov v => v <> [] end ->
  forall arg t st sub c r,
  let q' := mkClientIo (fill_cmd env i w len off k (q_cmd q)) l (i32 len) (q_data_bound q) m arg t st sub c r in
  io_ok q' /\ req_ok asked (length (v_shards (k_vol k))) q'.
Proof.
  intros H [V1 V2] V3 [I1 I2 I3] Hl Has Hm arg t st sub c r. pose proof (fill_head_ok h k acc i w len off (q_cmd q) H V1 I3) as Hh.
  change PF_MAX_IO_SIZE with 131072 in *. cbn zeta.
  assert (i32 len = len) as Ei by (apply i32_small; lia). split; split; cbn [q_data q_data_bound q_data_len q_user q_cmd]; rewrite ?Ei; try done.
  - change PF_MAX_IO_SIZE with 131072. lia.
  - cbn [fill_cmd h_opcode]. destruct w; [by right|by left].
  - splits; [done| |done]. cbn [fill_cmd h_length]. apply Z.mod_small. lia.
  - unfold payload. cbn [q_cmd q_data q_data_len fill_cmd h_opcode h_offset h_length]. rewrite ?Ei. by destruct w.
Qed.

Lemma pool_head h k i p acc : inv asked shards h k acc -> k_pool k = i :: p -> exists q, k_ios k !! i = Some q.
Proof.
  intros H Hp. apply lookup_lt_is_Some_2. apply (iv_range _ _ _ _ _ H). unfold places. rewrite Hp, elem_of_app. right. by left.
Qed.

(** the user's buffer is copied to the start of the block's *)
Lemma copy_in len buf data :
  0 <= len <= Z.of_nat (length buf) -> len <= Z.of_nat (length data) ->
  exists d, (let* l := get_at 0 len buf in put_at 0 l data) = Done d /\ length d = length data
    /\ take (Z.to_nat len) d = take (Z.to_nat len) buf.
Proof.
  intros Hl Hd. unfold get_at. rewrite !(proj2 (Z.leb_le _ _)) by lia. cbn [andb obind].
  assert (length (take (Z.to_nat len) buf) = Z.to_nat len) as Lt by (rewrite length_take; lia).
  change (drop (Z.to_nat 0) buf) with buf. unfold put_at, write_at. rewrite (proj2 (Z.leb_le _ _)), Lt by lia.
  eexists. split; [rewrite (proj2 (Z.leb_le _ _)) by lia; reflexivity|]. change (Z.to_nat 0) with 0%nat. rewrite take_0, app_nil_l, Nat.add_0_l. split.
  - rewrite length_app, length_drop, Lt. lia.
  - rewrite take_app_le by lia. by rewrite take_take, Nat.min_id.
Qed.

Lemma submit_inv k now buf len off arg w acc :
  inv asked shards [] k acc -> allowed env (ASubmit now buf len off arg w) k -> asks (ASubmit now buf len off arg w) ->
  exists l k', act_step env (ASubmit now buf len off arg w) k = Done (l, k') /\ inv asked shards [] k' (l ++ acc).
Proof.
  intros H (Hr & Hv & Hb) Has. cbn [act_step]. unfold pf_io_submit. destruct (_ || _) eqn:Ec; [by exists [], k|].
  destruct (k_pool k) as [|i p] eqn:Hp; [by exists [], k|]. destruct (pool_head [] k i p acc H Hp) as [q Hq].
  unfold get_io. rewrite Hq. cbn [of_option obind]. pose proof (iv_io _ _ _ _ _ H i q Hq) as Hio. destruct Hv as [V1 V2].
  destruct (copy_in len buf (q_data q)) as (data & E2 & L2 & T2); [lia|rewrite (io_data _ Hio); lia|].
  destruct (get_at 0 len buf) as [x| |]; [|done|done]. cbn [obind] in E2 |- *. rewrite E2. cbn [obind].
  set (q' := mkClientIo _ _ _ _ _ _ _ _ _ _ _).
  destruct (fill_ok [] k acc i w len off q data (UserBuf buf)) with (arg := arg) (t := q_is_timeout q) (st := q_sent_time q) (sub := now)
    (c := q_conn q) (r := q_reply q) as [F1 F2]; [done|by split|by apply (checks_passed off)|done|rewrite L2; apply Hio|by rewrite T2|done|].
  destruct (filled [] k i p q q' acc) as (k' & E & H'); [done..|unfold room in *; lia|].
  rewrite E. cbn [obind Z.eqb]. by exists [arg], k'.
Qed.

Lemma iov_inv k now iov len off arg w acc :
  inv asked shards [] k acc -> allowed env (AIov now iov len off arg w) k -> asks (AIov now iov len off arg w) ->
  exists l k', act_step env (AIov now iov len off arg w) k = Done (l, k') /\ inv asked shards [] k' (l ++ acc).
Proof.
  intros H (Hr & Hv & Hb) Has. cbn [act_step]. unfold pf_iov_submit. destruct (_ || _) eqn:Ec; [by exists [], k|].
  destruct (PF_MAX_IO_SIZE <? len); [by exists [], k|].
  destruct (k_pool k) as [|i p] eqn:Hp; [by exists [], k|]. destruct (pool_head [] k i p acc H Hp) as [q Hq].
  unfold get_io. rewrite Hq. cbn [of_option obind]. pose proof (iv_io _ _ _ _ _ H i q Hq) as Hio. pose proof Hv as [V1 V2].
  assert (exists data, (if w then let* (_, data) := iov_to_buf iov (q_data q) len in Done data else Done (q_data q)) = Done data
                       /\ Z.of_nat (length data) = PF_MAX_IO_SIZE
                       /\ (w = true -> take (Z.to_nat len) data = take (Z.to_nat len) (concat iov))) as (data & E2 & L2 & T2).
  { pose proof (io_data _ Hio). destruct w; [|by exists (q_data q)].
    pose proof (iov_to_buf_gathers iov (q_data q) (Z.to_nat len) ltac:(lia)) as Eg. rewrite Z2Nat.id in Eg by lia. rewrite Eg.
    assert (length (take (Z.to_nat len) (concat iov)) = Z.to_nat len) as Lt by (rewrite length_take; lia).
    eexists. split; [reflexivity|]. split; [rewrite length_app, length_drop; lia|]. intros _.
    rewrite take_app_le by lia. by rewrite take_take, Nat.min_id. }
  rewrite E2. cbn [obind]. set (q' := mkClientIo _ _ _ _ _ _ _ _ _ _ _).
  destruct (fill_ok [] k acc i w len off q data (UserIov iov)) with (arg := arg) (t := q_is_timeout q) (st := q_sent_time q) (sub := now)
    (c := q_conn q) (r := q_reply q) as [F1 F2]; [done|done|by apply (checks_passed off)|done|done|destruct w; [rewrite T2 by done|]; done|by intros ->; cbn in Hb; lia|].
  destruct (filled [] k i p q q' acc) as (k' & E & H'); [done..|unfold room in *; lia|].
  rewrite E. cbn [obind Z.eqb]. by exists [arg], k'.
Qed.

Lemma event_inv k now acc :
  inv asked shards [] k acc -> allowed env (AEvent now) k -> exists k', volume_thread env now k = Done k' /\ inv asked shards [] k' acc.
Proof.
  intros H [Hr Ha]. unfold volume_thread. destruct (k_events k) as [|e l] eqn:Ee; [by exists k|].
  pose proof (inv_pop _ _ _ _ e l acc H Ee) as Hp. set (k1 := set_kevents l k) in *.
  assert (room env (length (k_ios k) + 2) k1) as Hr1 by (unfold room in *; rewrite Ee in Hr; cbn in *; lia).
  destruct (iv_count _ _ _ _ _ H) as [Hn _]. pose proof (eo_shards _ _ Henv) as Hs. destruct e as [i|b i|i|t|]; cbn [event_io process_event event_allowed] in *.
  - apply (on_io_req_inv asked shards env (eo_posts _ _ Henv)); [done|unfold room in *; lia|done|cbn; lia].
  - assert (CvIoComplete b i ∈ k_events k) as Hin by (rewrite Ee; by left).
    destruct (iv_done _ _ _ _ _ H b i Hin) as (q & Hq & (r & rep & Hrep) & Hc & Hb).
    destruct (decide (Z.land (rep_status rep) MSG_STATUS_REOPEN = 0)) as [E|E].
    + by eapply (finish_inv asked shards env [] k1 b i q rep r).
    + destruct Ha as [Ha|Ha]; [|by rewrite (Ha q _ _ Hq Hrep) in E].
      eapply (reopen_reply_inv asked shards env [] k1 b i q rep r); try done. unfold room in *. lia.
  - apply on_io_timeout_inv; [done| |unfold room in *; lia|].
    { apply (iv_timeout _ _ _ _ _ H). rewrite Ee. by left. }
    intros q Hq Hst Hto. destruct (Ha q Hq Hst Hto) as [Hf Hqc].
    split; [|done]. intros Hx. apply Hf. unfold places in *. rewrite Ee. done.
  - destruct (_ <? t); [|by exists k1]. apply reopen_volume_inv; [done| |].
    + pose proof (waiting_length _ _ _ _ _ Hp). unfold room in *. cbn in *. lia.
    + intros n. pose proof (eo_reopen _ _ Henv n) as Hx. destruct (ce_reopen env n); [|done|done]. cbn. by rewrite Hn.
  - destruct (_ && _); [|by exists k1]. eexists. split; [reflexivity|]. rewrite post_event_room by (unfold room in *; lia). by apply inv_posted.
Qed.

Lemma step_inv a k acc :
  inv asked shards [] k acc -> allowed env a k -> asks a -> exists l k', act_step env a k = Done (l, k') /\ inv asked shards [] k' (l ++ acc).
Proof.
  intros H Ha Has. destruct a as [now buf len off arg w|now iov len off arg w|now|c rep|c l|c|now].
  - by apply submit_inv.
  - by apply iov_inv.
  - destruct (event_inv k now acc H Ha) as (k' & E & H'). cbn [act_step]. rewrite E. by exists [], k'.
  - destruct Ha as (Hr & q & Hq & Hf & Hc & Hs). cbn [act_step]. unfold or_wait.
    destruct (on_reply_inv _ _ env [] k c rep _ q acc H eq_refl Hq Hf Hc Hs) as [E|(k' & E & H')];
      [unfold room in *; lia|rewrite E; by exists [], k|rewrite E; by exists [], k'].
  - destruct Ha as (Hr & cn & i & Hcn & Hd). cbn [act_step]. unfold or_wait.
    destruct (on_data_inv _ _ env [] k c cn i l acc H Hcn Hd) as [E|(k' & E & H')];
      [unfold room in *; lia|rewrite E; by exists [], k|rewrite E; by exists [], k'].
  - destruct Ha as (Hr & cn & Hcn & Hd). destruct (conn_close_inv _ _ [] k c cn acc H Hcn Hd) as (k' & E & H' & _).
    cbn [act_step]. rewrite E. by exists [], k'.
  - destruct Ha as [Hr _]. eexists [], _. split; [reflexivity|]. apply timeout_scan_inv; [done|]. unfold room in *. lia.
Qed.

Lemma run_inv acts : forall k acc,
  inv asked shards [] k acc -> allowed_run env acts k -> Forall asks acts ->
  exists l k', run_acts env acts k = Done (l, k') /\ inv asked shards [] k' (l ++ acc).
Proof.
  induction acts as [|a acts IH]; intros k acc H Ha Has; cbn [run_acts]; [by exists [], k|]. destruct Ha as [Ha Hrest].
  apply Forall_cons_iff in Has as [Has1 Has]. destruct (step_inv a k acc H Ha Has1) as (l1 & k1 & E1 & H1). rewrite E1. cbn [obind].
  destruct (IH k1 (l1 ++ acc) H1 (Hrest _ _ E1) Has) as (l2 & k2 & E2 & H2). rewrite E2. cbn [obind].
  exists (l1 ++ l2), k2. split; [done|]. eapply inv_acc; [exact H2|]. solve_Permutation.
Qed.
End Runs.

(** ** The theorem *)
Definition blank_io (i : nat) : PfClientIocb :=
  mkClientIo (mkHead 0 (Z.of_nat i) 0 0 0 0 0 0 0 0) (replicate (Z.to_nat PF_MAX_IO_SIZE) 0) 0 true (UserBuf []) 0 false 0 0 None None.

(** [PfClientAppCtx::init] and [do_open], for [n] blocks *)
Definition fresh_client (n : nat) (v : PfClientVolume) : client :=
  mkClient (blank_io <$> seq 0 n) (seq 0 n) (RBd <$> seq 0 n) v (mkCNet [] ∅ 0) [] [].

Record opened (v : PfClientVolume) : Prop := mkOpened {
  op_shards : Forall shard_ok (v_shards v);
  op_waiting : v_reopen_waiting v = [];
  op_volume_id : in_width 8 (v_volume_id v)
}.

Lemma fresh_inv asked n v : opened v -> Z.of_nat n <= 2 ^ 16 -> inv asked (length (v_shards v)) [] (fresh_client n v) [].
Proof.
  intros [Hs Hw W1] Hn.
  assert (places [] (fresh_client n v) = seq 0 n) as P by (unfold places, fresh_client; cbn; rewrite Hw, !app_nil_r; done).
  assert (forall i q, k_ios (fresh_client n v) !! i = Some q -> q = blank_io i /\ (i < n)%nat) as Hio.
  { intros i q Hq. cbn in Hq. apply list_lookup_fmap_Some in Hq as (j & -> & Hj). apply lookup_seq in Hj as [-> Hj]. done. }
  split; rewrite ?P; try done.
  - apply NoDup_seq.
  - intros i Hi. apply elem_of_seq in Hi. cbn. rewrite length_fmap, length_seq. lia.
  - intros i q Hq. destruct (Hio i q Hq) as [-> Hi]. split; [cbn [blank_io q_data]; by rewrite length_replicate, Z2Nat.id|done|].
    cbn. unfold in_width. lia.
  - intros i q Hq Hp. destruct (Hio i q Hq) as [_ Hi]. exfalso. apply Hp. apply elem_of_seq. lia.
  - intros i q Hq Hp. destruct (Hio i q Hq) as [_ Hi]. exfalso. apply Hp. apply elem_of_seq. lia.
  - intros b i Hb. by apply elem_of_nil in Hb.
  - cbn. apply Forall_fmap, Forall_true. done.
  - cbn. rewrite app_nil_r. unfold pending. cbn [fresh_client k_ios k_pool]. rewrite length_fmap, length_seq.
    assert (forall l, (forall i, i ∈ l -> i ∈ seq 0 n) -> omap (pend_of (blank_io <$> seq 0 n) (seq 0 n)) l = []) as Hnil.
    { induction l as [|i l IH]; intros Hl; [done|]. cbn. unfold pend_of at 1. rewrite decide_True by (apply Hl; by left). apply IH.
      intros j Hj. apply Hl. by right. }
    by rewrite Hnil.
  - intros i Hi. by apply elem_of_nil in Hi.
Qed.

(** a run of a fresh client, for any reading of what the calls ask for *)
Lemma client_run asked env n v acts :
  env_ok env (length (v_shards v)) -> opened v -> Z.of_nat n <= 2 ^ 16 -> allowed_run env acts (fresh_client n v) ->
  Forall (asks asked) acts ->
  exists accepted k, run_acts env acts (fresh_client n v) = Done (accepted, k) /\ inv asked (length (v_shards v)) [] k accepted.
Proof.
  intros He Ho Hn Ha Has. destruct (run_inv env asked _ He acts (fresh_client n v) []) as (l & k & E & H); [by apply fresh_inv|done|done|].
  rewrite app_nil_r in H. by exists l, k.
Qed.

Lemma asks_any acts : Forall (asks (fun _ _ _ _ => True)) acts.
Proof. apply Forall_true. intros a. unfold asks. by repeat case_match. Qed.


(** ** A client of one block *)
Definition after (env : cenv) (a : act) (k : client) : client :=
  match act_step env a k with Done (_, k') => k' | _ => k end.

Lemma allowed_next env a acts k k' :
  k' = after env a k -> allowed env a k -> allowed_run env acts k' -> allowed_run env (a :: acts) k.
Proof. intros -> Ha Hr. split; [done|]. intros l k' E. unfold after in Hr. by rewrite E in Hr. Qed.

Module ClientDemo.
Definition env : cenv :=
  mkCEnv (fun _ _ => true) (fun _ => 0) (fun _ => 0) (fun _ => RoErr (-5)) (fun _ => 4096) 10 64.
Definition vol : PfClientVolume := mkCVol VOLUME_OPENED 0 1 0 16 [mkCShard ["store"%string] 0 false] [].
Definition write : act := ASubmit 1 (replicate 512 7) 512 1024 99 true.
Definition answered : act := AReply 0 (mkReply 0 1 0 0).
Definition start : client := fresh_client 1 vol.

Lemma env_good : env_ok env (length (v_shards vol)).
Proof. by split. Qed.

Lemma vol_opened : opened vol.
Proof. split; [|done|done]. apply Forall_singleton. split; [done|right; cbn; lia]. Qed.

Definition k1 : client := after env write start.
Definition k2 : client := after env (AEvent 2) k1.
Definition k3 : client := after env answered k2.

Lemma room_of k n m : length (k_ios k) = n -> length (k_events k) = m -> (m + (n + 2) <= 64)%nat -> room env (length (k_ios k) + 2) k.
Proof. intros -> Hm Hl. unfold room. rewrite Hm. cbn [ce_queue_size env]. lia. Qed.

Lemma write_allowed : allowed env write start.
Proof.
  split; [eapply room_of; [vm_compute; reflexivity|vm_compute; reflexivity|lia]|].
  split; [split; [split; vm_compute; congruence|split; vm_compute; congruence]|vm_compute; congruence].
Qed.

Lemma send_allowed : allowed env (AEvent 2) k1.
Proof.
  split; [eapply room_of; [vm_compute; reflexivity|vm_compute; reflexivity|lia]|].
  assert (k_events k1 = [CvIoReq 0]) as E by (vm_compute; reflexivity). rewrite E. cbn [event_allowed].
  assert (k_replies k1 = [RBd 0]) as E' by (vm_compute; reflexivity). by rewrite E'.
Qed.

Lemma reply_in_flight k m :
  length (k_ios k) = 1%nat -> length (k_events k) = m -> Nat.leb m 61 = true -> places [] k = [] ->
  (fun q => (q_conn q, h_command_seq (q_cmd q))) <$> k_ios k !! 0%nat = Some (Some 0%nat, 0) -> allowed env answered k.
Proof.
  intros Hn Hm Hl%Nat.leb_le Ep E. split; [apply (room_of k 1 m); [done|done|lia]|].
  apply fmap_Some in E as (q & Eq & E). injection E as E1 E2. exists q. split; [exact Eq|].
  split; [rewrite Ep; apply not_elem_of_nil|]. split; [symmetry; exact E1|symmetry; exact E2].
Qed.

Lemma reply_allowed : allowed env answered k2.
Proof. eapply reply_in_flight; vm_compute; reflexivity. Qed.

Lemma done_allowed : allowed env (AEvent 3) k3.
Proof.
  split; [eapply room_of; [vm_compute; reflexivity|vm_compute; reflexivity|lia]|].
  assert (k_events k3 = [CvIoComplete (RBd 0) 0]) as E by (vm_compute; reflexivity). rewrite E. by left.
Qed.

Lemma run_allowed : allowed_run env [write; AEvent 2; answered; AEvent 3] start.
Proof.
  apply (allowed_next env write _ start k1); [unfold k1; reflexivity|exact write_allowed|].
  apply (allowed_next env (AEvent 2) _ k1 k2); [unfold k2; reflexivity|exact send_allowed|].
  apply (allowed_next env answered _ k2 k3); [unfold k3; reflexivity|exact reply_allowed|].
  eapply (allowed_next env (AEvent 3) _ k3); [reflexivity|exact done_allowed|exact I].
Qed.
End ClientDemo.

