(* ===== verification/ClientWire.v ===== *)
(** * From the client to the server

    What a client puts on a connection, received by the server of
    [TcpServer]: the blocks of the server hold the requests of the users. *)

From Stdlib Require Import ZArith Lia String Permutation.
From stdpp Require Import base tactics list numbers gmap strings.
From S2P Require Import Prelude Bytes Runs Ids Dispatcher Connection TcpServer TcpProps Iov Client ClientProps ClientRuns.

Definition asked_in (acts : list act) (op off len : Z) (data : list Z) : Prop :=
  Exists (fun a => request_of a = Some (op, off, len, data)) acts.

Lemma asks_in acts : Forall (asks (asked_in acts)) acts.
Proof.
  apply Forall_forall. intros a Ha. unfold asks. destruct (request_of a) as [[[[op off] len] data]|] eqn:E; [|done].
  apply Exists_exists. by exists a.
Qed.

(** a command and its data as bytes *)
Definition as_msg (m : PfMessageHead * list Z) : msg := (encode_head (fst m), snd m).

Lemma sent_msg_ok asked m : sent_ok asked m -> msg_ok (as_msg m).
Proof.
  intros (Hh & Hl & Hm & _ & Ho). pose proof (decode_encode_head _ Hh) as Ed. pose proof (ho_length _ Hh) as [Hl0 _].
  unfold msg_ok, as_msg. cbn [fst snd]. split; [by rewrite encode_head_length|].
  unfold is_write, good_write, hlen. rewrite Ed. destruct Ho as [[-> ->]|[-> Hd]]; cbn [IS_WRITE_OP]; [done|].
  change (IS_WRITE_OP S5_OP_WRITE) with true. cbn iota. split; [|done].
  rewrite !(proj2 (Z.leb_le _ _)) by lia. cbn [andb]. apply negb_true_iff, Z.eqb_neq. intros E. by rewrite E in Hm.
Qed.

(** C23 (requests reach the server): whatever a client does, and however the
    bytes of one of its connections are cut into pieces, a server that has
    blocks for them receives them without an error.  It gets one event per
    command, in the order in which the client sent them; each block holds
    the head the client sent and, for a write, the bytes; and each is a
    request of a user: the operation, the offset and the length of a call of
    pf_io_submit or pf_iov_submit, with the bytes of the user's buffer. *)
Theorem requests_reach_server (env : cenv) (n : nat) (v : PfClientVolume) (acts : list act) (disps : Z) (is_open : Z -> bool)
    (Henv : env_ok env (length (v_shards v))) (Hopened : opened v) (Hn : Z.of_nat n <= 2 ^ 16)
    (Hacts : allowed_run env acts (fresh_client n v)) :
  exists accepted k, run_acts env acts (fresh_client n v) = Done (accepted, k) /\
  forall (c : nat) (cn : cconn) (fuel : nat) (sc r : Z) (ids : list Z) (ps : list (list Z)) (s : srv),
  n_conns (k_net k) !! c = Some cn ->
  listening sc ids r s -> Z.of_nat (length ids) < r -> (length (cn_wire cn) <= length ids)%nat -> (3 * length ids + 3 <= fuel)%nat ->
  nonempty ps -> concat ps = concat (wire <$> (as_msg <$> cn_wire cn)) ->
  exists s', deliver disps is_open fuel ps s = ret s'
    /\ d_events (s_disp s') = d_events (s_disp s) ++ (EvIoReq <$> take (length (cn_wire cn)) ids)
    /\ forall j i m, ids !! j = Some i -> cn_wire cn !! j = Some m ->
         asked_in acts (h_opcode (fst m)) (h_offset (fst m)) (h_length (fst m)) (snd m)
         /\ (exists io, d_iocbs (s_disp s') !! i = Some io /\ i_cmd io = fst m)
         /\ exists buf, t_mem (s_tcp s') !! BdData i = Some buf /\ take (length (snd m)) buf = snd m.
Proof.
  destruct (client_run _ env n v acts Henv Hopened Hn Hacts (asks_in acts)) as (l & k & E & H).
  exists l, k. split; [done|]. intros c cn fuel sc r ids ps s Hc Hls Hr Hlen Hf Hne Hps.
  destruct (iv_bds _ _ _ _ _ H c cn Hc) as [_ Hw].
  destruct (deliver_messages disps is_open fuel sc r ids (as_msg <$> cn_wire cn) ps s) as (s' & Ed & Ev & Hm & _);
    [done|done| |by rewrite length_fmap|done|done|done|].
  { apply Forall_fmap. eapply Forall_impl; [exact Hw|]. apply sent_msg_ok. }
  rewrite length_fmap in Ev. exists s'. split; [done|]. split; [done|]. intros j i m Hi Hj.
  pose proof (Forall_lookup_1 _ _ _ _ Hw Hj) as (Hh & _ & _ & Ha & _). split; [done|].
  destruct (Hm j i (as_msg m) Hi) as [(io & Hio & Hcmd) Hbuf]; [by rewrite list_lookup_fmap, Hj|].
  cbn [as_msg fst snd] in *. rewrite (decode_encode_head _ Hh) in Hcmd. split; [by exists io|done].
Qed.

(** the write of [ClientDemo], received by the server of [TcpDemo] *)
Definition demo_sent : list (PfMessageHead * list Z) :=
  [(mkHead S5_OP_WRITE 0 0 16 4096 0 1 1024 512 0, replicate 512 7)].

Definition wire_of (c : nat) (m : outcome (list Z * client)) : option (list (PfMessageHead * list Z)) :=
  match m with Done (_, k) => cn_wire <$> n_conns (k_net k) !! c | _ => None end.

Lemma demo_wire : wire_of 0 (run_acts ClientDemo.env [ClientDemo.write; AEvent 2; ClientDemo.answered; AEvent 3] (fresh_client 1 ClientDemo.vol)) = Some demo_sent.
Proof. vm_compute. reflexivity. Qed.

Lemma requests_reach_server_witness :
  exists s', deliver 1 (fun _ => true) 9 [concat (wire <$> (as_msg <$> demo_sent))] TcpDemo.idle = ret s'
    /\ d_events (s_disp s') = [EvIoReq 0]
    /\ exists buf, t_mem (s_tcp s') !! BdData 0 = Some buf /\ take 512 buf = replicate 512 7.
Proof.
  destruct (requests_reach_server ClientDemo.env 1 ClientDemo.vol [ClientDemo.write; AEvent 2; ClientDemo.answered; AEvent 3]
    1 (fun _ => true) ClientDemo.env_good ClientDemo.vol_opened ltac:(done) ClientDemo.run_allowed) as (l & k & E & H).
  pose proof demo_wire as Hw. rewrite E in Hw. apply fmap_Some in Hw as (cn & Hc & Hw).
  destruct (H 0%nat cn 9%nat 9 5 [0; 1] [concat (wire <$> (as_msg <$> demo_sent))] TcpDemo.idle) as (s' & Ed & Ev & Hm);
    [exact Hc|exact TcpDemo.idle_listening|done|rewrite <- Hw; cbn; lia|cbn; lia|apply Forall_singleton; discriminate|
     rewrite <- Hw; cbn [concat]; apply app_nil_r|].
  exists s'. split; [exact Ed|]. rewrite <- Hw in Ev, Hm. split; [exact Ev|].
  destruct (Hm 0%nat 0 (mkHead S5_OP_WRITE 0 0 16 4096 0 1 1024 512 0, replicate 512 7)) as (_ & _ & Hb); [reflexivity|reflexivity|].
  cbn [snd] in Hb. rewrite length_replicate in Hb. exact Hb.
Defined.
