(* ===== verification/ClientLimits.v ===== *)
(** * Where a client loses its requests

    Orders of events, all of them reached by runs of [ClientRuns], after
    which the client dereferences a null pointer or sends nothing again. *)

From Stdlib Require Import ZArith Lia String Permutation.
From stdpp Require Import base tactics list numbers gmap strings.
From S2P Require Import Prelude Bytes Runs Ids Connection TcpServer TcpProps Iov Client ClientProps ClientRuns.

Section Late.
Variable env : cenv.
Variable asked : Z -> Z -> Z -> list Z -> Prop.
Variable shards : nat.

Lemma free_replies_same l : forall k, Forall is_rbd l -> exists r, free_replies l k = Done (set_kreplies r k).
Proof.
  induction l as [|b l IH]; intros k Hb; cbn [free_replies]; [exists (k_replies k); by destruct k|].
  apply Forall_cons in Hb as [Hb Hl]. destruct b as [b|]; [|done]. unfold free_reply. cbn [obind].
  case_bool_decide; [apply (IH (set_kreplies _ k) Hl)|by apply IH].
Qed.

(** closing a connection does not touch a block that is not in flight *)
Lemma conn_close_keeps h k c cn i acc :
  inv asked shards h k acc -> n_conns (k_net k) !! c = Some cn -> i ∈ places h k ->
  exists k', conn_close c k = Done k' /\ k_ios k' !! i = k_ios k !! i /\ length (k_ios k') = length (k_ios k)
    /\ k_events k' = k_events k /\ k_vol k' = k_vol k.
Proof.
  intros H Hc Hi. unfold conn_close, get_cn. rewrite Hc. cbn [of_option obind]. destruct (cn_ok cn); cbn [negb]; [|by exists k].
  destruct (iv_bds _ _ _ _ _ H c cn Hc) as [Hb _]. set (k1 := put_cn c _ k). destruct (cn_data cn) as [j|] eqn:Hd; cbn [obind].
  - destruct (iv_data _ _ _ _ _ H c cn j Hc Hd) as (Hj & q & Hq & _). unfold free_reply, get_io.
    change (k_ios k1) with (k_ios k). rewrite Hq. cbn [of_option obind]. set (k2 := put_io j _ k1).
    set (k3 := set_kreplies _ k2). assert (i <> j) as Hij by (by intros ->).
    assert (exists m, (if bool_decide (length (k_replies k2) < length (k_ios k2))%nat then Done k3 else Done k2) = Done (set_kreplies m k2)) as [m ->]
      by (case_bool_decide; [by eexists|exists (k_replies k2); done]).
    cbn [obind]. destruct (free_replies_same (cn_recv_q cn) (set_kreplies m k2) Hb) as [r ->]. eexists. split; [reflexivity|].
    cbn. rewrite length_insert, list_lookup_insert_ne by done. done.
  - destruct (free_replies_same (cn_recv_q cn) k1 Hb) as [r ->]. by eexists.
Qed.

Lemma queued_not_pool h k b i acc : inv asked shards h k acc -> CvIoComplete b i ∈ k_events k -> i ∉ k_pool k.
Proof.
  intros H Hb Hp. pose proof (iv_nodup _ _ _ _ _ H) as Hn. unfold places in Hn. apply NoDup_app in Hn as (_ & _ & Hn).
  apply NoDup_app in Hn as (_ & Hn & _). apply (Hn i Hp). rewrite elem_of_app. left. apply list_elem_of_omap. by exists (CvIoComplete b i).
Qed.

(** a reply whose block has lost its connection *)
Lemma complete_unconnected k b i q x now :
  k_ios k !! i = Some q -> q_reply q = Some x -> q_conn q = None -> fst x = RBd (match fst x with RBd r => r | DBd r => r end) ->
  client_do_complete env now b i k = Undef.
Proof.
  intros Hq Hr Hc Hx. destruct x as [rb rep]. cbn in Hx. unfold client_do_complete, get_io. rewrite Hq. cbn [of_option obind].
  rewrite Hr. cbn [of_option obind]. rewrite Hc. destruct (negb _); [done|]. destruct (_ =? S5_OP_HEARTBEAT); [done|].
  rewrite Hx. unfold free_reply. cbn [obind].
  case_bool_decide; cbn [obind set_kreplies k_ios]; rewrite Hq; cbn [of_option obind]; by rewrite Hc.
Qed.

Lemma late_timeout k i q b l now now' acc :
  inv asked shards [] k acc -> k_events k = CvIoTimeout i :: CvIoComplete b i :: l -> v_state (k_vol k) = VOLUME_OPENED ->
  k_ios k !! i = Some q -> q_sent_time q <> 0 -> q_sent_time q + ce_io_timeout env < now -> room env 1 k ->
  (let* k := volume_thread env now k in volume_thread env now' k) = Undef.
Proof.
  intros H He Hv Hq Hs Ht Hr. assert (CvIoComplete b i ∈ k_events k) as Hin by (rewrite He; right; by left).
  destruct (iv_done _ _ _ _ _ H b i Hin) as (q' & Hq' & (r & rep & Hrep) & [c Hc] & _). assert (q' = q) as -> by congruence.
  destruct (iv_req _ _ _ _ _ H i q Hq (queued_not_pool _ _ _ _ _ H Hin)) as [R1 R2 R3 R4 R5 R6].
  pose proof (inv_pop _ _ _ _ _ _ _ H He) as H0. cbn [event_io] in H0. unfold volume_thread at 1. rewrite He. cbn [process_event].
  set (k0 := set_kevents _ k) in *. unfold on_io_timeout, get_io. change (k_vol k0) with (k_vol k). rewrite Hv, Z.eqb_refl. cbn [negb].
  change (k_ios k0) with (k_ios k). rewrite Hq. cbn [of_option obind]. rewrite (proj2 (Z.eqb_neq _ _)), (proj2 (Z.ltb_lt _ _)) by done.
  cbn [negb andb]. rewrite Hc. cbn [of_option obind]. rewrite (proj2 (Z.eqb_neq (h_opcode (q_cmd q)) _)) by (destruct R3 as [-> | ->]; done).
  set (q1 := set_qsent 0 (Some c) q). set (k1 := put_io i q1 k0).
  assert (inv asked shards [] k1 acc) as H1.
  { apply (inv_same_io _ _ [] k0 i q q1); try done. destruct (iv_io _ _ _ _ _ H i q Hq). by split. }
  assert (k_ios k1 !! i = Some q1) as Hq1 by (apply get_put_io; by eapply lookup_lt_Some).
  destruct (n_conns (k_net k1) !! c) as [cn|] eqn:Hcn; [|unfold conn_close, get_cn; by rewrite Hcn].
  destruct (conn_close_keeps [] k1 c cn i acc H1 Hcn) as (k2 & -> & E2 & L2 & V2 & _).
  { unfold places. cbn. rewrite !elem_of_app, elem_of_cons. auto. }
  cbn [obind]. rewrite E2, Hq1. cbn [of_option obind]. unfold resend_io, get_io. set (q2 := set_qsent _ None q1).
  assert (i < length (k_ios k2))%nat as Hil by (rewrite L2; by eapply lookup_lt_Some). rewrite get_put_io by done. cbn [of_option obind].
  set (k3 := put_io i _ _). assert (k_events k3 = CvIoComplete b i :: l) as E3 by (by cbn; rewrite V2).
  rewrite post_event_room by (unfold room in *; rewrite E3; rewrite He in Hr; cbn in *; lia). cbn [obind negb Z.eqb].
  unfold volume_thread. cbn [set_kevents k_events]. rewrite E3. cbn [app process_event].
  eapply complete_unconnected; [cbn; apply list_lookup_insert_eq; by rewrite length_insert|exact Hrep|done|done].
Qed.
End Late.

Lemma run_acts_app env a1 : forall a2 k,
  run_acts env (a1 ++ a2) k = let* (l1, k) := run_acts env a1 k in let* (l2, k) := run_acts env a2 k in Done (l1 ++ l2, k).
Proof.
  induction a1 as [|a a1 IH]; intros a2 k; cbn [app run_acts obind].
  - by destruct (run_acts env a2 k) as [[l2 k2]| |].
  - destruct (act_step env a k) as [[l k1]| |]; cbn [obind]; [|done|done]. rewrite IH.
    destruct (run_acts env a1 k1) as [[l1 k2]| |]; cbn [obind]; [|done|done].
    destruct (run_acts env a2 k2) as [[l2 k3]| |]; cbn [obind]; [|done|done]. by rewrite app_assoc.
Qed.

(** A reply after a timeout ends the client: in every state a client can
    reach in which a request has timed out, and its reply has come after the
    timeout was queued and before it was handled, the two events end the
    process: the timeout drops the connection of the block and the reply
    dereferences it. *)
Theorem late_timeout_null_deref (env : cenv) (n : nat) (v : PfClientVolume) (acts : list act) (accepted : list Z) (k : client)
    (i : nat) (b : cbd) (q : PfClientIocb) (l : list cevent) (now now' : Z)
    (Henv : env_ok env (length (v_shards v))) (Hopened : opened v) (Hn : Z.of_nat n <= 2 ^ 16)
    (Hacts : allowed_run env acts (fresh_client n v)) (Hrun : run_acts env acts (fresh_client n v) = Done (accepted, k))
    (Hevents : k_events k = CvIoTimeout i :: CvIoComplete b i :: l) (Hopen : v_state (k_vol k) = VOLUME_OPENED)
    (Hq : k_ios k !! i = Some q) (Hsent : q_sent_time q <> 0) (Hlate : q_sent_time q + ce_io_timeout env < now)
    (Hroom : room env 1 k) :
  run_acts env (acts ++ [AEvent now; AEvent now']) (fresh_client n v) = Undef.
Proof.
  destruct (client_run _ env n v acts Henv Hopened Hn Hacts (asks_any acts)) as (l' & k' & E & H).
  rewrite Hrun in E. injection E as <- <-. rewrite run_acts_app, Hrun. cbn [obind run_acts act_step].
  pose proof (late_timeout env _ _ k i q b l now now' _ H Hevents Hopen Hq Hsent Hlate Hroom) as U.
  destruct (volume_thread env now k) as [k1| |]; cbn [obind] in U |- *; [by rewrite U|done|done].
Qed.

Module LateDemo.
Import ClientDemo.
Definition acts : list act := [write; AEvent 2; ATimer 20; answered].
Definition kt : client := after env (ATimer 20) k2.
Definition kr : client := after env answered kt.

Lemma timer_allowed : allowed env (ATimer 20) k2.
Proof. split; [eapply room_of; [vm_compute; reflexivity|vm_compute; reflexivity|lia]|exact I]. Qed.

Lemma reply_late : allowed env answered kt.
Proof. eapply reply_in_flight; vm_compute; reflexivity. Qed.

Lemma late_allowed : allowed_run env acts start.
Proof.
  apply (allowed_next env write _ start k1); [unfold k1; reflexivity|exact write_allowed|].
  apply (allowed_next env (AEvent 2) _ k1 k2); [unfold k2; reflexivity|exact send_allowed|].
  apply (allowed_next env (ATimer 20) _ k2 kt); [unfold kt; reflexivity|exact timer_allowed|].
  apply (allowed_next env answered _ kt kr); [unfold kr; reflexivity|exact reply_late|exact I].
Qed.

Definition view (m : outcome (list Z * client)) : option (list cevent * Z * option Z) :=
  match m with Done (_, k) => Some (k_events k, v_state (k_vol k), q_sent_time <$> k_ios k !! 0%nat) | _ => None end.

Lemma late_view : view (run_acts env acts (fresh_client 1 vol)) = Some ([CvIoTimeout 0; CvIoComplete (RBd 0) 0], VOLUME_OPENED, Some 2).
Proof. vm_compute. reflexivity. Qed.
End LateDemo.

Lemma late_timeout_null_deref_witness :
  run_acts ClientDemo.env (LateDemo.acts ++ [AEvent 21; AEvent 22]) (fresh_client 1 ClientDemo.vol) = Undef.
Proof.
  destruct (client_run _ ClientDemo.env 1 ClientDemo.vol LateDemo.acts ClientDemo.env_good ClientDemo.vol_opened ltac:(done)
    LateDemo.late_allowed (asks_any LateDemo.acts)) as (l & k & E & _).
  pose proof LateDemo.late_view as V. rewrite E in V. cbn [LateDemo.view] in V. injection V as Ve Vs Vq.
  apply fmap_Some in Vq as (q & Hq & Hs).
  apply (late_timeout_null_deref ClientDemo.env 1 ClientDemo.vol LateDemo.acts l k 0 (RBd 0) q [] 21 22
    ClientDemo.env_good ClientDemo.vol_opened ltac:(done) LateDemo.late_allowed E Ve Vs Hq).
  - rewrite <- Hs. discriminate.
  - rewrite <- Hs. reflexivity.
  - unfold room. rewrite Ve. cbn. lia.
Defined.

(** ** A volume that could not be opened again *)
Definition local_event (e : cevent) : Prop :=
  match e with CvIoReq _ | CvIoComplete _ _ | CvIoTimeout _ => True | _ => False end.

Definition settled (q : PfClientIocb) : Prop :=
  match q_reply q with Some (_, rep) => Z.land (rep_status rep) MSG_STATUS_REOPEN = 0 | None => True end.

Record gave_up (k : client) : Prop := mkGaveUp {
  gu_state : v_state (k_vol k) = VOLUME_REOPEN_FAIL;
  gu_events : Forall local_event (k_events k);
  gu_ios : Forall settled (k_ios k)
}.

(** nothing was sent, and what waits still waits *)
Record idle_step (k k' : client) : Prop := mkIdleStep {
  is_gave_up : gave_up k -> gave_up k';
  is_wire : cn_wire <$> n_conns (k_net k') = cn_wire <$> n_conns (k_net k);
  is_waiting : v_reopen_waiting (k_vol k) `suffix_of` v_reopen_waiting (k_vol k')
}.

#[global] Instance idle_step_preorder : PreOrder idle_step.
Proof.
  split.
  - intros k. by split.
  - intros k1 k2 k3 [A1 A2 A3] [B1 B2 B3]. split; [tauto|congruence|by etrans].
Qed.

(** what does not touch the volume, the connections, the queue or the blocks *)
Lemma idle_same k k' :
  k_vol k' = k_vol k -> k_net k' = k_net k -> k_events k' = k_events k -> k_ios k' = k_ios k -> idle_step k k'.
Proof. intros E1 E2 E3 E4. split; rewrite ?E1, ?E2; try done. intros []. by split; rewrite ?E1, ?E3, ?E4. Qed.

Lemma get_io_done i k q : get_io i k = Done q -> k_ios k !! i = Some q.
Proof. unfold get_io. destruct (k_ios k !! i); cbn; congruence. Qed.

Lemma get_cn_done c k cn : get_cn c k = Done cn -> n_conns (k_net k) !! c = Some cn.
Proof. unfold get_cn. destruct (_ !! c); cbn; congruence. Qed.

Lemma idle_put i q q' k : get_io i k = Done q -> (settled q -> settled q') -> idle_step k (put_io i q' k).
Proof.
  intros Hq%get_io_done Hs. split; [|done|done]. intros [G1 G2 G3]. split; [done|done|]. cbn. apply Forall_insert; [done|].
  apply Hs. by eapply Forall_lookup_1.
Qed.

Lemma idle_post env e k : local_event e -> idle_step k (snd (post_event env e k)).
Proof.
  intros He. unfold post_event. destruct (_ <? _); cbn [snd]; [|done]. split; [|done|done].
  intros []. split; [done| |done]. cbn. apply Forall_app. split; [done|]. by apply Forall_singleton.
Qed.

Lemma idle_put_cn c cn cn' k : n_conns (k_net k) !! c = Some cn -> cn_wire cn' = cn_wire cn -> idle_step k (put_cn c cn' k).
Proof.
  intros Hc Hw. split; [by intros []; split| |done]. cbn. rewrite list_fmap_insert, Hw. apply list_insert_id. by rewrite list_lookup_fmap, Hc.
Qed.

Lemma idle_free_reply b k k' : free_reply b k = Done k' -> idle_step k k'.
Proof.
  unfold free_reply. intros E. inv_done. transitivity a.
  - destruct b as [b|i]; inv_done; [done|]. by eapply idle_put.
  - case_bool_decide; inv_done; [by apply idle_same|done].
Qed.

Lemma idle_free_replies l : forall k k', free_replies l k = Done k' -> idle_step k k'.
Proof.
  induction l as [|b l IH]; intros k k' E; cbn [free_replies] in E; inv_done; [done|].
  transitivity a; [by eapply idle_free_reply|by apply IH].
Qed.

Lemma idle_free_iocb i k k' : free_iocb i k = Done k' -> idle_step k k'.
Proof. unfold free_iocb. case_bool_decide; intros E; inv_done. by apply idle_same. Qed.

Lemma idle_conn_close c k k' : conn_close c k = Done k' -> idle_step k k'.
Proof.
  unfold conn_close. intros E. inv_done. destruct (negb _); inv_done; [done|].
  transitivity (put_cn c (mkCConn false [] None (cn_wire a)) k); [eapply idle_put_cn; [by apply get_cn_done|done]|].
  etrans; [|by eapply idle_free_replies]. destruct (cn_data a); [by eapply idle_free_reply|by inv_done].
Qed.

Lemma idle_no_conn env now i k k' : gave_up k -> no_conn env now i k = Done k' -> idle_step k k'.
Proof.
  intros [Hs _ _] E. unfold no_conn in E. inv_done. assert (idle_step k a0 /\ v_state (k_vol a0) = VOLUME_REOPEN_FAIL) as [H1 H2].
  { destruct (_ <? _); inv_done.
    - unfold callback in *. inv_done. unfold free_iocb in *. case_bool_decide; inv_done. split; [by apply idle_same|done].
    - split; [|done]. split; [by intros []|done|]. cbn. by apply suffix_cons_r. }
  rewrite H2 in E. cbn in E. by inv_done.
Qed.

Lemma idle_on_io_req env now i k k' : gave_up k -> on_io_req env now i k = Done k' -> idle_step k k'.
Proof.
  intros G E. unfold on_io_req in E. inv_done. destruct (sh_is_local _); [done|]. unfold get_shard_conn in E.
  rewrite (gu_state _ G) in E. cbn in E. by eapply idle_no_conn.
Qed.

Lemma idle_complete env now b i k k' : gave_up k -> client_do_complete env now b i k = Done k' -> idle_step k k'.
Proof.
  intros G E. unfold client_do_complete in E. inv_done. destruct a0 as [rb rep].
  assert (Z.land (rep_status rep) MSG_STATUS_REOPEN = 0) as Hr.
  { pose proof (Forall_lookup_1 _ _ _ _ (gu_ios _ G) (get_io_done _ _ _ E0)) as Hq. unfold settled in Hq.
    destruct (q_reply a); [|done]. cbn in E1. by inv_done. }
  rewrite Hr in E. cbn in E. destruct (_ =? S5_OP_HEARTBEAT); inv_done.
  - etrans; [|by eapply idle_free_reply]. etrans; [|by eapply idle_free_iocb]. by eapply idle_put.
  - etrans; [by eapply idle_free_reply|]. transitivity a4; [|by apply idle_same]. etrans; [|by eapply idle_free_iocb]. by eapply idle_put.
Qed.

Lemma idle_event env now k k' : gave_up k -> volume_thread env now k = Done k' -> idle_step k k'.
Proof.
  intros G E. unfold volume_thread in E. destruct (k_events k) as [|e l] eqn:Ee; inv_done; [done|].
  destruct (proj1 (Forall_cons_iff _ _ _) (eq_ind _ (Forall local_event) (gu_events _ G) _ Ee)) as [He Hl].
  assert (gave_up (set_kevents l k)) as G' by (destruct G; by split).
  transitivity (set_kevents l k); [by split|].
  destruct e as [i|b i|i|t|]; cbn [process_event] in E; [by eapply idle_on_io_req|by eapply idle_complete| |done|done].
  unfold on_io_timeout in E. rewrite (gu_state _ G') in E. cbn in E. by inv_done.
Qed.

Lemma idle_submit env now buf len off arg w k rc k' : pf_io_submit env now buf len off arg w k = Done (rc, k') -> idle_step k k'.
Proof.
  unfold pf_io_submit. intros E. destruct (_ || _); [by inv_done|]. destruct (k_pool k) as [|i p]; [by inv_done|]. inv_done.
  apply (f_equal snd) in E. cbn [snd] in E. subst k'. etrans; [|by apply idle_post]. set (q := mkClientIo _ _ _ _ _ _ _ _ _ _ _).
  transitivity (put_io i q k); [by eapply idle_put|by apply idle_same].
Qed.

Lemma idle_iov env now iov len off arg w k rc k' : pf_iov_submit env now iov len off arg w k = Done (rc, k') -> idle_step k k'.
Proof.
  unfold pf_iov_submit. intros E. destruct (_ || _); [by inv_done|]. destruct (_ <? len); [by inv_done|].
  destruct (k_pool k) as [|i p]; [by inv_done|]. inv_done.
  apply (f_equal snd) in E. cbn [snd] in E. subst k'. etrans; [|by apply idle_post]. set (q := mkClientIo _ _ _ _ _ _ _ _ _ _ _).
  transitivity (put_io i q k); [by eapply idle_put|by apply idle_same].
Qed.

Lemma idle_scan env now n : forall i k, idle_step k (timeout_scan env now n i k).
Proof.
  induction n as [|n IH]; intros i k; cbn [timeout_scan]; [done|]. etrans; [|apply IH].
  destruct (k_ios k !! i) as [q|] eqn:Hq; [|done]. destruct (timed_out env now q); [|done].
  transitivity (snd (post_event env (CvIoTimeout i) k)); [by apply idle_post|]. apply (idle_put i q); [|done].
  unfold get_io, post_event. destruct (_ <? _); cbn [snd set_kevents k_ios]; by rewrite Hq.
Qed.

Lemma lift_done {A B} (m : outcome A) (f : A -> run B) x : rbind (lift m) f = Done (Some x) -> exists a, m = Done a /\ f a = Done (Some x).
Proof. destruct m as [a| |]; cbn; [by exists a|done|done]. Qed.

Lemma idle_reply env c rep k k' :
  Z.land (rep_status rep) MSG_STATUS_REOPEN = 0 -> on_reply env c rep k = Done (Some k') -> idle_step k k'.
Proof.
  intros Hr E. unfold on_reply in E. apply lift_done in E as (cn & Hc%get_cn_done & E).
  destruct (cn_ok cn); [|done]. destruct (cn_data cn); [done|]. destruct (cn_recv_q cn) as [|[b|] rest]; [done| |done].
  apply lift_done in E as (q & Hq & E). destruct (negb _); [done|]. set (i := Z.to_nat _) in *. set (q' := set_qreply _ q) in *.
  assert (idle_step k (put_io i q' k)) as H1 by (by eapply idle_put). destruct (_ =? S5_OP_READ); injection E as <-.
  - etrans; [exact H1|]. by apply (idle_put_cn c cn).
  - etrans; [exact H1|]. etrans; [|by apply idle_post]. by apply (idle_put_cn c cn).
Qed.

Lemma idle_data env c l k k' : on_data env c l k = Done (Some k') -> idle_step k k'.
Proof.
  intros E. unfold on_data in E. apply lift_done in E as (cn & Hc%get_cn_done & E).
  destruct (cn_ok cn); [|done]. destruct (cn_data cn) as [i|]; [|done]. apply lift_done in E as (q & Hq & E). destruct (_ || _); [done|].
  apply lift_done in E as (data & _ & E). destruct (negb _); [done|]. injection E as <-. etrans; [|by apply idle_post].
  transitivity (put_io i (set_qdata data q) k); [by eapply idle_put|]. by apply (idle_put_cn c cn).
Qed.

(** no reply asks for the volume to be opened again *)
Definition no_reopen (a : act) : Prop :=
  match a with AReply _ rep => Z.land (rep_status rep) MSG_STATUS_REOPEN = 0 | _ => True end.

Lemma idle_act env a k l k' : gave_up k -> no_reopen a -> act_step env a k = Done (l, k') -> idle_step k k'.
Proof.
  intros G Ha E. destruct a as [now buf len off arg w|now iov len off arg w|now|c rep|c d|c|now]; cbn [act_step] in E; unfold or_wait in E;
    try (match type of E with obind ?m _ = _ => destruct m as [x| |] eqn:E1; cbn [obind] in E; [|done|done] end).
  - destruct x as [rc k1]. injection E as _ <-. by eapply idle_submit.
  - destruct x as [rc k1]. injection E as _ <-. by eapply idle_iov.
  - injection E as _ <-. by eapply idle_event.
  - injection E as _ <-. destruct x as [k1|]; [by eapply idle_reply|done].
  - injection E as _ <-. destruct x as [k1|]; [by eapply idle_data|done].
  - injection E as _ <-. by eapply idle_conn_close.
  - injection E as _ <-. apply idle_scan.
Qed.

Lemma idle_run env acts : forall k l k',
  gave_up k -> Forall no_reopen acts -> run_acts env acts k = Done (l, k') -> idle_step k k'.
Proof.
  induction acts as [|a acts IH]; intros k l k' G Ha E; cbn [run_acts] in E; [by injection E as _ <-|].
  apply Forall_cons_iff in Ha as [Ha1 Ha]. destruct (act_step env a k) as [[l1 k1]| |] eqn:E0; cbn [obind] in E; [|done|done].
  destruct (run_acts env acts k1) as [[l2 k2]| |] eqn:E1; cbn [obind] in E; [|done|done]. injection E as _ <-.
  pose proof (idle_act env a k l1 k1 G Ha1 E0) as H1. etrans; [exact H1|]. eapply IH; [by apply H1|done|done].
Qed.

(** A volume that cannot be opened again is
    never opened again.  After an EVT_REOPEN_VOLUME whose query fails,
    whatever calls, events, replies, data and timeouts follow, the state
    stays VOLUME_REOPEN_FAIL, nothing is sent on any connection, and no
    request that waits for the volume is ever taken from the list, as long as
    no reply asks for a newer version of the volume. *)
Theorem failed_reopen_is_final (env : cenv) (k k' : client) (t now rc : Z) (rest : list cevent) (acts : list act) (l : list Z)
    (Hevents : k_events k = CvReopenVolume t :: rest) (Hrest : Forall local_event rest) (Hios : Forall settled (k_ios k))
    (Htime : v_open_time (k_vol k) < t) (Hfails : ce_reopen env (n_calls (k_net k)) = RoErr rc)
    (Hacts : Forall no_reopen acts) (Hrun : run_acts env (AEvent now :: acts) k = Done (l, k')) :
  v_state (k_vol k') = VOLUME_REOPEN_FAIL
  /\ cn_wire <$> n_conns (k_net k') = cn_wire <$> n_conns (k_net k)
  /\ v_reopen_waiting (k_vol k) `suffix_of` v_reopen_waiting (k_vol k').
Proof.
  cbn [run_acts act_step] in Hrun. unfold volume_thread in Hrun. rewrite Hevents in Hrun. cbn [process_event set_kevents k_vol] in Hrun.
  rewrite (proj2 (Z.ltb_lt _ _) Htime) in Hrun. unfold reopen_volume in Hrun. cbn [set_kevents k_net] in Hrun. rewrite Hfails in Hrun.
  cbn [obind] in Hrun. set (k1 := set_kvol _ _) in Hrun.
  destruct (run_acts env acts k1) as [[l2 k2]| |] eqn:E; cbn [obind] in Hrun; [|done|done]. injection Hrun as _ <-.
  assert (gave_up k1) as G by (by split). destruct (idle_run env acts k1 l2 k2 G Hacts E) as [I1 I2 I3]. splits; [by apply I1|exact I2|exact I3].
Qed.

Module FailedDemo.
(** no store answers, and neither does the conductor *)
Definition env : cenv :=
  mkCEnv (fun _ _ => false) (fun _ => 0) (fun _ => 0) (fun _ => RoErr (-5)) (fun _ => 4096) 10 64.
Definition waits : client := after env (AEvent 2) (after env ClientDemo.write (fresh_client 2 ClientDemo.vol)).
Definition more : list act := [ClientDemo.write; AEvent 4; ATimer 30].

Lemma settled_fresh k : forallb (fun q => match q_reply q with None => true | _ => false end) (k_ios k) = true -> Forall settled (k_ios k).
Proof.
  rewrite forallb_forall. intros H. apply Forall_forall. intros q Hq%list_elem_of_In%H. unfold settled. by destruct (q_reply q).
Qed.
End FailedDemo.

Lemma returns {A} (m : outcome A) : match m with Done _ => true | _ => false end = true -> exists x, m = Done x.
Proof. destruct m as [x| |]; [by exists x|done|done]. Qed.

Lemma failed_reopen_is_final_witness :
  exists l k', run_acts FailedDemo.env (AEvent 3 :: FailedDemo.more) FailedDemo.waits = Done (l, k')
    /\ v_state (k_vol k') = VOLUME_REOPEN_FAIL /\ [0%nat] `suffix_of` v_reopen_waiting (k_vol k').
Proof.
  destruct (returns (run_acts FailedDemo.env (AEvent 3 :: FailedDemo.more) FailedDemo.waits)) as [[l k'] E]; [vm_compute; reflexivity|].
  exists l, k'. split; [exact E|].
  assert (v_reopen_waiting (k_vol FailedDemo.waits) = [0%nat]) as W by (vm_compute; reflexivity).
  destruct (failed_reopen_is_final FailedDemo.env FailedDemo.waits k' 5000002 3 (-5) [] FailedDemo.more l) as (H1 & _ & H3);
    [vm_compute; reflexivity|constructor|apply FailedDemo.settled_fresh; vm_compute; reflexivity|vm_compute; reflexivity|reflexivity|
     repeat constructor|exact E|].
  rewrite W in H3. split; [exact H1|exact H3].
Defined.

(** ** A read cut off by the end of its connection *)
Definition unbound (i : nat) (k : client) : Prop := exists q, k_ios k !! i = Some q /\ q_data_bound q = false.

Section Unbound.
Variable env : cenv.
Variable i : nat.

Lemma unbound_same k k' : k_ios k' = k_ios k -> unbound i k -> unbound i k'.
Proof. intros E. unfold unbound. by rewrite E. Qed.

Lemma unbound_put j q q' k :
  get_io j k = Done q -> (q_data_bound q = false -> q_data_bound q' = false) -> unbound i k -> unbound i (put_io j q' k).
Proof.
  intros Hj%get_io_done Hq (p & Hp & Hb). unfold unbound. cbn. destruct (decide (j = i)) as [->|Hne].
  - exists q'. split; [apply list_lookup_insert_eq; by eapply lookup_lt_Some|]. apply Hq. congruence.
  - exists p. by rewrite list_lookup_insert_ne.
Qed.

Lemma post_get_io e j k : get_io j (snd (post_event env e k)) = get_io j k.
Proof. unfold post_event. by destruct (_ <? _). Qed.

Lemma unbound_post e k : unbound i k -> unbound i (snd (post_event env e k)).
Proof. apply unbound_same. unfold post_event. by destruct (_ <? _). Qed.

Lemma unbound_free_reply b k k' : free_reply b k = Done k' -> unbound i k -> unbound i k'.
Proof.
  unfold free_reply. intros E H. inv_done. assert (unbound i a) as H1.
  { destruct b as [b|j]; inv_done; [done|]. by eapply unbound_put. }
  case_bool_decide; inv_done; done.
Qed.

Lemma unbound_free_replies l : forall k k', free_replies l k = Done k' -> unbound i k -> unbound i k'.
Proof.
  induction l as [|b l IH]; intros k k' E H; cbn [free_replies] in E; inv_done; [done|]. eapply IH; [done|]. by eapply unbound_free_reply.
Qed.

Lemma unbound_free_iocb j k k' : free_iocb j k = Done k' -> unbound i k -> unbound i k'.
Proof. unfold free_iocb. case_bool_decide; intros E; inv_done. by apply unbound_same. Qed.

Lemma unbound_callback j s k k' : callback j s k = Done k' -> unbound i k -> unbound i k'.
Proof. unfold callback. intros E. inv_done. by apply unbound_same. Qed.

Lemma unbound_conn_close c k k' : conn_close c k = Done k' -> unbound i k -> unbound i k'.
Proof.
  unfold conn_close. intros E H. inv_done. destruct (negb _); inv_done; [done|]. eapply unbound_free_replies; [done|].
  destruct (cn_data a); [by eapply unbound_free_reply|by inv_done].
Qed.

Lemma pool_get_conn_ios ip k x k' : pool_get_conn env ip k = Done (x, k') -> k_ios k' = k_ios k.
Proof.
  unfold pool_get_conn. intros E. match type of E with obind ?m _ = _ => destruct m as [[[c|] m']| |] end; cbn [obind] in E; [|  |done|done].
  - by injection E as _ <-.
  - destruct (ce_connect _ _ _); by injection E as _ <-.
Qed.

Lemma shard_conn_loop_ios n : forall ips cur k x cur' k', shard_conn_loop env n ips cur k = Done (x, cur', k') -> k_ios k' = k_ios k.
Proof.
  induction n as [|n IH]; intros ips cur k x cur' k' E; cbn [shard_conn_loop] in E; [by injection E as _ _ <-|].
  destruct (if _ <? _ then _ else _) as [ip| |]; cbn [obind] in E; [|done|done].
  destruct (pool_get_conn env ip k) as [[[c|] k1]| |] eqn:E1; cbn [obind] in E; [| |done|done]; apply pool_get_conn_ios in E1.
  - by injection E as _ _ <-.
  - apply IH in E. congruence.
Qed.

Lemma get_shard_conn_ios idx k x k' : get_shard_conn env idx k = Done (x, k') -> k_ios k' = k_ios k.
Proof.
  unfold get_shard_conn. intros E. destruct (negb _); [by injection E as _ <-|].
  destruct (of_option _) as [sh| |]; cbn [obind] in E; [|done|done].
  destruct (shard_conn_loop _ _ _ _ _) as [[[x' cur] k1]| |] eqn:E1; cbn [obind] in E; [|done|done].
  injection E as _ <-. by apply shard_conn_loop_ios in E1.
Qed.

Lemma unbound_send_req now c j k k' : send_req env now c j k = Done k' -> unbound i k -> unbound i k'.
Proof.
  unfold send_req. intros E H. inv_done. destruct (k_replies k) as [|b rest]; [done|]. set (k1 := put_io j _ k) in E.
  assert (unbound i k1) as H1 by (by eapply unbound_put). destruct (negb _); inv_done.
  - eapply unbound_free_iocb; [done|]. eapply unbound_callback; [done|]. by eapply unbound_free_reply.
  - destruct (negb _); inv_done; [|exact H1]. eapply unbound_free_iocb; [done|]. by eapply unbound_callback.
Qed.

Lemma unbound_no_conn now j k k' : no_conn env now j k = Done k' -> unbound i k -> unbound i k'.
Proof.
  unfold no_conn. intros E H. inv_done. assert (unbound i a0) as H1.
  { destruct (_ <? _); inv_done; [|done]. eapply unbound_free_iocb; [done|]. by eapply unbound_callback. }
  destruct (_ =? _); inv_done; [by apply unbound_post|done].
Qed.

Lemma unbound_io_req now j k k' : on_io_req env now j k = Done k' -> unbound i k -> unbound i k'.
Proof.
  unfold on_io_req. intros E H. inv_done. destruct (sh_is_local _); [done|].
  destruct (get_shard_conn env _ k) as [[x k1]| |] eqn:Ec; cbn [obind] in E; [|done|done].
  assert (unbound i k1) as H1 by (eapply unbound_same; [by eapply get_shard_conn_ios|done]).
  destruct x; [by eapply unbound_send_req|by eapply unbound_no_conn].
Qed.

Lemma unbound_complete now b j k k' : client_do_complete env now b j k = Done k' -> unbound i k -> unbound i k'.
Proof.
  unfold client_do_complete. intros E H. inv_done. destruct a0 as [rb rep]. destruct (negb _).
  - inv_done. eapply unbound_free_reply; [done|]. apply unbound_post. eapply (unbound_put j a); [| done|].
    + destruct (_ <? _); [by rewrite post_get_io|done].
    + destruct (_ <? _); [by apply unbound_post|done].
  - destruct (_ =? S5_OP_HEARTBEAT); inv_done.
    + eapply unbound_free_reply; [done|]. eapply unbound_free_iocb; [done|]. by eapply unbound_put.
    + apply (unbound_same a4); [done|]. eapply unbound_free_iocb; [done|]. eapply unbound_put; [done|done|]. by eapply unbound_free_reply.
Qed.

Lemma unbound_resend j k rc k' : resend_io env j k = Done (rc, k') -> unbound i k -> unbound i k'.
Proof.
  unfold resend_io. intros E H. inv_done. apply (f_equal snd) in E. cbn [snd] in E. subst k'. apply unbound_post. by eapply unbound_put.
Qed.

Lemma unbound_timeout now j k k' : on_io_timeout env now j k = Done k' -> unbound i k -> unbound i k'.
Proof.
  unfold on_io_timeout. intros E H. destruct (negb _); inv_done; [done|]. destruct (_ && _); [|by inv_done]. inv_done.
  destruct (_ =? S5_OP_HEARTBEAT); [by eapply unbound_free_iocb|]. inv_done. destruct a3 as [rc k3].
  assert (unbound i k3) as H3.
  { eapply unbound_resend; [done|]. eapply unbound_put; [done|done|]. eapply unbound_conn_close; [done|]. by eapply unbound_put. }
  destruct (negb _); [by eapply unbound_free_iocb|by inv_done].
Qed.

Lemma unbound_resend_all l : forall k k', resend_all env l k = Done k' -> unbound i k -> unbound i k'.
Proof.
  induction l as [|j l IH]; intros k k' E H; cbn [resend_all] in E; inv_done; [done|]. destruct a as [rc k1].
  eapply IH; [done|]. by eapply unbound_resend.
Qed.

Lemma unbound_event now k k' : volume_thread env now k = Done k' -> unbound i k -> unbound i k'.
Proof.
  unfold volume_thread. intros E H. destruct (k_events k) as [|e l]; [by inv_done|].
  assert (unbound i (set_kevents l k)) as H0 by done. destruct e as [j|b j|j|t|]; cbn [process_event] in E.
  - by eapply unbound_io_req.
  - by eapply unbound_complete.
  - by eapply unbound_timeout.
  - destruct (_ <? _); [|by inv_done]. unfold reopen_volume in E. destruct (ce_reopen _ _); [|by inv_done|done].
    by eapply unbound_resend_all.
  - destruct (_ && _); inv_done; [by apply unbound_post|done].
Qed.

Lemma unbound_submit now buf len off arg w k rc k' : pf_io_submit env now buf len off arg w k = Done (rc, k') -> unbound i k -> unbound i k'.
Proof.
  unfold pf_io_submit. intros E H. destruct (_ || _); [by inv_done|]. destruct (k_pool k) as [|j p]; [by inv_done|]. inv_done.
  apply (f_equal snd) in E. cbn [snd] in E. subst k'. apply unbound_post. set (q := mkClientIo _ _ _ _ _ _ _ _ _ _ _).
  apply (unbound_same (put_io j q k)); [done|]. by eapply unbound_put.
Qed.

Lemma unbound_iov now iov len off arg w k rc k' : pf_iov_submit env now iov len off arg w k = Done (rc, k') -> unbound i k -> unbound i k'.
Proof.
  unfold pf_iov_submit. intros E H. destruct (_ || _); [by inv_done|]. destruct (_ <? len); [by inv_done|].
  destruct (k_pool k) as [|j p]; [by inv_done|]. inv_done.
  apply (f_equal snd) in E. cbn [snd] in E. subst k'. apply unbound_post. set (q := mkClientIo _ _ _ _ _ _ _ _ _ _ _).
  apply (unbound_same (put_io j q k)); [done|]. by eapply unbound_put.
Qed.

Lemma unbound_scan now n : forall j k, unbound i k -> unbound i (timeout_scan env now n j k).
Proof.
  induction n as [|n IH]; intros j k H; cbn [timeout_scan]; [done|]. apply IH.
  destruct (k_ios k !! j) as [q|] eqn:Hq; [|done]. destruct (timed_out env now q); [|done].
  apply (unbound_put j q); [|done|by apply unbound_post]. rewrite post_get_io. unfold get_io. by rewrite Hq.
Qed.

Lemma unbound_reply c rep k k' : on_reply env c rep k = Done (Some k') -> unbound i k -> unbound i k'.
Proof.
  intros E H. unfold on_reply in E. apply lift_done in E as (cn & Hc%get_cn_done & E).
  destruct (cn_ok cn); [|done]. destruct (cn_data cn); [done|]. destruct (cn_recv_q cn) as [|[b|] rest]; [done| |done].
  apply lift_done in E as (q & Hq & E). destruct (negb _); [done|]. set (j := Z.to_nat _) in *. set (q' := set_qreply _ q) in *.
  assert (unbound i (put_io j q' k)) as H1 by (by eapply unbound_put).
  destruct (_ =? S5_OP_READ); injection E as <-; [exact H1|apply unbound_post; exact H1].
Qed.

Lemma unbound_data c l k k' : on_data env c l k = Done (Some k') -> unbound i k -> unbound i k'.
Proof.
  intros E H. unfold on_data in E. apply lift_done in E as (cn & Hc%get_cn_done & E).
  destruct (cn_ok cn); [|done]. destruct (cn_data cn) as [j|]; [|done]. apply lift_done in E as (q & Hq & E). destruct (_ || _); [done|].
  apply lift_done in E as (data & _ & E). destruct (negb _); [done|]. injection E as <-. apply unbound_post.
  apply (unbound_same (put_io j (set_qdata data q) k)); [done|]. by eapply unbound_put.
Qed.

Lemma unbound_act a k l k' : act_step env a k = Done (l, k') -> unbound i k -> unbound i k'.
Proof.
  intros E H. destruct a as [now buf len off arg w|now iov len off arg w|now|c rep|c d|c|now]; cbn [act_step] in E; unfold or_wait in E;
    try (match type of E with obind ?m _ = _ => destruct m as [x| |] eqn:E1; cbn [obind] in E; [|done|done] end).
  - destruct x as [rc k1]. injection E as _ <-. by eapply unbound_submit.
  - destruct x as [rc k1]. injection E as _ <-. by eapply unbound_iov.
  - injection E as _ <-. by eapply unbound_event.
  - injection E as _ <-. destruct x as [k1|]; [by eapply unbound_reply|done].
  - injection E as _ <-. destruct x as [k1|]; [by eapply unbound_data|done].
  - injection E as _ <-. by eapply unbound_conn_close.
  - injection E as _ <-. by apply unbound_scan.
Qed.

Lemma unbound_run acts : forall k l k', run_acts env acts k = Done (l, k') -> unbound i k -> unbound i k'.
Proof.
  induction acts as [|a acts IH]; intros k l k' E H; cbn [run_acts] in E; [by injection E as _ <-|].
  destruct (act_step env a k) as [[l1 k1]| |] eqn:E0; cbn [obind] in E; [|done|done].
  destruct (run_acts env acts k1) as [[l2 k2]| |] eqn:E1; cbn [obind] in E; [|done|done]. injection E as _ <-.
  eapply IH; [done|]. by eapply unbound_act.
Qed.

(** the end of the connection unbinds the buffer of the read *)
Lemma close_unbinds c cn k k' :
  n_conns (k_net k) !! c = Some cn -> cn_ok cn = true -> cn_data cn = Some i -> conn_close c k = Done k' -> unbound i k'.
Proof.
  intros Hc Ho Hd E. unfold conn_close, get_cn in E. rewrite Hc in E. cbn [of_option obind] in E. rewrite Ho, Hd in E. cbn [negb] in E.
  unfold free_reply at 1 in E. inv_done. eapply unbound_free_replies; [done|]. set (k1 := put_cn c _ k) in *.
  assert (unbound i (put_io i (set_qbound false a1) k1)) as H1.
  { eexists. split; [apply list_lookup_insert_eq; eapply lookup_lt_Some; by apply get_io_done|done]. }
  case_bool_decide; inv_done; done.
Qed.

Lemma unbound_data_undef c cn l q k :
  unbound i k -> n_conns (k_net k) !! c = Some cn -> cn_ok cn = true -> cn_data cn = Some i -> k_ios k !! i = Some q ->
  Z.of_nat (length l) = q_data_len q -> l <> [] -> act_step env (AData c l) k = Undef.
Proof.
  intros (q' & Hq' & Hb) Hc Ho Hd Hq Hl Hne. assert (q' = q) as -> by congruence. cbn [act_step]. unfold or_wait, on_data, get_cn, get_io.
  rewrite Hc. cbn [of_option lift obind rbind ret]. rewrite Ho, Hd, Hq. cbn [of_option lift obind rbind ret].
  rewrite Hl, Z.eqb_refl, bool_decide_eq_false_2 by done. cbn [negb orb]. destruct (put_at 0 l (q_data q)) as [data| |] eqn:E; cbn; [by rewrite Hb| |done].
  exfalso. revert E. unfold put_at, write_at. by repeat case_match.
Qed.
End Unbound.

(** A cut read poisons its block: a connection that ends while the data
    of a read are awaited puts the data buffer of the block among the buffers
    for replies and forgets whose it is.  Nothing the client does after that
    repairs the block: the next read that gets it, the same one sent again
    or another, dereferences a null pointer when its data have come. *)
Theorem cut_read_poisons_block (env : cenv) (k k' : client) (c i : nat) (cn : cconn) (acts : list act) (l : list Z)
    (Hc : n_conns (k_net k) !! c = Some cn) (Hok : cn_ok cn = true) (Hdata : cn_data cn = Some i)
    (Hrun : run_acts env (AClose c :: acts) k = Done (l, k')) :
  unbound i k' /\
  forall c' cn' q data, n_conns (k_net k') !! c' = Some cn' -> cn_ok cn' = true -> cn_data cn' = Some i ->
  k_ios k' !! i = Some q -> Z.of_nat (length data) = q_data_len q -> data <> [] -> act_step env (AData c' data) k' = Undef.
Proof.
  cbn [run_acts act_step] in Hrun. destruct (conn_close c k) as [k1| |] eqn:E; cbn [obind] in Hrun; [|done|done].
  destruct (run_acts env acts k1) as [[l2 k2]| |] eqn:E1; cbn [obind] in Hrun; [|done|done]. injection Hrun as _ <-.
  assert (unbound i k2) as H by (eapply unbound_run; [done|by eapply close_unbinds]).
  split; [done|]. intros c' cn' q data. by apply unbound_data_undef.
Qed.

Module CutDemo.
Import ClientDemo.
Definition read : act := ASubmit 1 (replicate 512 0) 512 1024 98 false.
Definition again : list act := [ATimer 20; AEvent 21; AEvent 22; AReply 1 (mkReply 0 1 0 1)].
Definition cut : client := after env (AReply 0 (mkReply 0 1 0 0)) (after env (AEvent 2) (after env read (fresh_client 2 vol))).
End CutDemo.

Lemma cut_read_poisons_block_witness :
  exists l k', run_acts ClientDemo.env (AClose 0 :: CutDemo.again) CutDemo.cut = Done (l, k')
    /\ act_step ClientDemo.env (AData 1 (replicate 512 7)) k' = Undef.
Proof.
  destruct (returns (run_acts ClientDemo.env (AClose 0 :: CutDemo.again) CutDemo.cut)) as [[l k'] E]; [vm_compute; reflexivity|].
  exists l, k'. split; [exact E|].
  assert ((fun cn => (cn_ok cn, cn_data cn)) <$> n_conns (k_net CutDemo.cut) !! 0%nat = Some (true, Some 0%nat)) as V by (vm_compute; reflexivity).
  apply fmap_Some in V as (cn & Hc & V). injection V as V1 V2.
  assert (match run_acts ClientDemo.env (AClose 0 :: CutDemo.again) CutDemo.cut with
          | Done (_, k) => ((fun cn => (cn_ok cn, cn_data cn)) <$> n_conns (k_net k) !! 1%nat, q_data_len <$> k_ios k !! 0%nat)
          | _ => (None, None) end = (Some (true, Some 0%nat), Some 512)) as W by (vm_compute; reflexivity).
  rewrite E in W. injection W as W1 W2. apply fmap_Some in W1 as (cn' & Hc' & W1). injection W1 as W3 W4.
  apply fmap_Some in W2 as (q & Hq & W2).
  destruct (cut_read_poisons_block ClientDemo.env CutDemo.cut k' 0 0 cn CutDemo.again l Hc (eq_sym V1) (eq_sym V2) E) as [_ H].
  apply (H 1%nat cn' q); [exact Hc'|symmetry; exact W3|symmetry; exact W4|exact Hq|rewrite <- W2, length_replicate; reflexivity|discriminate].
Defined.
