(* ===== verification/Poller.v ===== *)
(** * The poller: descriptors watched by epoll

    Model of src/common/src/pf_poller.cpp.  A watched file descriptor has a
    [PollerFd] of the pool, and epoll hands back the pointer to it with an
    event.  One call of [epoll_wait] may report several events; the handlers
    run one after the other and may add and delete descriptors, also those
    whose events are still to be handled.

    The state has epoll's interest list, with the documented behaviour of
    [epoll_ctl]: adding fails for a descriptor that is in the list, deleting
    for one that is not; adding may fail for other reasons, an argument of
    the call. *)

From Stdlib Require Import ZArith Lia.
From stdpp Require Import base tactics list numbers sets gmap.
From S2P Require Import Prelude FixedQueue MemPool.

(** [handler] with its [cbk_arg] is a number *)
Record PollerFd : Type := mkPollerFd { pd_fd : Z; pd_events : Z; pd_handler : Z }.

Record PfPoller (Q : Type -> Type) : Type := mkPoller {
  desc_data : list PollerFd;
  desc_pool : ObjectMemoryPool Q;
  ep_set : gmap Z Z          (* the interest list: descriptor to [data.ptr] *)
}.

Arguments mkPoller {Q} desc_data desc_pool ep_set.
Arguments desc_data {Q} p.
Arguments desc_pool {Q} p.
Arguments ep_set {Q} p.

(** what a handler, or a call of another thread that runs in the handler of
    the control queue, does to the poller *)
Inductive fd_op : Type :=
| AddFd (fd events handler err : Z)
| DelFd (fd : Z).

(** a call of [desc->handler(desc->fd, events, desc->cbk_arg)] *)
Record call : Type := mkCall { cl_fd : Z; cl_events : Z; cl_handler : Z }.

Section Poller.
Context {Q : Type -> Type} {F : Fifo Q}.
Implicit Types p : PfPoller Q.

Definition epoll_add (fd x err : Z) p : Z * PfPoller Q :=
  match ep_set p !! fd with
  | Some _ => (- EEXIST, p)
  | None => if err =? 0 then (0, mkPoller (desc_data p) (desc_pool p) (<[fd := x]> (ep_set p))) else (- err, p)
  end.

Definition epoll_del (fd : Z) p : Z * PfPoller Q :=
  match ep_set p !! fd with
  | Some _ => (0, mkPoller (desc_data p) (desc_pool p) (delete fd (ep_set p)))
  | None => (- ENOENT, p)
  end.

Definition async_add_fd (fd events handler err : Z) p : outcome (Z * PfPoller Q) :=
  let* (x, pool) := pool_alloc (desc_pool p) in
  match x with
  | None => Done (- ENOMEM, mkPoller (desc_data p) pool (ep_set p))
  | Some x =>
      let* data := of_option (arr_set (desc_data p) x (mkPollerFd fd events handler)) in
      Done (epoll_add fd x err (mkPoller data pool (ep_set p)))
  end.

(** the loop of [async_del_fd] from [i] on *)
Fixpoint find_desc (fd i : Z) (l : list PollerFd) : option Z :=
  match l with
  | [] => None
  | d :: l => if pd_fd d =? fd then Some i else find_desc fd (i + 1) l
  end.

Definition async_del_fd (fd : Z) p : outcome (Z * PfPoller Q) :=
  let (rc, p) := epoll_del fd p in
  if negb (rc =? 0) then Done (rc, p)
  else
    match find_desc fd 0 (desc_data p) with
    | None => Done (- ENOENT, p)
    | Some i =>
        let* d := of_option (arr_get (desc_data p) i) in
        let* data := of_option (arr_set (desc_data p) i (mkPollerFd 0 (pd_events d) (pd_handler d))) in
        let* pool := pool_free i (desc_pool p) in
        Done (0, mkPoller data pool (ep_set p))
    end.

Definition fd_step (o : fd_op) p : outcome (PfPoller Q) :=
  let* (_, p) := (match o with AddFd fd ev h err => async_add_fd fd ev h err p | DelFd fd => async_del_fd fd p end) in Done p.

Fixpoint fd_steps (l : list fd_op) p : outcome (PfPoller Q) :=
  match l with
  | [] => Done p
  | o :: l => let* p := fd_step o p in fd_steps l p
  end.

(** the loop of [run] over what [epoll_wait] has reported; [acts k] is what the
    handler of the [k]-th event does *)
Fixpoint run_batch (acts : nat -> list fd_op) (k : nat) (evs : list (Z * Z)) p : outcome (list call * PfPoller Q) :=
  match evs with
  | [] => Done ([], p)
  | (x, ev) :: evs =>
      let* d := of_option (arr_get (desc_data p) x) in
      if pd_fd d =? 0 then run_batch acts (S k) evs p
      else
        let* p := fd_steps (acts k) p in
        let* (l, p) := run_batch acts (S k) evs p in
        Done (mkCall (pd_fd d) ev (pd_handler d) :: l, p)
  end.
End Poller.

(** ** The specification

    A registration has a number of its own; an event is handled if the
    registration it was reported for is still there. *)
Record reg : Type := mkReg { rg_no : Z; rg_handler : Z }.

Definition spec_step (o : fd_op) (s : gmap Z reg * Z) : gmap Z reg * Z :=
  match o with
  | AddFd fd _ h _ => (<[fd := mkReg (snd s) h]> (fst s), snd s + 1)
  | DelFd fd => (delete fd (fst s), snd s)
  end.

Fixpoint spec_batch (acts : nat -> list fd_op) (k : nat) (evs : list (Z * reg * Z)) (s : gmap Z reg * Z) : list call :=
  match evs with
  | [] => []
  | (fd, r, ev) :: evs =>
      if bool_decide (rg_no <$> fst s !! fd = Some (rg_no r)) then
        mkCall fd ev (rg_handler r) :: spec_batch acts (S k) evs (foldl (flip spec_step) s (acts k))
      else spec_batch acts (S k) evs s
  end.

(** ** The invariant *)
Lemma find_desc_at fd l : forall i j d,
  l !! j = Some d -> pd_fd d = fd -> (forall j' d', l !! j' = Some d' -> pd_fd d' = fd -> j' = j) -> find_desc fd i l = Some (i + Z.of_nat j).
Proof.
  induction l as [|a l IH]; intros i j d Hj Hd Hu; [done|]. cbn [find_desc]. destruct (Z.eqb_spec (pd_fd a) fd) as [Ha|Ha].
  - rewrite <- (Hu 0%nat a eq_refl Ha). f_equal. lia.
  - destruct j as [|j]; [cbn in Hj; congruence|]. rewrite (IH (i + 1) j d Hj Hd); [f_equal; lia|].
    intros j' d' Hj' Hd'. pose proof (Hu (S j') d' Hj' Hd'). lia.
Qed.

Section Inv.
Context {Q : Type -> Type} {F : Fifo Q}.
Implicit Types p : PfPoller Q.

Definition free_descs p : list Z := fifo_list (free_objs (desc_pool p)).

Record poller_ok p : Prop := mkPollerOk {
  po_pool : pool_inv (desc_pool p) (map_to_list (ep_set p)).*2;
  po_count : 0 <= obj_count (desc_pool p);
  po_len : Z.of_nat (length (desc_data p)) = obj_count (desc_pool p);
  po_free : forall x, x ∈ free_descs p -> exists d, arr_get (desc_data p) x = Some d /\ pd_fd d = 0;
  po_held : forall fd x, ep_set p !! fd = Some x -> 0 < fd /\ exists d, arr_get (desc_data p) x = Some d /\ pd_fd d = fd
}.

Lemma held_elem p fd x : ep_set p !! fd = Some x -> x ∈ (map_to_list (ep_set p)).*2.
Proof. intros H. apply list_elem_of_fmap. exists (fd, x). split; [done|]. by apply elem_of_map_to_list. Qed.

Lemma elem_held p x : x ∈ (map_to_list (ep_set p)).*2 -> exists fd, ep_set p !! fd = Some x.
Proof. intros H. apply list_elem_of_fmap in H as ([fd y] & -> & H). exists fd. by apply elem_of_map_to_list. Qed.

Lemma held_range p fd x : poller_ok p -> ep_set p !! fd = Some x -> 0 <= x < obj_count (desc_pool p).
Proof.
  intros H Hx. assert (x ∈ seqZ 0 (obj_count (desc_pool p))) as Hin; [|apply elem_of_seqZ in Hin; lia].
  rewrite <- (pi_perm _ _ (po_pool _ H)). apply elem_of_app. right. by eapply held_elem.
Qed.

Lemma held_not_free p fd x : poller_ok p -> ep_set p !! fd = Some x -> x ∉ free_descs p.
Proof.
  intros H Hx Hf. destruct (po_free _ H x Hf) as (d & E & Z). destruct (po_held _ H fd x Hx) as (Hp & d' & E' & Z'). assert (d' = d) by congruence. subst. lia.
Qed.

Lemma free_nodup p : poller_ok p -> NoDup (free_descs p).
Proof.
  intros H. assert (NoDup (free_descs p ++ (map_to_list (ep_set p)).*2)) as Hn by (rewrite (pi_perm _ _ (po_pool _ H)); apply NoDup_seqZ).
  by apply NoDup_app in Hn as (? & _ & _).
Qed.

(** a descriptor that is in use is the only one with its number *)
Lemma only_desc p fd x j d :
  poller_ok p -> ep_set p !! fd = Some x -> desc_data p !! j = Some d -> pd_fd d = fd -> j = Z.to_nat x.
Proof.
  intros H Hx Hj Hd. destruct (po_held _ H fd x Hx) as (Hfd & _). pose proof (lookup_lt_Some _ _ _ Hj) as Hl. pose proof (po_len _ H) as Hn.
  assert (Z.of_nat j ∈ seqZ 0 (obj_count (desc_pool p))) as Hin by (apply elem_of_seqZ; lia).
  rewrite <- (pi_perm _ _ (po_pool _ H)) in Hin. apply elem_of_app in Hin as [Hin|Hin].
  - destruct (po_free _ H _ Hin) as (d' & E & Z0). rewrite arr_get_nat in E. assert (d' = d) by congruence. subst. lia.
  - apply elem_held in Hin as (fd' & Hfd'). destruct (po_held _ H fd' _ Hfd') as (_ & d' & E & Z0). rewrite arr_get_nat in E.
    assert (fd' = fd) as -> by congruence. assert (x = Z.of_nat j) as -> by congruence. lia.
Qed.

Lemma alloc_head (q : ObjectMemoryPool Q) y l :
  fifo_ok (free_objs q) -> fifo_list (free_objs q) = y :: l ->
  exists q', pool_alloc q = Done (Some y, q') /\ fifo_ok (free_objs q') /\ fifo_list (free_objs q') = l
    /\ fifo_cap (free_objs q') = fifo_cap (free_objs q) /\ obj_count q' = obj_count q.
Proof.
  intros Hok Hl. unfold pool_alloc. destruct (fifo_is_empty (free_objs q)) eqn:He.
  - apply fifo_is_empty_nil in He; [|done]. congruence.
  - destruct (fifo_get_cons _ y l _ Hok Hl) as (q' & -> & Hok' & Hl' & Hc'). eexists. split; [reflexivity|done].
Qed.

Lemma add_ok p fd ev h y l :
  poller_ok p -> free_descs p = y :: l -> ep_set p !! fd = None -> 0 < fd ->
  exists p', async_add_fd fd ev h 0 p = Done (0, p') /\ poller_ok p' /\ free_descs p' = l /\ ep_set p' = <[fd := y]> (ep_set p)
    /\ obj_count (desc_pool p') = obj_count (desc_pool p)
    /\ forall x, arr_get (desc_data p') x = if decide (y = x) then Some (mkPollerFd fd ev h) else arr_get (desc_data p) x.
Proof.
  intros H Hl Hn Hfd. pose proof (po_pool _ H) as [P1 P2 P3]. pose proof (po_len _ H) as Hlen. pose proof (free_nodup _ H) as Hnd. rewrite Hl in Hnd.
  apply NoDup_cons in Hnd as [Hy Hnd].
  assert (0 <= y < obj_count (desc_pool p)) as Hr.
  { assert (y ∈ seqZ 0 (obj_count (desc_pool p))) as Hin; [|apply elem_of_seqZ in Hin; lia].
    rewrite <- P3. apply elem_of_app. left. unfold free_descs in Hl. rewrite Hl. by left. }
  destruct (alloc_head _ _ _ P1 Hl) as (q & Eq & Q1 & Q2 & Q3 & Q4). unfold async_add_fd. rewrite Eq. cbn [obind].
  assert (arr_set (desc_data p) y (mkPollerFd fd ev h) = Some (<[Z.to_nat y := mkPollerFd fd ev h]> (desc_data p))) as Es
    by (apply arr_set_spec; lia).
  rewrite Es. cbn [of_option obind]. unfold epoll_add. cbn [ep_set desc_data desc_pool]. rewrite Hn. cbn [Z.eqb].
  pose proof (fun x => arr_get_set _ _ x _ _ Es) as Hg. eexists. split; [reflexivity|]. splits; try done.
  split; cbn [desc_data desc_pool ep_set]; unfold free_descs; cbn [desc_pool].
  - split; [done|congruence|]. rewrite Q2, map_to_list_insert by done. cbn. rewrite <- Permutation_middle, Q4, <- P3. unfold free_descs in Hl. by rewrite Hl.
  - by rewrite Q4, <- Hlen, Hlen; apply H.
  - rewrite length_insert. by rewrite Q4.
  - intros x Hx. rewrite Q2 in Hx. rewrite Hg. destruct (decide (y = x)) as [->|]; [done|]. apply H. rewrite Hl. by right.
  - intros fd' x Hx. rewrite Hg. apply lookup_insert_Some in Hx as [[<- <-]|[Hne Hx]].
    + rewrite decide_True by done. split; [done|]. by eexists.
    + rewrite decide_False; [by apply H|]. intros ->. apply (held_not_free p fd' x H Hx). rewrite Hl. by left.
Qed.

Lemma del_ok p fd x :
  poller_ok p -> ep_set p !! fd = Some x ->
  exists p', async_del_fd fd p = Done (0, p') /\ poller_ok p' /\ free_descs p' = free_descs p ++ [x] /\ ep_set p' = delete fd (ep_set p)
    /\ obj_count (desc_pool p') = obj_count (desc_pool p) /\ (exists d, arr_get (desc_data p') x = Some d /\ pd_fd d = 0)
    /\ forall z, z <> x -> arr_get (desc_data p') z = arr_get (desc_data p) z.
Proof.
  intros H Hx. pose proof (po_pool _ H) as [P1 P2 P3]. pose proof (po_len _ H) as Hlen. pose proof (held_range _ _ _ H Hx) as Hr.
  destruct (po_held _ H fd x Hx) as (Hfd & d & Ed & Zd). pose proof (map_to_list_delete (ep_set p) fd x Hx) as Pd.
  unfold async_del_fd, epoll_del. rewrite Hx. cbn [negb Z.eqb desc_data desc_pool ep_set].
  rewrite arr_get_lookup in Ed by lia. rewrite (find_desc_at fd (desc_data p) 0 (Z.to_nat x) d Ed Zd)
    by (intros j d' Hj Hd'; by apply (only_desc p fd x j d')).
  replace (0 + Z.of_nat (Z.to_nat x)) with x by lia. rewrite arr_get_lookup, Ed by lia. cbn [of_option obind].
  set (d0 := mkPollerFd 0 _ _). assert (arr_set (desc_data p) x d0 = Some (<[Z.to_nat x := d0]> (desc_data p))) as Es by (apply arr_set_spec; lia).
  rewrite Es. cbn [of_option obind]. pose proof (fun z => arr_get_set _ _ z _ _ Es) as Hg.
  destruct (pool_free_spec (desc_pool p) x (map_to_list (delete fd (ep_set p))).*2) as (q & Eq & Q1 & Q2); [|apply H|].
  { apply (pool_inv_perm _ ((map_to_list (ep_set p)).*2)); [by rewrite <- Pd|apply H]. }
  rewrite Eq. cbn [obind]. eexists. split; [reflexivity|]. unfold pool_free in Eq.
  destruct (fifo_put_ok _ x (free_objs (desc_pool p)) P1) as (q' & Ep & _ & Hl' & _).
  { rewrite P2. pose proof (perm_length _ _ (po_pool _ H) (po_count _ H)) as Hp. rewrite <- Pd in Hp. cbn in Hp. lia. }
  rewrite Ep in Eq. cbn in Eq. injection Eq as <-. unfold free_descs. cbn [desc_pool free_objs obj_count] in *. splits; try done.
  - split; cbn [desc_data desc_pool ep_set]; [done|apply H|by rewrite length_insert| |].
    + unfold free_descs. cbn [desc_pool free_objs]. intros z Hz. rewrite Hl', elem_of_app in Hz. rewrite Hg.
      destruct (decide (x = z)) as [->|Hne]; [by exists d0|]. destruct Hz as [Hz|Hz]; [by apply H|]. apply list_elem_of_singleton in Hz. congruence.
    + intros fd' z Hz. apply lookup_delete_Some in Hz as [Hne Hz]. rewrite Hg, decide_False; [by apply H|]. intros ->.
      destruct (po_held _ H fd' z Hz) as (_ & d' & E' & Z'). rewrite arr_get_lookup, Ed in E' by lia. congruence.
  - exists d0. rewrite Hg, decide_True by done. done.
  - intros z Hz. rewrite Hg, decide_False; [done|congruence].
Qed.

Lemma del_none p fd : ep_set p !! fd = None -> async_del_fd fd p = Done (- ENOENT, p).
Proof. intros H. unfold async_del_fd, epoll_del. by rewrite H. Qed.
End Inv.

(** ** Conditions on the handlers *)

(** the kernel gives no descriptor that is in use, and adding succeeds *)
Definition op_ok (o : fd_op) (s : gmap Z reg * Z) : Prop :=
  match o with AddFd fd _ _ err => 0 < fd /\ err = 0 /\ fst s !! fd = None | DelFd _ => True end.

Fixpoint ops_ok (l : list fd_op) (s : gmap Z reg * Z) : Prop :=
  match l with [] => True | o :: l => op_ok o s /\ ops_ok l (spec_step o s) end.

Fixpoint batch_ok (acts : nat -> list fd_op) (k : nat) (evs : list (Z * reg * Z)) (s : gmap Z reg * Z) : Prop :=
  match evs with
  | [] => True
  | (fd, r, _) :: evs =>
      if bool_decide (rg_no <$> fst s !! fd = Some (rg_no r)) then
        ops_ok (acts k) s /\ batch_ok acts (S k) evs (foldl (flip spec_step) s (acts k))
      else batch_ok acts (S k) evs s
  end.

Definition is_add (o : fd_op) : nat := match o with AddFd _ _ _ _ => 1 | DelFd _ => 0 end.
Definition adds (l : list fd_op) : nat := sum_list (is_add <$> l).
Definition batch_adds (acts : nat -> list fd_op) (k n : nat) : nat := sum_list ((adds ∘ acts) <$> seq k n).

Section Refine.
Context {Q : Type -> Type} {F : Fifo Q}.
Implicit Types (p : PfPoller Q) (s : gmap Z reg * Z).

Record rel (hd tl : list Z) p s : Prop := mkRel {
  rl_ok : poller_ok p;
  rl_free : free_descs p = hd ++ tl;
  rl_next : obj_count (desc_pool p) <= snd s;
  rl_regs : forall fd, match ep_set p !! fd, fst s !! fd with
                       | Some x, Some r => (exists d, arr_get (desc_data p) x = Some d /\ pd_handler d = rg_handler r)
                                           /\ (rg_no r = x \/ obj_count (desc_pool p) <= rg_no r)
                       | None, None => True
                       | _, _ => False
                       end
}.

(** the registration with number [x] that [fd] had when its event was
    reported: still there, or gone with its descriptor not used again *)
Definition tracked (hd tl : list Z) p s (x fd h : Z) : Prop :=
  0 <= x < obj_count (desc_pool p) /\ (x ∉ hd) /\
  ((ep_set p !! fd = Some x /\ fst s !! fd = Some (mkReg x h)) \/ (x ∈ tl /\ forall r, fst s !! fd = Some r -> rg_no r <> x)).

Lemma add_rel hd tl y p s fd ev h :
  rel (y :: hd) tl p s -> 0 < fd -> fst s !! fd = None ->
  exists p', async_add_fd fd ev h 0 p = Done (0, p') /\ rel hd tl p' (spec_step (AddFd fd ev h 0) s)
    /\ forall x fd' h', tracked (y :: hd) tl p s x fd' h' -> tracked hd tl p' (spec_step (AddFd fd ev h 0) s) x fd' h'.
Proof.
  intros [R1 R2 R3 R4] Hfd Hn. assert (ep_set p !! fd = None) as He.
  { specialize (R4 fd). rewrite Hn in R4. by destruct (ep_set p !! fd). }
  destruct (add_ok p fd ev h y (hd ++ tl) R1 R2 He Hfd) as (p' & E & O & Fr & Es & Ec & Hg). exists p'. split; [done|]. cbn [spec_step].
  pose proof (free_nodup _ R1) as Hnd. rewrite R2 in Hnd. apply NoDup_cons in Hnd as [Hy _]. split.
  - split; cbn [fst snd]; [done|done|rewrite Ec; lia|]. intros fd'. rewrite Es. destruct (decide (fd = fd')) as [<-|Hne].
    + rewrite !lookup_insert_eq. rewrite Hg, decide_True by done. split; [by eexists|]. right. cbn [rg_no]. by rewrite Ec.
    + rewrite !lookup_insert_ne by done. specialize (R4 fd'). destruct (ep_set p !! fd') as [x|] eqn:Ex, (fst s !! fd') as [r|]; try done.
      rewrite Hg, Ec, decide_False; [done|]. intros ->. apply (held_not_free p fd' x R1 Ex). rewrite R2. by left.
  - intros x fd' h' (T1 & T2 & T3). apply not_elem_of_cons in T2 as [T2 T2']. unfold tracked. rewrite Ec, Es. cbn [fst]. split; [done|]. split; [done|].
    destruct T3 as [[T3 T4]|[T3 T4]].
    + left. assert (fd <> fd') by congruence. by rewrite !lookup_insert_ne.
    + right. split; [done|]. intros r Hr. apply lookup_insert_Some in Hr as [[<- <-]|[_ Hr]]; [cbn; lia|by apply T4].
Qed.

Lemma del_rel hd tl p s fd :
  rel hd tl p s ->
  exists p' tl' rc, async_del_fd fd p = Done (rc, p') /\ rel hd tl' p' (spec_step (DelFd fd) s)
    /\ forall x fd' h', tracked hd tl p s x fd' h' -> tracked hd tl' p' (spec_step (DelFd fd) s) x fd' h'.
Proof.
  intros [R1 R2 R3 R4]. cbn [spec_step]. destruct (ep_set p !! fd) as [x|] eqn:Ex.
  - destruct (del_ok p fd x R1 Ex) as (p' & E & O & Fr & Es & Ec & _ & Hg). exists p', (tl ++ [x]), 0. split; [done|]. split.
    + split; cbn [fst snd]; [done|by rewrite Fr, R2, app_assoc|by rewrite Ec|]. intros fd'. rewrite Es. destruct (decide (fd = fd')) as [<-|Hne].
      * by rewrite !lookup_delete_eq.
      * rewrite !lookup_delete_ne by done. specialize (R4 fd'). destruct (ep_set p !! fd') as [z|] eqn:Ez, (fst s !! fd') as [r|]; try done.
        rewrite Ec, Hg; [done|]. intros ->. destruct (po_held _ R1 fd x Ex) as (_ & d & D1 & D2), (po_held _ R1 fd' x Ez) as (_ & d' & D1' & D2').
        congruence.
    + intros z fd' h' (T1 & T2 & T3). unfold tracked. rewrite Ec, Es. cbn [fst]. split; [lia|]. split; [done|].
      destruct T3 as [[T3 T4]|[T3 T4]].
      * destruct (decide (fd = fd')) as [<-|Hne]; [right|left; by rewrite !lookup_delete_ne].
        assert (z = x) as -> by congruence. split; [apply elem_of_app; right; by left|]. intros r. by rewrite lookup_delete_eq.
      * right. split; [apply elem_of_app; by left|]. intros r Hr. apply lookup_delete_Some in Hr as [_ Hr]. by apply T4.
  - exists p, tl, (- ENOENT). split; [by apply del_none|].
    assert (delete fd (fst s) = fst s) as Ed.
    { apply delete_id. specialize (R4 fd). rewrite Ex in R4. by destruct (fst s !! fd). }
    rewrite Ed. destruct s. split; [by split|done].
Qed.

Lemma ops_rel l : forall hd tl p s,
  rel hd tl p s -> ops_ok l s -> (adds l <= length hd)%nat ->
  exists p' hd' tl', fd_steps l p = Done p' /\ rel hd' tl' p' (foldl (flip spec_step) s l) /\ (length hd = adds l + length hd')%nat
    /\ forall x fd h, tracked hd tl p s x fd h -> tracked hd' tl' p' (foldl (flip spec_step) s l) x fd h.
Proof.
  induction l as [|o l IH]; intros hd tl p s R Ho Ha; cbn [fd_steps foldl]; [by exists p, hd, tl|].
  destruct Ho as [Ho Hl]. unfold adds in Ha. cbn in Ha. destruct o as [fd ev h err|fd]; cbn [is_add] in Ha.
  - destruct hd as [|y hd]; [cbn in Ha; lia|]. destruct Ho as (Hfd & -> & Hn).
    destruct (add_rel hd tl y p s fd ev h R Hfd Hn) as (p1 & E1 & R1 & T1).
    destruct (IH hd tl p1 _ R1 Hl) as (p' & hd' & tl' & E & R' & L & T); [cbn in Ha; unfold adds; lia|].
    exists p', hd', tl'. unfold fd_step. rewrite E1. cbn [obind]. splits; [done|done|cbn; unfold adds in L; lia|]. intros x fd' h' Ht. by apply T, T1.
  - destruct (del_rel hd tl p s fd R) as (p1 & tl1 & rc & E1 & R1 & T1).
    destruct (IH hd tl1 p1 _ R1 Hl) as (p' & hd' & tl' & E & R' & L & T); [unfold adds; lia|].
    exists p', hd', tl'. unfold fd_step. rewrite E1. cbn [obind]. splits; [done|done|done|]. intros x fd' h' Ht. by apply T, T1.
Qed.

(** an event as epoll has reported it, and as the specification has it *)
Definition raw (e : Z * reg * Z) : Z * Z := (rg_no (snd (fst e)), snd e).

Lemma batch_adds_S acts k n : batch_adds acts k (S n) = (adds (acts k) + batch_adds acts (S k) n)%nat.
Proof. done. Qed.

Lemma batch_rel acts evs : forall k hd tl p s,
  rel hd tl p s -> Forall (fun e => tracked hd tl p s (rg_no (snd (fst e))) (fst (fst e)) (rg_handler (snd (fst e)))) evs ->
  batch_ok acts k evs s -> (batch_adds acts k (length evs) <= length hd)%nat ->
  exists p', run_batch acts k (raw <$> evs) p = Done (spec_batch acts k evs s, p') /\ poller_ok p'.
Proof.
  induction evs as [|[[fd [x h]] ev] evs IH]; intros k hd tl p s R Ht Hb Ha; cbn [fmap list_fmap run_batch spec_batch].
  { exists p. split; [done|apply R]. }
  apply Forall_cons in Ht as [(T1 & T2 & T3) Ht]. cbn [fst snd rg_no rg_handler raw] in *. cbn [length batch_ok rg_no] in Ha, Hb.
  rewrite batch_adds_S in Ha. destruct T3 as [[T3 T4]|[T3 T4]].
  - rewrite T4 in *. cbn [fmap option_fmap option_map rg_no] in *. rewrite bool_decide_true in * by done. destruct Hb as [Ho Hb].
    destruct (po_held _ (rl_ok _ _ _ _ R) fd x T3) as (Hfd & d & D1 & D2). pose proof (rl_regs _ _ _ _ R fd) as Hr. rewrite T3, T4 in Hr.
    destruct Hr as [(d' & D3 & D4) _]. assert (d' = d) as -> by congruence. rewrite D1. cbn [of_option obind].
    rewrite (proj2 (Z.eqb_neq _ _)) by lia.
    destruct (ops_rel (acts k) hd tl p s R Ho) as (p1 & hd1 & tl1 & -> & R1 & L1 & Tr); [lia|]. cbn [obind].
    destruct (IH (S k) hd1 tl1 p1 _ R1) as (p' & -> & O); [|done|lia|].
    { eapply Forall_impl; [exact Ht|]. intros e. apply Tr. }
    exists p'. cbn [obind]. rewrite D2, D4. done.
  - assert (rg_no <$> fst s !! fd <> Some x) as Hn.
    { destruct (fst s !! fd) as [r|] eqn:Er; [|done]. intros [= E]. by apply (T4 r). }
    rewrite bool_decide_false in * by done. assert (x ∈ free_descs p) as Hf by (rewrite (rl_free _ _ _ _ R); apply elem_of_app; by right).
    destruct (po_free _ (rl_ok _ _ _ _ R) x Hf) as (d & D1 & D2). rewrite D1. cbn [of_option obind]. rewrite D2. cbn [Z.eqb].
    apply (IH (S k) hd tl); [done|done|done|lia].
Qed.

Definition handler_of p (x : Z) : Z := match arr_get (desc_data p) x with Some d => pd_handler d | None => 0 end.
Definition regs p : gmap Z reg := (fun x => mkReg x (handler_of p x)) <$> ep_set p.

Lemma start_rel p : poller_ok p -> rel (free_descs p) [] p (regs p, obj_count (desc_pool p)).
Proof.
  intros H. split; [done|by rewrite app_nil_r|done|]. intros fd. cbn [fst]. unfold regs. rewrite lookup_fmap.
  destruct (ep_set p !! fd) as [x|] eqn:Ex; cbn; [|done]. destruct (po_held _ H fd x Ex) as (_ & d & D1 & D2).
  split; [|by left]. exists d. split; [done|]. unfold handler_of. by rewrite D1.
Qed.
End Refine.

(** C27 (events reach their handlers): the handlers of one round of the poller
    add and delete descriptors as they like, as long as they add no more than
    are free when the round begins.  Then every event [epoll_wait] has
    reported is handled exactly if the registration it was reported for is
    still there, by the handler of that registration, in the order reported;
    an event of a descriptor that was deleted in the round is dropped, also
    if the same number was added again.  The round ends and keeps the
    descriptors and the interest list consistent. *)
Theorem events_reach_handlers {Q : Type -> Type} {F : Fifo Q} (p : PfPoller Q) (acts : nat -> list fd_op) (evs : list (Z * reg * Z))
    (Hp : poller_ok p) (Hevs : Forall (fun e => regs p !! fst (fst e) = Some (snd (fst e))) evs)
    (Hacts : batch_ok acts 0 evs (regs p, obj_count (desc_pool p)))
    (Hadds : (batch_adds acts 0 (length evs) <= length (free_descs p))%nat) :
  exists p', run_batch acts 0 (raw <$> evs) p = Done (spec_batch acts 0 evs (regs p, obj_count (desc_pool p)), p') /\ poller_ok p'.
Proof.
  apply (batch_rel acts evs 0 (free_descs p) []); [by apply start_rel| |done|done]. eapply Forall_impl; [exact Hevs|].
  intros [[fd [x h]] ev]. cbn [fst snd rg_no rg_handler]. intros Hr. unfold regs in Hr. rewrite lookup_fmap in Hr.
  destruct (ep_set p !! fd) as [y|] eqn:Ey; [|done]. injection Hr as -> Hh. split; [by eapply held_range|].
  split; [by eapply held_not_free|]. left. split; [done|]. cbn [fst]. unfold regs. rewrite lookup_fmap, Ey. cbn. by rewrite Hh.
Qed.

(** ** Starting *)
Section Start.
Context {Q : Type -> Type} {F : Fifo Q}.

(** [init]: the results of the allocations, of the control queue's [init],
    of [epoll_create], [epoll_ctl] and [pthread_create] are arguments, as is
    the eventfd of the control queue *)
Definition poller_init (max_fd_count spin_rc : Z) (mem1 mem2 : bool) (ctrl_rc ctrl_fd epfd add_err thread_rc : Z) (none : Q Z)
    : outcome (Z * PfPoller Q) :=
  let* (rc, pool) := pool_init spin_rc mem1 mem2 max_fd_count none in
  let p := mkPoller (replicate (Z.to_nat max_fd_count) (mkPollerFd 0 0 0)) pool ∅ in
  if negb (rc =? 0) then Done (rc, p)
  else if negb (ctrl_rc =? 0) then Done (ctrl_rc, p)
  else if epfd <=? 0 then Done (epfd, p)
  else
    let* (rc, p) := async_add_fd ctrl_fd 1 0 add_err p in
    if negb (rc =? 0) then Done (rc, p)
    else if negb (thread_rc =? 0) then Done (- thread_rc, p)
    else Done (0, p).

Theorem poller_init_ok (n ctrl_fd epfd : Z) (none : Q Z) :
  0 < n < 2 ^ 31 - 1 -> 0 < ctrl_fd -> 0 < epfd ->
  exists p, poller_init n 0 true true 0 ctrl_fd epfd 0 0 none = Done (0, p) /\ poller_ok p
    /\ Z.of_nat (length (free_descs p)) = n - 1 /\ is_Some (ep_set p !! ctrl_fd).
Proof.
  intros Hn Hc He. unfold poller_init. destruct (pool_init_inv n none) as (q & -> & Hq & Hcnt); [lia|]. cbn [obind negb Z.eqb].
  rewrite (proj2 (Z.leb_gt _ _)) by lia. set (p0 := mkPoller _ q ∅).
  pose proof (perm_length q [] Hq ltac:(lia)) as Hl. cbn [length] in Hl.
  assert (poller_ok p0) as H0.
  { split; cbn [p0 desc_data desc_pool ep_set].
    - by rewrite map_to_list_empty.
    - lia.
    - rewrite length_replicate. lia.
    - intros x Hx. assert (x ∈ seqZ 0 (obj_count q)) as Hin by (rewrite <- (pi_perm _ _ Hq), app_nil_r; exact Hx).
      apply elem_of_seqZ in Hin. rewrite arr_get_lookup by lia. rewrite lookup_replicate_2 by lia. by eexists.
    - intros fd x. by rewrite lookup_empty. }
  destruct (free_descs p0) as [|y l] eqn:El; [unfold free_descs in El; cbn [p0 desc_pool] in El; rewrite El in Hl; cbn in Hl; lia|].
  destruct (add_ok p0 ctrl_fd 1 0 y l H0 El) as (p & -> & O & Fr & Es & _); [apply lookup_empty|done|]. cbn [obind negb Z.eqb].
  exists p. splits; [done|done| |rewrite Es, lookup_insert_eq; by eexists].
  rewrite Fr. unfold free_descs in El. cbn [p0 desc_pool] in El. rewrite El in Hl. cbn in Hl. lia.
Qed.

(** When every descriptor is in use and a handler deletes one and adds
    another, the new one gets the memory of the deleted one: an event of the
    deleted descriptor that is still to be handled goes to the handler of the
    new one. *)
Theorem stale_event_misdelivered (p : PfPoller Q) (f1 x1 f2 x2 f3 ev1 ev2 ev3 h3 : Z) (rest : list fd_op) :
  poller_ok p -> free_descs p = [] -> ep_set p !! f1 = Some x1 -> ep_set p !! f2 = Some x2 -> f1 <> f2 ->
  0 < f3 -> ep_set p !! f3 = None ->
  let acts := fun k : nat => match k with O => [DelFd f2; AddFd f3 ev3 h3 0] | _ => [] end in
  exists p', run_batch acts 0 [(x1, ev1); (x2, ev2)] p = Done ([mkCall f1 ev1 (handler_of p x1); mkCall f3 ev2 h3], p').
Proof.
  intros H Hf E1 E2 Hne Hf3 E3 acts. destruct (po_held _ H f1 x1 E1) as (P1 & d1 & D1 & Z1). cbn [run_batch]. rewrite D1. cbn [of_option obind].
  rewrite (proj2 (Z.eqb_neq _ _)) by lia. destruct (del_ok p f2 x2 H E2) as (p1 & A1 & O1 & F1 & S1 & C1 & _ & _).
  rewrite Hf in F1. destruct (add_ok p1 f3 ev3 h3 x2 [] O1 F1) as (p2 & A2 & O2 & F2 & S2 & C2 & G2); [|done|].
  { rewrite S1. destruct (decide (f2 = f3)) as [->|]; [apply lookup_delete_eq|by rewrite lookup_delete_ne]. }
  unfold acts, fd_steps, fd_step. rewrite A1. cbn [obind]. rewrite A2. cbn [obind]. rewrite G2, decide_True by done. cbn [of_option obind pd_fd].
  rewrite (proj2 (Z.eqb_neq _ _)) by lia. cbn [obind]. exists p2. unfold handler_of. by rewrite D1, Z1.
Qed.

(** A descriptor that epoll does not take is not given back to the pool. *)
Theorem refused_add_leaks (p : PfPoller Q) (fd ev h err : Z) (y : Z) (l : list Z) :
  poller_ok p -> free_descs p = y :: l -> ep_set p !! fd = None -> err <> 0 ->
  exists p', async_add_fd fd ev h err p = Done (- err, p') /\ free_descs p' = l /\ ep_set p' = ep_set p.
Proof.
  intros H Hl Hn Herr. destruct (po_pool _ H) as [P1 P2 P3]. destruct (alloc_head _ _ _ P1 Hl) as (q & Eq & Q1 & Q2 & Q3 & Q4).
  unfold async_add_fd. rewrite Eq. cbn [obind].
  assert (0 <= y < obj_count (desc_pool p)) as Hr.
  { assert (y ∈ seqZ 0 (obj_count (desc_pool p))) as Hin; [|apply elem_of_seqZ in Hin; lia].
    rewrite <- P3. apply elem_of_app. left. unfold free_descs in Hl. rewrite Hl. by left. }
  pose proof (po_len _ H). rewrite arr_set_spec by lia. cbn [of_option obind]. unfold epoll_add. cbn [ep_set]. rewrite Hn.
  rewrite (proj2 (Z.eqb_neq _ _)) by done. by eexists.
Qed.
End Start.

(** ** A round with two events *)
Module PollerDemo.
(** the control queue has descriptor 5, a connection 6 *)
Definition started : PfPoller PfFixedSizeQueue :=
  mkPoller [mkPollerFd 5 1 0; mkPollerFd 6 1 11; mkPollerFd 0 0 0; mkPollerFd 0 0 0]
    (mkPool (mkQueue 4 2 5 [0; 1; 2; 3; 0]) true 4) {[5 := 0; 6 := 1]}.
(** the first handler replaces the connection by another with the same number *)
Definition acts (k : nat) : list fd_op := match k with O => [DelFd 6; AddFd 6 1 12 0] | _ => [] end.
Definition evs : list (Z * reg * Z) := [(5, mkReg 0 0, 1); (6, mkReg 1 11, 1)].

Lemma started_ok : poller_ok started.
Proof.
  split.
  - split; [split; vm_compute; repeat split; congruence|reflexivity|]. vm_compute fifo_list. vm_compute map_to_list. vm_compute seqZ. cbn. solve_Permutation.
  - done.
  - done.
  - intros x Hx. vm_compute in Hx. apply list_elem_of_In in Hx as [<-|[<-|[]]]; eexists; split; reflexivity.
  - intros fd x Hx. change (ep_set started) with (<[5 := 0]> {[6 := 1]} : gmap Z Z) in Hx. apply lookup_insert_Some in Hx as [[<- <-]|[_ Hx]]; [split; [lia|]; eexists; split; reflexivity|].
    apply lookup_singleton_Some in Hx as [<- <-]. split; [lia|]. eexists; split; reflexivity.
Qed.
End PollerDemo.

Lemma events_reach_handlers_witness :
  exists p', run_batch PollerDemo.acts 0 (raw <$> PollerDemo.evs) PollerDemo.started = Done ([mkCall 5 1 0], p') /\ poller_ok p'.
Proof.
  destruct (events_reach_handlers PollerDemo.started PollerDemo.acts PollerDemo.evs PollerDemo.started_ok) as (p' & E & O).
  - repeat constructor.
  - vm_compute. repeat split; congruence.
  - vm_compute. lia.
  - exists p'. split; [|exact O]. rewrite E. reflexivity.
Defined.
