(* ===== verification/AioEngine.v ===== *)
(** * The I/O engine on libaio

    Model of PfAioEngine (src/common/src/pf_ioengine.cpp): requests are
    collected in [batch_iocb] and given to the kernel together; the thread of
    the engine takes the completions and ends the tasks.

    [io_submit] and [io_getevents] are calls of libaio.  The first takes some
    of the requests from the front, as documented: the result of the [k]-th
    call for [n] requests is the argument [ae_submit k n], the number taken
    or a negative errno. *)

From Stdlib Require Import ZArith Lia.
From stdpp Require Import base tactics list numbers.
From S2P Require Import Prelude Ids.

Definition BATCH_IO_CNT : Z := 512.

Record iocb : Type := mkCb { cb_task : nat; cb_read : bool; cb_off : Z; cb_len : Z }.

Record PfAioEngine : Type := mkEngine {
  batch_iocb : list iocb;
  e_calls : nat;
  e_kernel : list iocb        (* what the kernel has taken, in order *)
}.

Section Engine.
Variable ae_submit : nat -> nat -> Z.

Definition submit_batch (e : PfAioEngine) : Z * PfAioEngine :=
  match batch_iocb e with
  | [] => (0, e)
  | l =>
      let rc := ae_submit (e_calls e) (length l) in
      let e' := mkEngine l (S (e_calls e)) (e_kernel e ++ take (Z.to_nat rc) l) in
      if negb (rc =? Z.of_nat (length l)) then (rc, e') else (0, mkEngine [] (e_calls e') (e_kernel e'))
  end.

Definition submit_io (t : nat) (op off len : Z) (e : PfAioEngine) : outcome (Z * PfAioEngine) :=
  let cnt := Z.of_nat (length (batch_iocb e)) in
  if BATCH_IO_CNT <=? cnt then Undef   (* past the end of batch_iocb *)
  else
    let e := mkEngine (batch_iocb e ++ [mkCb t (IS_READ_OP op) off len]) (e_calls e) (e_kernel e) in
    if Z.shiftr BATCH_IO_CNT 1 <=? cnt + 1 then
      if BATCH_IO_CNT <=? cnt + 1 then Fatal else Done (submit_batch e)
    else Done (0, e).

(** a copy on write does not wait for a batch *)
Definition submit_cow_io (t : nat) (op off len : Z) (e : PfAioEngine) : Z * PfAioEngine :=
  let rc := ae_submit (e_calls e) 1 in
  (rc, mkEngine (batch_iocb e) (S (e_calls e)) (e_kernel e ++ take (Z.to_nat rc) [mkCb t (IS_READ_OP op) off len])).
End Engine.

(** ** Completions *)

(** a task: [tk_len] is the length of the command or the size of the copy,
    [tk_ops] whether [ops] is set *)
Record task : Type := mkTask { tk_op : Z; tk_len : Z; tk_ops : bool }.

Inductive ended : Type :=
| Completed (t : nat) (status : Z)
| Posted (t : nat).

Record io_event : Type := mkEvent { ev_cb : iocb; ev_res : Z; ev_res2 : Z }.

Definition complete (t : nat) (k : task) (status : Z) : outcome ended :=
  if tk_ops k then Done (Completed t status) else Undef.

Definition on_event (tasks : list task) (ev : io_event) : outcome ended :=
  let t := cb_task (ev_cb ev) in
  let* k := of_option (tasks !! t) in
  let failed := negb (ev_res ev =? tk_len k) || (ev_res2 ev <? 0) in
  if (tk_op k =? S5_OP_READ) || (tk_op k =? S5_OP_WRITE) || (tk_op k =? S5_OP_REPLICATE_WRITE) then
    complete t k (if failed then MSG_STATUS_AIOERROR else MSG_STATUS_SUCCESS)
  else if (tk_op k =? S5_OP_COW_READ) || (tk_op k =? S5_OP_COW_WRITE) then
    if failed then complete t k MSG_STATUS_AIOERROR else Done (Posted t)
  else Fatal.

(** one round of [polling_proc] *)
Fixpoint poll_events (tasks : list task) (evs : list io_event) : outcome (list ended) :=
  match evs with
  | [] => Done []
  | ev :: evs => let* x := on_event tasks ev in let* l := poll_events tasks evs in Done (x :: l)
  end.

(** ** The device *)

(** what [fstat] says of the file, for a block device with what [ioctl] says *)
Inductive file_kind : Type :=
| StatError (errno : Z)
| BlockDevice (sectors : Z)
| OtherFile (size : Z).

Definition fd_get_cap (f : file_kind) : Z :=
  match f with
  | StatError errno => u64 (- errno)
  | BlockDevice n => u64 (n * 512)
  | OtherFile size => u64 size
  end.

(** [is_disk_clean]: [rc] is what reading the first page returned, [p] its
    words of 64 bits *)
Definition is_disk_clean (rc : Z) (p : list Z) : bool :=
  (rc =? LBA_LENGTH) && forallb (fun x => x =? 0) (take (Z.to_nat (LBA_LENGTH / 8)) p).

(** a page is clean only if it was read and is zero *)
Lemma disk_clean_iff rc p :
  length p = Z.to_nat (LBA_LENGTH / 8) -> is_disk_clean rc p = true <-> rc = LBA_LENGTH /\ p = replicate (Z.to_nat (LBA_LENGTH / 8)) 0.
Proof.
  intros Hl. unfold is_disk_clean. rewrite andb_true_iff, Z.eqb_eq, firstn_all2 by lia. f_equiv. rewrite <- Hl. clear Hl.
  induction p as [|x p IH]; [done|]. cbn [forallb length replicate]. rewrite andb_true_iff, Z.eqb_eq, IH.
  split; [by intros [-> <-]|by intros [= -> <-]].
Qed.

(** a file that cannot be looked at has a capacity of more than 8 EiB *)
Lemma unknown_cap_is_huge errno : 0 < errno < 4096 -> 2 ^ 63 < fd_get_cap (StatError errno).
Proof. intros He. cbn. unfold u64. rewrite <- (Z_mod_plus_full _ 1), Z.mod_small; lia. Qed.

(** ** Runs of the engine *)
Inductive eng_op : Type :=
| EIo (t : nat) (op off len : Z)
| ECow (t : nat) (op off len : Z)
| EBatch.

Definition op_cb (o : eng_op) : option iocb :=
  match o with EIo t op off len | ECow t op off len => Some (mkCb t (IS_READ_OP op) off len) | EBatch => None end.

Definition eng_step (env : nat -> nat -> Z) (o : eng_op) (e : PfAioEngine) : outcome (Z * PfAioEngine) :=
  match o with
  | EIo t op off len => submit_io env t op off len e
  | ECow t op off len => Done (submit_cow_io env t op off len e)
  | EBatch => Done (submit_batch env e)
  end.

Fixpoint eng_run (env : nat -> nat -> Z) (l : list eng_op) (e : PfAioEngine) : outcome (list Z * PfAioEngine) :=
  match l with
  | [] => Done ([], e)
  | o :: l => let* (rc, e) := eng_step env o e in let* (rcs, e) := eng_run env l e in Done (rc :: rcs, e)
  end.

Definition idle_engine : PfAioEngine := mkEngine [] 0 [].

Section Accepting.
Variable env : nat -> nat -> Z.
Hypothesis accepts : forall k n, env k n = Z.of_nat n.

Lemma batch_taken e : exists k, submit_batch env e = (0, mkEngine [] k (e_kernel e ++ batch_iocb e)).
Proof.
  unfold submit_batch. destruct e as [b k ker]. cbn [batch_iocb e_calls e_kernel]. destruct b as [|c b]; [exists k; by rewrite app_nil_r|].
  rewrite accepts, Z.eqb_refl, Nat2Z.id, firstn_all. by exists (S k).
Qed.

Lemma eng_step_taken o e :
  (length (batch_iocb e) < 256)%nat ->
  exists rc e', eng_step env o e = Done (rc, e') /\ (length (batch_iocb e') < 256)%nat
    /\ e_kernel e' ++ batch_iocb e' ≡ₚ e_kernel e ++ batch_iocb e ++ option_list (op_cb o)
    /\ match o with ECow _ _ _ _ => rc = 1 | _ => rc = 0 end.
Proof.
  intros Hl. destruct o as [t op off len|t op off len|]; cbn [eng_step op_cb option_list].
  - unfold submit_io. change BATCH_IO_CNT with 512. rewrite (proj2 (Z.leb_gt _ _)) by lia.
    set (e1 := mkEngine _ _ _). change (Z.shiftr 512 1) with 256. destruct (Z.leb_spec 256 (Z.of_nat (length (batch_iocb e)) + 1)).
    + rewrite (proj2 (Z.leb_gt _ _)) by lia. destruct (batch_taken e1) as [k E]. rewrite E. eexists _, _. split; [reflexivity|].
      cbn [batch_iocb e_kernel e1]. splits; [cbn; lia|by rewrite app_nil_r|done].
    + eexists _, _. split; [reflexivity|]. cbn [batch_iocb e_kernel e1]. rewrite length_app. splits; [cbn; lia|done|done].
  - unfold submit_cow_io. rewrite accepts. eexists _, _. split; [reflexivity|]. cbn [batch_iocb e_kernel].
    change (take (Z.to_nat (Z.of_nat 1)) [mkCb t (IS_READ_OP op) off len]) with [mkCb t (IS_READ_OP op) off len].
    splits; [done|solve_Permutation|done].
  - destruct (batch_taken e) as [k E]. rewrite E. eexists _, _. split; [reflexivity|]. cbn [batch_iocb e_kernel length].
    splits; [lia|by rewrite !app_nil_r|done].
Qed.

Lemma eng_run_taken l : forall e,
  (length (batch_iocb e) < 256)%nat ->
  exists rcs e', eng_run env l e = Done (rcs, e') /\ (length (batch_iocb e') < 256)%nat
    /\ e_kernel e' ++ batch_iocb e' ≡ₚ e_kernel e ++ batch_iocb e ++ omap op_cb l /\ Forall (fun rc => 0 <= rc) rcs.
Proof.
  induction l as [|o l IH]; intros e Hl; cbn [eng_run]; [exists [], e; rewrite app_nil_r; done|].
  destruct (eng_step_taken o e Hl) as (rc & e1 & -> & L1 & P1 & R1). cbn [obind].
  destruct (IH e1 L1) as (rcs & e2 & -> & L2 & P2 & R2). cbn [obind]. eexists _, e2. splits; [reflexivity|done| |].
  - rewrite P2, app_assoc, P1. cbn [omap list_omap]. destruct (op_cb o); cbn [option_list]; solve_Permutation.
  - constructor; [destruct o; lia|done].
Qed.
End Accepting.

(** what an event says about its task *)
Definition full (tasks : list task) (ev : io_event) : Prop :=
  exists k, tasks !! cb_task (ev_cb ev) = Some k /\ ev_res ev = tk_len k /\ 0 <= ev_res2 ev.

Definition io_task (k : task) : Prop :=
  (tk_op k = S5_OP_READ \/ tk_op k = S5_OP_WRITE \/ tk_op k = S5_OP_REPLICATE_WRITE) /\ tk_ops k = true.
Definition cow_task (k : task) : Prop := tk_op k = S5_OP_COW_READ \/ tk_op k = S5_OP_COW_WRITE.

Definition ended_task (x : ended) : nat := match x with Completed t _ | Posted t => t end.

(** the end of a task: a request with the status of its event, a copy whose
    transfer was full by its semaphore *)
Definition ends_as (tasks : list task) (ev : io_event) (x : ended) : Prop :=
  ended_task x = cb_task (ev_cb ev) /\
  match x with
  | Completed _ s => (full tasks ev /\ s = MSG_STATUS_SUCCESS) \/ (~ full tasks ev /\ s = MSG_STATUS_AIOERROR)
  | Posted _ => full tasks ev
  end.

Lemma on_event_ends tasks ev k :
  tasks !! cb_task (ev_cb ev) = Some k -> (io_task k \/ (cow_task k /\ full tasks ev)) ->
  exists x, on_event tasks ev = Done x /\ ends_as tasks ev x.
Proof.
  intros Hk Ht. unfold on_event. rewrite Hk. cbn [of_option obind].
  assert (full tasks ev <-> negb (ev_res ev =? tk_len k) || (ev_res2 ev <? 0) = false) as Hf.
  { rewrite orb_false_iff, negb_false_iff, Z.eqb_eq, Z.ltb_ge. unfold full. rewrite Hk. split; [intros (k' & [= <-] & ? & ?); done|]. intros [? ?]. by exists k. }
  destruct Ht as [[Ho Hops]|[Ho Hfull]].
  - assert ((tk_op k =? S5_OP_READ) || (tk_op k =? S5_OP_WRITE) || (tk_op k =? S5_OP_REPLICATE_WRITE) = true) as ->
      by (destruct Ho as [-> |[-> | ->]]; done).
    unfold complete. rewrite Hops. eexists. split; [reflexivity|]. split; [done|].
    destruct (_ || _); [right|left; tauto]. split; [|done]. intros H. apply Hf in H. discriminate.
  - rewrite (proj1 Hf Hfull). destruct Ho as [-> | ->]; (eexists; split; [reflexivity|done]).
Qed.

Lemma poll_ends tasks evs :
  (forall ev, ev ∈ evs -> exists k, tasks !! cb_task (ev_cb ev) = Some k /\ (io_task k \/ (cow_task k /\ full tasks ev))) ->
  exists out, poll_events tasks evs = Done out /\ Forall2 (ends_as tasks) evs out.
Proof.
  induction evs as [|ev evs IH]; intros H; cbn [poll_events]; [by exists []|].
  destruct (H ev) as (k & Hk & Ht); [by left|]. destruct (on_event_ends tasks ev k Hk Ht) as (x & -> & Hx). cbn [obind].
  destruct IH as (out & -> & Ho); [intros ev' Hev; apply H; by right|]. cbn [obind]. eexists. split; [reflexivity|by constructor].
Qed.


(** ** When libaio does not take everything *)

(** A call that takes only the first [r] requests leaves all of them in the
    batch: the next call gives them to the kernel a second time. *)
Theorem partial_submit_repeats (env : nat -> nat -> Z) (e : PfAioEngine) (r : nat) :
  (r < length (batch_iocb e))%nat -> env (e_calls e) (length (batch_iocb e)) = Z.of_nat r ->
  env (S (e_calls e)) (length (batch_iocb e)) = Z.of_nat (length (batch_iocb e)) ->
  exists e1 e2, submit_batch env e = (Z.of_nat r, e1) /\ submit_batch env e1 = (0, e2) /\ batch_iocb e2 = []
    /\ e_kernel e2 = e_kernel e ++ take r (batch_iocb e) ++ batch_iocb e.
Proof.
  intros Hr E1 E2. destruct e as [b k ker]. cbn [batch_iocb e_calls e_kernel] in *. unfold submit_batch at 1. cbn [batch_iocb e_calls e_kernel].
  destruct b as [|c b]; [cbn in Hr; lia|]. set (l := c :: b) in *. rewrite E1, Nat2Z.id, (proj2 (Z.eqb_neq _ _)) by lia. cbn [negb].
  eexists _, _. split; [reflexivity|]. unfold submit_batch. cbn [batch_iocb e_calls e_kernel l]. fold l. rewrite E2, Z.eqb_refl, Nat2Z.id, firstn_all. cbn [negb].
  splits; [reflexivity|done|]. cbn [e_kernel]. by rewrite app_assoc.
Qed.

Lemma refused_batch env e :
  (forall k n, env k n < 0) -> batch_iocb e <> [] -> exists rc k, submit_batch env e = (rc, mkEngine (batch_iocb e) k (e_kernel e)).
Proof.
  intros H Hb. unfold submit_batch. destruct e as [b k ker]. cbn [batch_iocb e_calls e_kernel] in *. destruct b as [|c b]; [done|].
  pose proof (H k (length (c :: b))). rewrite (proj2 (Z.eqb_neq _ _)) by lia. cbn [negb].
  replace (Z.to_nat (env k (length (c :: b)))) with 0%nat by lia. cbn [take]. rewrite app_nil_r. by eexists _, _.
Qed.

Lemma refused_steps env (H : forall k n, env k n < 0) l : forall e,
  (forall o, o ∈ l -> exists t op off len, o = EIo t op off len) -> (length (batch_iocb e) + length l < 512)%nat ->
  exists rcs e', eng_run env l e = Done (rcs, e') /\ length (batch_iocb e') = (length (batch_iocb e) + length l)%nat.
Proof.
  induction l as [|o l IH]; intros e Ho Hl; cbn [eng_run length] in *; [exists [], e; split; [done|lia]|].
  destruct (Ho o) as (t & op & off & len & ->); [by left|]. cbn [eng_step]. unfold submit_io. change BATCH_IO_CNT with 512.
  rewrite (proj2 (Z.leb_gt 512 (Z.of_nat (length (batch_iocb e))))), (proj2 (Z.leb_gt 512 (_ + 1))) by lia. set (e1 := mkEngine _ _ _).
  assert (exists rc e2, (if Z.shiftr 512 1 <=? Z.of_nat (length (batch_iocb e)) + 1 then Done (submit_batch env e1) else Done (0, e1)) = Done (rc, e2)
                        /\ batch_iocb e2 = batch_iocb e1) as (rc & e2 & -> & Eb).
  { destruct (_ <=? _); [|by eexists _, _]. destruct (refused_batch env e1 H) as (rc & k & ->); [cbn; by destruct (batch_iocb e)|by eexists _, _]. }
  cbn [obind]. assert (length (batch_iocb e2) = S (length (batch_iocb e))) as Lb by (rewrite Eb; cbn; rewrite length_app; cbn; lia).
  destruct (IH e2) as (rcs & e' & -> & L); [intros o Hin; apply Ho; by right|lia|]. cbn [obind]. eexists _, _. split; [reflexivity|lia].
Qed.

(** While the kernel refuses requests (EAGAIN), 511 of them wait; the next
    one ends the process. *)
Theorem refused_requests_end_process (env : nat -> nat -> Z) (l : list eng_op) (t : nat) (op off len : Z) :
  (forall k n, env k n < 0) -> (forall o, o ∈ l -> exists t op off len, o = EIo t op off len) -> Z.of_nat (length l) = 511 ->
  (exists rcs e, eng_run env l idle_engine = Done (rcs, e)) /\ eng_run env (l ++ [EIo t op off len]) idle_engine = Fatal.
Proof.
  intros H Ho Hl. destruct (refused_steps env H l idle_engine Ho) as (rcs & e & E & L); [cbn; lia|]. split; [by exists rcs, e|].
  assert (forall l2 l1 e0, eng_run env (l1 ++ l2) e0 = let* (r1, e) := eng_run env l1 e0 in let* (r2, e) := eng_run env l2 e in Done (r1 ++ r2, e)) as Happ.
  { intros l2. induction l1 as [|o l1 IH]; intros e0; cbn [app eng_run obind]; [by destruct (eng_run env l2 e0) as [[]| |]|].
    destruct (eng_step env o e0) as [[rc e1]| |]; cbn [obind]; [|done|done]. rewrite IH.
    destruct (eng_run env l1 e1) as [[r1 e2]| |]; cbn [obind]; [|done|done]. by destruct (eng_run env l2 e2) as [[]| |]. }
  rewrite Happ, E. cbn [obind eng_run eng_step]. unfold submit_io. cbn [idle_engine batch_iocb length] in L. change BATCH_IO_CNT with 512.
  rewrite (proj2 (Z.leb_gt 512 (Z.of_nat (length (batch_iocb e))))) by lia.
  rewrite (proj2 (Z.leb_le _ (_ + 1))) by (change (Z.shiftr 512 1) with 256; lia). by rewrite (proj2 (Z.leb_le _ _)) by lia.
Qed.

(** A copy has no [ops]: the completion of a failed transfer of a copy
    dereferences a null pointer, and nobody posts its semaphore. *)
Theorem failed_copy_null_ops (tasks : list task) (ev : io_event) (k : task) :
  tasks !! cb_task (ev_cb ev) = Some k -> cow_task k -> tk_ops k = false -> ~ full tasks ev -> on_event tasks ev = Undef.
Proof.
  intros Hk Ho Hops Hf. unfold on_event. rewrite Hk. cbn [of_option obind].
  assert (negb (ev_res ev =? tk_len k) || (ev_res2 ev <? 0) = true) as ->.
  { apply not_false_iff_true. rewrite orb_false_iff, negb_false_iff, Z.eqb_eq, Z.ltb_ge. intros [? ?]. apply Hf. by exists k. }
  unfold complete. rewrite Hops. by destruct Ho as [-> | ->].
Qed.

(** ** A round with a copy *)
Module EngineDemo.
Definition env (k n : nat) : Z := Z.of_nat n.
Definition tasks : list task := [mkTask S5_OP_WRITE 4096 true; mkTask S5_OP_COW_READ 131072 false; mkTask S5_OP_READ 512 true].
Definition ops : list eng_op := [EIo 0 S5_OP_WRITE 8192 4096; ECow 1 S5_OP_COW_READ 0 131072; EIo 2 S5_OP_READ 0 512].
Definition evs : list io_event :=
  [mkEvent (mkCb 2 true 0 512) 0 0; mkEvent (mkCb 1 true 0 131072) 131072 0; mkEvent (mkCb 0 false 8192 4096) 4096 0].
End EngineDemo.

