(* ===== verification/SharedDisk.v ===== *)
(** * A disk that several nodes see: its lock and its initialisation

    Model of src/pfs/src/pf_atslock.cpp and of PfFlashStore::shared_disk_init
    (src/pfs/src/pf_flash_store.cpp).  The lock is a sector of the disk that
    is changed with the SCSI command COMPARE AND WRITE; the nodes that find a
    new disk use it to decide which of them formats it.

    The command is the documented one: it fails if the block is beyond the
    end of the device, and otherwise compares a sector and replaces it in one
    step.  The nodes run in any order, one access of the disk at a time. *)

From Stdlib Require Import ZArith Lia.
From stdpp Require Import base tactics list numbers relations.
From S2P Require Import Prelude Bytes Ids.

(** ** The command *)
Definition COMPARE_AND_WRITE_OPCODE : Z := 0x89.
Definition FLAG_FUA : Z := 0x8.
Definition FLAG_FUA_NV : Z := 0x2.
Definition FLAG_DPO : Z := 0x10.
Definition WRPROTECT_MASK : Z := 7.
Definition WRPROTECT_SHIFT : Z := 5.
Definition GRPNUM_MASK : Z := 0x1f.   (* of sg_lib *)

Record caw_flags : Type := mkFlags { cf_dpo : bool; cf_fua : bool; cf_fua_nv : bool; cf_group : Z; cf_wrprotect : Z }.

(** [sg_build_scsi_cdb]: sixteen bytes, the block number in big endian *)
Definition sg_build_scsi_cdb (blocks start_block : Z) (f : caw_flags) : list Z :=
  let b1 := Z.land (Z.shiftl (Z.land (cf_wrprotect f) WRPROTECT_MASK) WRPROTECT_SHIFT) 255 in
  let b1 := if cf_dpo f then Z.lor b1 FLAG_DPO else b1 in
  let b1 := if cf_fua f then Z.lor b1 FLAG_FUA else b1 in
  let b1 := if cf_fua_nv f then Z.lor b1 FLAG_FUA_NV else b1 in
  [COMPARE_AND_WRITE_OPCODE; b1] ++ rev (le 8 (u64 start_block)) ++ [0; 0; 0; Z.land blocks 255; Z.land (cf_group f) GRPNUM_MASK; 0].

Definition no_flags : caw_flags := mkFlags false false false 0 0.

(** the block the device reads from the command *)
Definition cdb_lba (cdb : list Z) : Z := unle (rev (take 8 (drop 2 cdb))).

Lemma cdb_lba_of n b f : cdb_lba (sg_build_scsi_cdb n b f) = u64 b.
Proof.
  unfold cdb_lba, sg_build_scsi_cdb. set (b1 := if cf_fua_nv f then _ else _). rewrite (drop_app_length' [_; b1]) by done.
  rewrite take_app_le by (rewrite length_rev, le_length; lia).
  rewrite firstn_all2 by (rewrite length_rev, le_length; lia). rewrite rev_involutive, unle_le. apply Z.mod_mod. done.
Qed.

(** the categories of sense data of sg_lib *)
Definition SG_LIB_CAT_ILLEGAL_REQ : Z := 5.
Definition SG_LIB_CAT_MISCOMPARE : Z := 14.
Definition SG_LIB_CAT_NO_SENSE : Z := 20.
Definition SG_LIB_CAT_RECOVERED : Z := 21.

(** what [sg_cmds_process_resp] makes of the answer: -1, -2 with a category,
    or the number of bytes *)
Inductive scsi_resp : Type :=
| RespOsError (rc : Z)      (* what [SG_LIB_TRANSPORT_ERROR] or [sg_convert_errno] give *)
| RespSense (cat : Z)
| RespGood (n : Z).

(** the end of [sg_ll_compare_and_write] *)
Definition caw_result (r : scsi_resp) : Z :=
  match r with
  | RespOsError rc => rc
  | RespSense cat => if (cat =? SG_LIB_CAT_RECOVERED) || (cat =? SG_LIB_CAT_NO_SENSE) then 0 else cat
  | RespGood _ => 0
  end.

(** [2<<30] does not fit an int *)
Definition OFFSET_GLOBAL_META_LOCK : Z := i32 (Z.shiftl 2 30) + Z.shiftl 512 20.

Definition UNLOCKED : list Z := replicate 512 0.
Definition LOCKED : list Z := replicate 512 255.

(** ** The disk *)
Record sdisk : Type := mkSDisk {
  sd_head : option Z;        (* the uuid of a head page with magic and version *)
  sd_zero : bool;            (* the first page is zero *)
  sd_lock : list Z           (* the sector of the lock *)
}.

Section Shared.
Variables (lock_location meta_size capacity : Z).   (* bytes, bytes, blocks *)
Variable read_errors : bool.

(** the device's side of the command *)
Definition compare_and_write (cdb cmp new : list Z) (d : sdisk) : scsi_resp * sdisk :=
  if capacity <=? cdb_lba cdb then (RespSense SG_LIB_CAT_ILLEGAL_REQ, d)
  else if bool_decide (sd_lock d = cmp) then (RespGood 0, mkSDisk (sd_head d) (sd_zero d) new)
  else (RespSense SG_LIB_CAT_MISCOMPARE, d).

(** [sg_ll_compare_and_write]: [buff] has the sector to compare and the
    sector to write *)
Definition sg_ll_compare_and_write (buff : list Z) (blocks lba : Z) (f : caw_flags) (d : sdisk) : Z * sdisk :=
  let (resp, d') := compare_and_write (sg_build_scsi_cdb blocks lba f) (take 512 buff) (take 512 (drop 512 buff)) d in
  (caw_result resp, d').

(** [_ats_lock_unlock_] *)
Definition ats_lock_unlock (do_lock : bool) (d : sdisk) : Z * sdisk :=
  let wrkBuff := if do_lock then UNLOCKED ++ LOCKED else LOCKED ++ UNLOCKED in
  sg_ll_compare_and_write wrkBuff 1 (Z.quot lock_location 512) no_flags d.

(** [clean_meta_area] writes zeroes from the start of the disk on *)
Definition clean_meta_area (d : sdisk) : sdisk :=
  mkSDisk None true (if (0 <=? lock_location) && (lock_location <? meta_size) then UNLOCKED else sd_lock d).

(** ** A node in [shared_disk_init]

    An answer of the device may be lost, after the command or before it. *)
Inductive pc : Type :=
| Start
| CheckClean
| TryLock (i : nat)                      (* the [i]-th round of the loop *)
| Locked (i : nat)
| Cleaning (i : nat)
| WriteHead (i : nat)
| SaveMeta (i : nat) (u : Z)
| Unlock (i : nat) (r : option (Z * option Z))   (* with a result, or back to the loop *)
| Ret (rc : Z) (u : option Z).

Definition after_unlock (i : nat) (r : option (Z * option Z)) : pc :=
  match r with Some (rc, u) => Ret rc u | None => TryLock (S i) end.

Inductive node_step : sdisk -> pc -> sdisk -> pc -> Prop :=
| ns_found d u : sd_head d = Some u -> node_step d Start d (Ret 0 (Some u))
| ns_new d : sd_head d = None -> node_step d Start d CheckClean
| ns_start_err d rc : read_errors = true -> rc < 0 -> node_step d Start d (Ret rc None)
| ns_clean d : sd_zero d = true -> node_step d CheckClean d (TryLock 0)
| ns_dirty d : sd_zero d = false \/ read_errors = true -> node_step d CheckClean d (Ret (- EUCLEAN) None)
| ns_lock d i d' : (i < 10)%nat -> ats_lock_unlock true d = (0, d') -> node_step d (TryLock i) d' (Locked i)
| ns_busy d i rc d' : (i < 10)%nat -> ats_lock_unlock true d = (rc, d') -> rc <> 0 -> node_step d (TryLock i) d' (TryLock (S i))
| ns_busy_lost d i d' : d' = d \/ d' = snd (ats_lock_unlock true d) -> (i < 10)%nat -> node_step d (TryLock i) d' (TryLock (S i))
| ns_give_up d i : (10 <= i)%nat -> node_step d (TryLock i) d (Ret (- EBUSY) None)
| ns_locked_found d i u : sd_head d = Some u -> node_step d (Locked i) d (Unlock i (Some (0, Some u)))
| ns_locked_new d i : sd_head d = None -> node_step d (Locked i) d (Cleaning i)
| ns_locked_err d i : read_errors = true -> node_step d (Locked i) d (Cleaning i)
| ns_cleaning d i : node_step d (Cleaning i) (clean_meta_area d) (WriteHead i)
| ns_cleaning_err d i rc d' : rc < 0 -> d' = d \/ d' = clean_meta_area d -> node_step d (Cleaning i) d' (Unlock i (Some (rc, None)))
| ns_head d i u : node_step d (WriteHead i) (mkSDisk (Some u) false (sd_lock d)) (SaveMeta i u)
| ns_head_err d i rc : rc < 0 -> node_step d (WriteHead i) d (Unlock i (Some (rc, None)))
| ns_save d i u : node_step d (SaveMeta i u) (mkSDisk (Some u) false (sd_lock d)) (Unlock i None)
| ns_save_lost d i u : node_step d (SaveMeta i u) d (Unlock i None)   (* its result is not looked at *)
| ns_init_err d i u rc : rc < 0 -> node_step d (SaveMeta i u) d (Unlock i (Some (rc, None)))
| ns_unlock d i r rc d' : ats_lock_unlock false d = (rc, d') -> node_step d (Unlock i r) d' (after_unlock i r)
| ns_unlock_lost d i r : node_step d (Unlock i r) d (after_unlock i r).

(** any number of nodes *)
Inductive sys_step : sdisk * list pc -> sdisk * list pc -> Prop :=
| ss_node d d' n c c' ns : ns !! n = Some c -> node_step d c d' c' -> sys_step (d, ns) (d', <[n := c']> ns).

Definition new_disk : sdisk := mkSDisk None true UNLOCKED.
End Shared.

(** ** The lock as it is placed *)

Lemma lock_beyond_end capacity :
  capacity <= 2 ^ 54 ->
  forall b d, exists rc, ats_lock_unlock OFFSET_GLOBAL_META_LOCK capacity b d = (rc, d) /\ rc <> 0.
Proof.
  intros Hc b d. unfold ats_lock_unlock, sg_ll_compare_and_write, compare_and_write. rewrite !cdb_lba_of.
  change (u64 (Z.quot OFFSET_GLOBAL_META_LOCK 512)) with 18446744073706405888.
  rewrite (proj2 (Z.leb_le _ _)) by lia. by destruct b; eexists.
Qed.

(** nodes that cannot get the lock *)
Definition outside (c : pc) : Prop :=
  match c with Start | CheckClean => True | TryLock i => (i <= 10)%nat | Ret rc _ => rc = - EBUSY | _ => False end.

Definition steps_left (c : pc) : nat :=
  match c with Start => 13 | CheckClean => 12 | TryLock i => 11 - i | _ => 0 end.

Lemma outside_step meta_size capacity d c d' c' :
  capacity <= 2 ^ 54 -> d = new_disk -> outside c -> node_step OFFSET_GLOBAL_META_LOCK meta_size capacity false d c d' c' ->
  d' = d /\ outside c' /\ (steps_left c' < steps_left c)%nat.
Proof.
  intros Hc Hd0 Ho Hs. destruct Hs as [d u Hu|d Hu|d rc Hr Hrc|d Hz|d Hz|d i d' Hi Hl|d i rc d' Hi Hl Hrc|d i d' Hd Hi|d i Hi|d i u Hu|d i Hu|d i Hr|d i|d i rc d' Hrc Hd|d i u|d i rc Hrc|d i u|d i u|d i u rc Hrc|d i r rc d' Hl|d i r]; subst d; cbn [outside steps_left] in *; try done; try lia.
  - split; [done|]. split; [done|lia].
  - split; [done|]. split; [lia|lia].
  - by destruct Hz.
  - destruct (lock_beyond_end capacity Hc true new_disk) as (rc & E & Hrc). rewrite E in Hl. congruence.
  - destruct (lock_beyond_end capacity Hc true new_disk) as (rc' & E & _). rewrite E in Hl. injection Hl as -> <-. split; [done|]. split; lia.
  - destruct (lock_beyond_end capacity Hc true new_disk) as (rc' & E & _). rewrite E in Hd. assert (d' = new_disk) as -> by by destruct Hd.
    split; [done|]. split; lia.
  - split; [done|]. split; [done|lia].
Qed.

Definition work (ns : list pc) : nat := sum_list (steps_left <$> ns).

Lemma work_cons c ns : work (c :: ns) = (steps_left c + work ns)%nat.
Proof. done. Qed.

Lemma work_insert ns n c c' : ns !! n = Some c -> (work (<[n := c']> ns) + steps_left c = work ns + steps_left c')%nat.
Proof.
  revert n. induction ns as [|a ns IH]; intros [|n] Hn; [done|done| |].
  - injection Hn as ->. change (<[0%nat := c']> (c :: ns)) with (c' :: ns). rewrite !work_cons. lia.
  - change (<[S n := c']> (a :: ns)) with (a :: <[n := c']> ns). rewrite !work_cons. specialize (IH n Hn). lia.
Qed.

Lemma outside_progress meta_size capacity c :
  capacity <= 2 ^ 54 -> outside c -> (forall rc u, c <> Ret rc u) -> exists d' c', node_step OFFSET_GLOBAL_META_LOCK meta_size capacity false new_disk c d' c'.
Proof.
  intros Hc Ho Hr. destruct c as [| |i|i|i|i|i u|i r|rc u]; cbn in Ho; try done.
  - eexists _, _. by apply ns_new.
  - eexists _, _. by apply ns_clean.
  - destruct (decide (i < 10)%nat).
    + destruct (lock_beyond_end capacity Hc true new_disk) as (rc & E & Hrc). eexists _, _. by eapply ns_busy.
    + eexists _, _. apply ns_give_up. lia.
  - by destruct (Hr rc u).
Qed.

(** A new shared disk is never initialised: [2<<30] is negative, so the
    lock lies at block 2^64 - 3145728, behind the end of every device.
    Whatever number of nodes start on a new shared disk, and in whatever
    order they run, every one of them ends after at most 13 steps with
    -EBUSY, and the disk is never written. *)
Theorem shared_disk_stays_new (n : nat) (meta_size capacity : Z) (k : nat) (d : sdisk) (ns : list pc)
    (Hcap : capacity <= 2 ^ 54)
    (Hrun : nsteps (sys_step OFFSET_GLOBAL_META_LOCK meta_size capacity false) k (new_disk, replicate n Start) (d, ns)) :
  d = new_disk /\ (k <= 13 * n)%nat
  /\ ((forall s, ~ sys_step OFFSET_GLOBAL_META_LOCK meta_size capacity false (d, ns) s) -> exists us, ns = Ret (- EBUSY) <$> us).
Proof.
  assert (forall k s s', nsteps (sys_step OFFSET_GLOBAL_META_LOCK meta_size capacity false) k s s' ->
            fst s = new_disk -> Forall outside (snd s) ->
            fst s' = new_disk /\ Forall outside (snd s') /\ (k + work (snd s') <= work (snd s))%nat) as Hinv.
  { clear Hrun. induction 1 as [s|k1 s1 s2 s3 Hs _ IH]; intros Hd Ho; [done|]. destruct Hs as [d0 d' m c c' ns0 Hm Hs]. cbn [fst snd] in *.
    destruct (outside_step _ _ _ _ _ _ Hcap Hd (Forall_lookup_1 _ _ _ _ Ho Hm) Hs) as (-> & Ho' & Hw).
    destruct IH as (I1 & I2 & I3); [done|by apply Forall_insert|]. pose proof (work_insert ns0 m c c' Hm). splits; [done|done|lia]. }
  destruct (Hinv _ _ _ Hrun) as (I1 & I2 & I3); [done|by apply Forall_replicate|]. cbn [fst snd] in *.
  assert (work (replicate n Start) = 13 * n)%nat as Hw.
  { clear. induction n as [|n IH]; [done|]. cbn [replicate]. rewrite work_cons. cbn [steps_left]. lia. }
  splits; [done|lia|]. intros Hend. subst d. clear Hrun I3 Hw Hinv. induction ns as [|c ns IH]; [by exists []|].
  apply Forall_cons in I2 as [Hc Hns]. destruct IH as [us ->]; [done| |].
  { intros s Hs. inversion Hs as [d0 d' m c0 c' ns0 Hm Hstep]; subst. apply (Hend (d', <[S m := c']> (c :: ns))). by eapply ss_node. }
  assert (exists rc u, c = Ret rc u) as (rc & u & ->).
  { destruct c as [| |i|i|i|i|i u|i r|rc u]; try (by destruct Hc); try (by exists rc, u);
      (destruct (outside_progress meta_size capacity _ Hcap Hc) as (d' & c' & Hs); [done|]; exfalso; eapply Hend; by eapply (ss_node _ _ _ _ _ _ 0%nat)). }
  cbn in Hc. subst rc. by exists (u :: us).
Qed.

Lemma shared_disk_stays_new_witness :
  nsteps (sys_step OFFSET_GLOBAL_META_LOCK (10 * 2 ^ 30) (2 ^ 31) false) 2 (new_disk, replicate 2 Start) (new_disk, [CheckClean; CheckClean])
  /\ (2 <= 13 * 2)%nat.
Proof.
  assert (nsteps (sys_step OFFSET_GLOBAL_META_LOCK (10 * 2 ^ 30) (2 ^ 31) false) 2 (new_disk, replicate 2 Start) (new_disk, [CheckClean; CheckClean])) as H.
  { eapply nsteps_l; [apply (ss_node _ _ _ _ new_disk new_disk 0 Start CheckClean); [done|by apply ns_new]|].
    eapply nsteps_l; [apply (ss_node _ _ _ _ new_disk new_disk 1 Start CheckClean); [done|by apply ns_new]|]. constructor. }
  split; [exact H|]. apply (shared_disk_stays_new 2 (10 * 2 ^ 30) (2 ^ 31) 2 new_disk [CheckClean; CheckClean]); [done|exact H].
Defined.

(** ** A lock that no node overwrites

    The protocol itself, for a lock in the device and behind the area that
    [clean_meta_area] clears. *)

Definition inside (c : pc) : bool :=
  match c with Locked _ | Cleaning _ | WriteHead _ | SaveMeta _ _ | Unlock _ _ => true | _ => false end.

Definition agrees (h : option Z) (rc : Z) (u : option Z) : Prop := rc = 0 -> u <> None /\ u = h.

(** what a node knows of the head page *)
Definition node_ok (h : option Z) (c : pc) : Prop :=
  match c with
  | Cleaning _ | WriteHead _ => h = None
  | SaveMeta _ u => h = Some u
  | Unlock _ (Some (rc, u)) => agrees h rc u
  | Ret rc u => agrees h rc u
  | _ => True
  end.

Definition holder_ok (o : option nat) (d : sdisk) (ns : list pc) : Prop :=
  (o <> None -> sd_lock d = LOCKED)
  /\ forall m c, ns !! m = Some c -> inside c = bool_decide (o = Some m) /\ node_ok (sd_head d) c.

Section Guarded.
Variables (lock_location meta_size capacity : Z).
Hypothesis Hbehind : meta_size <= lock_location.
Hypothesis Hpos : 0 <= lock_location < 2 ^ 63.
Hypothesis Hfits : lock_location / 512 < capacity.

Lemma ats_in_device b d :
  ats_lock_unlock lock_location capacity b d
  = if bool_decide (sd_lock d = if b then UNLOCKED else LOCKED) then (0, mkSDisk (sd_head d) (sd_zero d) (if b then LOCKED else UNLOCKED))
    else (SG_LIB_CAT_MISCOMPARE, d).
Proof.
  unfold ats_lock_unlock, sg_ll_compare_and_write, compare_and_write. rewrite !cdb_lba_of, Z.quot_div_nonneg by lia.
  assert (0 <= lock_location / 512 < 2 ^ 63) by (split; [apply Z.div_pos; lia|apply Z.div_lt_upper_bound; lia]).
  replace (u64 (lock_location / 512)) with (lock_location / 512) by (symmetry; apply Z.mod_small; lia).
  rewrite (proj2 (Z.leb_gt _ _)) by lia.
  destruct b; rewrite take_app_length', drop_app_length' by done; rewrite firstn_all2 by done; by case_bool_decide.
Qed.

Lemma clean_keeps_lock d : sd_lock (clean_meta_area lock_location meta_size d) = sd_lock d.
Proof. cbn. by rewrite (proj2 (Z.ltb_ge _ _)), andb_false_r by lia. Qed.

Lemma locked_not_unlocked : LOCKED <> UNLOCKED.
Proof. done. Qed.

(** a step of a node: it moves the lock as it enters and leaves, and it
    changes the head page only from none to its own *)
Lemma guarded_step d c d' c' :
  node_step lock_location meta_size capacity false d c d' c' -> node_ok (sd_head d) c -> (inside c = true -> sd_lock d = LOCKED) ->
  node_ok (sd_head d') c' /\ (sd_head d' = sd_head d \/ inside c = true /\ sd_head d = None)
  /\ (inside c' = true -> sd_lock d' = LOCKED) /\ (inside c = false -> inside c' = true -> sd_lock d = UNLOCKED)
  /\ (inside c = false -> sd_lock d = LOCKED -> sd_lock d' = LOCKED).
Proof.
  intros Hs Hok Hl.
  destruct Hs as [d u Hu|d Hu|d rc Hr Hrc|d Hz|d Hz|d i d' Hi Ha|d i rc d' Hi Ha Hrc|d i d' Hd Hi|d i Hi|d i u Hu|d i Hu|d i Hr|d i|d i rc d' Hrc Hd|d i u|d i rc Hrc|d i u|d i u|d i u rc Hrc|d i r rc d' Ha|d i r];
    cbn [node_ok inside sd_lock sd_head] in *; unfold agrees in *; rewrite ?ats_in_device in *; try done;
    try (split; [first [done|by intros; lia|by rewrite Hu]|split; [by auto|by auto]]).
  - case_bool_decide; [|by simplify_eq]. injection Ha as <-. splits; by auto.
  - case_bool_decide; [by injection Ha as <- <-|]. injection Ha as <- <-. splits; by auto.
  - destruct Hd as [->| ->]; [splits; by auto|]. case_bool_decide; splits; by auto.
  - rewrite clean_keeps_lock. splits; by auto.
  - destruct Hd as [->| ->]; rewrite ?clean_keeps_lock; (splits; [intros; lia|by auto..]).
  - rewrite bool_decide_true in Ha by auto. injection Ha as <- <-. destruct r as [[rc' u]|]; splits; by auto.
  - destruct r as [[rc' u]|]; splits; by auto.
Qed.

Lemma node_ok_grows h h' c : inside c = false -> h' = h \/ h = None -> node_ok h c -> node_ok h' c.
Proof.
  intros Hi [->| ->] Hok; [done|]. destruct c as [| |i|i|i|i|i u|i r|rc u]; try done. cbn in *. intros Hrc. by destruct (Hok Hrc).
Qed.

Lemma holder_step o d ns d' ns' :
  holder_ok o d ns -> sys_step lock_location meta_size capacity false (d, ns) (d', ns') ->
  (exists o', holder_ok o' d' ns') /\ (sd_head d <> None -> sd_head d' = sd_head d).
Proof.
  intros [Hl Hns] Hs. inversion Hs as [? ? n c c' ? Hn Hstep]; subst. destruct (Hns n c Hn) as [Hi Hok].
  destruct (guarded_step _ _ _ _ Hstep Hok) as (Hok' & Hh & Hin' & Henter & Hkeep).
  { intros Hin. rewrite Hin in Hi. symmetry in Hi. apply bool_decide_eq_true in Hi. apply Hl. by rewrite Hi. }
  split; [|by destruct Hh as [?|[_ ?]]].
  assert (forall m, o = Some m -> m <> n -> inside c = false /\ inside c' = false) as Hother.
  { intros m -> Hm. rewrite bool_decide_false in Hi by congruence. split; [done|]. destruct (inside c'); [|done].
    specialize (Hl ltac:(done)). specialize (Henter Hi eq_refl). destruct locked_not_unlocked. congruence. }
  set (o' := if inside c' then Some n else if inside c then None else o).
  assert (forall m, m <> n -> bool_decide (o' = Some m) = bool_decide (o = Some m)) as Hsame.
  { intros m Hm. apply bool_decide_ext. subst o'. split.
    - destruct (inside c'); [congruence|]. by destruct (inside c).
    - intros Ho. by destruct (Hother m Ho Hm) as [-> ->]. }
  exists o'. split.
  { subst o'. destruct (inside c'); [by auto|]. destruct (inside c); [done|]. by auto. }
  intros m c0. rewrite list_lookup_insert_Some. intros [(-> & -> & _)|[Hne Hm]].
  { split; [|done]. subst o'. destruct (inside c0); [by rewrite bool_decide_true|]. destruct (inside c); [done|done]. }
  destruct (Hns m c0 Hm) as [Hi0 Hok0]. rewrite Hsame by done. split; [done|].
  destruct Hh as [->|[Hin Hnone]]; [done|]. apply (node_ok_grows (sd_head d)); [|by right|done].
  rewrite Hi0. apply bool_decide_eq_false. intros ->. by destruct (Hother m eq_refl ltac:(done)); congruence.
Qed.
End Guarded.


(** one step of node [n] to [c'], in a run that is given step by step *)
Ltac node d' n c' r :=
  eapply rtc_l; [eapply (ss_node _ _ _ _ _ d' n _ c'); [reflexivity|eapply r; try reflexivity; try lia]|cbn [list_insert insert]].

Definition lock_kept : Z := 10 * 2 ^ 30.
Definition held (h : option Z) (z : bool) : sdisk := mkSDisk h z LOCKED.
Definition free (h : option Z) (z : bool) : sdisk := mkSDisk h z UNLOCKED.


(** with the lock where its comment places it, at 2.5 GiB, the format clears
    the lock itself: two nodes format, and one of them returns 0 with a uuid
    that is not the one on the disk *)
Theorem cleared_lock_disagrees :
  exists ns, rtc (sys_step (Z.shiftl 2 30 + Z.shiftl 512 20) (10 * 2 ^ 30) (2 ^ 31) false) (new_disk, replicate 2 Start) (free (Some 8) false, ns)
    /\ ns !! 0%nat = Some (Ret 0 (Some 7)).
Proof.
  exists [Ret 0 (Some 7); SaveMeta 0 8]. split; [|done].
  node new_disk 0%nat CheckClean ns_new.
  node new_disk 1%nat CheckClean ns_new.
  node new_disk 0%nat (TryLock 0) ns_clean.
  node new_disk 1%nat (TryLock 0) ns_clean.
  node (held None true) 0%nat (Locked 0) ns_lock.
  node (held None true) 0%nat (Cleaning 0) ns_locked_new.
  node (free None true) 0%nat (WriteHead 0) ns_cleaning.
  node (held None true) 1%nat (Locked 0) ns_lock.
  node (held None true) 1%nat (Cleaning 0) ns_locked_new.
  node (held (Some 7) false) 0%nat (SaveMeta 0 7) ns_head.
  node (held (Some 7) false) 0%nat (Unlock 0 None) ns_save.
  node (free (Some 7) false) 0%nat (TryLock 1) ns_unlock.
  node (held (Some 7) false) 0%nat (Locked 1) ns_lock.
  node (held (Some 7) false) 0%nat (Unlock 1 (Some (0, Some 7))) ns_locked_found.
  node (free (Some 7) false) 0%nat (Ret 0 (Some 7)) ns_unlock.
  node (free None true) 1%nat (WriteHead 0) ns_cleaning.
  node (free (Some 8) false) 1%nat (SaveMeta 0 8) ns_head.
  apply rtc_refl.
Qed.

(** a node that formats the disk in its last round returns -EBUSY *)
Theorem formatted_but_busy :
  exists d, rtc (sys_step lock_kept lock_kept (2 ^ 31) false) (new_disk, [TryLock 9]) (d, [Ret (- EBUSY) None]) /\ sd_head d = Some 7.
Proof.
  exists (free (Some 7) false). split; [|done].
  node (held None true) 0%nat (Locked 9) ns_lock.
  node (held None true) 0%nat (Cleaning 9) ns_locked_new.
  node (held None true) 0%nat (WriteHead 9) ns_cleaning.
  node (held (Some 7) false) 0%nat (SaveMeta 9 7) ns_head.
  node (held (Some 7) false) 0%nat (Unlock 9 None) ns_save.
  node (free (Some 7) false) 0%nat (TryLock 10) ns_unlock.
  node (free (Some 7) false) 0%nat (Ret (- EBUSY) None) ns_give_up.
  apply rtc_refl.
Qed.

(** a failed format leaves a head page behind, and another node takes the
    disk for an initialised one *)
Theorem failed_format_accepted :
  rtc (sys_step lock_kept lock_kept (2 ^ 31) false) (new_disk, replicate 2 Start) (free (Some 7) false, [Ret (- ENOMEM) None; Ret 0 (Some 7)]).
Proof.
  node new_disk 0%nat CheckClean ns_new.
  node new_disk 0%nat (TryLock 0) ns_clean.
  node (held None true) 0%nat (Locked 0) ns_lock.
  node (held None true) 0%nat (Cleaning 0) ns_locked_new.
  node (held None true) 0%nat (WriteHead 0) ns_cleaning.
  node (held (Some 7) false) 0%nat (SaveMeta 0 7) ns_head.
  node (held (Some 7) false) 0%nat (Unlock 0 (Some (- ENOMEM, None))) ns_init_err.
  node (free (Some 7) false) 0%nat (Ret (- ENOMEM) None) ns_unlock.
  node (free (Some 7) false) 1%nat (Ret 0 (Some 7)) ns_found.
  apply rtc_refl.
Qed.
