(* ===== verification/ThreadPool.v ===== *)
(** * The thread pool of background tasks

    Model of ThreadPool (src/common/include/pf_threadpool.h): workers that
    wait on a condition variable for tasks in a queue.  The steps are the
    critical sections of [m_lock] and the accesses of [stoped] outside of
    them; a worker that has found the predicate of [wait] false still holds
    the lock until it blocks.  [notify_one] and [notify_all] wake blocked
    workers only; [spurious] says whether a worker may also wake up by
    itself. *)

From Stdlib Require Import ZArith Lia.
From stdpp Require Import base tactics list numbers relations.
From S2P Require Import Prelude.

(** where a worker is *)
Inductive worker (T : Type) : Type :=
| Top                    (* before [while(!stoped)] *)
| Locking                (* before the lock and the predicate of [wait] *)
| Checked                (* the predicate was false, with the lock *)
| Blocked
| Exec (t : T)
| Exited.

Arguments Top {T}.
Arguments Locking {T}.
Arguments Checked {T}.
Arguments Blocked {T}.
Arguments Exec {T} t.
Arguments Exited {T}.

(** the destructor *)
Inductive dtor : Type := DNone | DStored | DNotified | DJoined.

Record ThreadPool (T : Type) : Type := mkTPool {
  tp_pool : list (worker T);
  tp_tasks : list T;
  tp_lock : option nat;        (* the worker that holds [m_lock] over a step *)
  tp_stoped : bool;
  tp_notify : nat;             (* calls of [notify_one] to come, one per pushed task *)
  tp_dtor : dtor;
  tp_committed : list T;       (* histories: what was committed, started and has ended *)
  tp_started : list T;
  tp_done : list T
}.

Arguments mkTPool {T} _ _ _ _ _ _ _ _ _.
Arguments tp_pool {T} _.
Arguments tp_tasks {T} _.
Arguments tp_lock {T} _.
Arguments tp_stoped {T} _.
Arguments tp_notify {T} _.
Arguments tp_dtor {T} _.
Arguments tp_committed {T} _.
Arguments tp_started {T} _.
Arguments tp_done {T} _.

Section Pool.
Context {T : Type}.
Implicit Types p : ThreadPool T.

(** the constructor *)
Definition pool_new (size : nat) : ThreadPool T := mkTPool (replicate size Top) [] None false 0 DNone [] [] [].

Definition set_worker (i : nat) (w : worker T) p : ThreadPool T :=
  mkTPool (<[i := w]> (tp_pool p)) (tp_tasks p) (tp_lock p) (tp_stoped p) (tp_notify p) (tp_dtor p) (tp_committed p) (tp_started p) (tp_done p).

(** [commit]: the push under the lock, or the exception of a stopped pool;
    [notify_one] follows as a step of its own *)
Definition commit (t : T) p : outcome (ThreadPool T) :=
  if tp_stoped p then Fatal
  else Done (mkTPool (tp_pool p) (tp_tasks p ++ [t]) (tp_lock p) (tp_stoped p) (S (tp_notify p)) (tp_dtor p)
               (tp_committed p ++ [t]) (tp_started p) (tp_done p)).

(** a worker in its critical section: it leaves, takes a task or goes to wait *)
Definition locked_section (i : nat) p : ThreadPool T :=
  match tp_tasks p with
  | [] =>
      if tp_stoped p then set_worker i Exited p
      else mkTPool (<[i := Checked]> (tp_pool p)) [] (Some i) (tp_stoped p) (tp_notify p) (tp_dtor p) (tp_committed p) (tp_started p) (tp_done p)
  | t :: l =>
      mkTPool (<[i := Exec t]> (tp_pool p)) l (tp_lock p) (tp_stoped p) (tp_notify p) (tp_dtor p) (tp_committed p) (tp_started p ++ [t]) (tp_done p)
  end.

Definition unlock (p : ThreadPool T) : ThreadPool T :=
  mkTPool (tp_pool p) (tp_tasks p) None (tp_stoped p) (tp_notify p) (tp_dtor p) (tp_committed p) (tp_started p) (tp_done p).

Definition ended (t : T) p : ThreadPool T :=
  mkTPool (tp_pool p) (tp_tasks p) (tp_lock p) (tp_stoped p) (tp_notify p) (tp_dtor p) (tp_committed p) (tp_started p) (tp_done p ++ [t]).

Definition notified p : ThreadPool T :=
  mkTPool (tp_pool p) (tp_tasks p) (tp_lock p) (tp_stoped p) (pred (tp_notify p)) (tp_dtor p) (tp_committed p) (tp_started p) (tp_done p).

Definition wake (w : worker T) : worker T := match w with Blocked => Locking | _ => w end.

Variable spurious : bool.

(** the steps of a worker *)
Inductive work_step (i : nat) : ThreadPool T -> ThreadPool T -> Prop :=
| ws_top p : tp_pool p !! i = Some Top -> work_step i p (set_worker i (if tp_stoped p then Exited else Locking) p)
| ws_section p : tp_pool p !! i = Some Locking -> tp_lock p = None -> work_step i p (locked_section i p)
| ws_block p : tp_pool p !! i = Some Checked -> work_step i p (unlock (set_worker i Blocked p))
| ws_spurious p : spurious = true -> tp_pool p !! i = Some Blocked -> work_step i p (set_worker i Locking p)
| ws_ended p t : tp_pool p !! i = Some (Exec t) -> work_step i p (ended t (set_worker i Top p)).

(** [cv_task.notify_one()] *)
Inductive notify_step : ThreadPool T -> ThreadPool T -> Prop :=
| nt_one p i : (0 < tp_notify p)%nat -> tp_pool p !! i = Some Blocked -> notify_step p (notified (set_worker i Locking p))
| nt_none p : (0 < tp_notify p)%nat -> Blocked ∉ tp_pool p -> notify_step p (notified p).

(** what goes on without calls from outside *)
Inductive inner_step (p p' : ThreadPool T) : Prop :=
| is_work i : work_step i p p' -> inner_step p p'
| is_notify : notify_step p p' -> inner_step p p'.

Inductive pool_step : ThreadPool T -> ThreadPool T -> Prop :=
| ps_inner p p' : inner_step p p' -> pool_step p p'
| ps_commit p p' t : tp_lock p = None -> commit t p = Done p' -> pool_step p p'
| ps_store p : tp_dtor p = DNone ->
    pool_step p (mkTPool (tp_pool p) (tp_tasks p) (tp_lock p) true (tp_notify p) DStored (tp_committed p) (tp_started p) (tp_done p))
| ps_notify_all p : tp_dtor p = DStored ->
    pool_step p (mkTPool (wake <$> tp_pool p) (tp_tasks p) (tp_lock p) (tp_stoped p) (tp_notify p) DNotified (tp_committed p) (tp_started p) (tp_done p))
| ps_join p : tp_dtor p = DNotified -> Forall (fun w => w = Exited) (tp_pool p) ->
    pool_step p (mkTPool (tp_pool p) (tp_tasks p) (tp_lock p) (tp_stoped p) (tp_notify p) DJoined (tp_committed p) (tp_started p) (tp_done p)).
End Pool.

(** ** The invariant *)
Section Inv.
Context {T : Type}.
Implicit Types (p : ThreadPool T) (w : worker T) (l : list (worker T)).

Definition exec_of (w : worker T) : option T := match w with Exec t => Some t | _ => None end.
Definition running p : list T := omap exec_of (tp_pool p).

Definition active (w : worker T) : Prop := w <> Blocked /\ w <> Exited.

Record pool_ok (n : nat) p : Prop := mkPoolOk {
  pk_len : length (tp_pool p) = n;
  pk_queue : tp_committed p = tp_started p ++ tp_tasks p;
  pk_started : running p ++ tp_done p ≡ₚ tp_started p;
  pk_lock : forall i, tp_pool p !! i = Some Checked <-> tp_lock p = Some i;
  pk_waiting : tp_lock p <> None -> tp_tasks p = [];
  pk_stoped : tp_stoped p = false -> Exited ∉ tp_pool p;
  pk_dtor : tp_dtor p = DNone <-> tp_stoped p = false;
  pk_wakeup : tp_stoped p = false -> tp_tasks p <> [] -> (0 < n)%nat -> (0 < tp_notify p)%nat \/ exists i w, tp_pool p !! i = Some w /\ active w
}.

Lemma running_insert l i w w' :
  l !! i = Some w -> omap exec_of (<[i := w']> l) ++ option_list (exec_of w) ≡ₚ omap exec_of l ++ option_list (exec_of w').
Proof.
  intros Hi. pose proof (lookup_lt_Some _ _ _ Hi). rewrite insert_take_drop by done. rewrite <- (take_drop_middle l i w Hi) at 3.
  rewrite !omap_app. cbn [omap list_omap]. destruct (exec_of w), (exec_of w'); cbn [option_list]; solve_Permutation.
Qed.

Lemma lookup_moved l i j w w' x : l !! i = Some w -> <[i := w']> l !! j = Some x <-> (i = j /\ x = w') \/ (i <> j /\ l !! j = Some x).
Proof.
  intros Hi. rewrite list_lookup_insert_Some. pose proof (lookup_lt_Some _ _ _ Hi). clear Hi. intuition congruence.
Qed.

Lemma moved_elem l i w w' x : l !! i = Some w -> x ∈ <[i := w']> l -> x = w' \/ x ∈ l.
Proof. intros Hi [j Hj]%list_elem_of_lookup. rewrite (lookup_moved _ _ _ _ _ _ Hi) in Hj. destruct Hj as [[_ ->]|[_ Hj]]; [by left|right; by eapply list_elem_of_lookup_2]. Qed.

Lemma pool_new_ok n : pool_ok n (pool_new n).
Proof.
  split; cbn.
  - apply length_replicate.
  - done.
  - rewrite app_nil_r. unfold running. cbn. by induction n.
  - intros i. split; [|done]. intros Hi. by apply lookup_replicate in Hi as [? _].
  - done.
  - intros _ Hx. by apply elem_of_replicate in Hx as [? _].
  - done.
  - done.
Qed.
End Inv.

Section Steps.
Context {T : Type} (n : nat).
Implicit Types (p : ThreadPool T).

Definition is_checked (w : worker T) : bool := match w with Checked => true | _ => false end.

(** one worker moves from [w] to [w'] *)
Lemma moved_ok p p' i w w' :
  pool_ok n p -> tp_pool p !! i = Some w -> tp_pool p' = <[i := w']> (tp_pool p) ->
  tp_committed p' = tp_committed p -> tp_stoped p' = tp_stoped p -> tp_dtor p' = tp_dtor p ->
  tp_started p' ++ tp_tasks p' = tp_started p ++ tp_tasks p ->
  option_list (exec_of w') ++ tp_done p' ++ tp_started p ≡ₚ option_list (exec_of w) ++ tp_done p ++ tp_started p' ->
  tp_lock p' = (if is_checked w' then Some i else if is_checked w then None else tp_lock p) ->
  (is_checked w' = true -> tp_lock p = None /\ tp_tasks p' = []) -> (tp_tasks p = [] -> tp_tasks p' = []) ->
  (w' = Exited -> tp_stoped p = true) -> (active w' \/ tp_stoped p = true \/ tp_tasks p' = []) ->
  pool_ok n p'.
Proof.
  intros [H1 H2 H3 H4 H5 H6 H7 H8] Hi Hp Hc Hs Hd Hq Hr Hl Hlc Ht He Ha. split.
  - by rewrite Hp, length_insert.
  - by rewrite Hc, H2.
  - apply (Permutation_app_inv_r (option_list (exec_of w) ++ tp_started p)).
    unfold running in *. rewrite Hp. pose proof (running_insert _ _ _ w' Hi) as Hri.
    transitivity ((omap exec_of (<[i:=w']> (tp_pool p)) ++ option_list (exec_of w)) ++ tp_done p' ++ tp_started p); [solve_Permutation|].
    rewrite Hri. transitivity (omap exec_of (tp_pool p) ++ (option_list (exec_of w') ++ tp_done p' ++ tp_started p)); [solve_Permutation|].
    rewrite Hr. transitivity ((omap exec_of (tp_pool p) ++ tp_done p) ++ option_list (exec_of w) ++ tp_started p'); [solve_Permutation|].
    rewrite H3. solve_Permutation.
  - intros j. rewrite Hp, (lookup_moved _ _ _ _ _ _ Hi), Hl, H4. destruct (is_checked w') eqn:Ec'.
    + destruct (Hlc eq_refl) as [Hn _]. rewrite Hn. destruct w'; try done. intuition congruence.
    + destruct (is_checked w) eqn:Ec; [destruct w; try done; apply H4 in Hi; rewrite Hi|];
        (split; [intros [[-> <-]|[? ?]]; [done|congruence]|]); [done|]. intros Hj. right. split; [|done]. intros ->.
      apply H4 in Hj. rewrite Hi in Hj. injection Hj as ->. done.
  - rewrite Hl. intros Hne. destruct (is_checked w') eqn:Ec'; [by apply Hlc|]. destruct (is_checked w); [done|]. by apply Ht, H5.
  - rewrite Hs, Hp. intros Hns Hx. destruct (moved_elem _ _ _ _ _ Hi Hx) as [Hx'|Hx']; [|by apply H6]. rewrite He in Hns; done.
  - by rewrite Hd, Hs.
  - rewrite Hs. intros Hns Hne _. destruct Ha as [Ha|[Ha|Ha]]; [|congruence|done]. right. exists i, w'. split; [|done].
    rewrite Hp. apply list_lookup_insert_eq. by eapply lookup_lt_Some.
Qed.

Lemma work_step_ok spurious i p p' : work_step spurious i p p' -> pool_ok n p -> pool_ok n p'.
Proof.
  intros Hs H. destruct Hs as [p Hi|p Hi Hl|p Hi|p _ Hi|p t Hi].
  - eapply moved_ok; try done; try (by destruct (tp_stoped p)); try exact Hi. destruct (tp_stoped p); [by auto|by left].
  - unfold locked_section. destruct (tp_tasks p) as [|t l] eqn:Et.
    + destruct (tp_stoped p) eqn:Es; (eapply moved_ok; [exact H|exact Hi|reflexivity|..]; cbn; rewrite ?Et; by auto).
    + eapply moved_ok; [exact H|exact Hi|reflexivity|..]; cbn; rewrite ?Et; rewrite <- ?app_assoc; try done; [solve_Permutation|by left].
  - pose proof (proj1 (pk_lock _ _ H i) Hi) as Hl. pose proof (pk_waiting _ _ H ltac:(by rewrite Hl)) as Et.
    eapply moved_ok; try done; try exact Hi. by auto.
  - eapply moved_ok; try done; try exact Hi. by left.
  - eapply moved_ok; try done; try exact Hi; [cbn; solve_Permutation|by left].
Qed.

Lemma notify_step_ok p p' : notify_step p p' -> pool_ok n p -> pool_ok n p'.
Proof.
  intros Hs H. destruct Hs as [p i Hn Hi|p Hn Hb]; [eapply moved_ok; [exact H|exact Hi|reflexivity|..]; try done; by left|].
  destruct H as [H1 H2 H3 H4 H5 H6 H7 H8]. split; try done. intros Hs Hne Hpos. right. cbn in *.
  destruct (tp_pool p) as [|w l] eqn:Ep; [cbn in H1; lia|]. exists 0%nat, w. split; [done|].
  split; intros ->; [by apply Hb; left|apply H6; [done|by left]].
Qed.

Lemma running_wake (l : list (worker T)) : omap exec_of (wake <$> l) = omap exec_of l.
Proof. induction l as [|w l IH]; [done|]. cbn. rewrite IH. by destruct w. Qed.

Lemma inner_step_ok spurious p p' : inner_step spurious p p' -> pool_ok n p -> pool_ok n p'.
Proof. intros [i Hw|Hn]; [by eapply work_step_ok|by apply notify_step_ok]. Qed.

Lemma pool_step_ok spurious p p' : pool_step spurious p p' -> pool_ok n p -> pool_ok n p'.
Proof.
  intros Hs H. destruct Hs as [p p' Hi|p p' t Hl Hc|p Hd|p Hd|p Hd Hall].
  - by eapply inner_step_ok.
  - unfold commit in Hc. destruct (tp_stoped p) eqn:Es; [done|]. injection Hc as <-. destruct H as [H1 H2 H3 H4 H5 H6 H7 H8].
    rewrite Es in *. split; cbn; try done; [by rewrite H2, app_assoc|]. intros _ _ _. left. lia.
  - destruct H as [H1 H2 H3 H4 H5 H6 H7 H8]. by split.
  - destruct H as [H1 H2 H3 H4 H5 H6 H7 H8]. assert (tp_stoped p = true) as Hst by (destruct (tp_stoped p); [done|]; rewrite (proj2 H7 eq_refl) in Hd; done).
    split; cbn; rewrite ?Hst; try done.
    + by rewrite length_fmap.
    + unfold running in *. cbn. by rewrite running_wake.
    + intros i. rewrite <- H4, list_lookup_fmap. destruct (tp_pool p !! i) as [[]|]; done.
  - destruct H as [H1 H2 H3 H4 H5 H6 H7 H8]. split; try done. cbn. rewrite <- H7, Hd. done.
Qed.

Lemma reachable_ok spurious p : rtc (pool_step spurious) (pool_new n) p -> pool_ok n p.
Proof.
  intros Hr. remember (pool_new n) as p0 eqn:E0. assert (pool_ok n p0) as H by (subst; apply pool_new_ok). clear E0.
  induction Hr as [|p1 p2 p3 Hs _ IH]; [done|]. by eapply IH, pool_step_ok.
Qed.

(** ** Inner steps come to an end *)
Definition weight (w : worker T) : nat := match w with Exec _ => 4 | Top => 3 | Locking => 2 | Checked => 1 | _ => 0 end.
Definition pool_weight p : nat := (sum_list (weight <$> tp_pool p) + 3 * length (tp_tasks p) + 3 * tp_notify p)%nat.

Lemma weight_insert (l : list (worker T)) i w w' :
  l !! i = Some w -> (sum_list (weight <$> <[i := w']> l) + weight w = sum_list (weight <$> l) + weight w')%nat.
Proof.
  intros Hi. pose proof (lookup_lt_Some _ _ _ Hi). rewrite insert_take_drop by done. rewrite <- (take_drop_middle l i w Hi) at 3.
  rewrite !fmap_app, !fmap_cons, !sum_list_with_app. cbn. lia.
Qed.

Lemma inner_step_weight p p' :
  inner_step false p p' -> tp_stoped p = false ->
  (pool_weight p' < pool_weight p)%nat /\ tp_stoped p' = false /\ tp_committed p' = tp_committed p.
Proof.
  intros [i Hw|Hn] Hs.
  - destruct Hw as [p Hi|p Hi Hl|p Hi|p ? Hi|p t Hi]; [| | |done|]; unfold pool_weight.
    + pose proof (weight_insert _ _ _ Locking Hi). rewrite Hs. cbn in *. splits; [lia|done|done].
    + unfold locked_section. destruct (tp_tasks p) as [|t l] eqn:Et; [rewrite Hs; pose proof (weight_insert _ _ _ Checked Hi)|pose proof (weight_insert _ _ _ (Exec t) Hi)];
        cbn in *; (splits; [lia|done|done]).
    + pose proof (weight_insert _ _ _ Blocked Hi). cbn in *. splits; [lia|done|done].
    + pose proof (weight_insert _ _ _ Top Hi). cbn in *. splits; [lia|done|done].
  - destruct Hn as [p i Hn Hi|p Hn Hb]; unfold pool_weight; [pose proof (weight_insert _ _ _ Locking Hi)|]; cbn in *; (splits; [lia|done|done]).
Qed.

(** when nothing moves, everybody waits and nothing is left *)
Lemma quiet_pool p :
  pool_ok n p -> tp_stoped p = false -> (0 < n)%nat -> (forall p', ~ inner_step false p p') ->
  Forall (fun w => w = Blocked) (tp_pool p) /\ tp_tasks p = [] /\ tp_done p ≡ₚ tp_committed p.
Proof.
  intros [H1 H2 H3 H4 H5 H6 H7 H8] Hs Hpos Hq.
  assert (tp_lock p = None) as Hl.
  { destruct (tp_lock p) as [j|] eqn:El; [|done]. destruct (Hq (unlock (set_worker j Blocked p))). apply (is_work _ _ _ j), ws_block. by apply H4. }
  assert (Forall (fun w => w = Blocked) (tp_pool p)) as Hall.
  { apply Forall_lookup_2. intros i w Hi. destruct w as [| | | |t|]; [| | |done| |].
    - edestruct Hq. by eapply (is_work _ _ _ i), ws_top.
    - edestruct Hq. by eapply (is_work _ _ _ i), ws_section.
    - edestruct Hq. by eapply (is_work _ _ _ i), ws_block.
    - edestruct Hq. by eapply (is_work _ _ _ i), ws_ended.
    - destruct H6; [done|]. by eapply list_elem_of_lookup_2. }
  assert (tp_tasks p = []) as Ht.
  { destruct (tp_tasks p) as [|t l] eqn:Et; [done|]. destruct (H8 Hs) as [Hn|(i & w & Hi & Hb & _)]; [done|done| |].
    - destruct (tp_pool p) as [|w l'] eqn:Ep; [cbn in H1; lia|]. apply Forall_cons in Hall as [-> _].
      edestruct Hq. apply is_notify. eapply (nt_one _ 0%nat); [done|by rewrite Ep].
    - by pose proof (Forall_lookup_1 _ _ _ _ Hall Hi). }
  splits; [done|done|]. rewrite H2, Ht, app_nil_r, <- H3. unfold running. clear -Hall.
  induction Hall as [|w l -> _ IH]; [done|]. by cbn.
Qed.
End Steps.

(** ** The theorems *)

(** Tasks start in the order in which they are committed, each once, and
    never more of them run than the pool has threads; also while the pool is
    destroyed and with spurious wakeups. *)
Theorem tasks_start_in_order {T : Type} (n : nat) (spurious : bool) (p : ThreadPool T) :
  rtc (pool_step spurious) (pool_new n) p ->
  tp_committed p = tp_started p ++ tp_tasks p /\ running p ++ tp_done p ≡ₚ tp_started p /\ (length (running p) <= n)%nat.
Proof.
  intros Hr. destruct (reachable_ok n _ _ Hr) as [H1 H2 H3 _ _ _ _ _]. splits; [done|done|]. rewrite <- H1. unfold running.
  clear. induction (tp_pool p) as [|w l IH]; [done|]. cbn. destruct (exec_of w); cbn; lia.
Qed.

(** every step of the threads makes the pool lighter *)
Lemma inner_run_weight {T : Type} (n k : nat) (p p' : ThreadPool T) :
  nsteps (inner_step false) k p p' -> pool_ok n p -> tp_stoped p = false ->
  (k + pool_weight p' <= pool_weight p)%nat /\ pool_ok n p' /\ tp_stoped p' = false /\ tp_committed p' = tp_committed p.
Proof.
  induction 1 as [p|k p1 p2 p3 Hs _ IH]; intros Hok Hst; [done|]. destruct (inner_step_weight _ _ Hs Hst) as (W & S2 & C2).
  destruct (IH (inner_step_ok n _ _ _ Hs Hok) S2) as (W3 & O3 & S3 & C3). splits; [lia|done|done|congruence].
Qed.

(** From every state a pool that is not
    being destroyed can reach, whatever the order in which its threads and
    the calls of [notify_one] go on, they stop after a bounded number of
    steps, and then every thread waits and every task that was committed has
    been run exactly once: no wakeup is lost. *)
Theorem committed_tasks_run {T : Type} (n k : nat) (spurious : bool) (p p' : ThreadPool T)
    (Hpos : (0 < n)%nat) (Hreach : rtc (pool_step spurious) (pool_new n) p) (Hlive : tp_stoped p = false)
    (Hrun : nsteps (inner_step false) k p p') :
  (k <= pool_weight p)%nat
  /\ ((forall p2, ~ inner_step false p' p2) ->
      tp_done p' ≡ₚ tp_committed p /\ tp_tasks p' = [] /\ Forall (fun w => w = Blocked) (tp_pool p')).
Proof.
  destruct (inner_run_weight n _ _ _ Hrun (reachable_ok n _ _ Hreach) Hlive) as (W & O & S & C). split; [lia|].
  intros Hq. destruct (quiet_pool n p' O S Hpos Hq) as (Q1 & Q2 & Q3). by rewrite Q3, C.
Qed.

Module PoolDemo.
(** one thread, and a task that was committed while it was about to wait *)
Definition p0 : ThreadPool Z := pool_new 1.
Definition p1 : ThreadPool Z := set_worker 0 Locking p0.
Definition p2 : ThreadPool Z := locked_section 0 p1.
Definition p3 : ThreadPool Z := unlock (set_worker 0 Blocked p2).
Definition p4 : ThreadPool Z := mkTPool [Blocked] [7] None false 1 DNone [7] [] [].
Definition p5 : ThreadPool Z := notified (set_worker 0 Locking p4).
Definition p6 : ThreadPool Z := locked_section 0 p5.
Definition p7 : ThreadPool Z := ended 7 (set_worker 0 Top p6).

Lemma waits : rtc (pool_step false) p0 p3.
Proof.
  eapply rtc_l; [apply ps_inner, (is_work _ _ _ 0), ws_top; done|].
  eapply rtc_l; [apply ps_inner, (is_work _ _ _ 0), ws_section; done|].
  eapply rtc_l; [apply ps_inner, (is_work _ _ _ 0), ws_block; done|]. apply rtc_refl.
Qed.

Lemma reached : rtc (pool_step false) p0 p4.
Proof. etransitivity; [exact waits|]. apply rtc_once, (ps_commit _ _ _ 7); done. Qed.

Lemma pool_runs : nsteps (inner_step false) 3 p4 p7.
Proof.
  eapply nsteps_l; [apply is_notify, (nt_one _ 0); [cbn; lia|done]|].
  eapply nsteps_l; [apply (is_work _ _ _ 0), ws_section; done|].
  eapply nsteps_l; [apply (is_work _ _ _ 0), ws_ended; done|]. constructor.
Qed.
End PoolDemo.

Lemma committed_tasks_run_witness : (3 <= pool_weight PoolDemo.p4)%nat /\ tp_done PoolDemo.p7 = [7].
Proof.
  split; [|done]. apply (committed_tasks_run 1 3 false PoolDemo.p4 PoolDemo.p7 ltac:(lia) PoolDemo.reached eq_refl PoolDemo.pool_runs).
Defined.

(** The destructor sets [stoped] and notifies without the lock: a thread that
    has just found nothing to do blocks afterwards, nobody wakes it up and
    [join] waits for ever. *)
Theorem destructor_hangs :
  exists p : ThreadPool Z, rtc (pool_step false) (pool_new 1) p /\ tp_dtor p = DNotified /\ tp_pool p = [Blocked] /\ forall p', ~ pool_step false p p'.
Proof.
  exists (mkTPool [Blocked] [] None true 0 DNotified [] [] []). splits; [|done|done|].
  - eapply rtc_l; [apply ps_inner, (is_work _ _ _ 0), ws_top; done|].
    eapply rtc_l; [apply ps_inner, (is_work _ _ _ 0), ws_section; done|].
    eapply rtc_l; [apply ps_store; done|].
    eapply rtc_l; [apply ps_notify_all; done|].
    eapply rtc_l; [apply ps_inner, (is_work _ _ _ 0), ws_block; done|]. apply rtc_refl.
  - intros p' Hs. inversion Hs as [? ? Hi|? ? t Hl Hc|? Hd|? Hd|? Hd Hall]; subst; try done.
    + destruct Hi as [i Hw|Hn].
      * inversion Hw as [? Hi|? Hi Hl|? Hi|? ? Hi|? ? Hi]; subst; try done; destruct i; done.
      * inversion Hn; subst; cbn in *; lia.
    + by apply Forall_cons in Hall as [? _].
Qed.
