(* ===== verification/BgTask.v ===== *)
(** * Background tasks

    Model of BackgroundTaskManager (src/pfs/src/pf_bgtask_manager.cpp) on the
    thread pool, with the REST handlers that start the recovery of a replica
    and ask for the state of a task (src/pfs/src/pf_restful_api.cpp).  The
    handlers run on the thread of the REST server; a task runs on the one
    thread of the pool, which writes its status while handlers read it.
    What a task returns is an argument of the step that ends it. *)

From Stdlib Require Import ZArith Lia.
From stdpp Require Import base tactics list numbers relations gmap.
From S2P Require Import Prelude ThreadPool.

Inductive TaskStatus : Type := WAITING | RUNNING | SUCCEEDED | FAILED.

Record BackgroundTask : Type := mkBgTask { bt_id : Z; bt_status : TaskStatus; bt_result : option Z (* ret_code of the reply *) }.

(** A pointer to a task is its index in [objs]. *)
Record BackgroundTaskManager : Type := mkManager {
  id_seed : Z;
  task_map : gmap Z (option nat);
  objs : list BackgroundTask;
  recovery_thread_pool : ThreadPool nat
}.

Definition manager_new : BackgroundTaskManager := mkManager 0 ∅ [] (pool_new 1).

Definition initiate_task (m : BackgroundTaskManager) : nat * BackgroundTaskManager :=
  let id := id_seed m + 1 in
  let t := length (objs m) in
  (t, mkManager id (<[id := Some t]> (task_map m)) (objs m ++ [mkBgTask id WAITING None]) (recovery_thread_pool m)).

Definition commit_task (t : nat) (m : BackgroundTaskManager) : outcome BackgroundTaskManager :=
  let* p := commit t (recovery_thread_pool m) in Done (mkManager (id_seed m) (task_map m) (objs m) p).

(** [BackgroudTaskReply]: no status is the empty string *)
Record task_reply : Type := mkTaskReply { tr_ret_code : Z; tr_task_id : Z; tr_status : option TaskStatus }.

(** [handle_recovery_replica]; [found] is whether the disk is one of the node *)
Definition handle_recovery_replica (found : bool) (m : BackgroundTaskManager) : outcome (task_reply * BackgroundTaskManager) :=
  if negb found then Done (mkTaskReply (- ENOENT) 0 None, m)
  else
    let (t, m) := initiate_task m in
    let* o := of_option (objs m !! t) in
    let r := mkTaskReply 0 (bt_id o) (Some (bt_status o)) in
    let* m := commit_task t m in
    Done (r, m).

(** [handle_query_task]: [task_map[task_id]] makes an entry if there is none *)
Definition handle_query_task (task_id : Z) (m : BackgroundTaskManager) : outcome (task_reply * BackgroundTaskManager) :=
  match task_map m !! task_id with
  | Some (Some t) => let* o := of_option (objs m !! t) in Done (mkTaskReply 0 (bt_id o) (Some (bt_status o)), m)
  | Some None => Done (mkTaskReply (- ENOENT) 0 None, m)
  | None => Done (mkTaskReply (- ENOENT) 0 None, mkManager (id_seed m) (<[task_id := None]> (task_map m)) (objs m) (recovery_thread_pool m))
  end.

Definition with_pool (p : ThreadPool nat) (m : BackgroundTaskManager) : BackgroundTaskManager :=
  mkManager (id_seed m) (task_map m) (objs m) p.

Definition set_obj (t : nat) (o : BackgroundTask) (m : BackgroundTaskManager) : BackgroundTaskManager :=
  mkManager (id_seed m) (task_map m) (<[t := o]> (objs m)) (recovery_thread_pool m).

Definition final (s : TaskStatus) : bool := match s with SUCCEEDED | FAILED => true | _ => false end.
Definition status_of (rc : Z) : TaskStatus := if rc =? 0 then SUCCEEDED else FAILED.

Section Manager.
Variable spurious : bool.

(** The threads: steps of the pool that end no task, and the function
    [commit_task] gives to the pool, which sets the status, runs the task,
    sets result and status, and returns. *)
Inductive task_step (m : BackgroundTaskManager) : BackgroundTaskManager -> Prop :=
| bg_pool p : inner_step spurious (recovery_thread_pool m) p -> tp_done p = tp_done (recovery_thread_pool m) -> task_step m (with_pool p m)
| bg_begin i t o : tp_pool (recovery_thread_pool m) !! i = Some (Exec t) -> objs m !! t = Some o -> bt_status o = WAITING ->
    task_step m (set_obj t (mkBgTask (bt_id o) RUNNING (bt_result o)) m)
| bg_finish i t o rc : tp_pool (recovery_thread_pool m) !! i = Some (Exec t) -> objs m !! t = Some o -> bt_status o = RUNNING ->
    task_step m (set_obj t (mkBgTask (bt_id o) (status_of rc) (Some rc)) m)
| bg_return i t o : tp_pool (recovery_thread_pool m) !! i = Some (Exec t) -> objs m !! t = Some o -> final (bt_status o) = true ->
    task_step m (with_pool (ended t (set_worker i Top (recovery_thread_pool m))) m).

(** with the handlers *)
Inductive bg_step (m m' : BackgroundTaskManager) : Prop :=
| bs_task : task_step m m' -> bg_step m m'
| bs_recover found r : tp_lock (recovery_thread_pool m) = None -> handle_recovery_replica found m = Done (r, m') -> bg_step m m'
| bs_query id r : handle_query_task id m = Done (r, m') -> bg_step m m'.
End Manager.

(** ** The invariant *)
Definition obj_ok (o : BackgroundTask) : Prop :=
  match bt_result o with None => final (bt_status o) = false | Some rc => bt_status o = status_of rc end.

Record manager_ok (m : BackgroundTaskManager) : Prop := mkManagerOk {
  mo_pool : pool_ok 1 (recovery_thread_pool m);
  mo_live : tp_stoped (recovery_thread_pool m) = false;
  mo_seed : id_seed m = Z.of_nat (length (objs m));
  mo_committed : tp_committed (recovery_thread_pool m) = seq 0 (length (objs m));
  mo_map : forall id t, task_map m !! id = Some (Some t) <-> (t < length (objs m))%nat /\ id = Z.of_nat t + 1;
  mo_objs : forall t o, objs m !! t = Some o -> bt_id o = Z.of_nat t + 1 /\ obj_ok o;
  mo_waiting : forall t o, objs m !! t = Some o -> t ∈ tp_tasks (recovery_thread_pool m) -> bt_status o = WAITING;
  mo_done : forall t o, objs m !! t = Some o -> t ∈ tp_done (recovery_thread_pool m) -> final (bt_status o) = true
}.

Lemma manager_new_ok : manager_ok manager_new.
Proof.
  split; cbn; try done; [apply pool_new_ok|]. intros id t. rewrite lookup_empty. split; [done|lia].
Qed.

(** what the threads of the pool do to its queue and its histories *)
Lemma inner_step_cases {T} spurious (p p' : ThreadPool T) :
  inner_step spurious p p' ->
  (tp_done p' = tp_done p \/ exists i t, tp_pool p !! i = Some (Exec t) /\ p' = ended t (set_worker i Top p))
  /\ tp_committed p' = tp_committed p /\ tp_stoped p' = tp_stoped p /\ exists l, tp_tasks p = l ++ tp_tasks p'.
Proof.
  intros [i Hw|Hn].
  - destruct Hw as [p Hi|p Hi Hl|p Hi|p Hsp Hi|p t Hi]; cbn; try (by splits; [left|done|done|exists []]).
    + unfold locked_section. destruct (tp_tasks p) as [|t l] eqn:Et.
      * destruct (tp_stoped p) eqn:Es; cbn; rewrite ?Et, ?Es; (splits; [by left|done|done|by exists []]).
      * cbn. splits; [by left|done|done|by exists [t]].
    + splits; [right; by exists i, t|done|done|by exists []].
  - destruct Hn; cbn; (splits; [by left|done|done|by exists []]).
Qed.

Lemma commit_ok {T} n (t : T) p p' : tp_lock p = None -> commit t p = Done p' -> pool_ok n p -> pool_ok n p'.
Proof. intros Hl Hc. by apply (pool_step_ok n false), (ps_commit _ _ _ t). Qed.

Lemma task_exec_elem {T} (p : ThreadPool T) i t : tp_pool p !! i = Some (Exec t) -> t ∈ running p.
Proof. intros Hi. apply list_elem_of_omap. exists (Exec t). split; [by eapply list_elem_of_lookup_2|done]. Qed.

(** a task is in the queue, on a thread, or has ended *)
Lemma places_apart m : manager_ok m -> NoDup (running (recovery_thread_pool m) ++ tp_done (recovery_thread_pool m) ++ tp_tasks (recovery_thread_pool m)).
Proof.
  intros H. pose proof (mo_pool _ H) as [_ Hq Hs _ _ _ _ _]. rewrite app_assoc, Hs, <- Hq, (mo_committed _ H). apply NoDup_seq.
Qed.

Lemma places_known m t :
  manager_ok m ->
  t ∈ (running (recovery_thread_pool m) ++ tp_done (recovery_thread_pool m) ++ tp_tasks (recovery_thread_pool m)) <-> (t < length (objs m))%nat.
Proof.
  intros H. pose proof (mo_pool _ H) as [_ Hq Hs _ _ _ _ _]. rewrite app_assoc, Hs, <- Hq, (mo_committed _ H), elem_of_seq. lia.
Qed.

Lemma running_apart m t :
  manager_ok m -> t ∈ running (recovery_thread_pool m) -> (t ∉ tp_tasks (recovery_thread_pool m)) /\ (t ∉ tp_done (recovery_thread_pool m)).
Proof.
  intros H Hr. pose proof (places_apart m H) as [_ [Hd _]]%NoDup_app. specialize (Hd t Hr). rewrite elem_of_app in Hd.
  split; intros ?; apply Hd; auto.
Qed.

Lemma set_obj_ok m t o o' :
  manager_ok m -> t ∈ running (recovery_thread_pool m) -> objs m !! t = Some o -> bt_id o' = bt_id o -> obj_ok o' -> manager_ok (set_obj t o' m).
Proof.
  intros H Hr Ht Hid Ho'. destruct (running_apart m t H Hr) as [Hnt Hnd]. destruct H as [H1 H2 H3 H4 H5 H6 H7 H8].
  split; cbn [set_obj id_seed task_map objs recovery_thread_pool]; rewrite ?length_insert; try done; intros x o1; rewrite list_lookup_insert_Some.
  - intros [(-> & -> & _)|[_ Hx]]; [|by apply H6]. rewrite Hid. split; [|done]. by apply H6.
  - intros [(-> & -> & _)|[_ Hx]] Hin; [done|by eapply H7].
  - intros [(-> & -> & _)|[_ Hx]] Hin; [done|by eapply H8].
Qed.

Lemma task_step_ok spurious m m' : task_step spurious m m' -> manager_ok m -> manager_ok m'.
Proof.
  intros Hs H. destruct Hs as [p Hp Hd|i t o Hi Ho Hw|i t o rc Hi Ho Hw|i t o Hi Ho Hf].
  - destruct (inner_step_cases _ _ _ Hp) as (_ & Hc & Hst & l & Hl). destruct H as [H1 H2 H3 H4 H5 H6 H7 H8].
    split; cbn [with_pool id_seed task_map objs recovery_thread_pool]; try done; [by eapply inner_step_ok|congruence|congruence| |by rewrite Hd].
    intros t o Ho Ht. apply (H7 t o Ho). rewrite Hl. apply elem_of_app. by right.
  - pose proof (mo_objs _ H t o Ho) as [Hid Hok]. eapply set_obj_ok; [done|by eapply task_exec_elem|done|done|].
    unfold obj_ok in *. cbn. destruct (bt_result o) as [rc|]; [|done]. rewrite Hw in Hok. unfold status_of in Hok. by destruct (rc =? 0).
  - eapply set_obj_ok; [done|by eapply task_exec_elem|done|done|done].
  - destruct H as [H1 H2 H3 H4 H5 H6 H7 H8]. split; cbn [with_pool id_seed task_map objs recovery_thread_pool]; try done.
    + by eapply work_step_ok, H1; apply (ws_ended spurious).
    + intros x ox Hx. cbn. rewrite elem_of_app, list_elem_of_singleton. intros [Hin|Hin]; [by eapply H8|]. simplify_eq. done.
Qed.

Lemma recover_ok m found r m' :
  handle_recovery_replica found m = Done (r, m') -> tp_lock (recovery_thread_pool m) = None -> manager_ok m -> manager_ok m'.
Proof.
  intros Hh Hl H. unfold handle_recovery_replica in Hh. destruct found; cbn [negb] in Hh; [|by injection Hh as <- <-].
  cbn [initiate_task objs] in Hh. rewrite lookup_app_r, Nat.sub_diag in Hh by lia. cbn in Hh. unfold commit_task in Hh. cbn in Hh.
  destruct (commit (length (objs m)) (recovery_thread_pool m)) as [p| |] eqn:Ec; try done. cbn in Hh. injection Hh as <- <-.
  pose proof (commit_ok 1 _ _ _ Hl Ec (mo_pool _ H)) as Hp. pose proof (places_known m) as Hk.
  unfold commit in Ec. rewrite (mo_live _ H) in Ec. injection Ec as <-. specialize (Hk (length (objs m)) H). destruct H as [H1 H2 H3 H4 H5 H6 H7 H8].
  split; cbn [id_seed task_map objs recovery_thread_pool tp_stoped tp_committed tp_tasks tp_done]; rewrite ?length_app; cbn [length].
  - done.
  - done.
  - lia.
  - rewrite H4, Nat.add_1_r, seq_S. done.
  - intros id t. rewrite lookup_insert_Some, H5. split; [intros [[<- [= <-]]|[_ [? ?]]]; lia|]. intros [Ht ->].
    destruct (decide (t = length (objs m))) as [->|]; [left; split; [lia|done]|right; lia].
  - intros t o [Ht|[Ht Hx]]%lookup_app_Some; [by apply H6|]. apply list_lookup_singleton_Some in Hx as [Ht0 <-]. cbn.
    split; [|done]. lia.
  - intros t o [Ht|[Ht Hx]]%lookup_app_Some; [|by apply list_lookup_singleton_Some in Hx as [_ <-]].
    rewrite elem_of_app, list_elem_of_singleton. intros [Hin| ->]; [by eapply H7|]. apply lookup_lt_Some in Ht. lia.
  - intros t o [Ht|[Ht Hx]]%lookup_app_Some; [by eapply H8|]. apply list_lookup_singleton_Some in Hx as [Ht0 <-].
    intros Hin. rewrite !elem_of_app in Hk. assert (t = length (objs m)) as -> by lia.
    assert (length (objs m) < length (objs m))%nat by (apply Hk; auto). lia.
Qed.

Lemma query_ok m id r m' : handle_query_task id m = Done (r, m') -> manager_ok m -> manager_ok m'.
Proof.
  intros Hq H. unfold handle_query_task in Hq. destruct (task_map m !! id) as [[t|]|] eqn:Em.
  - destruct (objs m !! t); [by injection Hq as <- <-|done].
  - by injection Hq as <- <-.
  - injection Hq as <- <-. destruct H as [H1 H2 H3 H4 H5 H6 H7 H8]. split; cbn; try done. intros id' t. rewrite <- H5, lookup_insert_Some.
    split; [intros [[_ ?]|[_ ?]]; done|]. intros Hx. right. split; [congruence|done].
Qed.

Lemma bg_reach_ok spurious m : rtc (bg_step spurious) manager_new m -> manager_ok m.
Proof.
  intros Hr. remember manager_new as m0 eqn:E0. assert (manager_ok m0) as H by (subst; apply manager_new_ok). clear E0.
  induction Hr as [|m1 m2 m3 Hs _ IH]; [done|]. apply IH.
  destruct Hs as [Ht|found r Hl Hh|id r Hq]; [by eapply task_step_ok|by eapply recover_ok|by eapply query_ok].
Qed.

(** ** Tasks end *)
Definition status_weight (o : BackgroundTask) : nat := match bt_status o with WAITING => 2 | RUNNING => 1 | _ => 0 end.
Definition manager_weight (m : BackgroundTaskManager) : nat :=
  (pool_weight (recovery_thread_pool m) + sum_list (status_weight <$> objs m))%nat.

Lemma status_insert (l : list BackgroundTask) t o o' :
  l !! t = Some o -> (sum_list (status_weight <$> <[t := o']> l) + status_weight o = sum_list (status_weight <$> l) + status_weight o')%nat.
Proof.
  intros Hi. pose proof (lookup_lt_Some _ _ _ Hi). rewrite insert_take_drop by done. rewrite <- (take_drop_middle l t o Hi) at 3.
  rewrite !fmap_app, !fmap_cons, !sum_list_with_app. cbn. lia.
Qed.

Lemma task_step_weight m m' :
  task_step false m m' -> tp_stoped (recovery_thread_pool m) = false -> (manager_weight m' < manager_weight m)%nat /\ id_seed m' = id_seed m.
Proof.
  intros Hs Hl. destruct Hs as [p Hp Hd|i t o Hi Ho Hw|i t o rc Hi Ho Hw|i t o Hi Ho Hf]; (split; [|done]); unfold manager_weight.
  - destruct (inner_step_weight _ _ Hp Hl) as (W & _). cbn [with_pool recovery_thread_pool objs]. lia.
  - pose proof (status_insert _ _ _ (mkBgTask (bt_id o) RUNNING (bt_result o)) Ho) as W. unfold status_weight at 2 4 in W. rewrite Hw in W.
    cbn [set_obj recovery_thread_pool objs]. cbn in W. lia.
  - pose proof (status_insert _ _ _ (mkBgTask (bt_id o) (status_of rc) (Some rc)) Ho) as W. unfold status_weight at 2 4 in W. rewrite Hw in W.
    cbn [set_obj recovery_thread_pool objs]. cbn [bt_status] in W. unfold status_of in *. destruct (rc =? 0); cbn in *; lia.
  - assert (inner_step false (recovery_thread_pool m) (ended t (set_worker i Top (recovery_thread_pool m)))) as Hp by (apply (is_work _ _ _ i), ws_ended; done).
    destruct (inner_step_weight _ _ Hp Hl) as (W & _). cbn [with_pool recovery_thread_pool objs]. lia.
Qed.

Lemma task_run_weight k m m' :
  nsteps (task_step false) k m m' -> manager_ok m -> (k + manager_weight m' <= manager_weight m)%nat /\ manager_ok m' /\ id_seed m' = id_seed m.
Proof.
  induction 1 as [m|k m1 m2 m3 Hs _ IH]; intros H; [done|]. destruct (task_step_weight _ _ Hs (mo_live _ H)) as [W S].
  destruct (IH (task_step_ok _ _ _ Hs H)) as (W3 & O3 & S3). splits; [lia|done|congruence].
Qed.

(** when no thread goes on, none of the pool does *)
Lemma quiet_manager m : manager_ok m -> (forall m2, ~ task_step false m m2) -> forall p, ~ inner_step false (recovery_thread_pool m) p.
Proof.
  intros H Hq p Hp. destruct (inner_step_cases _ _ _ Hp) as ([Hd|(i & t & Hi & ->)] & _); [by eapply Hq, bg_pool|].
  assert (t < length (objs m))%nat as Hlt by (apply (places_known m t H), elem_of_app; left; by eapply task_exec_elem).
  apply lookup_lt_is_Some in Hlt as [o Ho]. destruct (bt_status o) eqn:Es.
  - by eapply Hq, bg_begin.
  - by eapply Hq, (bg_finish _ _ _ _ _ 0).
  - eapply Hq, bg_return; [done|done|by rewrite Es].
  - eapply Hq, bg_return; [done|done|by rewrite Es].
Qed.

Lemma query_known m id :
  manager_ok m -> 1 <= id <= id_seed m ->
  exists o, objs m !! Z.to_nat (id - 1) = Some o /\ obj_ok o /\ handle_query_task id m = Done (mkTaskReply 0 id (Some (bt_status o)), m).
Proof.
  intros H Hid. rewrite (mo_seed _ H) in Hid. destruct (lookup_lt_is_Some_2 (objs m) (Z.to_nat (id - 1))) as [o Ho]; [lia|].
  destruct (mo_objs _ H _ _ Ho) as [Hb Hok]. exists o. splits; [done|done|]. unfold handle_query_task.
  rewrite (proj2 (mo_map _ H id (Z.to_nat (id - 1)))) by lia. cbn. rewrite Ho. cbn. rewrite Hb. do 3 f_equal. lia.
Qed.

(** What a query tells is true in every state: of a task that waits in the
    queue that it waits, of one that has ended how it ended, and a running
    task is on the thread of the pool. *)
Theorem query_tells spurious m id :
  rtc (bg_step spurious) manager_new m -> 1 <= id <= id_seed m ->
  exists s, handle_query_task id m = Done (mkTaskReply 0 id (Some s), m)
    /\ (Z.to_nat (id - 1) ∈ tp_tasks (recovery_thread_pool m) -> s = WAITING)
    /\ (Z.to_nat (id - 1) ∈ tp_done (recovery_thread_pool m) -> final s = true)
    /\ (s = RUNNING -> tp_pool (recovery_thread_pool m) = [Exec (Z.to_nat (id - 1))]).
Proof.
  intros Hr Hid. pose proof (bg_reach_ok _ _ Hr) as H. destruct (query_known m id H Hid) as (o & Ho & Hok & Hq). exists (bt_status o).
  splits; [done|by apply (mo_waiting _ H)|by apply (mo_done _ H)|]. intros Hs.
  assert (Z.to_nat (id - 1) < length (objs m))%nat as Hlt by (by eapply lookup_lt_Some). rewrite <- (places_known m _ H), !elem_of_app in Hlt.
  destruct Hlt as [Hx|[Hx|Hx]]; [|by apply (mo_done _ H _ _ Ho) in Hx; rewrite Hs in Hx|by apply (mo_waiting _ H _ _ Ho) in Hx; rewrite Hs in Hx].
  apply list_elem_of_omap in Hx as (w & Hw & Ew). destruct w; try done. cbn in Ew. injection Ew as ->.
  pose proof (pk_len _ _ (mo_pool _ H)) as Hl. destruct (tp_pool (recovery_thread_pool m)) as [|w [|]]; try done. by apply list_elem_of_singleton in Hw as <-.
Qed.


Module BgDemo.
(** a recovery that fails with EIO *)
Definition at_pool (w : worker nat) (lock : option nat) (tasks : list nat) (notify : nat) (started done_ : list nat) (o : BackgroundTask)
    : BackgroundTaskManager :=
  mkManager 1 {[1 := Some 0%nat]} [o] (mkTPool [w] tasks lock false notify DNone [0%nat] started done_).

Definition waiting : BackgroundTask := mkBgTask 1 WAITING None.
Definition failed : BackgroundTask := mkBgTask 1 FAILED (Some (- EIO)).
Definition m1 : BackgroundTaskManager := at_pool Top None [0%nat] 1 [] [] waiting.
Definition m2 : BackgroundTaskManager := at_pool Blocked None [] 0 [0%nat] [0%nat] failed.

Lemma started : rtc (bg_step false) manager_new m1.
Proof. apply rtc_once. apply (bs_recover _ _ _ true (mkTaskReply 0 1 (Some WAITING))); reflexivity. Qed.

Ltac pool_step m w :=
  match goal with |- nsteps _ _ ?m0 _ => eapply (nsteps_l _ _ _ m); [refine (bg_pool false m0 (recovery_thread_pool m) _ _); [w|reflexivity]|] end.

Lemma bg_runs : nsteps (task_step false) 9 m1 m2.
Proof.
  pool_step (at_pool Top None [0%nat] 0 [] [] waiting) ltac:(apply is_notify, nt_none; [cbn; lia|intros Hx; cbn in Hx; by apply list_elem_of_singleton in Hx]).
  pool_step (at_pool Locking None [0%nat] 0 [] [] waiting) ltac:(apply (is_work _ _ _ 0%nat), (ws_top false 0 (recovery_thread_pool (at_pool Top None [0%nat] 0 [] [] waiting))); reflexivity).
  pool_step (at_pool (Exec 0%nat) None [] 0 [0%nat] [] waiting) ltac:(apply (is_work _ _ _ 0%nat), (ws_section false 0 (recovery_thread_pool (at_pool Locking None [0%nat] 0 [] [] waiting))); reflexivity).
  eapply nsteps_l; [eapply (bg_begin _ _ 0%nat 0%nat); reflexivity|].
  eapply nsteps_l; [eapply (bg_finish _ _ 0%nat 0%nat _ (- EIO)); reflexivity|].
  eapply nsteps_l; [eapply (bg_return _ _ 0%nat 0%nat); reflexivity|].
  pool_step (at_pool Locking None [] 0 [0%nat] [0%nat] failed) ltac:(apply (is_work _ _ _ 0%nat), (ws_top false 0 (recovery_thread_pool (at_pool Top None [] 0 [0%nat] [0%nat] failed))); reflexivity).
  pool_step (at_pool Checked (Some 0%nat) [] 0 [0%nat] [0%nat] failed) ltac:(apply (is_work _ _ _ 0%nat), (ws_section false 0 (recovery_thread_pool (at_pool Locking None [] 0 [0%nat] [0%nat] failed))); reflexivity).
  pool_step m2 ltac:(apply (is_work _ _ _ 0%nat), (ws_block false 0 (recovery_thread_pool (at_pool Checked (Some 0%nat) [] 0 [0%nat] [0%nat] failed))); reflexivity).
  constructor.
Qed.

Lemma quiet m : ~ task_step false m2 m.
Proof.
  intros Hs. destruct Hs as [p Hp Hd|i t o Hi _ _|i t o rc Hi _ _|i t o Hi _ _]; try (by destruct i).
  destruct Hp as [i Hw|Hn]; [inversion Hw; subst; try done; by destruct i|]. inversion Hn; subst; cbn in *; lia.
Qed.
End BgDemo.

