(* ===== verification/Scrub.v ===== *)
(** * Scrubbing an object

    Model of Scrub::cal_object and calc_block_md5 (src/pfs/src/pf_scrub.cpp)
    and of the REST handler that calls them.  The thread of the store looks
    up the snapshots of a block and their objects; the caller then reads each
    object and writes its MD5 as hexadecimal digits into an array on the
    stack.  The digest is one of the library isa-l_crypto, an argument. *)

From Stdlib Require Import ZArith Lia.
From stdpp Require Import base tactics list numbers gmap.
From S2P Require Import Prelude FixedQueue Ids Lmt Store Recovery.

Definition PARALLEL_NUM : Z := 8.
Definition MD5_DIGEST_NWORDS : nat := 4.   (* of isa-l_crypto *)

(** [sizeof(result_digest)], four words of 32 bits *)
Definition digest_size : Z := 4 * Z.of_nat MD5_DIGEST_NWORDS.

Definition hex_digit (x : Z) : Z := if x <? 10 then 48 + x else 87 + x.

(** [htobe32] *)
Definition htobe32 (w : Z) : Z :=
  Z.lor (Z.lor (Z.shiftl (Z.land w 255) 24) (Z.shiftl (Z.land (Z.shiftr w 8) 255) 16))
    (Z.lor (Z.shiftl (Z.land (Z.shiftr w 16) 255) 8) (Z.land (Z.shiftr w 24) 255)).

(** [sprintf("%08x")] with the zero behind it *)
Definition hex8 (w : Z) : list Z := ((fun k => hex_digit (Z.land (Z.shiftr w (4 * (7 - Z.of_nat k))) 15)) <$> seq 0 8) ++ [0].

Fixpoint put_chars (i : Z) (l : list Z) (a : list Z) : option (list Z) :=
  match l with
  | [] => Some a
  | c :: l => match arr_set a i c with Some a => put_chars (i + 1) l a | None => None end
  end.

Fixpoint put_words (i : Z) (l : list Z) (a : list Z) : option (list Z) :=
  match l with
  | [] => Some a
  | w :: l => match put_chars (i * 8) (hex8 (htobe32 w)) a with Some a => put_words (i + 1) l a | None => None end
  end.

Section Scrub.
Variable md5 : Z -> (Z -> Z) -> list Z.   (* of a length and the bytes *)

(** the characters before the first zero *)
Fixpoint c_string (l : list Z) : list Z :=
  match l with
  | [] => []
  | c :: l => if c =? 0 then [] else c :: c_string l
  end.

(** [calc_block_md5]: no string for a failed read *)
Definition calc_block_md5 (off len : Z) (s : store) : outcome (list Z * store) :=
  let '(rc, buf, s) := sync_read off s in
  if negb (rc =? 0) then Done ([], s)
  else
    let rst := replicate (Z.to_nat (digest_size * 2 + 4)) 0 in
    let* rst := of_option (put_words 0 (take MD5_DIGEST_NWORDS (md5 len buf)) rst) in
    let* rst := of_option (arr_set rst (digest_size * PARALLEL_NUM * 2) 0) in
    Done (c_string rst, s).

(** the lookup on the thread of the store *)
Definition find_snaps (key : lmt_key) (s : store) : Z * list (Z * Z) :=
  match obj_lmt s !! key with
  | None | Some [] => (- ENOENT, [])
  | Some (e :: c) =>
      if negb (bool_decide (status e = NORMAL)) then (- EINVAL, [])
      else if (256 <? Z.of_nat (length (e :: c))) then (- EINVAL, [])
      else (0, (fun x => (snap_seq x, offset x)) <$> e :: c)
  end.

Fixpoint md5_snaps (l : list (Z * Z)) (len : Z) (acc : list (Z * list Z)) (s : store) : outcome (Z * list (Z * list Z) * store) :=
  match l with
  | [] => Done (0, acc, s)
  | (seq, off) :: l =>
      let* (md, s) := calc_block_md5 off len s in
      match md with
      | [] => Done (- EINVAL, acc, s)
      | _ => md5_snaps l len (acc ++ [(seq, md)]) s
      end
  end.

Definition scrub_key (rep_id obj_idx : Z) (s : store) : lmt_key :=
  mkKey (VOLUME_ID rep_id) (Z.quot (obj_idx * objsize (head s) + SHARD_INDEX rep_id * SHARD_SIZE) LBA_LENGTH).

Definition cal_object (rep_id obj_idx : Z) (s : store) : outcome (Z * list (Z * list Z) * store) :=
  let (rc, l) := find_snaps (scrub_key rep_id obj_idx s) s in
  if negb (rc =? 0) then Done (rc, [], s) else md5_snaps l (objsize (head s)) [] s.

(** the code of the reply of [handle_cal_object_md5]; a block without an
    object is a success *)
Definition handle_cal_object_md5 (disk : option store) (rep_id obj_idx : Z) : outcome (Z * list (Z * list Z)) :=
  match disk with
  | None => Done (- ENOENT, [])
  | Some s => let* (r, _) := cal_object rep_id obj_idx s in Done ((if fst r =? - ENOENT then 0 else fst r), snd r)
  end.

(** ** The array is too short *)
Lemma put_chars_length l : forall i a a', put_chars i l a = Some a' -> length a' = length a.
Proof.
  induction l as [|c l IH]; intros i a a' H; cbn in H; [by injection H as ->|]. destruct (arr_set a i c) as [b|] eqn:Eb; [|done].
  rewrite (IH _ _ _ H). unfold arr_set in Eb. destruct (decide _); [|done]. injection Eb as <-. apply length_insert.
Qed.

Lemma put_words_length l : forall i a a', put_words i l a = Some a' -> length a' = length a.
Proof.
  induction l as [|w l IH]; intros i a a' H; cbn [put_words] in H; [by injection H as ->|].
  destruct (put_chars (i * 8) (hex8 (htobe32 w)) a) as [b|] eqn:Eb; [|done]. by rewrite (IH _ _ _ H), (put_chars_length _ _ _ _ Eb).
Qed.

(** [calc_block_md5] ends the array of 36 bytes at index 256 *)
Lemma calc_block_md5_result off len s : exists f s', next_fault s = (f, s') /\ calc_block_md5 off len s = match f with None => Undef | Some e => if e =? 0 then Undef else Done ([], s') end.
Proof.
  unfold calc_block_md5, sync_read. destruct (next_fault s) as [f s'] eqn:Ef. exists f, s'. split; [done|].
  assert (forall l, (let* rst := of_option (put_words 0 l (replicate (Z.to_nat (digest_size * 2 + 4)) 0)) in
                let* rst := of_option (arr_set rst (digest_size * PARALLEL_NUM * 2) 0) in Done (c_string rst, s')) = Undef) as Hu.
  { intros l. destruct (put_words 0 l _) as [a|] eqn:Ea; [|done]. cbn. apply put_words_length in Ea. unfold arr_set.
    rewrite decide_False; [done|]. rewrite Ea, length_replicate. change (digest_size * PARALLEL_NUM * 2) with 256. change (digest_size * 2 + 4) with 36. lia. }
  destruct f as [e|]; [|by apply Hu]. destruct (Z.eqb_spec e 0) as [->|He]; [by apply Hu|].
  destruct (Z.eqb_spec (- e) 0); [lia|done].
Qed.
End Scrub.

(** No scrub of an object delivers a digest: for a block that has objects the
    call fails, or it writes behind the end of an array on the stack.  The
    latter whenever the first read succeeds. *)
Theorem scrub_overflows md5 (rep_id obj_idx : Z) (s : store) (e : lmt_entry) (c : list lmt_entry) :
  obj_lmt s !! scrub_key rep_id obj_idx s = Some (e :: c) ->
  (forall rc l s', cal_object md5 rep_id obj_idx s = Done (rc, l, s') -> rc <> 0 /\ l = [])
  /\ (status e = NORMAL -> (length (e :: c) <= 256)%nat -> fst (next_fault s) = None -> cal_object md5 rep_id obj_idx s = Undef).
Proof.
  intros Hk. unfold cal_object, find_snaps. rewrite Hk.
  case_bool_decide as Hn; cbn [negb]; [|split; [by intros rc l s' [= <- <- <-]|done]].
  destruct (Z.ltb_spec 256 (Z.of_nat (length (e :: c)))) as [Hl|Hl]; [split; [by intros rc l s' [= <- <- <-]|lia]|].
  cbn [negb Z.eqb fmap list_fmap md5_snaps]. destruct (calc_block_md5_result md5 (offset e) (objsize (head s)) s) as (f & s' & Ef & ->). rewrite Ef.
  split; [|intros _ _ Hf; cbn [fst] in Hf; by subst f]. intros rc l s1. destruct f as [x|]; [|done]. destruct (x =? 0); [done|]. by intros [= <- <- <-].
Qed.
