(* ===== verification/DList.v ===== *)
(** * Intrusive doubly linked lists

    Model of src/common/src/pf_list.cpp: circular lists whose entries point to
    their neighbours and to the head of the list they are in.  The heap has
    the entries and the heads by address; address 0 is NULL.  Every function
    exists with and without the lock of the head ([_ulc]); the lists are
    changed under the lock, so both are the same function here.  Only the
    tests of the arguments come before the lock: what a second deletion does
    that passes them at the same time is the theorem [raced_del].

    The theorem is that the pointers implement lists: a heap in order has for
    every head a list of addresses, and every operation changes these lists
    as its name says. *)

From Stdlib Require Import ZArith Lia.
From stdpp Require Import base tactics list numbers gmap.
From S2P Require Import Prelude.

Definition LIST_POISON1 : Z := 0x00100100.
Definition LIST_POISON2 : Z := 0x00200200.
Definition ApiSuccess : Z := 0.
Definition ApiFailed : Z := - EINVAL.

Record pf_dlist_entry : Type := mkDe { de_prev : Z; de_next : Z; de_head : Z }.
Record pf_dlist_head : Type := mkDh { dh_list : Z; dh_count : Z }.
Record dheap : Type := mkDheap { entries : gmap Z pf_dlist_entry; heads : gmap Z pf_dlist_head }.

(** ** Accesses of the heap *)
Definition entry_at (a : Z) (h : dheap) : outcome pf_dlist_entry := of_option (entries h !! a).
Definition head_at (k : Z) (h : dheap) : outcome pf_dlist_head := of_option (heads h !! k).

Definition put_entry (a : Z) (e : pf_dlist_entry) (h : dheap) : dheap := mkDheap (<[a := e]> (entries h)) (heads h).
Definition put_head (k : Z) (x : pf_dlist_head) (h : dheap) : dheap := mkDheap (entries h) (<[k := x]> (heads h)).

Definition set_prev (a p : Z) (h : dheap) : outcome dheap := let* e := entry_at a h in Done (put_entry a (mkDe p (de_next e) (de_head e)) h).
Definition set_next (a n : Z) (h : dheap) : outcome dheap := let* e := entry_at a h in Done (put_entry a (mkDe (de_prev e) n (de_head e)) h).
Definition set_owner (a k : Z) (h : dheap) : outcome dheap := let* e := entry_at a h in Done (put_entry a (mkDe (de_prev e) (de_next e) k) h).
Definition set_list (k a : Z) (h : dheap) : outcome dheap := let* x := head_at k h in Done (put_head k (mkDh a (dh_count x)) h).
Definition add_count (k d : Z) (h : dheap) : outcome dheap := let* x := head_at k h in Done (put_head k (mkDh (dh_list x) (dh_count x + d)) h).

(** ** The operations *)
Definition list_add (new_entry prev next : Z) (h : dheap) : outcome dheap :=
  let* h := set_prev next new_entry h in
  let* h := set_next new_entry next h in
  let* h := set_prev new_entry prev h in
  set_next prev new_entry h.

Definition list_del (entry : Z) (h : dheap) : outcome dheap :=
  let* e := entry_at entry h in
  let* h :=
    (if de_next e =? entry then set_list (de_head e) 0 h
     else
       let* x := head_at (de_head e) h in
       let* h := (if dh_list x =? entry then set_list (de_head e) (de_next e) h else Done h) in
       let* h := set_prev (de_next e) (de_prev e) h in
       set_next (de_prev e) (de_next e) h) in
  let* h := set_next entry LIST_POISON1 h in
  let* h := set_prev entry LIST_POISON2 h in
  let* h := add_count (de_head e) (-1) h in
  set_owner entry 0 h.

Definition list_push (new_entry head : Z) (h : dheap) : outcome dheap :=
  let* x := head_at head h in
  let* h :=
    (if dh_list x =? 0 then let* h := set_next new_entry new_entry h in set_prev new_entry new_entry h
     else let* f := entry_at (dh_list x) h in list_add new_entry (de_prev f) (dh_list x) h) in
  let* h := add_count head 1 h in
  let* h := set_list head new_entry h in
  set_owner new_entry head h.

Definition list_push_tail (new_entry head : Z) (h : dheap) : outcome dheap :=
  let* x := head_at head h in
  let* h :=
    (if dh_list x =? 0 then
       let* h := set_next new_entry new_entry h in
       let* h := set_prev new_entry new_entry h in
       set_list head new_entry h
     else let* f := entry_at (dh_list x) h in list_add new_entry (de_prev f) (dh_list x) h) in
  let* h := add_count head 1 h in
  set_owner new_entry head h.

Definition s5list_init_head (head : Z) (h : dheap) : Z * dheap :=
  if negb (head =? 0) then (ApiSuccess, put_head head (mkDh 0 0) h) else (ApiFailed, h).

(** the test of the arguments that the functions that push have in common *)
Definition pushing (push : Z -> Z -> dheap -> outcome dheap) (new_entry head : Z) (h : dheap) : outcome (Z * dheap) :=
  if (new_entry =? 0) || (head =? 0) then Done (ApiFailed, h)
  else
    let* e := entry_at new_entry h in
    if negb (de_head e =? 0) then Done (ApiFailed, h)
    else let* h := push new_entry head h in Done (ApiSuccess, h).

Definition s5list_push (new_entry head : Z) (h : dheap) : outcome (Z * dheap) := pushing list_push new_entry head h.
Definition s5list_pushtail (new_entry head : Z) (h : dheap) : outcome (Z * dheap) := pushing list_push_tail new_entry head h.

Definition inserting (before : bool) (entry new_entry head : Z) (h : dheap) : outcome (Z * dheap) :=
  if (head =? 0) || (entry =? 0) || (new_entry =? 0) then Done (ApiFailed, h)
  else
    let* e := entry_at entry h in
    if negb (de_head e =? head) then Done (ApiFailed, h)
    else
      let* h := (if before then list_add new_entry (de_prev e) entry h else list_add new_entry entry (de_next e) h) in
      let* h := add_count head 1 h in
      let* h := set_owner new_entry head h in
      Done (ApiSuccess, h).

Definition s5list_insert_before (entry new_entry head : Z) (h : dheap) : outcome (Z * dheap) := inserting true entry new_entry head h.
Definition s5list_insert_after (entry new_entry head : Z) (h : dheap) : outcome (Z * dheap) := inserting false entry new_entry head h.

Definition s5list_next_ulc (head entry : Z) (h : dheap) : outcome Z :=
  if head =? 0 then Done 0
  else
    let* x := head_at head h in
    if dh_list x =? 0 then Done 0
    else if entry =? 0 then Done (dh_list x)
    else
      let* e := entry_at entry h in
      if (de_head e =? 0) || negb (de_head e =? head) then Done 0 else Done (de_next e).

Definition s5list_next_tail_ulc (head entry : Z) (h : dheap) : outcome Z :=
  if head =? 0 then Done 0
  else
    let* x := head_at head h in
    if dh_list x =? 0 then Done 0
    else if entry =? 0 then let* f := entry_at (dh_list x) h in Done (de_prev f)
    else
      let* e := entry_at entry h in
      if (de_head e =? 0) || negb (de_head e =? head) then Done 0 else Done (de_prev e).

Definition s5list_del_withh (head entry : Z) (h : dheap) : outcome (Z * dheap) :=
  if (entry =? 0) || (head =? 0) then Done (ApiFailed, h)
  else
    let* e := entry_at entry h in
    if negb (de_head e =? head) then Done (ApiFailed, h)
    else let* h := list_del entry h in Done (ApiSuccess, h).

Definition s5list_del (entry : Z) (h : dheap) : outcome (Z * dheap) :=
  if entry =? 0 then Done (ApiFailed, h)
  else
    let* e := entry_at entry h in
    if de_head e =? 0 then Done (ApiFailed, h)
    else let* h := list_del entry h in Done (ApiSuccess, h).

Definition s5list_pop (head : Z) (h : dheap) : outcome (Z * dheap) :=
  if head =? 0 then Done (0, h)
  else
    let* x := head_at head h in
    if dh_list x =? 0 then Done (0, h) else let* h := list_del (dh_list x) h in Done (dh_list x, h).

Definition s5list_poptail (head : Z) (h : dheap) : outcome (Z * dheap) :=
  let* a := s5list_next_tail_ulc head 0 h in
  if a =? 0 then Done (0, h) else let* h := list_del a h in Done (a, h).

(** [while (s5list_pop_ulc(head));] with a bound on the rounds *)
Fixpoint pop_all (fuel : nat) (head : Z) (h : dheap) : outcome dheap :=
  match fuel with
  | O => Undef
  | S n => let* (a, h) := s5list_pop head h in if a =? 0 then Done h else pop_all n head h
  end.

Definition s5list_clear (head : Z) (h : dheap) : outcome (Z * dheap) :=
  if head =? 0 then Done (ApiFailed, h)
  else let* h := pop_all (S (size (entries h))) head h in Done (ApiSuccess, h).

(** the functions without the lock *)
Definition s5list_push_ulc (new_entry head : Z) (h : dheap) : outcome (Z * dheap) := pushing list_push new_entry head h.
Definition s5list_pushtail_ulc (new_entry head : Z) (h : dheap) : outcome (Z * dheap) := pushing list_push_tail new_entry head h.
Definition s5list_insert_before_ulc (entry new_entry head : Z) (h : dheap) : outcome (Z * dheap) := inserting true entry new_entry head h.
Definition s5list_insert_after_ulc (entry new_entry head : Z) (h : dheap) : outcome (Z * dheap) := inserting false entry new_entry head h.
Definition s5list_del_withh_ulc : Z -> Z -> dheap -> outcome (Z * dheap) := s5list_del_withh.
Definition s5list_del_ulc : Z -> dheap -> outcome (Z * dheap) := s5list_del.
Definition s5list_pop_ulc : Z -> dheap -> outcome (Z * dheap) := s5list_pop.
Definition s5list_poptail_ulc : Z -> dheap -> outcome (Z * dheap) := s5list_poptail.
Definition s5list_clear_ulc : Z -> dheap -> outcome (Z * dheap) := s5list_clear.

(** [S5LIST_FOR_EACH]: the entries the loop goes over *)
Fixpoint for_each_from (count : nat) (pos : Z) (h : dheap) : outcome (list Z) :=
  match count with
  | O => Done []
  | S n =>
      if pos =? 0 then Done []
      else let* e := entry_at pos h in let* l := for_each_from n (de_next e) h in Done (pos :: l)
  end.

Definition S5LIST_FOR_EACH (head : Z) (h : dheap) : outcome (list Z) :=
  let* x := head_at head h in for_each_from (Z.to_nat (dh_count x)) (dh_list x) h.

(** ** Paths *)
Section Path.
Variables nx pv : Z -> Z.

(** from [a] through [l] to [b], in both directions *)
Fixpoint path (a : Z) (l : list Z) (b : Z) : Prop :=
  match l with
  | [] => nx a = b /\ pv b = a
  | c :: l => nx a = c /\ pv c = a /\ path c l b
  end.

Definition ring (l : list Z) : Prop := match l with [] => True | a :: l => path a l a end.

Lemma path_app a l1 c l2 b : path a (l1 ++ c :: l2) b <-> path a l1 c /\ path c l2 b.
Proof. revert a. induction l1 as [|d l1 IH]; intros a; cbn; [tauto|]. rewrite IH. tauto. Qed.

Lemma ring_rotate l1 l2 : ring (l1 ++ l2) <-> ring (l2 ++ l1).
Proof.
  destruct l1 as [|a l1], l2 as [|b l2]; cbn; rewrite ?app_nil_r; try tauto. rewrite !path_app. tauto.
Qed.
End Path.

(** paths look only at some of the pointers *)
Lemma path_frame nx pv nx' pv' a l b :
  (forall x, x ∈ a :: l -> nx' x = nx x) -> (forall x, x ∈ l ++ [b] -> pv' x = pv x) -> path nx pv a l b -> path nx' pv' a l b.
Proof.
  revert a. induction l as [|c l IH]; intros a Hn Hp; cbn.
  - intros [H1 H2]. by rewrite Hn, Hp by left.
  - intros (H1 & H2 & H). splits; [by rewrite Hn by left|by rewrite Hp by left|].
    apply IH; [intros x Hx; apply Hn; by right|intros x Hx; apply Hp; by right|done].
Qed.

(** an entry put before the first one, that is behind the last one *)
Definition upd (f : Z -> Z) (a v : Z) (x : Z) : Z := if decide (x = a) then v else f x.

Lemma upd_eq f a v : upd f a v a = v.
Proof. unfold upd. by rewrite decide_True. Qed.
Lemma upd_ne f a v x : x <> a -> upd f a v x = f x.
Proof. intros. unfold upd. by rewrite decide_False. Qed.

Lemma ring_last nx pv e r : ring nx pv (e :: r) -> pv e = List.last (e :: r) 0.
Proof.
  intros Hr. cbn [ring] in Hr. destruct (list_eq_nil_dec r) as [->|Hn]; [by destruct Hr|].
  destruct (exists_last Hn) as (r' & q & ->). apply path_app in Hr as [_ [_ Hq]]. rewrite Hq.
  change (e :: r' ++ [q]) with ((e :: r') ++ [q]). by rewrite List.last_last.
Qed.

Lemma ring_add nx pv e r n :
  ring nx pv (e :: r) -> NoDup (e :: r) -> n ∉ e :: r ->
  ring (upd (upd nx n e) (pv e) n) (upd (upd pv e n) n (pv e)) (e :: r ++ [n]).
Proof.
  intros Hr Hd Hn. cbn [ring] in *. rewrite path_app. apply NoDup_cons in Hd as [Her Hd]. apply not_elem_of_cons in Hn as [Hne Hnr].
  destruct (list_eq_nil_dec r) as [->|Hnil].
  - destruct Hr as [H1 H2]. rewrite H2. cbn. rewrite !upd_eq, !(upd_ne _ n _ e), !upd_eq, !(upd_ne _ e _ n), upd_eq by congruence. done.
  - destruct (exists_last Hnil) as (r' & q & ->). apply path_app in Hr as [Hp [Hq1 Hq2]]. rewrite Hq2.
    apply NoDup_app in Hd as (Hd & Hqr & _). rewrite elem_of_app, list_elem_of_singleton in Her, Hnr.
    assert (q ∉ r') as Hq by (intros Hx; apply (Hqr q Hx); by left).
    rewrite path_app. cbn. rewrite !upd_eq, !(upd_ne _ n _ e), !upd_eq, !(upd_ne _ q _ n), !upd_eq by intuition congruence. splits; [|done..].
    eapply path_frame, Hp; intros x Hx.
    + rewrite !upd_ne; [done| |]; apply elem_of_cons in Hx as [->|Hx]; intros ->; intuition.
    + rewrite !upd_ne; [done| |]; apply elem_of_app in Hx as [Hx|Hx%list_elem_of_singleton]; intros ->; subst; intuition.
Qed.

(** taking the first entry out *)
Lemma ring_del nx pv e r :
  ring nx pv (e :: r) -> NoDup (e :: r) -> r <> [] ->
  ring (upd nx (pv e) (nx e)) (upd pv (nx e) (pv e)) r.
Proof.
  intros Hr Hd Hnil. apply NoDup_cons in Hd as [Her Hd]. destruct r as [|f m]; [done|]. destruct Hr as (Hf & Hf' & Hr). cbn [ring]. rewrite Hf.
  destruct (list_eq_nil_dec m) as [->|Hm].
  - destruct Hr as [H1 H2]. rewrite H2. cbn. by rewrite !upd_eq.
  - destruct (exists_last Hm) as (m' & q & ->). apply path_app in Hr as [Hp [Hq1 Hq2]]. rewrite Hq2.
    apply NoDup_cons in Hd as [Hfm Hd]. apply NoDup_app in Hd as (Hd & Hqr & _). rewrite elem_of_app, list_elem_of_singleton in Hfm.
    assert (q ∉ m') as Hq by (intros Hx; apply (Hqr q Hx); by left).
    rewrite path_app. cbn. rewrite !upd_eq. splits; [|done..].
    eapply path_frame, Hp; intros x Hx.
    + rewrite !upd_ne; [done|]; apply elem_of_cons in Hx as [->|Hx]; intros ->; intuition.
    + rewrite !upd_ne; [done|]; apply elem_of_app in Hx as [Hx|Hx%list_elem_of_singleton]; intros ->; subst; intuition.
Qed.

(** rings of other entries do not notice *)
Lemma ring_frame nx pv nx' pv' l : (forall x, x ∈ l -> nx' x = nx x /\ pv' x = pv x) -> ring nx pv l -> ring nx' pv' l.
Proof.
  intros Hx. destruct l as [|a l]; [done|]. cbn. apply path_frame; intros x Hin; apply Hx; [done|].
  apply elem_of_app in Hin as [?|?%list_elem_of_singleton]; [by right|subst; by left].
Qed.

(** ** The heap as functions *)
Section Shape.
Variable E : gset Z.

Definition shape (nx pv ow : Z -> Z) (hs : gmap Z pf_dlist_head) (h : dheap) : Prop :=
  heads h = hs /\ forall x, entries h !! x = if decide (x ∈ E) then Some (mkDe (pv x) (nx x) (ow x)) else None.

Lemma shape_get nx pv ow hs h a : shape nx pv ow hs h -> a ∈ E -> entry_at a h = Done (mkDe (pv a) (nx a) (ow a)).
Proof. intros [_ He] Ha. unfold entry_at. by rewrite He, decide_True. Qed.

Lemma shape_head nx pv ow hs h k x : shape nx pv ow hs h -> hs !! k = Some x -> head_at k h = Done x.
Proof. intros [<- _] Hk. unfold head_at. by rewrite Hk. Qed.

Lemma shape_put nx pv ow hs h a e nx' pv' ow' :
  shape nx pv ow hs h -> a ∈ E -> e = mkDe (pv' a) (nx' a) (ow' a) ->
  (forall x, x <> a -> pv' x = pv x /\ nx' x = nx x /\ ow' x = ow x) -> shape nx' pv' ow' hs (put_entry a e h).
Proof.
  intros [Hh He] Ha -> Ho. split; [done|]. intros x. cbn. destruct (decide (x = a)) as [->|Hx].
  - by rewrite lookup_insert_eq, decide_True.
  - rewrite lookup_insert_ne, He by congruence. destruct (Ho x Hx) as (-> & -> & ->). done.
Qed.

Lemma set_prev_shape nx pv ow hs h a p :
  shape nx pv ow hs h -> a ∈ E -> exists h', set_prev a p h = Done h' /\ shape nx (upd pv a p) ow hs h'.
Proof.
  intros Hs Ha. unfold set_prev. rewrite (shape_get _ _ _ _ _ _ Hs Ha). eexists. split; [reflexivity|].
  eapply shape_put; [done|done|by rewrite upd_eq|]. intros x Hx. by rewrite upd_ne.
Qed.

Lemma set_next_shape nx pv ow hs h a n :
  shape nx pv ow hs h -> a ∈ E -> exists h', set_next a n h = Done h' /\ shape (upd nx a n) pv ow hs h'.
Proof.
  intros Hs Ha. unfold set_next. rewrite (shape_get _ _ _ _ _ _ Hs Ha). eexists. split; [reflexivity|].
  eapply shape_put; [done|done|by rewrite upd_eq|]. intros x Hx. by rewrite upd_ne.
Qed.

Lemma set_owner_shape nx pv ow hs h a k :
  shape nx pv ow hs h -> a ∈ E -> exists h', set_owner a k h = Done h' /\ shape nx pv (upd ow a k) hs h'.
Proof.
  intros Hs Ha. unfold set_owner. rewrite (shape_get _ _ _ _ _ _ Hs Ha). eexists. split; [reflexivity|].
  eapply shape_put; [done|done|by rewrite upd_eq|]. intros x Hx. by rewrite upd_ne.
Qed.

Lemma put_head_shape nx pv ow hs h k x : shape nx pv ow hs h -> shape nx pv ow (<[k := x]> hs) (put_head k x h).
Proof. intros [<- He]. by split. Qed.

Lemma set_list_shape nx pv ow hs h k x a :
  shape nx pv ow hs h -> hs !! k = Some x -> exists h', set_list k a h = Done h' /\ shape nx pv ow (<[k := mkDh a (dh_count x)]> hs) h'.
Proof. intros Hs Hk. unfold set_list. rewrite (shape_head _ _ _ _ _ _ _ Hs Hk). eexists. split; [reflexivity|by apply put_head_shape]. Qed.

Lemma add_count_shape nx pv ow hs h k x d :
  shape nx pv ow hs h -> hs !! k = Some x -> exists h', add_count k d h = Done h' /\ shape nx pv ow (<[k := mkDh (dh_list x) (dh_count x + d)]> hs) h'.
Proof. intros Hs Hk. unfold add_count. rewrite (shape_head _ _ _ _ _ _ _ Hs Hk). eexists. split; [reflexivity|by apply put_head_shape]. Qed.

Lemma list_add_shape nx pv ow hs h n p q :
  shape nx pv ow hs h -> n ∈ E -> p ∈ E -> q ∈ E ->
  exists h', list_add n p q h = Done h' /\ shape (upd (upd nx n q) p n) (upd (upd pv q n) n p) ow hs h'.
Proof.
  intros Hs Hn Hp Hq. unfold list_add. destruct (set_prev_shape _ _ _ _ _ q n Hs Hq) as (h1 & -> & H1). cbn [obind].
  destruct (set_next_shape _ _ _ _ _ n q H1 Hn) as (h2 & -> & H2). cbn [obind].
  destruct (set_prev_shape _ _ _ _ _ n p H2 Hn) as (h3 & -> & H3). cbn [obind]. by apply set_next_shape.
Qed.

(** ** The invariant: [L] are the lists *)
Definition head_of (l : list Z) : pf_dlist_head := mkDh (List.hd 0 l) (Z.of_nat (length l)).

Record lists_inv (nx pv ow : Z -> Z) (hs : gmap Z pf_dlist_head) (L : gmap Z (list Z)) : Prop := mkListsInv {
  li_null : 0 ∉ E;
  li_heads : hs = head_of <$> L;
  li_zero : L !! 0 = None;
  li_ring : forall k l, L !! k = Some l -> ring nx pv l /\ NoDup l;
  li_own : forall k l a, L !! k = Some l -> a ∈ l <-> a ∈ E /\ ow a = k;
  li_free : forall a, a ∈ E -> ow a = 0 \/ is_Some (L !! ow a)
}.

Lemma li_head nx pv ow hs L k l : lists_inv nx pv ow hs L -> L !! k = Some l -> hs !! k = Some (head_of l).
Proof. intros H Hk. by rewrite (li_heads _ _ _ _ _ H), lookup_fmap, Hk. Qed.

Lemma prev_in nx pv e r : ring nx pv (e :: r) -> pv e ∈ e :: r.
Proof. intros Hr. rewrite (ring_last _ _ _ _ Hr). apply list_elem_of_In. destruct (exists_last (l := e :: r) ltac:(done)) as (r' & q & ->). rewrite List.last_last. apply in_or_app. right. by left. Qed.

(** [n] goes into the ring [e :: r] of the list of [k]; [l'] is the new list *)
Lemma added_inv nx pv ow hs L k l l' a b a' b' e r n :
  lists_inv nx pv ow hs L -> L !! k = Some l -> l = a ++ b -> e :: r = b ++ a -> l' = a' ++ b' -> e :: r ++ [n] = b' ++ a' ->
  n ∈ E -> ow n = 0 ->
  lists_inv (upd (upd nx n e) (pv e) n) (upd (upd pv e n) n (pv e)) (upd ow n k) (<[k := head_of l']> hs) (<[k := l']> L).
Proof.
  intros H Hk Hl Hrot Hl' Hrot' Hn Hfree. destruct (li_ring _ _ _ _ _ H k l Hk) as [Hr Hd].
  assert (l ≡ₚ e :: r) as Hp by (by rewrite Hl, Hrot, Permutation_app_comm).
  assert (l' ≡ₚ n :: e :: r) as Hp' by (rewrite Hl', Permutation_app_comm, <- Hrot'; solve_Permutation).
  assert (ring nx pv (e :: r)) as Hre by (by rewrite Hrot, ring_rotate, <- Hl).
  assert (k <> 0) as Hk0 by (intros ->; by rewrite (li_zero _ _ _ _ _ H) in Hk).
  assert (forall k1 l1, L !! k1 = Some l1 -> n ∉ l1) as Hnot.
  { intros k1 l1 H1 Hin. apply (li_own _ _ _ _ _ H k1 l1 n H1) in Hin as [_ Ho]. rewrite Hfree in Ho. subst k1. by rewrite (li_zero _ _ _ _ _ H) in H1. }
  split.
  - apply H.
  - by rewrite (li_heads _ _ _ _ _ H), fmap_insert.
  - rewrite lookup_insert_ne by done. apply H.
  - intros k1 l1. rewrite lookup_insert_Some. intros [[<- <-]|[Hne H1]].
    + split; [|rewrite Hp'; constructor; [rewrite <- Hp; by eapply Hnot|by rewrite <- Hp]].
      rewrite Hl', ring_rotate, <- Hrot'. apply ring_add; [done|by rewrite <- Hp|]. rewrite <- Hp. by eapply Hnot.
    + destruct (li_ring _ _ _ _ _ H k1 l1 H1) as [Hr1 Hd1]. split; [|done]. eapply ring_frame, Hr1. intros x Hx.
      assert (x <> n) by (intros ->; by apply (Hnot k1 l1 H1)).
      assert (x ∉ e :: r) as Hx'. { rewrite <- Hp. intros Hin. apply (li_own _ _ _ _ _ H k l x Hk) in Hin as [_ ?]. apply (li_own _ _ _ _ _ H k1 l1 x H1) in Hx as [_ ?]. congruence. }
      assert (x <> e) by (intros ->; by apply Hx'; left). assert (x <> pv e) by (intros ->; by apply Hx', (prev_in nx pv)).
      by rewrite !upd_ne.
  - intros k1 l1 x. rewrite lookup_insert_Some. intros [[<- <-]|[Hne H1]].
    + rewrite Hp', elem_of_cons, <- Hp, (li_own _ _ _ _ _ H k l x Hk). unfold upd. destruct (decide (x = n)) as [->|]; [tauto|intuition congruence].
    + rewrite (li_own _ _ _ _ _ H k1 l1 x H1). unfold upd. destruct (decide (x = n)) as [->|]; [|tauto]. split; [intros [_ ?]|intros [_ ?]]; [|congruence].
      rewrite Hfree in *. subst k1. by rewrite (li_zero _ _ _ _ _ H) in H1.
  - intros x Hx. unfold upd. destruct (decide (x = n)); [right; by rewrite lookup_insert_eq|].
    destruct (li_free _ _ _ _ _ H x Hx) as [?|?]; [by left|right]. destruct (decide (ow x = k)) as [->|]; [by rewrite lookup_insert_eq|by rewrite lookup_insert_ne].
Qed.

(** the first entry of a list *)
Lemma first_inv nx pv ow hs L k n :
  lists_inv nx pv ow hs L -> L !! k = Some [] -> n ∈ E -> ow n = 0 ->
  lists_inv (upd nx n n) (upd pv n n) (upd ow n k) (<[k := head_of [n]]> hs) (<[k := [n]]> L).
Proof.
  intros H Hk Hn Hfree. assert (k <> 0) as Hk0 by (intros ->; by rewrite (li_zero _ _ _ _ _ H) in Hk).
  split.
  - apply H.
  - by rewrite (li_heads _ _ _ _ _ H), fmap_insert.
  - rewrite lookup_insert_ne by done. apply H.
  - intros k1 l1. rewrite lookup_insert_Some. intros [[<- <-]|[Hne H1]]; [cbn; rewrite !upd_eq; split; [done|by apply NoDup_singleton]|].
    destruct (li_ring _ _ _ _ _ H k1 l1 H1) as [Hr1 Hd1]. split; [|done]. eapply ring_frame, Hr1. intros x Hx.
    assert (x <> n) by (intros ->; apply (li_own _ _ _ _ _ H k1 l1 n H1) in Hx as [_ Hx]; rewrite Hfree in Hx; subst k1; by rewrite (li_zero _ _ _ _ _ H) in H1).
    by rewrite !upd_ne.
  - intros k1 l1 x. rewrite lookup_insert_Some. intros [[<- <-]|[Hne H1]].
    + rewrite list_elem_of_singleton. unfold upd. destruct (decide (x = n)) as [->|]; [tauto|].
      pose proof (li_own _ _ _ _ _ H k [] x Hk) as Hx. rewrite elem_of_nil in Hx. tauto.
    + rewrite (li_own _ _ _ _ _ H k1 l1 x H1). unfold upd. destruct (decide (x = n)) as [->|]; [|tauto]. split; [intros [_ ?]|intros [_ ?]]; [|congruence].
      rewrite Hfree in *. subst k1. by rewrite (li_zero _ _ _ _ _ H) in H1.
  - intros x Hx. unfold upd. destruct (decide (x = n)); [right; by rewrite lookup_insert_eq|].
    destruct (li_free _ _ _ _ _ H x Hx) as [?|?]; [by left|right]. destruct (decide (ow x = k)) as [->|]; [by rewrite lookup_insert_eq|by rewrite lookup_insert_ne].
Qed.

(** [e] leaves the list of [k] *)
Lemma removed_inv nx pv ow hs L k a b e nx' pv' :
  lists_inv nx pv ow hs L -> L !! k = Some (a ++ e :: b) ->
  (forall x, x ∉ a ++ e :: b -> nx' x = nx x /\ pv' x = pv x) -> ring nx' pv' (b ++ a) ->
  lists_inv nx' pv' (upd ow e 0) (<[k := head_of (a ++ b)]> hs) (<[k := a ++ b]> L).
Proof.
  intros H Hk Ho Hr'. destruct (li_ring _ _ _ _ _ H k _ Hk) as [Hr Hd].
  assert (k <> 0) as Hk0 by (intros ->; by rewrite (li_zero _ _ _ _ _ H) in Hk).
  assert (a ++ e :: b ≡ₚ e :: a ++ b) as Hp by solve_Permutation.
  assert (ow e = k) as He by (apply (li_own _ _ _ _ _ H k _ e Hk); rewrite Hp; by left).
  rewrite Hp in Hd. apply NoDup_cons in Hd as [Hne Hd].
  split.
  - apply H.
  - by rewrite (li_heads _ _ _ _ _ H), fmap_insert.
  - rewrite lookup_insert_ne by done. apply H.
  - intros k1 l1. rewrite lookup_insert_Some. intros [[<- <-]|[Hk1 H1]]; [split; [by rewrite ring_rotate|done]|].
    destruct (li_ring _ _ _ _ _ H k1 l1 H1) as [Hr1 Hd1]. split; [|done]. eapply ring_frame, Hr1. intros x Hx. apply Ho.
    intros Hin. apply (li_own _ _ _ _ _ H k _ x Hk) in Hin as [_ ?]. apply (li_own _ _ _ _ _ H k1 l1 x H1) in Hx as [_ ?]. congruence.
  - intros k1 l1 x. rewrite lookup_insert_Some. intros [[<- <-]|[Hk1 H1]].
    + pose proof (li_own _ _ _ _ _ H k _ x Hk) as Hx. rewrite Hp, elem_of_cons in Hx. unfold upd. destruct (decide (x = e)) as [->|]; intuition congruence.
    + rewrite (li_own _ _ _ _ _ H k1 l1 x H1). unfold upd. destruct (decide (x = e)) as [->|]; [|tauto]. split; intros [_ ?]; [congruence|].
      subst k1. by rewrite (li_zero _ _ _ _ _ H) in H1.
  - intros x Hx. unfold upd. destruct (decide (x = e)); [by left|].
    destruct (li_free _ _ _ _ _ H x Hx) as [?|?]; [by left|right]. destruct (decide (ow x = k)) as [->|]; [by rewrite lookup_insert_eq|by rewrite lookup_insert_ne].
Qed.

(** ** Heaps in order *)
Definition lists_ok (h : dheap) (L : gmap Z (list Z)) : Prop :=
  exists nx pv ow hs, shape nx pv ow hs h /\ lists_inv nx pv ow hs L.

(** the head the entry [a] is in, 0 if none *)
Definition in_list (L : gmap Z (list Z)) (k a : Z) : Prop := exists l, L !! k = Some l /\ a ∈ l.
Definition free_entry (L : gmap Z (list Z)) (a : Z) : Prop := a ∈ E /\ forall k, ~ in_list L k a.

Lemma owner_in nx pv ow hs L k a : lists_inv nx pv ow hs L -> a ∈ E -> k <> 0 -> ow a = k <-> in_list L k a.
Proof.
  intros H Ha Hk. split.
  - intros Ho. destruct (li_free _ _ _ _ _ H a Ha) as [?|[l Hl]]; [congruence|]. rewrite Ho in Hl. exists l. split; [done|].
    by apply (li_own _ _ _ _ _ H k l a Hl).
  - intros (l & Hl & Hin). by apply (li_own _ _ _ _ _ H k l a Hl).
Qed.

Lemma owner_free nx pv ow hs L a : lists_inv nx pv ow hs L -> free_entry L a -> a ∈ E /\ ow a = 0.
Proof.
  intros H [Ha Hf]. split; [done|]. destruct (decide (ow a = 0)); [done|]. destruct (Hf (ow a)). by apply (owner_in nx pv ow hs L).
Qed.

Lemma list_not_null nx pv ow hs L k l : lists_inv nx pv ow hs L -> L !! k = Some l -> (List.hd 0 l =? 0) = bool_decide (l = []).
Proof.
  intros H Hk. destruct l as [|a l]; [done|]. cbn [List.hd]. rewrite bool_decide_false by done. apply Z.eqb_neq. intros ->.
  apply (li_null _ _ _ _ _ H). by apply (li_own _ _ _ _ _ H k (0 :: l) 0 Hk); left.
Qed.

Lemma push_ok h L k l n :
  lists_ok h L -> L !! k = Some l -> free_entry L n -> exists h', list_push n k h = Done h' /\ lists_ok h' (<[k := n :: l]> L).
Proof.
  intros (nx & pv & ow & hs & Hs & H) Hk Hf. destruct (owner_free _ _ _ _ _ _ H Hf) as [Hn Ho]. pose proof (li_head _ _ _ _ _ _ _ H Hk) as Hh.
  unfold list_push. rewrite (shape_head _ _ _ _ _ _ _ Hs Hh). cbn [obind head_of dh_list]. rewrite (list_not_null _ _ _ _ _ _ _ H Hk).
  assert (exists h1 nx1 pv1, (if bool_decide (l = []) then let* h := set_next n n h in set_prev n n h
            else let* f := entry_at (List.hd 0 l) h in list_add n (de_prev f) (List.hd 0 l) h) = Done h1
          /\ shape nx1 pv1 ow hs h1 /\ lists_inv nx1 pv1 (upd ow n k) (<[k := head_of (n :: l)]> hs) (<[k := n :: l]> L)) as (h1 & nx1 & pv1 & -> & H1 & I1).
  { destruct l as [|e r].
    - rewrite bool_decide_true by done. destruct (set_next_shape _ _ _ _ _ n n Hs Hn) as (h1 & -> & H1). cbn [obind].
      destruct (set_prev_shape _ _ _ _ _ n n H1 Hn) as (h2 & -> & H2). exists h2. eexists _, _. split; [done|]. split; [exact H2|]. by apply first_inv.
    - rewrite bool_decide_false by done. cbn [List.hd]. destruct (li_ring _ _ _ _ _ H k _ Hk) as [Hr _].
      assert (forall x, x ∈ e :: r -> x ∈ E) as Hin by (intros x Hx; by apply (li_own _ _ _ _ _ H k _ x Hk)).
      rewrite (shape_get _ _ _ _ _ e Hs) by (apply Hin; by left). cbn [obind de_prev].
      destruct (list_add_shape _ _ _ _ _ n (pv e) e Hs Hn) as (h1 & -> & H1); [apply Hin; by eapply prev_in|apply Hin; by left|].
      exists h1. eexists _, _. split; [done|]. split; [exact H1|].
      by eapply (added_inv _ _ _ _ _ k (e :: r) (n :: e :: r) [] (e :: r) [n] (e :: r)); rewrite ?app_nil_r. }
  cbn [obind]. destruct (add_count_shape _ _ _ _ _ _ _ 1 H1 Hh) as (h2 & -> & H2). cbn [obind].
  destruct (set_list_shape _ _ _ _ _ k _ n H2 (lookup_insert_eq _ _ _)) as (h3 & -> & H3). cbn [obind].
  destruct (set_owner_shape _ _ _ _ _ n k H3 Hn) as (h4 & -> & H4). exists h4. split; [done|]. eexists _, _, _, _. split; [exact H4|].
  rewrite insert_insert_eq. cbn [dh_count head_of]. replace (mkDh n (Z.of_nat (length l) + 1)) with (head_of (n :: l)) by (unfold head_of; cbn [List.hd length]; f_equal; lia). done.
Qed.

Lemma push_tail_ok h L k l n :
  lists_ok h L -> L !! k = Some l -> free_entry L n -> exists h', list_push_tail n k h = Done h' /\ lists_ok h' (<[k := l ++ [n]]> L).
Proof.
  intros (nx & pv & ow & hs & Hs & H) Hk Hf. destruct (owner_free _ _ _ _ _ _ H Hf) as [Hn Ho]. pose proof (li_head _ _ _ _ _ _ _ H Hk) as Hh.
  unfold list_push_tail. rewrite (shape_head _ _ _ _ _ _ _ Hs Hh). cbn [obind head_of dh_list]. rewrite (list_not_null _ _ _ _ _ _ _ H Hk).
  assert (exists h1 nx1 pv1, (if bool_decide (l = []) then let* h := set_next n n h in let* h := set_prev n n h in set_list k n h
            else let* f := entry_at (List.hd 0 l) h in list_add n (de_prev f) (List.hd 0 l) h) = Done h1
          /\ shape nx1 pv1 ow (<[k := mkDh (List.hd 0 (l ++ [n])) (Z.of_nat (length l))]> hs) h1
          /\ lists_inv nx1 pv1 (upd ow n k) (<[k := head_of (l ++ [n])]> hs) (<[k := l ++ [n]]> L)) as (h1 & nx1 & pv1 & -> & H1 & I1).
  { destruct l as [|e r].
    - rewrite bool_decide_true by done. destruct (set_next_shape _ _ _ _ _ n n Hs Hn) as (h1 & -> & H1). cbn [obind].
      destruct (set_prev_shape _ _ _ _ _ n n H1 Hn) as (h2 & -> & H2). cbn [obind].
      destruct (set_list_shape _ _ _ _ _ k _ n H2 Hh) as (h3 & -> & H3). exists h3. eexists _, _. split; [done|]. split; [exact H3|]. by apply first_inv.
    - rewrite bool_decide_false by done. cbn [List.hd app]. destruct (li_ring _ _ _ _ _ H k _ Hk) as [Hr _].
      assert (forall x, x ∈ e :: r -> x ∈ E) as Hin by (intros x Hx; by apply (li_own _ _ _ _ _ H k _ x Hk)).
      rewrite (shape_get _ _ _ _ _ e Hs) by (apply Hin; by left). cbn [obind de_prev].
      destruct (list_add_shape _ _ _ _ _ n (pv e) e Hs Hn) as (h1 & -> & H1); [apply Hin; by eapply prev_in|apply Hin; by left|].
      exists h1. eexists _, _. split; [done|]. split; [|by eapply (added_inv _ _ _ _ _ k (e :: r) _ [] (e :: r) [] (e :: r ++ [n])); rewrite ?app_nil_r].
      change (mkDh e (Z.of_nat (length (e :: r)))) with (head_of (e :: r)). by rewrite insert_id. }
  cbn [obind]. destruct (add_count_shape _ _ _ _ _ k _ 1 H1 (lookup_insert_eq _ _ _)) as (h2 & -> & H2). cbn [obind].
  destruct (set_owner_shape _ _ _ _ _ n k H2 Hn) as (h4 & -> & H4). exists h4. split; [done|]. eexists _, _, _, _. split; [exact H4|].
  rewrite insert_insert_eq. cbn [dh_count dh_list].
  replace (mkDh (List.hd 0 (l ++ [n])) (Z.of_nat (length l) + 1)) with (head_of (l ++ [n])) by (unfold head_of; rewrite length_app; cbn [length]; f_equal; lia). done.
Qed.

(** the neighbours of [e] and the head forget it *)
Lemma unlink_ok nx pv ow hs h k a b e :
  shape nx pv ow hs h -> hs !! k = Some (head_of (a ++ e :: b)) -> ring nx pv (e :: b ++ a) -> NoDup (e :: b ++ a) -> (forall x, x ∈ a ++ e :: b -> x ∈ E) ->
  exists h1 nx1 pv1,
    (if nx e =? e then set_list k 0 h
     else let* h := (if dh_list (head_of (a ++ e :: b)) =? e then set_list k (nx e) h else Done h) in let* h := set_prev (nx e) (pv e) h in set_next (pv e) (nx e) h) = Done h1
    /\ shape nx1 pv1 ow (<[k := mkDh (List.hd 0 (a ++ b)) (Z.of_nat (length (a ++ e :: b)))]> hs) h1
    /\ (forall x, x ∉ a ++ e :: b -> nx1 x = nx x /\ pv1 x = pv x) /\ ring nx1 pv1 (b ++ a).
Proof.
  intros Hs Hh Hr Hd Hin. assert (a ++ e :: b ≡ₚ e :: b ++ a) as Hp by solve_Permutation.
  destruct (list_eq_nil_dec (b ++ a)) as [Hnil|Hnil].
  - apply app_eq_nil in Hnil as [-> ->]. destruct Hr as [Hr1 _]. rewrite Hr1, Z.eqb_refl.
    destruct (set_list_shape _ _ _ _ _ k _ 0 Hs Hh) as (h1 & -> & H1). exists h1. eexists _, _. by splits.
  - assert (nx e ∈ b ++ a) as Hnx. { cbn [ring] in Hr. destruct (b ++ a) as [|f m]; [done|]. destruct Hr as (<- & _). by left. }
    apply NoDup_cons in Hd as [Hne Hd]. rewrite (proj2 (Z.eqb_neq _ _)) by (intros Heq; rewrite Heq in Hnx; done).
    pose proof (prev_in nx pv e _ Hr) as Hpv. assert (nx e ∈ E /\ pv e ∈ E) as [HnE HpE] by (split; apply Hin; rewrite Hp; [by right|done]).
    assert (exists h0, (if dh_list (head_of (a ++ e :: b)) =? e then set_list k (nx e) h else Done h) = Done h0
              /\ shape nx pv ow (<[k := mkDh (List.hd 0 (a ++ b)) (Z.of_nat (length (a ++ e :: b)))]> hs) h0) as (h0 & -> & H0).
    { cbn [head_of dh_list]. destruct a as [|x a].
      - cbn [app List.hd]. rewrite Z.eqb_refl. destruct (set_list_shape _ _ _ _ _ k _ (nx e) Hs Hh) as (h0 & -> & H0). exists h0. split; [done|].
        rewrite app_nil_r in Hr, Hnil. destruct b as [|f b]; [done|]. destruct Hr as (Hf & _). by rewrite Hf in *.
      - cbn [app List.hd]. rewrite (proj2 (Z.eqb_neq _ _)); [|intros ->; apply Hne, elem_of_app; right; by left]. exists h. split; [done|].
        change (mkDh x (Z.of_nat (length (x :: a ++ e :: b)))) with (head_of (x :: a ++ e :: b)). by rewrite insert_id. }
    cbn [obind]. destruct (set_prev_shape _ _ _ _ _ (nx e) (pv e) H0 HnE) as (h1 & -> & H1). cbn [obind].
    destruct (set_next_shape _ _ _ _ _ (pv e) (nx e) H1 HpE) as (h2 & -> & H2). exists h2. eexists _, _. split; [done|]. split; [exact H2|]. split.
    + intros x Hx. rewrite Hp in Hx. rewrite !upd_ne; [done| |]; intros ->; apply Hx; [by right|done].
    + apply ring_del; [done|by constructor|done].
Qed.

(** [e] is at [a ++ e :: b] *)
Lemma dlist_del_ok h L k a b e :
  lists_ok h L -> L !! k = Some (a ++ e :: b) -> exists h', list_del e h = Done h' /\ lists_ok h' (<[k := a ++ b]> L).
Proof.
  intros (nx & pv & ow & hs & Hs & H) Hk. destruct (li_ring _ _ _ _ _ H k _ Hk) as [Hr Hd]. pose proof (li_head _ _ _ _ _ _ _ H Hk) as Hh.
  assert (forall x, x ∈ a ++ e :: b -> x ∈ E /\ ow x = k) as Hin by (intros x Hx; by apply (li_own _ _ _ _ _ H k _ x Hk)).
  assert (e ∈ E /\ ow e = k) as [He Ho] by (apply Hin, elem_of_app; right; by left).
  assert (a ++ e :: b ≡ₚ e :: b ++ a) as Hp by solve_Permutation. rewrite ring_rotate in Hr. cbn [app] in Hr. rewrite Hp in Hd.
  unfold list_del. rewrite (shape_get _ _ _ _ _ e Hs He). cbn [obind de_next de_prev de_head]. rewrite Ho, (shape_head _ _ _ _ _ _ _ Hs Hh). cbn [obind].
  destruct (unlink_ok _ _ _ _ _ k a b e Hs Hh Hr Hd (fun x Hx => proj1 (Hin x Hx))) as (h1 & nx1 & pv1 & -> & H1 & F1 & R1).
  cbn [obind]. destruct (set_next_shape _ _ _ _ _ e LIST_POISON1 H1 He) as (h2 & -> & H2). cbn [obind].
  destruct (set_prev_shape _ _ _ _ _ e LIST_POISON2 H2 He) as (h3 & -> & H3). cbn [obind].
  destruct (add_count_shape _ _ _ _ _ k _ (-1) H3 (lookup_insert_eq _ _ _)) as (h4 & -> & H4). cbn [obind].
  destruct (set_owner_shape _ _ _ _ _ e 0 H4 He) as (h5 & -> & H5). exists h5. split; [done|]. eexists _, _, _, _. split; [exact H5|].
  rewrite insert_insert_eq. cbn [dh_list dh_count].
  replace (mkDh (List.hd 0 (a ++ b)) (Z.of_nat (length (a ++ e :: b)) + -1)) with (head_of (a ++ b)) by (unfold head_of; rewrite !length_app; cbn [length]; f_equal; lia).
  apply NoDup_cons in Hd as [Hne Hd]. eapply removed_inv; [done|exact Hk| |].
  - intros x Hx. assert (x <> e) by (intros ->; apply Hx, elem_of_app; right; by left). rewrite !upd_ne by done. by apply F1.
  - eapply ring_frame, R1. intros x Hx. assert (x <> e) by (by intros ->). by rewrite !upd_ne.
Qed.

Definition before_list (a : list Z) (n e : Z) (b : list Z) : list Z := match a with [] => e :: b ++ [n] | _ => a ++ n :: e :: b end.

Lemma count_owner h nx pv ow hs k x l n :
  shape nx pv ow hs h -> hs !! k = Some x -> n ∈ E -> dh_list x = List.hd 0 l -> dh_count x + 1 = Z.of_nat (length l) ->
  exists h', (let* h := add_count k 1 h in let* h := set_owner n k h in Done (ApiSuccess, h)) = Done (ApiSuccess, h')
    /\ shape nx pv (upd ow n k) (<[k := head_of l]> hs) h'.
Proof.
  intros Hs Hk Hn Hl Hc. destruct (add_count_shape _ _ _ _ _ k _ 1 Hs Hk) as (h1 & -> & H1). cbn [obind].
  destruct (set_owner_shape _ _ _ _ _ n k H1 Hn) as (h2 & -> & H2). exists h2. split; [done|]. unfold head_of. by rewrite <- Hl, <- Hc.
Qed.

Lemma before_ok h L k a b e n :
  lists_ok h L -> L !! k = Some (a ++ e :: b) -> k <> 0 -> free_entry L n ->
  exists h', inserting true e n k h = Done (ApiSuccess, h') /\ lists_ok h' (<[k := before_list a n e b]> L).
Proof.
  intros (nx & pv & ow & hs & Hs & H) Hk Hk0 Hf. destruct (owner_free _ _ _ _ _ _ H Hf) as [Hn Ho]. pose proof (li_head _ _ _ _ _ _ _ H Hk) as Hh.
  assert (forall x, x ∈ a ++ e :: b -> x ∈ E /\ ow x = k) as Hin by (intros x Hx; by apply (li_own _ _ _ _ _ H k _ x Hk)).
  assert (e ∈ E /\ ow e = k) as [He Hoe] by (apply Hin, elem_of_app; right; by left).
  assert (forall x, x ∈ E -> (x =? 0) = false) as Hnz by (intros x Hx; apply Z.eqb_neq; intros ->; by apply (li_null _ _ _ _ _ H)).
  destruct (li_ring _ _ _ _ _ H k _ Hk) as [Hr _]. rewrite ring_rotate in Hr. cbn [app] in Hr. pose proof (prev_in _ _ _ _ Hr) as Hpv.
  unfold inserting. rewrite (proj2 (Z.eqb_neq k 0)), !Hnz by done. cbn [orb]. rewrite (shape_get _ _ _ _ _ e Hs He). cbn [obind de_head de_prev].
  rewrite Hoe, Z.eqb_refl. cbn [negb]. destruct (list_add_shape _ _ _ _ _ n (pv e) e Hs Hn) as (h1 & -> & H1); [|done|].
  { apply Hin. assert (a ++ e :: b ≡ₚ e :: b ++ a) as -> by solve_Permutation. done. }
  cbn [obind]. destruct (count_owner h1 _ _ _ _ k _ (before_list a n e b) n H1 Hh Hn) as (h2 & -> & H2).
  { unfold before_list. by destruct a. }
  { unfold before_list, head_of. cbn [dh_count]. destruct a; rewrite ?length_app; cbn [length]; rewrite ?length_app; cbn [length]; lia. }
  exists h2. split; [done|]. eexists _, _, _, _. split; [exact H2|]. unfold before_list. destruct a as [|x a].
  - by eapply (added_inv _ _ _ _ _ k (e :: b) _ [] (e :: b) [] (e :: b ++ [n])); rewrite ?app_nil_r.
  - eapply (added_inv _ _ _ _ _ k ((x :: a) ++ e :: b) _ (x :: a) (e :: b) ((x :: a) ++ [n]) (e :: b)); try done; [by rewrite <- app_assoc|].
    cbn [app]. by rewrite <- app_assoc.
Qed.

Lemma after_ok h L k a b e n :
  lists_ok h L -> L !! k = Some (a ++ e :: b) -> k <> 0 -> free_entry L n ->
  exists h', inserting false e n k h = Done (ApiSuccess, h') /\ lists_ok h' (<[k := a ++ e :: n :: b]> L).
Proof.
  intros (nx & pv & ow & hs & Hs & H) Hk Hk0 Hf. destruct (owner_free _ _ _ _ _ _ H Hf) as [Hn Ho]. pose proof (li_head _ _ _ _ _ _ _ H Hk) as Hh.
  assert (forall x, x ∈ a ++ e :: b -> x ∈ E /\ ow x = k) as Hin by (intros x Hx; by apply (li_own _ _ _ _ _ H k _ x Hk)).
  assert (e ∈ E /\ ow e = k) as [He Hoe] by (apply Hin, elem_of_app; right; by left).
  assert (forall x, x ∈ E -> (x =? 0) = false) as Hnz by (intros x Hx; apply Z.eqb_neq; intros ->; by apply (li_null _ _ _ _ _ H)).
  destruct (li_ring _ _ _ _ _ H k _ Hk) as [Hr _]. rewrite ring_rotate in Hr. cbn [app ring] in Hr.
  assert (exists r A B, a ++ e :: b = A ++ B /\ nx e :: r = B ++ A /\ pv (nx e) = e
            /\ exists A' B', a ++ e :: n :: b = A' ++ B' /\ nx e :: r ++ [n] = B' ++ A') as (r & A & B & E1 & E2 & E3 & A' & B' & E4 & E5).
  { destruct b as [|q b].
    - destruct a as [|q a].
      + destruct Hr as [Hr1 Hr2]. exists [], [], [e]. rewrite Hr1. splits; [done|done|done|]. by exists [], [e; n].
      + destruct Hr as (Hr1 & Hr2 & _). rewrite Hr1. exists (a ++ [e]), [], (q :: a ++ [e]). splits; [done|by rewrite app_nil_r|done|].
        exists [], (q :: a ++ [e; n]). split; [done|]. rewrite app_nil_r, <- app_assoc. done.
    - destruct Hr as (Hr1 & Hr2 & _). rewrite Hr1. exists (b ++ a ++ [e]), (a ++ [e]), (q :: b). splits; [by rewrite <- app_assoc|done|done|].
      exists (a ++ [e; n]), (q :: b). split; [by rewrite <- app_assoc|]. cbn [app]. by rewrite <- !app_assoc. }
  unfold inserting. rewrite (proj2 (Z.eqb_neq k 0)), !Hnz by done. cbn [orb]. rewrite (shape_get _ _ _ _ _ e Hs He). cbn [obind de_head de_next].
  rewrite Hoe, Z.eqb_refl. cbn [negb]. destruct (list_add_shape _ _ _ _ _ n e (nx e) Hs Hn He) as (h1 & -> & H1).
  { apply Hin. rewrite E1, elem_of_app. assert (nx e ∈ B ++ A) as Hx by (rewrite <- E2; by left). apply elem_of_app in Hx. tauto. }
  cbn [obind]. destruct (count_owner h1 _ _ _ _ k _ (a ++ e :: n :: b) n H1 Hh Hn) as (h2 & -> & H2); [by destruct a| |].
  { unfold head_of. cbn [dh_count]. rewrite !length_app. cbn [length]. lia. }
  exists h2. split; [done|]. eexists _, _, _, _. split; [exact H2|].
  pose proof (added_inv _ _ _ _ _ k (a ++ e :: b) (a ++ e :: n :: b) A B A' B' (nx e) r n H Hk E1 E2 E4 E5 Hn Ho) as Hi. by rewrite E3 in Hi.
Qed.

Lemma next_ok h L k a b e :
  lists_ok h L -> L !! k = Some (a ++ e :: b) -> k <> 0 ->
  s5list_next_ulc k e h = Done (List.hd e (b ++ a)) /\ s5list_next_tail_ulc k e h = Done (List.last (e :: b ++ a) 0) /\ e <> 0.
Proof.
  intros (nx & pv & ow & hs & Hs & H) Hk Hk0. pose proof (li_head _ _ _ _ _ _ _ H Hk) as Hh.
  assert (e ∈ E /\ ow e = k) as [He Hoe] by (apply (li_own _ _ _ _ _ H k _ e Hk), elem_of_app; right; by left).
  assert (e <> 0) as Hnz by (intros ->; by apply (li_null _ _ _ _ _ H)).
  destruct (li_ring _ _ _ _ _ H k _ Hk) as [Hr _]. rewrite ring_rotate in Hr. cbn [app] in Hr.
  unfold s5list_next_ulc, s5list_next_tail_ulc. rewrite (proj2 (Z.eqb_neq k 0)) by done. rewrite (shape_head _ _ _ _ _ _ _ Hs Hh). cbn [obind head_of dh_list].
  rewrite (list_not_null _ _ _ _ _ _ _ H Hk), bool_decide_false by (by destruct a). rewrite (proj2 (Z.eqb_neq e 0)), (shape_get _ _ _ _ _ e Hs He) by done.
  cbn [obind de_head de_next de_prev]. rewrite Hoe, (proj2 (Z.eqb_neq k 0)), Z.eqb_refl by done. cbn [orb negb].
  rewrite (ring_last _ _ _ _ Hr). splits; [|done|done]. cbn [ring] in Hr. destruct (b ++ a) as [|f m]; [by destruct Hr as [-> _]|by destruct Hr as [-> _]].
Qed.

Lemma split_in L k e : in_list L k e -> exists a b, L !! k = Some (a ++ e :: b).
Proof. intros (l & Hl & (a & b & ->)%list_elem_of_split). by exists a, b. Qed.

Lemma entry_read h L a : lists_ok h L -> a ∈ E ->
  exists e, entry_at a h = Done e /\ (de_head e = 0 <-> free_entry L a) /\ (forall k, k <> 0 -> de_head e = k <-> in_list L k a).
Proof.
  intros (nx & pv & ow & hs & Hs & H) Ha. rewrite (shape_get _ _ _ _ _ a Hs Ha). eexists. split; [reflexivity|]. cbn [de_head].
  split; [|intros k Hk; by apply (owner_in nx pv ow hs L)]. split; [|by intros Hf; apply (owner_free _ _ _ _ _ _ H Hf)].
  intros Ho. split; [done|]. intros k (l & Hl & Hin). apply (li_own _ _ _ _ _ H k l a Hl) in Hin as [_ Hk]. rewrite Ho in Hk. subst k. by rewrite (li_zero _ _ _ _ _ H) in Hl.
Qed.

Lemma head_read h L k l : lists_ok h L -> L !! k = Some l -> exists x, head_at k h = Done x /\ dh_list x = List.hd 0 l /\ (dh_list x =? 0) = bool_decide (l = []) /\ k <> 0.
Proof.
  intros (nx & pv & ow & hs & Hs & H) Hk. exists (head_of l). split; [by eapply shape_head, li_head|]. splits; [done|by eapply list_not_null|].
  intros ->. by rewrite (li_zero _ _ _ _ _ H) in Hk.
Qed.

Lemma list_length_bound h L k l : lists_ok h L -> L !! k = Some l -> (length l <= size (entries h))%nat.
Proof.
  intros (nx & pv & ow & hs & Hs & H) Hk. destruct (li_ring _ _ _ _ _ H k l Hk) as [_ Hd].
  assert (dom (entries h) = E) as HE.
  { apply set_eq. intros x. rewrite elem_of_dom, (proj2 Hs x). destruct (decide (x ∈ E)); [split; [done|by eexists]|]. split; [intros [? ?]; done|done]. }
  rewrite <- size_dom, HE, <- (size_list_to_set (C := gset Z) l Hd). apply subseteq_size. intros x Hx. apply elem_of_list_to_set in Hx.
  by apply (li_own _ _ _ _ _ H k l x Hk).
Qed.

Lemma pop_ok h L k l : lists_ok h L -> L !! k = Some l ->
  exists h', s5list_pop k h = Done (List.hd 0 l, h') /\ lists_ok h' (<[k := tail l]> L).
Proof.
  intros Hok Hk. destruct (head_read h L k l Hok Hk) as (x & Hx & Hl & Hb & Hk0). unfold s5list_pop.
  rewrite (proj2 (Z.eqb_neq k 0)) by done. rewrite Hx. cbn [obind]. rewrite Hb. destruct l as [|e r].
  - rewrite bool_decide_true by done. exists h. split; [done|]. by rewrite insert_id.
  - rewrite bool_decide_false by done. rewrite Hl. cbn [List.hd]. destruct (dlist_del_ok h L k [] r e Hok Hk) as (h' & -> & Hok'). by exists h'.
Qed.

Lemma pop_all_ok n : forall h L k l, lists_ok h L -> L !! k = Some l -> (length l < n)%nat ->
  exists h', pop_all n k h = Done h' /\ lists_ok h' (<[k := []]> L).
Proof.
  induction n as [|n IH]; intros h L k l Hok Hk Hn; [lia|]. cbn [pop_all]. destruct (pop_ok h L k l Hok Hk) as (h1 & -> & H1). cbn [obind].
  destruct (head_read h L k l Hok Hk) as (x & _ & Hl & Hb & _). rewrite Hl in Hb. rewrite Hb. destruct l as [|e r].
  - rewrite bool_decide_true by done. by exists h1.
  - rewrite bool_decide_false by done. destruct (IH h1 (<[k := r]> L) k r H1) as (h2 & -> & H2); [by rewrite lookup_insert_eq|cbn in Hn; lia|].
    exists h2. split; [done|]. by rewrite insert_insert_eq in H2.
Qed.

Lemma poptail_ok h L k l e : lists_ok h L -> L !! k = Some (l ++ [e]) -> exists h', s5list_poptail k h = Done (e, h') /\ lists_ok h' (<[k := l]> L).
Proof.
  intros Hok Hk. destruct (head_read h L k _ Hok Hk) as (x & Hx & Hl & Hb & Hk0). destruct (next_ok h L k l [] e Hok Hk Hk0) as (_ & _ & He).
  assert (s5list_next_tail_ulc k 0 h = Done e) as Hn.
  { unfold s5list_next_tail_ulc. rewrite (proj2 (Z.eqb_neq k 0)) by done. rewrite Hx. cbn [obind]. rewrite Hb, bool_decide_false by (by destruct l). cbn [Z.eqb].
    destruct Hok as (nx & pv & ow & hs & Hs & H). destruct (l ++ [e]) as [|f r] eqn:Ef; [by destruct l|].
    rewrite Hl. cbn [List.hd]. rewrite (shape_get _ _ _ _ _ f Hs) by (apply (li_own _ _ _ _ _ H k _ f Hk); by left). cbn [obind de_prev].
    destruct (li_ring _ _ _ _ _ H k _ Hk) as [Hr _]. by rewrite (ring_last _ _ _ _ Hr), <- Ef, List.last_last. }
  unfold s5list_poptail. rewrite Hn. cbn [obind]. rewrite (proj2 (Z.eqb_neq e 0)) by done.
  destruct (dlist_del_ok h L k l [] e Hok Hk) as (h' & -> & Hok'). rewrite app_nil_r in Hok'. by exists h'.
Qed.

(** ** The specification: operations on lists of addresses *)
Inductive list_op : Type :=
| OPush (n k : Z)
| OPushTail (n k : Z)
| OBefore (e n k : Z)
| OAfter (e n k : Z)
| ODel (e : Z)
| ODelWith (k e : Z)
| OPop (k : Z)
| OPopTail (k : Z)
| OClear (k : Z)
| ONext (k e : Z)
| ONextTail (k e : Z).

Definition run_op (o : list_op) (h : dheap) : outcome (Z * dheap) :=
  match o with
  | OPush n k => s5list_push n k h
  | OPushTail n k => s5list_pushtail n k h
  | OBefore e n k => s5list_insert_before e n k h
  | OAfter e n k => s5list_insert_after e n k h
  | ODel e => s5list_del e h
  | ODelWith k e => s5list_del_withh k e h
  | OPop k => s5list_pop k h
  | OPopTail k => s5list_poptail k h
  | OClear k => s5list_clear k h
  | ONext k e => let* a := s5list_next_ulc k e h in Done (a, h)
  | ONextTail k e => let* a := s5list_next_tail_ulc k e h in Done (a, h)
  end.

Definition taken (L : gmap Z (list Z)) (n : Z) : Prop := exists k, in_list L k n.

(** the result and the lists after an operation; an entry inserted before the
    first one becomes the last one *)
Inductive list_spec (L : gmap Z (list Z)) : list_op -> Z -> gmap Z (list Z) -> Prop :=
| sp_push n k l : L !! k = Some l -> ~ taken L n -> list_spec L (OPush n k) ApiSuccess (<[k := n :: l]> L)
| sp_push_tail n k l : L !! k = Some l -> ~ taken L n -> list_spec L (OPushTail n k) ApiSuccess (<[k := l ++ [n]]> L)
| sp_push_not n k : n = 0 \/ k = 0 \/ taken L n -> list_spec L (OPush n k) ApiFailed L
| sp_push_tail_not n k : n = 0 \/ k = 0 \/ taken L n -> list_spec L (OPushTail n k) ApiFailed L
| sp_before e n k a b : L !! k = Some (a ++ e :: b) -> list_spec L (OBefore e n k) ApiSuccess (<[k := before_list a n e b]> L)
| sp_after e n k a b : L !! k = Some (a ++ e :: b) -> list_spec L (OAfter e n k) ApiSuccess (<[k := a ++ e :: n :: b]> L)
| sp_before_not e n k : k = 0 \/ e = 0 \/ n = 0 \/ ~ in_list L k e -> list_spec L (OBefore e n k) ApiFailed L
| sp_after_not e n k : k = 0 \/ e = 0 \/ n = 0 \/ ~ in_list L k e -> list_spec L (OAfter e n k) ApiFailed L
| sp_del e k a b : L !! k = Some (a ++ e :: b) -> list_spec L (ODel e) ApiSuccess (<[k := a ++ b]> L)
| sp_del_not e : e = 0 \/ ~ taken L e -> list_spec L (ODel e) ApiFailed L
| sp_delw e k a b : L !! k = Some (a ++ e :: b) -> list_spec L (ODelWith k e) ApiSuccess (<[k := a ++ b]> L)
| sp_delw_not e k : e = 0 \/ k = 0 \/ ~ in_list L k e -> list_spec L (ODelWith k e) ApiFailed L
| sp_pop k e l : L !! k = Some (e :: l) -> list_spec L (OPop k) e (<[k := l]> L)
| sp_pop_not k : k = 0 \/ L !! k = Some [] -> list_spec L (OPop k) 0 L
| sp_poptail k e l : L !! k = Some (l ++ [e]) -> list_spec L (OPopTail k) e (<[k := l]> L)
| sp_poptail_not k : k = 0 \/ L !! k = Some [] -> list_spec L (OPopTail k) 0 L
| sp_clear k l : L !! k = Some l -> list_spec L (OClear k) ApiSuccess (<[k := []]> L)
| sp_clear_not : list_spec L (OClear 0) ApiFailed L
| sp_first k e l : L !! k = Some (e :: l) -> list_spec L (ONext k 0) e L
| sp_last k e l : L !! k = Some (l ++ [e]) -> list_spec L (ONextTail k 0) e L
| sp_next k e a b : L !! k = Some (a ++ e :: b) -> list_spec L (ONext k e) (List.hd e (b ++ a)) L
| sp_prev k e a b : L !! k = Some (a ++ e :: b) -> list_spec L (ONextTail k e) (List.last (e :: b ++ a) 0) L
| sp_next_not k e : k = 0 \/ L !! k = Some [] \/ (e <> 0 /\ ~ in_list L k e) -> list_spec L (ONext k e) 0 L
| sp_prev_not k e : k = 0 \/ L !! k = Some [] \/ (e <> 0 /\ ~ in_list L k e) -> list_spec L (ONextTail k e) 0 L.

(** pointers are NULL or valid; what is inserted next to an entry is free,
    which the code does not test *)
Definition entry_ptr (a : Z) : Prop := a = 0 \/ a ∈ E.
Definition head_ptr (L : gmap Z (list Z)) (k : Z) : Prop := k = 0 \/ is_Some (L !! k).

Definition op_ok (L : gmap Z (list Z)) (o : list_op) : Prop :=
  match o with
  | OPush n k | OPushTail n k => entry_ptr n /\ head_ptr L k
  | OBefore e n k | OAfter e n k => entry_ptr e /\ head_ptr L k /\ (n = 0 \/ free_entry L n)
  | ODel e => entry_ptr e
  | ODelWith k e | ONext k e | ONextTail k e => entry_ptr e /\ head_ptr L k
  | OPop k | OPopTail k | OClear k => head_ptr L k
  end.

Lemma taken_or_free L n : n ∈ E -> ~ taken L n -> free_entry L n.
Proof. intros Hn Ht. split; [done|]. intros k Hk. apply Ht. by exists k. Qed.

(** NULL is not an entry *)
Lemma null_no_entry h L : lists_ok h L -> 0 ∉ E.
Proof. intros (nx & pv & ow & hs & _ & H). apply H. Qed.

Lemma push_refines push add h L n k :
  (forall l, L !! k = Some l -> free_entry L n -> exists h', push n k h = Done h' /\ lists_ok h' (<[k := add l]> L)) ->
  lists_ok h L -> entry_ptr n -> head_ptr L k ->
  (exists h', pushing push n k h = Done (ApiFailed, h') /\ (n = 0 \/ k = 0 \/ taken L n) /\ lists_ok h' L)
  \/ (exists h' l, L !! k = Some l /\ ~ taken L n /\ pushing push n k h = Done (ApiSuccess, h') /\ lists_ok h' (<[k := add l]> L)).
Proof.
  intros Hpush Hok Hn Hk. unfold pushing. destruct (Z.eqb_spec n 0) as [->|Hn0]; [left; exists h; by splits; auto|].
  destruct (Z.eqb_spec k 0) as [->|Hk0]; [left; exists h; by splits; auto|]. cbn [orb]. destruct Hn as [|Hn]; [done|]. destruct Hk as [|[l Hl]]; [done|].
  destruct (entry_read h L n Hok Hn) as (e & -> & Hz & Hi). cbn [obind]. destruct (Z.eqb_spec (de_head e) 0) as [E0|E0]; cbn [negb].
  - right. apply Hz in E0. destruct (Hpush l Hl E0) as (h' & -> & H'). exists h', l. splits; [done| |done|done].
    intros [k1 Hk1]. by apply (proj2 E0 k1).
  - left. exists h. splits; [done| |done]. right; right. exists (de_head e). by apply Hi.
Qed.

Lemma dlist_insert_refines (before : bool) h L e n k :
  lists_ok h L -> entry_ptr e -> head_ptr L k -> n = 0 \/ free_entry L n ->
  (inserting before e n k h = Done (ApiFailed, h) /\ (k = 0 \/ e = 0 \/ n = 0 \/ ~ in_list L k e))
  \/ (exists h' a b, L !! k = Some (a ++ e :: b) /\ inserting before e n k h = Done (ApiSuccess, h')
       /\ lists_ok h' (<[k := if before then before_list a n e b else a ++ e :: n :: b]> L)).
Proof.
  intros Hok He Hk Hn. destruct (decide (k = 0 \/ e = 0 \/ n = 0)) as [Hz|Hz].
  { left. split; [|tauto]. unfold inserting. replace ((k =? 0) || (e =? 0) || (n =? 0)) with true; [done|].
    symmetry. rewrite !orb_true_iff, !Z.eqb_eq. tauto. }
  destruct He as [?|He]; [tauto|]. destruct Hn as [?|Hn]; [tauto|]. destruct (entry_read h L e Hok He) as (x & Hx & _ & Hi).
  destruct (decide (de_head x = k)) as [Hd|Hd].
  - right. apply Hi in Hd; [|tauto]. destruct (split_in L k e Hd) as (a & b & Hab).
    destruct before; [destruct (before_ok h L k a b e n Hok Hab) as (h' & Hr & H')|destruct (after_ok h L k a b e n Hok Hab) as (h' & Hr & H')]; try tauto; by exists h', a, b.
  - left. split; [|right; right; right; rewrite <- Hi by tauto; done]. unfold inserting.
    rewrite !(proj2 (Z.eqb_neq _ _)) by tauto. cbn [orb]. rewrite Hx. cbn [obind]. by rewrite (proj2 (Z.eqb_neq _ _)).
Qed.

Lemma del_refines h L e :
  lists_ok h L -> entry_ptr e -> exists r h' L', s5list_del e h = Done (r, h') /\ list_spec L (ODel e) r L' /\ lists_ok h' L'.
Proof.
  intros Hok He. unfold s5list_del. destruct (Z.eqb_spec e 0) as [->|Hz]; [exists ApiFailed, h, L; splits; [done|constructor; by left|done]|].
  destruct He as [|He]; [done|]. destruct (entry_read h L e Hok He) as (x & -> & Hf & Hi). cbn [obind].
  destruct (Z.eqb_spec (de_head x) 0) as [E0|E0].
  - exists ApiFailed, h, L. splits; [done| |done]. constructor. right. apply Hf in E0. intros [k Hk]. by apply (proj2 E0 k).
  - destruct (split_in L (de_head x) e) as (a & b & Hab); [by apply Hi|]. destruct (dlist_del_ok h L _ a b e Hok Hab) as (h' & -> & H').
    exists ApiSuccess, h', (<[de_head x := a ++ b]> L). splits; [done|by constructor|done].
Qed.

Lemma delw_refines h L k e :
  lists_ok h L -> entry_ptr e -> exists r h' L', s5list_del_withh k e h = Done (r, h') /\ list_spec L (ODelWith k e) r L' /\ lists_ok h' L'.
Proof.
  intros Hok He. unfold s5list_del_withh. destruct (Z.eqb_spec e 0) as [->|Hz]; [exists ApiFailed, h, L; splits; [done|constructor; by left|done]|].
  destruct (Z.eqb_spec k 0) as [->|Hk]; [exists ApiFailed, h, L; splits; [done|constructor; by auto|done]|]. cbn [orb].
  destruct He as [|He]; [done|]. destruct (entry_read h L e Hok He) as (x & -> & Hf & Hi). cbn [obind].
  destruct (Z.eqb_spec (de_head x) k) as [E0|E0]; cbn [negb].
  - destruct (split_in L k e) as (a & b & Hab); [by apply Hi|]. destruct (dlist_del_ok h L k a b e Hok Hab) as (h' & -> & H').
    exists ApiSuccess, h', (<[k := a ++ b]> L). splits; [done|by constructor|done].
  - exists ApiFailed, h, L. splits; [done| |done]. constructor. right; right. by rewrite <- Hi.
Qed.

(** what [next] and [next_tail] have in common when they find nothing *)
Lemma step_none h L k e :
  lists_ok h L -> entry_ptr e -> head_ptr L k -> k = 0 \/ L !! k = Some [] \/ (e <> 0 /\ ~ in_list L k e) ->
  s5list_next_ulc k e h = Done 0 /\ s5list_next_tail_ulc k e h = Done 0.
Proof.
  intros Hok He Hk Hn. unfold s5list_next_ulc, s5list_next_tail_ulc. destruct (Z.eqb_spec k 0) as [->|Hk0]; [done|].
  destruct Hk as [|[l Hl]]; [done|]. destruct (head_read h L k l Hok Hl) as (x & -> & Hx & Hb & _). cbn [obind]. rewrite Hb.
  case_bool_decide as Hnil; [done|]. destruct Hn as [?|[Hn|[He0 Hin]]]; [done|by rewrite Hl in Hn; injection Hn as ->|].
  rewrite (proj2 (Z.eqb_neq e 0)) by done. destruct He as [|He]; [done|]. destruct (entry_read h L e Hok He) as (y & -> & _ & Hi). cbn [obind].
  rewrite <- Hi in Hin by done. rewrite (proj2 (Z.eqb_neq (de_head y) k)) by done. by rewrite orb_true_r.
Qed.

Lemma step_refines h L k e :
  lists_ok h L -> entry_ptr e -> head_ptr L k ->
  (exists a, s5list_next_ulc k e h = Done a /\ list_spec L (ONext k e) a L) /\ (exists a, s5list_next_tail_ulc k e h = Done a /\ list_spec L (ONextTail k e) a L).
Proof.
  intros Hok He Hk. assert (k = 0 \/ L !! k = Some [] \/ (e <> 0 /\ ~ in_list L k e) \/ (exists l, L !! k = Some l /\ k <> 0 /\ l <> [] /\ (e = 0 \/ e ∈ l))) as Hc.
  { destruct Hk as [?|[l Hl]]; [by left|]. destruct (head_read h L k l Hok Hl) as (_ & _ & _ & _ & Hk0). destruct (decide (l = [])) as [->|Hn]; [by auto|]. destruct (decide (e = 0 \/ e ∈ l)); [right; right; right; by exists l|].
    right; right; left. split; [tauto|]. intros (l' & Hl' & Hin). rewrite Hl in Hl'. injection Hl' as <-. tauto. }
  destruct Hc as [Hc|[Hc|[Hc|(l & Hl & Hk0 & Hn & Hc)]]]; [destruct (step_none h L k e Hok He Hk ltac:(auto)) as [-> ->]; split; exists 0; (split; [done|constructor; auto])..|].
  destruct Hc as [->|Hin].
  - destruct (exists_last Hn) as (l' & q & Hq). pose proof (head_read h L k l Hok Hl) as (x & Hx & Hd & Hb & _).
    split; [exists (List.hd 0 l)|exists q].
    + split; [|destruct l; [done|]; by econstructor]. unfold s5list_next_ulc. rewrite (proj2 (Z.eqb_neq k 0)), Hx by done. cbn [obind]. by rewrite Hb, bool_decide_false, Hd.
    + split; [|apply (sp_last _ _ _ l'); by rewrite <- Hq]. rewrite Hq in Hl. destruct (poptail_ok h L k l' q Hok Hl) as (h' & Hp & _).
      unfold s5list_poptail in Hp. destruct (s5list_next_tail_ulc k 0 h) as [a| |] eqn:Ea; try done. cbn [obind] in Hp. destruct (Z.eqb_spec a 0) as [->|].
      * destruct (next_ok h L k l' [] q Hok Hl Hk0) as (_ & _ & Hq0). injection Hp as Hp _. by subst q.
      * destruct (list_del a h); try done. by injection Hp as -> _.
  - apply list_elem_of_split in Hin as (a & b & ->). destruct (next_ok h L k a b e Hok Hl Hk0) as (H1 & H2 & _).
    split; eexists; (split; [eassumption|by constructor]).
Qed.

(** every operation does to the pointers what it does to the lists *)
Lemma op_refines h L o :
  lists_ok h L -> op_ok L o -> exists r h' L', run_op o h = Done (r, h') /\ list_spec L o r L' /\ lists_ok h' L'.
Proof.
  intros Hok Ho. destruct o as [n k|n k|e n k|e n k|e|k e|k|k|k|k e|k e]; cbn [run_op op_ok] in *.
  - destruct (push_refines list_push (cons n) h L n k) as [(h' & E1 & E2 & E3)|(h' & l & E0 & E1 & E2 & E3)]; [intros; by apply push_ok|done|tauto..| |];
      (eexists _, h', _; splits; [exact E2 || exact E1| |exact E3]); by constructor.
  - destruct (push_refines list_push_tail (fun l => l ++ [n]) h L n k) as [(h' & E1 & E2 & E3)|(h' & l & E0 & E1 & E2 & E3)]; [intros; by apply push_tail_ok|done|tauto..| |];
      (eexists _, h', _; splits; [exact E2 || exact E1| |exact E3]); by constructor.
  - destruct (dlist_insert_refines true h L e n k) as [(E1 & E2)|(h' & a & b & E1 & E2 & E3)]; [done|tauto..| |]; eexists _, _, _; splits; [exact E1|by constructor|done|exact E2|by constructor|exact E3].
  - destruct (dlist_insert_refines false h L e n k) as [(E1 & E2)|(h' & a & b & E1 & E2 & E3)]; [done|tauto..| |]; eexists _, _, _; splits; [exact E1|by constructor|done|exact E2|by constructor|exact E3].
  - by apply del_refines.
  - apply delw_refines; tauto.
  - destruct (decide (k = 0)) as [->|Hk0]; [exists 0, h, L; splits; [done|constructor; by left|done]|]. destruct Ho as [?|[l Hl]]; [done|].
    destruct (pop_ok h L k l Hok Hl) as (h' & -> & H'). destruct l as [|e l]; [exists 0, h', L|by exists e, h', (<[k := l]> L); splits; [|constructor|]].
    splits; [done|constructor; by right|]. cbn in H'. by rewrite insert_id in H'.
  - destruct (decide (k = 0)) as [->|Hk0]; [exists 0, h, L; splits; [done|constructor; by left|done]|]. destruct Ho as [?|[l Hl]]; [done|].
    destruct (decide (l = [])) as [->|Hn].
    + exists 0, h, L. splits; [|constructor; by right|done]. unfold s5list_poptail.
      destruct (step_none h L k 0 Hok) as [_ ->]; [by left|by right; eexists|by auto|done].
    + destruct (exists_last Hn) as (l' & q & ->). destruct (poptail_ok h L k l' q Hok Hl) as (h' & -> & H'). exists q, h', (<[k := l']> L). by splits; [|constructor|].
  - unfold s5list_clear. destruct (Z.eqb_spec k 0) as [->|Hk0]; [exists ApiFailed, h, L; splits; [done|constructor|done]|]. destruct Ho as [?|[l Hl]]; [done|].
    pose proof (list_length_bound h L k l Hok Hl). destruct (pop_all_ok (S (size (entries h))) h L k l Hok Hl) as (h' & -> & H'); [lia|].
    exists ApiSuccess, h', (<[k := []]> L). splits; [done|by econstructor|done].
  - destruct (step_refines h L k e Hok) as [(a & -> & Ha) _]; [tauto..|]. by exists a, h, L.
  - destruct (step_refines h L k e Hok) as [_ (a & -> & Ha)]; [tauto..|]. by exists a, h, L.
Qed.

(** ** Sequences of operations *)
Fixpoint run_ops (ops : list list_op) (h : dheap) : outcome (list Z * dheap) :=
  match ops with
  | [] => Done ([], h)
  | o :: ops => let* (r, h) := run_op o h in let* (rs, h) := run_ops ops h in Done (r :: rs, h)
  end.

Inductive spec_ops : gmap Z (list Z) -> list list_op -> list Z -> gmap Z (list Z) -> Prop :=
| so_nil L : spec_ops L [] [] L
| so_cons L o ops r rs L1 L2 : list_spec L o r L1 -> spec_ops L1 ops rs L2 -> spec_ops L (o :: ops) (r :: rs) L2.

Fixpoint ops_ok (L : gmap Z (list Z)) (ops : list list_op) : Prop :=
  match ops with
  | [] => True
  | o :: ops => op_ok L o /\ forall r L', list_spec L o r L' -> ops_ok L' ops
  end.

End Shape.

(** a loop over a list visits its entries once, in order *)
Lemma for_each_path E nx pv ow hs h a l b :
  shape E nx pv ow hs h -> path nx pv a l b -> (forall x, x ∈ a :: l -> x ∈ E /\ x <> 0) -> for_each_from (S (length l)) a h = Done (a :: l).
Proof.
  intros Hs. revert a. induction l as [|c l IH]; intros a Hp Hin.
  - cbn [length for_each_from]. destruct (Hin a ltac:(by left)) as [Ha Hz]. rewrite (proj2 (Z.eqb_neq a 0)) by done. by rewrite (shape_get E _ _ _ _ _ a Hs Ha).
  - destruct Hp as (Hc & _ & Hp). destruct (Hin a ltac:(by left)) as [Ha Hz]. change (length (c :: l)) with (S (length l)).
    remember (S (length l)) as n eqn:En. cbn [for_each_from]. rewrite (proj2 (Z.eqb_neq a 0)) by done. rewrite (shape_get E _ _ _ _ _ a Hs Ha). cbn [obind de_next].
    rewrite Hc. subst n. rewrite (IH c Hp); [done|]. intros x Hx. apply Hin. by right.
Qed.

Theorem for_each_visits E h L k l : lists_ok E h L -> L !! k = Some l -> S5LIST_FOR_EACH k h = Done l.
Proof.
  intros (nx & pv & ow & hs & Hs & H) Hk. unfold S5LIST_FOR_EACH. rewrite (shape_head E _ _ _ _ _ _ _ Hs (li_head E _ _ _ _ _ _ _ H Hk)).
  cbn [obind head_of dh_count dh_list]. rewrite Nat2Z.id. destruct l as [|a l]; [done|]. cbn [List.hd length].
  destruct (li_ring E _ _ _ _ _ H k _ Hk) as [Hr _]. apply (for_each_path E nx pv ow hs h a l a Hs Hr).
  intros x Hx. apply (li_own E _ _ _ _ _ H k _ x Hk) in Hx as [Hx _]. split; [done|]. intros ->. by apply (li_null E _ _ _ _ _ H).
Qed.

(** two deletions of one entry that both pass the test of [entry->head]: the
    second one follows a NULL head *)
Theorem raced_del E h L k a b e h' :
  lists_ok E h L -> L !! k = Some (a ++ e :: b) -> list_del e h = Done h' -> list_del e h' = Undef.
Proof.
  intros Hok Hk He. assert (NoDup (a ++ e :: b)) as Hd by (destruct Hok as (nx & pv & ow & hs & _ & H); by apply (li_ring E _ _ _ _ _ H k)). destruct (dlist_del_ok E h L k a b e Hok Hk) as (h1 & E1 & Hok1). rewrite He in E1. injection E1 as <-.
  assert (e ∈ E) as Hin by (destruct Hok as (nx & pv & ow & hs & _ & H); apply (li_own E _ _ _ _ _ H k _ e Hk), elem_of_app; right; by left).
  destruct (entry_read E h' _ e Hok1 Hin) as (x & Hx & Hf & Hi). assert (de_head x = 0) as H0.
  { destruct (decide (de_head x = 0)) as [|Hne]; [done|]. destruct (proj1 (Hi _ Hne) eq_refl) as (l & Hl & Hel). destruct Hok as (nx & pv & ow & hs & _ & H).
    apply lookup_insert_Some in Hl as [[_ <-]|[Hk1 Hl]].
    - apply NoDup_app in Hd as (_ & Hd1 & Hd2). apply NoDup_cons in Hd2 as [Hd2 _]. apply elem_of_app in Hel as [?|?]; [|done]. exfalso. by apply (Hd1 e); [|left].
    - apply (li_own E _ _ _ _ _ H _ _ e Hl) in Hel as [_ Hel]. assert (ow e = k) by (apply (li_own E _ _ _ _ _ H k _ e Hk), elem_of_app; right; by left). congruence. }
  unfold list_del. rewrite Hx. cbn [obind]. rewrite H0. assert (head_at 0 h' = Undef) as Hu.
  { destruct Hok1 as (nx & pv & ow & hs & [<- _] & H). unfold head_at. rewrite (li_heads E _ _ _ _ _ H), lookup_fmap, (li_zero E _ _ _ _ _ H). done. }
  unfold set_list. rewrite Hu. by destruct (de_next x =? e).
Qed.

(** ** A heap to start with *)
Lemma fresh_ok (h : dheap) :
  entries h !! 0 = None -> heads h !! 0 = None ->
  (forall a e, entries h !! a = Some e -> de_head e = 0) -> (forall k x, heads h !! k = Some x -> x = mkDh 0 0) ->
  lists_ok (dom (entries h)) h ((fun _ => []) <$> heads h).
Proof.
  intros He Hh Hfree Hempty.
  exists (fun x => match entries h !! x with Some e => de_next e | None => 0 end), (fun x => match entries h !! x with Some e => de_prev e | None => 0 end), (fun _ => 0), (heads h).
  assert (forall k l, ((fun _ => []) <$> heads h : gmap Z (list Z)) !! k = Some l -> l = [] /\ k <> 0) as HL.
  { intros k l. rewrite lookup_fmap. destruct (heads h !! k) eqn:Ek; [|done]. intros [= <-]. split; [done|]. intros ->. by rewrite Hh in Ek. }
  split.
  - split; [done|]. intros x. destruct (decide (x ∈ dom (entries h))) as [Hx|Hx].
    + apply elem_of_dom in Hx as [e Ex]. rewrite Ex. specialize (Hfree x e Ex). destruct e as [p n o]. cbn in *. by subst o.
    + by apply not_elem_of_dom in Hx.
  - split.
    + by apply not_elem_of_dom.
    + apply map_eq. intros k. rewrite !lookup_fmap. destruct (heads h !! k) as [x|] eqn:Ek; [|done]. cbn. by rewrite (Hempty k x Ek).
    + rewrite lookup_fmap, Hh. done.
    + intros k l Hl. destruct (HL k l Hl) as [-> _]. split; [done|constructor].
    + intros k l a Hl. destruct (HL k l Hl) as [-> Hk]. rewrite elem_of_nil. split; [done|]. intros [_ ?]. congruence.
    + intros a _. by left.
Qed.

Lemma spec_heads L o r L' k : list_spec L o r L' -> is_Some (L !! k) -> is_Some (L' !! k).
Proof. intros Hs Hk. destruct Hs; try done; (apply lookup_insert_is_Some'; by right). Qed.

(** sequences without insertions next to an entry need valid pointers only *)
Definition plain (E : gset Z) (H : Z -> Prop) (o : list_op) : Prop :=
  match o with
  | OPush n k | OPushTail n k => entry_ptr E n /\ H k
  | OBefore _ _ _ | OAfter _ _ _ => False
  | ODel e => entry_ptr E e
  | ODelWith k e | ONext k e | ONextTail k e => entry_ptr E e /\ H k
  | OPop k | OPopTail k | OClear k => H k
  end.

Lemma plain_ops_ok E (H : Z -> Prop) L ops : (forall k, H k -> head_ptr L k) -> Forall (plain E H) ops -> ops_ok E L ops.
Proof.
  intros HH Hp. revert L HH. induction Hp as [|o ops Ho _ IH]; intros L HH; [done|]. cbn. split.
  - destruct o; cbn in *; intuition.
  - intros r L' Hs. apply IH. intros k Hk. destruct (HH k Hk) as [?|?]; [by left|]. right. by eapply spec_heads.
Qed.

Module DListDemo.
Definition h0 : dheap := mkDheap (<[10 := mkDe 0 0 0]> (<[20 := mkDe 0 0 0]> {[30 := mkDe 0 0 0]})) (<[1 := mkDh 0 0]> {[2 := mkDh 0 0]}).
Definition ops : list list_op := [OPushTail 10 1; OPushTail 20 1; OPush 30 1; OPush 30 2; ONextTail 1 30; OPopTail 1; ODel 30; OPush 30 2].

Lemma h0_ok : lists_ok (dom (entries h0)) h0 ((fun _ => []) <$> heads h0).
Proof.
  apply fresh_ok; [done|done| |].
  - intros a e He. cbn [h0 entries] in He. apply lookup_insert_Some in He as [[_ <-]|[_ He]]; [done|]. apply lookup_insert_Some in He as [[_ <-]|[_ He]]; [done|].
    by apply lookup_singleton_Some in He as [_ <-].
  - intros k x Hx. cbn [h0 heads] in Hx. apply lookup_insert_Some in Hx as [[_ <-]|[_ Hx]]; [done|]. by apply lookup_singleton_Some in Hx as [_ <-].
Qed.

Lemma ops_valid : ops_ok (dom (entries h0)) ((fun _ => []) <$> heads h0) ops.
Proof.
  apply (plain_ops_ok _ (fun k => k = 1 \/ k = 2)); [by intros k [-> | ->]; right; eexists|].
  assert (forall x, x = 10 \/ x = 20 \/ x = 30 -> x ∈ dom (entries h0)) as Hx by (intros x [-> |[-> | ->]]; apply elem_of_dom; by eexists).
  assert (entry_ptr (dom (entries h0)) 10 /\ entry_ptr (dom (entries h0)) 20 /\ entry_ptr (dom (entries h0)) 30) as (P1 & P2 & P3) by (splits; right; apply Hx; auto).
  unfold ops. repeat (apply Forall_cons; split; [cbn; auto|]). constructor.
Qed.
End DListDemo.


(** [s5list_insert_after] does not test whether the new entry is in a list
    already: two lists then run into each other.  Here an entry of the second
    list is inserted into the first one, and from the first entry of the
    second list the way leads into the first list and never back. *)
Theorem insert_merges_lists :
  exists h, run_ops [OPushTail 10 1; OPushTail 20 2; OPushTail 30 2; OAfter 10 30 1] DListDemo.h0 = Done ([0; 0; 0; 0], h)
    /\ s5list_next_ulc 2 20 h = Done 30 /\ s5list_next_ulc 1 30 h = Done 10 /\ s5list_next_ulc 1 10 h = Done 30
    /\ dh_count <$> heads h !! 2 = Some 2.
Proof. eexists. split; [vm_compute; reflexivity|]. by splits. Qed.
