(* ===== verification/Utf8.v ===== *)
(** * UTF-8

    Model of src/common/src/pf_utf8.cpp: encoding and decoding of a character
    of up to 31 bits in up to six bytes, and the check that a text consists
    of encoded characters.  The check decodes every character and encodes it
    again.  A byte of the text is a number from 0 to 255. *)

From Stdlib Require Import ZArith Lia.
From stdpp Require Import base tactics list numbers.
From S2P Require Import Prelude.

Definition MAX_UTF8_SZ : nat := 6.
Definition INVALID_UTF8_CHAR : Z := 0xffffffff.

(** [high_bits_set]: a byte has at most eight of them *)
Fixpoint high_bits_from (fuel : nat) (c : Z) : Z :=
  match fuel with
  | O => 0
  | S n => if negb (Z.land c 0x80 =? 0x80) then 0 else 1 + high_bits_from n (Z.shiftl c 1)
  end.

Definition high_bits_set (c : Z) : Z := high_bits_from 9 c.

Definition max_val : list Z := [0x0000007f; 0x000007ff; 0x0000ffff; 0x001fffff; 0x03ffffff; 0x7fffffff].

(** the first [i] with [u <= max_val[i]] *)
Fixpoint find_size (u : Z) (i : nat) (l : list Z) : nat :=
  match l with
  | [] => i
  | m :: l => if u <=? m then i else find_size u (S i) l
  end.

(** [buf[j]] for [j] from [i] down to 1, and what is left of [u] *)
Fixpoint encode_tail (i : nat) (u : Z) (buf : list Z) : Z * list Z :=
  match i with
  | O => (u, buf)
  | S j => encode_tail j (Z.shiftr u 6) (Z.lor 0x80 (Z.land u 0x3f) :: buf)
  end.

Definition encode_utf8 (u : Z) : option (list Z) :=
  let i := find_size u 0 max_val in
  if (i =? length max_val)%nat then None
  else if (i =? 0)%nat then Some [Z.land u 255]
  else
    let (u, buf) := encode_tail i u [] in
    let mask := Z.land (Z.lnot (Z.shiftr 255 (Z.of_nat i + 1))) 255 in
    Some (Z.lor mask (Z.land u 255) :: buf).

(** the loop over [buf[1]], [buf[2]], ... *)
Fixpoint decode_tail (code : Z) (l : list Z) : option Z :=
  match l with
  | [] => Some code
  | b :: l => if negb (Z.land b 0xc0 =? 0x80) then None else decode_tail (Z.lor (Z.shiftl code 6) (Z.land b 0x3f)) l
  end.

Definition decode_utf8 (buf : list Z) : Z :=
  match buf with
  | [] => INVALID_UTF8_CHAR
  | [b] => if 0x80 <=? b then INVALID_UTF8_CHAR else b
  | b :: l =>
      let i := high_bits_set b in
      if negb (i =? Z.of_nat (length buf)) then INVALID_UTF8_CHAR
      else
        match decode_tail (Z.land b (Z.shiftr 255 i)) l with
        | None => INVALID_UTF8_CHAR
        | Some code =>
            if code =? 0xFFFE then INVALID_UTF8_CHAR
            else if code =? 0xFFFF then INVALID_UTF8_CHAR
            else if (0xD800 <=? code) && (code <=? 0xDFFF) then INVALID_UTF8_CHAR
            else code
        end
  end.

(** the test of the bytes in the buffer [u] at the start of a new character *)
Definition flush_ok (u : list Z) : bool :=
  match u with
  | [] => true
  | _ =>
      let code := decode_utf8 u in
      if code =? INVALID_UTF8_CHAR then false else bool_decide (encode_utf8 code = Some u)
  end.

Definition starts (c : Z) : bool := (c <? 0x80) || negb (Z.land c 0xC0 =? 0x80).

(** the loop of [check_utf8] at index [i], with [u] in the buffer *)
Fixpoint check_from (i : Z) (u : list Z) (l : list Z) : Z :=
  match l with
  | [] => if flush_ok u then 0 else i + 1
  | c :: l =>
      if starts c then
        if flush_ok u then check_from (i + 1) (if 0x80 <=? c then [c] else []) l else i + 1
      else if (length u =? MAX_UTF8_SZ)%nat then i + 1
      else check_from (i + 1) (u ++ [c]) l
  end.

Definition check_utf8 (buf : list Z) : Z := check_from 0 [] buf.

Definition is_control_character (c : Z) : bool := (negb (c =? 0) && (c <? 0x20)) || (c =? 0x7f).

Fixpoint control_from (i : Z) (buf : list Z) : Z :=
  match buf with
  | [] => 0
  | c :: buf => if is_control_character c then i + 1 else control_from (i + 1) buf
  end.

Definition check_for_control_characters (buf : list Z) : Z := control_from 0 buf.

(** ** Bytes *)
Lemma byte_forall (P : Z -> bool) : forallb P (seqZ 0 256) = true -> forall b, 0 <= b < 256 -> P b = true.
Proof. intros H b Hb. rewrite forallb_forall in H. apply H, list_elem_of_In, elem_of_seqZ. lia. Qed.

Lemma cont_byte x : 0 <= x < 64 -> Z.lor 0x80 x = 128 + x /\ Z.land (128 + x) 0xc0 = 0x80 /\ Z.land (128 + x) 0x3f = x.
Proof.
  intros Hx. pose proof (byte_forall (fun x => negb (x <? 64) || ((Z.lor 0x80 x =? 128 + x) && (Z.land (128 + x) 0xc0 =? 0x80) && (Z.land (128 + x) 0x3f =? x))) eq_refl x ltac:(lia)) as H.
  cbv beta in H. rewrite (proj2 (Z.ltb_lt x 64)) in H by lia. cbn [negb orb] in H. rewrite !andb_true_iff, !Z.eqb_eq in H. intuition lia.
Qed.

Lemma low6 u : Z.land u 0x3f = u mod 64.
Proof. change 0x3f with (Z.ones 6). by rewrite Z.land_ones. Qed.

Lemma shift6 code x : 0 <= x < 64 -> Z.lor (Z.shiftl code 6) x = code * 64 + x.
Proof.
  intros Hx. rewrite Z.shiftl_mul_pow2 by lia. change (2 ^ 6) with 64. symmetry. apply Z.add_nocarry_lor.
  apply Z.bits_inj'. intros n Hn. rewrite Z.land_spec, Z.bits_0. replace (code * 64) with (Z.shiftl code 6) by (by rewrite Z.shiftl_mul_pow2).
  destruct (decide (n < 6)); [by rewrite Z.shiftl_spec_low|]. replace x with (x mod 2 ^ 6) by (apply Z.mod_small; lia).
  rewrite Z.mod_pow2_bits_high by lia. apply andb_false_r.
Qed.

(** ** One character *)
Fixpoint conts (i : nat) (u : Z) : list Z :=
  match i with
  | O => []
  | S j => conts j (u / 64) ++ [128 + u mod 64]
  end.

Lemma encode_tail_conts i : forall u buf, encode_tail i u buf = (u / 64 ^ Z.of_nat i, conts i u ++ buf).
Proof.
  induction i as [|i IH]; intros u buf; [cbn; by rewrite Z.div_1_r|]. cbn [encode_tail]. rewrite IH, low6, Z.shiftr_div_pow2 by lia.
  change (2 ^ 6) with 64. destruct (cont_byte (u mod 64)) as [-> _]; [apply Z.mod_pos_bound; lia|]. cbn [conts]. rewrite <- app_assoc. f_equal.
  rewrite Z.div_div by (try apply Z.pow_nonzero; lia). f_equal. rewrite Nat2Z.inj_succ, Z.pow_succ_r by lia. lia.
Qed.

Lemma conts_length i : forall u, length (conts i u) = i.
Proof. induction i as [|i IH]; intros u; [done|]. cbn [conts]. rewrite length_app, IH. cbn. lia. Qed.

Lemma decode_tail_app l1 : forall l2 a, decode_tail a (l1 ++ l2) = match decode_tail a l1 with Some c => decode_tail c l2 | None => None end.
Proof. induction l1 as [|b l1 IH]; intros l2 a; [done|]. cbn. destruct (negb _); [done|]. apply IH. Qed.

Lemma decode_conts i : forall u a, decode_tail a (conts i u) = Some (a * 64 ^ Z.of_nat i + u mod 64 ^ Z.of_nat i).
Proof.
  induction i as [|i IH]; intros u a; [cbn; rewrite Z.mod_1_r; f_equal; lia|]. cbn [conts]. rewrite decode_tail_app, IH. cbn [decode_tail].
  pose proof (Z.mod_pos_bound u 64 ltac:(lia)) as Hm. destruct (cont_byte (u mod 64) Hm) as (_ & -> & ->). cbn [negb Z.eqb]. rewrite shift6 by done. f_equal.
  rewrite Nat2Z.inj_succ, Z.pow_succ_r by lia.
  pose proof (Z.pow_pos_nonneg 64 (Z.of_nat i) ltac:(lia) ltac:(lia)). rewrite (Z.rem_mul_r u 64 (64 ^ Z.of_nat i)) by lia. lia.
Qed.

Definition lead (i : nat) (a : Z) : Z := Z.lor (Z.land (Z.lnot (Z.shiftr 255 (Z.of_nat i + 1))) 255) (Z.land a 255).

Lemma lead_byte i a :
  (1 <= i <= 5)%nat -> 0 <= a < 2 ^ (6 - Z.of_nat i) ->
  0x80 <= lead i a < 256 /\ starts (lead i a) = true /\ high_bits_set (lead i a) = Z.of_nat i + 1 /\ Z.land (lead i a) (Z.shiftr 255 (Z.of_nat i + 1)) = a.
Proof.
  intros Hi Ha. set (P i a := negb (a <? 2 ^ (6 - Z.of_nat i)) || ((0x80 <=? lead i a) && (lead i a <? 256) && starts (lead i a)
    && (high_bits_set (lead i a) =? Z.of_nat i + 1) && (Z.land (lead i a) (Z.shiftr 255 (Z.of_nat i + 1)) =? a))).
  assert (a < 256) by (eapply Z.lt_le_trans; [apply Ha|]; change 256 with (2 ^ 8); apply Z.pow_le_mono_r; lia).
  assert (P i a = true) as Hp by (assert (i = 1 \/ i = 2 \/ i = 3 \/ i = 4 \/ i = 5)%nat as [-> |[-> |[-> |[-> | ->]]]] by lia; (apply (byte_forall (P _)); [vm_compute; reflexivity|lia])).
  unfold P in Hp. rewrite (proj2 (Z.ltb_lt a _)) in Hp by lia. cbn [negb orb] in Hp. rewrite !andb_true_iff, !Z.eqb_eq, Z.leb_le, Z.ltb_lt in Hp. tauto.
Qed.

Ltac small_powers :=
  repeat match goal with |- context [?b ^ ?k] => let v := eval vm_compute in (b ^ k) in progress change (b ^ k) with v end.

Lemma sizes c :
  0x80 <= c <= 0x7fffffff -> exists i, find_size c 0 max_val = i /\ (1 <= i <= 5)%nat /\ 0 <= c / 64 ^ Z.of_nat i < 2 ^ (6 - Z.of_nat i).
Proof.
  intros Hc. exists (find_size c 0 max_val). split; [done|]. unfold max_val, find_size.
  destruct (Z.leb_spec c 0x7f); [lia|].
  repeat match goal with |- context [Z.leb c ?m] => destruct (Z.leb_spec c m); [split; [lia|]; small_powers; split; [apply Z.div_pos; lia|apply Z.div_lt_upper_bound; lia]|] end.
  lia.
Qed.

(** the bytes of a character *)
Definition utf8 (c : Z) : list Z := default [] (encode_utf8 c).

Definition valid_code (c : Z) : Prop := 0 <= c <= 0x7fffffff /\ c <> 0xFFFE /\ c <> 0xFFFF /\ ~ (0xD800 <= c <= 0xDFFF).

Lemma utf8_ascii c : 0 <= c < 0x80 -> utf8 c = [c].
Proof.
  intros Hc. unfold utf8, encode_utf8, max_val, find_size. rewrite (proj2 (Z.leb_le c 0x7f)) by lia. cbn. f_equal.
  change 255 with (Z.ones 8). rewrite Z.land_ones by lia. apply Z.mod_small. lia.
Qed.

Lemma utf8_long c : 0x80 <= c <= 0x7fffffff ->
  exists i, (1 <= i <= 5)%nat /\ 0 <= c / 64 ^ Z.of_nat i < 2 ^ (6 - Z.of_nat i)
    /\ encode_utf8 c = Some (lead i (c / 64 ^ Z.of_nat i) :: conts i c).
Proof.
  intros Hc. destruct (sizes c Hc) as (i & Hi & Hr & Hq). exists i. splits; [lia|lia|lia|lia|]. unfold encode_utf8. rewrite Hi, encode_tail_conts, app_nil_r.
  rewrite (proj2 (Nat.eqb_neq i _)) by (cbn; lia). by rewrite (proj2 (Nat.eqb_neq i 0)) by lia.
Qed.

(** the rejected code points *)
Definition checked (code : Z) : Z :=
  if code =? 0xFFFE then INVALID_UTF8_CHAR
  else if code =? 0xFFFF then INVALID_UTF8_CHAR
  else if (0xD800 <=? code) && (code <=? 0xDFFF) then INVALID_UTF8_CHAR
  else code.

Lemma decode_long b l : l <> [] -> high_bits_set b = Z.of_nat (length (b :: l)) ->
  decode_utf8 (b :: l) = match decode_tail (Z.land b (Z.shiftr 255 (high_bits_set b))) l with None => INVALID_UTF8_CHAR | Some code => checked code end.
Proof. intros Hl Hb. destruct l as [|b1 l]; [done|]. unfold decode_utf8. by rewrite Hb, Z.eqb_refl. Qed.

(** decoding is the inverse of encoding *)
Lemma decode_encode c : valid_code c -> 0x80 <= c -> decode_utf8 (utf8 c) = c.
Proof.
  intros (Hc & H1 & H2 & H3) Hl. destruct (utf8_long c ltac:(lia)) as (i & Hi & Hq & E). unfold utf8. rewrite E. cbn [from_option id]; unfold id.
  destruct (lead_byte i _ Hi Hq) as (_ & _ & Hb & Ha). pose proof (conts_length i c) as Hlen. pose proof (decode_conts i c (c / 64 ^ Z.of_nat i)) as Hd.
  rewrite decode_long; [|intros E0; rewrite E0 in Hlen; cbn in Hlen; lia|rewrite Hb; cbn [length]; lia]. rewrite Hb, Ha, Hd.
  replace (c / 64 ^ Z.of_nat i * 64 ^ Z.of_nat i + c mod 64 ^ Z.of_nat i) with c.
  2: { pose proof (Z.div_mod c (64 ^ Z.of_nat i) ltac:(apply Z.pow_nonzero; lia)). lia. }
  unfold checked.
  rewrite (proj2 (Z.eqb_neq c 0xFFFE)), (proj2 (Z.eqb_neq c 0xFFFF)) by done.
  destruct (Z.leb_spec 0xD800 c), (Z.leb_spec c 0xDFFF); cbn [andb]; try done. lia.
Qed.

Lemma flush_char c : valid_code c -> 0x80 <= c -> flush_ok (utf8 c) = true.
Proof.
  intros Hv Hl. pose proof (decode_encode c Hv Hl) as Hd. destruct (utf8_long c) as (i & _ & _ & E); [unfold valid_code in Hv; lia|].
  assert (encode_utf8 c = Some (utf8 c)) as Ee by (unfold utf8; by rewrite E). unfold flush_ok. destruct (utf8 c) as [|b l] eqn:Eu; [done|]. rewrite <- Eu in *.
  rewrite Hd, (proj2 (Z.eqb_neq _ _)) by (destruct Hv as [? _]; unfold INVALID_UTF8_CHAR; lia). by apply bool_decide_true.
Qed.

(** what the buffer holds has been checked *)
Lemma flush_inv u : flush_ok u = true -> Forall (fun b => 0 <= b < 256) u -> u = [] \/ exists c, valid_code c /\ u = utf8 c.
Proof.
  unfold flush_ok. destruct u as [|b l] eqn:Eu; [by left|]. rewrite <- Eu in *. intros H Hb. right.
  destruct (Z.eqb_spec (decode_utf8 u) INVALID_UTF8_CHAR) as [|Hn]; [done|]. apply bool_decide_eq_true in H. exists (decode_utf8 u).
  split; [|unfold utf8; by rewrite H]. assert (decode_utf8 u <= 0x7fffffff) as Hmax.
  { destruct (Z.le_gt_cases (decode_utf8 u) 0x7fffffff) as [|Hg]; [done|]. unfold encode_utf8, max_val, find_size in H.
    rewrite !(proj2 (Z.leb_gt (decode_utf8 u) _)) in H by lia. done. }
  revert Hn Hmax. subst u. apply Forall_cons_1 in Hb as [Hb Hbl]. unfold decode_utf8. destruct l as [|b1 l].
  { destruct (Z.leb_spec 0x80 b); [done|]. unfold valid_code. lia. }
  destruct (negb _); [done|]. destruct (decode_tail _ _) as [code|] eqn:Ed; [|done].
  destruct (Z.eqb_spec code 0xFFFE); [done|]. destruct (Z.eqb_spec code 0xFFFF); [done|].
  destruct (Z.leb_spec 0xD800 code), (Z.leb_spec code 0xDFFF); cbn [andb]; try done; intros _ Hm; unfold valid_code; (split; [|lia]); (split; [|done]).
  all: enough (forall l a c, 0 <= a -> decode_tail a l = Some c -> 0 <= c) as He by (eapply He, Ed; apply Z.land_nonneg; lia).
  all: clear; induction l as [|x l IH]; intros a c Ha Hc; cbn in Hc; [by injection Hc as <-|]; destruct (negb _); [done|]; eapply IH, Hc; apply Z.lor_nonneg; split; [by apply Z.shiftl_nonneg|apply Z.land_nonneg; right; lia].
Qed.

(** ** Whole strings *)
(** what is collected of a character: a first byte and some of the bytes that follow it *)
Lemma check_conts bs : forall i u l, Forall (fun b => starts b = false) bs -> (length u + length bs <= MAX_UTF8_SZ)%nat ->
  check_from i u (bs ++ l) = check_from (i + Z.of_nat (length bs)) (u ++ bs) l.
Proof.
  induction bs as [|b bs IH]; intros i u l Hs Hl; [by rewrite Z.add_0_r, app_nil_r|]. apply Forall_cons_1 in Hs as [Hb Hs]. cbn [length] in *.
  cbn [app check_from]. rewrite Hb, (proj2 (Nat.eqb_neq _ _)) by lia. rewrite IH; [|done|rewrite length_app; cbn; lia]. rewrite <- app_assoc. f_equal. lia.
Qed.

Lemma conts_follow i : forall u, Forall (fun b => starts b = false) (conts i u).
Proof.
  induction i as [|i IH]; intros u; cbn [conts]; [done|]. apply Forall_app. split; [done|]. apply Forall_singleton. unfold starts.
  pose proof (Z.mod_pos_bound u 64 ltac:(lia)). destruct (cont_byte (u mod 64)) as (E & E2 & _); [lia|].
  rewrite (proj2 (Z.ltb_ge _ _)) by lia. by rewrite E2.
Qed.

Lemma check_complete cs : Forall valid_code cs -> forall i u, flush_ok u = true -> check_from i u (concat (utf8 <$> cs)) = 0.
Proof.
  induction 1 as [|c cs Hc _ IH]; intros i u Hu; [cbn; by rewrite Hu|]. change (concat (utf8 <$> c :: cs)) with (utf8 c ++ concat (utf8 <$> cs)).
  destruct (decide (c < 0x80)) as [Hl|Hl].
  - rewrite utf8_ascii by (unfold valid_code in Hc; lia). cbn [app check_from]. unfold starts at 1. rewrite (proj2 (Z.ltb_lt c 0x80)), Hu, (proj2 (Z.leb_gt 0x80 c)) by lia. by apply IH.
  - pose proof (flush_char c Hc ltac:(lia)) as Hf. destruct (utf8_long c) as (n & Hn & Hq & E); [unfold valid_code in Hc; lia|].
    unfold utf8 in Hf |- * at 1. rewrite E in *. cbn [from_option] in *. unfold id in *. destruct (lead_byte n _ Hn Hq) as (Hb & Hs & _).
    cbn [app check_from]. rewrite Hs, Hu, (proj2 (Z.leb_le 0x80 _)) by lia. rewrite check_conts; [by apply IH|apply conts_follow|]. rewrite conts_length. unfold MAX_UTF8_SZ. cbn. lia.
Qed.

Lemma check_sound l : forall i u, Forall (fun b => 0 <= b < 256) (u ++ l) -> 0 <= i -> check_from i u l = 0 ->
  exists cs, Forall valid_code cs /\ u ++ l = concat (utf8 <$> cs).
Proof.
  assert (forall u, flush_ok u = true -> Forall (fun b => 0 <= b < 256) u -> exists cs, Forall valid_code cs /\ u = concat (utf8 <$> cs)) as Hfl.
  { intros u Hf Hu. destruct (flush_inv u Hf Hu) as [-> |(c & Hc & ->)]; [by exists []|]. exists [c]. cbn. rewrite app_nil_r. auto. }
  induction l as [|c l IH]; intros i u Hb Hi; cbn [check_from].
  - destruct (flush_ok u) eqn:Ef; [|lia]. intros _. rewrite app_nil_r in *. auto.
  - destruct (starts c) eqn:Es; [|destruct (_ =? _)%nat; [lia|]; intros Hc; change (u ++ c :: l) with (u ++ [c] ++ l) in *; rewrite app_assoc; apply (IH (i + 1)); [by rewrite <- app_assoc|lia|done]].
    destruct (flush_ok u) eqn:Ef; [|lia]. intros Hc. apply Forall_app in Hb as [Hu Hb]. destruct (Hfl u Ef Hu) as (cs & Hcs & ->). apply Forall_cons_1 in Hb as [Hb Hl].
    destruct (Z.leb_spec 0x80 c).
    + destruct (IH (i + 1) [c]) as (cs' & Hcs' & E); [by constructor|lia|done|]. exists (cs ++ cs'). rewrite Forall_app, fmap_app, concat_app, <- E. auto.
    + destruct (IH (i + 1) []) as (cs' & Hcs' & E); [done|lia|done|]. exists (cs ++ c :: cs').
      rewrite Forall_app, fmap_app, concat_app. split; [split; [done|constructor; [unfold valid_code; lia|done]]|]. cbn. rewrite utf8_ascii by lia. by rewrite <- E.
Qed.

(** C37 (equivalence): the validation of strings accepts exactly the UTF-8 encodings. For every string of
    bytes [check_utf8] returns 0 if and only if the string is the concatenation of the shortest
    encodings of code points below 2^31 none of which is a surrogate, 0xFFFE or 0xFFFF. Truncated
    characters, stray continuation bytes, overlong forms and seven-byte forms are refused. *)
Theorem check_utf8_exact (buf : list Z) :
  Forall (fun b => 0 <= b < 256) buf ->
  check_utf8 buf = 0 <-> exists cs, Forall valid_code cs /\ buf = concat (utf8 <$> cs).
Proof.
  intros Hb. split; [apply (check_sound buf 0 [] Hb); lia|]. intros (cs & Hcs & ->). by apply check_complete.
Qed.

(** "A", a two-byte and a three-byte character; then an overlong slash *)
Lemma check_utf8_exact_witness :
  (exists cs, Forall valid_code cs /\ [65; 0xC3; 0xA9; 0xE2; 0x82; 0xAC] = concat (utf8 <$> cs)) /\ ~ (exists cs, Forall valid_code cs /\ [0xC0; 0xAF] = concat (utf8 <$> cs)).
Proof.
  split; [apply check_utf8_exact; [repeat constructor; lia|vm_compute; reflexivity]|]. intros H.
  apply check_utf8_exact in H; [vm_compute in H; discriminate H|repeat constructor; lia].
Defined.

(** a refused string is refused at a position of the string or just after it *)
Lemma check_position l : forall i u, 0 <= i -> 0 <= check_from i u l <= i + Z.of_nat (length l) + 1.
Proof.
  induction l as [|c l IH]; intros i u Hi; cbn [check_from length]; [destruct (flush_ok u); lia|].
  destruct (starts c); [destruct (flush_ok u); [|lia]|destruct (_ =? _)%nat; [lia|]]; match goal with |- context [check_from ?i ?u l] => pose proof (IH i u ltac:(lia)) end; lia.
Qed.

(** the control character reported is the first of the string *)
Lemma control_first buf : forall i, 0 <= i ->
  match control_from i buf with
  | 0 => Forall (fun c => is_control_character c = false) buf
  | r => exists n c, r = i + Z.of_nat n + 1 /\ buf !! n = Some c /\ is_control_character c = true /\ Forall (fun c => is_control_character c = false) (take n buf)
  end.
Proof.
  induction buf as [|c buf IH]; intros i Hi; cbn [control_from]; [constructor|]. destruct (is_control_character c) eqn:Ec.
  - destruct (i + 1) eqn:E; [lia|rewrite <- E|lia]. exists 0%nat, c. splits; [lia|done|done|constructor].
  - pose proof (IH (i + 1) ltac:(lia)) as H. destruct (control_from (i + 1) buf) eqn:E; [by constructor| |];
      destruct H as (n & d & H1 & H2 & H3 & H4); exists (S n), d; (splits; [lia|done|done|by constructor]).
Qed.
