(* ===== verification/Conf.v ===== *)
(** * The configuration file

    Model of src/common/src/pf_conf_utils.cpp (the parser of the INI-style
    file: [trim_whitespace], [normalize_key_name], the line acceptor
    [process_line], the loop [load_from_buffer], [parse_file], [read] and the
    printing of a loaded file), src/common/src/pf_strtol.cpp (strict reading
    of integers) and src/common/src/pf_conf.cpp ([conf_open], [conf_get],
    [conf_get_int], [conf_get_long]).

    A text is the list of its bytes; [c_str()] ends at a zero byte.  The file
    system is an argument of [parse_file]: what [fopen], [fstat], [malloc]
    and [fread] give.  [isspace] is that of the C locale, [strtoll] that of
    the C standard for base 10.  A [std::map] is a finite map, iterated in
    the order of its keys; the lines of a section, a [std::set] ordered by
    key, are a map from keys to values (the [newsection] of a stored line is
    always empty).  Line numbers only occur in messages and are left out. *)

From Stdlib Require Import ZArith Lia String Ascii.
From stdpp Require Import base tactics list numbers gmap sorting.
From S2P Require Import Prelude Utf8.
Local Open Scope Z_scope.
Local Open Scope list_scope.

Abbreviation str := (list Z).

(** the bytes of a literal *)
Definition bytes (s : string) : str := (fun a => Z.of_N (N_of_ascii a)) <$> list_ascii_of_string s.

Local Abbreviation TAB := 9.
Local Abbreviation NL := 10.
Local Abbreviation SP := 32.
Local Abbreviation QUOTE := 34.
Local Abbreviation HASH := 35.
Local Abbreviation PLUS := 43.
Local Abbreviation MINUS := 45.
Local Abbreviation SEMI := 59.
Local Abbreviation EQUALS := 61.
Local Abbreviation LBRACKET := 91.
Local Abbreviation BACKSLASH := 92.
Local Abbreviation RBRACKET := 93.
Local Abbreviation UNDERSCORE := 95.

Definition S5_ESTART : Z := 512.
Definition S5_CONF_ERR : Z := S5_ESTART + 5.
Definition S5_INTERNAL_ERR : Z := S5_ESTART + 7.
Definition EBADF : Z := 9.
Definition EFAULT : Z := 14.
Definition MAX_CONFIG_FILE_SZ : Z := 0x40000000.

Definition isspace (c : Z) : bool := (c =? SP) || ((9 <=? c) && (c <=? 13)).

(** ** White space *)
Fixpoint skip_space (s : str) : str :=
  match s with
  | [] => []
  | c :: r => if isspace c then skip_space r else s
  end.

Fixpoint strip_internal (prev_was_space : bool) (s : str) : str :=
  match s with
  | [] => []
  | c :: s => if isspace c then (if prev_was_space then strip_internal true s else c :: strip_internal true s) else c :: strip_internal false s
  end.

Definition trim_whitespace (s : str) (internal : bool) : str :=
  let output := reverse (skip_space (reverse (skip_space s))) in
  if internal then strip_internal false output else output.

Definition normalize_key_name (key : str) : str := (fun c => if c =? SP then UNDERSCORE else c) <$> trim_whitespace key true.

(** ** One line *)
Record ConfLine := mkLine { key : str; val : str; newsection : str }.

Inductive acceptor_state_t :=
| ACCEPT_INIT
| ACCEPT_SECTION_NAME
| ACCEPT_KEY
| ACCEPT_VAL_START
| ACCEPT_UNQUOTED_VAL
| ACCEPT_QUOTED_VAL
| ACCEPT_COMMENT_START
| ACCEPT_COMMENT_TEXT.

(** the local variables of [process_line] *)
Record parse := mkParse { state : acceptor_state_t; p_key : str; p_val : str; p_newsection : str; comment : str; escaping : bool }.

Definition with_state (s : acceptor_state_t) (p : parse) : parse := mkParse s (p_key p) (p_val p) (p_newsection p) (comment p) (escaping p).
Definition with_escaping (e : bool) (p : parse) : parse := mkParse (state p) (p_key p) (p_val p) (p_newsection p) (comment p) e.
Definition with_key (k : str) (p : parse) : parse := mkParse (state p) k (p_val p) (p_newsection p) (comment p) (escaping p).
Definition with_val (v : str) (p : parse) : parse := mkParse (state p) (p_key p) v (p_newsection p) (comment p) (escaping p).
Definition with_newsection (n : str) (p : parse) : parse := mkParse (state p) (p_key p) (p_val p) n (comment p) (escaping p).
Definition with_comment (x : str) (p : parse) : parse := mkParse (state p) (p_key p) (p_val p) (p_newsection p) x (escaping p).

(** what the body of the loop does with a character: go on, look at it again
    in the new state ([--l]), or return *)
Inductive next :=
| More (p : parse)
| Again (p : parse)
| Return (r : Z) (set : option ConfLine).

Definition set_val (p : parse) : option ConfLine := Some (mkLine (p_key p) (p_val p) (p_newsection p)).

Definition comment_mark (c : Z) : bool := (c =? HASH) || (c =? SEMI).

Definition accept (p : parse) (c : Z) : next :=
  match state p with
  | ACCEPT_INIT =>
      if c =? 0 then Return (- ENOENT) None
      else if c =? LBRACKET then More (with_state ACCEPT_SECTION_NAME p)
      else if comment_mark c then More (with_state ACCEPT_COMMENT_TEXT p)
      else if c =? RBRACKET then Return (- S5_CONF_ERR) None
      else if isspace c then More p
      else Again (with_state ACCEPT_KEY p)
  | ACCEPT_SECTION_NAME =>
      if c =? 0 then Return (- S5_CONF_ERR) None
      else if (c =? RBRACKET) && negb (escaping p) then
        let p := with_newsection (trim_whitespace (p_newsection p) true) p in
        if bool_decide (p_newsection p = []) then Return (- S5_CONF_ERR) None else More (with_state ACCEPT_COMMENT_START p)
      else if comment_mark c && negb (escaping p) then Return (- S5_CONF_ERR) None
      else if (c =? BACKSLASH) && negb (escaping p) then More (with_escaping true p)
      else More (with_escaping false (with_newsection (p_newsection p ++ [c]) p))
  | ACCEPT_KEY =>
      if (comment_mark c && negb (escaping p)) || (c =? 0) then Return (- S5_CONF_ERR) None
      else if (c =? EQUALS) && negb (escaping p) then
        let p := with_key (normalize_key_name (p_key p)) p in
        if bool_decide (p_key p = []) then Return (- S5_CONF_ERR) None else More (with_state ACCEPT_VAL_START p)
      else if (c =? BACKSLASH) && negb (escaping p) then More (with_escaping true p)
      else More (with_escaping false (with_key (p_key p ++ [c]) p))
  | ACCEPT_VAL_START =>
      if c =? 0 then Return 0 (set_val p)
      else if comment_mark c then More (with_state ACCEPT_COMMENT_TEXT p)
      else if c =? QUOTE then More (with_state ACCEPT_QUOTED_VAL p)
      else if isspace c then More p
      else Again (with_state ACCEPT_UNQUOTED_VAL p)
  | ACCEPT_UNQUOTED_VAL =>
      if c =? 0 then
        if escaping p then Return (- S5_CONF_ERR) None
        else Return 0 (set_val (with_val (trim_whitespace (p_val p) false) p))
      else if comment_mark c && negb (escaping p) then More (with_state ACCEPT_COMMENT_TEXT (with_val (trim_whitespace (p_val p) false) p))
      else if (c =? BACKSLASH) && negb (escaping p) then More (with_escaping true p)
      else More (with_escaping false (with_val (p_val p ++ [c]) p))
  | ACCEPT_QUOTED_VAL =>
      if c =? 0 then Return (- S5_CONF_ERR) None
      else if (c =? QUOTE) && negb (escaping p) then More (with_state ACCEPT_COMMENT_START p)
      else if (c =? BACKSLASH) && negb (escaping p) then More (with_escaping true p)
      else More (with_escaping false (with_val (p_val p ++ [c]) p))
  | ACCEPT_COMMENT_START =>
      if c =? 0 then Return 0 (set_val p)
      else if comment_mark c then More (with_state ACCEPT_COMMENT_TEXT p)
      else if isspace c then More p
      else Return (- S5_CONF_ERR) None
  | ACCEPT_COMMENT_TEXT =>
      if c =? 0 then Return 0 (set_val p) else More (with_comment (comment p ++ [c]) p)
  end.

(** the loop of [process_line]; the byte after the text is the zero byte, and
    reading past it would be undefined *)
Fixpoint process_from (line : str) (p : parse) : outcome (Z * option ConfLine) :=
  let c := match line with [] => 0 | c :: _ => c end in
  match match accept p c with Again p' => accept p' c | n => n end with
  | Return r set => Done (r, set)
  | More p' | Again p' => match line with [] => Undef | _ :: line => process_from line p' end
  end.

Definition process_line (line : str) (conf_line : ConfLine) : outcome (Z * ConfLine) :=
  let* r := process_from line (mkParse ACCEPT_INIT [] [] [] [] false) in
  Done (r.1, default conf_line r.2).

(** ** The file *)
Abbreviation Sections := (gmap str (gmap str str)).

(** the variables of [load_from_buffer] that live across lines *)
Record loader := mkLoader { sections : Sections; cur_section : str; acc : str; cline : ConfLine }.

Definition with_acc (a : str) (ld : loader) : loader := mkLoader (sections ld) (cur_section ld) a (cline ld).

(** [sections.insert]: an existing section stays *)
Definition insert_section (s : str) (m : Sections) : Sections := match m !! s with Some _ => m | None => <[s := ∅]> m end.

Definition store_line (cl : ConfLine) (ld : loader) : loader :=
  if negb (bool_decide (newsection cl = [])) then mkLoader (insert_section (newsection cl) (sections ld)) (newsection cl) (acc ld) cl
  else mkLoader (alter (<[key cl := val cl]>) (cur_section ld) (sections ld)) (cur_section ld) (acc ld) cl.

(** the bytes before the first newline, as [memchr] finds it *)
Fixpoint line_of (l : str) : option str :=
  match l with
  | [] => None
  | c :: l => if c =? NL then Some [] else (cons c) <$> line_of l
  end.

(** the loop, with the rest of the buffer from [b] on *)
Fixpoint load_loop (fuel : nat) (b : str) (line_len : nat) (ret : Z) (ld : loader) : outcome (Z * loader) :=
  match fuel with
  | O => Undef
  | S n =>
      let b := drop line_len b in
      match b with
      | [] => Done (ret, ld)
      | _ =>
          match line_of b with
          | None => Done (- S5_CONF_ERR, ld)
          | Some line =>
              let line_len := length line in
              if existsb (Z.eqb 0) line then load_loop n b line_len ret (with_acc [] ld)
              else if negb (check_utf8 line =? 0) then load_loop n b line_len ret (with_acc [] ld)
              else if (1 <=? line_len)%nat && (nth (line_len - 1) line 0 =? BACKSLASH) then
                load_loop n b line_len ret (with_acc (acc ld ++ take (line_len - 1) line) ld)
              else
                let* r := process_line (acc ld ++ line) (cline ld) in
                let '(ret, cl) := r in
                let ld := with_acc [] (mkLoader (sections ld) (cur_section ld) (acc ld) cl) in
                let line_len := S line_len in
                if negb (ret =? 0) then
                  if ret =? - ENOENT then load_loop n b line_len 0 ld else Done (ret, ld)
                else load_loop n b line_len ret (store_line cl ld)
          end
      end
  end.

Definition load_from_buffer (secs : Sections) (buf : str) : outcome (Z * Sections) :=
  let* r := load_loop (S (length buf)) buf 0 0 (mkLoader (insert_section (bytes "global") secs) (bytes "global") [] (mkLine [] [] [])) in
  let '(ret, ld) := r in
  Done (if bool_decide (acc ld = []) then ret else - S5_CONF_ERR, sections ld).

(** what the system calls of [parse_file] give *)
Record conf_env := mkEnv { fopen_errno : Z; fstat_errno : Z; st_size : Z; malloc_ok : bool; fread_data : str; ferror : bool }.

Definition parse_file (e : conf_env) : outcome (Z * Sections) :=
  if negb (fopen_errno e =? 0) then Done (- fopen_errno e, ∅)
  else if negb (fstat_errno e =? 0) then
    Done (if (fstat_errno e =? EBADF) || (fstat_errno e =? EFAULT) then - S5_INTERNAL_ERR else - fstat_errno e, ∅)
  else if MAX_CONFIG_FILE_SZ <? st_size e then Done (- EINVAL, ∅)
  else if negb (malloc_ok e) then Done (- ENOMEM, ∅)
  else if negb (Z.of_nat (length (fread_data e)) =? st_size e) then
    Done (if ferror e then - S5_INTERNAL_ERR else - EIO, ∅)
  else load_from_buffer ∅ (fread_data e).

Definition read (cf : Sections) (section k : str) : Z * option str :=
  let k := normalize_key_name k in
  match cf !! section with
  | None => (- ENOENT, None)
  | Some lines => match lines !! k with None => (- ENOENT, None) | Some v => (0, Some v) end
  end.

(** *** Printing *)
Fixpoint str_le (a b : str) : bool :=
  match a, b with
  | [], _ => true
  | _ :: _, [] => false
  | x :: a, y :: b => (x <? y) || ((x =? y) && str_le a b)
  end.

Definition key_le {A} (x y : str * A) : Prop := Is_true (str_le x.1 y.1).

#[global] Instance key_le_dec {A} (x y : str * A) : Decision (key_le x y).
Proof. unfold key_le. apply _. Defined.

(** a map in the order of its keys *)
Definition in_order {A} (m : gmap str A) : list (str * A) := merge_sort key_le (map_to_list m).

Definition print_line (kv : str * str) : str :=
  if bool_decide (kv.1 = []) then [] else [TAB] ++ kv.1 ++ [SP; EQUALS; SP; QUOTE] ++ kv.2 ++ [QUOTE; NL].

Definition print_section (s : str * gmap str str) : str :=
  [LBRACKET] ++ s.1 ++ [RBRACKET; NL] ++ concat (print_line <$> in_order s.2).

Definition print_conf (cf : Sections) : str := concat (print_section <$> in_order cf).

(** ** Integers *)
Definition LLONG_MAX : Z := 2 ^ 63 - 1.
Definition LLONG_MIN : Z := - 2 ^ 63.
Definition INT_MAX : Z := 2 ^ 31 - 1.
Definition INT_MIN : Z := - 2 ^ 31.

Definition isdigit (c : Z) : bool := (48 <=? c) && (c <=? 57).

Fixpoint digits (n : Z) (s : str) : Z * str :=
  match s with
  | [] => (n, [])
  | c :: r => if isdigit c then digits (10 * n + (c - 48)) r else (n, s)
  end.

(** [strtoll(str, &endptr, 10)]: the value, whether [errno] is ERANGE, and
    what is left from [endptr] on ([None] for [endptr == str]) *)
Definition convert (neg : bool) (s : str) : Z * bool * option str :=
  match s with
  | c :: _ =>
      if isdigit c then
        let '(n, rest) := digits 0 s in
        let n := if neg then - n else n in
        if LLONG_MAX <? n then (LLONG_MAX, true, Some rest)
        else if n <? LLONG_MIN then (LLONG_MIN, true, Some rest)
        else (n, false, Some rest)
      else (0, false, None)
  | [] => (0, false, None)
  end.

Definition strtoll (s : str) : Z * bool * option str :=
  let s := skip_space s in
  match s with
  | c :: r => if c =? MINUS then convert true r else if c =? PLUS then convert false r else convert false s
  | [] => convert false s
  end.

(** the messages left in [err] *)
Inductive strtol_err := RangeErr | ExpectedInteger | Garbage | IntUnderflow | IntOverflow.

Definition strict_strtoll (s : str) : Z * option strtol_err :=
  let '(ret, erange, rest) := strtoll s in
  if (erange && ((ret =? LLONG_MAX) || (ret =? LLONG_MIN))) || (erange && (ret =? 0)) then (0, Some RangeErr)
  else
    match rest with
    | None => (0, Some ExpectedInteger)
    | Some (_ :: _) => (0, Some Garbage)
    | Some [] => (ret, None)
    end.

Definition strict_strtol (s : str) : Z * option strtol_err :=
  let '(ret, err) := strict_strtoll s in
  match err with
  | Some e => (0, Some e)
  | None =>
      if ret <=? INT_MIN then (0, Some IntUnderflow)
      else if INT_MAX <=? ret then (0, Some IntOverflow)
      else (ret, None)
  end.

(** ** The interface *)
Definition conf_open (e : conf_env) : outcome (option Sections) :=
  let* r := parse_file e in
  Done (if negb (r.1 =? 0) then None else Some r.2).

(** a null [def_val] is [None]; [S5LOG_FATAL] ends the process *)
Definition conf_get (cf : Sections) (section k : str) (def_val : option str) (fatal_on_error : bool) : outcome (option str) :=
  let '(ret, value) := read cf section k in
  if ret <? 0 then (if fatal_on_error then Fatal else Done def_val) else Done value.

Definition conf_get_with (strto : str -> Z * option strtol_err) (cf : Sections) (section k : str) (def_val : Z) (fatal_on_error : bool) : outcome Z :=
  let* buf := conf_get cf section k None fatal_on_error in
  match buf with
  | None => Done def_val
  | Some buf => let '(value, err) := strto buf in match err with Some _ => Fatal | None => Done value end
  end.

Definition conf_get_int := conf_get_with strict_strtol.

Definition conf_get_long := conf_get_with strict_strtoll.

(** ** Lines *)
(** the acceptor does not step back twice on a character, and always returns at the end of the text *)
Lemma accept_again p c p' : accept p c = Again p' -> forall p'', accept p' c <> Again p''.
Proof. destruct p as [st k v ns cm e], st; cbn; repeat case_match; intros [= <-] p''; cbn; repeat case_match; done. Qed.

Lemma accept_end p : exists r set, match accept p 0 with Again p' => accept p' 0 | n => n end = Return r set.
Proof. destruct p as [st k v ns cm e], st; cbn; try destruct e; cbn; try destruct (comment_mark 0 && _); eauto. Qed.

Lemma process_from_done line : forall p, exists r, process_from line p = Done r.
Proof.
  induction line as [|c line IH]; intros p; cbn [process_from].
  - destruct (accept_end p) as (r & set & ->). eauto.
  - destruct (match accept p c with Again p' => accept p' c | n => n end); eauto.
Qed.

(** the acceptor reads each line to its end: it never runs past the zero byte *)
Lemma process_line_done line cl : exists r cl', process_line line cl = Done (r, cl').
Proof. unfold process_line. destruct (process_from_done line (mkParse ACCEPT_INIT [] [] [] [] false)) as [[r o] ->]. cbn. eauto. Qed.

(** the possible results *)
Lemma process_from_codes line : forall p r set, process_from line p = Done (r, set) ->
  (r = 0 /\ set <> None) \/ (set = None /\ (r = - ENOENT \/ r = - S5_CONF_ERR)).
Proof.
  assert (forall p c r set, accept p c = Return r set -> (r = 0 /\ set <> None) \/ (set = None /\ (r = - ENOENT \/ r = - S5_CONF_ERR))) as Ha.
  { intros [st k v ns cm e] c r set; destruct st; cbn; repeat case_match; intros Hr; inversion Hr; subst; auto; left; done. }
  induction line as [|c line IH]; intros p r set; cbn [process_from].
  - destruct (accept_end p) as (r' & set' & E). rewrite E. intros [= -> ->]. destruct (accept p 0) eqn:Ep; [done|eauto|eauto]. rewrite <- Ep in E. eauto.
  - destruct (accept p c) eqn:Ep; [apply IH| |intros [= -> ->]; eauto]. destruct (accept p0 c) eqn:Ep0; [apply IH|apply IH|intros [= -> ->]; eauto].
Qed.

(** *** Plain characters *)
Definition plain (special : list Z) (s : str) : Prop := Forall (fun c => c ∉ 0 :: NL :: special) s.

Lemma eqb_out (c d : Z) (l : list Z) : c ∉ l -> d ∈ l -> (c =? d) = false.
Proof. intros H Hd. apply Z.eqb_neq. intros ->. done. Qed.

Ltac not_special :=
  repeat match goal with
  | H : ?c ∉ ?l |- context [?c =? ?d] => rewrite (eqb_out c d l H) by (rewrite !elem_of_cons; tauto)
  end.

Lemma accept_section s : forall p line, plain [RBRACKET; HASH; SEMI; BACKSLASH] s -> state p = ACCEPT_SECTION_NAME -> escaping p = false ->
  process_from (s ++ line) p = process_from line (with_newsection (p_newsection p ++ s) p).
Proof.
  induction s as [|c s IH]; intros [st k v ns cm e] line Hs Est Ee; cbn in *; subst; [by rewrite app_nil_r|]. apply Forall_cons_1 in Hs as [Hc Hs].
  unfold accept, comment_mark. cbn [state escaping]. not_special. cbn. rewrite IH by done. cbn. by rewrite <- app_assoc.
Qed.

Lemma accept_key s : forall p line, plain [EQUALS; HASH; SEMI; BACKSLASH] s -> state p = ACCEPT_KEY -> escaping p = false ->
  process_from (s ++ line) p = process_from line (with_key (p_key p ++ s) p).
Proof.
  induction s as [|c s IH]; intros [st k v ns cm e] line Hs Est Ee; cbn in *; subst; [by rewrite app_nil_r|]. apply Forall_cons_1 in Hs as [Hc Hs].
  unfold accept, comment_mark. cbn [state escaping]. not_special. cbn. rewrite IH by done. cbn. by rewrite <- app_assoc.
Qed.

(** between quotes a quote and a backslash are written with a backslash before them *)
Definition escape (v : str) : str := concat ((fun c => if (c =? QUOTE) || (c =? BACKSLASH) then [BACKSLASH; c] else [c]) <$> v).

Lemma accept_quoted s : forall p line, Forall (fun c => c <> 0) s -> state p = ACCEPT_QUOTED_VAL -> escaping p = false ->
  process_from (escape s ++ line) p = process_from line (with_val (p_val p ++ s) p).
Proof.
  induction s as [|c s IH]; intros [st k v ns cm e] line Hs Est Ee; cbn in *; subst; [by rewrite app_nil_r|]. apply Forall_cons_1 in Hs as [Hc Hs].
  apply Z.eqb_neq in Hc. destruct (Z.eqb_spec c QUOTE) as [-> |Hq]; [|destruct (Z.eqb_spec c BACKSLASH) as [-> |Hb]].
  - cbn. rewrite IH by done. cbn. by rewrite <- app_assoc.
  - cbn. rewrite IH by done. cbn. by rewrite <- app_assoc.
  - apply Z.eqb_neq in Hq, Hb. cbn. rewrite Hc, Hq, Hb. cbn. rewrite IH by done. cbn. by rewrite <- app_assoc.
Qed.

(** *** White space around a key *)
Lemma skip_space_app a b : skip_space (a ++ b) = match skip_space a with [] => skip_space b | r => r ++ b end.
Proof. induction a as [|c a IH]; [done|]. cbn. destruct (isspace c); [apply IH|done]. Qed.

Lemma trim_space k i : trim_whitespace (k ++ [SP]) i = trim_whitespace k i.
Proof.
  unfold trim_whitespace. rewrite skip_space_app. destruct (skip_space k) as [|c r]; [done|]. by rewrite reverse_app.
Qed.

(** the bytes of valid UTF-8 *)
Definition text_ok (s : str) : Prop := Forall (fun c => 0 <= c < 256) s /\ check_utf8 s = 0.

Lemma text_app a b : text_ok a -> text_ok b -> text_ok (a ++ b).
Proof.
  intros [Ha Ca] [Hb Cb]. split; [by apply Forall_app|].
  destruct (check_sound a 0 [] Ha ltac:(lia) Ca) as (ca & Hca & Ea), (check_sound b 0 [] Hb ltac:(lia) Cb) as (cb & Hcb & Eb). cbn in Ea, Eb. subst.
  rewrite <- concat_app, <- fmap_app. apply check_complete; [by apply Forall_app|done].
Qed.

Definition section_ok (s : str) : Prop :=
  s <> [] /\ plain [RBRACKET; HASH; SEMI; BACKSLASH] s /\ trim_whitespace s true = s /\ text_ok s.

Definition key_ok (k : str) : Prop :=
  (exists c r, k = c :: r /\ isspace c = false /\ c ∉ [LBRACKET; RBRACKET])
  /\ plain [EQUALS; HASH; SEMI; BACKSLASH] k /\ normalize_key_name k = k /\ text_ok k.

Definition val_ok (v : str) : Prop := plain [QUOTE; BACKSLASH] v /\ text_ok v.

Lemma section_line s cl : section_ok s -> process_line ([LBRACKET] ++ s ++ [RBRACKET]) cl = Done (0, mkLine [] [] s).
Proof.
  intros (Hn & Hp & Ht & _). unfold process_line. cbn [app process_from]. unfold accept at 1. cbn [state Z.eqb Pos.eqb].
  rewrite accept_section by done. cbn -[trim_whitespace]. rewrite Ht, bool_decide_eq_false_2 by done. done.
Qed.

Lemma key_line k v cl : key_ok k -> Forall (fun c => c <> 0) v ->
  process_line ([TAB] ++ k ++ [SP; EQUALS; SP; QUOTE] ++ escape v ++ [QUOTE]) cl = Done (0, mkLine k v []).
Proof.
  intros ((c & r & -> & Hs & Hb) & Hp & Hk & _) Hv. unfold process_line. cbn [app process_from]. unfold accept at 1. cbn [state Z.eqb Pos.eqb comment_mark orb isspace Z.leb Z.compare Pos.compare Pos.compare_cont andb].
  apply Forall_cons_1 in Hp as [Hc Hp]. unfold accept at 1. cbn [state]. unfold comment_mark. not_special. rewrite Hs. cbn [orb].
  unfold accept at 1. cbn [state with_state escaping]. unfold comment_mark. not_special. cbn [andb orb].
  rewrite accept_key by done. cbn [p_key with_key with_escaping with_state app].
  cbn -[normalize_key_name escape app].
  unfold normalize_key_name in *. rewrite (trim_space (c :: r) true), Hk.
  rewrite bool_decide_eq_false_2 by done. cbn -[escape app]. rewrite accept_quoted by done. done.
Qed.

Lemma escape_plain v : plain [QUOTE; BACKSLASH] v -> escape v = v.
Proof. induction 1 as [|c v Hc _ IH]; [done|]. cbn. not_special. cbn. f_equal. exact IH. Qed.

(** ** The loop *)
Lemma load_skip n k b ret ld : load_loop n b k ret ld = load_loop n (drop k b) 0 ret ld.
Proof. by destruct n. Qed.

Lemma line_of_app line rest : NL ∉ line -> line_of (line ++ NL :: rest) = Some line.
Proof.
  induction line as [|c line IH]; intros H; cbn; [done|]. apply not_elem_of_cons in H as [Hc H]. rewrite (proj2 (Z.eqb_neq c NL)) by done. by rewrite IH.
Qed.

Lemma line_of_some b line : line_of b = Some line -> exists rest, b = line ++ NL :: rest.
Proof.
  revert line. induction b as [|c b IH]; intros line; cbn; [done|]. destruct (Z.eqb_spec c NL) as [-> |]; [intros [= <-]; by exists b|].
  destruct (line_of b) as [l|]; [|done]. intros [= <-]. destruct (IH l eq_refl) as [rest ->]. by exists rest.
Qed.

Lemma no_nul line : 0 ∉ line -> existsb (Z.eqb 0) line = false.
Proof. induction line as [|c line IH]; intros H; [done|]. apply not_elem_of_cons in H as [Hc H]. cbn [existsb]. rewrite IH by done. by rewrite (proj2 (Z.eqb_neq 0 c)). Qed.

Lemma drop_line line rest : drop (S (length line)) (line ++ NL :: rest) = rest.
Proof. induction line as [|c line IH]; [done|]. exact IH. Qed.

(** a line is a valid text without newline, zero byte and a backslash at its end *)
Definition line_ok (line : str) : Prop :=
  (0 ∉ line) /\ (NL ∉ line) /\ check_utf8 line = 0 /\ ((1 <=? length line)%nat && (nth (length line - 1) line 0 =? BACKSLASH)) = false.

Lemma load_step n line rest ret ld : line_ok line ->
  load_loop (S n) (line ++ NL :: rest) 0 ret ld =
    let* r := process_line (acc ld ++ line) (cline ld) in
    let '(ret, cl) := r in
    let ld := mkLoader (sections ld) (cur_section ld) [] cl in
    if negb (ret =? 0) then
      if ret =? - ENOENT then load_loop n rest 0 0 ld else Done (ret, ld)
    else load_loop n rest 0 ret (store_line cl ld).
Proof.
  intros (H0 & Hn & Hu & Hb). cbn [load_loop]. rewrite drop_0. destruct (line ++ NL :: rest) as [|c0 b0] eqn:Eb; [by destruct line|]. rewrite <- Eb. clear Eb.
  rewrite line_of_app by done. rewrite no_nul, Hu, Hb by done. cbn [Z.eqb negb]. destruct (process_line _ _) as [[r cl]| |]; [|done|done]. cbn [obind].
  destruct (negb (r =? 0)); [destruct (r =? - ENOENT); [|done]|]; rewrite load_skip, drop_line; done.
Qed.

(** a text of lines that all parse *)
Lemma load_lines ps : forall n ld, (length ps < n)%nat -> acc ld = [] ->
  Forall (fun p => line_ok p.1 /\ forall cl, process_line p.1 cl = Done (0, p.2)) ps ->
  load_loop n (concat ((fun p => p.1 ++ [NL]) <$> ps)) 0 0 ld = Done (0, foldl (fun ld p => store_line p.2 ld) ld ps).
Proof.
  induction ps as [|[line cl] ps IH]; intros n ld Hn Ha Hps; (destruct n as [|n]; [cbn in Hn; lia|]); [done|].
  apply Forall_cons_1 in Hps as [[Hl Hp] Hps]. cbn [fst snd] in *. cbn [fmap list_fmap concat]. rewrite <- app_assoc. cbn [app].
  rewrite load_step by done. rewrite Ha, Hp. cbn [obind]. cbn [Z.eqb negb foldl snd]. cbn in Hn. destruct ld as [sx cu ac cl0]. cbn in Ha. subst ac.
  rewrite IH; [|lia|unfold store_line; by destruct (negb _)|done]. done.
Qed.

(** ** Round trip *)
Definition lines_ok (m : gmap str str) : Prop := map_Forall (fun k v => key_ok k /\ val_ok v) m.

Definition conf_ok (cf : Sections) : Prop := map_Forall (fun s m => section_ok s /\ lines_ok m) cf.

Definition section_text (s : str) : str * ConfLine := ([LBRACKET] ++ s ++ [RBRACKET], mkLine [] [] s).
Definition key_text (kv : str * str) : str * ConfLine := ([TAB] ++ kv.1 ++ [SP; EQUALS; SP; QUOTE] ++ kv.2 ++ [QUOTE], mkLine kv.1 kv.2 []).

Definition section_lines (s : str * gmap str str) : list (str * ConfLine) := section_text s.1 :: (key_text <$> in_order s.2).

Lemma in_order_perm {A} (m : gmap str A) : in_order m ≡ₚ map_to_list m.
Proof. apply merge_sort_Permutation. Qed.

Lemma in_order_elem {A} (m : gmap str A) k a : (k, a) ∈ in_order m <-> m !! k = Some a.
Proof. rewrite in_order_perm. apply elem_of_map_to_list. Qed.

Lemma in_order_forall {A} (P : str -> A -> Prop) (m : gmap str A) : map_Forall P m -> Forall (fun x => P x.1 x.2) (in_order m).
Proof. intros H. apply Forall_forall. intros [k a] Hk. apply H. by apply in_order_elem. Qed.

Lemma concat_concat {A} (l : list (list (list A))) : concat (concat l) = concat (@concat A <$> l).
Proof. induction l as [|x l IH]; [done|]. cbn. by rewrite concat_app, IH. Qed.

Lemma fmap_concat {A B} (f : A -> B) (l : list (list A)) : f <$> concat l = concat ((fun x : list A => f <$> x) <$> l).
Proof. induction l as [|x l IH]; [done|]. cbn. by rewrite fmap_app, IH. Qed.

Lemma print_lines cf : conf_ok cf -> print_conf cf = concat ((fun p => p.1 ++ [NL]) <$> concat (section_lines <$> in_order cf)).
Proof.
  intros H. apply in_order_forall in H. unfold print_conf. rewrite fmap_concat, concat_concat. f_equal. rewrite <- !list_fmap_compose.
  apply list_fmap_ext. intros i [s m] Hi. pose proof (Forall_lookup_1 _ _ _ _ H Hi) as [_ Hm]. cbn [fst snd] in Hm.
  unfold compose, print_section, section_lines. cbn [fst snd fmap list_fmap concat section_text]. rewrite <- !app_assoc. cbn [app]. do 2 f_equal. do 2 f_equal.
  apply in_order_forall in Hm. induction Hm as [|[k v] l [Hk _] _ IH]; [done|]. cbn [fmap list_fmap concat]. rewrite IH. f_equal.
  unfold print_line, key_text. cbn [fst snd]. rewrite bool_decide_eq_false_2 by (intros ->; destruct Hk as ((? & ? & ? & _) & _); done). by rewrite <- !app_assoc.
Qed.

Lemma plain_out sp s d : plain sp s -> d ∈ 0 :: NL :: sp -> d ∉ s.
Proof. intros H Hd Hs. eapply Forall_forall in H; [|done]. done. Qed.

(** a last byte that is no backslash *)
Lemma last_ok l c : c <> BACKSLASH -> ((1 <=? length (l ++ [c]))%nat && (nth (length (l ++ [c]) - 1) (l ++ [c]) 0 =? BACKSLASH)) = false.
Proof.
  intros Hc. rewrite length_app. cbn [length]. replace (length l + 1 - 1)%nat with (length l) by lia. rewrite nth_middle.
  rewrite (proj2 (Z.eqb_neq c BACKSLASH)) by done. apply andb_false_r.
Qed.

Lemma section_text_ok s : section_ok s -> line_ok (section_text s).1 /\ forall cl, process_line (section_text s).1 cl = Done (0, (section_text s).2).
Proof.
  intros Hs. split; [|intros cl; by apply section_line]. destruct Hs as (Hn & Hp & _ & Ht). unfold section_text. cbn [fst].
  pose proof (plain_out _ s 0 Hp ltac:(by constructor)). pose proof (plain_out _ s NL Hp ltac:(by repeat constructor)). unfold line_ok. splits.
  - rewrite !elem_of_app, !list_elem_of_singleton. intuition lia.
  - rewrite !elem_of_app, !list_elem_of_singleton. intuition lia.
  - apply (text_app [LBRACKET]); [|apply text_app; [done|]]; (split; [repeat constructor; lia|reflexivity]).
  - rewrite app_assoc. by apply last_ok.
Qed.

Lemma key_text_ok kv : key_ok kv.1 -> val_ok kv.2 -> line_ok (key_text kv).1 /\ forall cl, process_line (key_text kv).1 cl = Done (0, (key_text kv).2).
Proof.
  destruct kv as [k v]. cbn [fst snd]. intros Hk [Hpv Htv]. pose proof (plain_out _ v 0 Hpv ltac:(by constructor)) as Hv0. pose proof (plain_out _ v NL Hpv ltac:(by repeat constructor)) as Hvn. split.
  - destruct Hk as (_ & Hp & _ & Ht). pose proof (plain_out _ k 0 Hp ltac:(by constructor)). pose proof (plain_out _ k NL Hp ltac:(by repeat constructor)).
    unfold line_ok, key_text. cbn [fst snd]. splits.
    + rewrite !elem_of_app, !elem_of_cons, !elem_of_nil. intuition lia.
    + rewrite !elem_of_app, !elem_of_cons, !elem_of_nil. intuition lia.
    + apply (text_app [TAB]); [|apply text_app; [done|apply (text_app [SP; EQUALS; SP; QUOTE]); [|apply text_app; [done|]]]]; (split; [repeat constructor; lia|reflexivity]).
    + rewrite !app_assoc. by apply last_ok.
  - intros cl. unfold key_text. cbn [fst snd]. rewrite <- (escape_plain v) at 1 by done. apply key_line; [done|].
    apply Forall_forall. intros c Hc ->. done.
Qed.

Lemma conf_lines_ok cf : conf_ok cf ->
  Forall (fun p => line_ok p.1 /\ forall cl, process_line p.1 cl = Done (0, p.2)) (concat (section_lines <$> in_order cf)).
Proof.
  intros H. apply in_order_forall in H. apply Forall_concat, Forall_fmap. eapply Forall_impl; [exact H|]. intros [s m] [Hs Hm]. unfold compose, section_lines.
  constructor; [by apply section_text_ok|]. apply Forall_fmap. eapply Forall_impl; [exact (in_order_forall _ _ Hm)|]. intros kv [Hk Hv]. by apply key_text_ok.
Qed.

Definition insert_all {A} (a : gmap str A) (l : list (str * A)) : gmap str A := foldl (fun m x => <[x.1 := x.2]> m) a l.

Lemma insert_all_union {A} (l : list (str * A)) : forall a, NoDup l.*1 -> insert_all a l = list_to_map l ∪ a.
Proof.
  induction l as [|[k v] l IH]; intros a Hl; cbn; [by rewrite (left_id_L ∅ (∪))|]. apply NoDup_cons in Hl as [Hk Hl]. unfold insert_all in IH. rewrite IH by done.
  rewrite <- insert_union_r by (by apply not_elem_of_list_to_map_1). by rewrite insert_union_l.
Qed.

Lemma in_order_keys {A} (m : gmap str A) : NoDup (in_order m).*1 /\ list_to_map (in_order m) = m.
Proof.
  assert (NoDup (in_order m).*1) as H by (rewrite in_order_perm; apply NoDup_fst_map_to_list).
  split; [done|]. rewrite (list_to_map_proper _ _ H (in_order_perm m)). apply list_to_map_to_list.
Qed.

Definition load_all (ld : loader) (ps : list (str * ConfLine)) : loader := foldl (fun ld p => store_line p.2 ld) ld ps.

Lemma load_keys l : forall m s x cl, m !! s = Some x ->
  exists cl', load_all (mkLoader m s [] cl) (key_text <$> l) = mkLoader (<[s := insert_all x l]> m) s [] cl'.
Proof.
  induction l as [|[k v] l IH]; intros m s x cl Hs; [exists cl; unfold insert_all; cbn [foldl]; by rewrite insert_id|]. cbn [fmap list_fmap load_all foldl]. unfold store_line at 2. cbn -[alter].
  assert (alter <[k := v]> s m = <[s := <[k := v]> x]> m) as ->.
  { apply map_eq. intros t. destruct (decide (t = s)) as [-> |Ht]; [by rewrite lookup_alter_eq, lookup_insert_eq, Hs|by rewrite lookup_alter_ne, lookup_insert_ne]. }
  destruct (IH (<[s := <[k := v]> x]> m) s (<[k := v]> x) (mkLine k v [])) as [cl' E]; [apply lookup_insert_eq|]. exists cl'. unfold load_all in E. rewrite E. by rewrite insert_insert_eq.
Qed.

Lemma store_section s m cur cl : s <> [] -> store_line (mkLine [] [] s) (mkLoader m cur [] cl) = mkLoader (insert_section s m) s [] (mkLine [] [] s).
Proof. intros Hs. unfold store_line. cbn [newsection sections acc]. by rewrite bool_decide_eq_false_2. Qed.

Lemma load_sections ss : forall m cur cl, NoDup ss.*1 -> Forall (fun s => s.1 <> [] /\ default ∅ (m !! s.1) = ∅) ss ->
  exists cur' cl', load_all (mkLoader m cur [] cl) (concat (section_lines <$> ss)) = mkLoader (insert_all m ss) cur' [] cl'.
Proof.
  induction ss as [|[s x] ss IH]; intros m cur cl Hnd Hs; [by exists cur, cl|]. apply NoDup_cons in Hnd as [Hn Hnd]. apply Forall_cons_1 in Hs as [[Hne Hm] Hs].
  cbn [fst snd] in *. cbn [fmap list_fmap concat]. unfold load_all. rewrite foldl_app. change (section_lines (s, x)) with (section_text s :: (key_text <$> in_order x)).
  cbn [foldl section_text snd]. rewrite store_section by done.
  assert (insert_section s m !! s = Some ∅) as Hi.
  { unfold insert_section. destruct (m !! s) as [y|] eqn:E; [cbn in Hm; by subst y|apply lookup_insert_eq]. }
  destruct (load_keys (in_order x) (insert_section s m) s ∅ (mkLine [] [] s) Hi) as [cl1 E1]. unfold load_all in E1. rewrite E1. clear E1.
  destruct (in_order_keys x) as [Hx Ex]. rewrite insert_all_union, Ex, (right_id_L ∅ (∪)) by done.
  assert (<[s := x]> (insert_section s m) = <[s := x]> m) as ->. { unfold insert_section. destruct (m !! s); [done|]. apply insert_insert_eq. }
  apply (IH (<[s := x]> m) s cl1 Hnd). apply Forall_forall. intros [t y] Ht. rewrite Forall_forall in Hs. destruct (Hs _ Ht) as [? Hd]. split; [done|].
  cbn in *. rewrite lookup_insert_ne; [done|]. intros ->. apply Hn. apply list_elem_of_fmap. by exists (t, y).
Qed.

Lemma lines_shorter ps : (length ps <= length (concat ((fun p : str * ConfLine => p.1 ++ [NL]) <$> ps)))%nat.
Proof. induction ps as [|[l cl] ps IH]; [done|]. cbn. rewrite !length_app. cbn. lia. Qed.

Lemma insert_section_empty (s : str) : insert_section s ∅ = {[s := ∅]}.
Proof. unfold insert_section. by rewrite lookup_empty. Qed.

Lemma union_section (s : str) (cf : Sections) : cf ∪ {[s := (∅ : gmap str str)]} = insert_section s cf.
Proof.
  apply map_eq. intros t. unfold insert_section. destruct (decide (t = s)) as [-> |Ht].
  - destruct (cf !! s) eqn:Eg; [by rewrite (lookup_union_Some_l _ _ _ _ Eg)|]. by rewrite lookup_union_r, lookup_insert_eq, lookup_singleton_eq.
  - rewrite lookup_union_l by (by rewrite lookup_singleton_ne). destruct (cf !! s); [done|by rewrite lookup_insert_ne].
Qed.

(** C38 (roundtrip): a printed configuration is read back. For every configuration whose section names,
    keys and values contain no character with a meaning of its own, parsing a file that holds what
    the printing of the configuration writes succeeds and gives the configuration, with the section
    "global" that the parser always adds, and opening it gives the same. *)
Theorem configuration_read_back (cf : Sections) (e : conf_env) :
  conf_ok cf ->
  fopen_errno e = 0 -> fstat_errno e = 0 -> malloc_ok e = true -> fread_data e = print_conf cf ->
  st_size e = Z.of_nat (length (print_conf cf)) -> st_size e <= MAX_CONFIG_FILE_SZ ->
  parse_file e = Done (0, insert_section (bytes "global") cf) /\ conf_open e = Done (Some (insert_section (bytes "global") cf)).
Proof.
  intros Hok H1 H2 H3 H4 H5 H6. enough (load_from_buffer ∅ (print_conf cf) = Done (0, insert_section (bytes "global") cf)) as H.
  { assert (parse_file e = Done (0, insert_section (bytes "global") cf)) as Hp; [|unfold conf_open; by rewrite Hp].
    unfold parse_file. rewrite H1, H2, H3, H4, H5, !Z.eqb_refl. rewrite H5 in H6. rewrite (proj2 (Z.ltb_ge _ _)) by lia. done. }
  unfold load_from_buffer. rewrite insert_section_empty. set (ps := concat (section_lines <$> in_order cf)). rewrite (print_lines cf Hok). fold ps. rewrite load_lines.
  - destruct (in_order_keys cf) as [Hnd Hcf]. destruct (load_sections (in_order cf) {[bytes "global" := ∅]} (bytes "global") (mkLine [] [] []) Hnd) as (cur & cl & E).
    + apply in_order_forall in Hok. eapply Forall_impl; [done|]. intros [s m] [[Hs _] _]. split; [done|]. cbn [fst].
      destruct (decide (s = bytes "global")) as [-> |Hne]; [by rewrite lookup_singleton_eq|by rewrite lookup_singleton_ne].
    + unfold load_all in E. fold ps in E. rewrite E. cbn [obind acc sections]. rewrite bool_decide_eq_true_2 by done. by rewrite insert_all_union, Hcf, union_section by done.
  - pose proof (lines_shorter ps). lia.
  - done.
  - by apply conf_lines_ok.
Qed.

(** ** Every text is read *)
Lemma load_total n : forall b ret ld, (length b < n)%nat -> acc ld = [] \/ (exists r, b = NL :: r) -> ret = 0 \/ ret = - S5_CONF_ERR ->
  exists ret' ld', load_loop n b 0 ret ld = Done (ret', ld') /\ acc ld' = [] /\ (ret' = 0 \/ ret' = - S5_CONF_ERR).
Proof.
  induction n as [|n IH]; intros b ret ld Hn Hacc Hret; [lia|]. cbn [load_loop]. rewrite drop_0. destruct b as [|c0 b0] eqn:Eb.
  { exists ret, ld. splits; [done|by destruct Hacc as [|(? & ?)]|done]. }
  rewrite <- Eb in *. clear Eb c0 b0. destruct (line_of b) as [line|] eqn:El.
  2: { exists (- S5_CONF_ERR), ld. splits; [done|destruct Hacc as [|(? & ->)]; done|by right]. }
  destruct (line_of_some b line El) as [rest ->]. rewrite length_app in Hn. cbn [length] in Hn.
  assert (forall ld', line <> [] -> exists ret' ld'', load_loop n (line ++ NL :: rest) (length line) ret ld' = Done (ret', ld'') /\ acc ld'' = [] /\ (ret' = 0 \/ ret' = - S5_CONF_ERR)) as Hc.
  { intros ld' Hl. rewrite load_skip, drop_app_length. apply IH; [|by right; exists rest|done]. destruct line; [done|]. cbn in *. lia. }
  destruct (existsb (Z.eqb 0) line) eqn:E0; [apply Hc; by intros -> |]. destruct (check_utf8 line =? 0) eqn:Eu; cbn [negb]; [|apply Hc; by intros -> ].
  destruct ((1 <=? length line)%nat && _) eqn:Eb; [apply Hc; by intros -> |].
  destruct (process_line_done (acc ld ++ line) (cline ld)) as (r & cl & Ep). rewrite Ep. cbn [obind].
  assert (r = 0 \/ r = - ENOENT \/ r = - S5_CONF_ERR) as Hr.
  { unfold process_line in Ep. destruct (process_from _ _) as [[r1 o]| |] eqn:Epf; [|done|done]. cbn [obind fst] in Ep. injection Ep as <- <-. apply process_from_codes in Epf. tauto. }
  destruct Hr as [-> |[-> | ->]]; cbn [Z.eqb negb].
  - rewrite load_skip, drop_line. apply IH; [lia| |by left]. left. unfold store_line. by destruct (negb _).
  - rewrite load_skip, drop_line. apply IH; [lia|by left|by left].
  - eexists _, _. splits; [reflexivity|done|by right].
Qed.

(** every buffer is read to its end or to the first line that does not parse, with one of two results *)
Lemma load_from_buffer_total secs buf : exists ret secs', load_from_buffer secs buf = Done (ret, secs') /\ (ret = 0 \/ ret = - S5_CONF_ERR).
Proof.
  unfold load_from_buffer.
  destruct (load_total (S (length buf)) buf 0 (mkLoader (insert_section (bytes "global") secs) (bytes "global") [] (mkLine [] [] []))) as (ret & ld & E & Ha & Hr); [lia|by left|by left|].
  rewrite E. cbn [obind]. rewrite bool_decide_eq_true_2 by done. eauto.
Qed.

Lemma load_continued n x rest ret ld : text_ok x -> line_ok x ->
  load_loop (S n) ((x ++ [BACKSLASH]) ++ NL :: rest) 0 ret ld = load_loop n (NL :: rest) 0 ret (with_acc (acc ld ++ x) ld).
Proof.
  intros Ht (H0 & Hn & Hu & Hb). cbn [load_loop]. rewrite drop_0. destruct ((x ++ [BACKSLASH]) ++ NL :: rest) as [|c0 b0] eqn:Eb; [by destruct x|]. rewrite <- Eb. clear c0 b0 Eb.
  rewrite line_of_app by (rewrite elem_of_app, list_elem_of_singleton; intuition lia). rewrite no_nul by (rewrite elem_of_app, list_elem_of_singleton; intuition lia).
  assert (text_ok (x ++ [BACKSLASH])) as [_ ->] by (apply text_app; [done|split; [repeat constructor; lia|reflexivity]]). cbn [Z.eqb negb].
  rewrite load_skip, drop_app_length. rewrite length_app. cbn [length]. replace (length x + 1 - 1)%nat with (length x) by lia. rewrite nth_middle, take_app_length.
  by rewrite (proj2 (Nat.leb_le 1 (length x + 1))) by lia.
Qed.

(** a backslash at the end of a line does not join the next line to it: the buffer is read as if the backslash were not there *)
Lemma continuation_ignored secs x rest : text_ok x -> line_ok x ->
  load_from_buffer secs (x ++ [BACKSLASH; NL] ++ rest) = load_from_buffer secs (x ++ [NL] ++ rest).
Proof.
  intros Ht Hx. unfold load_from_buffer. f_equal. rewrite !length_app. cbn [length app]. rewrite Nat.add_succ_r.
  change (x ++ BACKSLASH :: NL :: rest) with (x ++ [BACKSLASH] ++ NL :: rest). rewrite app_assoc, load_continued by done.
  replace (length x + (2 + length rest))%nat with (S (S (length x + length rest))) by lia.
  rewrite (load_step _ x rest) by done. match goal with |- load_loop (S ?n) _ _ ?ret ?ld = _ => pose proof (load_step n [] rest ret ld) as E end.
  cbn [app] in E. rewrite E by (unfold line_ok; splits; [apply not_elem_of_nil|apply not_elem_of_nil|done|done]).
  cbn [acc cline with_acc sections cur_section app]. by rewrite app_nil_r.
Qed.

(** ** Integers *)
Definition value (ds : str) : Z := (digits 0 ds).1.

Lemma skip_space_spec s : exists ws, s = ws ++ skip_space s /\ Forall (fun c => isspace c = true) ws.
Proof.
  induction s as [|c s (ws & E & H)]; [by exists []|]. cbn. destruct (isspace c) eqn:Ec; [|by exists []]. exists (c :: ws). split; [by rewrite E at 1|by constructor].
Qed.

Lemma skip_spaces ws s : Forall (fun c => isspace c = true) ws -> (forall c r, s = c :: r -> isspace c = false) -> skip_space (ws ++ s) = s.
Proof.
  intros H Hs. induction H as [|c ws Hc _ IH]; cbn; [|by rewrite Hc]. destruct s as [|c r]; [done|]. cbn. by rewrite (Hs c r eq_refl).
Qed.

Lemma digits_app ds : forall n rest, Forall (fun c => isdigit c = true) ds -> digits n (ds ++ rest) = digits (digits n ds).1 rest.
Proof. induction ds as [|c ds IH]; intros n rest H; [done|]. apply Forall_cons_1 in H as [Hc H]. cbn. rewrite Hc. by apply IH. Qed.

Lemma digits_spec s : forall n, exists ds, s = ds ++ (digits n s).2 /\ Forall (fun c => isdigit c = true) ds /\ (digits n s).1 = (digits n ds).1.
Proof.
  induction s as [|c s IH]; intros n; [by exists []|]. cbn. destruct (isdigit c) eqn:Ec; [|by exists []]. destruct (IH (10 * n + (c - 48))) as (ds & E & H & Hv).
  exists (c :: ds). splits; [cbn; by rewrite E at 1|by constructor|]. cbn. by rewrite Ec.
Qed.

(** a number as the text of an integer: white space, a sign, digits *)
Definition int_text (s : str) (n : Z) : Prop :=
  exists ws sg ds, s = ws ++ sg ++ ds /\ Forall (fun c => isspace c = true) ws /\ Forall (fun c => isdigit c = true) ds /\ ds <> []
    /\ ((sg = [MINUS] /\ n = - value ds) \/ ((sg = [PLUS] \/ sg = []) /\ n = value ds)).

Lemma digits_all ds : forall n, Forall (fun c => isdigit c = true) ds -> digits n ds = ((digits n ds).1, []).
Proof. induction ds as [|c ds IH]; intros n H; [done|]. apply Forall_cons_1 in H as [Hc H]. cbn. rewrite Hc. by apply IH. Qed.

Lemma convert_exact neg s n : convert neg s = (n, false, Some []) <->
  Forall (fun c => isdigit c = true) s /\ s <> [] /\ n = (if neg then - value s else value s) /\ LLONG_MIN <= n <= LLONG_MAX.
Proof.
  unfold convert. destruct s as [|c r] eqn:Es; [split; [done|tauto]|]. rewrite <- Es. split.
  - destruct (isdigit c); [|done]. destruct (digits 0 s) as [v rest] eqn:Ed. destruct (digits_spec s 0) as (ds & E & Hd & Hv). rewrite Ed in E, Hv. cbn [fst snd] in E, Hv.
    destruct (Z.ltb_spec LLONG_MAX (if neg then - v else v)), (Z.ltb_spec (if neg then - v else v) LLONG_MIN); try done. intros [= <- ->].
    rewrite app_nil_r in E. subst ds. unfold value. splits; [done|by subst s|by rewrite Ed|done|done].
  - intros (Hd & _ & -> & Hr). pose proof Hd as Hd'. rewrite Es in Hd'. apply Forall_cons_1 in Hd' as [Hc _]. rewrite Hc, (digits_all s) by done. fold (value s).
    rewrite !(proj2 (Z.ltb_ge _ _)) by lia. done.
Qed.

Lemma strict_strtoll_text s n : strict_strtoll s = (n, None) <-> strtoll s = (n, false, Some []).
Proof.
  assert (forall neg t v rest, convert neg t = (v, true, rest) -> v = LLONG_MAX \/ v = LLONG_MIN) as Hc.
  { intros neg t v rest. unfold convert. destruct t as [|c t]; [done|]. destruct (isdigit c); [|done]. destruct (digits _ _) as [w r].
    destruct (LLONG_MAX <? _); [intros [= <- _]; auto|]. destruct (_ <? LLONG_MIN); [intros [= <- _]; auto|done]. }
  assert (forall v rest, strtoll s = (v, true, rest) -> v = LLONG_MAX \/ v = LLONG_MIN) as Hs.
  { intros v rest. unfold strtoll. destruct (skip_space s) as [|c r]; [apply Hc|]. destruct (c =? MINUS); [apply Hc|]. destruct (c =? PLUS); apply Hc. }
  unfold strict_strtoll. destruct (strtoll s) as [[v er] rest]. destruct er; cbn [andb orb].
  - destruct (Hs v rest eq_refl) as [-> | ->]; [rewrite Z.eqb_refl|rewrite Z.eqb_refl, orb_true_r]; cbn [orb]; done.
  - destruct rest as [[|]|]; split; intros [= ->]; done.
Qed.

(** strict reading of an integer of 64 bits: it succeeds exactly on the texts of the integers in range *)
Lemma strict_strtoll_exact s n : strict_strtoll s = (n, None) <-> int_text s n /\ LLONG_MIN <= n <= LLONG_MAX.
Proof.
  rewrite strict_strtoll_text. unfold strtoll, int_text. split.
  - destruct (skip_space_spec s) as (ws & E & Hw). destruct (skip_space s) as [|c r]; [done|]. destruct (Z.eqb_spec c MINUS) as [-> |]; [|destruct (Z.eqb_spec c PLUS) as [-> |]]; intros (Hd & Hn & Hv & Hr)%convert_exact.
    + split; [|done]. exists ws, [MINUS], r. splits; auto.
    + split; [|done]. exists ws, [PLUS], r. splits; auto.
    + split; [|done]. exists ws, [], (c :: r). splits; auto.
  - intros [(ws & sg & ds & -> & Hw & Hd & Hn & Hsg) Hr]. destruct ds as [|d ds'] eqn:Eds; [done|]. rewrite <- Eds in *.
    assert (isdigit d = true) as Hdd by (rewrite Eds in Hd; by apply Forall_cons_1 in Hd as [? _]). unfold isdigit in Hdd. apply andb_true_iff in Hdd as [Hd1 Hd2]. apply Z.leb_le in Hd1, Hd2.
    rewrite skip_spaces; [|done|].
    + destruct Hsg as [[-> ->]|[[-> | ->] ->]]; cbn [app]; [| |rewrite Eds at 1; rewrite (proj2 (Z.eqb_neq d MINUS)), (proj2 (Z.eqb_neq d PLUS)) by lia]; rewrite <- ?Eds; by apply convert_exact.
    + intros c r Ec. assert (c = MINUS \/ c = PLUS \/ c = d) as Hc by (destruct Hsg as [[-> _]|[[-> | ->] _]]; rewrite ?Eds in Ec; cbn in Ec; injection Ec as <- _; auto).
      unfold isspace. destruct Hc as [-> |[-> | ->]]; [done|done|]. rewrite (proj2 (Z.eqb_neq d SP)), (proj2 (Z.leb_gt d 13)) by lia. by rewrite andb_false_r.
Qed.

(** Strict reading of an integer of 32 bits succeeds exactly on the texts (white space,
    an optional sign, decimal digits, nothing after them) of the integers strictly between [INT_MIN]
    and [INT_MAX], with that integer as its value; everything else, the two ends of the range among
    it, is an error and gives 0. *)
Theorem strict_strtol_exact (s : str) :
  (forall n, strict_strtol s = (n, None) <-> int_text s n /\ INT_MIN < n < INT_MAX) /\ ((strict_strtol s).2 <> None -> (strict_strtol s).1 = 0).
Proof.
  split.
  - intros n. unfold strict_strtol. destruct (strict_strtoll s) as [r e] eqn:E. destruct e as [e|].
    + split; [done|]. intros [Ht Hr]. assert (strict_strtoll s = (n, None)) as E2; [|by rewrite E2 in E]. apply strict_strtoll_exact. split; [done|unfold LLONG_MIN, LLONG_MAX, INT_MIN, INT_MAX in *; lia].
    + pose proof (proj1 (strict_strtoll_exact s r) E) as [Ht Hr]. split.
      * destruct (Z.leb_spec r INT_MIN), (Z.leb_spec INT_MAX r); try done. intros [= <-]. done.
      * intros [Ht' Hr']. assert (strict_strtoll s = (n, None)) as E2 by (apply strict_strtoll_exact; split; [done|unfold LLONG_MIN, LLONG_MAX, INT_MIN, INT_MAX in *; lia]).
        rewrite E in E2. injection E2 as ->. by rewrite (proj2 (Z.leb_gt n INT_MIN)), (proj2 (Z.leb_gt INT_MAX n)) by lia.
  - unfold strict_strtol. destruct (strict_strtoll s) as [r [e|]]; [done|]. destruct (r <=? INT_MIN); [done|]. by destruct (INT_MAX <=? r).
Qed.

(** ** Examples *)
Definition demo_conf : Sections :=
  {[bytes "client" := {[bytes "conn_type" := bytes "tcp"]}; bytes "replicate" := {[bytes "conn_pool_size" := bytes " 16"; bytes "conf_dir" := []]}]}.

Definition demo_file : string := "# replication
[replicate] ; of this node
  conn pool   size = 16
conn_pool_size = 8 # again
	  path = /a\ b\#c
".

(** what a small file gives, printed again *)
Lemma demo_load : (fun r => (r.1, print_conf r.2)) <$> match load_from_buffer ∅ (bytes demo_file) with Done r => Some r | _ => None end
  = Some (0, bytes "[global]
[replicate]
" ++ bytes "	conn_pool_size = " ++ [QUOTE] ++ bytes "8" ++ [QUOTE; NL] ++ bytes "	path = " ++ [QUOTE] ++ bytes "/a b#c" ++ [QUOTE; NL]).
Proof. vm_compute. reflexivity. Qed.

(** the conditions by computation *)
Ltac by_decision := apply (bool_decide_unpack _); vm_compute; exact I.

Lemma key_ok_intro c r : isspace c = false /\ (c ∉ [LBRACKET; RBRACKET]) /\ plain [EQUALS; HASH; SEMI; BACKSLASH] (c :: r) /\ normalize_key_name (c :: r) = c :: r /\ text_ok (c :: r) -> key_ok (c :: r).
Proof. intros (H1 & H2 & H3). split; [by exists c, r|done]. Qed.

Ltac entry_ok := split; [apply key_ok_intro; unfold plain, text_ok; by_decision|unfold val_ok, plain, text_ok; by_decision].

Lemma demo_conf_ok : conf_ok demo_conf.
Proof.
  unfold demo_conf, conf_ok. apply map_Forall_insert_2; [|apply map_Forall_singleton]; (split; [unfold section_ok, plain, text_ok; by_decision|]); unfold lines_ok.
  - apply map_Forall_singleton. entry_ok.
  - apply map_Forall_insert_2; [|apply map_Forall_singleton]; entry_ok.
Qed.

Definition demo_env : conf_env := mkEnv 0 0 (Z.of_nat (length (print_conf demo_conf))) true (print_conf demo_conf) false.

Lemma configuration_read_back_witness :
  parse_file demo_env = Done (0, insert_section (bytes "global") demo_conf) /\ conf_open demo_env = Done (Some (insert_section (bytes "global") demo_conf)).
Proof. apply configuration_read_back; [exact demo_conf_ok|reflexivity|reflexivity|reflexivity|reflexivity|reflexivity|vm_compute; discriminate]. Defined.

Lemma strict_strtol_exact_witness : strict_strtol (bytes " -42") = (-42, None) /\ (strict_strtol (bytes "1x")).1 = 0.
Proof.
  split; [|apply (proj2 (strict_strtol_exact (bytes "1x"))); vm_compute; discriminate]. apply (proj1 (strict_strtol_exact (bytes " -42"))). split; [|vm_compute; split; reflexivity].
  exists (bytes " "), (bytes "-"), (bytes "42"). splits; [reflexivity|repeat constructor|repeat constructor|discriminate|left; split; reflexivity].
Defined.

(** the configured numbers, a missing one and a value that is no number, which ends the process whatever [fatal_on_error] is *)
Lemma demo_get :
  conf_get_int demo_conf (bytes "replicate") (bytes " conn pool size") 4 true = Done 16
  /\ conf_get_int demo_conf (bytes "replicate") (bytes "ports") 4 false = Done 4
  /\ conf_get_int demo_conf (bytes "replicate") (bytes "ports") 4 true = Fatal
  /\ conf_get_int demo_conf (bytes "client") (bytes "conn_type") 4 false = Fatal.
Proof. vm_compute. auto. Qed.

(** the two ends of the range of [int] are refused as overflow *)
Lemma int_ends_refused : strict_strtol (bytes "2147483647") = (0, Some IntOverflow) /\ strict_strtol (bytes "-2147483648") = (0, Some IntUnderflow).
Proof. vm_compute. auto. Qed.

(** a line that only holds a comment is stored as an entry without a key *)
Lemma comment_is_stored : exists cf, load_from_buffer ∅ (bytes "# note" ++ [NL]) = Done (0, cf) /\ read cf (bytes "global") [] = (0, Some []).
Proof. eexists. split; [vm_compute; reflexivity|vm_compute; reflexivity]. Qed.

(** a value with a quote is printed without the backslash, and the printed text is refused *)
Lemma print_does_not_escape : exists cf, load_from_buffer ∅ (bytes "k = a\" ++ [QUOTE] ++ bytes "b" ++ [NL]) = Done (0, cf)
  /\ read cf (bytes "global") (bytes "k") = (0, Some (bytes "a" ++ [QUOTE] ++ bytes "b")) /\ exists cf', load_from_buffer ∅ (print_conf cf) = Done (- S5_CONF_ERR, cf').
Proof. eexists. split; [vm_compute; reflexivity|]. split; [vm_compute; reflexivity|]. eexists. vm_compute. reflexivity. Qed.

(** the text of the comment in the code, "Combine the next line with this one", on an example: the value ends at the backslash *)
Lemma continuation_example : exists cf, load_from_buffer ∅ (bytes "a = 1\" ++ [NL] ++ bytes "2 = 3" ++ [NL]) = Done (0, cf)
  /\ read cf (bytes "global") (bytes "a") = (0, Some (bytes "1")) /\ read cf (bytes "global") (bytes "2") = (0, Some (bytes "3")).
Proof. eexists. split; [vm_compute; reflexivity|]. split; vm_compute; reflexivity. Qed.
