(* ===== verification/Rdma.v ===== *)
(** * An RDMA connection of a client

    Model of the server side of an RDMA connection: the work requests of
    PfRdmaConnection (src/common/src/pf_rdma_connection.cpp), the callback of
    the completion queue, the acceptance of a connection and the events of
    the connection manager (src/pfs/src/pf_rdma_server.cpp), with the request
    blocks, replies and references of the dispatcher (Dispatcher.v).

    The adapter is part of the state as its documentation describes a
    reliable queue pair: receive requests are used in order, send requests
    (sends, reads and writes of the client's memory) are carried out in
    order, every request that was accepted ends with one completion, and
    after an error what is left ends with WC_FLUSH_ERR.  A descriptor is
    named by its block as in TcpServer.v; the head in a command buffer is the
    [i_cmd] of the block.  What the calls of the adapter return is an
    argument. *)

From Stdlib Require Import ZArith Lia String.
From stdpp Require Import base tactics list numbers sets gmap countable relations.
From S2P Require Import Prelude FixedQueue MemPool Ids Connection Dispatcher TcpServer.

(** ** Enumerations *)
Definition WC_SUCCESS : Z := 0.
Definition WC_FLUSH_ERR : Z := 5.
Definition RDMA_WR_SEND : Z := 129.
Definition RDMA_WR_RECV : Z := 130.
Definition RDMA_WR_WRITE : Z := 131.
Definition RDMA_WR_READ : Z := 132.

(** ** State *)
(** a send request: the descriptor, the address and key at the client and the length *)
Record send_wr := mkWr { w_bd : bd; w_raddr : Z; w_rkey : Z; w_len : Z }.

(** what reaches the client *)
Inductive wire_msg :=
| WMem (raddr rkey : Z) (l : list Z)
| WReply (m : PfMessageReply).

Record rdma := mkRdma {
  r_id : Z;                     (* the connection *)
  r_recvq : list bd;
  r_sendq : list send_wr;
  r_cq : list (bd * Z);         (* completions that were not polled: descriptor and status *)
  r_err : bool;                 (* the queue pair is in the error state *)
  r_wr_op : gmap bd Z;
  r_data_len : gmap Z Z;        (* [data_len] of the data descriptors *)
  r_data : gmap Z (list Z);     (* the data buffers *)
  r_reply : gmap Z PfMessageReply;
  r_wire : list wire_msg
}.

Record rsrv := mkRsrv { rs_disp : PfDispatcher; rs_rdma : rdma }.

Definition set_rqueues (rq : list bd) (sq : list send_wr) (cq : list (bd * Z)) (r : rdma) : rdma :=
  mkRdma (r_id r) rq sq cq (r_err r) (r_wr_op r) (r_data_len r) (r_data r) (r_reply r) (r_wire r).
Definition set_err (r : rdma) : rdma :=
  mkRdma (r_id r) (r_recvq r) (r_sendq r) (r_cq r) true (r_wr_op r) (r_data_len r) (r_data r) (r_reply r) (r_wire r).
Definition set_wr_op (b : bd) (op : Z) (r : rdma) : rdma :=
  mkRdma (r_id r) (r_recvq r) (r_sendq r) (r_cq r) (r_err r) (<[b := op]> (r_wr_op r)) (r_data_len r) (r_data r) (r_reply r) (r_wire r).
Definition set_rdata_len (i n : Z) (r : rdma) : rdma :=
  mkRdma (r_id r) (r_recvq r) (r_sendq r) (r_cq r) (r_err r) (r_wr_op r) (<[i := n]> (r_data_len r)) (r_data r) (r_reply r) (r_wire r).
Definition set_rdata (i : Z) (l : list Z) (r : rdma) : rdma :=
  mkRdma (r_id r) (r_recvq r) (r_sendq r) (r_cq r) (r_err r) (r_wr_op r) (r_data_len r) (<[i := l]> (r_data r)) (r_reply r) (r_wire r).
Definition set_rreply (i : Z) (m : PfMessageReply) (r : rdma) : rdma :=
  mkRdma (r_id r) (r_recvq r) (r_sendq r) (r_cq r) (r_err r) (r_wr_op r) (r_data_len r) (r_data r) (<[i := m]> (r_reply r)) (r_wire r).
Definition set_rwire (l : list wire_msg) (r : rdma) : rdma :=
  mkRdma (r_id r) (r_recvq r) (r_sendq r) (r_cq r) (r_err r) (r_wr_op r) (r_data_len r) (r_data r) (r_reply r) l.

Definition on_rdma (f : rdma -> rdma) (s : rsrv) : rsrv := mkRsrv (rs_disp s) (f (rs_rdma s)).
Definition on_rdisp (f : PfDispatcher -> outcome PfDispatcher) (s : rsrv) : outcome rsrv :=
  let* d := f (rs_disp s) in Done (mkRsrv d (rs_rdma s)).

(** [bd->data_len] *)
Definition rdata_len (b : bd) (r : rdma) : Z :=
  match b with
  | BdCmd _ => PF_MSG_HEAD_SIZE
  | BdData i => default 0 (r_data_len r !! i)
  | BdReply _ => PF_MSG_REPLY_SIZE
  | BdHand => 0
  end.

(** ** Work requests; [rc] is what the adapter answers *)
Definition rdma_post_recv (rc : Z) (b : bd) (s : rsrv) : Z * rsrv :=
  let s := on_rdma (set_wr_op b RDMA_WR_RECV) s in
  if negb (rc =? 0) then (rc, s)
  else (0, on_rdma (fun r => set_rqueues (r_recvq r ++ [b]) (r_sendq r) (r_cq r) r) s).

(** the common part of [post_send], [post_read] and [post_write] *)
Definition post_wr (op rc : Z) (b : bd) (raddr rkey : Z) (s : rsrv) : Z * rsrv :=
  let s := on_rdma (set_wr_op b op) s in
  if negb (rc =? 0) then (rc, s)
  else (0, on_rdma (fun r => set_rqueues (r_recvq r) (r_sendq r ++ [mkWr b raddr rkey (rdata_len b r)]) (r_cq r) r) s).

Definition rdma_post_send (rc : Z) (b : bd) (s : rsrv) : Z * rsrv := post_wr RDMA_WR_SEND rc b 0 0 s.
Definition rdma_post_read (rc : Z) (b : bd) (raddr rkey : Z) (s : rsrv) : Z * rsrv := post_wr RDMA_WR_READ rc b raddr rkey s.
Definition rdma_post_write (rc : Z) (b : bd) (raddr rkey : Z) (s : rsrv) : Z * rsrv := post_wr RDMA_WR_WRITE rc b raddr rkey s.

(** ** Devices *)
Definition MAX_RDMA_DEVICE : nat := 4.
Definition CQ_POLLER_COUNT : Z := 16.
Definition CQ_POLLER_CLIENT_COUNT : Z := 8.

Record PfRdmaDevContext := mkDev { dv_ctx : Z; dv_idx : nat; cq_poller_cnt : Z; client_cq_poller_cnt : Z; next_server_cq_poller_idx : Z; next_client_cq_poller_idx : Z }.

Definition new_dev (client_only : bool) (ctx : Z) (i : nat) : PfRdmaDevContext :=
  let client := if client_only then CQ_POLLER_COUNT else CQ_POLLER_CLIENT_COUNT in
  mkDev ctx i CQ_POLLER_COUNT client client 0.

(** the loop of [build_context] over [g_app_ctx->dev_ctx], from slot [i] on *)
Fixpoint find_dev (client_only : bool) (ctx : Z) (i : nat) (slots : list (option PfRdmaDevContext)) : option PfRdmaDevContext * list (option PfRdmaDevContext) :=
  match slots with
  | [] => (None, [])
  | o :: slots =>
      let dev := match o with Some dev => dev | None => new_dev client_only ctx i end in
      if dv_ctx dev =? ctx then (Some dev, Some dev :: slots)
      else let '(r, slots) := find_dev client_only ctx (S i) slots in (r, Some dev :: slots)
  end.

Definition build_context (client_only : bool) (query_rc ctx : Z) (slots : list (option PfRdmaDevContext)) : option PfRdmaDevContext * list (option PfRdmaDevContext) :=
  if negb (query_rc =? 0) then (None, slots) else find_dev client_only ctx 0 slots.

(** the completion queues of server connections are used in turn *)
Definition next_server_poller (dev : PfRdmaDevContext) : Z * PfRdmaDevContext :=
  let idx := next_server_cq_poller_idx dev in
  let n := if cq_poller_cnt dev <=? idx + 1 then client_cq_poller_cnt dev else idx + 1 in
  (idx, mkDev (dv_ctx dev) (dv_idx dev) (cq_poller_cnt dev) (client_cq_poller_cnt dev) n (next_client_cq_poller_idx dev)).

(** those of the connections of clients *)
Definition next_client_poller (dev : PfRdmaDevContext) : Z * PfRdmaDevContext :=
  let idx := next_client_cq_poller_idx dev in
  (idx, mkDev (dv_ctx dev) (dv_idx dev) (cq_poller_cnt dev) (client_cq_poller_cnt dev) (next_server_cq_poller_idx dev) ((idx + 1) mod client_cq_poller_cnt dev)).

Definition dev_ok (dev : PfRdmaDevContext) : Prop :=
  cq_poller_cnt dev = CQ_POLLER_COUNT /\ 0 < client_cq_poller_cnt dev <= CQ_POLLER_COUNT /\ client_cq_poller_cnt dev <= next_server_cq_poller_idx dev
  /\ (client_cq_poller_cnt dev < CQ_POLLER_COUNT -> next_server_cq_poller_idx dev < CQ_POLLER_COUNT) /\ 0 <= next_client_cq_poller_idx dev < client_cq_poller_cnt dev.

(** the indexes stay inside the array of pollers, and servers and clients do not share one *)
Lemma pollers_in_range dev : dev_ok dev -> client_cq_poller_cnt dev < CQ_POLLER_COUNT ->
  let '(i, dev1) := next_server_poller dev in
  let '(j, dev2) := next_client_poller dev1 in
  dev_ok dev2 /\ 0 <= j < client_cq_poller_cnt dev /\ client_cq_poller_cnt dev <= i < CQ_POLLER_COUNT.
Proof.
  destruct dev as [ctx idx n cl ns nc]. unfold dev_ok, next_server_poller, next_client_poller. cbn. intros (-> & H1 & H2 & H3 & H4) Hlt. specialize (H3 Hlt).
  pose proof (Z.mod_pos_bound (nc + 1) cl ltac:(lia)). unfold CQ_POLLER_COUNT in *. destruct (Z.leb_spec 16 (ns + 1)); cbn; splits; lia.
Qed.

(** a device that has a slot keeps it: the table does not change and the same slot is found *)
Lemma find_dev_again co ctx slots : forall i dev slots', find_dev co ctx i slots = (Some dev, slots') -> find_dev co ctx i slots' = (Some dev, slots').
Proof.
  induction slots as [|o slots IH]; intros i dev slots'; cbn; [done|]. destruct o as [d|]; cbn.
  - destruct (dv_ctx d =? ctx) eqn:E; [intros [= <- <-]; cbn; by rewrite E|]. destruct (find_dev co ctx (S i) slots) as [r sl] eqn:Ef. intros [= -> <-]. cbn. rewrite E. by rewrite (IH _ _ _ Ef).
  - rewrite Z.eqb_refl. intros [= <- <-]. cbn. by rewrite Z.eqb_refl.
Qed.

(** ** The callback *)
Section Callback.
Variable disps : Z.                 (* the number of dispatchers *)

Definition rdma_io_req (i : Z) (s : rsrv) : rsrv :=
  mkRsrv (set_events (d_events (rs_disp s) ++ [EvIoReq i]) (rs_disp s)) (rs_rdma s).

(** a head has arrived *)
Definition head_received (rc : Z) (b : bd) (s : rsrv) : outcome (Z * rsrv) :=
  let* i := block_of b in
  let* io := get_iocb i (rs_disp s) in
  let head := i_cmd io in
  let s := mkRsrv (set_iocb i (set_vol_id (h_vol_id head) io) (rs_disp s)) (set_rdata_len i (i32 (h_length head)) (rs_rdma s)) in
  if (h_opcode head =? S5_OP_WRITE) || (h_opcode head =? S5_OP_REPLICATE_WRITE) then
    let '(rc, s) := rdma_post_read rc (BdData i) (h_buf_addr head) (h_rkey head) s in
    let* s := (if negb (rc =? 0) then on_rdisp (dec_ref_on_error disps i) s else Done s) in
    Done (1, s)
  else Done (0, rdma_io_req i s).

(** a reply has left, the block waits for the next request *)
Definition reply_sent (rc : Z) (b : bd) (s : rsrv) : outcome (Z * rsrv) :=
  let* i := block_of b in
  let* io := get_iocb i (rs_disp s) in
  let s := mkRsrv (set_iocb i (re_init io) (rs_disp s)) (rs_rdma s) in
  let '(rc, s) := rdma_post_recv rc (BdCmd i) s in
  let* s := (if negb (rc =? 0) then on_rdisp (dec_ref_on_error disps i) s else Done s) in
  Done (0, s).

Definition server_on_rdma_network_done (rc : Z) (b : bd) (complete_status : Z) (s : rsrv) : outcome (Z * rsrv) :=
  let op := default 0 (r_wr_op (rs_rdma s) !! b) in
  if complete_status =? WC_SUCCESS then
    if op =? RDMA_WR_RECV then
      if rdata_len b (rs_rdma s) =? PF_MSG_HEAD_SIZE then head_received rc b s else Done (0, s)
    else if op =? RDMA_WR_SEND then
      if rdata_len b (rs_rdma s) =? PF_MSG_REPLY_SIZE then reply_sent rc b s else Done (0, s)
    else if op =? RDMA_WR_WRITE then Done (0, s)
    else if op =? RDMA_WR_READ then let* i := block_of b in Done (0, rdma_io_req i s)
    else Done (0, s)
  else if negb (complete_status =? WC_FLUSH_ERR) then Done (0, s)
  else if negb (op =? RDMA_WR_WRITE) then
    let* i := block_of b in
    let* s := on_rdisp (dec_ref_on_error disps i) s in Done (0, s)
  else Done (0, s).

(** one completion of [cq_poller_proc], which reads the callback from the connection *)
Definition poll_one (rc : Z) (s : rsrv) : outcome rsrv :=
  match r_cq (rs_rdma s) with
  | [] => Done s
  | (b, st) :: cq =>
      let s := on_rdma (fun r => set_rqueues (r_recvq r) (r_sendq r) cq r) s in
      let* _ := of_option (d_conns (rs_disp s) !! r_id (rs_rdma s)) in
      let* (_, s) := server_on_rdma_network_done rc b st s in Done s
  end.

(** ** The connection manager *)
(** [close]: only an open connection is disconnected, which puts the queue pair into the error state *)
Definition rdma_close (s : rsrv) : outcome rsrv :=
  let* (closed, h) := conn_close (r_id (rs_rdma s)) (d_conns (rs_disp s)) in
  Done (mkRsrv (set_conns h (rs_disp s)) (if closed : bool then set_err (rs_rdma s) else rs_rdma s)).

(** RDMA_CM_EVENT_DISCONNECTED *)
Definition on_disconnected (s : rsrv) : outcome rsrv :=
  let* s := rdma_close s in
  on_rdisp (drop_conn (r_id (rs_rdma s))) s.

(** [post_receive] of the server, the same request as [post_recv] *)
Definition post_receive (rc : Z) (b : bd) (s : rsrv) : Z * rsrv := rdma_post_recv rc b s.

(** the loop of [on_connect_request] that hands request blocks to the connection; [rcs] is what [post_receive] answers *)
Fixpoint attach_rdma (n : nat) (rcs : nat -> Z) (s : rsrv) : outcome (Z * rsrv) :=
  match n with
  | O => Done (0, s)
  | S n =>
      let* (x, p) := pool_alloc (d_iocb_pool (rs_disp s)) in
      let s := mkRsrv (set_iocb_pool p (rs_disp s)) (rs_rdma s) in
      match x with
      | None => Done (- EINVAL, s)
      | Some i =>
          let* io := get_iocb i (rs_disp s) in
          let c := r_id (rs_rdma s) in
          let s := mkRsrv (set_iocb i (set_iconn (Some c) (iocb_add_ref io)) (rs_disp s)) (rs_rdma s) in
          let* h := conn_add_ref c (d_conns (rs_disp s)) in
          let s := mkRsrv (set_conns h (rs_disp s)) (rs_rdma s) in
          let '(rc, s) := post_receive (rcs n) (BdCmd i) s in
          if negb (rc =? 0) then
            let* s := on_rdisp (dec_ref_on_error disps i) s in Done (- EINVAL, s)
          else
            let* k := of_option (d_conns (rs_disp s) !! c) in
            let k := mkConn (c_state k) (c_conn_type k) (c_ref_count k) (c_io_depth k) (c_inflying_io k)
                       (c_inflying_heartbeat k) (c_unclean_closed k) (c_used_iocb k ++ [i]) in
            attach_rdma n rcs (mkRsrv (set_conns (<[c := k]> (d_conns (rs_disp s))) (rs_disp s)) (rs_rdma s))
      end
  end.

(** what the calls of [on_connect_request] give *)
Record cm_env := mkCm {
  cm_context : bool;            (* [build_context] finds a slot *)
  cm_create_qp : Z;             (* 0 or errno *)
  cm_post : nat -> Z;
  cm_accept : Z                 (* 0 or errno *)
}.

(** the destructor of the cleaner deletes the connection *)
Definition clean_conn (rc c : Z) (s : rsrv) : outcome (Z * rsrv) :=
  let* _ := of_option (d_conns (rs_disp s) !! c) in
  Done (rc, mkRsrv (set_conns (delete c (d_conns (rs_disp s))) (rs_disp s)) (rs_rdma s)).

Definition new_qp (c : Z) : rdma := mkRdma c [] [] [] false ∅ ∅ ∅ ∅ [].

Definition on_connect_request (e : cm_env) (is_open : Z -> bool) (vol_id hsqsize c : Z) (d : PfDispatcher) : outcome (Z * rsrv) :=
  let conn st depth := mkConn st RDMA_TYPE 0 depth 0 0 false [] in
  let s := mkRsrv (set_conns (<[c := conn CONN_INIT 0]> (d_conns d)) d) (new_qp c) in
  if negb (cm_context e) then clean_conn (-1) c s
  else if negb (cm_create_qp e =? 0) then clean_conn (- cm_create_qp e) c s
  else if negb (vol_id =? 0) && ((PF_MAX_IO_DEPTH <? hsqsize) || (hsqsize <=? 0)) then clean_conn (- EINVAL) c s
  else if negb (vol_id =? 0) && negb (is_open vol_id) then clean_conn (- EINVAL) c s
  else
    let s := mkRsrv (set_conns (<[c := conn CONN_OK hsqsize]> (d_conns d)) d) (new_qp c) in
    if 2 * hsqsize <? 0 then Fatal   (* [used_iocb.reserve] throws *)
    else
    let* (rc, s) := attach_rdma (Z.to_nat (2 * hsqsize)) (cm_post e) s in
    if negb (rc =? 0) then clean_conn rc c s
    else if negb (cm_accept e =? 0) then clean_conn (- cm_accept e) c s
    else
      let* h := conn_add_ref c (d_conns (rs_disp s)) in
      Done (0, mkRsrv (set_conns h (rs_disp s)) (rs_rdma s)).

End Callback.

(** ** The system: the adapter, the poller, the connection manager and the dispatcher *)

(** the requests a dispatcher has posted while it answered a block *)
Definition post_action (s : rsrv) (a : disp_action) : rsrv :=
  match a with
  | APostWrite _ i =>
      match d_iocbs (rs_disp s) !! i with
      | Some io => (rdma_post_write 0 (BdData i) (h_buf_addr (i_cmd io)) (h_rkey (i_cmd io)) s).2
      | None => s
      end
  | AReply _ i m => (rdma_post_send 0 (BdReply i) (on_rdma (set_rreply i m) s)).2
  | _ => s
  end.

(** [reply_io_to_client] with the requests it posts; what a refused request leaves in [wr_op] is not looked at again *)
Definition rdma_reply (env : disp_env) (i : Z) (s : rsrv) : outcome rsrv :=
  let* d := reply_io_to_client env i (rs_disp s) in
  Done (foldl post_action (mkRsrv d (rs_rdma s)) (drop (length (d_out (rs_disp s))) (d_out d))).

(** [y_held]: the blocks in the hands of the dispatcher, with their subtasks
    that have not ended; [y_disc]: the event of the disconnection has been
    handled; [y_failed]: a request has failed with another status than WC_FLUSH_ERR *)
Record rsys := mkRsys { y_srv : rsrv; y_held : gmap Z nat; y_disc : bool; y_failed : bool }.

Definition with_srv (y : rsys) (s : rsrv) : rsys := mkRsys s (y_held y) (y_disc y) (y_failed y).

Inductive rlabel :=
| LRecv (h : PfMessageHead)         (* a request of the client arrives *)
| LSend (l : list Z)                (* the next send request is carried out; [l] are the bytes a read fetches *)
| LFail (st : Z)                    (* or fails *)
| LError                            (* the queue pair fails *)
| LFlushRecv
| LFlushSend
| LPoll (rc : Z)
| LDisconnect
| LTake (k : nat)                   (* the dispatcher takes a request and makes [k] subtasks of it *)
| LFill (i : Z) (l : list Z)        (* the store fills the data buffer *)
| LSub (env : disp_env) (i sc mv : Z)   (* a subtask ends *)
| LEarly (env : disp_env) (i sc mv : Z). (* a request without subtasks is answered *)

(** the effect of a send request that is carried out *)
Definition carry_out (l : list Z) (w : send_wr) (r : rdma) : rdma :=
  match w_bd w with
  | BdData i =>
      if default 0 (r_wr_op r !! w_bd w) =? RDMA_WR_WRITE then set_rwire (r_wire r ++ [WMem (w_raddr w) (w_rkey w) (default [] (r_data r !! i))]) r
      else set_rdata i l r
  | BdReply i => match r_reply r !! i with Some m => set_rwire (r_wire r ++ [WReply m]) r | None => r end
  | _ => r
  end.

Definition end_sub (env : disp_env) (i sc mv : Z) (last : bool) (s : rsrv) : outcome rsrv :=
  let* io := get_iocb i (rs_disp s) in
  let s := mkRsrv (set_iocb i (set_status sc mv io) (rs_disp s)) (rs_rdma s) in
  if last then rdma_reply env i s else Done s.

Definition rsys_do (disps : Z) (l : rlabel) (y : rsys) : option (outcome rsys) :=
  let s := y_srv y in
  let r := rs_rdma s in
  match l with
  | LRecv h =>
      match r_err r, r_recvq r with
      | false, b :: q =>
          Some (let* i := block_of b in
                let* io := get_iocb i (rs_disp s) in
                Done (with_srv y (mkRsrv (set_iocb i (set_cmd h io) (rs_disp s)) (set_rqueues q (r_sendq r) (r_cq r ++ [(b, WC_SUCCESS)]) r))))
      | _, _ => None
      end
  | LSend l =>
      match r_err r, r_sendq r with
      | false, w :: q => Some (Done (with_srv y (on_rdma (fun r => set_rqueues (r_recvq r) q (r_cq r ++ [(w_bd w, WC_SUCCESS)]) (carry_out l w r)) s)))
      | _, _ => None
      end
  | LFail st =>
      match r_err r, r_sendq r with
      | false, w :: q =>
          Some (Done (mkRsys (on_rdma (fun r => set_err (set_rqueues (r_recvq r) q (r_cq r ++ [(w_bd w, st)]) r)) s) (y_held y) (y_disc y) true))
      | _, _ => None
      end
  | LError => Some (Done (with_srv y (on_rdma set_err s)))
  | LFlushRecv =>
      match r_err r, r_recvq r with
      | true, b :: q => Some (Done (with_srv y (on_rdma (set_rqueues q (r_sendq r) (r_cq r ++ [(b, WC_FLUSH_ERR)])) s)))
      | _, _ => None
      end
  | LFlushSend =>
      match r_err r, r_sendq r with
      | true, w :: q => Some (Done (with_srv y (on_rdma (set_rqueues (r_recvq r) q (r_cq r ++ [(w_bd w, WC_FLUSH_ERR)])) s)))
      | _, _ => None
      end
  | LPoll rc =>
      match r_cq r with
      | [] => None
      | _ => Some (let* s := poll_one disps rc s in Done (with_srv y s))
      end
  | LDisconnect =>
      if y_disc y then None
      else Some (let* s := on_disconnected s in Done (mkRsys s (y_held y) true (y_failed y)))
  | LTake k =>
      match d_events (rs_disp s) with
      | EvIoReq i :: q =>
          Some (let* io := get_iocb i (rs_disp s) in
                Done (mkRsys (mkRsrv (set_events q (set_iocb i (Nat.iter k iocb_add_ref io) (rs_disp s))) r) (<[i := k]> (y_held y)) (y_disc y) (y_failed y)))
      | _ => None
      end
  | LFill i l => match y_held y !! i with Some _ => Some (Done (with_srv y (on_rdma (set_rdata i l) s))) | None => None end
  | LSub env i sc mv =>
      match y_held y !! i with
      | Some (S n) =>
          Some (let* s := end_sub env i sc mv (bool_decide (n = O)) s in
                let* s := on_rdisp (iocb_dec_ref disps i) s in
                Done (mkRsys s (match n with O => delete i (y_held y) | _ => <[i := n]> (y_held y) end) (y_disc y) (y_failed y)))
      | _ => None
      end
  | LEarly env i sc mv =>
      match y_held y !! i with
      | Some O =>
          Some (let* s := end_sub env i sc mv true s in Done (mkRsys s (delete i (y_held y)) (y_disc y) (y_failed y)))
      | _ => None
      end
  end.

(** ** The place of a block *)
Inductive place :=
| PRecv               (* posted, waits for a request *)
| PHead               (* its receive request has completed *)
| PReading            (* the data of a write are read *)
| PQueued             (* in the queue of the dispatcher *)
| PHeld (n : nat)     (* in the hands of the dispatcher, with [n] subtasks *)
| PReply              (* the reply is sent *)
| PDataReply          (* the data of a read are written and the reply is sent *)
| PFree               (* back in the pool *)
| PStuck.             (* its request has failed *)

Definition bd_id (b : bd) : Z := match b with BdCmd i | BdData i | BdReply i => i | BdHand => -1 end.

(** the descriptors of a block in a queue *)
Definition proj (i : Z) (l : list bd) : list bd := filter (fun b => bd_id b = i) l.
#[local] Arguments proj : simpl never.

(** the send requests and all completions, in the order in which they are polled *)
Definition stream (r : rdma) : list bd := (fst <$> r_cq r) ++ (w_bd <$> r_sendq r).

Definition where_is (p : place) (i : Z) : list bd * list bd * list disp_event * option nat :=
  match p with
  | PRecv => ([BdCmd i], [], [], None)
  | PHead => ([], [BdCmd i], [], None)
  | PReading => ([], [BdData i], [], None)
  | PQueued => ([], [], [EvIoReq i], None)
  | PHeld n => ([], [], [], Some n)
  | PReply => ([], [BdReply i], [], None)
  | PDataReply => ([], [BdData i; BdReply i], [], None)
  | PFree | PStuck => ([], [], [], None)
  end.

Definition ops_ok (p : place) (i : Z) (op : gmap bd Z) : Prop :=
  match p with
  | PRecv | PHead => op !! BdCmd i = Some RDMA_WR_RECV
  | PReading => op !! BdData i = Some RDMA_WR_READ
  | PReply => op !! BdReply i = Some RDMA_WR_SEND
  | PDataReply => op !! BdData i = Some RDMA_WR_WRITE /\ op !! BdReply i = Some RDMA_WR_SEND
  | PHeld n => (n <= 3)%nat
  | _ => True
  end.

Definition refs (p : place) : Z := match p with PHeld n => 1 + Z.of_nat n | PFree => 0 | _ => 1 end.
Definition live (p : place) : bool := match p with PFree => false | _ => true end.

Definition block_io (disps c : Z) (p : place) (io : PfServerIocb) : Prop :=
  i_ref_count io = refs p /\ i_conn io = (if live p then Some c else None) /\ 0 <= i_disp_index io < disps.

#[global] Instance disp_event_eq_dec : EqDecision disp_event.
Proof. solve_decision. Defined.

Definition spots (y : rsys) (i : Z) : list bd * list bd * list disp_event * option nat :=
  let s := y_srv y in
  (proj i (r_recvq (rs_rdma s)), proj i (stream (rs_rdma s)), filter (fun e => e = EvIoReq i) (d_events (rs_disp s)), y_held y !! i).

Definition block_ok (disps c : Z) (y : rsys) (p : place) (i : Z) : Prop :=
  spots y i = where_is p i /\ ops_ok p i (r_wr_op (rs_rdma (y_srv y)))
  /\ exists io, d_iocbs (rs_disp (y_srv y)) !! i = Some io /\ block_io disps c p io.

(** the connection has a reference per live block and one until it is disconnected *)
Definition conn_is (c : Z) (n : Z) (disc : bool) (h : conn_heap) : Prop :=
  if n + (if disc then 0 else 1) =? 0 then h !! c = None
  else exists k, h !! c = Some k /\ c_state k = (if disc then CONN_CLOSED else CONN_OK) /\ c_conn_type k = RDMA_TYPE
    /\ c_ref_count k = n + (if disc then 0 else 1).

Definition lives (pl : Z -> place) (ids : list Z) : list Z := filter (fun i => live (pl i) = true) ids.

Record rinv (disps c : Z) (ids others : list Z) (pl : Z -> place) (y : rsys) : Prop := mkRinv {
  ri_id : r_id (rs_rdma (y_srv y)) = c;
  ri_nodup : NoDup ids;
  ri_blocks : forall i, i ∈ ids -> block_ok disps c y (pl i) i;
  ri_recvq : forall b, b ∈ r_recvq (rs_rdma (y_srv y)) -> bd_id b ∈ ids;
  ri_stream : forall b, b ∈ stream (rs_rdma (y_srv y)) -> bd_id b ∈ ids;
  ri_events : forall e, e ∈ d_events (rs_disp (y_srv y)) -> exists i, e = EvIoReq i /\ i ∈ ids;
  ri_held : forall i n, y_held y !! i = Some n -> i ∈ ids;
  ri_pool : pool_inv (d_iocb_pool (rs_disp (y_srv y))) (lives pl ids ++ others) /\ 0 <= obj_count (d_iocb_pool (rs_disp (y_srv y)));
  ri_conn : conn_is c (Z.of_nat (length (lives pl ids))) (y_disc y) (d_conns (rs_disp (y_srv y)));
  ri_err : y_disc y = true -> r_err (rs_rdma (y_srv y)) = true;
  ri_status : y_failed y = false -> (forall b st, (b, st) ∈ r_cq (rs_rdma (y_srv y)) -> st = WC_SUCCESS \/ st = WC_FLUSH_ERR) /\ (forall i, i ∈ ids -> pl i <> PStuck)
}.

(** *** Changes of one block *)
Definition at_place (i : Z) (p : place) (pl : Z -> place) : Z -> place := fun j => if decide (j = i) then p else pl j.

Lemma at_place_eq i p pl : at_place i p pl i = p.
Proof. unfold at_place. by rewrite decide_True. Qed.

Lemma at_place_ne i j p pl : j <> i -> at_place i p pl j = pl j.
Proof. intros H. unfold at_place. by rewrite decide_False. Qed.

Definition same_for (y y' : rsys) (j : Z) : Prop :=
  spots y' j = spots y j
  /\ (forall b, bd_id b = j -> r_wr_op (rs_rdma (y_srv y')) !! b = r_wr_op (rs_rdma (y_srv y)) !! b)
  /\ d_iocbs (rs_disp (y_srv y')) !! j = d_iocbs (rs_disp (y_srv y)) !! j.

Lemma same_block disps c y y' p j : same_for y y' j -> block_ok disps c y p j -> block_ok disps c y' p j.
Proof.
  intros (H1 & H2 & H3) (B1 & B2 & B3). split; [by rewrite H1|]. rewrite H3. split; [|done].
  destruct p; cbn in *; rewrite ?(H2 (BdCmd j) eq_refl), ?(H2 (BdData j) eq_refl), ?(H2 (BdReply j) eq_refl); done.
Qed.

Lemma lives_same i p pl ids : live p = live (pl i) -> lives (at_place i p pl) ids = lives pl ids.
Proof.
  intros H. unfold lives. induction ids as [|j ids IH]; [done|]. rewrite !filter_cons, IH.
  destruct (decide (j = i)) as [-> |Hj]; [by rewrite at_place_eq, H|by rewrite at_place_ne].
Qed.

Lemma lives_freed i pl ids : NoDup ids -> i ∈ ids -> live (pl i) = true -> lives pl ids ≡ₚ i :: lives (at_place i PFree pl) ids.
Proof.
  intros Hn Hi Hl. induction ids as [|j ids IH]; [by apply elem_of_nil in Hi|]. apply NoDup_cons in Hn as [Hj Hn]. unfold lives in *. rewrite !filter_cons.
  destruct (decide (j = i)) as [-> |Hne].
  - rewrite at_place_eq. cbn [live]. destruct (decide (live (pl i) = true)); [|done]. destruct (decide (false = true)); [done|]. constructor.
    clear -Hj. induction ids as [|k ids IH]; [done|]. apply not_elem_of_cons in Hj as [? ?]. rewrite !filter_cons, at_place_ne by done. destruct (decide _); [by constructor; apply IH|by apply IH].
  - rewrite at_place_ne by done. apply elem_of_cons in Hi as [-> |Hi]; [done|]. destruct (decide _); [rewrite IH by done; constructor|by apply IH].
Qed.

Lemma proj_elem b l : b ∈ l <-> b ∈ proj (bd_id b) l.
Proof. unfold proj. rewrite list_elem_of_filter. tauto. Qed.

Lemma rinv_update disps c ids others pl y y' i p :
  rinv disps c ids others pl y -> i ∈ ids ->
  r_id (rs_rdma (y_srv y')) = c -> (forall j, j <> i -> same_for y y' j) -> block_ok disps c y' p i ->
  (forall e, e ∈ d_events (rs_disp (y_srv y')) -> e ∈ d_events (rs_disp (y_srv y)) \/ e = EvIoReq i) ->
  pool_inv (d_iocb_pool (rs_disp (y_srv y'))) (lives (at_place i p pl) ids ++ others) -> 0 <= obj_count (d_iocb_pool (rs_disp (y_srv y'))) ->
  conn_is c (Z.of_nat (length (lives (at_place i p pl) ids))) (y_disc y') (d_conns (rs_disp (y_srv y'))) ->
  y_disc y' = y_disc y -> (r_err (rs_rdma (y_srv y)) = true -> r_err (rs_rdma (y_srv y')) = true) ->
  (y_failed y' = false -> y_failed y = false /\ p <> PStuck
    /\ forall b st, (b, st) ∈ r_cq (rs_rdma (y_srv y')) -> (b, st) ∈ r_cq (rs_rdma (y_srv y)) \/ st = WC_SUCCESS \/ st = WC_FLUSH_ERR) ->
  rinv disps c ids others (at_place i p pl) y'.
Proof.
  intros [R1 R2 R3 R4 R5 R6 R7 R8 R9 R10 R11] Hi Hid Hs Hb Hev Hp Hc Hk Hd He Hf. split; try done.
  - intros j Hj. destruct (decide (j = i)) as [-> |Hne]; [by rewrite at_place_eq|]. rewrite at_place_ne by done. eapply same_block; [by apply Hs|by apply R3].
  - intros b Hb'. destruct (decide (bd_id b = i)) as [-> |Hne]; [done|]. apply R4. destruct (Hs _ Hne) as (E & _). apply (f_equal (fun t => t.1.1.1)) in E. cbn in E. apply proj_elem. rewrite <- E. by apply (proj1 (proj_elem b _)).
  - intros b Hb'. destruct (decide (bd_id b = i)) as [-> |Hne]; [done|]. apply R5. destruct (Hs _ Hne) as (E & _). apply (f_equal (fun t => t.1.1.2)) in E. cbn in E. apply proj_elem. rewrite <- E. by apply (proj1 (proj_elem b _)).
  - intros e Hin. destruct (Hev e Hin) as [H| ->]; [by apply R6|eauto].
  - intros j n Hj. destruct (decide (j = i)) as [-> |Hne]; [done|]. destruct (Hs _ Hne) as (E & _). apply (f_equal (fun t => t.2)) in E. cbn in E. rewrite E in Hj. eauto.
  - rewrite Hd. intros H. apply He. by apply R10.
  - intros H. destruct (Hf H) as (F1 & F2 & F3). destruct (R11 F1) as [G1 G2]. split.
    + intros b st Hin. destruct (F3 b st Hin) as [|]; [eauto|done].
    + intros j Hj. destruct (decide (j = i)) as [-> |Hne]; [by rewrite at_place_eq|rewrite at_place_ne by done; by apply G2].
Qed.

(** *** References *)
Lemma conn_is_live c n disc h : conn_is c n disc h -> 0 < n + (if disc then 0 else 1) ->
  exists k, h !! c = Some k /\ c_state k = (if disc then CONN_CLOSED else CONN_OK) /\ c_conn_type k = RDMA_TYPE /\ c_ref_count k = n + (if disc then 0 else 1).
Proof. unfold conn_is. intros H Hn. destruct (Z.eqb_spec (n + (if disc then 0 else 1)) 0); [lia|done]. Qed.

Lemma drop_one c n disc d : conn_is c n disc (d_conns d) -> 0 < n ->
  exists h, drop_conn c d = Done (set_conns h d) /\ conn_is c (n - 1) disc h.
Proof.
  intros Hc Hn. destruct (conn_is_live _ _ _ _ Hc) as (k & Ek & Hs & Ht & Hr); [destruct disc; lia|]. unfold drop_conn, conn_dec_ref. rewrite Ek. cbn [of_option obind c_ref_count set_c_ref].
  rewrite Hr. unfold conn_is. replace (n + (if disc then 0 else 1) - 1) with (n - 1 + (if disc then 0 else 1)) by lia. destruct (Z.eqb_spec (n - 1 + (if disc then 0 else 1)) 0) as [E|E]; cbn [obind].
  - destruct disc; [|lia]. cbn [c_state set_c_ref]. rewrite Hs. exists (delete c (d_conns d)). splits; [done|apply lookup_delete_eq].
  - exists (<[c := set_c_ref (n - 1 + (if disc then 0 else 1)) k]> (d_conns d)). splits; [done|]. eexists. split; [apply lookup_insert_eq|]. by cbn.
Qed.

(** a block that has been given up *)
Definition given_up (i : Z) (io : PfServerIocb) (h : conn_heap) (p : ObjectMemoryPool PfFixedSizeQueue) (d : PfDispatcher) : PfDispatcher :=
  set_iocb_pool p (set_conns h (set_iocb i io d)).

Lemma set_iocb_twice i a b d : set_iocb i a (set_iocb i b d) = set_iocb i a d.
Proof. unfold set_iocb. cbn. by rewrite insert_insert_eq. Qed.

Section Free.
Variables (disps c n i : Z) (disc : bool) (io : PfServerIocb) (d : PfDispatcher) (rest : list Z).
Hypothesis Hio : d_iocbs d !! i = Some io.
Hypothesis Hconn : i_conn io = Some c.
Hypothesis Hdisp : 0 <= i_disp_index io < disps.
Hypothesis Hc : conn_is c n disc (d_conns d).
Hypothesis Hn : 0 < n.
Hypothesis Hp : pool_inv (d_iocb_pool d) (i :: rest).
Hypothesis Hcnt : 0 <= obj_count (d_iocb_pool d).

Definition free_result (o : outcome PfDispatcher) : Prop :=
  exists io' h p', o = Done (given_up i io' h p' d) /\ block_io disps c PFree io' /\ conn_is c (n - 1) disc h /\ pool_inv p' rest /\ 0 <= obj_count p'.

Lemma free_one : i_ref_count io = 1 -> free_result (dec_ref_on_error disps i d).
Proof using All.
  intros Hr. unfold dec_ref_on_error, get_iocb. rewrite Hio. cbn [of_option obind i_ref_count set_ref]. rewrite Hr. change (u32 (1 - 1) =? 0) with true. cbv iota.
  unfold free_to_pool, get_iocb. cbn [d_iocbs set_iocb]. rewrite lookup_insert_eq. cbn [of_option obind i_conn set_ref i_disp_index i_cmd i_subtasks i_ref_count]. rewrite Hconn, set_iocb_twice.
  set (io' := mkIocb _ _ _ _ _ _ _ _ _ _). destruct (drop_one c n disc (set_iocb i io' d) Hc Hn) as (h & -> & Hh). cbn [obind].
  rewrite (proj2 (Z.leb_le 0 _)), (proj2 (Z.ltb_lt _ disps)) by lia. cbn [andb negb]. destruct (pool_free_spec _ _ _ Hp Hcnt) as (p' & Ep & Hp' & Ec).
  cbn [set_conns d_iocb_pool set_iocb] in *. rewrite Ep. cbn [obind]. exists io', h, p'. split; [done|]. split; [done|]. splits; [done|done|lia].
Qed.

(** with a subtask the block keeps a reference when it loses its connection, and the end of the subtask frees it *)
Lemma free_two : i_ref_count io = 2 -> exists d1, dec_ref_on_error disps i d = Done d1 /\ d_out d1 = d_out d /\ free_result (iocb_dec_ref disps i d1).
Proof using All.
  intros Hr. unfold dec_ref_on_error, get_iocb. rewrite Hio. cbn [of_option obind i_ref_count set_ref i_conn]. rewrite Hr. change (u32 (2 - 1) =? 0) with false. cbv iota. rewrite Hconn, set_iocb_twice.
  set (io1 := set_iconn None _). destruct (drop_one c n disc (set_iocb i io1 d) Hc Hn) as (h & -> & Hh). eexists. split; [done|]. split; [done|].
  unfold iocb_dec_ref, get_iocb. cbn [d_iocbs set_iocb set_conns]. rewrite lookup_insert_eq. cbn [of_option obind i_ref_count set_ref set_iconn io1]. change (u32 (u32 (2 - 1) - 1) =? 0) with true. cbv iota.
  unfold free_to_pool, get_iocb. cbn [d_iocbs set_iocb set_conns]. rewrite lookup_insert_eq. unfold io1. cbn [of_option obind i_conn set_ref set_iconn i_disp_index i_cmd i_subtasks i_ref_count].
  rewrite (proj2 (Z.leb_le 0 _)), (proj2 (Z.ltb_lt _ disps)) by lia. cbn [andb negb]. destruct (pool_free_spec _ _ _ Hp Hcnt) as (p' & Ep & Hp' & Ec). cbn [set_conns d_iocb_pool set_iocb] in *. rewrite Ep. cbn [obind].
  eexists _, h, p'. split; [unfold given_up, set_iocb, set_conns, set_iocb_pool; cbn; rewrite !insert_insert_eq; reflexivity|]. split; [done|]. splits; [done|done|lia].
Qed.
End Free.

(** *** Queues *)
Lemma proj_app i a b : proj i (a ++ b) = proj i a ++ proj i b.
Proof. apply filter_app. Qed.

Lemma proj_eq b l : proj (bd_id b) (b :: l) = b :: proj (bd_id b) l.
Proof. unfold proj. rewrite filter_cons. by rewrite decide_True. Qed.

Lemma proj_cmd i : proj i [BdCmd i] = [BdCmd i].
Proof. exact (proj_eq (BdCmd i) []). Qed.
Lemma proj_data i : proj i [BdData i] = [BdData i].
Proof. exact (proj_eq (BdData i) []). Qed.
Lemma proj_reply i : proj i [BdReply i] = [BdReply i].
Proof. exact (proj_eq (BdReply i) []). Qed.

Lemma proj_ne i b l : bd_id b <> i -> proj i (b :: l) = proj i l.
Proof. intros H. unfold proj. rewrite filter_cons. by rewrite decide_False. Qed.

(** what the next completion of a block can be *)
Lemma next_completion p i b l : proj i (b :: l) = (where_is p i).1.1.2 -> bd_id b = i ->
  (p = PHead /\ b = BdCmd i /\ proj i l = []) \/ (p = PReading /\ b = BdData i /\ proj i l = [])
  \/ (p = PReply /\ b = BdReply i /\ proj i l = []) \/ (p = PDataReply /\ b = BdData i /\ proj i l = [BdReply i]).
Proof. intros H <-. rewrite proj_eq in H. destruct p; cbn in H; try discriminate H; injection H as E1 E2; rewrite <- ?E1 in *; cbn [bd_id] in *; tauto. Qed.

Lemma free_pre disps c ids others pl y i : rinv disps c ids others pl y -> i ∈ ids -> live (pl i) = true ->
  let rest := lives (at_place i PFree pl) ids ++ others in
  pool_inv (d_iocb_pool (rs_disp (y_srv y))) (i :: rest) /\ Z.of_nat (length (lives pl ids)) = 1 + Z.of_nat (length (lives (at_place i PFree pl) ids)).
Proof.
  intros [_ R2 _ _ _ _ _ [R8 _] _ _ _] Hi Hl rest. pose proof (lives_freed i pl ids R2 Hi Hl) as P. split.
  - eapply pool_inv_perm; [|exact R8]. unfold rest. by rewrite P.
  - apply Permutation_length in P. cbn in P. lia.
Qed.

(** giving a block up keeps the invariant *)
Lemma rinv_free disps c ids others pl y d r held i o :
  rinv disps c ids others pl y -> i ∈ ids -> live (pl i) = true ->
  r_id r = c -> (r_err (rs_rdma (y_srv y)) = true -> r_err r = true) ->
  (forall b st, (b, st) ∈ r_cq r -> (b, st) ∈ r_cq (rs_rdma (y_srv y))) ->
  (forall e, e ∈ d_events d -> e ∈ d_events (rs_disp (y_srv y))) ->
  (forall j, j <> i -> same_for y (mkRsys (mkRsrv d r) held (y_disc y) (y_failed y)) j) ->
  spots (mkRsys (mkRsrv d r) held (y_disc y) (y_failed y)) i = ([], [], [], None) ->
  free_result disps c (Z.of_nat (length (lives pl ids))) i (y_disc y) d (lives (at_place i PFree pl) ids ++ others) o ->
  exists d', o = Done d' /\ d_out d' = d_out d /\ d_events d' = d_events d /\ rinv disps c ids others (at_place i PFree pl) (mkRsys (mkRsrv d' r) held (y_disc y) (y_failed y)).
Proof.
  intros R Hi Hl Hid Herr Hcq Hev Hs Hsp (io' & h & p' & -> & Hio & Hh & Hp & Hc). destruct (free_pre _ _ _ _ _ _ _ R Hi Hl) as [_ Hlen].
  eexists. split; [done|]. split; [done|]. split; [done|]. eapply rinv_update; [done|done|done| | | | | | |done|done|].
  - intros j Hj. destruct (Hs j Hj) as (S1 & S2 & S3). split; [exact S1|]. split; [exact S2|]. rewrite <- S3. cbn. by apply lookup_insert_ne.
  - split; [exact Hsp|]. split; [done|]. exists io'. split; [apply lookup_insert_eq|done].
  - intros e He. left. by apply Hev.
  - exact Hp.
  - exact Hc.
  - cbn. by replace (Z.of_nat (length (lives (at_place i PFree pl) ids))) with (Z.of_nat (length (lives pl ids)) - 1) by lia.
  - cbn. intros Hf. splits; [done|done|]. eauto.
Qed.

(** *** What is left to do after a disconnection *)
Definition status_weight (x : bd * Z) : nat := if x.2 =? WC_SUCCESS then 8 else 1.

Definition held_weight (h : gmap Z nat) : nat := map_fold (fun _ n a => S n + a)%nat 0%nat h.

Definition weight (y : rsys) : nat :=
  let r := rs_rdma (y_srv y) in
  (2 * length (r_recvq r) + 2 * length (r_sendq r) + sum_list_with status_weight (r_cq r)
   + 7 * length (d_events (rs_disp (y_srv y))) + held_weight (y_held y))%nat.

(** the invariant after a step that changes one block, and progress after a disconnection *)
Definition moved (disps c : Z) (ids others : list Z) (y : rsys) (o : outcome rsys) : Prop :=
  exists y' pl', o = Done y' /\ rinv disps c ids others pl' y' /\ y_disc y' = y_disc y /\ (y_disc y = true -> (weight y' < weight y)%nat).

Lemma block_at disps c ids others pl y i : rinv disps c ids others pl y -> i ∈ ids ->
  exists io, d_iocbs (rs_disp (y_srv y)) !! i = Some io /\ block_io disps c (pl i) io /\ spots y i = where_is (pl i) i /\ ops_ok (pl i) i (r_wr_op (rs_rdma (y_srv y))).
Proof. intros R Hi. destruct (ri_blocks _ _ _ _ _ _ R i Hi) as (B1 & B2 & io & E & B3). by exists io. Qed.

(** the state with the next completion taken *)
Definition popped (y : rsys) (cq : list (bd * Z)) : rsrv := on_rdma (fun r => set_rqueues (r_recvq r) (r_sendq r) cq r) (y_srv y).

Section Poll.
Variables (disps c : Z) (ids others : list Z) (pl : Z -> place) (y : rsys) (b : bd) (st : Z) (cq : list (bd * Z)) (i : Z).
Hypothesis R : rinv disps c ids others pl y.
Hypothesis Hcq : r_cq (rs_rdma (y_srv y)) = (b, st) :: cq.
Hypothesis Hi : bd_id b = i.

Lemma poll_in : i ∈ ids.
Proof using R Hcq Hi. subst i. apply (ri_stream _ _ _ _ _ _ R). unfold stream. rewrite Hcq. by left. Qed.

Lemma poll_proj j : j <> i -> proj j (stream (rs_rdma (popped y cq))) = proj j (stream (rs_rdma (y_srv y))).
Proof using Hcq Hi. intros Hj. unfold stream. rewrite Hcq. cbn [fmap list_fmap fst app popped on_rdma rs_rdma set_rqueues r_cq r_sendq]. rewrite proj_ne by congruence. done. Qed.

Lemma poll_cq x : x ∈ cq -> x ∈ r_cq (rs_rdma (y_srv y)).
Proof using Hcq. rewrite Hcq. by right. Qed.

Lemma poll_weight : (weight (with_srv y (popped y cq)) + status_weight (b, st) = weight y)%nat.
Proof using Hcq. unfold weight. rewrite Hcq. cbn. lia. Qed.

(** the block is given up *)
Lemma poll_free d wr p0 :
  pl i = p0 -> proj i (stream (rs_rdma (popped y cq))) = [] ->
  live p0 = true -> refs p0 = 1 ->
  r_recvq wr = r_recvq (rs_rdma (y_srv y)) -> r_sendq wr = r_sendq (rs_rdma (y_srv y)) -> r_cq wr = cq -> r_id wr = c -> r_err wr = r_err (rs_rdma (y_srv y)) ->
  (forall b', bd_id b' <> i -> r_wr_op wr !! b' = r_wr_op (rs_rdma (y_srv y)) !! b') ->
  (exists io, d = set_iocb i io (rs_disp (y_srv y)) /\ block_io disps c p0 io) ->
  proj i (r_recvq (rs_rdma (y_srv y))) = [] -> filter (fun e => e = EvIoReq i) (d_events (rs_disp (y_srv y))) = [] -> y_held y !! i = None ->
  moved disps c ids others y (let* s := on_rdisp (dec_ref_on_error disps i) (mkRsrv d wr) in Done (with_srv y s)).
Proof using All.
  intros Hp Hst Hl Hr W1 W2 W3 W4 W5 W6 (io & -> & Hio) Q1 Q2 Q3. pose proof poll_in as Hin.
  destruct (free_pre _ _ _ _ _ _ _ R Hin) as [F1 F2]; [by rewrite Hp|].
  destruct Hio as (I1 & I2 & I3). rewrite Hl in I2.
  destruct (rinv_free disps c ids others pl y (set_iocb i io (rs_disp (y_srv y))) wr (y_held y) i (dec_ref_on_error disps i (set_iocb i io (rs_disp (y_srv y))))) as (d' & E & _ & Hev & R'); try done.
  - by rewrite Hp.
  - by rewrite W5.
  - rewrite W3. intros b' st'. apply poll_cq.
  - intros j Hj. split; [|split].
    + unfold spots. cbn. rewrite W1. do 3 f_equal. unfold stream. rewrite W2, W3. by apply poll_proj.
    + intros b' Hb'. apply W6. congruence.
    + cbn. by apply lookup_insert_ne.
  - unfold spots. cbn. rewrite W1, Q1, Q2, Q3. unfold stream. rewrite W2, W3. change (proj i ((fst <$> cq) ++ (w_bd <$> r_sendq (rs_rdma (y_srv y))))) with (proj i (stream (rs_rdma (popped y cq)))). by rewrite Hst.
  - apply free_one with (io := io); try done; [apply lookup_insert_eq|exact (ri_conn _ _ _ _ _ _ R)|lia|apply (ri_pool _ _ _ _ _ _ R)|lia].
  - unfold on_rdisp. cbn [rs_disp rs_rdma]. rewrite E. cbn [obind]. eexists _, _. split; [done|]. split; [exact R'|]. split; [done|]. intros _.
    pose proof poll_weight as Hw. assert (1 <= status_weight (b, st))%nat by (unfold status_weight; destruct (_ =? _); lia). revert Hw. unfold weight. cbn. rewrite W1, W2, W3. intros Hw.
    rewrite Hev. cbn. lia.
Qed.

(** the block moves on *)
Lemma poll_move p' s' io :
  live p' = live (pl i) -> (y_failed y = false -> p' <> PStuck) ->
  r_id (rs_rdma s') = c -> r_err (rs_rdma s') = r_err (rs_rdma (y_srv y)) -> r_cq (rs_rdma s') = cq ->
  (forall j, j <> i -> proj j (r_recvq (rs_rdma s')) = proj j (r_recvq (rs_rdma (y_srv y)))) ->
  (forall j, j <> i -> proj j (w_bd <$> r_sendq (rs_rdma s')) = proj j (w_bd <$> r_sendq (rs_rdma (y_srv y)))) ->
  (forall b', bd_id b' <> i -> r_wr_op (rs_rdma s') !! b' = r_wr_op (rs_rdma (y_srv y)) !! b') ->
  (d_events (rs_disp s') = d_events (rs_disp (y_srv y)) \/ d_events (rs_disp s') = d_events (rs_disp (y_srv y)) ++ [EvIoReq i]) ->
  d_iocbs (rs_disp s') = <[i := io]> (d_iocbs (rs_disp (y_srv y))) ->
  d_iocb_pool (rs_disp s') = d_iocb_pool (rs_disp (y_srv y)) -> d_conns (rs_disp s') = d_conns (rs_disp (y_srv y)) ->
  block_ok disps c (with_srv y s') p' i -> (weight (with_srv y s') < weight y)%nat ->
  moved disps c ids others y (Done (with_srv y s')).
Proof using R Hcq Hi.
  intros Hl Hstk H1 H2 H3 H4 H5 H6 H7 H8 H9 H10 Hb Hw. exists (with_srv y s'), (at_place i p' pl). split; [done|]. split; [|split; [done|by intros _]].
  eapply rinv_update; [exact R|exact poll_in|exact H1| |exact Hb| | | | |done| |]; cbn [with_srv y_srv y_disc y_failed].
  - intros j Hj. split; [|split].
    + unfold spots, stream. cbn [with_srv y_srv y_held]. rewrite H4, proj_app, H3, H5, <- proj_app by done.
      change (proj j ((fst <$> cq) ++ (w_bd <$> r_sendq (rs_rdma (y_srv y))))) with (proj j (stream (rs_rdma (popped y cq)))). rewrite poll_proj by done.
      f_equal. f_equal. destruct H7 as [-> | ->]; [done|]. rewrite filter_app, filter_cons, decide_False by congruence. by rewrite filter_nil, app_nil_r.
    + intros b' Hb'. apply H6. congruence.
    + cbn. rewrite H8. by apply lookup_insert_ne.
  - intros e He. destruct H7 as [E|E]; rewrite E in He; [by left|]. apply elem_of_app in He as [|He]; [by left|right; by apply list_elem_of_singleton in He].
  - rewrite H9, lives_same by done. apply (ri_pool _ _ _ _ _ _ R).
  - rewrite H9. apply (ri_pool _ _ _ _ _ _ R).
  - rewrite H10, lives_same by done. apply (ri_conn _ _ _ _ _ _ R).
  - by rewrite H2.
  - intros Hf. split; [done|]. split; [by apply Hstk|]. intros b' st'. rewrite H3. intros Hx. left. by apply poll_cq.
Qed.

(** a request that has not succeeded *)
Lemma poll_bad op rc p0 :
  pl i = p0 -> proj i (stream (rs_rdma (popped y cq))) = [] -> live p0 = true -> refs p0 = 1 -> b <> BdHand ->
  proj i (r_recvq (rs_rdma (y_srv y))) = [] -> filter (fun e => e = EvIoReq i) (d_events (rs_disp (y_srv y))) = [] -> y_held y !! i = None ->
  (st =? WC_SUCCESS) = false -> r_wr_op (rs_rdma (y_srv y)) !! b = Some op -> (op =? RDMA_WR_WRITE) = false ->
  moved disps c ids others y (let* (_, s) := server_on_rdma_network_done disps rc b st (popped y cq) in Done (with_srv y s)).
Proof using R Hcq Hi.
  intros Hp Hst Hl Hr Hh Q1 Q2 Q3 Est Hop Hw. destruct (block_at _ _ _ _ _ _ _ R poll_in) as (io & Eio & Hio & _ & _). rewrite Hp in Hio.
  assert (rs_disp (y_srv y) = set_iocb i io (rs_disp (y_srv y))) as Ed by (unfold set_iocb; rewrite insert_id by done; by destruct (rs_disp _)).
  unfold server_on_rdma_network_done. cbn [popped on_rdma rs_rdma set_rqueues r_wr_op]. rewrite Hop, Est. cbn [default from_option id]. rewrite Hw. cbn [negb].
  destruct (st =? WC_FLUSH_ERR) eqn:Ef; cbn [negb].
  - assert (block_of b = Done i) as -> by (destruct b; cbn in *; congruence || done). cbn [obind].
    match goal with |- moved _ _ _ _ _ (obind (obind (on_rdisp ?f ?s0) _) _) => assert (moved disps c ids others y (let* s := on_rdisp f s0 in Done (with_srv y s))) as Hm end.
    { eapply poll_free; try done; [exact (ri_id _ _ _ _ _ _ R)|]. eauto. }
    destruct (on_rdisp _ _) as [s'| |]; cbn [obind] in *; exact Hm.
  - cbn [obind]. eapply poll_move with (p' := PStuck) (io := io); try done.
    + by rewrite Hp.
    + intros Hf. destruct (ri_status _ _ _ _ _ _ R Hf) as [Hs _]. destruct (Hs b st) as [-> | ->]; [rewrite Hcq; by left|done|done].
    + exact (ri_id _ _ _ _ _ _ R).
    + by left.
    + cbn. by rewrite insert_id.
    + split; [|split; [done|]].
      * unfold spots. cbn -[filter]. rewrite Q1, Q2, Q3. unfold stream in *. cbn -[filter] in Hst |- *. by rewrite Hst.
      * exists io. split; [done|]. destruct Hio as (I1 & I2 & I3). rewrite Hl in I2. rewrite Hr in I1. done.
    + pose proof poll_weight as Hwt. assert (1 <= status_weight (b, st))%nat by (unfold status_weight; destruct (_ =? _); lia). change (with_srv y _) with (with_srv y (popped y cq)). lia.
Qed.

(** the completion of a receive request *)
Lemma poll_head rc : pl i = PHead -> b = BdCmd i -> proj i (stream (rs_rdma (popped y cq))) = [] ->
  moved disps c ids others y (let* (_, s) := server_on_rdma_network_done disps rc b st (popped y cq) in Done (with_srv y s)).
Proof using R Hcq Hi.
  intros Hp Eb Hst. destruct (block_at _ _ _ _ _ _ _ R poll_in) as (io & Eio & Hio & Hsp & Hop). rewrite Hp in *. cbn in Hop.
  unfold spots in Hsp. cbn [where_is] in Hsp. injection Hsp as Q1 Q2 Q3 Q4.
  destruct (st =? WC_SUCCESS) eqn:Est; [|by eapply poll_bad with (op := RDMA_WR_RECV); rewrite ?Eb].
  unfold server_on_rdma_network_done. cbn [popped on_rdma rs_rdma set_rqueues r_wr_op]. rewrite Eb, Hop, Est. cbn [default from_option id].
  change (RDMA_WR_RECV =? RDMA_WR_RECV) with true. cbv iota. cbn [rdata_len]. rewrite Z.eqb_refl. unfold head_received. cbn [block_of obind]. unfold get_iocb. cbn [popped on_rdma rs_disp]. rewrite Eio. cbn [of_option obind].
    destruct ((h_opcode (i_cmd io) =? S5_OP_WRITE) || (h_opcode (i_cmd io) =? S5_OP_REPLICATE_WRITE)).
    + unfold rdma_post_read, post_wr. cbn [on_rdma rs_rdma rs_disp]. destruct (rc =? 0) eqn:Erc; cbn [negb].
      * change (negb (0 =? 0)) with false. cbn [obind]. eapply poll_move with (p' := PReading); try done.
        -- by rewrite Hp.
        -- exact (ri_id _ _ _ _ _ _ R).
        -- intros j Hj. cbn. rewrite fmap_app, proj_app. cbn [fmap list_fmap w_bd]. rewrite proj_ne by done. apply app_nil_r.
        -- intros b' Hb'. cbn. rewrite lookup_insert_ne by (intros <-; done). done.
        -- by left.
        -- split; [|split].
           ++ unfold spots. cbn. unfold stream. cbn. rewrite Q1, Q3, Q4, fmap_app, app_assoc, proj_app. unfold stream in Hst. cbn in Hst. rewrite Hst. cbn [fmap list_fmap w_bd]. by rewrite proj_data.
           ++ cbn. apply lookup_insert_eq.
           ++ eexists. split; [apply lookup_insert_eq|]. exact Hio.
        -- pose proof poll_weight as Hw. revert Hw. unfold weight, status_weight. cbn. rewrite Est, length_app. cbn. lia.
      * cbn [obind]. rewrite Erc. cbn [negb]. match goal with |- moved _ _ _ _ _ (obind (obind (on_rdisp ?f ?s0) _) _) => assert (moved disps c ids others y (let* s := on_rdisp f s0 in Done (with_srv y s))) as Hm end.
        { eapply poll_free; try done; [exact (ri_id _ _ _ _ _ _ R)| |].
          - intros b' Hb'. cbn. apply lookup_insert_ne. intros <-. done.
          - eexists. split; [done|]. exact Hio. }
        destruct (on_rdisp _ _) as [s'| |]; cbn [obind] in *; exact Hm.
    + cbn [obind]. eapply poll_move with (p' := PQueued) (io := set_vol_id (h_vol_id (i_cmd io)) io); try done.
      * by rewrite Hp.
      * exact (ri_id _ _ _ _ _ _ R).
      * by right.
      * split; [|split; [done|]].
        -- unfold spots. cbn -[filter]. rewrite Q1, Q4. unfold stream in *. cbn -[filter] in Hst |- *. rewrite Hst, filter_app, Q3. by rewrite filter_cons, decide_True.
        -- eexists. split; [apply lookup_insert_eq|]. exact Hio.
      * pose proof poll_weight as Hw. revert Hw. unfold weight, status_weight. cbn. rewrite Est, length_app. cbn. lia.
Qed.

(** the completion of a read of the client's memory *)
Lemma poll_read rc : pl i = PReading -> b = BdData i -> proj i (stream (rs_rdma (popped y cq))) = [] ->
  moved disps c ids others y (let* (_, s) := server_on_rdma_network_done disps rc b st (popped y cq) in Done (with_srv y s)).
Proof using R Hcq Hi.
  intros Hp Eb Hst. destruct (block_at _ _ _ _ _ _ _ R poll_in) as (io & Eio & Hio & Hsp & Hop). rewrite Hp in *. cbn in Hop.
  unfold spots in Hsp. cbn [where_is] in Hsp. injection Hsp as Q1 Q2 Q3 Q4.
  destruct (st =? WC_SUCCESS) eqn:Est; [|by eapply poll_bad with (op := RDMA_WR_READ); rewrite ?Eb].
  unfold server_on_rdma_network_done. cbn [popped on_rdma rs_rdma set_rqueues r_wr_op]. rewrite Eb, Hop, Est. cbn [default from_option id].
  change (RDMA_WR_READ =? RDMA_WR_RECV) with false. change (RDMA_WR_READ =? RDMA_WR_SEND) with false. change (RDMA_WR_READ =? RDMA_WR_WRITE) with false. change (RDMA_WR_READ =? RDMA_WR_READ) with true.
  cbn [block_of obind]. eapply poll_move with (p' := PQueued) (io := io); try done.
  - by rewrite Hp.
  - exact (ri_id _ _ _ _ _ _ R).
  - by right.
  - cbn. by rewrite insert_id.
  - split; [|split; [done|by exists io]]. unfold spots. cbn -[filter]. rewrite Q1, Q4. unfold stream in *. cbn -[filter] in Hst |- *. rewrite Hst, filter_app, Q3. by rewrite filter_cons, decide_True.
  - pose proof poll_weight as Hw. revert Hw. unfold weight, status_weight. cbn. rewrite Est, length_app. cbn. lia.
Qed.

(** the completion of a reply *)
Lemma poll_reply rc : pl i = PReply -> b = BdReply i -> proj i (stream (rs_rdma (popped y cq))) = [] ->
  moved disps c ids others y (let* (_, s) := server_on_rdma_network_done disps rc b st (popped y cq) in Done (with_srv y s)).
Proof using R Hcq Hi.
  intros Hp Eb Hst. destruct (block_at _ _ _ _ _ _ _ R poll_in) as (io & Eio & Hio & Hsp & Hop). rewrite Hp in *. cbn in Hop.
  unfold spots in Hsp. cbn [where_is] in Hsp. injection Hsp as Q1 Q2 Q3 Q4.
  destruct (st =? WC_SUCCESS) eqn:Est; [|by eapply poll_bad with (op := RDMA_WR_SEND); rewrite ?Eb].
  unfold server_on_rdma_network_done. cbn [popped on_rdma rs_rdma set_rqueues r_wr_op]. rewrite Eb, Hop, Est. cbn [default from_option id].
  change (RDMA_WR_SEND =? RDMA_WR_RECV) with false. change (RDMA_WR_SEND =? RDMA_WR_SEND) with true. cbn [rdata_len]. rewrite Z.eqb_refl.
  unfold reply_sent. cbn [block_of obind]. unfold get_iocb. cbn [popped on_rdma rs_disp]. rewrite Eio. cbn [of_option obind]. unfold rdma_post_recv. destruct (rc =? 0) eqn:Erc; cbn [negb].
  - change (negb (0 =? 0)) with false. cbn [obind]. eapply poll_move with (p' := PRecv) (io := re_init io); try done.
    + by rewrite Hp.
    + exact (ri_id _ _ _ _ _ _ R).
    + intros j Hj. cbn. rewrite proj_app, proj_ne by done. apply app_nil_r.
    + intros b' Hb'. cbn. rewrite lookup_insert_ne by (intros <-; done). done.
    + by left.
    + split; [|split].
      * unfold spots. cbn -[filter]. rewrite proj_app, Q1, Q3, Q4, proj_cmd. unfold stream in *. cbn -[filter] in Hst |- *. by rewrite Hst.
      * cbn. apply lookup_insert_eq.
      * eexists. split; [apply lookup_insert_eq|]. exact Hio.
    + pose proof poll_weight as Hw. revert Hw. unfold weight, status_weight. cbn. rewrite Est, length_app. cbn. lia.
  - cbn [obind]. rewrite Erc. cbn [negb]. match goal with |- moved _ _ _ _ _ (obind (obind (on_rdisp ?f ?s0) _) _) => assert (moved disps c ids others y (let* s := on_rdisp f s0 in Done (with_srv y s))) as Hm end.
    { eapply poll_free; try done; [exact (ri_id _ _ _ _ _ _ R)| |].
      - intros b' Hb'. cbn. apply lookup_insert_ne. intros <-. done.
      - eexists. split; [done|]. exact Hio. }
    destruct (on_rdisp _ _) as [s'| |]; cbn [obind] in *; exact Hm.
Qed.

(** the completion of a write of the client's memory: the reply follows *)
Lemma poll_data rc : pl i = PDataReply -> b = BdData i -> proj i (stream (rs_rdma (popped y cq))) = [BdReply i] ->
  moved disps c ids others y (let* (_, s) := server_on_rdma_network_done disps rc b st (popped y cq) in Done (with_srv y s)).
Proof using R Hcq Hi.
  intros Hp Eb Hst. destruct (block_at _ _ _ _ _ _ _ R poll_in) as (io & Eio & Hio & Hsp & Hop). rewrite Hp in *. cbn in Hop.
  unfold spots in Hsp. cbn [where_is] in Hsp. injection Hsp as Q1 Q2 Q3 Q4. destruct Hop as [Hop1 Hop2].
  assert (server_on_rdma_network_done disps rc b st (popped y cq) = Done (0, popped y cq)) as ->.
  { unfold server_on_rdma_network_done. cbn [popped on_rdma rs_rdma set_rqueues r_wr_op]. rewrite Eb, Hop1. cbn [default from_option id].
    change (RDMA_WR_WRITE =? RDMA_WR_RECV) with false. change (RDMA_WR_WRITE =? RDMA_WR_SEND) with false. change (RDMA_WR_WRITE =? RDMA_WR_WRITE) with true.
    destruct (st =? WC_SUCCESS); [done|]. by destruct (st =? WC_FLUSH_ERR). }
  cbn [obind]. eapply poll_move with (p' := PReply) (io := io); try done.
  - by rewrite Hp.
  - exact (ri_id _ _ _ _ _ _ R).
  - by left.
  - cbn. by rewrite insert_id.
  - split; [|split; [done|by exists io]]. unfold spots. cbn -[filter]. rewrite Q1, Q3, Q4. unfold stream in *. cbn -[filter] in Hst |- *. by rewrite Hst.
  - pose proof poll_weight as Hwt. assert (1 <= status_weight (b, st))%nat by (unfold status_weight; destruct (_ =? _); lia). lia.
Qed.

Lemma poll_moved rc : moved disps c ids others y (let* s := poll_one disps rc (y_srv y) in Done (with_srv y s)).
Proof using R Hcq Hi.
  destruct (block_at _ _ _ _ _ _ _ R poll_in) as (io & Eio & Hio & Hsp & _).
  assert (moved disps c ids others y (let* (_, s) := server_on_rdma_network_done disps rc b st (popped y cq) in Done (with_srv y s))) as Hm.
  { apply (f_equal (fun t => t.1.1.2)) in Hsp. cbn [spots fst snd] in Hsp. unfold stream in Hsp. rewrite Hcq in Hsp. cbn [fmap list_fmap fst app] in Hsp.
    destruct (next_completion _ _ _ _ Hsp Hi) as [(E1 & E2 & E3)|[(E1 & E2 & E3)|[(E1 & E2 & E3)|(E1 & E2 & E3)]]]; [by apply poll_head|by apply poll_read|by apply poll_reply|by apply poll_data]. }
  assert (exists k, d_conns (rs_disp (y_srv y)) !! c = Some k) as [k Ek].
  { destruct (conn_is_live _ _ _ _ (ri_conn _ _ _ _ _ _ R)) as (k & Ek & _); [|eauto]. assert (i ∈ lives pl ids) as Hin.
    { apply list_elem_of_filter. split; [|exact poll_in]. destruct (pl i); cbn in *; try done. apply (f_equal (fun t => t.1.1.2)) in Hsp. cbn [spots fst snd where_is] in Hsp. unfold stream in Hsp. rewrite Hcq in Hsp. cbn [fmap list_fmap fst app] in Hsp. subst i. by rewrite proj_eq in Hsp. }
    destruct (lives pl ids); [by apply elem_of_nil in Hin|]. cbn [length]. destruct (y_disc y); lia. }
  unfold poll_one. rewrite Hcq. fold (popped y cq). change (r_id (rs_rdma (popped y cq))) with (r_id (rs_rdma (y_srv y))). rewrite (ri_id _ _ _ _ _ _ R).
  change (d_conns (rs_disp (popped y cq))) with (d_conns (rs_disp (y_srv y))). rewrite Ek. cbn [of_option obind].
  destruct (server_on_rdma_network_done _ _ _ _ _) as [[z s']| |]; cbn [obind] in *; exact Hm.
Qed.
End Poll.

(** *** The other steps *)
(** nothing changes for the blocks *)
Lemma rinv_still disps c ids others pl y y' :
  rinv disps c ids others pl y -> r_id (rs_rdma (y_srv y')) = c ->
  r_recvq (rs_rdma (y_srv y')) = r_recvq (rs_rdma (y_srv y)) -> stream (rs_rdma (y_srv y')) = stream (rs_rdma (y_srv y)) ->
  r_wr_op (rs_rdma (y_srv y')) = r_wr_op (rs_rdma (y_srv y)) -> rs_disp (y_srv y') = rs_disp (y_srv y) ->
  y_held y' = y_held y -> y_disc y' = y_disc y -> (r_err (rs_rdma (y_srv y)) = true -> r_err (rs_rdma (y_srv y')) = true) ->
  (y_failed y' = false -> y_failed y = false
    /\ forall b st, (b, st) ∈ r_cq (rs_rdma (y_srv y')) -> (b, st) ∈ r_cq (rs_rdma (y_srv y)) \/ st = WC_SUCCESS \/ st = WC_FLUSH_ERR) ->
  rinv disps c ids others pl y'.
Proof.
  intros [R1 R2 R3 R4 R5 R6 R7 R8 R9 R10 R11] Hid Hq Hs Ho Hd Hh Hdi He Hf. split; try done; try (by rewrite Hd).
  - intros i Hi. destruct (R3 i Hi) as (B1 & B2 & B3). unfold block_ok, spots in *. rewrite Hq, Hs, Ho, Hd, Hh. done.
  - by rewrite Hq.
  - by rewrite Hs.
  - by rewrite Hh.
  - by rewrite Hdi, Hd.
  - rewrite Hdi. auto.
  - intros H. destruct (Hf H) as [F1 F2]. destruct (R11 F1) as [G1 G2]. split; [|done]. intros b st Hin. destruct (F2 b st Hin) as [|]; eauto.
Qed.

Lemma carry_out_same l w r : let r' := carry_out l w r in
  r_id r' = r_id r /\ r_recvq r' = r_recvq r /\ r_sendq r' = r_sendq r /\ r_cq r' = r_cq r /\ r_wr_op r' = r_wr_op r /\ r_err r' = r_err r.
Proof. unfold carry_out. destruct (w_bd w); cbn; [done| |destruct (r_reply r !! i); done|done]. by destruct (_ =? _). Qed.

(** the next send request ends, carried out or not *)
Lemma sent_stream r r' w q st : r_sendq r = w :: q -> r_cq r' = r_cq r ++ [(w_bd w, st)] -> r_sendq r' = q -> stream r' = stream r.
Proof. intros E1 E2 E3. unfold stream. rewrite E1, E2, E3, fmap_app, <- app_assoc. done. Qed.

Section Recv.
Variables (disps c : Z) (ids others : list Z) (pl : Z -> place) (y : rsys) (b : bd) (q : list bd).
Hypothesis R : rinv disps c ids others pl y.
Hypothesis Hq : r_recvq (rs_rdma (y_srv y)) = b :: q.

Lemma recv_block : exists i io, b = BdCmd i /\ i ∈ ids /\ pl i = PRecv /\ proj i q = [] /\ d_iocbs (rs_disp (y_srv y)) !! i = Some io /\ block_io disps c PRecv io
  /\ proj i (stream (rs_rdma (y_srv y))) = [] /\ filter (fun e => e = EvIoReq i) (d_events (rs_disp (y_srv y))) = [] /\ y_held y !! i = None
  /\ r_wr_op (rs_rdma (y_srv y)) !! BdCmd i = Some RDMA_WR_RECV.
Proof using R Hq.
  assert (bd_id b ∈ ids) as Hi by (apply (ri_recvq _ _ _ _ _ _ R); rewrite Hq; by left). destruct (block_at _ _ _ _ _ _ _ R Hi) as (io & Eio & Hio & Hsp & Hop).
  unfold spots in Hsp. rewrite Hq, proj_eq in Hsp. exists (bd_id b), io. destruct (pl (bd_id b)) eqn:Ep; cbn [where_is] in Hsp; try discriminate Hsp. injection Hsp as E1 E2 E3 E4 E5. splits; done.
Qed.

(** a receive request ends with status [st]; the adapter may have written the command buffer *)
Lemma recv_moved i io st :
  b = BdCmd i -> (st = WC_SUCCESS \/ st = WC_FLUSH_ERR) ->
  block_io disps c PRecv io ->
  let y' := with_srv y (mkRsrv (set_iocb i io (rs_disp (y_srv y))) (set_rqueues q (r_sendq (rs_rdma (y_srv y))) (r_cq (rs_rdma (y_srv y)) ++ [(b, st)]) (rs_rdma (y_srv y)))) in
  rinv disps c ids others (at_place i PHead pl) y' /\ (st = WC_FLUSH_ERR -> (weight y' < weight y)%nat).
Proof using R Hq.
  intros Eb Hst Hio y'. destruct recv_block as (i' & io0 & Eb' & Hin & Hp & P1 & Eio & Hio0 & P2 & P3 & P4 & P5). assert (i' = i) as -> by congruence. split.
  - eapply rinv_update; [exact R|exact Hin|exact (ri_id _ _ _ _ _ _ R)| | | | | | |done|done|].
    + intros j Hj. split; [|split; [done|cbn; by apply lookup_insert_ne]]. unfold spots, stream. cbn -[filter]. rewrite fmap_app, Hq, <- app_assoc, !proj_app. cbn [fmap list_fmap fst]. rewrite Eb, !proj_ne by done. done.
    + split; [|split; [exact P5|]].
      * unfold spots, stream. cbn -[filter]. unfold stream in P2. rewrite proj_app in P2. apply app_nil in P2 as [P2 P2']. rewrite fmap_app, <- app_assoc, !proj_app. cbn [fmap list_fmap fst]. by rewrite Eb, proj_cmd, P1, P2, P2', P3, P4.
      * exists io. split; [apply lookup_insert_eq|done].
    + cbn. auto.
    + cbn. rewrite lives_same by (by rewrite Hp). apply (ri_pool _ _ _ _ _ _ R).
    + apply (ri_pool _ _ _ _ _ _ R).
    + cbn. rewrite lives_same by (by rewrite Hp). apply (ri_conn _ _ _ _ _ _ R).
    + cbn. intros Hf. splits; [done|done|]. intros b' st' [Hx|Hx]%elem_of_app; [by left|]. apply list_elem_of_singleton in Hx. injection Hx as _ ->. by right.
  - intros ->. unfold weight, y'. cbn. rewrite Hq, sum_list_with_app. cbn. lia.
Qed.
End Recv.

Lemma held_insert i n h : h !! i = None -> held_weight (<[i := n]> h) = (S n + held_weight h)%nat.
Proof. intros H. unfold held_weight. rewrite map_fold_insert_L; [done| |done]. intros. lia. Qed.

Lemma held_delete i n h : h !! i = Some n -> held_weight h = (S n + held_weight (delete i h))%nat.
Proof. intros H. rewrite <- (held_insert i n (delete i h)) by apply lookup_delete_eq. by rewrite insert_delete_id. Qed.

(** the dispatcher takes a request *)
Lemma take_moved disps c ids others pl y i q k io :
  rinv disps c ids others pl y -> d_events (rs_disp (y_srv y)) = EvIoReq i :: q -> (k <= 3)%nat ->
  d_iocbs (rs_disp (y_srv y)) !! i = Some io ->
  moved disps c ids others y (Done (mkRsys (mkRsrv (set_events q (set_iocb i (Nat.iter k iocb_add_ref io) (rs_disp (y_srv y)))) (rs_rdma (y_srv y))) (<[i := k]> (y_held y)) (y_disc y) (y_failed y))).
Proof.
  intros R He Hk Eio. assert (i ∈ ids) as Hi. { destruct (ri_events _ _ _ _ _ _ R (EvIoReq i)) as (i' & [= <-] & Hi); [rewrite He; by left|done]. }
  destruct (block_at _ _ _ _ _ _ _ R Hi) as (io' & Eio' & Hio & Hsp & Hop). rewrite Eio in Eio'. injection Eio' as <-. unfold spots in Hsp. rewrite He, filter_cons, decide_True in Hsp by done.
  destruct (pl i) eqn:Ep; cbn [where_is] in Hsp; try discriminate Hsp. injection Hsp as Q1 Q2 Q3 Q4.
  eexists _, (at_place i (PHeld k) pl). split; [done|]. split; [|split; [done|]].
  - eapply rinv_update; [exact R|exact Hi|exact (ri_id _ _ _ _ _ _ R)| | | | | | |done|done|].
    + intros j Hj. split; [|split; [done|cbn; by apply lookup_insert_ne]]. unfold spots. cbn -[filter]. rewrite He, filter_cons, decide_False, lookup_insert_ne by congruence. done.
    + split; [|split; [exact Hk|]].
      * unfold spots. cbn -[filter]. by rewrite Q1, Q2, Q3, lookup_insert_eq.
      * eexists. split; [apply lookup_insert_eq|]. destruct Hio as (I1 & I2 & I3). unfold block_io. destruct k as [|[|[|[|]]]]; [..|lia]; cbn; rewrite ?I1; done.
    + cbn. intros e Hin. left. rewrite He. by right.
    + cbn. rewrite lives_same by (by rewrite Ep). apply (ri_pool _ _ _ _ _ _ R).
    + apply (ri_pool _ _ _ _ _ _ R).
    + cbn. rewrite lives_same by (by rewrite Ep). apply (ri_conn _ _ _ _ _ _ R).
    + cbn. intros Hf. splits; [done|done|]. auto.
  - intros _. unfold weight. cbn. rewrite He, held_insert by done. cbn. lia.
Qed.

(** RDMA_CM_EVENT_DISCONNECTED *)
Lemma disconnect_moved disps c ids others pl y : rinv disps c ids others pl y -> y_disc y = false ->
  exists s, on_disconnected (y_srv y) = Done s /\ rinv disps c ids others pl (mkRsys s (y_held y) true (y_failed y)).
Proof.
  intros R Hd. destruct (conn_is_live _ _ _ _ (ri_conn _ _ _ _ _ _ R)) as (k & Ek & Hs & Ht & Hr); [rewrite Hd; lia|]. rewrite Hd in *.
  unfold on_disconnected, rdma_close, conn_close. rewrite (ri_id _ _ _ _ _ _ R), Ek. cbn [of_option obind]. rewrite Hs. change (CONN_OK =? CONN_OK) with true. cbn [obind].
  unfold on_rdisp, drop_conn, conn_dec_ref. cbn [rs_disp rs_rdma set_err r_id set_conns d_conns]. rewrite (ri_id _ _ _ _ _ _ R), lookup_insert_eq. cbn [of_option obind c_ref_count set_c_ref set_c_state c_state]. rewrite Hr.
  set (n := Z.of_nat (length (lives pl ids))). replace (n + 1 - 1) with n by lia.
  assert (forall h, conn_is c n true h -> rinv disps c ids others pl (mkRsys (mkRsrv (set_conns h (rs_disp (y_srv y))) (set_err (rs_rdma (y_srv y)))) (y_held y) true (y_failed y))) as Hok.
  { intros h Hh. destruct R as [R1 R2 R3 R4 R5 R6 R7 R8 R9 R10 R11]. by split. }
  destruct (Z.eqb_spec n 0) as [E|E]; change (CONN_CLOSED =? CONN_OK) with false; cbn [obind]; (eexists; split; [reflexivity|]).
  - apply Hok. unfold conn_is. rewrite E. cbn. rewrite delete_insert_eq. apply lookup_delete_eq.
  - apply Hok. unfold conn_is. rewrite (proj2 (Z.eqb_neq _ _)) by lia. rewrite insert_insert_eq. eexists. split; [apply lookup_insert_eq|]. cbn. splits; [done|done|lia].
Qed.

(** the answer of a block is posted *)
Lemma reply_posted disps c ids others pl y i n p' d r io extra :
  rinv disps c ids others pl y -> i ∈ ids -> pl i = PHeld n -> (p' = PReply \/ p' = PDataReply) -> ops_ok p' i (r_wr_op r) ->
  r_id r = c -> r_recvq r = r_recvq (rs_rdma (y_srv y)) -> r_cq r = r_cq (rs_rdma (y_srv y)) -> r_err r = r_err (rs_rdma (y_srv y)) ->
  r_sendq r = r_sendq (rs_rdma (y_srv y)) ++ extra -> w_bd <$> extra = (where_is p' i).1.1.2 ->
  (forall b', bd_id b' <> i -> r_wr_op r !! b' = r_wr_op (rs_rdma (y_srv y)) !! b') ->
  d_iocbs d = <[i := io]> (d_iocbs (rs_disp (y_srv y))) -> block_io disps c p' io ->
  d_events d = d_events (rs_disp (y_srv y)) -> d_iocb_pool d = d_iocb_pool (rs_disp (y_srv y)) -> d_conns d = d_conns (rs_disp (y_srv y)) ->
  rinv disps c ids others (at_place i p' pl) (mkRsys (mkRsrv d r) (delete i (y_held y)) (y_disc y) (y_failed y)).
Proof.
  intros R Hi Ep Hp' Hop W1 W2 W3 W4 W5 W6 W7 D1 D2 D3 D4 D5. destruct (block_at _ _ _ _ _ _ _ R Hi) as (io0 & _ & _ & Hsp & _). rewrite Ep in Hsp. cbn [where_is] in Hsp. injection Hsp as Q1 Q2 Q3 Q4.
  assert (live p' = live (pl i)) as Hl by (rewrite Ep; by destruct Hp' as [-> | ->]).
  assert (forall j, proj j (stream r) = proj j (stream (rs_rdma (y_srv y))) ++ proj j (w_bd <$> extra)) as Hstr by (intros j; unfold stream; by rewrite W3, W5, fmap_app, app_assoc, proj_app).
  eapply rinv_update; [exact R|exact Hi|exact W1| | | | | | |done| |]; cbn [y_srv rs_disp rs_rdma y_disc y_failed y_held].
  - intros j Hj. split; [|split; [intros b' Hb'; apply W7; congruence|cbn; rewrite D1; by apply lookup_insert_ne]]. unfold spots. cbn [y_srv rs_rdma rs_disp y_held]. rewrite W2, D3, Hstr, W6, lookup_delete_ne by done.
    destruct Hp' as [-> | ->]; cbn [where_is fst snd]; rewrite !proj_ne by done; by rewrite app_nil_r.
  - split; [|split; [exact Hop|]].
    + unfold spots. cbn [y_srv rs_rdma rs_disp y_held]. rewrite W2, D3, Hstr, W6, lookup_delete_eq, Q1, Q2, Q3. destruct Hp' as [-> | ->]; cbn [where_is fst snd app]; [by rewrite proj_reply|].
      change [BdData i; BdReply i] with ([BdData i] ++ [BdReply i]). by rewrite proj_app, proj_data, proj_reply.
    + exists io. cbn. rewrite D1. split; [apply lookup_insert_eq|done].
  - intros e Hin. left. by rewrite <- D3.
  - rewrite D4, lives_same by done. apply (ri_pool _ _ _ _ _ _ R).
  - rewrite D4. apply (ri_pool _ _ _ _ _ _ R).
  - rewrite D5, lives_same by done. apply (ri_conn _ _ _ _ _ _ R).
  - by rewrite W4.
  - intros Hf. splits; [done|by destruct Hp' as [-> | ->]|]. rewrite W3. auto.
Qed.

(** what a dispatcher may do: it knows the number of dispatchers, and where a write was accepted the reply is *)
Definition env_ok (disps : Z) (env : disp_env) : Prop :=
  e_disp_count env = disps /\ (forall c i m, e_post_write env c i = 0 -> e_post_send env c m = 0).

Definition posts (r r' : rdma) (p' : place) (i : Z) : Prop :=
  ops_ok p' i (r_wr_op r') /\ r_id r' = r_id r /\ r_recvq r' = r_recvq r /\ r_cq r' = r_cq r /\ r_err r' = r_err r
  /\ (exists extra, r_sendq r' = r_sendq r ++ extra /\ w_bd <$> extra = (where_is p' i).1.1.2)
  /\ (forall b', bd_id b' <> i -> r_wr_op r' !! b' = r_wr_op r !! b').

Definition with_out (l : list disp_action) (d : PfDispatcher) : PfDispatcher :=
  mkDisp (d_opened d) (d_index d) (d_stat d) (d_iocbs d) (d_iocb_pool d) (d_conns d) (d_events d) (d_blocked d) l.

Lemma post_reply_posts c i m s : posts (rs_rdma s) (rs_rdma (post_action s (AReply c i m))) PReply i /\ rs_disp (post_action s (AReply c i m)) = rs_disp s.
Proof.
  split; [|done]. unfold posts. cbn. splits; try done; [apply lookup_insert_eq|by eexists [_]|]. intros b' Hb'. apply lookup_insert_ne. by intros <-.
Qed.

Lemma post_both_posts c i m io s : d_iocbs (rs_disp s) !! i = Some io ->
  posts (rs_rdma s) (rs_rdma (post_action (post_action s (APostWrite c i)) (AReply c i m))) PDataReply i
  /\ rs_disp (post_action (post_action s (APostWrite c i)) (AReply c i m)) = rs_disp s.
Proof.
  intros E. unfold post_action at 2 4. rewrite E. split; [|done]. unfold posts. cbn. splits; try done.
  - rewrite lookup_insert_ne by done. apply lookup_insert_eq.
  - apply lookup_insert_eq.
  - eexists [_; _]. rewrite <- app_assoc. done.
  - intros b' Hb'. rewrite !lookup_insert_ne by (intros <-; done). done.
Qed.

Lemma reply_eval disps c env i io k n disc s :
  env_ok disps env -> d_iocbs (rs_disp s) !! i = Some io -> i_conn io = Some c -> d_conns (rs_disp s) !! c = Some k ->
  c_state k = (if disc : bool then CONN_CLOSED else CONN_OK) -> c_conn_type k = RDMA_TYPE -> n = d_out (rs_disp s) ->
  (disc = false /\ exists p' acts r', (p' = PReply \/ p' = PDataReply) /\ rdma_reply env i s = Done (mkRsrv (with_out (n ++ acts) (rs_disp s)) r') /\ posts (rs_rdma s) r' p' i)
  \/ rdma_reply env i s = (let* d := dec_ref_on_error disps i (rs_disp s) in Done (foldl post_action (mkRsrv d (rs_rdma s)) (drop (length n) (d_out d)))).
Proof.
  intros [<- Hf] Eio Hc Ek Hs Ht ->. unfold rdma_reply, reply_io_to_client, get_iocb. rewrite Eio. cbn [of_option obind]. rewrite Hc, Ek. cbn [of_option obind]. rewrite Hs, Ht.
  destruct disc; [by right|]. change (negb (CONN_OK =? CONN_OK)) with false. cbv iota. change (RDMA_TYPE =? RDMA_TYPE) with true. rewrite andb_true_r. unfold send_reply.
  destruct (IS_READ_OP _ && _).
  - destruct (Z.eqb_spec (e_post_write env c i) 0) as [Ew|]; [|by right]. rewrite (Hf c i _ Ew), Z.eqb_refl. left. split; [done|]. cbn [obind].
    set (d2 := out (AReply _ _ _) _). assert (d_out d2 = d_out (rs_disp s) ++ [APostWrite c i; AReply c i (reply_message io)]) as Eo by (unfold d2, out; cbn; by rewrite <- app_assoc).
    rewrite Eo, drop_app_length. cbn [foldl]. destruct (post_both_posts c i (reply_message io) io (mkRsrv d2 (rs_rdma s)) Eio) as [P1 P2].
    exists PDataReply, [APostWrite c i; AReply c i (reply_message io)]. eexists. split; [by right|]. split; [|exact P1]. f_equal. destruct (post_action (post_action _ _) _) as [d3 r3]. cbn in P2. subst d3. f_equal.
    unfold with_out. rewrite <- Eo. done.
  - destruct (e_post_send env c _ =? 0); [|by right]. left. split; [done|]. cbn [obind].
    set (d2 := out (AReply _ _ _) _). change (d_out d2) with (d_out (rs_disp s) ++ [AReply c i (reply_message io)]). rewrite drop_app_length. cbn [foldl].
    destruct (post_reply_posts c i (reply_message io) (mkRsrv d2 (rs_rdma s))) as [P1 P2]. exists PReply, [AReply c i (reply_message io)]. eexists. split; [by left|]. split; [|exact P1]. done.
Qed.

Section Answer.
Variables (disps c : Z) (ids others : list Z) (pl : Z -> place) (y : rsys) (env : disp_env) (i sc mv : Z) (n : nat).
Hypothesis R : rinv disps c ids others pl y.
Hypothesis Henv : env_ok disps env.
Hypothesis Hh : y_held y !! i = Some n.

Lemma held_block : exists io, i ∈ ids /\ pl i = PHeld n /\ (n <= 3)%nat /\ d_iocbs (rs_disp (y_srv y)) !! i = Some io /\ block_io disps c (PHeld n) io
  /\ proj i (r_recvq (rs_rdma (y_srv y))) = [] /\ proj i (stream (rs_rdma (y_srv y))) = [] /\ filter (fun e => e = EvIoReq i) (d_events (rs_disp (y_srv y))) = [].
Proof using R Hh.
  pose proof (ri_held _ _ _ _ _ _ R i n Hh) as Hi. destruct (block_at _ _ _ _ _ _ _ R Hi) as (io & Eio & Hio & Hsp & Hop). exists io. unfold spots in Hsp. rewrite Hh in Hsp.
  destruct (pl i) eqn:Ep; cbn [where_is] in Hsp; try discriminate Hsp. injection Hsp as Q1 Q2 Q3 ->. splits; done.
Qed.

(** the block as [end_sub] leaves it before the answer *)
Definition answered (io : PfServerIocb) : rsrv := mkRsrv (set_iocb i (set_status sc mv io) (rs_disp (y_srv y))) (rs_rdma (y_srv y)).

Lemma answer_conn : exists k, d_conns (rs_disp (y_srv y)) !! c = Some k /\ c_state k = (if y_disc y then CONN_CLOSED else CONN_OK) /\ c_conn_type k = RDMA_TYPE.
Proof using R Hh.
  destruct held_block as (io & Hi & Ep & _). destruct (conn_is_live _ _ _ _ (ri_conn _ _ _ _ _ _ R)) as (k & Ek & Hs & Ht & _); [|eauto].
  assert (i ∈ lives pl ids) as Hin by (apply list_elem_of_filter; by rewrite Ep). destruct (lives pl ids); [by apply elem_of_nil in Hin|]. cbn [length]. destruct (y_disc y); lia.
Qed.

(** giving the block up *)
Lemma answer_free io o : d_iocbs (rs_disp (y_srv y)) !! i = Some io ->
  free_result disps c (Z.of_nat (length (lives pl ids))) i (y_disc y) (rs_disp (answered io)) (lives (at_place i PFree pl) ids ++ others) o ->
  moved disps c ids others y (let* d := o in Done (mkRsys (mkRsrv d (rs_rdma (y_srv y))) (delete i (y_held y)) (y_disc y) (y_failed y))).
Proof using R Hh.
  intros Eio Ho. destruct held_block as (io0 & Hi & Ep & _ & _ & _ & Q1 & Q2 & Q3).
  destruct (rinv_free disps c ids others pl y (rs_disp (answered io)) (rs_rdma (y_srv y)) (delete i (y_held y)) i o) as (d' & -> & _ & Hev & R'); try done.
  - by rewrite Ep.
  - exact (ri_id _ _ _ _ _ _ R).
  - intros j Hj. split; [|split; [done|cbn; by apply lookup_insert_ne]]. unfold spots. cbn -[filter]. by rewrite lookup_delete_ne by done.
  - unfold spots. cbn -[filter]. by rewrite Q1, Q2, Q3, lookup_delete_eq.
  - cbn [obind]. eexists _, _. split; [done|]. split; [exact R'|]. split; [done|]. intros _. unfold weight. cbn. rewrite Hev, (held_delete i n (y_held y)) by done. cbn. lia.
Qed.

Lemma early_moved : n = O ->
  moved disps c ids others y (let* s := end_sub env i sc mv true (y_srv y) in Done (mkRsys s (delete i (y_held y)) (y_disc y) (y_failed y))).
Proof using R Hh Henv.
  pose proof answer_free as Hfree. destruct held_block as (io & Hi & Ep & _ & Eio & Hio & Q1 & Q2 & Q3). destruct answer_conn as (k & Ek & Hs & Ht). intros ->. unfold end_sub, get_iocb. rewrite Eio. cbn [of_option obind]. fold (answered io).
  destruct Hio as (I1 & I2 & I3). destruct (reply_eval disps c env i (set_status sc mv io) k (d_out (rs_disp (answered io))) (y_disc y) (answered io)) as [(Hd & p' & acts & r' & Hp' & -> & P1 & P2 & P3 & P4 & P5 & (extra & P6 & P6') & P7)|E]; try done; [apply lookup_insert_eq| |].
  - cbn [obind]. eexists _, (at_place i p' pl). split; [done|]. split; [|split; [done|by rewrite Hd]].
    eapply reply_posted with (n := O) (extra := extra); try done; [by rewrite P2; apply (ri_id _ _ _ _ _ _ R)|]. by destruct Hp' as [-> | ->].
  - rewrite E. destruct (free_pre _ _ _ _ _ _ _ R Hi) as [F1 F2]; [by rewrite Ep|].
    assert (free_result disps c (Z.of_nat (length (lives pl ids))) i (y_disc y) (rs_disp (answered io)) (lives (at_place i PFree pl) ids ++ others) (dec_ref_on_error disps i (rs_disp (answered io)))) as Hf.
    { apply free_one with (io := set_status sc mv io); try done; [apply lookup_insert_eq|exact (ri_conn _ _ _ _ _ _ R)|lia|apply (ri_pool _ _ _ _ _ _ R)]. }
    pose proof (Hfree io _ Eio Hf) as Hm. destruct Hf as (io' & h & p' & Ef & _). rewrite Ef in Hm |- *. cbn [obind] in *. change (d_out (given_up i io' h p' (rs_disp (answered io)))) with (d_out (rs_disp (answered io))).
    rewrite drop_all. cbn [foldl]. exact Hm.
Qed.

Lemma sub_moved m : n = S m ->
  moved disps c ids others y (let* s := end_sub env i sc mv (bool_decide (m = O)) (y_srv y) in
    let* s := on_rdisp (iocb_dec_ref disps i) s in
    Done (mkRsys s (match m with O => delete i (y_held y) | _ => <[i := m]> (y_held y) end) (y_disc y) (y_failed y))).
Proof using R Hh Henv.
  pose proof answer_free as Hfree. destruct held_block as (io & Hi & Ep & Hle & Eio & Hio & Q1 & Q2 & Q3). destruct answer_conn as (k & Ek & Hs & Ht). intros ->. unfold end_sub, get_iocb. rewrite Eio. cbn [of_option obind]. fold (answered io). destruct Hio as (I1 & I2 & I3). cbn [refs live] in *.
  destruct m as [|m].
  - rewrite bool_decide_eq_true_2 by done.
    destruct (reply_eval disps c env i (set_status sc mv io) k (d_out (rs_disp (answered io))) (y_disc y) (answered io)) as [(Hd & p' & acts & r' & Hp' & -> & P1 & P2 & P3 & P4 & P5 & (extra & P6 & P6') & P7)|E]; try done; [apply lookup_insert_eq| |].
    + cbn [obind]. unfold on_rdisp, iocb_dec_ref, get_iocb. cbn [rs_disp with_out d_iocbs answered set_iocb]. rewrite lookup_insert_eq. cbn [of_option obind i_ref_count set_ref set_status]. rewrite I1. change (u32 (1 + Z.of_nat 1 - 1)) with 1. cbn [Z.eqb obind].
      eexists _, (at_place i p' pl). split; [done|]. split; [|split; [done|by rewrite Hd]].
      eapply reply_posted with (n := 1%nat) (extra := extra) (io := set_ref 1 (set_status sc mv io)); try done; [cbn [rs_rdma]; rewrite P2; apply (ri_id _ _ _ _ _ _ R)|cbn; by rewrite insert_insert_eq|]. by destruct Hp' as [-> | ->].
    + rewrite E. destruct (free_pre _ _ _ _ _ _ _ R Hi) as [F1 F2]; [by rewrite Ep|].
      destruct (free_two disps c (Z.of_nat (length (lives pl ids))) i (y_disc y) (set_status sc mv io) (rs_disp (answered io)) (lives (at_place i PFree pl) ids ++ others)) as (d1 & -> & Ho & Hf); try done;
        [apply lookup_insert_eq|exact (ri_conn _ _ _ _ _ _ R)|lia|apply (ri_pool _ _ _ _ _ _ R)|]. cbn [obind]. rewrite Ho, drop_all. cbn [foldl]. pose proof (Hfree io _ Eio Hf) as Hm.
      unfold on_rdisp. cbn [rs_disp rs_rdma]. destruct (iocb_dec_ref disps i d1); cbn [obind] in *; exact Hm.
  - rewrite bool_decide_eq_false_2 by done. cbn [obind]. unfold on_rdisp, iocb_dec_ref, get_iocb. cbn [rs_disp answered set_iocb d_iocbs]. rewrite lookup_insert_eq. cbn [of_option obind i_ref_count set_ref set_status]. rewrite I1.
    assert (u32 (1 + Z.of_nat (S (S m)) - 1) = 1 + Z.of_nat (S m)) as -> by (destruct m as [|[|]]; [done|done|lia]). rewrite (proj2 (Z.eqb_neq _ 0)) by lia. cbn [obind].
    eexists _, (at_place i (PHeld (S m)) pl). split; [done|]. split; [|split; [done|]].
    + eapply rinv_update; [exact R|exact Hi|exact (ri_id _ _ _ _ _ _ R)| | | | | | |done|done|].
      * intros j Hj. split; [|split; [done|cbn; by rewrite !lookup_insert_ne]]. unfold spots. cbn -[filter]. by rewrite lookup_insert_ne by done.
      * split; [|split; [cbn; lia|]].
        -- unfold spots. cbn -[filter]. by rewrite Q1, Q2, Q3, lookup_insert_eq.
        -- eexists. split; [apply lookup_insert_eq|]. by cbn.
      * cbn. auto.
      * cbn. rewrite lives_same by (by rewrite Ep). apply (ri_pool _ _ _ _ _ _ R).
      * apply (ri_pool _ _ _ _ _ _ R).
      * cbn. rewrite lives_same by (by rewrite Ep). apply (ri_conn _ _ _ _ _ _ R).
      * cbn. intros Hf. splits; [done|done|]. auto.
    + intros _. unfold weight. cbn. rewrite (held_delete i (S (S m)) (y_held y)), <- (insert_delete_eq (y_held y)), held_insert by (done || apply lookup_delete_eq). cbn. lia.
Qed.
End Answer.

(** ** All steps *)
Definition allowed (disps : Z) (l : rlabel) : Prop :=
  match l with
  | LFail st => st <> WC_SUCCESS
  | LTake k => (k <= 3)%nat
  | LSub env _ _ _ | LEarly env _ _ _ => env_ok disps env
  | _ => True
  end.

(** the steps that bring a disconnected connection to its end *)
Definition drains (l : rlabel) : bool :=
  match l with LFlushRecv | LFlushSend | LPoll _ | LTake _ | LSub _ _ _ _ | LEarly _ _ _ _ => true | _ => false end.

Definition rsys_step (disps : Z) (y y' : rsys) : Prop := exists l, allowed disps l /\ rsys_do disps l y = Some (Done y').
Definition drain (disps : Z) (y y' : rsys) : Prop := exists l, allowed disps l /\ drains l = true /\ rsys_do disps l y = Some (Done y').

Definition kept (disps c : Z) (ids others : list Z) (l : rlabel) (y y' : rsys) : Prop :=
  exists pl', rinv disps c ids others pl' y' /\ (drains l = true -> y_disc y' = y_disc y /\ (y_disc y = true -> (weight y' < weight y)%nat)).

Lemma step_sends disps c ids others pl y l : rinv disps c ids others pl y ->
  match l with LSend _ | LFail _ | LFlushSend | LError | LFill _ _ => True | _ => False end ->
  rsys_do disps l y = None \/ exists y', rsys_do disps l y = Some (Done y') /\ kept disps c ids others l y y'.
Proof.
  intros R Hl. pose proof (ri_id _ _ _ _ _ _ R) as Hid. destruct l; try done; cbn [rsys_do].
  - destruct (r_err (rs_rdma (y_srv y))) eqn:Ee; [by left|]. destruct (r_sendq (rs_rdma (y_srv y))) as [|w q] eqn:Eq; [by left|]. right. eexists. split; [done|]. exists pl. split; [|done].
    destruct (carry_out_same l w (rs_rdma (y_srv y))) as (C1 & C2 & C3 & C4 & C5 & C6). eapply rinv_still; [exact R|cbn; congruence|cbn; done| |cbn; done|done|done|done|cbn; congruence|].
    + eapply sent_stream; [exact Eq|done|done].
    + cbn. intros Hf. split; [done|]. intros b st [Hx|Hx]%elem_of_app; [by left|]. apply list_elem_of_singleton in Hx. injection Hx as _ ->. auto.
  - destruct (r_err (rs_rdma (y_srv y))) eqn:Ee; [by left|]. destruct (r_sendq (rs_rdma (y_srv y))) as [|w q] eqn:Eq; [by left|]. right. eexists. split; [done|]. exists pl. split; [|done].
    eapply rinv_still; [exact R|done|done| |done|done|done|done|done|done]. eapply sent_stream; [exact Eq|done|done].
  - right. eexists. split; [done|]. exists pl. split; [|done]. eapply rinv_still; try done. auto.
  - destruct (r_err (rs_rdma (y_srv y))) eqn:Ee; [|by left]. destruct (r_sendq (rs_rdma (y_srv y))) as [|w q] eqn:Eq; [by left|]. right. eexists. split; [done|]. exists pl. split.
    + eapply rinv_still; [exact R|done|done| |done|done|done|done|done|]; [eapply sent_stream; [exact Eq|done|done]|]. cbn. intros Hf. split; [done|].
      intros b st [Hx|Hx]%elem_of_app; [by left|]. apply list_elem_of_singleton in Hx. injection Hx as _ ->. auto.
    + intros _. split; [done|]. intros _. unfold weight. cbn. rewrite Eq, sum_list_with_app. cbn. lia.
  - destruct (y_held y !! i); [|by left]. right. eexists. split; [done|]. exists pl. split; [|done]. eapply rinv_still; try done. auto.
Qed.

Lemma moved_kept disps c ids others l y o : moved disps c ids others y o -> exists y', Some o = Some (Done y') /\ kept disps c ids others l y y'.
Proof. intros (y' & pl' & -> & R & Hd & Hw). exists y'. split; [done|]. exists pl'. auto. Qed.

Lemma step_kept disps c ids others pl y l : rinv disps c ids others pl y -> allowed disps l ->
  rsys_do disps l y = None \/ exists y', rsys_do disps l y = Some (Done y') /\ kept disps c ids others l y y'.
Proof.
  intros R Hl. destruct l; try (by eapply step_sends); cbn [rsys_do].
  - destruct (r_err _); [by left|]. destruct (r_recvq (rs_rdma (y_srv y))) as [|b q] eqn:Eq; [by left|]. right. destruct (recv_block _ _ _ _ _ _ _ _ R Eq) as (i & io & -> & Hi & Hp & _ & Eio & Hio & _).
    cbn [block_of obind]. unfold get_iocb. rewrite Eio. cbn [of_option obind]. eexists. split; [done|]. eexists. split; [|done]. eapply recv_moved; [exact R|exact Eq|done|by left|exact Hio].
  - destruct (r_err _); [|by left]. destruct (r_recvq (rs_rdma (y_srv y))) as [|b q] eqn:Eq; [by left|]. right. destruct (recv_block _ _ _ _ _ _ _ _ R Eq) as (i & io & -> & Hi & Hp & _ & Eio & Hio & _).
    destruct (recv_moved _ _ _ _ _ _ _ _ R Eq i io WC_FLUSH_ERR eq_refl (or_intror eq_refl) Hio) as [R' Hw].
    assert (set_iocb i io (rs_disp (y_srv y)) = rs_disp (y_srv y)) as Ed by (unfold set_iocb; rewrite insert_id by done; by destruct (rs_disp _)). rewrite Ed in R', Hw. eexists. split; [done|]. eexists. split; [exact R'|]. auto.
  - destruct (r_cq (rs_rdma (y_srv y))) as [|[b st] cq] eqn:Eq; [by left|]. right. apply moved_kept. by eapply poll_moved.
  - destruct (y_disc y) eqn:Ed; [by left|]. right. destruct (disconnect_moved _ _ _ _ _ _ R Ed) as (s & -> & R'). cbn [obind]. eexists. split; [done|]. by exists pl.
  - destruct (d_events _) as [|[i|? ?|?] q] eqn:Eq; [by left| |by left|by left]. right. destruct (ri_events _ _ _ _ _ _ R (EvIoReq i)) as (i' & [= <-] & Hi); [rewrite Eq; by left|].
    destruct (block_at _ _ _ _ _ _ _ R Hi) as (io & Eio & _). unfold get_iocb. rewrite Eio. cbn [of_option obind]. apply moved_kept. by eapply take_moved.
  - destruct (y_held y !! i) as [[|n]|] eqn:Eh; [by left| |by left]. right. apply moved_kept. by eapply sub_moved.
  - destruct (y_held y !! i) as [[|n]|] eqn:Eh; [|by left|by left]. right. apply moved_kept. by eapply early_moved.
Qed.

(** *** The end *)
Definition quiet_env (disps : Z) : disp_env := Dispatcher.mkEnv (fun _ _ => 0) (fun _ _ => 0) (fun _ _ => 0) EmptyString (fun _ => EmptyString) (fun _ _ => NoAnswer) LaunchAsync disps.

Lemma quiet_env_ok disps : env_ok disps (quiet_env disps).
Proof. by split. Qed.

Lemma drained disps c ids others pl y : rinv disps c ids others pl y -> y_disc y = true -> (forall y', ~ drain disps y y') ->
  r_recvq (rs_rdma (y_srv y)) = [] /\ stream (rs_rdma (y_srv y)) = [] /\ d_events (rs_disp (y_srv y)) = [] /\ y_held y = ∅.
Proof.
  intros R Hd Hn. pose proof (ri_err _ _ _ _ _ _ R Hd) as He.
  assert (forall l, allowed disps l -> drains l = true -> rsys_do disps l y = None) as Hno.
  { intros l Ha Hdr. destruct (step_kept _ _ _ _ _ _ _ R Ha) as [|(y' & E & _)]; [done|]. destruct (Hn y'). by exists l. }
  assert (r_cq (rs_rdma (y_srv y)) = []) as Ecq by (pose proof (Hno (LPoll 0) I eq_refl) as H; cbn [rsys_do] in H; by destruct (r_cq _)).
  splits.
  - pose proof (Hno LFlushRecv I eq_refl) as H. cbn [rsys_do] in H. rewrite He in H. by destruct (r_recvq _).
  - pose proof (Hno LFlushSend I eq_refl) as H. cbn [rsys_do] in H. rewrite He in H. unfold stream. rewrite Ecq. by destruct (r_sendq _).
  - destruct (d_events (rs_disp (y_srv y))) as [|e q] eqn:Ee; [done|]. destruct (ri_events _ _ _ _ _ _ R e) as (i & -> & _); [rewrite Ee; by left|].
    pose proof (Hno (LTake 0) ltac:(cbn; lia) eq_refl) as H. cbn [rsys_do] in H. by rewrite Ee in H.
  - apply map_empty. intros i. destruct (y_held y !! i) as [[|n]|] eqn:Eh; [| |done].
    + pose proof (Hno (LEarly (quiet_env disps) i 0 0) (quiet_env_ok disps) eq_refl) as H. cbn [rsys_do] in H. by rewrite Eh in H.
    + pose proof (Hno (LSub (quiet_env disps) i 0 0) (quiet_env_ok disps) eq_refl) as H. cbn [rsys_do] in H. by rewrite Eh in H.
Qed.

(** *** The acceptance *)
Record attached (disps c : Z) (ids others : list Z) (s : rsrv) : Prop := mkAttached {
  at_id : r_id (rs_rdma s) = c;
  at_recvq : r_recvq (rs_rdma s) = BdCmd <$> ids;
  at_idle : stream (rs_rdma s) = [] /\ r_cq (rs_rdma s) = [] /\ d_events (rs_disp s) = [];
  at_nodup : NoDup ids;
  at_blocks : forall i, i ∈ ids -> r_wr_op (rs_rdma s) !! BdCmd i = Some RDMA_WR_RECV /\ exists io, d_iocbs (rs_disp s) !! i = Some io /\ block_io disps c PRecv io;
  at_pool : pool_inv (d_iocb_pool (rs_disp s)) (ids ++ others) /\ 0 <= obj_count (d_iocb_pool (rs_disp s));
  at_stock : forall i, 0 <= i < obj_count (d_iocb_pool (rs_disp s)) -> i ∉ ids ++ others ->
    exists io, d_iocbs (rs_disp s) !! i = Some io /\ i_ref_count io = 0 /\ 0 <= i_disp_index io < disps;
  at_conn : exists k, d_conns (rs_disp s) !! c = Some k /\ c_state k = CONN_OK /\ c_conn_type k = RDMA_TYPE /\ c_ref_count k = Z.of_nat (length ids)
}.

Lemma attach_rdma_ok disps c others n rcs : forall ids s s',
  attached disps c ids others s -> attach_rdma disps n rcs s = Done (0, s') ->
  exists ids', attached disps c ids' others s' /\ length ids' = (length ids + n)%nat.
Proof.
  induction n as [|n IH]; intros ids s s' A; cbn [attach_rdma]; [intros [= <-]; exists ids; split; [done|lia]|]. destruct A as [A1 A2 (A3 & A3' & A3'') A4 A5 [A6 A6'] A7 (k & Ek & K1 & K2 & K3)].
  destruct (pool_alloc_spec _ _ A6 A6') as [(i & p' & -> & Hnin & Hi & Hp' & Hc')|[-> _]]; cbn [obind]; [|intros H; discriminate H].
  destruct (A7 i Hi Hnin) as (io & Eio & Hr & Hdi). unfold get_iocb. cbn [rs_disp set_iocb_pool d_iocbs rs_rdma]. rewrite Eio. cbn [of_option obind]. rewrite A1.
  unfold conn_add_ref. cbn [rs_disp set_iocb d_conns set_iocb_pool]. rewrite Ek. cbn [of_option obind]. unfold post_receive, rdma_post_recv. destruct (rcs n =? 0) eqn:Erc; cbn [negb].
  2: { rewrite Erc. cbn [negb]. destruct (on_rdisp _ _); cbn [obind]; intros H; discriminate H. }
  change (negb (0 =? 0)) with false. cbv iota. cbn [on_rdma rs_disp set_conns d_conns]. rewrite lookup_insert_eq. cbn [of_option obind]. intros E. apply not_elem_of_app in Hnin as [Hn1 Hn2].
  assert ((i :: ids ++ others) ≡ₚ ((ids ++ [i]) ++ others)) as Hperm by (rewrite <- app_assoc; apply Permutation_middle).
  edestruct (IH (ids ++ [i])) as (ids' & A' & Hl); [|exact E|exists ids'; split; [exact A'|rewrite Hl, length_app; cbn; lia]].
  split; cbn -[filter].
  - exact A1.
  - by rewrite A2, fmap_app.
  - done.
  - apply NoDup_app. splits; [done| |apply NoDup_singleton]. by intros j Hj ->%list_elem_of_singleton.
  - intros j [Hj|Hj]%elem_of_app.
    + assert (j <> i) by (by intros ->). rewrite lookup_insert_ne by congruence. destruct (A5 j Hj) as (B1 & io' & B2 & B3). split; [done|]. exists io'. split; [|done]. by rewrite lookup_insert_ne.
    + apply list_elem_of_singleton in Hj as ->. split; [apply lookup_insert_eq|]. eexists. split; [apply lookup_insert_eq|]. unfold block_io. cbn. by rewrite Hr.
  - split; [by eapply pool_inv_perm|lia].
  - intros j Hj Hnj. rewrite <- Hperm in Hnj. apply not_elem_of_cons in Hnj as [Hji Hnj]. rewrite lookup_insert_ne by done. apply A7; [lia|done].
  - rewrite insert_insert_eq. eexists. split; [apply lookup_insert_eq|]. cbn. splits; [done|done|]. rewrite length_app. cbn. lia.
Qed.

Record disp_ready (disps : Z) (others : list Z) (d : PfDispatcher) : Prop := mkReady {
  dr_events : d_events d = [];
  dr_pool : pool_inv (d_iocb_pool d) others /\ 0 <= obj_count (d_iocb_pool d);
  dr_stock : forall i, 0 <= i < obj_count (d_iocb_pool d) -> i ∉ others ->
    exists io, d_iocbs d !! i = Some io /\ i_ref_count io = 0 /\ 0 <= i_disp_index io < disps
}.

Lemma accepted_rinv disps e is_open vol hsq c d s others : disp_ready disps others d -> on_connect_request disps e is_open vol hsq c d = Done (0, s) ->
  exists ids, length ids = Z.to_nat (2 * hsq) /\ rinv disps c ids others (fun _ => PRecv) (mkRsys s ∅ false false).
Proof.
  intros [D1 [D2 D2'] D3] H. unfold on_connect_request in H.
  assert (forall rc s0, rc <> 0 -> clean_conn rc c s0 <> Done (0, s)) as Hcl by (intros rc s0 Hrc; unfold clean_conn; destruct (of_option _); cbn; congruence).
  destruct (cm_context e); cbn [negb] in H; [|by apply Hcl in H]. destruct (Z.eqb_spec (cm_create_qp e) 0); cbn [negb] in H; [|apply Hcl in H; [done|lia]].
  destruct (negb (vol =? 0) && ((PF_MAX_IO_DEPTH <? hsq) || (hsq <=? 0))); [by apply Hcl in H|]. destruct (negb (vol =? 0) && negb (is_open vol)); [by apply Hcl in H|].
  destruct (2 * hsq <? 0); [done|]. destruct (attach_rdma _ _ _ _) as [[rc s1]| |] eqn:Ea; [|done|done]. cbn [obind] in H. destruct (Z.eqb_spec rc 0) as [-> |]; cbn [negb] in H; [|apply Hcl in H; done].
  destruct (Z.eqb_spec (cm_accept e) 0); cbn [negb] in H; [|apply Hcl in H; [done|lia]].
  edestruct (attach_rdma_ok disps c others) with (ids := @nil Z) as (ids & A & Hlen); [|exact Ea|].
  { split; [done|done|done|constructor|by intros i ?%elem_of_nil|done|done|]. eexists. split; [apply lookup_insert_eq|done]. }
  exists ids. split; [exact Hlen|]. destruct A as [A1 A2 (A3 & A3' & A3'') A4 A5 [A6 A6'] A7 (k & Ek & K1 & K2 & K3)]. unfold conn_add_ref in H. rewrite Ek in H. cbn [of_option obind] in H. injection H as <-.
  assert (lives (fun _ => PRecv) ids = ids) as El by (unfold lives; clear; induction ids as [|j ids IH]; [done|]; rewrite filter_cons, decide_True, IH; done).
  split; cbn -[filter]; rewrite ?El; try done.
  - intros i Hi. destruct (A5 i Hi) as (B1 & io & B2 & B3). split; [|split; [exact B1|by exists io]]. unfold spots. cbn -[filter]. rewrite A2, A3, A3''. do 3 f_equal.
    clear -Hi A4. induction ids as [|j ids IH]; [by apply elem_of_nil in Hi|]. apply NoDup_cons in A4 as [Hj A4]. cbn [fmap list_fmap]. destruct (decide (j = i)) as [-> |Hne].
    + pose proof (proj_eq (BdCmd i) (BdCmd <$> ids)) as E. cbn [bd_id] in E. rewrite E. f_equal. clear -Hj. induction ids as [|k ids IH]; [done|]. apply not_elem_of_cons in Hj as [? ?]. cbn [fmap list_fmap]. rewrite proj_ne by (cbn; congruence). by apply IH.
    + rewrite proj_ne by done. apply IH; [done|]. by apply elem_of_cons in Hi as [E|?]; [symmetry in E|].
  - rewrite A2. intros b (i & -> & Hi)%list_elem_of_fmap. done.
  - rewrite A3. by intros b ?%elem_of_nil.
  - rewrite A3''. by intros b ?%elem_of_nil.
  - unfold conn_is. rewrite (proj2 (Z.eqb_neq _ 0)) by lia. eexists. split; [apply lookup_insert_eq|]. cbn. splits; [done|done|lia].
  - intros _. split; [|done]. rewrite A3'. by intros b st ?%elem_of_nil.
Qed.

Lemma steps_rinv disps c ids others y y' : rtc (rsys_step disps) y y' -> (exists pl, rinv disps c ids others pl y) -> exists pl, rinv disps c ids others pl y'.
Proof.
  induction 1 as [y|y1 y2 y3 (l & Ha & E) _ IH]; [done|]. intros [pl R]. apply IH. destruct (step_kept _ _ _ _ _ _ _ R Ha) as [H|(y' & E' & pl' & R' & _)]; [congruence|]. exists pl'. congruence.
Qed.

Lemma drains_bounded disps c ids others y y' k : nsteps (drain disps) k y y' -> y_disc y = true -> (exists pl, rinv disps c ids others pl y) ->
  (k + weight y' <= weight y)%nat /\ y_disc y' = true /\ exists pl, rinv disps c ids others pl y'.
Proof.
  induction 1 as [y|k y1 y2 y3 (l & Ha & Hl & E) _ IH]; intros Hd HR; [splits; [lia|done|done]|]. destruct HR as [pl R].
  destruct (step_kept _ _ _ _ _ _ _ R Ha) as [H|(y' & E' & pl' & R' & Hk)]; [congruence|]. assert (y' = y2) as -> by congruence. destruct (Hk Hl) as [Hd2 Hw].
  destruct IH as (W & D & R3); [congruence|eauto|]. specialize (Hw Hd). splits; [lia|done|done].
Qed.


(** ** Examples *)
Module RdmaDemo.
Definition head (op : Z) : PfMessageHead := mkHead op 7 0 5 4096 99 0 0 3 1.
Definition unused : PfServerIocb := mkIocb (head 0) 0 [] None 0 MSG_STATUS_SUCCESS 0 0 0 false.
Definition server : PfDispatcher := mkDisp ∅ 0 (mkStat 0 0 0 0 0 0) {[0 := unused; 1 := unused]} (ring_pool 2) ∅ [] false [].
Definition cm : cm_env := mkCm true 0 (fun _ => 0) 0.

(** the steps [ls] one after the other *)
Fixpoint play (ls : list rlabel) (y : rsys) : option rsys :=
  match ls with
  | [] => Some y
  | l :: ls => match rsys_do 1 l y with Some (Done y) => play ls y | _ => None end
  end.

Definition start (e : cm_env) : option rsys :=
  match on_connect_request 1 e (fun _ => true) 5 1 9 server with
  | Done (0, s) => Some (mkRsys s ∅ false false)
  | _ => None
  end.

Definition y0 : rsys := default (mkRsys (mkRsrv server (new_qp 9)) ∅ false false) (start cm).

(** a write: the data are fetched before the dispatcher gets the request *)
Definition a_write : list rlabel := [LRecv (head S5_OP_WRITE); LPoll 0; LSend [1; 2; 3]; LPoll 0].

Lemma write_is_fetched : (fun y => (r_data (rs_rdma (y_srv y)) !! 0, d_events (rs_disp (y_srv y)))) <$> play a_write y0 = Some (Some [1; 2; 3], [EvIoReq 0]).
Proof. vm_compute. reflexivity. Qed.

(** a read: the data reach the client before the reply *)
Definition a_read : list rlabel :=
  [LRecv (head S5_OP_READ); LPoll 0; LTake 1; LFill 0 [4; 5; 6]; LSub (quiet_env 1) 0 MSG_STATUS_SUCCESS 8; LSend []; LSend []; LPoll 0; LPoll 0].

Lemma read_before_reply : (fun y => (r_wire (rs_rdma (y_srv y)), r_recvq (rs_rdma (y_srv y)))) <$> play a_read y0
  = Some ([WMem 4096 99 [4; 5; 6]; WReply (mkReply MSG_STATUS_SUCCESS 8 7 1)], [BdCmd 1; BdCmd 0]).
Proof. vm_compute. reflexivity. Qed.

(** a disconnection while a request is with the dispatcher *)
Definition goodbye : list rlabel :=
  [LRecv (head S5_OP_READ); LPoll 0; LDisconnect; LTake 1; LFlushRecv; LPoll 0; LSub (quiet_env 1) 0 0 0].

Definition y1 : rsys := default y0 (play (take 3 goodbye) y0).
Definition y2 : rsys := default y0 (play (drop 3 goodbye) y1).

Lemma ready : disp_ready 1 [] server.
Proof.
  split; [done| |].
  - split; [|done]. destruct (pool_init_inv 2 empty_queue ltac:(lia)) as (p & E & H & _). vm_compute in E. injection E as <-. exact H.
  - intros i Hi _. change (0 <= i < 2) in Hi. assert (i = 0 \/ i = 1) as [-> | ->] by lia; by exists unused.
Qed.

Lemma play_rtc ls : forall y y', Forall (allowed 1) ls -> play ls y = Some y' -> rtc (rsys_step 1) y y'.
Proof.
  induction ls as [|l ls IH]; intros y y' Ha; cbn [play]; [intros [= <-]; constructor|]. apply Forall_cons_1 in Ha as [Hl Ha]. destruct (rsys_do 1 l y) as [[y1'| |]|] eqn:E; try done. intros H.
  eapply rtc_l; [by exists l|by apply IH].
Qed.

Lemma play_drain ls : forall y y', Forall (fun l => allowed 1 l /\ drains l = true) ls -> play ls y = Some y' -> nsteps (drain 1) (length ls) y y'.
Proof.
  induction ls as [|l ls IH]; intros y y' Ha; cbn [play length]; [intros [= <-]; constructor|]. apply Forall_cons_1 in Ha as [[Hl Hd] Ha]. destruct (rsys_do 1 l y) as [[y1'| |]|] eqn:E; try done. intros H.
  econstructor; [by exists l|by apply IH].
Qed.

Lemma no_drain y : r_recvq (rs_rdma (y_srv y)) = [] -> r_sendq (rs_rdma (y_srv y)) = [] -> r_cq (rs_rdma (y_srv y)) = [] -> d_events (rs_disp (y_srv y)) = [] -> y_held y = ∅ ->
  forall y', ~ drain 1 y y'.
Proof.
  intros H1 H2 H3 H4 H5 y' (l & _ & Hd & E). destruct l; try discriminate Hd; cbn [rsys_do] in E; rewrite ?H1, ?H2, ?H3, ?H4, ?H5, ?lookup_empty in E; try discriminate E; by destruct (r_err _).
Qed.

(** a read of the client's memory that fails with another status (10, a remote access error: the key of the client is wrong) *)
Definition bad_key : list rlabel := [LRecv (head S5_OP_WRITE); LPoll 0; LFail 10; LPoll 0; LDisconnect; LFlushRecv; LPoll 0].
Definition y3 : rsys := default y0 (play bad_key y0).
End RdmaDemo.


(** ** Limits *)
(** A completion with an error that is not WC_FLUSH_ERR is only logged: nothing is left to do after the
    disconnection, but the block keeps its reference and the connection is not deleted. *)
Lemma failed_read_loses_block : RdmaDemo.play RdmaDemo.bad_key RdmaDemo.y0 = Some RdmaDemo.y3 /\ (forall y', ~ drain 1 RdmaDemo.y3 y')
  /\ (c_ref_count <$> d_conns (rs_disp (y_srv RdmaDemo.y3)) !! 9) = Some 1 /\ ((fun io => (i_conn io, i_ref_count io)) <$> d_iocbs (rs_disp (y_srv RdmaDemo.y3)) !! 0) = Some (Some 9, 1).
Proof. split; [vm_compute; reflexivity|]. split; [apply RdmaDemo.no_drain; vm_compute; reflexivity|]. vm_compute. auto. Qed.

(** Refused receive requests while a connection is accepted.  For the first block, giving it up drops
    the only reference and deletes the connection, which the cleaner then deletes again. *)
Lemma accept_deletes_twice : on_connect_request 1 (mkCm true 0 (fun _ => 12) 0) (fun _ => true) 5 1 9 RdmaDemo.server = Undef.
Proof. vm_compute. reflexivity. Qed.

(** For a later block the connection is deleted while the blocks before it still point to it, and they
    are not returned to the pool. *)
Lemma accept_loses_blocks : exists s, on_connect_request 1 (mkCm true 0 (fun n => if (n =? 0)%nat then 12 else 0) 0) (fun _ => true) 5 1 9 RdmaDemo.server = Done (- EINVAL, s)
  /\ d_conns (rs_disp s) !! 9 = None /\ (i_conn <$> d_iocbs (rs_disp s) !! 0) = Some (Some 9) /\ pool_remain (d_iocb_pool (rs_disp s)) = 1.
Proof. eexists. split; [vm_compute; reflexivity|]. vm_compute. auto. Qed.

(** The depth is not checked for a connection without a volume: a negative one ends the process. *)
Lemma negative_depth_ends_process : on_connect_request 1 RdmaDemo.cm (fun _ => true) 0 (-1) 9 RdmaDemo.server = Fatal.
Proof. vm_compute. reflexivity. Qed.

(** EVT_FORCE_RELEASE_CONN takes the reference of a block whose subtask has not ended; when it ends the
    answer takes another one, and the count of the block, already in the pool, wraps around. *)
Definition forced : outcome rsrv :=
  match RdmaDemo.play [LRecv (RdmaDemo.head S5_OP_READ); LPoll 0; LTake 1; LDisconnect] RdmaDemo.y0 with
  | Some y =>
      let* s := on_rdisp (force_release 1 9 [0]) (y_srv y) in
      let* s := end_sub (quiet_env 1) 0 MSG_STATUS_SUCCESS 0 true s in
      on_rdisp (iocb_dec_ref 1 0) s
  | None => Undef
  end.

Lemma forced_release_wraps : exists s, forced = Done s /\ (i_ref_count <$> d_iocbs (rs_disp s) !! 0) = Some (2 ^ 32 - 1) /\ pool_remain (d_iocb_pool (rs_disp s)) = 1.
Proof. eexists. split; [vm_compute; reflexivity|]. vm_compute. auto. Qed.

(** The length of a write is not compared with the size of the buffer: the read that is posted has the length the client asked for. *)
Lemma read_has_client_length disps b i io h s : block_of b = Done i -> d_iocbs (rs_disp s) !! i = Some io -> i_cmd io = h -> h_opcode h = S5_OP_WRITE ->
  exists s', head_received disps 0 b s = Done (1, s') /\ r_sendq (rs_rdma s') = r_sendq (rs_rdma s) ++ [mkWr (BdData i) (h_buf_addr h) (h_rkey h) (i32 (h_length h))].
Proof.
  intros Hb Ei Eh Hw. unfold head_received. rewrite Hb. cbn [obind]. unfold get_iocb. rewrite Ei. cbn [of_option obind]. rewrite Eh, Hw, Z.eqb_refl. cbn [orb].
  unfold rdma_post_read, post_wr. rewrite Z.eqb_refl. cbn [negb]. eexists. split; [reflexivity|]. cbn. by rewrite lookup_insert_eq.
Qed.
